(* ===== verification/_CoqProject ===== *)
-Q . S2P
Prelude.v
Hoare.v
StringC.v
Spinlock.v
Proc.v
Sched.v
ProcOps.v
ProcFacts.v
ProcSpec.v
ProcInv.v
ProcProps.v
ForkExit.v
Kalloc.v
Vm.v
VmProps.v
VmSpace.v
UserMem.v
Irq.v
Pipe.v
Sleeplock.v
Codec.v
Mp.v
Lapic.v
Blocks.v
Bio.v
Ide.v
Memide.v
Layout.v
Log.v
LogProps.v
Fs.v
FsPath.v
FsSpec.v
FsFile.v
FsProps.v
Mkfs.v
MkfsProps.v
Ulib.v
Umalloc.v
Grep.v
Sh.v
ShProps.v
ShRun.v
Utils.v
Console.v
Kbd.v
Syscall.v
Seg.v
Trap.v
File.v
Sysfile.v
FileProps.v
Exec.v
ExecProps.v
Boot.v
