(* ===== verification/Prelude.v ===== *)
(** * A verification of xv6 with the lottery scheduler (src/Assignment1)

    The repository is the teaching kernel xv6 for the 32-bit x86, changed for an
    assignment: exit statuses with wait, tickets, priorities and policies for a
    lottery scheduler, performance counters (wait_stat), programs found through
    the file /path, and a main that may return.  This library translates the C
    sources into functions and proves what they promise.  Every definition that
    models code has the name of the C function, or of its loop or field.

    ** How code is modelled

    A C function is a function in the state monad [M S A] of this file, which
    ends in an [outcome]: it returns ([Ok]), calls panic ([Panic]), does what C
    leaves undefined ([Fault]) or waits for ever ([Blocks]).  The state of a
    component is a record; integers are [Z] with the width of their C type
    written out ([u32], [s32], [u8]).  Tables are lists and pointers into them
    indices, where the code only uses them so; where addresses matter (page
    tables, free lists, malloc, exec, memmove) memory is a map from addresses to
    bytes and pointers are numbers.  What a spinlock protects is one step, but
    the spinlock itself is also studied instruction by instruction, and a call
    that sleeps or switches is cut there into the part before and after.
    [wp m s Q] says that [m] returns from [s] with a result in [Q] (total
    correctness); Hoare.v has the weaker form for code that may also panic or
    wait.

    ** The parts and their files

    Locks and processes.  StringC.v: string.c on byte memory.  Spinlock.v:
    spinlock.c, and any number of CPUs on one lock.  Proc.v, Sched.v, ProcOps.v:
    struct proc, the lottery of proc.c, and its operations; ProcFacts.v,
    ProcSpec.v: the exact effect of each; ProcInv.v: the invariant of the process
    table; ProcProps.v and ForkExit.v: the theorems.  Sleeplock.v: sleeplock.c.

    Memory.  Kalloc.v: kalloc.c with the free list inside the pages.  Vm.v:
    vm.c; VmProps.v: page tables as maps; VmSpace.v, UserMem.v: whole address
    spaces and the pages they own.  Exec.v, ExecProps.v: exec.c and loaduvm.

    Traps and devices.  Seg.v: descriptor tables (mmu.h, seginit, tvinit).
    Trap.v: trap.c, sysproc.c and the dispatch of syscall.c; Syscall.v: fetching
    arguments.  Irq.v: picirq.c, ioapic.c, timer.c.  Mp.v: mp.c.  Lapic.v:
    lapic.c.  Console.v, Kbd.v: console.c, uart.c, kbd.c.  Ide.v, Memide.v: ide.c
    and memide.c.  Boot.v: bootmain.c.

    File system.  Codec.v, Layout.v: bytes of blocks and the structures of fs.h.
    Blocks.v: the contract [BufLayer] between the buffer cache and its clients;
    Bio.v implements it (bio.c), Log.v and LogProps.v use it (log.c).  Fs.v,
    FsPath.v, FsSpec.v, FsFile.v, FsProps.v: fs.c.  File.v, Sysfile.v,
    FileProps.v: file.c and sysfile.c.  Pipe.v: pipe.c.  Mkfs.v, MkfsProps.v:
    mkfs.c, which builds the image on the host.

    User programs.  Ulib.v: ulib.c, printf.c.  Umalloc.v: umalloc.c.  Sh.v,
    ShProps.v, ShRun.v: the shell.  Grep.v: grep.  Utils.v: cat, wc, ls, echo and
    the other small programs.

    The interfaces are classes: the calls of proc.c into the rest of the kernel
    (ProcOps.v), [BufLayer], the IDE controller ([IdePorts], [IdeDisk]), the
    handlers trap calls (Trap.v), the system calls of user programs (Utils.v).
    Hardware and the bytes the build puts into the kernel (pseudo_main,
    initcode) are parameters; laws that are assumed of hardware are fields of a
    class, with an instance that has them.

    ** What is proved

    Scheduling and processes: of the tickets a lottery can draw each RUNNABLE
    process wins for exactly as many as it holds and every ticket has a winner,
    and the process drawn is the one that runs; every reachable
    process table is well formed; fork copies, exit leaves a zombie, wait hands
    over its status once; on any interleaving of any number of CPUs at most one
    holds a spinlock; the timer preempts, and a killed process never returns to
    user code.

    Memory: pages are never lost or handed out twice; mappages, allocuvm,
    copyuvm and freevm do to an address space what they say, and give every page
    back; a failed exec leaves the process as it was, a successful one leaves the
    new image; a system call reads no argument outside the process; descriptors
    protect the kernel; malloc and free keep a heap of disjoint blocks.

    Disk: a transaction is on the disk as a whole or not at all, whatever the
    crash, and recovery finishes it; the buffer cache shows its clients one
    coherent disk; the driver serves every request once, in order; writei and
    readi agree with the bytes of a file and leave other files alone; the
    reference counts of open files are those of the descriptors; pipes are
    queues; the image mkfs builds has the invariant the kernel starts from.

    Interaction and start: the line editor delivers the lines that were typed;
    the parser of the shell builds the tree of the grammar and runcmd runs it;
    grep writes the matching lines and its matcher accepts the language of the
    pattern; wc counts; the boot loader puts every segment into place; mpinit
    and cmostime read what the firmware and the clock say.  An entry of unknown
    type in the BIOS table hangs mpinit, and this is proved as well.

    ** Bounds and fuel

    Recursion that is not structural has fuel.  Where the code's loop is bounded
    the fuel is the bound (entries of a table, bytes of a buffer, sectors of a
    segment) and the definition passes it itself; the theorems then hold without
    any assumption on fuel.  Where a loop waits for a device or reads input, fuel
    is an argument, running out is [Blocks], and the theorems say how much is
    enough (one more than the bytes or requests there are, or the delay the
    device is allowed).  Constants are those of param.h, fs.h and mmu.h.

    ** Not modelled

    Assembly (entry.S, bootasm.S, entryother.S, swtch.S, trapasm.S, usys.S,
    initcode.S): its effect is in the state of the models, a switch of contexts
    or a trap frame.  main.c: a sequence of calls of modelled routines, and the
    start of the other processors, which waits for code of entryother.S.  init.c,
    usertests.c and the other test programs: they have no result but what they
    print about the kernel.  Timing, caches and the ordering of memory between
    processors, apart from the interleavings of Spinlock.v.  The components that
    share memory in the kernel have separate states; where one hands memory to
    another (kalloc to vm.c, vm.c to exec.c, the buffer cache to the log) the
    models are stacked and the theorems composed, elsewhere the other component
    is seen through its class.

    ** This file

    Machine integers, outcomes and the monad with its notations and [wp] rules,
    the tactics and hints, and lemmas on lists, options and numbers. *)

From stdpp Require Export base tactics numbers list strings option relations.
From Stdlib Require Export ZArith Lia.

#[global] Open Scope Z_scope.
#[global] Set Default Goal Selector "!".

(** * Machine integers

    A C integer is a [Z]; arithmetic that can leave the range of its type is
    followed by the wrap of that type.  The sources are compiled for i386 with
    gcc, where [int] and pointers are 32 bits wide and two's complement. *)

Definition u32 (z : Z) : Z := z mod 2 ^ 32.

Definition u16 (z : Z) : Z := z mod 2 ^ 16.

Definition u8 (z : Z) : Z := z mod 2 ^ 8.

Definition s32 (z : Z) : Z := (z + 2 ^ 31) mod 2 ^ 32 - 2 ^ 31.

Definition s16 (z : Z) : Z := (z + 2 ^ 15) mod 2 ^ 16 - 2 ^ 15.

Definition INT_MAX : Z := 2 ^ 31 - 1.

(** C's truth value of a comparison. *)
Definition b2z (b : bool) : Z := if b then 1 else 0.

(** * Outcomes and the kernel monad *)

Inductive outcome (A : Type) : Type :=
| Ok (a : A)              (* the code returned normally *)
| Panic (msg : string)    (* panic(msg): the kernel prints and stops *)
| Fault (what : string)   (* undefined behaviour: null or stray access *)
| Blocks (on : string).   (* the caller spins or sleeps and does not return *)
Arguments Ok {A} a.
Arguments Panic {A} msg.
Arguments Fault {A} what.
Arguments Blocks {A} on.

Definition obind {A B} (o : outcome A) (k : A -> outcome B) : outcome B :=
  match o with
  | Ok a => k a
  | Panic e => Panic e
  | Fault e => Fault e
  | Blocks e => Blocks e
  end.

(** Stateful code over a state [S]. *)
Definition M (S A : Type) : Type := S -> outcome (A * S).

#[global] Instance M_ret {S} : MRet (M S) := fun A a s => Ok (a, s).

#[global] Instance M_bind {S} : MBind (M S) := fun A B k m s =>
  match m s with
  | Ok (a, s') => k a s'
  | Panic e => Panic e
  | Fault e => Fault e
  | Blocks e => Blocks e
  end.

Definition act {S A} (f : S -> outcome (A * S)) : M S A := f.

Definition get {S} : M S S := fun s => Ok (s, s).

Definition gets {S A} (f : S -> A) : M S A := fun s => Ok (f s, s).

Definition modify {S} (f : S -> S) : M S unit := fun s => Ok (tt, f s).

Definition panic {S A} (msg : string) : M S A := fun _ => Panic msg.

Definition fault {S A} (what : string) : M S A := fun _ => Fault what.

Definition blocks {S A} (on : string) : M S A := fun _ => Blocks on.

(** A dereference: the state component is there, or the access is stray. *)
Definition deref {S A} (what : string) (f : S -> option A) : M S A := fun s =>
  match f s with
  | Some a => Ok (a, s)
  | None => Fault what
  end.

Definition when {S} (b : bool) (m : M S unit) : M S unit :=
  if b then m else mret tt.

(** for(i = from; i < from + k; i++) *)
Fixpoint for_n {T} (k from : nat) (body : nat -> M T unit) : M T unit :=
  match k with
  | O => mret tt
  | S k => body from ≫= fun _ => for_n k (S from) body
  end.

(** Did the run return normally? *)
Definition returns {A} (o : outcome A) : Prop := exists a, o = Ok a.

Lemma bind_ret {S A B} (a : A) (k : A -> M S B) s :
  (mret a ≫= k) s = k a s.
Proof. reflexivity. Qed.

Lemma bind_Ok {S A B} (m : M S A) (k : A -> M S B) s a s' :
  m s = Ok (a, s') -> (m ≫= k) s = k a s'.
Proof. unfold mbind, M_bind. by intros ->. Qed.

Lemma bind_Panic {S A B} (m : M S A) (k : A -> M S B) s e :
  m s = Panic e -> (m ≫= k) s = Panic e.
Proof. unfold mbind, M_bind. by intros ->. Qed.

Lemma bind_Ok_inv {S A B} (m : M S A) (k : A -> M S B) s r :
  (m ≫= k) s = Ok r -> exists a s', m s = Ok (a, s') /\ k a s' = Ok r.
Proof.
  unfold mbind, M_bind.
  destruct (m s) as [[a s']| | |]; naive_solver.
Qed.

Lemma deref_Some {S A} w (f : S -> option A) s a :
  f s = Some a -> deref w f s = Ok (a, s).
Proof. unfold deref. by intros ->. Qed.

Lemma deref_inv {S A} w (f : S -> option A) s r :
  deref w f s = Ok r -> exists a, f s = Some a /\ r = (a, s).
Proof. unfold deref. destruct (f s); naive_solver. Qed.

(** [m] returns from [s], with a result and state that satisfy [Q]. *)
Definition wp {S A} (m : M S A) (s : S) (Q : A -> S -> Prop) : Prop :=
  exists a s', m s = Ok (a, s') /\ Q a s'.

Lemma wp_bind {S A B} (m : M S A) (k : A -> M S B) s Q :
  wp m s (fun a s' => wp (k a) s' Q) -> wp (m ≫= k) s Q.
Proof.
  intros (a & s' & Hm & b & t & Hk & HQ). exists b, t. split; [|done].
  by rewrite (bind_Ok _ _ _ _ _ Hm).
Qed.

Lemma wp_ret {S A} (a : A) (s : S) (Q : A -> S -> Prop) : Q a s -> wp (mret a) s Q.
Proof. intros. by exists a, s. Qed.

Lemma wp_get {S} (s : S) (Q : S -> S -> Prop) : Q s s -> wp get s Q.
Proof. intros. by exists s, s. Qed.

Lemma wp_gets {S A} (f : S -> A) s (Q : A -> S -> Prop) : Q (f s) s -> wp (gets f) s Q.
Proof. intros. by exists (f s), s. Qed.

Lemma wp_modify {S} (f : S -> S) s (Q : unit -> S -> Prop) : Q tt (f s) -> wp (modify f) s Q.
Proof. intros. by exists tt, (f s). Qed.

Lemma wp_deref {S A} w (f : S -> option A) s a (Q : A -> S -> Prop) :
  f s = Some a -> Q a s -> wp (deref w f) s Q.
Proof. intros Hf HQ. exists a, s. split; [by apply deref_Some|done]. Qed.

Lemma wp_when {S} (b : bool) (m : M S unit) s Q :
  (b = true -> wp m s Q) -> (b = false -> Q tt s) -> wp (when b m) s Q.
Proof. intros Ht Hf. destruct b; [by apply Ht|]. apply wp_ret. by apply Hf. Qed.

Lemma wp_mono {S A} (m : M S A) s (Q R : A -> S -> Prop) :
  wp m s Q -> (forall a s', Q a s' -> R a s') -> wp m s R.
Proof. intros (a & s' & ? & ?) HQR. exists a, s'. eauto. Qed.

Lemma wp_run {S A} (m : M S A) s a s' (Q : A -> S -> Prop) :
  m s = Ok (a, s') -> Q a s' -> wp m s Q.
Proof. intros. by exists a, s'. Qed.

(** A loop keeps [I], indexed by how many turns are done. *)
Lemma wp_for {T} (I : nat -> T -> Prop) k from (body : nat -> M T unit) s (Q : unit -> T -> Prop) :
  I from s ->
  (forall i s, (from <= i < from + k)%nat -> I i s -> wp (body i) s (fun _ t => I (S i) t)) ->
  (forall t, I (from + k)%nat t -> Q tt t) ->
  wp (for_n k from body) s Q.
Proof.
  revert from s. induction k as [|k IH]; intros from s HI Hb HQ.
  - apply wp_ret, HQ. by rewrite Nat.add_0_r.
  - cbn [for_n]. apply wp_bind. eapply wp_mono; [apply Hb; [lia|done]|]. intros u t Ht. cbn beta in *.
    apply IH; [done| |].
    + intros i v Hi. apply Hb. lia.
    + intros v Hv. apply HQ. by replace (from + S k)%nat with (S from + k)%nat by lia.
Qed.

(** * Tactics *)

Ltac zdm := unfold u32, u16, u8, s32, s16 in *;
  Z.div_mod_to_equations; lia.

(** Unfold the monad's plumbing in the goal. *)
Ltac munfold := cbv [mbind M_bind mret M_ret act get gets modify panic fault
  blocks deref when] in *; cbn beta iota in *.

(** Turn boolean tests of the code into propositions. *)
Ltac bools := repeat match goal with
  | H : (_ && _)%bool = true |- _ => apply andb_true_iff in H as [? ?]
  | H : (_ || _)%bool = false |- _ => apply orb_false_iff in H as [? ?]
  | H : (_ && _)%bool = false |- _ => apply andb_false_iff in H as [H|H]
  | H : (_ || _)%bool = true |- _ => apply orb_true_iff in H as [H|H]
  | H : negb _ = true |- _ => apply negb_true_iff in H
  | H : negb _ = false |- _ => apply negb_false_iff in H
  | H : (_ =? _) = true |- _ => apply Z.eqb_eq in H
  | H : (_ =? _) = false |- _ => apply Z.eqb_neq in H
  | H : (_ <? _) = true |- _ => apply Z.ltb_lt in H
  | H : (_ <? _) = false |- _ => apply Z.ltb_ge in H
  | H : (_ <=? _) = true |- _ => apply Z.leb_le in H
  | H : (_ <=? _) = false |- _ => apply Z.leb_gt in H
  | H : bool_decide _ = true |- _ => apply bool_decide_eq_true in H
  | H : bool_decide _ = false |- _ => apply bool_decide_eq_false in H
  end.

(** Case analysis on the first undecided test or match of the goal. *)
Ltac step_case := match goal with
  | |- context [if ?b then _ else _] => let E := fresh "E" in destruct b eqn:E
  | |- context [match ?x with _ => _ end] => let E := fresh "E" in destruct x eqn:E
  end.

Ltac step_case_in H := match type of H with
  | context [if ?b then _ else _] => let E := fresh "E" in destruct b eqn:E
  | context [match ?x with _ => _ end] => let E := fresh "E" in destruct x eqn:E
  end.

Create HintDb os.
#[export] Hint Resolve bind_Ok bind_Panic deref_Some : os.

(** * Wrap-around lemmas *)

Lemma u32_range z : 0 <= u32 z < 2 ^ 32.
Proof. apply Z.mod_pos_bound. lia. Qed.

Lemma u32_small z : 0 <= z < 2 ^ 32 -> u32 z = z.
Proof. apply Z.mod_small. Qed.

Lemma u8_range z : 0 <= u8 z < 256.
Proof. apply Z.mod_pos_bound. lia. Qed.

Lemma u8_small z : 0 <= z < 256 -> u8 z = z.
Proof. apply Z.mod_small. Qed.

Lemma s32_small z : - 2 ^ 31 <= z < 2 ^ 31 -> s32 z = z.
Proof. intros. zdm. Qed.

Lemma s32_range z : - 2 ^ 31 <= s32 z < 2 ^ 31.
Proof. zdm. Qed.

Lemma u32_s32 z : u32 (s32 z) = u32 z.
Proof. zdm. Qed.

Lemma s32_u32 z : s32 (u32 z) = s32 z.
Proof. zdm. Qed.

Lemma u32_add_l a b : u32 (u32 a + b) = u32 (a + b).
Proof. unfold u32. by rewrite Zplus_mod_idemp_l. Qed.

Lemma u32_sub_l a b : u32 (u32 a - b) = u32 (a - b).
Proof. unfold u32. by rewrite Zminus_mod_idemp_l. Qed.

(** Clearing the [k] low bits of a word. *)
Lemma land_high x k :
  0 <= x < 2 ^ 32 -> 0 <= k <= 32 -> Z.land x (Z.shiftl (Z.ones (32 - k)) k) = x - x mod 2 ^ k.
Proof.
  intros Hx Hk. replace (x - x mod 2 ^ k) with (Z.shiftl (Z.shiftr x k) k).
  2:{ rewrite Z.shiftl_mul_pow2, Z.shiftr_div_pow2, Z.mod_eq by lia. lia. }
  apply Z.bits_inj'. intros n Hn. rewrite Z.land_spec, !Z.shiftl_spec by lia.
  destruct (Z.lt_ge_cases n k).
  - rewrite !(Z.testbit_neg_r _ (n - k)) by lia. apply andb_false_r.
  - rewrite Z.shiftr_spec by lia. replace (n - k + k) with n by lia.
    destruct (Z.lt_ge_cases n 32).
    + rewrite Z.ones_spec_low by lia. apply andb_true_r.
    + rewrite Z.ones_spec_high by lia. rewrite andb_false_r. symmetry.
      destruct (decide (x = 0)) as [->|]; [apply Z.testbit_0_l|].
      apply Z.bits_above_log2; [lia|]. assert (Z.log2 x < 32) by (apply Z.log2_lt_pow2; lia). lia.
Qed.

(** * Lists *)

Lemma list_lookup_insert_dec {A} (l : list A) i j x :
  <[i:=x]> l !! j =
    if decide (i = j /\ (i < length l)%nat) then Some x else l !! j.
Proof.
  case_decide as H.
  - destruct H as [-> H]. by apply list_lookup_insert_eq.
  - destruct (decide (i = j)) as [->|]; [|by apply list_lookup_insert_ne].
    by rewrite list_insert_ge by lia.
Qed.

Lemma alter_insert {A} (g : A -> A) (l : list A) (i : nat) x : l !! i = Some x -> alter g i l = <[i := g x]> l.
Proof.
  revert i. induction l as [|z l IH]; intros [|i] Hi; simplify_eq/=; [done|]. f_equal. by apply IH.
Qed.

Lemma alter_stray {A} (g : A -> A) (l : list A) (i : nat) : l !! i = None -> alter g i l = l.
Proof.
  revert i. induction l as [|z l IH]; intros [|i] Hi; simplify_eq/=; [done..|]. f_equal. by apply IH.
Qed.

Lemma find_index_Some {A} (P : A -> bool) (l : list A) i x :
  l !! i = Some x -> P x = true ->
  exists j y, (j <= i)%nat /\ l !! j = Some y /\ P y = true /\
    forall k z, (k < j)%nat -> l !! k = Some z -> P z = false.
Proof.
  revert i. induction l as [|a l IH]; intros i Hi Hx; [done|].
  destruct (P a) eqn:Ea.
  - exists 0%nat, a. repeat split; [lia|done|]. intros; lia.
  - destruct i as [|i]; [simpl in *; congruence|].
    destruct (IH i Hi Hx) as (j & y & Hj & Hy & Py & Hk).
    exists (S j), y. repeat split; [lia|done|done|].
    intros [|k] z Hlt Hz; [naive_solver|].
    apply (Hk k z); [lia|done].
Qed.

Lemma filter_none {A} (P : A -> Prop) `{!forall x, Decision (P x)} (l : list A) :
  (forall x, x ∈ l -> ~ P x) -> filter P l = [].
Proof.
  induction l as [|a l IH]; intros Hl; [done|].
  rewrite filter_cons_False by (apply Hl; left). apply IH. intros x Hx. apply Hl. by right.
Qed.

Lemma filter_all {A} (P : A -> Prop) `{!forall x, Decision (P x)} (l : list A) :
  (forall x, x ∈ l -> P x) -> filter P l = l.
Proof.
  induction l as [|a l IH]; intros Hl; [done|].
  rewrite filter_cons_True by (apply Hl; left). f_equal. apply IH. intros x Hx. apply Hl. by right.
Qed.

Lemma fmap_S_Some (o : option nat) j : S <$> o = Some (S j) <-> o = Some j.
Proof. destruct o; simpl; split; congruence. Qed.
