(* ===== verification/Hoare.v ===== *)
(** Partial correctness of stateful code: what a run that returns leaves. *)

From S2P Require Import Prelude.

(** * Partial correctness

    [holds P m Q]: if [m] returns from a state in [P], its result and state
    are in [Q]. *)
Definition holds {S A} (P : S -> Prop) (m : M S A) (Q : A -> S -> Prop) : Prop :=
  forall s a s', P s -> m s = Ok (a, s') -> Q a s'.

Definition keeps {S A} (P : S -> Prop) (m : M S A) : Prop := holds P m (fun _ => P).

Section logic.
Context {S : Type}.
Implicit Types (P : S -> Prop) (s : S).

Lemma holds_bind {A B} P (m : M S A) (R : A -> S -> Prop) (k : A -> M S B) Q :
  holds P m R -> (forall a, holds (R a) (k a) Q) -> holds P (m ≫= k) Q.
Proof.
  intros Hm Hk s b s' HP Hr. apply bind_Ok_inv in Hr as (a & t & Ha & Hr).
  exact (Hk a t b s' (Hm s a t HP Ha) Hr).
Qed.

Lemma holds_ret {A} (a : A) P (Q : A -> S -> Prop) :
  (forall s, P s -> Q a s) -> holds P (mret a) Q.
Proof. intros H s b s' HP Hr. injection Hr as <- <-. by apply H. Qed.

Lemma holds_gets {A} (f : S -> A) P : holds P (gets f) (fun a s => P s /\ f s = a).
Proof. intros s b s' HP Hr. injection Hr as <- <-. done. Qed.

Lemma holds_modify (f : S -> S) P (Q : unit -> S -> Prop) :
  (forall s, P s -> Q tt (f s)) -> holds P (modify f) Q.
Proof. intros H s b s' HP Hr. injection Hr as <- <-. by apply H. Qed.

Lemma holds_deref {A} w (f : S -> option A) P :
  holds P (deref w f) (fun a s => P s /\ f s = Some a).
Proof. intros s b s' HP Hr. apply deref_inv in Hr as (a & ? & Hr). injection Hr as <- <-. done. Qed.

Lemma holds_when P (b : bool) (m : M S unit) (Q : unit -> S -> Prop) :
  (b = true -> holds P m Q) -> (b = false -> forall s, P s -> Q tt s) -> holds P (when b m) Q.
Proof.
  intros Ht Hf s a s' HP Hr. destruct b; simpl in Hr; [by eapply Ht|].
  injection Hr as <- <-. by apply Hf.
Qed.

Lemma holds_panic {A} P e (Q : A -> S -> Prop) : holds P (panic e) Q.
Proof. intros s a s' _ Hr. discriminate Hr. Qed.

Lemma holds_fault {A} P e (Q : A -> S -> Prop) : holds P (fault e) Q.
Proof. intros s a s' _ Hr. discriminate Hr. Qed.

Lemma holds_conseq {A} P P' (m : M S A) (Q Q' : A -> S -> Prop) :
  holds P' m Q' -> (forall s, P s -> P' s) -> (forall a s, Q' a s -> Q a s) -> holds P m Q.
Proof. intros H HP HQ s a s' Hs Hr. eauto. Qed.

(** From the invariant of a piece of code to the facts needed of it. *)
Lemma keeps_conseq {A} R P (m : M S A) (Q : A -> S -> Prop) :
  (forall s, P s -> R s) -> (forall a s, R s -> Q a s) -> keeps R m -> holds P m Q.
Proof. intros HP HQ Hk s a s' Hs Hr. eapply HQ, Hk; [|done]. by apply HP. Qed.

Lemma keeps_gets {A} P (f : S -> A) : keeps P (gets f).
Proof. intros s b s' HP Hr. by injection Hr as <- <-. Qed.

Lemma keeps_get P : keeps P get.
Proof. intros s b s' HP Hr. by injection Hr as <- <-. Qed.

Lemma keeps_deref {A} P w (f : S -> option A) : keeps P (deref w f).
Proof.
  intros s b s' HP Hr. apply deref_inv in Hr as (a & ? & Hr). by injection Hr as <- <-.
Qed.

Lemma keeps_when P (b : bool) (m : M S unit) : keeps P m -> keeps P (when b m).
Proof. intros Hm. by apply holds_when. Qed.

Lemma keeps_bind {A B} P (m : M S A) (k : A -> M S B) :
  keeps P m -> (forall a, keeps P (k a)) -> keeps P (m ≫= k).
Proof. intros Hm Hk. by eapply holds_bind. Qed.

Lemma keeps_ret {A} P (a : A) : keeps P (mret a).
Proof. by apply holds_ret. Qed.

Lemma keeps_panic {A} P e : keeps (A := A) P (panic e).
Proof. apply holds_panic. Qed.

Lemma keeps_blocks {A} P e : keeps (A := A) P (blocks e).
Proof. intros s a s' _ Hr. discriminate Hr. Qed.

Lemma keeps_for P k i (body : nat -> M S unit) :
  (forall i, keeps P (body i)) -> keeps P (for_n k i body).
Proof.
  intros Hb. revert i. induction k as [|k IH]; intros i; cbn [for_n]; [apply keeps_ret|].
  by apply keeps_bind.
Qed.

(** ** From one state *)

Definition post {A} (m : M S A) s (Q : A -> S -> Prop) : Prop :=
  forall a t, m s = Ok (a, t) -> Q a t.

Lemma keeps_post {A} P (m : M S A) : (forall s, P s -> post m s (fun _ => P)) -> keeps P m.
Proof. intros H s a t Hs. by apply (H s Hs). Qed.

Lemma post_keeps {A} P (m : M S A) s : keeps P m -> P s -> post m s (fun _ => P).
Proof. intros H Hs a t. by apply (H s). Qed.

Lemma post_bind {A B} (m : M S A) (k : A -> M S B) s Q :
  post m s (fun a t => post (k a) t Q) -> post (m ≫= k) s Q.
Proof. intros Hm b t H. apply bind_Ok_inv in H as (a & u & H1 & H2). by apply (Hm a u H1). Qed.

Lemma post_ret {A} (a : A) s (Q : A -> S -> Prop) : Q a s -> post (mret a) s Q.
Proof. by intros HQ b t [= <- <-]. Qed.

Lemma post_gets {A} (f : S -> A) s (Q : A -> S -> Prop) : Q (f s) s -> post (gets f) s Q.
Proof. by intros HQ b t [= <- <-]. Qed.

Lemma post_modify (f : S -> S) s (Q : unit -> S -> Prop) : Q tt (f s) -> post (modify f) s Q.
Proof. by intros HQ b t [= <- <-]. Qed.

Lemma post_blocks {A} e s (Q : A -> S -> Prop) : post (blocks e) s Q.
Proof. by intros b t. Qed.

Lemma post_deref {A} w (f : S -> option A) s (Q : A -> S -> Prop) :
  (forall a, f s = Some a -> Q a s) -> post (deref w f) s Q.
Proof. intros HQ b t H. apply deref_inv in H as (a & Ha & [= -> ->]). by apply HQ. Qed.

Lemma post_mono {A} (m : M S A) s (Q R : A -> S -> Prop) :
  post m s Q -> (forall a t, Q a t -> R a t) -> post m s R.
Proof. intros Hm HQR a t H. by apply HQR, Hm. Qed.

Lemma post_wp {A} (m : M S A) s (Q : A -> S -> Prop) : wp m s Q -> post m s Q.
Proof. intros (a & t & H & HQ) b u H'. rewrite H in H'. by injection H' as <- <-. Qed.

(** A loop keeps [I], indexed by how many turns are done. *)
Lemma post_for (I : nat -> S -> Prop) k from (body : nat -> M S unit) s :
  I from s ->
  (forall i t, (from <= i < from + k)%nat -> I i t -> post (body i) t (fun _ u => I (i + 1)%nat u)) ->
  post (for_n k from body) s (fun _ t => I (from + k)%nat t).
Proof.
  revert from s. induction k as [|k IH]; intros from s HI Hb; cbn [for_n].
  - apply post_ret. by rewrite Nat.add_0_r.
  - apply post_bind. eapply post_mono; [apply Hb; [lia|done]|]. intros u t Ht. cbn beta in *.
    rewrite Nat.add_1_r in Ht. replace (from + Datatypes.S k)%nat with (Datatypes.S from + k)%nat by lia.
    apply IH; [done|]. intros i v Hi. apply Hb. lia.
Qed.

End logic.

Create HintDb keeps.
#[export] Hint Resolve keeps_ret keeps_gets keeps_deref keeps_panic keeps_blocks keeps_when : keeps.

(** Walks through the calls, conditions and matches of a routine. *)
Ltac keeps_walk := repeat (intros; first
  [ solve [eauto with keeps nocore]
  | apply keeps_bind
  | match goal with |- keeps _ (match ?x with _ => _ end) => destruct x end ]).
