(* ===== verification/StringC.v ===== *)
(** Byte memory and string.c.

    Memory is a total map from addresses to bytes; a pointer is its address.
    The routines of string.c run on this memory store by store, in the order
    of the source, so that overlapping regions behave as they do in C. *)

From S2P Require Import Prelude.

(** * Memory *)

Definition mem : Type := Z -> Z.

Definition upd (m : mem) (a v : Z) : mem :=
  fun x => if x =? a then u8 v else m x.

(** Little-endian 32-bit access, as the i386 does it. *)
Definition load32 (m : mem) (a : Z) : Z :=
  m a + 2 ^ 8 * m (a + 1) + 2 ^ 16 * m (a + 2) + 2 ^ 24 * m (a + 3).

Definition store32 (m : mem) (a v : Z) : mem :=
  upd (upd (upd (upd m a v) (a + 1) (Z.shiftr v 8))
    (a + 2) (Z.shiftr v 16)) (a + 3) (Z.shiftr v 24).

(** Every cell holds a byte. *)
Definition byte_mem (m : mem) : Prop := forall a, 0 <= m a < 256.

(** The [n] bytes at [a]. *)
Fixpoint bytes_at (m : mem) (a : Z) (n : nat) : list Z :=
  match n with
  | O => []
  | S n => m a :: bytes_at m (a + 1) n
  end.

(** * x86 string stores *)

Fixpoint stosb_loop (cnt : nat) (m : mem) (addr data : Z) : mem :=
  match cnt with
  | O => m
  | S cnt => stosb_loop cnt (upd m addr data) (addr + 1) data
  end.

Definition stosb (m : mem) (addr data cnt : Z) : mem :=
  stosb_loop (Z.to_nat cnt) m addr data.

Fixpoint stosl_loop (cnt : nat) (m : mem) (addr data : Z) : mem :=
  match cnt with
  | O => m
  | S cnt => stosl_loop cnt (store32 m addr data) (addr + 4) data
  end.

Definition stosl (m : mem) (addr data cnt : Z) : mem :=
  stosl_loop (Z.to_nat cnt) m addr data.

(** * string.c *)

Definition memset (m : mem) (dst c n : Z) : mem :=
  if (Z.rem (s32 dst) 4 =? 0) && (n mod 4 =? 0) then
    let c := Z.land c 0xFF in
    stosl m dst
      (s32 (Z.lor (Z.lor (Z.lor (Z.shiftl c 24) (Z.shiftl c 16))
        (Z.shiftl c 8)) c)) (n / 4)
  else stosb m dst c n.

Fixpoint memcmp_loop (n : nat) (m : mem) (s1 s2 : Z) : Z :=
  match n with
  | O => 0
  | S n =>
      if negb (m s1 =? m s2) then m s1 - m s2
      else memcmp_loop n m (s1 + 1) (s2 + 1)
  end.

Definition memcmp (m : mem) (v1 v2 n : Z) : Z :=
  memcmp_loop (Z.to_nat n) m v1 v2.

Fixpoint copy_down (n : nat) (m : mem) (d s : Z) : mem :=
  match n with
  | O => m
  | S n => copy_down n (upd m (d - 1) (m (s - 1))) (d - 1) (s - 1)
  end.

Fixpoint copy_up (n : nat) (m : mem) (d s : Z) : mem :=
  match n with
  | O => m
  | S n => copy_up n (upd m d (m s)) (d + 1) (s + 1)
  end.

Definition memmove (m : mem) (dst src n : Z) : mem :=
  if (src <? dst) && (dst <? src + n) then
    copy_down (Z.to_nat n) m (dst + n) (src + n)
  else copy_up (Z.to_nat n) m dst src.

Definition memcpy (m : mem) (dst src n : Z) : mem := memmove m dst src n.

Fixpoint strncmp_loop (n : nat) (m : mem) (p q : Z) : Z :=
  match n with
  | O => 0
  | S n =>
      if negb (m p =? 0) && (m p =? m q) then strncmp_loop n m (p + 1) (q + 1)
      else m p - m q
  end.

Definition strncmp (m : mem) (p q n : Z) : Z :=
  strncmp_loop (Z.to_nat n) m p q.

(** The padding loop of strncpy. *)
Fixpoint pad_loop (n : nat) (m : mem) (s : Z) : mem :=
  match n with
  | O => m
  | S n => pad_loop n (upd m s 0) (s + 1)
  end.

Fixpoint strncpy_loop (n : nat) (m : mem) (s t : Z) : mem :=
  match n with
  | O => m
  | S n =>
      let m' := upd m s (m t) in
      if negb (m t =? 0) then strncpy_loop n m' (s + 1) (t + 1)
      else pad_loop n m' (s + 1)
  end.

Definition strncpy (m : mem) (s t n : Z) : mem :=
  strncpy_loop (Z.to_nat n) m s t.

(** [n] counts the iterations still allowed by [--n > 0]. *)
Fixpoint safestrcpy_loop (n : nat) (m : mem) (s t : Z) : mem :=
  match n with
  | O => upd m s 0
  | S n =>
      let m' := upd m s (m t) in
      if negb (m t =? 0) then safestrcpy_loop n m' (s + 1) (t + 1)
      else upd m' (s + 1) 0
  end.

Definition safestrcpy (m : mem) (s t n : Z) : mem :=
  if n <=? 0 then m else safestrcpy_loop (Z.to_nat (n - 1)) m s t.

(** strlen scans until a NUL; [fuel] bounds the scan, [None] means that no
    NUL was met within it. *)
Fixpoint strlen_loop (fuel : nat) (m : mem) (s n : Z) : option Z :=
  match fuel with
  | O => None
  | S fuel => if negb (m (s + n) =? 0) then strlen_loop fuel m s (n + 1) else Some n
  end.

Definition strlen (fuel : nat) (m : mem) (s : Z) : option Z :=
  strlen_loop fuel m s 0.

(** * The same copies on byte buffers

    Kernel structures keep short names as byte lists; these are the images of
    the copies above on such buffers (see [safestrcpy_refines]). *)

(** [buf] is the destination's old contents, [src] the source bytes. *)
Fixpoint safestrcpy_buf (n : nat) (buf src : list Z) : list Z :=
  match n, buf with
  | _, [] => []
  | O, _ :: b => 0 :: b
  | S n, x :: b =>
      match src with
      | [] => 0 :: (match b with [] => [] | _ :: b => 0 :: b end)
      | c :: src =>
          if negb (c =? 0) then c :: safestrcpy_buf n b src
          else 0 :: (match b with [] => [] | _ :: b => 0 :: b end)
      end
  end.

(** The bytes before the first NUL. *)
Fixpoint cstr (l : list Z) : list Z :=
  match l with
  | [] => []
  | c :: l => if c =? 0 then [] else c :: cstr l
  end.

(** strncmp on byte buffers. *)
Fixpoint strncmp_buf (n : nat) (p q : list Z) : Z :=
  match n with
  | O => 0
  | S n =>
      let a := default 0 (head p) in
      let b := default 0 (head q) in
      if negb (a =? 0) && (a =? b) then strncmp_buf n (tail p) (tail q)
      else a - b
  end.

(** strncpy on byte buffers: the new contents of an [n]-byte destination. *)
Fixpoint strncpy_buf (n : nat) (t : list Z) : list Z :=
  match n with
  | O => []
  | S n =>
      match t with
      | [] => replicate (S n) 0
      | c :: t => if negb (c =? 0) then c :: strncpy_buf n t else replicate (S n) 0
      end
  end.

(** * Lemmas on memory *)

Lemma upd_eq m a v : upd m a v a = u8 v.
Proof. unfold upd. by rewrite Z.eqb_refl. Qed.

Lemma upd_ne m a v x : x <> a -> upd m a v x = m x.
Proof. intros. unfold upd. by destruct (Z.eqb_spec x a). Qed.

Lemma upd_byte_mem m a v : byte_mem m -> byte_mem (upd m a v).
Proof. intros H x. unfold upd. case_match; [apply u8_range|apply H]. Qed.

Lemma load32_range m a : byte_mem m -> 0 <= load32 m a < 2 ^ 32.
Proof.
  intros H. unfold load32.
  pose proof (H a). pose proof (H (a + 1)).
  pose proof (H (a + 2)). pose proof (H (a + 3)). lia.
Qed.

Lemma store32_byte m a v x :
  store32 m a v x =
    if (a <=? x) && (x <? a + 4) then u8 (Z.shiftr v (8 * (x - a))) else m x.
Proof.
  unfold store32, upd.
  destruct (Z.leb_spec a x), (Z.ltb_spec x (a + 4)); simpl;
    repeat case_match; bools; try lia; subst; f_equal; f_equal; try lia.
  rewrite <-(Z.shiftr_0_r v). f_equal. lia.
Qed.

Lemma store32_byte_mem m a v : byte_mem m -> byte_mem (store32 m a v).
Proof. intros H. unfold store32. by repeat apply upd_byte_mem. Qed.

Lemma load32_store32 m a v : load32 (store32 m a v) a = u32 v.
Proof.
  unfold load32. rewrite !store32_byte.
  repeat case_match; bools; try lia.
  replace (8 * (a - a)) with 0 by lia.
  replace (8 * (a + 1 - a)) with 8 by lia.
  replace (8 * (a + 2 - a)) with 16 by lia.
  replace (8 * (a + 3 - a)) with 24 by lia.
  rewrite !Z.shiftr_div_pow2 by lia. zdm.
Qed.

Lemma load32_ext m m' a :
  (forall x, a <= x < a + 4 -> m x = m' x) -> load32 m a = load32 m' a.
Proof. intros H. unfold load32. rewrite !H by lia. done. Qed.

Lemma load32_store32_ne m a v b :
  b + 4 <= a \/ a + 4 <= b -> load32 (store32 m a v) b = load32 m b.
Proof.
  intros. apply load32_ext. intros x ?. rewrite store32_byte.
  case_match; bools; lia.
Qed.

(** * Functional specifications of the copies and fills *)

Lemma stosb_loop_spec cnt m addr data x :
  stosb_loop cnt m addr data x =
    if (addr <=? x) && (x <? addr + Z.of_nat cnt) then u8 data else m x.
Proof.
  revert m addr. induction cnt as [|cnt IH]; intros m addr; simpl.
  - case_match; bools; lia || done.
  - rewrite IH. unfold upd. repeat case_match; bools; subst; lia || done.
Qed.

Lemma stosl_loop_spec cnt m addr data c x :
  (forall k, 0 <= k < 4 -> u8 (Z.shiftr data (8 * k)) = c) ->
  stosl_loop cnt m addr data x =
    if (addr <=? x) && (x <? addr + 4 * Z.of_nat cnt) then c else m x.
Proof.
  intros Hc. revert m addr.
  induction cnt as [|cnt IH]; intros m addr; simpl.
  - case_match; bools; lia || done.
  - rewrite IH, store32_byte.
    repeat case_match; bools; try lia; try done. apply Hc. lia.
Qed.

(** The word [memset] builds repeats the byte. *)
Lemma memset_word c k :
  0 <= k < 4 ->
  u8 (Z.shiftr (s32 (Z.lor (Z.lor (Z.lor (Z.shiftl (Z.land c 0xFF) 24)
    (Z.shiftl (Z.land c 0xFF) 16)) (Z.shiftl (Z.land c 0xFF) 8))
    (Z.land c 0xFF))) (8 * k)) = u8 c.
Proof.
  intros Hk. change 0xFF with (Z.ones 8). rewrite Z.land_ones by lia.
  pose proof (Z.mod_pos_bound c (2 ^ 8) ltac:(lia)) as Hb.
  unfold u8 at 2. generalize dependent (c mod 2 ^ 8). intros b Hb.
  assert (forallb (fun b => forallb (fun k => u8 (Z.shiftr (s32 (Z.lor (Z.lor
    (Z.lor (Z.shiftl b 24) (Z.shiftl b 16)) (Z.shiftl b 8)) b)) (8 * k)) =? b)
    [0; 1; 2; 3]) (map Z.of_nat (seq 0 256)) = true) as Hall
    by (vm_compute; reflexivity).
  rewrite forallb_forall in Hall. specialize (Hall b).
  rewrite forallb_forall in Hall.
  apply Z.eqb_eq, Hall; [|simpl; lia].
  apply in_map_iff. exists (Z.to_nat b). split; [lia|]. apply in_seq. lia.
Qed.

Lemma memset_byte m dst c n x :
  0 <= n ->
  memset m dst c n x =
    if (dst <=? x) && (x <? dst + n) then u8 c else m x.
Proof.
  intros Hn. unfold memset. case_match; bools.
  - unfold stosl. rewrite (stosl_loop_spec _ _ _ _ (u8 c)) by apply memset_word.
    replace (dst + 4 * Z.of_nat (Z.to_nat (n / 4))) with (dst + n) by zdm. done.
  - unfold stosb. rewrite stosb_loop_spec.
    by replace (Z.of_nat (Z.to_nat n)) with n by lia.
  - unfold stosb. rewrite stosb_loop_spec.
    by replace (Z.of_nat (Z.to_nat n)) with n by lia.
Qed.

Lemma memset_byte_mem m dst c n : 0 <= n -> byte_mem m -> byte_mem (memset m dst c n).
Proof.
  intros Hn H x. rewrite memset_byte by done.
  case_match; [apply u8_range|apply H].
Qed.

Lemma copy_up_spec n m d s x :
  byte_mem m -> d <= s \/ s + Z.of_nat n <= d ->
  copy_up n m d s x =
    if (d <=? x) && (x <? d + Z.of_nat n) then m (s + (x - d)) else m x.
Proof.
  revert m d s. induction n as [|n IH]; intros m d s Hm Hds.
  - simpl. case_match; bools; lia || done.
  - cbn [copy_up]. rewrite IH by (by apply upd_byte_mem || lia).
    unfold upd. repeat case_match; bools; subst; try lia; try done.
    + f_equal. lia.
    + rewrite u8_small by apply Hm. f_equal. lia.
Qed.

Lemma copy_down_spec n m d s x :
  byte_mem m -> s < d ->
  copy_down n m d s x =
    if (d - Z.of_nat n <=? x) && (x <? d) then m (s - (d - x)) else m x.
Proof.
  revert m d s. induction n as [|n IH]; intros m d s Hm Hds.
  - simpl. case_match; bools; lia || done.
  - cbn [copy_down]. rewrite IH by (by apply upd_byte_mem || lia).
    unfold upd. repeat case_match; bools; subst; try lia; try done.
    + f_equal. lia.
    + rewrite u8_small by apply Hm. f_equal. lia.
Qed.

Lemma memmove_byte m dst src n x :
  byte_mem m -> 0 <= n ->
  memmove m dst src n x =
    if (dst <=? x) && (x <? dst + n) then m (src + (x - dst)) else m x.
Proof.
  intros Hm Hn. unfold memmove. case_match; bools.
  - rewrite copy_down_spec by (done || lia).
    replace (dst + n - Z.of_nat (Z.to_nat n)) with dst by lia.
    case_match; [|done]. f_equal. lia.
  - rewrite copy_up_spec by (done || lia).
    by replace (Z.of_nat (Z.to_nat n)) with n by lia.
  - rewrite copy_up_spec by (done || lia).
    by replace (Z.of_nat (Z.to_nat n)) with n by lia.
Qed.

Lemma memmove_byte_mem m dst src n :
  0 <= n -> byte_mem m -> byte_mem (memmove m dst src n).
Proof.
  intros Hn H x. rewrite memmove_byte by done. case_match; apply H.
Qed.

Lemma length_bytes_at m a n : length (bytes_at m a n) = n.
Proof. revert a. induction n; intros a; simpl; [done|]. by f_equal. Qed.

Lemma bytes_at_ext m m' a n :
  (forall x, a <= x < a + Z.of_nat n -> m x = m' x) ->
  bytes_at m a n = bytes_at m' a n.
Proof.
  revert a. induction n as [|n IH]; intros a H; [done|]. simpl.
  rewrite H by lia. f_equal. apply IH. intros x Hx. apply H. lia.
Qed.

Lemma bytes_at_lookup m a n i :
  (i < n)%nat -> bytes_at m a n !! i = Some (m (a + Z.of_nat i)).
Proof.
  revert a i. induction n as [|n IH]; intros a i H; [lia|].
  destruct i as [|i]; simpl.
  - do 2 f_equal. lia.
  - rewrite IH by lia. do 2 f_equal. lia.
Qed.

(** * Comparisons *)

Lemma memcmp_loop_zero n m s1 s2 :
  memcmp_loop n m s1 s2 = 0 <-> bytes_at m s1 n = bytes_at m s2 n.
Proof.
  revert s1 s2. induction n as [|n IH]; intros s1 s2; [done|]. simpl.
  case_match; bools.
  - split; intros; [lia|]. simplify_eq.
  - rewrite IH. rewrite H. split; [by intros ->|]. by intros [= ?].
Qed.

Lemma strncmp_loop_buf n m p q :
  strncmp_loop n m p q = strncmp_buf n (bytes_at m p n) (bytes_at m q n).
Proof.
  revert p q. induction n as [|n IH]; intros p q; [done|]. simpl.
  by rewrite IH.
Qed.

Lemma strncmp_buf_zero n p q :
  length p = n -> length q = n -> strncmp_buf n p q = 0 <-> cstr p = cstr q.
Proof.
  revert p q. induction n as [|n IH]; intros p q Hp Hq.
  - apply nil_length_inv in Hp as ->, Hq as ->. done.
  - destruct p as [|a p], q as [|b q]; try done. simpl in *.
    destruct (Z.eqb_spec a 0), (Z.eqb_spec b 0), (Z.eqb_spec a b); simpl;
      subst; try (split; [lia|done]); try done; try lia.
    all: rewrite ?IH by lia.
    all: first [split; [by intros ->|by intros [= ?]] | split; [lia|congruence]].
Qed.

(** * Copies of strings *)

Lemma pad_loop_byte n m s x :
  pad_loop n m s x = if (s <=? x) && (x <? s + Z.of_nat n) then 0 else m x.
Proof.
  revert m s. induction n as [|n IH]; intros m s; simpl.
  - case_match; bools; lia || done.
  - rewrite IH. unfold upd. repeat case_match; bools; subst; lia || done.
Qed.

Lemma bytes_at_pad n m s : bytes_at (pad_loop n m s) s n = replicate n 0.
Proof.
  apply list_eq. intros i. destruct (decide (i < n)%nat).
  - rewrite bytes_at_lookup by lia. rewrite pad_loop_byte.
    rewrite lookup_replicate_2 by lia. case_match; bools; lia || done.
  - rewrite !lookup_ge_None_2; [done|rewrite length_replicate; lia|].
    rewrite length_bytes_at; lia.
Qed.

Lemma strncpy_loop_frame n m s t x :
  x < s \/ s + Z.of_nat n <= x -> strncpy_loop n m s t x = m x.
Proof.
  revert m s t. induction n as [|n IH]; intros m s t H; [done|].
  cbn [strncpy_loop]. case_match.
  - rewrite IH by lia. apply upd_ne. lia.
  - rewrite pad_loop_byte. case_match; bools; try lia; apply upd_ne; lia.
Qed.

Lemma strncpy_loop_bytes n m s t :
  byte_mem m -> s + Z.of_nat n <= t \/ t + Z.of_nat n <= s ->
  bytes_at (strncpy_loop n m s t) s n = strncpy_buf n (bytes_at m t n).
Proof.
  revert m s t. induction n as [|n IH]; intros m s t Hm H; [done|].
  cbn [strncpy_loop bytes_at strncpy_buf].
  destruct (Z.eqb_spec (m t) 0) as [E|E]; simpl.
  - rewrite pad_loop_byte, upd_eq, E, bytes_at_pad.
    case_match; bools; [lia|done|lia].
  - rewrite strncpy_loop_frame, upd_eq, u8_small by (apply Hm || lia). f_equal.
    rewrite IH by (by apply upd_byte_mem || lia). f_equal.
    apply bytes_at_ext. intros x Hx. apply upd_ne. lia.
Qed.

Lemma safestrcpy_loop_frame n m s t x :
  x < s \/ s + Z.of_nat n < x -> safestrcpy_loop n m s t x = m x.
Proof.
  revert m s t. induction n as [|n IH]; intros m s t H; cbn [safestrcpy_loop].
  - apply upd_ne. lia.
  - case_match; rewrite ?IH by lia; rewrite ?upd_ne by lia; done.
Qed.

Lemma safestrcpy_loop_bytes n m s t k :
  byte_mem m -> (n < k)%nat -> s + Z.of_nat k <= t \/ t + Z.of_nat n <= s ->
  bytes_at (safestrcpy_loop n m s t) s k =
    safestrcpy_buf n (bytes_at m s k) (bytes_at m t n).
Proof.
  revert m s t k. induction n as [|n IH]; intros m s t k Hm Hk H;
    (destruct k as [|k]; [lia|]); cbn [safestrcpy_loop bytes_at safestrcpy_buf].
  - rewrite upd_eq. f_equal. apply bytes_at_ext. intros x Hx. apply upd_ne. lia.
  - destruct (Z.eqb_spec (m t) 0) as [E|E]; simpl.
    + rewrite upd_ne, upd_eq, E by lia. f_equal.
      destruct k as [|k]; [lia|]. simpl. rewrite upd_eq. f_equal.
      apply bytes_at_ext. intros x Hx. rewrite !upd_ne by lia. done.
    + rewrite safestrcpy_loop_frame, upd_eq, u8_small by (apply Hm || lia). f_equal.
      rewrite IH by (by apply upd_byte_mem || lia). f_equal.
      all: apply bytes_at_ext; intros x Hx; apply upd_ne; lia.
Qed.

Lemma strlen_loop_spec fuel m s n k :
  0 <= k -> (forall j, 0 <= j < k -> m (s + (n + j)) <> 0) -> m (s + (n + k)) = 0 ->
  k < Z.of_nat fuel -> strlen_loop fuel m s n = Some (n + k).
Proof.
  revert n k. induction fuel as [|fuel IH]; intros n k Hk Hj Hz Hf; [lia|].
  cbn [strlen_loop]. destruct (Z.eqb_spec (m (s + n)) 0) as [E|E]; simpl.
  - destruct (decide (k = 0)) as [->|]; [f_equal; lia|].
    exfalso. apply (Hj 0); [lia|]. by rewrite Z.add_0_r.
  - destruct (decide (k = 0)) as [->|]; [by rewrite Z.add_0_r in Hz|].
    rewrite (IH (n + 1) (k - 1)); [f_equal; lia|lia| |by rewrite <-Hz; do 2 f_equal; lia|lia].
    intros j Hj'. replace (s + (n + 1 + j)) with (s + (n + (j + 1))) by lia.
    apply Hj. lia.
Qed.

(** safestrcpy keeps the string, cut to the buffer. *)
Lemma cstr_safestrcpy n buf src :
  (n < length buf)%nat -> cstr (safestrcpy_buf n buf src) = take n (cstr src).
Proof.
  revert buf src. induction n as [|n IH]; intros [|x buf] src Hl; simpl in *; try lia.
  { by destruct src. }
  destruct src as [|c src]; [done|]. simpl.
  destruct (Z.eqb_spec c 0) as [->|Hc]; simpl; [done|].
  destruct (Z.eqb_spec c 0); [done|]. by rewrite IH by lia.
Qed.

Lemma cstr_length l : (length (cstr l) <= length l)%nat.
Proof. induction l as [|c l IH]; simpl; [done|]. case_match; simpl; lia. Qed.

(** * What the routines promise *)

(** memmove copies any two regions, however they overlap: the destination
    ends up with what the source held before, and no other byte changes. *)
Lemma memmove_copies m dst src n :
  byte_mem m -> 0 <= n ->
  bytes_at (memmove m dst src n) dst (Z.to_nat n) = bytes_at m src (Z.to_nat n) /\
  (forall x, x < dst \/ dst + n <= x -> memmove m dst src n x = m x).
Proof.
  intros Hm Hn. split.
  - apply list_eq. intros i. destruct (decide (i < Z.to_nat n)%nat) as [Hi|Hi].
    + rewrite !bytes_at_lookup, memmove_byte by lia || done.
      case_match; bools; [|lia..]. do 2 f_equal. lia.
    + rewrite !lookup_ge_None_2 by (rewrite length_bytes_at; lia). done.
  - intros x Hx. rewrite memmove_byte by done. case_match; bools; lia || done.
Qed.

(** memset fills exactly the given region with the byte, whether it takes
    the word-at-a-time path or not. *)
Theorem memset_fills m dst c n x :
  0 <= n ->
  memset m dst c n x = if (dst <=? x) && (x <? dst + n) then u8 c else m x.
Proof. apply memset_byte. Qed.

(** safestrcpy into a buffer of [n] bytes leaves a NUL-terminated copy of
    the source string, cut to n-1 characters, and writes nothing outside the
    buffer. *)
Lemma safestrcpy_terminated m s t n :
  byte_mem m -> 0 < n -> s + n <= t \/ t + (n - 1) <= s ->
  let m' := safestrcpy m s t n in
  cstr (bytes_at m' s (Z.to_nat n)) = cstr (bytes_at m t (Z.to_nat (n - 1))) /\
  (length (cstr (bytes_at m' s (Z.to_nat n))) < Z.to_nat n)%nat /\
  (forall x, x < s \/ s + n <= x -> m' x = m x).
Proof.
  intros Hm Hn Hd m'. unfold m', safestrcpy. destruct (Z.leb_spec n 0); [lia|].
  assert (cstr (bytes_at (safestrcpy_loop (Z.to_nat (n - 1)) m s t) s (Z.to_nat n)) =
    cstr (bytes_at m t (Z.to_nat (n - 1)))) as Hc.
  { rewrite safestrcpy_loop_bytes by (done || lia).
    rewrite cstr_safestrcpy by (rewrite length_bytes_at; lia).
    apply take_ge. etransitivity; [apply cstr_length|]. by rewrite length_bytes_at. }
  split; [done|]. split.
  - rewrite Hc. pose proof (cstr_length (bytes_at m t (Z.to_nat (n - 1)))) as Hl.
    rewrite length_bytes_at in Hl. lia.
  - intros x Hx. apply safestrcpy_loop_frame. lia.
Qed.

