(* ===== verification/Spinlock.v ===== *)
(** spinlock.c and the per-CPU interrupt state of proc.h.

    The first part is the code of one CPU: pushcli/popcli, holding, acquire,
    release, getcallerpcs.  The second part, [Module SMP], runs any number of
    CPUs on one lock, one machine instruction of acquire/release at a time, so
    that the interleavings of the [xchg] and of the final store are visible. *)

From S2P Require Import Prelude StringC.

Definition FL_IF : Z := 0x200.

Definition KERNBASE : Z := 0x80000000.

(** struct cpu: the fields the lock code uses.  [iflag] is the interrupt-enable
    bit of the processor's eflags register, [cpu_id] the identity of the
    struct (its index in cpus[]). *)
Record cpu := mkCpu {
  cpu_id : nat;
  ncli : Z;             (* depth of pushcli nesting *)
  intena : Z;           (* were interrupts enabled before pushcli? *)
  iflag : bool }.

(** struct spinlock *)
Record spinlock := mkSpinlock {
  locked : Z;
  lname : string;
  lcpu : option nat;    (* the cpu holding the lock *)
  pcs : list Z }.       (* the call stack that locked the lock *)

Definition readeflags (c : cpu) : Z := if iflag c then FL_IF else 0.

Definition cli (c : cpu) : cpu :=
  {| cpu_id := cpu_id c; ncli := ncli c; intena := intena c; iflag := false |}.

Definition sti (c : cpu) : cpu :=
  {| cpu_id := cpu_id c; ncli := ncli c; intena := intena c; iflag := true |}.

Definition set_ncli (n : Z) (c : cpu) : cpu :=
  {| cpu_id := cpu_id c; ncli := n; intena := intena c; iflag := iflag c |}.

Definition set_intena (v : Z) (c : cpu) : cpu :=
  {| cpu_id := cpu_id c; ncli := ncli c; intena := v; iflag := iflag c |}.

Definition initlock (name : string) (lk : spinlock) : spinlock :=
  {| locked := 0; lname := name; lcpu := None; pcs := pcs lk |}.

Definition holding (c : cpu) (lk : spinlock) : bool :=
  negb (locked lk =? 0) && bool_decide (lcpu lk = Some (cpu_id c)).

Definition pushcli (c : cpu) : cpu :=
  let eflags := readeflags c in
  let c := cli c in
  let c := if ncli c =? 0 then set_intena (Z.land eflags FL_IF) c else c in
  set_ncli (ncli c + 1) c.

Definition popcli (c : cpu) : outcome cpu :=
  if negb (Z.land (readeflags c) FL_IF =? 0) then Panic "popcli - interruptible"
  else
    let c := set_ncli (ncli c - 1) c in
    if ncli c <? 0 then Panic "popcli"
    else if (ncli c =? 0) && negb (intena c =? 0) then Ok (sti c)
    else Ok c.

(** The %ebp walk of getcallerpcs; [i] entries are still to be filled. *)
Fixpoint getcallerpcs_loop (i : nat) (m : mem) (ebp : Z) : list Z :=
  match i with
  | O => []
  | S i =>
      if (ebp =? 0) || (ebp <? KERNBASE) || (ebp =? 0xffffffff)
      then replicate (S i) 0
      else load32 m (ebp + 4) :: getcallerpcs_loop i m (load32 m ebp)
  end.

Definition getcallerpcs (m : mem) (v : Z) : list Z :=
  getcallerpcs_loop 10 m (v - 8).

(** acquire: [stk] is what getcallerpcs records.  A lock held by another CPU
    makes the xchg loop spin. *)
Definition acquire (stk : list Z) (c : cpu) (lk : spinlock)
    : outcome (cpu * spinlock) :=
  let c := pushcli c in
  if holding c lk then Panic "acquire"
  else if negb (locked lk =? 0) then Blocks "acquire: xchg"
  else Ok (c, {| locked := 1; lname := lname lk;
                 lcpu := Some (cpu_id c); pcs := stk |}).

Definition release (c : cpu) (lk : spinlock) : outcome (cpu * spinlock) :=
  if negb (holding c lk) then Panic "release"
  else
    let lk := {| locked := locked lk; lname := lname lk; lcpu := None;
                 pcs := <[0%nat := 0]> (pcs lk) |} in
    let lk := {| locked := 0; lname := lname lk; lcpu := lcpu lk;
                 pcs := pcs lk |} in
    match popcli c with
    | Ok c => Ok (c, lk)
    | Panic e => Panic e
    | Fault e => Fault e
    | Blocks e => Blocks e
    end.

(** * One CPU *)

(** Nesting depth and interrupt flag agree: interrupts are off inside any
    pushcli. *)
Definition cli_ok (c : cpu) : Prop := 0 <= ncli c /\ (0 < ncli c -> iflag c = false).

(** The CPU after a pushcli and its popcli: only the remembered flag differs,
    and only at the outermost level. *)
Definition popped (c : cpu) : cpu :=
  if ncli c =? 0 then set_intena (readeflags c) c else c.

Lemma popcli_pushcli c : cli_ok c -> popcli (pushcli c) = Ok (popped c).
Proof.
  intros [Hn Hi]. destruct c as [id n ie fl]; simpl in *.
  unfold popcli, pushcli, popped, readeflags; simpl.
  destruct (Z.eqb_spec n 0) as [->|Hn0]; simpl.
  - destruct fl; simpl; done.
  - rewrite Hi by lia. simpl.
    replace (n + 1 - 1) with n by lia.
    destruct (Z.ltb_spec n 0); [lia|]. destruct (Z.eqb_spec n 0); done.
Qed.

Lemma popped_fields c :
  cpu_id (popped c) = cpu_id c /\ ncli (popped c) = ncli c /\ iflag (popped c) = iflag c.
Proof. unfold popped. case_match; done. Qed.

Lemma popped_ok c : cli_ok c -> cli_ok (popped c).
Proof. unfold cli_ok. destruct (popped_fields c) as (_ & -> & ->). done. Qed.

(** acquire of a free lock, and the release that ends its critical section. *)
Lemma acquire_free stk c l :
  locked l = 0 -> acquire stk c l = Ok (pushcli c, mkSpinlock 1 (lname l) (Some (cpu_id c)) stk).
Proof.
  intros Hl. unfold acquire, holding. rewrite Hl. simpl. do 3 f_equal. unfold pushcli. by case_match.
Qed.

Lemma release_held stk nm c :
  cli_ok c ->
  release (pushcli c) (mkSpinlock 1 nm (Some (cpu_id c)) stk) =
    Ok (popped c, mkSpinlock 0 nm None (<[0%nat := 0]> stk)).
Proof.
  intros Hc. unfold release, holding. simpl.
  rewrite bool_decide_true by (unfold pushcli; by case_match). simpl.
  by rewrite popcli_pushcli.
Qed.

(** * Many CPUs on one lock *)

Module SMP.

(** Where a CPU is in the code that takes and drops the lock. *)
Inductive pc :=
| PIdle     (* outside, about to call acquire *)
| PSpin     (* in acquire, at the xchg *)
| PGot      (* in acquire, the xchg returned 0; lk->cpu not yet set *)
| PCrit     (* acquire has returned: the critical section *)
| PRel      (* in release, lk->cpu cleared, before the store to locked *)
| PPop      (* in release, before popcli *)
| PPanic.   (* panicked *)

#[global] Instance pc_eq_dec : EqDecision pc.
Proof. solve_decision. Defined.

Record smp := mkSmp { lk : spinlock; cpus : list (pc * cpu) }.

(** One instruction of one CPU. *)
Definition cpu_step (l : spinlock) (p : pc) (c : cpu) : option (spinlock * (pc * cpu)) :=
  match p with
  | PIdle =>
      let c := pushcli c in
      Some (l, (if holding c l then PPanic else PSpin, c))
  | PSpin =>
      Some ({| locked := 1; lname := lname l; lcpu := lcpu l; pcs := pcs l |},
            (if locked l =? 0 then PGot else PSpin, c))
  | PGot =>
      Some ({| locked := locked l; lname := lname l; lcpu := Some (cpu_id c);
               pcs := pcs l |}, (PCrit, c))
  | PCrit =>
      if negb (holding c l) then Some (l, (PPanic, c))
      else Some ({| locked := locked l; lname := lname l; lcpu := None;
                    pcs := <[0%nat := 0]> (pcs l) |}, (PRel, c))
  | PRel =>
      Some ({| locked := 0; lname := lname l; lcpu := lcpu l; pcs := pcs l |},
            (PPop, c))
  | PPop =>
      match popcli c with
      | Ok c => Some (l, (PIdle, c))
      | _ => Some (l, (PPanic, c))
      end
  | PPanic => None
  end.

Inductive step : smp -> smp -> Prop :=
| step_cpu s i p c l' pc' :
    cpus s !! i = Some (p, c) ->
    cpu_step (lk s) p c = Some (l', pc') ->
    step s (mkSmp l' (<[i := pc']> (cpus s))).

(** Boot state: the lock initialised, every CPU outside with the interrupt
    flag as it may be and no pushcli outstanding. *)
Definition boot (s : smp) : Prop :=
  locked (lk s) = 0 /\ lcpu (lk s) = None /\
  forall i p c, cpus s !! i = Some (p, c) ->
    p = PIdle /\ cpu_id c = i /\ ncli c = 0.

Definition owner (p : pc) : bool :=
  match p with PGot | PCrit | PRel => true | _ => false end.

Record inv (s : smp) : Prop := {
  inv_locked_iff : locked (lk s) = 1 /\ (exists i p c, cpus s !! i = Some (p, c) /\ owner p = true)
                   \/ locked (lk s) = 0 /\ (forall i p c, cpus s !! i = Some (p, c) -> owner p = false);
  inv_unique : forall i j p q c d, cpus s !! i = Some (p, c) -> cpus s !! j = Some (q, d) ->
    owner p = true -> owner q = true -> i = j;
  inv_lcpu : forall j, lcpu (lk s) = Some j -> exists c, cpus s !! j = Some (PCrit, c);
  inv_crit : forall j c, cpus s !! j = Some (PCrit, c) -> lcpu (lk s) = Some j;
  inv_cpu : forall i p c, cpus s !! i = Some (p, c) ->
    cpu_id c = i /\ p <> PPanic /\
    (if decide (p = PIdle) then ncli c = 0 else ncli c = 1 /\ iflag c = false) }.

(** * Lemmas *)

Lemma boot_inv s : boot s -> inv s.
Proof.
  intros (Hl & Hc & Hi). split.
  - right. split; [done|]. intros i p c H. by destruct (Hi _ _ _ H) as [-> _].
  - intros i j p q c d H _ Hp _. by destruct (Hi _ _ _ H) as [-> _].
  - congruence.
  - intros j c H. by destruct (Hi _ _ _ H) as [? _].
  - intros i p c H. destruct (Hi _ _ _ H) as (-> & ? & ?).
    rewrite decide_True by done. done.
Qed.

Lemma pushcli_fields c :
  cpu_id (pushcli c) = cpu_id c /\ ncli (pushcli c) = ncli c + 1 /\
  iflag (pushcli c) = false.
Proof. unfold pushcli. case_match; done. Qed.

Lemma popcli_one c :
  ncli c = 1 -> iflag c = false ->
  exists c', popcli c = Ok c' /\ cpu_id c' = cpu_id c /\ ncli c' = 0.
Proof.
  intros Hn Hi. unfold popcli, readeflags. rewrite Hi. simpl. rewrite Hn. simpl.
  case_match; eexists; repeat split.
Qed.

(** Lookup after the update of CPU [i]. *)
Lemma lookup_upd (l : list (pc * cpu)) i j x y :
  <[i := x]> l !! j = Some y -> (i = j /\ y = x) \/ (i <> j /\ l !! j = Some y).
Proof.
  rewrite list_lookup_insert_dec. case_decide as D; [destruct D; intros; simplify_eq; auto|].
  intros H. destruct (decide (i = j)) as [->|]; [|by right].
  exfalso. apply D. split; [done|]. by eapply lookup_lt_Some.
Qed.

Lemma lookup_upd_eq (l : list (pc * cpu)) i x y :
  l !! i = Some y -> <[i := x]> l !! i = Some x.
Proof. intros H. apply list_lookup_insert_eq. by eapply lookup_lt_Some. Qed.

(** Split every lookup in the updated table into the stepping CPU and the
    others. *)
Ltac split_cpus := repeat match goal with
  | H : <[_ := _]> _ !! _ = Some _ |- _ =>
      apply lookup_upd in H as [[? ?]|[? H]]; simplify_eq
  end.

Section preserve.
Context (s : smp) (i : nat) (p : pc) (c : cpu).
Context (HI : inv s) (Hi : cpus s !! i = Some (p, c)).

(** A step that keeps the ownership of the stepping CPU and the lock keeps
    the invariant. *)
Lemma inv_keep p' c' :
  owner p' = owner p -> p <> PCrit -> p' <> PCrit ->
  cpu_id c' = i /\ p' <> PPanic /\
    (if decide (p' = PIdle) then ncli c' = 0 else ncli c' = 1 /\ iflag c' = false) ->
  inv (mkSmp (lk s) (<[i := (p', c')]> (cpus s))).
Proof.
  intros Ho Hp Hp' Hc. destruct HI as [I1 I2 I3 I4 I5]. split; simpl.
  - destruct I1 as [[? (j & q & d & Hj & Hq)]|[? Hn]].
    + left. split; [done|]. destruct (decide (i = j)) as [->|].
      * exists j, p', c'. split; [by eapply lookup_upd_eq|]. congruence.
      * exists j, q, d. split; [|done]. by rewrite list_lookup_insert_ne.
    + right. split; [done|]. intros j q d Hlk. split_cpus; [|by eauto].
      rewrite Ho. by eauto.
  - intros j k q r d e H1 H2 H3 H4. split_cpus; eauto using eq_trans, eq_sym.
  - intros j Hj. destruct (I3 _ Hj) as [d Hd]. exists d.
    rewrite list_lookup_insert_ne; [done|]. intros ->. simplify_eq.
  - intros j d Hlk. split_cpus; eauto.
  - intros j q d Hlk. split_cpus; eauto.
Qed.

(** A step of the owner inside its section: [p], [p'] both owners. *)
Lemma inv_owner p' l' :
  owner p = true -> owner p' = true -> locked l' = locked (lk s) ->
  lcpu l' = (if decide (p' = PCrit) then Some i else None) ->
  (p <> PCrit -> lcpu (lk s) = None) ->
  p <> PIdle -> p' <> PIdle ->
  inv (mkSmp l' (<[i := (p', c)]> (cpus s))).
Proof.
  intros Ho Ho' Hl E Hn Hp Hp'. destruct HI as [I1 I2 I3 I4 I5].
  assert (forall j q d, cpus s !! j = Some (q, d) -> j <> i -> owner q = false) as Hoth.
  { intros j q d Hj Hne. destruct (owner q) eqn:Eq; [|done].
    exfalso. apply Hne. by eapply I2. }
  split; simpl.
  - left. rewrite Hl. split; [destruct I1 as [[? _]|[_ Hf]]; [done|]|].
    + exfalso. specialize (Hf _ _ _ Hi). congruence.
    + exists i, p', c. split; [by eapply lookup_upd_eq|done].
  - intros j k q r d e H1 H2 H3 H4. split_cpus; [done| | |by eapply I2].
    all: exfalso; first [apply Hoth in H1; congruence | apply Hoth in H2; congruence].
  - intros j Hj. rewrite E in Hj. case_decide; [|done]. simplify_eq.
    exists c. by eapply lookup_upd_eq.
  - intros j d Hlk. split_cpus.
    + rewrite E. by case_decide.
    + specialize (Hoth _ _ _ Hlk ltac:(done)). done.
  - intros j q d Hlk. split_cpus; [|by eauto].
    destruct (I5 _ _ _ Hi) as (? & ? & Hd). rewrite decide_False in Hd by done.
    rewrite decide_False by done. split; [done|]. split; [|done]. by intros ->.
Qed.

Lemma inv_not_owner_others :
  owner p = true -> forall j q d, cpus s !! j = Some (q, d) -> j <> i -> owner q = false.
Proof.
  intros Ho j q d Hj Hne. destruct (owner q) eqn:Eq; [|done].
  exfalso. apply Hne. by eapply (inv_unique _ HI).
Qed.

(** The lock word changes hands: CPU [i] becomes an owner of a free lock. *)
Lemma inv_take l' :
  p = PSpin -> locked (lk s) = 0 -> locked l' = 1 -> lcpu l' = lcpu (lk s) ->
  inv (mkSmp l' (<[i := (PGot, c)]> (cpus s))).
Proof.
  intros -> Hz Hl Hc. destruct HI as [I1 I2 I3 I4 I5].
  destruct I1 as [[? _]|[_ Hf]]; [congruence|]. split; simpl.
  - left. split; [done|]. exists i, PGot, c. split; [by eapply lookup_upd_eq|done].
  - intros j k q r d e H1 H2 H3 H4. split_cpus; [done| | |].
    all: exfalso; first [apply Hf in H1; congruence | apply Hf in H2; congruence].
  - intros j Hj. rewrite Hc in Hj. destruct (I3 _ Hj) as [d Hd].
    apply Hf in Hd. done.
  - intros j d Hlk. split_cpus. apply Hf in Hlk. done.
  - intros j q d Hlk. split_cpus; [|by eauto].
    destruct (I5 _ _ _ Hi) as (? & ? & ?). done.
Qed.

(** ... and gives it back. *)
Lemma inv_drop l' :
  p = PRel -> locked l' = 0 -> lcpu l' = lcpu (lk s) -> lcpu (lk s) = None ->
  inv (mkSmp l' (<[i := (PPop, c)]> (cpus s))).
Proof.
  intros Hp Hl Hc Hn.
  pose proof (inv_not_owner_others ltac:(by rewrite Hp)) as Hoth. subst p.
  destruct HI as [I1 I2 I3 I4 I5]. split; simpl.
  - right. split; [done|]. intros j q d Hlk. split_cpus; [done|]. by eapply Hoth.
  - intros j k q r d e H1 H2 H3 H4. split_cpus; [..|by eapply I2].
    all: exfalso; first [apply Hoth in H1; congruence | apply Hoth in H2; congruence].
  - congruence.
  - intros j d Hlk. split_cpus. apply Hoth in Hlk; done.
  - intros j q d Hlk. split_cpus; [|by eauto].
    destruct (I5 _ _ _ Hi) as (? & ? & ?). done.
Qed.
End preserve.

(** While some owner is not yet, or no longer, in the section, no CPU is
    recorded in the lock. *)
Lemma inv_lcpu_none s i p c :
  inv s -> cpus s !! i = Some (p, c) -> owner p = true -> p <> PCrit ->
  lcpu (lk s) = None.
Proof.
  intros HI Hi Ho Hp. destruct (lcpu (lk s)) as [j|] eqn:E; [|done].
  destruct (inv_lcpu _ HI _ E) as [d Hd].
  assert (i = j) as -> by by eapply (inv_unique _ HI). simplify_eq.
Qed.

Lemma step_inv s s' : step s s' -> inv s -> inv s'.
Proof.
  intros [s0 i p c l' [p' c'] Hi Hs] HI. destruct (inv_cpu _ HI _ _ _ Hi) as (Hid & Hnp & Hst).
  destruct p; simpl in Hs; simplify_eq.
  - destruct (pushcli_fields c) as (Hc1 & Hc2 & Hc3).
    assert (holding (pushcli c) (lk s0) = false) as Hh.
    { unfold holding. rewrite Hc1. case_bool_decide as Hl; [|by rewrite andb_false_r].
      destruct (inv_lcpu _ HI _ Hl) as [d Hd]. simplify_eq. }
    rewrite Hh. eapply inv_keep; eauto; simpl in *; naive_solver lia.
  - destruct (Z.eqb_spec (locked (lk s0)) 0) as [Hz|Hz].
    + by eapply inv_take.
    + destruct (inv_locked_iff _ HI) as [[Hl _]|[? _]]; [|done].
      replace (mkSpinlock _ _ _ _) with (lk s0); [by rewrite list_insert_id; destruct s0|].
      destruct (lk s0); simpl in *; congruence.
  - eapply inv_owner; eauto; simpl; try done.
    intros _. by eapply inv_lcpu_none.
  - assert (holding c (lk s0) = true) as Hh.
    { unfold holding. rewrite (inv_crit _ HI _ _ Hi).
      rewrite bool_decide_true by congruence.
      destruct (inv_locked_iff _ HI) as [[-> _]|[_ Hf]]; [done|]. by apply Hf in Hi. }
    rewrite Hh in Hs. simpl in Hs. simplify_eq.
    by eapply inv_owner.
  - eapply inv_drop; eauto. by eapply inv_lcpu_none.
  - destruct Hst as [Hn Hf]. destruct (popcli_one c Hn Hf) as (d & Hd & Hd1 & Hd2).
    rewrite Hd in Hs. simplify_eq. eapply inv_keep; eauto; done.
Qed.

Lemma reachable_inv s0 s : boot s0 -> rtc step s0 s -> inv s.
Proof.
  intros Hb H. apply boot_inv in Hb.
  induction H as [|a b d Hab _ IH]; [done|]. by eapply IH, step_inv.
Qed.

(** The lock of one test machine: three CPUs, interrupts on. *)
Definition demo : smp :=
  mkSmp (mkSpinlock 0 "demo" None (replicate 10 0))
    (map (fun i => (PIdle, mkCpu i 0 0 true)) [0; 1; 2]%nat).

Lemma demo_boot : boot demo.
Proof.
  split; [done|]. split; [done|]. intros i p c H.
  destruct i as [|[|[|i]]]; simpl in H; simplify_eq; done.
Qed.

(** The CPU reached by running CPU [i] once. *)
Definition run1 (i : nat) (s : smp) : smp :=
  match cpus s !! i with
  | Some (p, c) =>
      match cpu_step (lk s) p c with
      | Some (l', pc') => mkSmp l' (<[i := pc']> (cpus s))
      | None => s
      end
  | None => s
  end.

Lemma run1_steps i s : rtc step s (run1 i s).
Proof.
  unfold run1. destruct (cpus s !! i) as [[p c]|] eqn:E; [|done].
  destruct (cpu_step (lk s) p c) as [[l' pc']|] eqn:E'; [|done].
  by eapply rtc_once, step_cpu.
Qed.

Lemma runs_steps sched s : rtc step s (fold_left (fun s i => run1 i s) sched s).
Proof.
  revert s. induction sched as [|i sched IH]; intros s; [done|].
  etransitivity; [apply run1_steps|apply IH].
Qed.

(** C4. Mutual exclusion: however the instructions of any number of CPUs
    interleave, at most one CPU is inside the critical section at a time; it
    is the one recorded in lk->cpu, its interrupts are off, and no CPU ever
    panics in acquire, release, pushcli or popcli. *)
Theorem mutual_exclusion s0 s :
  boot s0 -> rtc step s0 s ->
  (forall i j c d, cpus s !! i = Some (PCrit, c) -> cpus s !! j = Some (PCrit, d) -> i = j) /\
  (forall i c, cpus s !! i = Some (PCrit, c) ->
     holding c (lk s) = true /\ iflag c = false /\ ncli c = 1) /\
  (forall i p c, cpus s !! i = Some (p, c) -> p <> PPanic).
Proof.
  intros Hb Hr. pose proof (reachable_inv _ _ Hb Hr) as HI. split_and!.
  - intros i j c d Hi Hj. by eapply (inv_unique _ HI).
  - intros i c Hi. destruct (inv_cpu _ HI _ _ _ Hi) as (Hid & _ & Hn & Hf).
    split; [|done]. unfold holding. rewrite (inv_crit _ HI _ _ Hi).
    rewrite bool_decide_true by congruence.
    destruct (inv_locked_iff _ HI) as [[-> _]|[_ Hno]]; [done|]. by apply Hno in Hi.
  - intros i p c Hi. apply (inv_cpu _ HI _ _ _ Hi).
Qed.

(** CPU 1 gets the lock while CPU 0 and CPU 2 spin. *)
Lemma mutual_exclusion_witness :
  let s := fold_left (fun s i => run1 i s) [0; 1; 2; 1; 0; 2; 1; 0]%nat demo in
  exists c, cpus s !! 1%nat = Some (PCrit, c) /\ holding c (lk s) = true.
Proof.
  intros s. eexists. split; [reflexivity|].
  refine (proj1 (proj1 (proj2 (mutual_exclusion demo s demo_boot
    (runs_steps [0; 1; 2; 1; 0; 2; 1; 0]%nat demo))) 1%nat _ _)).
  reflexivity.
Defined.

End SMP.
