(* ===== verification/Proc.v ===== *)
(** Process table and per-process state: proc.h, and the parts of x86.h,
    mmu.h and param.h it uses.

    A [struct proc *] is an index of ptable.proc; NULL is [None].  A sleep
    channel is the address of a kernel object: the address of a table entry,
    of [ticks], or of any other object.  The stack-allocated trap frame and
    context are kept in the process record together with their addresses. *)

From S2P Require Import Prelude StringC Spinlock.

Definition NPROC : nat := 64.

Definition KSTACKSIZE : Z := 4096.

Definition NOFILE : nat := 16.

Definition PGSIZE : Z := 4096.

Definition SEG_UCODE : Z := 4.

Definition SEG_UDATA : Z := 5.

Definition DPL_USER : Z := 3.

(** sizeof(struct trapframe) and sizeof(struct context) on i386 *)
Definition sizeof_trapframe : Z := 76.

Definition sizeof_context : Z := 20.

Inductive procstate := UNUSED | EMBRYO | SLEEPING | RUNNABLE | RUNNING | ZOMBIE.

#[global] Instance procstate_eq_dec : EqDecision procstate.
Proof. solve_decision. Defined.

Inductive channel :=
| ChProc (i : nat)    (* &ptable.proc[i] *)
| ChTicks             (* &ticks *)
| ChObj (a : Z).      (* another kernel object at address a *)

#[global] Instance channel_eq_dec : EqDecision channel.
Proof. solve_decision. Defined.

(** struct trapframe (x86.h), without the padding halfwords. *)
Record trapframe := mkTf {
  tf_edi : Z;
  tf_esi : Z;
  tf_ebp : Z;
  tf_oesp : Z;
  tf_ebx : Z;
  tf_edx : Z;
  tf_ecx : Z;
  tf_eax : Z;
  tf_gs : Z;
  tf_fs : Z;
  tf_es : Z;
  tf_ds : Z;
  tf_trapno : Z;
  tf_err : Z;
  tf_eip : Z;
  tf_cs : Z;
  tf_eflags : Z;
  tf_esp : Z;
  tf_ss : Z }.

(** struct context: the registers swtch saves. *)
Record context := mkCtx {
  c_edi : Z; c_esi : Z; c_ebx : Z; c_ebp : Z; c_eip : Z }.

Definition tf_zero : trapframe := mkTf 0 0 0 0 0 0 0 0 0 0 0 0 0 0 0 0 0 0 0.

Definition ctx_zero : context := mkCtx 0 0 0 0 0.

(** struct proc *)
Record proc := mkProc {
  sz : Z;                      (* size of process memory (bytes) *)
  pgdir : Z;                   (* page table; 0 is NULL *)
  kstack : Z;                  (* bottom of kernel stack; 0 is NULL *)
  state : procstate;           (* process state *)
  pid : Z;                     (* process ID *)
  parent : option nat;         (* parent process *)
  tf_ptr : Z;                  (* p->tf, an address on the kernel stack *)
  tf : trapframe;              (* *p->tf *)
  ctx_ptr : Z;                 (* p->context, an address on the kernel stack *)
  ctx : context;               (* *p->context *)
  ret_word : Z;                (* the word above the context: where forkret returns *)
  chan : option channel;       (* if non-zero, sleeping on chan *)
  killed : Z;                  (* if non-zero, have been killed *)
  ofile : list (option nat);   (* open files, indices of ftable *)
  cwd : option nat;            (* current directory, an index of icache *)
  name : list Z;               (* process name, 16 bytes *)
  exit_status : Z;             (* exit status of the terminated process *)
  ntickets : Z;                (* tickets allocated to the process *)
  priority : Z;                (* process priority *)
  ctime : Z;                   (* creation time *)
  ttime : Z;                   (* termination time *)
  stime : Z;                   (* time spent SLEEPING *)
  retime : Z;                  (* time spent READY *)
  rutime : Z }.                (* time spent RUNNING *)

(** Assignments to the fields of a process. *)
Definition set_sz (v : Z) (p : proc) : proc :=
  {| sz := v; pgdir := pgdir p; kstack := kstack p; state := state p;
     pid := pid p; parent := parent p; tf_ptr := tf_ptr p; tf := tf p;
     ctx_ptr := ctx_ptr p; ctx := ctx p; ret_word := ret_word p; chan :=
     chan p; killed := killed p; ofile := ofile p; cwd := cwd p; name :=
     name p; exit_status := exit_status p; ntickets := ntickets p;
     priority := priority p; ctime := ctime p; ttime := ttime p; stime
     := stime p; retime := retime p; rutime := rutime p |}.

Definition set_pgdir (v : Z) (p : proc) : proc :=
  {| sz := sz p; pgdir := v; kstack := kstack p; state := state p; pid
     := pid p; parent := parent p; tf_ptr := tf_ptr p; tf := tf p;
     ctx_ptr := ctx_ptr p; ctx := ctx p; ret_word := ret_word p; chan :=
     chan p; killed := killed p; ofile := ofile p; cwd := cwd p; name :=
     name p; exit_status := exit_status p; ntickets := ntickets p;
     priority := priority p; ctime := ctime p; ttime := ttime p; stime
     := stime p; retime := retime p; rutime := rutime p |}.

Definition set_kstack (v : Z) (p : proc) : proc :=
  {| sz := sz p; pgdir := pgdir p; kstack := v; state := state p; pid :=
     pid p; parent := parent p; tf_ptr := tf_ptr p; tf := tf p; ctx_ptr
     := ctx_ptr p; ctx := ctx p; ret_word := ret_word p; chan := chan p;
     killed := killed p; ofile := ofile p; cwd := cwd p; name := name p;
     exit_status := exit_status p; ntickets := ntickets p; priority :=
     priority p; ctime := ctime p; ttime := ttime p; stime := stime p;
     retime := retime p; rutime := rutime p |}.

Definition set_state (v : procstate) (p : proc) : proc :=
  {| sz := sz p; pgdir := pgdir p; kstack := kstack p; state := v; pid
     := pid p; parent := parent p; tf_ptr := tf_ptr p; tf := tf p;
     ctx_ptr := ctx_ptr p; ctx := ctx p; ret_word := ret_word p; chan :=
     chan p; killed := killed p; ofile := ofile p; cwd := cwd p; name :=
     name p; exit_status := exit_status p; ntickets := ntickets p;
     priority := priority p; ctime := ctime p; ttime := ttime p; stime
     := stime p; retime := retime p; rutime := rutime p |}.

Definition set_pid (v : Z) (p : proc) : proc :=
  {| sz := sz p; pgdir := pgdir p; kstack := kstack p; state := state p;
     pid := v; parent := parent p; tf_ptr := tf_ptr p; tf := tf p;
     ctx_ptr := ctx_ptr p; ctx := ctx p; ret_word := ret_word p; chan :=
     chan p; killed := killed p; ofile := ofile p; cwd := cwd p; name :=
     name p; exit_status := exit_status p; ntickets := ntickets p;
     priority := priority p; ctime := ctime p; ttime := ttime p; stime
     := stime p; retime := retime p; rutime := rutime p |}.

Definition set_parent (v : option nat) (p : proc) : proc :=
  {| sz := sz p; pgdir := pgdir p; kstack := kstack p; state := state p;
     pid := pid p; parent := v; tf_ptr := tf_ptr p; tf := tf p; ctx_ptr
     := ctx_ptr p; ctx := ctx p; ret_word := ret_word p; chan := chan p;
     killed := killed p; ofile := ofile p; cwd := cwd p; name := name p;
     exit_status := exit_status p; ntickets := ntickets p; priority :=
     priority p; ctime := ctime p; ttime := ttime p; stime := stime p;
     retime := retime p; rutime := rutime p |}.

Definition set_tf_ptr (v : Z) (p : proc) : proc :=
  {| sz := sz p; pgdir := pgdir p; kstack := kstack p; state := state p;
     pid := pid p; parent := parent p; tf_ptr := v; tf := tf p; ctx_ptr
     := ctx_ptr p; ctx := ctx p; ret_word := ret_word p; chan := chan p;
     killed := killed p; ofile := ofile p; cwd := cwd p; name := name p;
     exit_status := exit_status p; ntickets := ntickets p; priority :=
     priority p; ctime := ctime p; ttime := ttime p; stime := stime p;
     retime := retime p; rutime := rutime p |}.

Definition set_tf (v : trapframe) (p : proc) : proc :=
  {| sz := sz p; pgdir := pgdir p; kstack := kstack p; state := state p;
     pid := pid p; parent := parent p; tf_ptr := tf_ptr p; tf := v;
     ctx_ptr := ctx_ptr p; ctx := ctx p; ret_word := ret_word p; chan :=
     chan p; killed := killed p; ofile := ofile p; cwd := cwd p; name :=
     name p; exit_status := exit_status p; ntickets := ntickets p;
     priority := priority p; ctime := ctime p; ttime := ttime p; stime
     := stime p; retime := retime p; rutime := rutime p |}.

Definition set_ctx_ptr (v : Z) (p : proc) : proc :=
  {| sz := sz p; pgdir := pgdir p; kstack := kstack p; state := state p;
     pid := pid p; parent := parent p; tf_ptr := tf_ptr p; tf := tf p;
     ctx_ptr := v; ctx := ctx p; ret_word := ret_word p; chan := chan p;
     killed := killed p; ofile := ofile p; cwd := cwd p; name := name p;
     exit_status := exit_status p; ntickets := ntickets p; priority :=
     priority p; ctime := ctime p; ttime := ttime p; stime := stime p;
     retime := retime p; rutime := rutime p |}.

Definition set_ctx (v : context) (p : proc) : proc :=
  {| sz := sz p; pgdir := pgdir p; kstack := kstack p; state := state p;
     pid := pid p; parent := parent p; tf_ptr := tf_ptr p; tf := tf p;
     ctx_ptr := ctx_ptr p; ctx := v; ret_word := ret_word p; chan :=
     chan p; killed := killed p; ofile := ofile p; cwd := cwd p; name :=
     name p; exit_status := exit_status p; ntickets := ntickets p;
     priority := priority p; ctime := ctime p; ttime := ttime p; stime
     := stime p; retime := retime p; rutime := rutime p |}.

Definition set_ret_word (v : Z) (p : proc) : proc :=
  {| sz := sz p; pgdir := pgdir p; kstack := kstack p; state := state p;
     pid := pid p; parent := parent p; tf_ptr := tf_ptr p; tf := tf p;
     ctx_ptr := ctx_ptr p; ctx := ctx p; ret_word := v; chan := chan p;
     killed := killed p; ofile := ofile p; cwd := cwd p; name := name p;
     exit_status := exit_status p; ntickets := ntickets p; priority :=
     priority p; ctime := ctime p; ttime := ttime p; stime := stime p;
     retime := retime p; rutime := rutime p |}.

Definition set_chan (v : option channel) (p : proc) : proc :=
  {| sz := sz p; pgdir := pgdir p; kstack := kstack p; state := state p;
     pid := pid p; parent := parent p; tf_ptr := tf_ptr p; tf := tf p;
     ctx_ptr := ctx_ptr p; ctx := ctx p; ret_word := ret_word p; chan :=
     v; killed := killed p; ofile := ofile p; cwd := cwd p; name := name
     p; exit_status := exit_status p; ntickets := ntickets p; priority
     := priority p; ctime := ctime p; ttime := ttime p; stime := stime
     p; retime := retime p; rutime := rutime p |}.

Definition set_killed (v : Z) (p : proc) : proc :=
  {| sz := sz p; pgdir := pgdir p; kstack := kstack p; state := state p;
     pid := pid p; parent := parent p; tf_ptr := tf_ptr p; tf := tf p;
     ctx_ptr := ctx_ptr p; ctx := ctx p; ret_word := ret_word p; chan :=
     chan p; killed := v; ofile := ofile p; cwd := cwd p; name := name
     p; exit_status := exit_status p; ntickets := ntickets p; priority
     := priority p; ctime := ctime p; ttime := ttime p; stime := stime
     p; retime := retime p; rutime := rutime p |}.

Definition set_ofile (v : list (option nat)) (p : proc) : proc :=
  {| sz := sz p; pgdir := pgdir p; kstack := kstack p; state := state p;
     pid := pid p; parent := parent p; tf_ptr := tf_ptr p; tf := tf p;
     ctx_ptr := ctx_ptr p; ctx := ctx p; ret_word := ret_word p; chan :=
     chan p; killed := killed p; ofile := v; cwd := cwd p; name := name
     p; exit_status := exit_status p; ntickets := ntickets p; priority
     := priority p; ctime := ctime p; ttime := ttime p; stime := stime
     p; retime := retime p; rutime := rutime p |}.

Definition set_cwd (v : option nat) (p : proc) : proc :=
  {| sz := sz p; pgdir := pgdir p; kstack := kstack p; state := state p;
     pid := pid p; parent := parent p; tf_ptr := tf_ptr p; tf := tf p;
     ctx_ptr := ctx_ptr p; ctx := ctx p; ret_word := ret_word p; chan :=
     chan p; killed := killed p; ofile := ofile p; cwd := v; name :=
     name p; exit_status := exit_status p; ntickets := ntickets p;
     priority := priority p; ctime := ctime p; ttime := ttime p; stime
     := stime p; retime := retime p; rutime := rutime p |}.

Definition set_name (v : list Z) (p : proc) : proc :=
  {| sz := sz p; pgdir := pgdir p; kstack := kstack p; state := state p;
     pid := pid p; parent := parent p; tf_ptr := tf_ptr p; tf := tf p;
     ctx_ptr := ctx_ptr p; ctx := ctx p; ret_word := ret_word p; chan :=
     chan p; killed := killed p; ofile := ofile p; cwd := cwd p; name :=
     v; exit_status := exit_status p; ntickets := ntickets p; priority
     := priority p; ctime := ctime p; ttime := ttime p; stime := stime
     p; retime := retime p; rutime := rutime p |}.

Definition set_exit_status (v : Z) (p : proc) : proc :=
  {| sz := sz p; pgdir := pgdir p; kstack := kstack p; state := state p;
     pid := pid p; parent := parent p; tf_ptr := tf_ptr p; tf := tf p;
     ctx_ptr := ctx_ptr p; ctx := ctx p; ret_word := ret_word p; chan :=
     chan p; killed := killed p; ofile := ofile p; cwd := cwd p; name :=
     name p; exit_status := v; ntickets := ntickets p; priority :=
     priority p; ctime := ctime p; ttime := ttime p; stime := stime p;
     retime := retime p; rutime := rutime p |}.

Definition set_ntickets (v : Z) (p : proc) : proc :=
  {| sz := sz p; pgdir := pgdir p; kstack := kstack p; state := state p;
     pid := pid p; parent := parent p; tf_ptr := tf_ptr p; tf := tf p;
     ctx_ptr := ctx_ptr p; ctx := ctx p; ret_word := ret_word p; chan :=
     chan p; killed := killed p; ofile := ofile p; cwd := cwd p; name :=
     name p; exit_status := exit_status p; ntickets := v; priority :=
     priority p; ctime := ctime p; ttime := ttime p; stime := stime p;
     retime := retime p; rutime := rutime p |}.

Definition set_priority (v : Z) (p : proc) : proc :=
  {| sz := sz p; pgdir := pgdir p; kstack := kstack p; state := state p;
     pid := pid p; parent := parent p; tf_ptr := tf_ptr p; tf := tf p;
     ctx_ptr := ctx_ptr p; ctx := ctx p; ret_word := ret_word p; chan :=
     chan p; killed := killed p; ofile := ofile p; cwd := cwd p; name :=
     name p; exit_status := exit_status p; ntickets := ntickets p;
     priority := v; ctime := ctime p; ttime := ttime p; stime := stime
     p; retime := retime p; rutime := rutime p |}.

Definition set_ctime (v : Z) (p : proc) : proc :=
  {| sz := sz p; pgdir := pgdir p; kstack := kstack p; state := state p;
     pid := pid p; parent := parent p; tf_ptr := tf_ptr p; tf := tf p;
     ctx_ptr := ctx_ptr p; ctx := ctx p; ret_word := ret_word p; chan :=
     chan p; killed := killed p; ofile := ofile p; cwd := cwd p; name :=
     name p; exit_status := exit_status p; ntickets := ntickets p;
     priority := priority p; ctime := v; ttime := ttime p; stime :=
     stime p; retime := retime p; rutime := rutime p |}.

Definition set_ttime (v : Z) (p : proc) : proc :=
  {| sz := sz p; pgdir := pgdir p; kstack := kstack p; state := state p;
     pid := pid p; parent := parent p; tf_ptr := tf_ptr p; tf := tf p;
     ctx_ptr := ctx_ptr p; ctx := ctx p; ret_word := ret_word p; chan :=
     chan p; killed := killed p; ofile := ofile p; cwd := cwd p; name :=
     name p; exit_status := exit_status p; ntickets := ntickets p;
     priority := priority p; ctime := ctime p; ttime := v; stime :=
     stime p; retime := retime p; rutime := rutime p |}.

Definition set_stime (v : Z) (p : proc) : proc :=
  {| sz := sz p; pgdir := pgdir p; kstack := kstack p; state := state p;
     pid := pid p; parent := parent p; tf_ptr := tf_ptr p; tf := tf p;
     ctx_ptr := ctx_ptr p; ctx := ctx p; ret_word := ret_word p; chan :=
     chan p; killed := killed p; ofile := ofile p; cwd := cwd p; name :=
     name p; exit_status := exit_status p; ntickets := ntickets p;
     priority := priority p; ctime := ctime p; ttime := ttime p; stime
     := v; retime := retime p; rutime := rutime p |}.

Definition set_retime (v : Z) (p : proc) : proc :=
  {| sz := sz p; pgdir := pgdir p; kstack := kstack p; state := state p;
     pid := pid p; parent := parent p; tf_ptr := tf_ptr p; tf := tf p;
     ctx_ptr := ctx_ptr p; ctx := ctx p; ret_word := ret_word p; chan :=
     chan p; killed := killed p; ofile := ofile p; cwd := cwd p; name :=
     name p; exit_status := exit_status p; ntickets := ntickets p;
     priority := priority p; ctime := ctime p; ttime := ttime p; stime
     := stime p; retime := v; rutime := rutime p |}.

Definition set_rutime (v : Z) (p : proc) : proc :=
  {| sz := sz p; pgdir := pgdir p; kstack := kstack p; state := state p;
     pid := pid p; parent := parent p; tf_ptr := tf_ptr p; tf := tf p;
     ctx_ptr := ctx_ptr p; ctx := ctx p; ret_word := ret_word p; chan :=
     chan p; killed := killed p; ofile := ofile p; cwd := cwd p; name :=
     name p; exit_status := exit_status p; ntickets := ntickets p;
     priority := priority p; ctime := ctime p; ttime := ttime p; stime
     := stime p; retime := retime p; rutime := v |}.

Definition set_tf_eax (v : Z) (t : trapframe) : trapframe :=
  {| tf_edi := tf_edi t; tf_esi := tf_esi t; tf_ebp := tf_ebp t; tf_oesp
     := tf_oesp t; tf_ebx := tf_ebx t; tf_edx := tf_edx t; tf_ecx :=
     tf_ecx t; tf_eax := v; tf_gs := tf_gs t; tf_fs := tf_fs t; tf_es :=
     tf_es t; tf_ds := tf_ds t; tf_trapno := tf_trapno t; tf_err :=
     tf_err t; tf_eip := tf_eip t; tf_cs := tf_cs t; tf_eflags :=
     tf_eflags t; tf_esp := tf_esp t; tf_ss := tf_ss t |}.

Definition set_tf_esp (v : Z) (t : trapframe) : trapframe :=
  {| tf_edi := tf_edi t; tf_esi := tf_esi t; tf_ebp := tf_ebp t; tf_oesp
     := tf_oesp t; tf_ebx := tf_ebx t; tf_edx := tf_edx t; tf_ecx :=
     tf_ecx t; tf_eax := tf_eax t; tf_gs := tf_gs t; tf_fs := tf_fs t;
     tf_es := tf_es t; tf_ds := tf_ds t; tf_trapno := tf_trapno t;
     tf_err := tf_err t; tf_eip := tf_eip t; tf_cs := tf_cs t; tf_eflags
     := tf_eflags t; tf_esp := v; tf_ss := tf_ss t |}.

Definition set_tf_eip (v : Z) (t : trapframe) : trapframe :=
  {| tf_edi := tf_edi t; tf_esi := tf_esi t; tf_ebp := tf_ebp t; tf_oesp
     := tf_oesp t; tf_ebx := tf_ebx t; tf_edx := tf_edx t; tf_ecx :=
     tf_ecx t; tf_eax := tf_eax t; tf_gs := tf_gs t; tf_fs := tf_fs t;
     tf_es := tf_es t; tf_ds := tf_ds t; tf_trapno := tf_trapno t;
     tf_err := tf_err t; tf_eip := v; tf_cs := tf_cs t; tf_eflags :=
     tf_eflags t; tf_esp := tf_esp t; tf_ss := tf_ss t |}.

(** The zeroed slot of a freshly loaded kernel. *)
Definition proc_zero : proc :=
  mkProc 0 0 0 UNUSED 0 None 0 tf_zero 0 ctx_zero 0 None 0
    (replicate NOFILE None) None (replicate 16 0) 0 0 0 0 0 0 0 0.

(** struct perf *)
Record perf := mkPerf {
  p_ctime : Z; p_ttime : Z; p_stime : Z; p_retime : Z; p_rutime : Z }.

(** The state the process code works on: the table and the other globals of
    proc.c, the tick counter of trap.c, the lock, the state of the CPU that
    executes, the control register and task-state word switchuvm writes, and
    the rest of the kernel ([env]), reached through [KernelEnv] below. *)
Record pt (E : Type) := mkPt {
  procs : list proc;
  initproc : option nat;
  nextpid : Z;
  npolicy : Z;
  seed : Z;
  ticks : Z;
  ptlock : spinlock;
  mycpu : cpu;
  curproc : option nat;
  cr3 : Z;
  esp0 : Z;
  env : E }.
Arguments mkPt {E}.
Arguments procs {E}.
Arguments initproc {E}.
Arguments nextpid {E}.
Arguments npolicy {E}.
Arguments seed {E}.
Arguments ticks {E}.
Arguments ptlock {E}.
Arguments mycpu {E}.
Arguments curproc {E}.
Arguments cr3 {E}.
Arguments esp0 {E}.
Arguments env {E}.

Definition with_procs {E} (v : list proc) (s : pt E) : pt E :=
  {| procs := v; initproc := initproc s; nextpid := nextpid s; npolicy
     := npolicy s; seed := seed s; ticks := ticks s; ptlock := ptlock s;
     mycpu := mycpu s; curproc := curproc s; cr3 := cr3 s; esp0 := esp0
     s; env := env s |}.

Definition with_initproc {E} (v : option nat) (s : pt E) : pt E :=
  {| procs := procs s; initproc := v; nextpid := nextpid s; npolicy :=
     npolicy s; seed := seed s; ticks := ticks s; ptlock := ptlock s;
     mycpu := mycpu s; curproc := curproc s; cr3 := cr3 s; esp0 := esp0
     s; env := env s |}.

Definition with_nextpid {E} (v : Z) (s : pt E) : pt E :=
  {| procs := procs s; initproc := initproc s; nextpid := v; npolicy :=
     npolicy s; seed := seed s; ticks := ticks s; ptlock := ptlock s;
     mycpu := mycpu s; curproc := curproc s; cr3 := cr3 s; esp0 := esp0
     s; env := env s |}.

Definition with_npolicy {E} (v : Z) (s : pt E) : pt E :=
  {| procs := procs s; initproc := initproc s; nextpid := nextpid s;
     npolicy := v; seed := seed s; ticks := ticks s; ptlock := ptlock s;
     mycpu := mycpu s; curproc := curproc s; cr3 := cr3 s; esp0 := esp0
     s; env := env s |}.

Definition with_seed {E} (v : Z) (s : pt E) : pt E :=
  {| procs := procs s; initproc := initproc s; nextpid := nextpid s;
     npolicy := npolicy s; seed := v; ticks := ticks s; ptlock := ptlock
     s; mycpu := mycpu s; curproc := curproc s; cr3 := cr3 s; esp0 :=
     esp0 s; env := env s |}.

Definition with_ticks {E} (v : Z) (s : pt E) : pt E :=
  {| procs := procs s; initproc := initproc s; nextpid := nextpid s;
     npolicy := npolicy s; seed := seed s; ticks := v; ptlock := ptlock
     s; mycpu := mycpu s; curproc := curproc s; cr3 := cr3 s; esp0 :=
     esp0 s; env := env s |}.

Definition with_ptlock {E} (v : spinlock) (s : pt E) : pt E :=
  {| procs := procs s; initproc := initproc s; nextpid := nextpid s;
     npolicy := npolicy s; seed := seed s; ticks := ticks s; ptlock :=
     v; mycpu := mycpu s; curproc := curproc s; cr3 := cr3 s; esp0 :=
     esp0 s; env := env s |}.

Definition with_mycpu {E} (v : cpu) (s : pt E) : pt E :=
  {| procs := procs s; initproc := initproc s; nextpid := nextpid s;
     npolicy := npolicy s; seed := seed s; ticks := ticks s; ptlock :=
     ptlock s; mycpu := v; curproc := curproc s; cr3 := cr3 s; esp0 :=
     esp0 s; env := env s |}.

Definition with_curproc {E} (v : option nat) (s : pt E) : pt E :=
  {| procs := procs s; initproc := initproc s; nextpid := nextpid s;
     npolicy := npolicy s; seed := seed s; ticks := ticks s; ptlock :=
     ptlock s; mycpu := mycpu s; curproc := v; cr3 := cr3 s; esp0 :=
     esp0 s; env := env s |}.

Definition with_cr3 {E} (v : Z) (s : pt E) : pt E :=
  {| procs := procs s; initproc := initproc s; nextpid := nextpid s;
     npolicy := npolicy s; seed := seed s; ticks := ticks s; ptlock :=
     ptlock s; mycpu := mycpu s; curproc := curproc s; cr3 := v; esp0 :=
     esp0 s; env := env s |}.

Definition with_esp0 {E} (v : Z) (s : pt E) : pt E :=
  {| procs := procs s; initproc := initproc s; nextpid := nextpid s;
     npolicy := npolicy s; seed := seed s; ticks := ticks s; ptlock :=
     ptlock s; mycpu := mycpu s; curproc := curproc s; cr3 := cr3 s;
     esp0 := v; env := env s |}.

Definition with_env {E} (v : E) (s : pt E) : pt E :=
  {| procs := procs s; initproc := initproc s; nextpid := nextpid s;
     npolicy := npolicy s; seed := seed s; ticks := ticks s; ptlock :=
     ptlock s; mycpu := mycpu s; curproc := curproc s; cr3 := cr3 s;
     esp0 := esp0 s; env := v |}.

