(* ===== verification/Sched.v ===== *)
(** The lottery scheduler of proc.c as functions of the process table: the
    ticket distribution policies, the pseudo random number generator and the
    draw of the winning process; and what makes the draw correct: the random
    number is a valid ticket, every ticket has a winner, and a process wins
    for exactly as many tickets as it holds. *)

From S2P Require Import Prelude StringC Spinlock Proc.

(** * Policies

    Each policy returns the new total and the updated table. *)

Fixpoint uniform_time_dist_loop (ps : list proc) (total_tickets : Z) : Z * list proc :=
  match ps with
  | [] => (total_tickets, [])
  | p :: ps =>
      let nticket_per_proc := 10 in
      let p := set_ntickets 10 p in
      if negb (bool_decide (state p = RUNNABLE)) then
        let '(t, ps) := uniform_time_dist_loop ps total_tickets in (t, p :: ps)
      else
        let p := set_ntickets nticket_per_proc p in
        let '(t, ps) := uniform_time_dist_loop ps (s32 (total_tickets + nticket_per_proc)) in
        (t, p :: ps)
  end.

Definition uniform_time_dist (ps : list proc) : Z * list proc :=
  uniform_time_dist_loop ps 0.

Fixpoint priority_scheduling_loop (ps : list proc) (total_tickets : Z) : Z * list proc :=
  match ps with
  | [] => (total_tickets, [])
  | p :: ps =>
      let p := set_priority 10 p in
      if negb (bool_decide (state p = RUNNABLE)) then
        let '(t, ps) := priority_scheduling_loop ps total_tickets in (t, p :: ps)
      else
        let p := set_ntickets (priority p) p in
        let '(t, ps) := priority_scheduling_loop ps (s32 (total_tickets + ntickets p)) in
        (t, p :: ps)
  end.

Definition priority_scheduling (ps : list proc) : Z * list proc :=
  priority_scheduling_loop ps 0.

Fixpoint dynamic_tickets_allc_loop (ps : list proc) (total_tickets : Z) : Z * list proc :=
  match ps with
  | [] => (total_tickets, [])
  | p :: ps =>
      let p := set_ntickets 20 p in
      if negb (bool_decide (state p = RUNNABLE)) then
        let '(t, ps) := dynamic_tickets_allc_loop ps total_tickets in (t, p :: ps)
      else
        let '(t, ps) := dynamic_tickets_allc_loop ps (s32 (total_tickets + ntickets p)) in
        (t, p :: ps)
  end.

Definition dynamic_tickets_allc (ps : list proc) : Z * list proc :=
  dynamic_tickets_allc_loop ps 0.

Fixpoint getTickets_loop (ps : list proc) (total_tickets : Z) : Z :=
  match ps with
  | [] => total_tickets
  | p :: ps =>
      if negb (bool_decide (state p = RUNNABLE)) then getTickets_loop ps total_tickets
      else getTickets_loop ps (s32 (total_tickets + ntickets p))
  end.

Definition getTickets (ps : list proc) : Z := getTickets_loop ps 0.

(** The policies[] array: three entries with a function, and a last one
    whose function pointer is 0. *)
Definition policies : list (string * option (list proc -> Z * list proc)) :=
  [("Policy 0", Some uniform_time_dist);
   ("Policy 1", Some priority_scheduling);
   ("Policy 2", Some dynamic_tickets_allc);
   ("NULL", None)].

(** policies[pl].fun(): an index outside the array is a stray access, the
    last entry a call through a null pointer. *)
Definition call_policy (pl : Z) (ps : list proc) : outcome (Z * list proc) :=
  if pl <? 0 then Fault "policies[pl]: index out of bounds"
  else match policies !! Z.to_nat pl with
  | None => Fault "policies[pl]: index out of bounds"
  | Some (_, None) => Fault "policies[pl].fun: call through a null pointer"
  | Some (_, Some f) => Ok (f ps)
  end.

(** * PRNG *)

(** One step of the linear congruential generator, on unsigned int. *)
Definition prng_next (next : Z) : Z := u32 (u32 (next * 1103515245) + 12345).

(** The result and the new seed; [bound] and the result are int. *)
Definition PRNG (seed bound : Z) : Z * Z :=
  if bound =? 0 then (0, seed)
  else
    let next := prng_next seed in
    let result := (next / 65536) mod 2048 in
    let next := prng_next next in
    let result := s32 (Z.shiftl result 10) in
    let result := s32 (Z.lxor result ((next / 65536) mod 1024)) in
    let next := prng_next next in
    let result := s32 (Z.shiftl result 10) in
    let result := s32 (Z.lxor result ((next / 65536) mod 1024)) in
    (Z.rem result bound, next).

(** * The draw

    The table scan of scheduler(): the index of the process that runs. *)
Fixpoint pick (ps : list proc) (ticket : Z) : option nat :=
  match ps with
  | [] => None
  | p :: ps =>
      if negb (bool_decide (state p = RUNNABLE)) then S <$> pick ps ticket
      else
        let ticket := s32 (ticket - ntickets p) in
        if ticket <? 0 then Some 0%nat else S <$> pick ps ticket
  end.

(** * Specification *)

(** The tickets a slot takes part with. *)
Definition tickets_of (p : proc) : Z :=
  if decide (state p = RUNNABLE) then ntickets p else 0.

Definition tsum (ps : list proc) : Z := foldr (fun p t => tickets_of p + t) 0 ps.

(** Ticket counts within the range the policies keep them in. *)
Definition tickets_ok (ps : list proc) : Prop :=
  Forall (fun p => 1 <= ntickets p <= 109) ps.

(** * Lemmas *)

Lemma s32_add_l a b : s32 (s32 a + b) = s32 (a + b).
Proof. zdm. Qed.

Lemma getTickets_loop_sum ps t : s32 (getTickets_loop ps t) = s32 (t + tsum ps).
Proof.
  revert t. induction ps as [|p ps IH]; intros t; simpl.
  - f_equal. lia.
  - unfold tickets_of. case_bool_decide; simpl; rewrite IH.
    + rewrite decide_True, s32_add_l by done. f_equal. lia.
    + rewrite decide_False by done. done.
Qed.

Lemma getTickets_loop_range ps t :
  - 2 ^ 31 <= t < 2 ^ 31 -> - 2 ^ 31 <= getTickets_loop ps t < 2 ^ 31.
Proof.
  revert t. induction ps as [|p ps IH]; intros t Ht; simpl; [done|].
  case_match; apply IH; [done|apply s32_range].
Qed.

Lemma getTickets_s32 ps : getTickets ps = s32 (tsum ps).
Proof.
  unfold getTickets. rewrite <-(s32_small (getTickets_loop ps 0)).
  - by rewrite getTickets_loop_sum.
  - apply getTickets_loop_range. lia.
Qed.

Lemma tsum_app l k : tsum (l ++ k) = tsum l + tsum k.
Proof. induction l as [|p l IH]; simpl; [done|]. rewrite IH. lia. Qed.

Lemma tsum_bounds ps :
  tickets_ok ps -> 0 <= tsum ps <= 109 * Z.of_nat (length ps).
Proof.
  induction 1 as [|p ps Hp _ IH]; simpl; [lia|].
  unfold tickets_of. case_decide; lia.
Qed.

Lemma tsum_nonneg ps : Forall (fun p => 0 <= ntickets p) ps -> 0 <= tsum ps.
Proof.
  induction 1 as [|p ps Hp _ IH]; simpl; [lia|]. unfold tickets_of. case_decide; lia.
Qed.

Lemma tsum_pos ps :
  tickets_ok ps -> Exists (fun p => state p = RUNNABLE) ps -> 0 < tsum ps.
Proof.
  unfold tickets_ok. induction 1 as [|p ps Hp Hps IH]; intros Hex; [by inversion Hex|].
  simpl. unfold tickets_of. pose proof (tsum_bounds ps Hps).
  inversion Hex; subst; [rewrite decide_True by done; lia|].
  specialize (IH ltac:(done)). case_decide; lia.
Qed.

Lemma getTickets_tsum ps :
  tickets_ok ps -> (length ps <= NPROC)%nat -> getTickets ps = tsum ps.
Proof.
  intros Hok Hl. rewrite getTickets_s32. apply s32_small.
  pose proof (tsum_bounds _ Hok). unfold NPROC in Hl. lia.
Qed.

(** A ticket selects the process in whose interval of the cumulative ticket
    counts it lies. *)
Lemma pick_interval ps t j :
  Forall (fun p => 0 <= ntickets p <= INT_MAX) ps -> 0 <= t <= INT_MAX ->
  pick ps t = Some j <->
    exists p, ps !! j = Some p /\ state p = RUNNABLE /\
      tsum (take j ps) <= t < tsum (take j ps) + ntickets p.
Proof.
  unfold INT_MAX. intros Hf. revert t j.
  induction Hf as [|p ps Hp Hf IH]; intros t j Ht; simpl.
  { split; [done|]. intros (p & Hp & _). done. }
  assert (0 <= tsum ps) as Hts.
  { apply tsum_nonneg. eapply Forall_impl; [done|]. simpl. lia. }
  case_bool_decide as Hr; simpl.
  - rewrite s32_small by lia.
    destruct (Z.ltb_spec (t - ntickets p) 0) as [Hlt|Hge].
    + split.
      * intros [= <-]. exists p. split; [done|]. split; [done|]. simpl. lia.
      * destruct j as [|j]; [done|]. intros (q & Hq & Hqr & Hint). exfalso.
        simpl in Hint. unfold tickets_of in Hint. rewrite decide_True in Hint by done.
        assert (0 <= tsum (take j ps)); [|lia].
        apply tsum_nonneg, Forall_take. eapply Forall_impl; [done|]. simpl. lia.
    + destruct j as [|j].
      * split; [by destruct (pick ps _)|]. intros (q & [= <-] & _ & ?). simpl in *. lia.
      * transitivity (pick ps (t - ntickets p) = Some j).
        { apply fmap_S_Some. }
        rewrite IH by lia. simpl. unfold tickets_of. rewrite decide_True by done.
        f_equiv. intros q. intuition lia.
  - destruct j as [|j].
    + split; [by destruct (pick ps _)|]. by intros (q & [= <-] & ? & _).
    + transitivity (pick ps t = Some j).
      { apply fmap_S_Some. }
      rewrite IH by lia. simpl. unfold tickets_of. rewrite decide_False by done.
      f_equiv. intros q. intuition lia.
Qed.

(** Every ticket below the total has a winner. *)
Lemma pick_total ps t :
  Forall (fun p => 0 <= ntickets p <= INT_MAX) ps -> 0 <= t <= INT_MAX -> t < tsum ps ->
  exists j, pick ps t = Some j.
Proof.
  unfold INT_MAX. intros Hf. revert t. induction Hf as [|p ps Hp Hf IH]; intros t H0 Ht; simpl in *; [lia|].
  unfold tickets_of in Ht. case_bool_decide as Hr; simpl.
  - rewrite decide_True in Ht by done. rewrite s32_small by lia.
    case_match; bools; [by eexists|].
    destruct (IH (t - ntickets p)) as [j ->]; [lia..|]. by eexists.
  - rewrite decide_False in Ht by done. destruct (IH t) as [j ->]; [lia..|]. by eexists.
Qed.

Lemma count_interval a n T :
  0 <= a -> 0 <= n -> a + n <= T ->
  length (filter (fun t => a <= t < a + n) (seqZ 0 T)) = Z.to_nat n.
Proof.
  intros. replace T with (a + (n + (T - a - n))) by lia.
  rewrite !seqZ_app by lia. rewrite !filter_app, !length_app.
  rewrite (filter_none _ (seqZ 0 a)), (filter_all _ (seqZ (0 + a) n)),
    (filter_none _ (seqZ (0 + a + n) _)).
  - simpl. rewrite length_seqZ. lia.
  - intros t Ht%elem_of_seqZ. lia.
  - intros t Ht%elem_of_seqZ. lia.
  - intros t Ht%elem_of_seqZ. lia.
Qed.

Lemma lxor_bound a b n :
  0 <= n -> 0 <= a < 2 ^ n -> 0 <= b < 2 ^ n -> 0 <= Z.lxor a b < 2 ^ n.
Proof.
  intros Hn Ha Hb. split; [apply Z.lxor_nonneg; lia|].
  destruct (decide (Z.lxor a b = 0)) as [->|Hz]; [lia|].
  assert (0 <= Z.lxor a b) by (apply Z.lxor_nonneg; lia).
  apply Z.log2_lt_pow2; [lia|].
  assert (0 < n).
  { destruct (decide (n = 0)) as [->|]; [|lia]. exfalso. apply Hz.
    replace a with 0 by lia. by replace b with 0 by lia. }
  eapply Z.le_lt_trans; [apply Z.log2_lxor; lia|].
  apply Z.max_lub_lt.
  - destruct (decide (a = 0)) as [->|]; [simpl; lia|]. apply Z.log2_lt_pow2; lia.
  - destruct (decide (b = 0)) as [->|]; [simpl; lia|]. apply Z.log2_lt_pow2; lia.
Qed.

Lemma prng_next_range n : 0 <= prng_next n < 2 ^ 32.
Proof. apply u32_range. Qed.

(** The 31 bits assembled from three draws are a non-negative int. *)
Lemma prng_bits a b c :
  0 <= a < 2048 -> 0 <= b < 1024 -> 0 <= c < 1024 ->
  let r := s32 (Z.lxor (s32 (Z.shiftl (s32 (Z.lxor (s32 (Z.shiftl a 10)) b)) 10)) c) in
  0 <= r < 2 ^ 31.
Proof.
  intros Ha Hb Hc. simpl. rewrite !Z.shiftl_mul_pow2 by lia.
  rewrite (s32_small (a * 2 ^ 10)) by lia.
  pose proof (lxor_bound (a * 2 ^ 10) b 21 ltac:(lia) ltac:(lia) ltac:(lia)) as H1.
  rewrite (s32_small (Z.lxor _ b)) by lia.
  rewrite (s32_small (_ * 2 ^ 10)) by lia.
  pose proof (lxor_bound (Z.lxor (a * 2 ^ 10) b * 2 ^ 10) c 31
    ltac:(lia) ltac:(lia) ltac:(lia)) as H2.
  rewrite s32_small by lia. lia.
Qed.

Lemma PRNG_bounds sd b :
  0 <= sd < 2 ^ 32 ->
  0 <= snd (PRNG sd b) < 2 ^ 32 /\ (0 < b -> 0 <= fst (PRNG sd b) < b).
Proof.
  intros Hs. unfold PRNG. destruct (Z.eqb_spec b 0); simpl; [lia|].
  split; [apply prng_next_range|]. intros Hb.
  match goal with |- context [Z.rem ?r b] => assert (0 <= r < 2 ^ 31) end.
  { apply prng_bits; apply Z.mod_pos_bound; lia. }
  apply Z.rem_bound_pos; lia.
Qed.

(** What each policy does to one slot. *)
Lemma uniform_time_dist_table ps :
  snd (uniform_time_dist ps) = set_ntickets 10 <$> ps.
Proof.
  unfold uniform_time_dist. generalize 0. induction ps as [|p ps IH]; intros t; [done|].
  simpl. case_match; rewrite (surjective_pairing (uniform_time_dist_loop _ _)); simpl;
    by rewrite IH.
Qed.

Lemma dynamic_tickets_allc_table ps :
  snd (dynamic_tickets_allc ps) = set_ntickets 20 <$> ps.
Proof.
  unfold dynamic_tickets_allc. generalize 0. induction ps as [|p ps IH]; intros t; [done|].
  simpl. case_match; rewrite (surjective_pairing (dynamic_tickets_allc_loop _ _)); simpl;
    by rewrite IH.
Qed.

Lemma priority_scheduling_table ps :
  snd (priority_scheduling ps) =
    (fun p => if decide (state p = RUNNABLE) then set_ntickets 10 (set_priority 10 p)
              else set_priority 10 p) <$> ps.
Proof.
  unfold priority_scheduling. generalize 0. induction ps as [|p ps IH]; intros t; [done|].
  simpl. case_bool_decide; simpl; rewrite (surjective_pairing (priority_scheduling_loop _ _)); simpl;
    rewrite IH; [by rewrite decide_True|by rewrite decide_False].
Qed.

(** The total each policy returns is the one getTickets computes next. *)
Ltac policy_total_tac := match goal with |- context [getTickets_loop (snd (?f _ _)) _] =>
  let p := fresh "p" in let ps := fresh "ps" in let IH := fresh "IH" in
  intros ps; induction ps as [|p ps IH]; intros t; [done|]; simpl;
  case_bool_decide; simpl;
  (match goal with |- context [f ps ?u] => specialize (IH u); destruct (f ps u) end);
  cbn [fst snd getTickets_loop] in *; case_bool_decide; simpl in *;
  first [exact IH | congruence] end.

Lemma uniform_total ps t :
  fst (uniform_time_dist_loop ps t) = getTickets_loop (snd (uniform_time_dist_loop ps t)) t.
Proof. revert ps t. policy_total_tac. Qed.

Lemma priority_total ps t :
  fst (priority_scheduling_loop ps t) = getTickets_loop (snd (priority_scheduling_loop ps t)) t.
Proof. revert ps t. policy_total_tac. Qed.

Lemma dynamic_total ps t :
  fst (dynamic_tickets_allc_loop ps t) = getTickets_loop (snd (dynamic_tickets_allc_loop ps t)) t.
Proof. revert ps t. policy_total_tac. Qed.
