(* ===== verification/ProcOps.v ===== *)
(** The operations of proc.c on the process table: allocation, fork, exit,
    wait, sleep and wakeup, kill, the scheduler loop, the policy and priority
    calls, and the tick accounting.

    An operation runs on one CPU.  A call of [swtch] ends a run: code with a
    context switch in the middle is split into the part before the switch
    ([..._out]) and the part after it ([..._in]), and whatever the other
    processes and CPUs do happens in between. *)

From S2P Require Import Prelude StringC Spinlock Proc Sched.

(** What proc.c calls in the rest of the kernel, with [E] its state.  Calls
    that can wake sleeping processes return the channels they call wakeup on;
    a call that cannot proceed [Blocks]. *)
Class KernelEnv (E : Type) := {
  kalloc : M E (option Z);                       (* kalloc.c *)
  kfree : Z -> M E unit;
  setupkvm : M E (option Z);                     (* vm.c *)
  inituvm : Z -> M E unit;                       (* with initcode *)
  copyuvm : Z -> Z -> M E (option Z);
  freevm : Z -> M E unit;
  allocuvm : Z -> Z -> Z -> M E Z;
  deallocuvm : Z -> Z -> Z -> M E Z;
  filedup : nat -> M E unit;                     (* file.c *)
  fileclose : nat -> M E (list channel);
  idup : nat -> M E unit;                        (* fs.c *)
  iput : nat -> M E (list channel);
  namei_root : M E (option nat * list channel);  (* namei of the root path *)
  begin_op : M E unit;                           (* log.c *)
  end_op : M E (list channel) }.

Section ops.
Context {E : Type} `{KernelEnv E}.
(** Addresses of the assembly entry points, what getcallerpcs records, and
    the kernel page directory kvmalloc set up. *)
Context (forkret_addr trapret_addr : Z) (stk : list Z) (kpgdir : Z).

Abbreviation K := (M (pt E)).

Definition liftE {A} (m : M E A) : K A := fun s =>
  obind (m (env s)) (fun '(a, e) => Ok (a, with_env e s)).

(** *p for a table entry, and an assignment through p. *)
Definition getp (i : nat) : K proc := deref "struct proc" (fun s => procs s !! i).

Definition updp (i : nat) (f : proc -> proc) : K unit :=
  modify (fun s => with_procs (alter f i (procs s)) s).

(** The current process: dereferencing proc == 0 is a fault. *)
Definition cur : K nat := deref "proc" curproc.

Definition acquire_pt : K unit := fun s =>
  obind (acquire stk (mycpu s) (ptlock s)) (fun '(c, l) => Ok (tt, with_mycpu c (with_ptlock l s))).

Definition release_pt : K unit := fun s =>
  obind (release (mycpu s) (ptlock s)) (fun '(c, l) => Ok (tt, with_mycpu c (with_ptlock l s))).

Definition pinit : K unit := modify (fun s => with_ptlock (initlock "ptable" (ptlock s)) s).

(** get_ticks() of trap.c: the unsigned counter as an int. *)
Definition get_ticks : K Z := gets (fun s => s32 (ticks s)).

(** * Sleeping and waking *)

Definition wake (c : option channel) (p : proc) : proc :=
  if bool_decide (state p = SLEEPING) && bool_decide (chan p = c)
  then set_state RUNNABLE p else p.

Definition wakeup1 (c : option channel) : K unit :=
  modify (fun s => with_procs (wake c <$> procs s) s).

Definition wakeup (c : channel) : K unit :=
  acquire_pt;; wakeup1 (Some c);; release_pt.

Fixpoint wakes (cs : list channel) : K unit :=
  match cs with
  | [] => mret tt
  | c :: cs => wakeup c;; wakes cs
  end.

(** A call into the rest of the kernel together with its wakeups. *)
Definition callE {A} (m : M E (A * list channel)) : K A :=
  r ← liftE m; wakes (snd r);; mret (fst r).

Definition call_ (m : M E (list channel)) : K unit :=
  cs ← liftE m; wakes cs.

(** * Address space switches *)

Definition switchuvm (i : nat) : K unit :=
  p ← getp i;
  if kstack p =? 0 then panic "switchuvm: no kstack"
  else if pgdir p =? 0 then panic "switchuvm: no pgdir"
  else
    modify (fun s => with_mycpu (pushcli (mycpu s)) s);;
    modify (with_esp0 (kstack p + KSTACKSIZE));;
    modify (with_cr3 (u32 (pgdir p - KERNBASE)));;
    act (fun s => obind (popcli (mycpu s)) (fun c => Ok (tt, with_mycpu c s))).

Definition switchkvm : K unit := modify (with_cr3 (u32 (kpgdir - KERNBASE))).

(** * sched *)

(** Up to the swtch into the scheduler; the saved intena stays on the kernel
    stack of the process. *)
Definition sched_out : K Z :=
  s ← get;
  if negb (holding (mycpu s) (ptlock s)) then panic "sched ptable.lock"
  else if negb (ncli (mycpu s) =? 1) then panic "sched locks"
  else
    i ← cur; p ← getp i;
    if bool_decide (state p = RUNNING) then panic "sched running"
    else if negb (Z.land (readeflags (mycpu s)) FL_IF =? 0) then panic "sched interruptible"
    else mret (intena (mycpu s)).

Definition sched_in (ie : Z) : K unit :=
  modify (fun s => with_mycpu (set_intena ie (mycpu s)) s).

Definition yield_out : K Z :=
  acquire_pt;;
  i ← cur;
  updp i (set_state RUNNABLE);;
  p ← getp i; np ← gets npolicy;
  when ((np =? 2) && (1 <? ntickets p)) (updp i (set_ntickets (ntickets p - 1)));;
  sched_out.

Definition yield_in (ie : Z) : K unit := sched_in ie;; release_pt.

(** The lock argument of sleep: NULL, &ptable.lock, or another lock, whose
    contents travel with the argument. *)
Inductive lkarg := LkNull | LkPtable | LkOther (l : spinlock).

(** release(lk) and acquire(lk) of the other lock. *)
Definition release_lk (l : spinlock) : K spinlock := fun s =>
  obind (release (mycpu s) l) (fun '(c, l) => Ok (l, with_mycpu c s)).

Definition acquire_lk (l : spinlock) : K spinlock := fun s =>
  obind (acquire stk (mycpu s) l) (fun '(c, l) => Ok (l, with_mycpu c s)).

(** Go to sleep, with ptable.lock held: from [proc->chan = chan] to sched(). *)
Definition sleep_mark (i : nat) (c : channel) : K Z :=
  updp i (set_chan (Some c));;
  updp i (set_state SLEEPING);;
  p ← getp i; np ← gets npolicy;
  when ((np =? 2) && (ntickets p <? 100)) (updp i (set_ntickets (ntickets p + 10)));;
  sched_out.

(** sleep up to the swtch: the released lock and the saved intena. *)
Definition sleep_out (c : channel) (lk : lkarg) : K (lkarg * Z) :=
  cp ← gets curproc;
  match cp, lk with
  | None, _ => panic "sleep"
  | _, LkNull => panic "sleep without lk"
  | Some i, LkPtable => ie ← sleep_mark i c; mret (LkPtable, ie)
  | Some i, LkOther l =>
      acquire_pt;;
      l ← release_lk l;
      ie ← sleep_mark i c;
      mret (LkOther l, ie)
  end.

(** The rest of sleep, after the process has been scheduled again. *)
Definition sleep_in (lk : lkarg) (ie : Z) : K lkarg :=
  sched_in ie;;
  i ← cur;
  updp i (set_chan None);;
  match lk with
  | LkOther l => release_pt;; l ← acquire_lk l; mret (LkOther l)
  | _ => mret lk
  end.

(** * Creating processes *)

Definition allocproc : K (option nat) :=
  acquire_pt;;
  ps ← gets procs;
  match list_find (fun p => state p = UNUSED) ps with
  | None => release_pt;; mret None
  | Some (i, _) =>
      updp i (set_state EMBRYO);;
      n ← gets nextpid;
      modify (with_nextpid (s32 (n + 1)));;
      updp i (set_pid n);;
      release_pt;;
      k ← liftE kalloc;
      updp i (set_kstack (default 0 k));;
      match k with
      | None => updp i (set_state UNUSED);; mret None
      | Some k =>
          let sp := k + KSTACKSIZE in
          let sp := sp - sizeof_trapframe in
          updp i (set_tf_ptr sp);;
          let sp := sp - 4 in
          updp i (set_ret_word trapret_addr);;
          let sp := sp - sizeof_context in
          updp i (set_ctx_ptr sp);;
          updp i (set_ctx ctx_zero);;
          updp i (set_ctx (mkCtx 0 0 0 0 forkret_addr));;
          t ← get_ticks;
          updp i (set_ctime t);;
          updp i (set_stime 0);;
          updp i (set_retime 0);;
          updp i (set_rutime 0);;
          mret (Some i)
      end
  end.

(** The bytes of a C string literal, with its NUL. *)
Definition c_string (l : list Z) : list Z := l ++ [0].

(** safestrcpy(p->name, src, sizeof(p->name)) *)
Definition copy_name (src : list Z) (p : proc) : proc :=
  set_name (safestrcpy_buf 15 (name p) src) p.

Definition userinit : K unit :=
  np ← allocproc;
  modify (with_initproc np);;
  match np with
  | None => fault "userinit: allocproc returned 0"
  | Some i =>
      d ← liftE setupkvm;
      updp i (set_pgdir (default 0 d));;
      match d with
      | None => panic "userinit: out of memory?"
      | Some d =>
          liftE (inituvm d);;
          updp i (set_sz PGSIZE);;
          updp i (set_tf tf_zero);;
          let ucode := Z.lor (Z.shiftl SEG_UCODE 3) DPL_USER in
          let udata := Z.lor (Z.shiftl SEG_UDATA 3) DPL_USER in
          updp i (set_tf (mkTf 0 0 0 0 0 0 0 0 0 0 udata udata 0 0 0 ucode FL_IF PGSIZE udata));;
          updp i (copy_name (c_string [105; 110; 105; 116; 99; 111; 100; 101]));;
          dir ← callE namei_root;
          updp i (set_cwd dir);;
          acquire_pt;;
          updp i (set_state RUNNABLE);;
          release_pt
      end
  end.

Definition growproc (n : Z) : K Z :=
  i ← cur; p ← getp i;
  let sz0 := sz p in
  r ← (if 0 <? n then sz' ← liftE (allocuvm (pgdir p) sz0 (u32 (sz0 + n))); mret (Some sz')
       else if n <? 0 then sz' ← liftE (deallocuvm (pgdir p) sz0 (u32 (sz0 + n))); mret (Some sz')
       else mret None);
  match r with
  | Some 0 => mret (-1)
  | Some sz' => updp i (set_sz sz');; switchuvm i;; mret 0
  | None => updp i (set_sz sz0);; switchuvm i;; mret 0
  end.

(** The descriptor loop of fork. *)
Fixpoint fork_files (fds : list nat) (i np : nat) : K unit :=
  match fds with
  | [] => mret tt
  | fd :: fds =>
      p ← getp i;
      match ofile p !! fd with
      | Some (Some f) =>
          liftE (filedup f);;
          updp np (fun q => set_ofile (<[fd := Some f]> (ofile q)) q);;
          fork_files fds i np
      | _ => fork_files fds i np
      end
  end.

Definition fork : K Z :=
  r ← allocproc;
  match r with
  | None => mret (-1)
  | Some np =>
      i ← cur; p ← getp i;
      d ← liftE (copyuvm (pgdir p) (sz p));
      updp np (set_pgdir (default 0 d));;
      match d with
      | None =>
          q ← getp np;
          liftE (kfree (kstack q));;
          updp np (set_kstack 0);;
          updp np (set_state UNUSED);;
          mret (-1)
      | Some _ =>
          updp np (set_sz (sz p));;
          updp np (set_parent (Some i));;
          updp np (set_tf (tf p));;
          updp np (fun q => set_tf (set_tf_eax 0 (tf q)) q);;
          fork_files (seq 0 NOFILE) i np;;
          match cwd p with
          | None => fault "idup(0)"
          | Some dir =>
              liftE (idup dir);;
              updp np (set_cwd (Some dir));;
              updp np (copy_name (name p));;
              q ← getp np;
              acquire_pt;;
              updp np (set_state RUNNABLE);;
              release_pt;;
              mret (pid q)
          end
      end
  end.

(** * Ending processes *)

Fixpoint exit_files (fds : list nat) (i : nat) : K unit :=
  match fds with
  | [] => mret tt
  | fd :: fds =>
      p ← getp i;
      match ofile p !! fd with
      | Some (Some f) =>
          call_ (fileclose f);;
          updp i (fun q => set_ofile (<[fd := None]> (ofile q)) q);;
          exit_files fds i
      | _ => exit_files fds i
      end
  end.

(** Pass abandoned children to init. *)
Fixpoint exit_reparent (js : list nat) (i : nat) : K unit :=
  match js with
  | [] => mret tt
  | j :: js =>
      q ← getp j;
      if bool_decide (parent q = Some i) then
        ip ← gets initproc;
        updp j (set_parent ip);;
        when (bool_decide (state q = ZOMBIE)) (wakeup1 (ChProc <$> ip));;
        exit_reparent js i
      else exit_reparent js i
  end.

(** The end of exit, from [proc->cwd = 0] on: wake the parent, hand the
    children to init, and jump into the scheduler as a zombie. *)
Definition exit_bury (status : Z) (i : nat) : K unit :=
  updp i (set_cwd None);;
  acquire_pt;;
  p ← getp i;
  wakeup1 (ChProc <$> parent p);;
  exit_reparent (seq 0 NPROC) i;;
  updp i (set_state ZOMBIE);;
  updp i (set_exit_status status);;
  t ← get_ticks;
  updp i (set_ttime t);;
  sched_out;;
  mret tt.

(** exit up to its swtch; the process never runs again. *)
Definition exit (status : Z) : K unit :=
  i ← cur;
  ip ← gets initproc;
  if bool_decide (ip = Some i) then panic "init exiting"
  else
    exit_files (seq 0 NOFILE) i;;
    liftE begin_op;;
    p ← getp i;
    match cwd p with
    | None => fault "iput(0)"
    | Some dir =>
        call_ (iput dir);;
        call_ end_op;;
        exit_bury status i
    end.

(** * Waiting for children *)

Inductive wait_scan := Reaped (pid status : Z) (pf : perf) | NoZombie (havekids : bool).

Definition perf_of (p : proc) : perf :=
  mkPerf (ctime p) (ttime p) (stime p) (retime p) (rutime p).

(** The scan of the table for an exited child, and its burial. *)
Fixpoint wait_scan_loop (js : list nat) (i : nat) (havekids : bool) : K wait_scan :=
  match js with
  | [] => mret (NoZombie havekids)
  | j :: js =>
      q ← getp j;
      if negb (bool_decide (parent q = Some i)) then wait_scan_loop js i havekids
      else if bool_decide (state q = ZOMBIE) then
        let pf := perf_of q in
        let id := pid q in
        liftE (kfree (kstack q));;
        updp j (set_kstack 0);;
        liftE (freevm (pgdir q));;
        updp j (set_pid 0);;
        updp j (set_parent None);;
        updp j (fun q => set_name (<[0%nat := 0]> (name q)) q);;
        updp j (set_killed 0);;
        updp j (set_state UNUSED);;
        mret (Reaped id (exit_status q) pf)
      else wait_scan_loop js i true
  end.

(** How one pass of wait ends: with a result, or asleep on the process's own
    address with the saved intena.  [WaitDone r w pf]: the return value, the
    word stored through status if it is not NULL, and wait_stat's perf. *)
Inductive wait_result :=
| WaitDone (r : Z) (stored : option Z) (pf : option perf)
| WaitSleeping (ie : Z).

(** One pass of the loop, with ptable.lock held. *)
Definition wait_pass (status : Z) (want_perf : bool) : K wait_result :=
  i ← cur;
  r ← wait_scan_loop (seq 0 NPROC) i false;
  match r with
  | Reaped id st pf =>
      release_pt;;
      mret (WaitDone id (if negb (status =? 0) then Some st else None)
        (if want_perf then Some pf else None))
  | NoZombie havekids =>
      p ← getp i;
      if negb havekids || negb (killed p =? 0) then
        release_pt;; mret (WaitDone (-1) None None)
      else
        x ← sleep_out (ChProc i) LkPtable;
        mret (WaitSleeping (snd x))
  end.

Definition wait (status : Z) : K wait_result := acquire_pt;; wait_pass status false.

(** ... and after the process was woken. *)
Definition wait_resume (status ie : Z) : K wait_result :=
  sleep_in LkPtable ie;; wait_pass status false.

(** wait_stat: the same loop, which also fills *performance. *)
Definition wait_stat (status : Z) : K wait_result := acquire_pt;; wait_pass status true.

Definition wait_stat_resume (status ie : Z) : K wait_result :=
  sleep_in LkPtable ie;; wait_pass status true.

(** * kill *)

Fixpoint kill_loop (js : list nat) (id : Z) : K Z :=
  match js with
  | [] => release_pt;; mret (-1)
  | j :: js =>
      q ← getp j;
      if pid q =? id then
        updp j (set_killed 1);;
        when (bool_decide (state q = SLEEPING)) (updp j (set_state RUNNABLE));;
        release_pt;;
        mret 0
      else kill_loop js id
  end.

Definition kill (id : Z) : K Z := acquire_pt;; kill_loop (seq 0 NPROC) id.

(** * Policies, ticks and the scheduler *)

Definition set_my_priority (pr : Z) : K unit :=
  np ← gets npolicy;
  when (np =? 1) (i ← cur; updp i (set_priority pr)).

Definition policy (pl : Z) : K unit :=
  modify (with_npolicy pl);;
  act (fun s => obind (call_policy pl (procs s)) (fun '(_, ps) => Ok (tt, with_procs ps s))).

Definition tick1 (p : proc) : proc :=
  match state p with
  | RUNNING => set_rutime (s32 (rutime p + 1)) p
  | RUNNABLE => set_retime (s32 (retime p + 1)) p
  | SLEEPING => set_stime (s32 (stime p + 1)) p
  | _ => p
  end.

Definition update_times : K unit :=
  acquire_pt;; modify (fun s => with_procs (tick1 <$> procs s) s);; release_pt.

(** The timer interrupt on CPU 0 (trap.c); [l] is tickslock. *)
Definition timer_tick (l : spinlock) : K spinlock :=
  l ← acquire_lk l;
  modify (fun s => with_ticks (u32 (ticks s + 1)) s);;
  update_times;;
  wakeup ChTicks;;
  release_lk l.

(** PRNG(bound) with its static seed. *)
Definition prng (bound : Z) : K Z := fun s =>
  let '(r, sd) := PRNG (seed s) bound in Ok (r, with_seed sd s).

(** One turn of the scheduler loop up to its swtch, if it finds a process:
    [nt] is the local variable ntickets, whose new value is returned with the
    process that was chosen.  When nobody is chosen the lock is released and
    the loop goes round. *)
Definition scheduler_out (nt : Z) : K (Z * option nat) :=
  modify (fun s => with_mycpu (sti (mycpu s)) s);;
  acquire_pt;;
  nt ← (if nt =? 0 then
          act (fun s => obind (call_policy 0 (procs s)) (fun '(t, ps) => Ok (t, with_procs ps s)))
        else gets (fun s => getTickets (procs s)));
  ticket ← prng nt;
  ps ← gets procs;
  match pick ps ticket with
  | Some i =>
      modify (with_curproc (Some i));;
      switchuvm i;;
      updp i (set_state RUNNING);;
      mret (nt, Some i)
  | None => release_pt;; mret (nt, None)
  end.

(** After the process has switched back. *)
Definition scheduler_in : K unit :=
  switchkvm;;
  modify (with_curproc None);;
  release_pt.

(** A new process's first run: forkret, returning to trapret. [first] is the
    static flag; the initialisations it guards are iinit and initlog. *)
Definition forkret (first : bool) (iinit_initlog : M E (list channel)) : K bool :=
  release_pt;;
  when first (call_ iinit_initlog);;
  mret false.

End ops.

