(* ===== verification/ProcFacts.v ===== *)
(** Symbolic execution of the process operations: how the lock brackets, table
    updates and calls into the rest of the kernel act on the state, and the
    exact result of each operation of proc.c. *)

From S2P Require Import Prelude StringC Spinlock Proc Sched ProcOps.

Section facts.
Context {E : Type} `{KernelEnv E}.
Context (forkret_addr trapret_addr : Z) (stk : list Z) (kpgdir : Z).

Implicit Types s t : pt E.

(** ptable.lock is free, and the executing CPU can take it. *)
Definition lock_free s : Prop := locked (ptlock s) = 0 /\ cli_ok (mycpu s).

(** The state right after acquire(&ptable.lock) from [s]. *)
Definition acq s : pt E :=
  with_mycpu (pushcli (mycpu s))
    (with_ptlock (mkSpinlock 1 (lname (ptlock s)) (Some (cpu_id (mycpu s))) stk) s).

(** [s] with the traces of an acquire/release pair: the debugging fields of
    the lock and the remembered interrupt flag. *)
Definition settle s : pt E :=
  with_mycpu (popped (mycpu s))
    (with_ptlock (mkSpinlock 0 (lname (ptlock s)) None (<[0%nat := 0]> stk)) s).

Lemma settle_free s : lock_free s -> lock_free (settle s).
Proof. intros [? ?]. split; [done|]. by apply popped_ok. Qed.

Lemma acquire_run s : lock_free s -> acquire_pt stk s = Ok (tt, acq s).
Proof.
  intros [Hl Hc]. unfold acquire_pt. by rewrite acquire_free.
Qed.

Lemma wp_acquire s (Q : unit -> pt E -> Prop) :
  lock_free s -> Q tt (acq s) -> wp (acquire_pt stk) s Q.
Proof. intros Hs HQ. eapply wp_run; [by apply acquire_run|done]. Qed.

(** release from a state [t] reached from [acq s] without touching the lock. *)
Lemma release_run s t :
  lock_free s -> mycpu t = mycpu (acq s) -> ptlock t = ptlock (acq s) ->
  release_pt t = Ok (tt, with_mycpu (popped (mycpu s))
    (with_ptlock (mkSpinlock 0 (lname (ptlock s)) None (<[0%nat := 0]> stk)) t)).
Proof.
  intros [Hl Hc] Hm Hp. unfold release_pt. rewrite Hm, Hp. simpl. by rewrite release_held.
Qed.

Lemma wp_release s t (Q : unit -> pt E -> Prop) :
  lock_free s -> mycpu t = mycpu (acq s) -> ptlock t = ptlock (acq s) ->
  Q tt (with_mycpu (popped (mycpu s))
    (with_ptlock (mkSpinlock 0 (lname (ptlock s)) None (<[0%nat := 0]> stk)) t)) ->
  wp release_pt t Q.
Proof. intros. eapply wp_run; [by apply (release_run s)|done]. Qed.

Lemma wp_getp s i p (Q : proc -> pt E -> Prop) :
  procs s !! i = Some p -> Q p s -> wp (getp i) s Q.
Proof. apply (wp_deref _ (fun s => procs s !! i)). Qed.

Lemma wp_updp s i p f (Q : unit -> pt E -> Prop) :
  procs s !! i = Some p -> Q tt (with_procs (<[i := f p]> (procs s)) s) ->
  wp (updp i f) s Q.
Proof.
  intros Hp HQ. apply wp_modify.
  replace (alter f i (procs s)) with (<[i := f p]> (procs s)); [done|].
  apply list_eq. intros j. rewrite list_lookup_insert_dec.
  destruct (decide (i = j)) as [->|Hne].
  - rewrite decide_True by (split; [done|by eapply lookup_lt_Some]).
    by rewrite list_lookup_alter_eq, Hp.
  - rewrite decide_False by (intros [? _]; done). by rewrite list_lookup_alter_ne.
Qed.

Lemma wp_cur s i (Q : nat -> pt E -> Prop) :
  curproc s = Some i -> Q i s -> wp cur s Q.
Proof. apply (wp_deref _ curproc). Qed.

Lemma wp_liftE {A} (m : M E A) s a e (Q : A -> pt E -> Prop) :
  m (env s) = Ok (a, e) -> Q a (with_env e s) -> wp (liftE m) s Q.
Proof.
  intros Hm HQ. eapply wp_run; [|done]. unfold liftE. by rewrite Hm.
Qed.

(** States that agree on everything but the debugging fields of the lock and
    the remembered interrupt flag, with the lock free. *)
Definition core s : pt E :=
  with_mycpu (mkCpu 0 0 0 false) (with_ptlock (mkSpinlock 0 EmptyString None []) s).

Record quiet s t : Prop := {
  quiet_core : core t = core s;
  quiet_free : lock_free t;
  quiet_id : cpu_id (mycpu t) = cpu_id (mycpu s);
  quiet_ncli : ncli (mycpu t) = ncli (mycpu s);
  quiet_iflag : iflag (mycpu t) = iflag (mycpu s) }.

(** What does not depend on the lock or the CPU is the same in both. *)
Lemma core_eq {A} (f : pt E -> A) s t :
  (forall u, f (core u) = f u) -> core t = core s -> f t = f s.
Proof. intros Hf Hc. by rewrite <-(Hf t), Hc, Hf. Qed.

Lemma quiet_refl s : lock_free s -> quiet s s.
Proof. by split. Qed.

Lemma quiet_trans s t u : quiet s t -> quiet t u -> quiet s u.
Proof. intros [? ? ? ? ?] [? ? ? ? ?]. split; congruence || done. Qed.

Lemma quiet_settle s : lock_free s -> quiet s (settle s).
Proof.
  intros Hs. destruct (popped_fields (mycpu s)) as (? & ? & ?).
  split; try done. by apply settle_free.
Qed.

Lemma quiet_fields s t :
  quiet s t ->
  procs t = procs s /\ initproc t = initproc s /\ nextpid t = nextpid s /\
  npolicy t = npolicy s /\ ticks t = ticks s /\ curproc t = curproc s /\
  env t = env s.
Proof.
  intros [Hc _ _ _ _].
  assert (forall A (f : pt E -> A), f (core t) = f (core s)) as Hf by (intros; by rewrite Hc).
  repeat split.
  - apply (Hf _ procs).
  - apply (Hf _ initproc).
  - apply (Hf _ nextpid).
  - apply (Hf _ npolicy).
  - apply (Hf _ ticks).
  - apply (Hf _ curproc).
  - apply (Hf _ env).
Qed.

(** Changing the table or the environment keeps two states quiet. *)
Lemma quiet_with_procs ps s t : quiet s t -> quiet (with_procs ps s) (with_procs ps t).
Proof.
  intros [Hc Hf ? ? ?]. split; try done.
  change (with_procs ps (core t) = with_procs ps (core s)). by rewrite Hc.
Qed.

Lemma quiet_with_env e s t : quiet s t -> quiet (with_env e s) (with_env e t).
Proof.
  intros [Hc Hf ? ? ?]. split; try done.
  change (with_env e (core t) = with_env e (core s)). by rewrite Hc.
Qed.

Lemma quiet_over ps e s t :
  quiet s t -> quiet (with_env e (with_procs ps s)) (with_env e (with_procs ps t)).
Proof. intros. by apply quiet_with_env, quiet_with_procs. Qed.

(** * wakeup *)

Definition wake_all (cs : list channel) (p : proc) : proc :=
  foldl (fun p c => wake (Some c) p) p cs.

Lemma wakeup_run c s :
  lock_free s ->
  wakeup stk c s = Ok (tt, settle (with_procs (wake (Some c) <$> procs s) s)).
Proof.
  intros Hs. unfold wakeup. rewrite (bind_Ok _ _ _ _ _ (acquire_run _ Hs)).
  rewrite (bind_Ok (wakeup1 _) _ _ tt (with_procs (wake (Some c) <$> procs s) (acq s))) by done.
  by rewrite (release_run s).
Qed.

Lemma wp_wakes cs s (Q : unit -> pt E -> Prop) :
  lock_free s ->
  (forall t, quiet (with_procs (wake_all cs <$> procs s) s) t -> Q tt t) ->
  wp (wakes stk cs) s Q.
Proof.
  revert s. induction cs as [|c cs IH]; intros s Hs HQ; simpl.
  - apply wp_ret, HQ. simpl. rewrite list_fmap_id. by destruct s.
  - apply wp_bind. eapply wp_run; [by apply wakeup_run|].
    apply IH; [by apply (settle_free (with_procs _ s))|]. intros t Ht. apply HQ. simpl in Ht.
    rewrite <-list_fmap_compose in Ht.
    change (wake_all cs ∘ wake (Some c)) with (wake_all (c :: cs)) in Ht.
    eapply quiet_trans; [|exact Ht].
    exact (quiet_with_procs (wake_all (c :: cs) <$> procs s) _ _
      (quiet_settle (with_procs (wake (Some c) <$> procs s) s) Hs)).
Qed.

Lemma wp_call_ m s cs e (Q : unit -> pt E -> Prop) :
  lock_free s -> m (env s) = Ok (cs, e) ->
  (forall t, quiet (with_procs (wake_all cs <$> procs s) (with_env e s)) t -> Q tt t) ->
  wp (call_ stk m) s Q.
Proof.
  intros Hs Hm HQ. apply wp_bind. eapply wp_liftE; [done|].
  apply wp_wakes; [done|]. exact HQ.
Qed.

(** wakeup acts only on sleepers of its channel. *)
Lemma wake_spec c p :
  wake c p = if decide (state p = SLEEPING /\ chan p = c) then set_state RUNNABLE p else p.
Proof.
  unfold wake. do 2 case_bool_decide; simpl.
  - by rewrite decide_True.
  - rewrite decide_False; [done|]. by intros [_ ?].
  - rewrite decide_False; [done|]. by intros [? _].
  - rewrite decide_False; [done|]. by intros [? _].
Qed.

End facts.
