(* ===== verification/ProcSpec.v ===== *)
(** The exact effect of the operations of proc.c that create, end, reap and
    signal processes.  The calls an operation makes into the rest of the kernel
    are collected in a program on the environment ([fork_env], [exit_env],
    [reap_env]); the specifications say what the operation does whenever that
    program returns. *)

From S2P Require Import Prelude StringC Spinlock Proc Sched ProcOps ProcFacts.

(** Lookups in an updated table. *)
Lemma lookup_ins_eq {A} (l : list A) i x y : l !! i = Some y -> <[i := x]> l !! i = Some x.
Proof. intros H. apply list_lookup_insert_eq. by eapply lookup_lt_Some. Qed.

Ltac plk := simpl; rewrite ?list_insert_insert_eq; lazymatch goal with
  | H : ?l !! ?i = Some _ |- ?l !! ?i = _ => exact H
  | |- <[?i := _]> _ !! ?i = _ => eapply lookup_ins_eq; plk
  | |- <[_ := _]> _ !! _ = _ => rewrite list_lookup_insert_ne by congruence; plk
  | |- _ => first [eassumption | done]
  end.

(** Repeated assignments to one entry collapse into one update of the table. *)
Lemma wp_updp_again {E} (t : pt E) i p f ps (Q : unit -> pt E -> Prop) :
  (i < length ps)%nat ->
  Q tt (with_procs (<[i := f p]> ps) t) -> wp (updp i f) (with_procs (<[i := p]> ps) t) Q.
Proof.
  intros Hi HQ. eapply wp_updp; [by apply list_lookup_insert_eq|].
  simpl. by rewrite list_insert_insert_eq.
Qed.

Lemma wp_getp_again {E} (t : pt E) i p ps (Q : proc -> pt E -> Prop) :
  (i < length ps)%nat ->
  Q p (with_procs (<[i := p]> ps) t) -> wp (getp i) (with_procs (<[i := p]> ps) t) Q.
Proof. intros Hi HQ. eapply wp_getp; [by apply list_lookup_insert_eq|done]. Qed.

Ltac inrange := simpl; rewrite ?length_insert; lazymatch goal with
  | H : ?l !! ?i = Some _ |- (?i < length ?l)%nat => exact (lookup_lt_Some _ _ _ H)
  | _ => lia
  end.

(** One step of symbolic execution. *)
Ltac kstep := lazymatch goal with
  | |- wp (_ ≫= _) _ _ => apply wp_bind
  | |- wp (mret _) _ _ => apply wp_ret
  | |- wp get _ _ => apply wp_get
  | |- wp (gets _) _ _ => apply wp_gets
  | |- wp (modify _) _ _ => apply wp_modify
  | |- wp get_ticks _ _ => apply wp_gets
  | |- wp (getp ?i) (with_procs (<[?i := _]> _) _) _ => apply wp_getp_again; [inrange|]
  | |- wp (updp ?i _) (with_procs (<[?i := _]> _) _) _ => apply wp_updp_again; [inrange|]
  | |- wp (getp _) _ _ => eapply wp_getp; [plk|]
  | |- wp (updp _ _) _ _ => eapply wp_updp; [plk|]
  | |- wp cur _ _ => eapply wp_cur; [plk|]
  end; cbn beta.

Section spec.
Context {E : Type} `{KernelEnv E}.
Context (forkret_addr trapret_addr : Z) (stk : list Z) (kpgdir : Z).

Implicit Types s t : pt E.

(** * allocproc *)

(** The slot allocproc hands out: [n] the new pid, [k] the kernel stack, [now]
    the tick count. *)
Definition fresh_proc (n k now : Z) (p : proc) : proc :=
  set_rutime 0 (set_retime 0 (set_stime 0 (set_ctime now
    (set_ctx (mkCtx 0 0 0 0 forkret_addr) (set_ctx ctx_zero
    (set_ctx_ptr (k + KSTACKSIZE - sizeof_trapframe - 4 - sizeof_context)
    (set_ret_word trapret_addr
    (set_tf_ptr (k + KSTACKSIZE - sizeof_trapframe)
    (set_kstack k (set_pid n (set_state EMBRYO p))))))))))).

(** The slot of an allocation that got no kernel stack. *)
Definition failed_proc (n : Z) (p : proc) : proc :=
  set_state UNUSED (set_kstack 0 (set_pid n (set_state EMBRYO p))).

Definition first_unused (ps : list proc) : option (nat * proc) :=
  list_find (fun p => state p = UNUSED) ps.

Lemma first_unused_lookup ps i p :
  first_unused ps = Some (i, p) -> ps !! i = Some p /\ state p = UNUSED.
Proof. unfold first_unused. rewrite list_find_Some. tauto. Qed.

Abbreviation allocproc := (allocproc forkret_addr trapret_addr stk).

Lemma wp_allocproc_full s (Q : option nat -> pt E -> Prop) :
  lock_free s -> first_unused (procs s) = None ->
  (forall t, quiet s t -> Q None t) -> wp allocproc s Q.
Proof.
  intros Hs Hf HQ. unfold ProcOps.allocproc.
  apply wp_bind, (wp_acquire stk); [done|].
  kstep. kstep. unfold first_unused in Hf. simpl. rewrite Hf.
  kstep. eapply (wp_release stk s); [done..|]. kstep. apply HQ.
  exact (quiet_settle stk s Hs).
Qed.

Lemma wp_allocproc s i p k e (Q : option nat -> pt E -> Prop) :
  lock_free s -> first_unused (procs s) = Some (i, p) ->
  kalloc (env s) = Ok (k, e) ->
  (forall t, quiet (with_nextpid (s32 (nextpid s + 1)) (with_env e (with_procs
      (<[i := match k with
              | Some k => fresh_proc (nextpid s) k (s32 (ticks s)) p
              | None => failed_proc (nextpid s) p
              end]> (procs s)) s))) t ->
     Q (match k with Some _ => Some i | None => None end) t) ->
  wp allocproc s Q.
Proof.
  intros Hs Hf Hk HQ. pose proof (first_unused_lookup _ _ _ Hf) as [Hi _].
  unfold ProcOps.allocproc, first_unused in *.
  apply wp_bind, (wp_acquire stk); [done|].
  kstep. kstep. simpl. rewrite Hf.
  repeat kstep. eapply (wp_release stk s); [done..|].
  kstep. eapply wp_liftE; [exact Hk|].
  kstep. kstep.
  destruct k as [k|]; repeat kstep; simpl; rewrite ?list_insert_insert_eq; apply HQ.
  all: simpl; rewrite ?list_insert_insert_eq.
  all: exact (quiet_settle stk (with_nextpid _ (with_env e (with_procs _ s))) Hs).
Qed.

(** * kill *)

Definition first_pid (id : Z) (ps : list proc) : option (nat * proc) :=
  list_find (fun p => pid p = id) ps.

Definition kill_proc (p : proc) : proc :=
  if decide (state p = SLEEPING) then set_state RUNNABLE (set_killed 1 p)
  else set_killed 1 p.

(** The loop of kill over the rest of the table, [k] entries done. *)
Lemma wp_kill_loop id s t m k (Q : Z -> pt E -> Prop) :
  lock_free s -> t = acq stk s -> length (procs s) = (k + m)%nat ->
  (forall u,
     match list_find (fun p => pid p = id) (drop k (procs s)) with
     | Some (j, p) => quiet (with_procs (<[(k + j)%nat := kill_proc p]> (procs s)) s) u -> Q 0 u
     | None => quiet s u -> Q (-1) u
     end) ->
  wp (kill_loop (seq k m) id) t Q.
Proof.
  intros Hs ->. revert k. induction m as [|m IH]; intros k Hl HQ; simpl.
  - rewrite drop_ge in HQ by lia. simpl in HQ.
    kstep. eapply (wp_release stk s); [done..|]. kstep.
    apply HQ. exact (quiet_settle stk s Hs).
  - destruct (lookup_lt_is_Some_2 (procs s) k ltac:(lia)) as [p Hp].
    rewrite (drop_S _ _ _ Hp) in HQ. simpl in HQ.
    kstep. eapply wp_getp; [exact Hp|].
    destruct (Z.eqb_spec (pid p) id) as [He|He].
    + rewrite decide_True in HQ by done. simpl in HQ. rewrite Nat.add_0_r in HQ.
      kstep. eapply wp_updp; [exact Hp|]. kstep.
      apply wp_when; intros Hst; bools.
      * kstep. kstep. eapply (wp_release stk s); [done..|]. kstep. apply HQ.
        simpl. rewrite ?list_insert_insert_eq. unfold kill_proc.
        rewrite decide_True by done.
        exact (quiet_settle stk (with_procs _ s) Hs).
      * kstep. eapply (wp_release stk s); [done..|]. kstep. apply HQ. unfold kill_proc.
        rewrite decide_False by done.
        exact (quiet_settle stk (with_procs _ s) Hs).
    + rewrite decide_False in HQ by done.
      apply IH; [lia|]. intros u. specialize (HQ u).
      destruct (list_find _ (drop (S k) _)) as [[j q]|]; simpl in *; [|done].
      by replace (S (k + j)) with (k + S j)%nat by lia.
Qed.

Lemma wp_kill id s (Q : Z -> pt E -> Prop) :
  lock_free s -> length (procs s) = NPROC ->
  (forall t,
     match first_pid id (procs s) with
     | Some (j, p) => quiet (with_procs (<[j := kill_proc p]> (procs s)) s) t -> Q 0 t
     | None => quiet s t -> Q (-1) t
     end) ->
  wp (kill stk id) s Q.
Proof.
  intros Hs Hl HQ. unfold kill. apply wp_bind, (wp_acquire stk); [done|].
  eapply (wp_kill_loop id s); done.
Qed.

(** * exit *)

(** What exit asks of the rest of the kernel: close the open files, then drop
    the current directory inside a transaction. *)
Fixpoint closes (fs : list (option nat)) : M E (list channel) :=
  match fs with
  | [] => mret []
  | Some f :: fs => cs ← fileclose f; ds ← closes fs; mret (cs ++ ds)
  | None :: fs => closes fs
  end.

Definition exit_env (fs : list (option nat)) (dir : nat) : M E (list channel) :=
  cs ← closes fs;
  begin_op;;
  ds ← iput dir;
  es ← end_op;
  mret (cs ++ ds ++ es).

Lemma wake_all_app cs ds p : wake_all (cs ++ ds) p = wake_all ds (wake_all cs p).
Proof. unfold wake_all. by rewrite foldl_app. Qed.

(** Waking changes only the state of a process. *)
Lemma wake_only_state c p : exists st, wake c p = set_state st p.
Proof. unfold wake. case_match; [by eexists|]. exists (state p). by destruct p. Qed.

Lemma wake_all_only_state cs p : exists st, wake_all cs p = set_state st p.
Proof.
  unfold wake_all. revert p. induction cs as [|c cs IH]; intros p; simpl.
  - exists (state p). by destruct p.
  - destruct (IH (wake (Some c) p)) as [st ->].
    destruct (wake_only_state (Some c) p) as [st' ->]. by exists st.
Qed.

(** A process that is not asleep is not affected. *)
Lemma wake_awake c p : state p <> SLEEPING -> wake c p = p.
Proof. intros. unfold wake. by rewrite bool_decide_false. Qed.

Lemma wake_all_awake cs p : state p <> SLEEPING -> wake_all cs p = p.
Proof.
  unfold wake_all. induction cs as [|c cs IH]; simpl; intros Hp; [done|].
  rewrite wake_awake by done. by apply IH.
Qed.

(** The descriptor loop from descriptor [k] on, for a running process. *)
Lemma wp_exit_files s i p m k cs e (Q : unit -> pt E -> Prop) :
  lock_free s -> procs s !! i = Some p -> state p <> SLEEPING ->
  length (ofile p) = (k + m)%nat ->
  closes (drop k (ofile p)) (env s) = Ok (cs, e) ->
  (forall t, quiet (with_env e (with_procs (<[i := set_ofile
       (take k (ofile p) ++ replicate m None) p]> (wake_all cs <$> procs s)) s)) t ->
     Q tt t) ->
  wp (exit_files stk (seq k m) i) s Q.
Proof.
  revert s p k cs e. induction m as [|m IH]; intros s p k cs e Hs Hp Hst Hl Hc HQ; simpl.
  - rewrite drop_ge in Hc by lia. simpl in Hc. injection Hc as <- <-.
    kstep. apply HQ. rewrite take_ge, app_nil_r by lia.
    replace (wake_all [] <$> procs s) with (procs s) by (symmetry; apply list_fmap_id).
    rewrite list_insert_id; [by destruct s; apply quiet_refl|].
    rewrite Hp. by destruct p.
  - destruct (lookup_lt_is_Some_2 (ofile p) k ltac:(lia)) as [o Ho].
    rewrite (drop_S _ _ _ Ho) in Hc. kstep. eapply wp_getp; [exact Hp|]. rewrite Ho.
    assert (take (S k) (ofile p) = take k (ofile p) ++ [o]) as Htk by by apply take_S_r.
    destruct o as [f|]; simpl in Hc.
    + apply bind_Ok_inv in Hc as (cs1 & e1 & Hf & Hc).
      apply bind_Ok_inv in Hc as (cs2 & e2 & Hc2 & Hc). injection Hc as <- <-.
      kstep. eapply wp_call_; [done|exact Hf|]. intros t Ht.
      destruct (quiet_fields _ _ Ht) as (Htp & _ & _ & _ & _ & _ & Hte). simpl in *.
      assert (procs t !! i = Some p) as Hp'.
      { rewrite Htp, list_lookup_fmap, Hp. simpl. by rewrite wake_all_awake. }
      kstep. eapply wp_updp; [exact Hp'|].
      eapply (IH _ (set_ofile (<[k := None]> (ofile p)) p)).
      * apply Ht.
      * simpl. by eapply lookup_ins_eq.
      * done.
      * simpl. rewrite length_insert. lia.
      * simpl. rewrite drop_insert_lt by lia. rewrite Hte. exact Hc2.
      * intros u Hu. apply HQ. eapply quiet_trans; [|exact Hu]. simpl.
        rewrite (take_S_r _ _ None) by (apply list_lookup_insert_eq; lia).
        rewrite take_insert_ge by lia.
        replace ((take k (ofile p) ++ [None]) ++ replicate m None)
          with (take k (ofile p) ++ None :: replicate m None) by by rewrite <-app_assoc.
        rewrite list_fmap_insert, list_insert_insert_eq, Htp.
        rewrite <-list_fmap_compose.
        rewrite (list_fmap_ext (wake_all cs2 ∘ wake_all cs1) (wake_all (cs1 ++ cs2)) (procs s))
          by (intros; symmetry; apply wake_all_app).
        exact (quiet_with_env e2 _ _ (quiet_with_procs _ _ _ Ht)).
    + eapply (IH s p (S k) cs e); [done..|lia|done|].
      intros t Ht. apply HQ. rewrite Htk, <-app_assoc in Ht. exact Ht.
Qed.

(** Handing the children of [i] to init. *)
Definition adopt (i : nat) (ip : option nat) (q : proc) : proc :=
  if decide (parent q = Some i) then set_parent ip q else q.

Definition orphan_zombie (i : nat) (q : proc) : bool :=
  bool_decide (parent q = Some i) && bool_decide (state q = ZOMBIE).

(** The table after the loop has treated the entries from [k] on. *)
Definition reparented (i : nat) (ip : option nat) (k : nat) (ps : list proc) : list proc :=
  let ps' := take k ps ++ (adopt i ip <$> drop k ps) in
  if existsb (orphan_zombie i) (drop k ps) then wake (ChProc <$> ip) <$> ps' else ps'.

Lemma wake_idemp c q : wake c (wake c q) = wake c q.
Proof.
  rewrite (wake_spec c q). case_decide; [|by rewrite wake_spec, decide_False].
  by rewrite wake_awake.
Qed.

Lemma orphan_zombie_wake i c q : orphan_zombie i (wake c q) = orphan_zombie i q.
Proof.
  rewrite wake_spec. case_decide as D; [|done]. destruct D as [D _].
  unfold orphan_zombie. simpl. rewrite D. by rewrite !(bool_decide_false (_ = ZOMBIE)).
Qed.

Lemma existsb_orphan_wake i c ps :
  existsb (orphan_zombie i) (wake c <$> ps) = existsb (orphan_zombie i) ps.
Proof. induction ps as [|q ps IH]; csimpl; [done|]. by rewrite orphan_zombie_wake, IH. Qed.

Lemma adopt_wake i ip c q : adopt i ip (wake c q) = wake c (adopt i ip q).
Proof.
  unfold adopt. rewrite !wake_spec.
  repeat (case_decide; simpl in *; try done).
Qed.

Lemma adopt_wake_list i ip c (ps : list proc) :
  adopt i ip <$> (wake c <$> ps) = wake c <$> (adopt i ip <$> ps).
Proof.
  rewrite <-!list_fmap_compose. apply list_fmap_ext. intros. apply adopt_wake.
Qed.

Lemma reparented_step i ip k q ps :
  ps !! k = Some q -> ip <> Some i ->
  reparented i ip (S k)
    (if decide (parent q = Some i) then
       (if decide (state q = ZOMBIE) then wake (ChProc <$> ip) <$> <[k := set_parent ip q]> ps
        else <[k := set_parent ip q]> ps)
     else ps) = reparented i ip k ps.
Proof.
  intros Hq Hip. unfold reparented. rewrite (drop_S _ _ _ Hq). csimpl.
  assert (k < length ps)%nat by by eapply lookup_lt_Some.
  assert (forall x, take (S k) (<[k := x]> ps) = take k ps ++ [x]) as Ht.
  { intros x. rewrite (take_S_r _ _ x) by (by apply list_lookup_insert_eq).
    by rewrite take_insert_ge. }
  assert (forall x, drop (S k) (<[k := x]> ps) = drop (S k) ps) as Hd.
  { intros. apply drop_insert_lt. lia. }
  assert (orphan_zombie i q = bool_decide (parent q = Some i) && bool_decide (state q = ZOMBIE))
    as -> by done.
  assert (adopt i ip q = if decide (parent q = Some i) then set_parent ip q else q)
    as -> by done.
  destruct (decide (parent q = Some i)) as [Hp|Hp].
  - rewrite (bool_decide_true (parent q = _)) by done.
    destruct (decide (state q = ZOMBIE)) as [Hz|Hz].
    + rewrite (bool_decide_true (state q = _)) by done. cbn [andb orb].
      rewrite <-fmap_take, <-fmap_drop, Ht, Hd, existsb_orphan_wake, adopt_wake_list.
      rewrite <-fmap_app, <-app_assoc. csimpl.
      case_match; [|done]. rewrite <-list_fmap_compose. apply list_fmap_ext.
      intros. simpl. apply wake_idemp.
    + rewrite (bool_decide_false (state q = _)) by done. cbn [andb orb].
      by rewrite Ht, Hd, <-app_assoc.
  - rewrite (bool_decide_false (parent q = _)) by done. cbn [andb orb].
    by rewrite (take_S_r _ _ _ Hq), <-app_assoc.
Qed.

Lemma wp_exit_reparent t i ip m k (Q : unit -> pt E -> Prop) :
  initproc t = ip -> ip <> Some i -> length (procs t) = (k + m)%nat ->
  Q tt (with_procs (reparented i ip k (procs t)) t) ->
  wp (exit_reparent (seq k m) i) t Q.
Proof.
  revert t k. induction m as [|m IH]; intros t k Hip Hne Hl HQ; simpl.
  - kstep. unfold reparented in HQ. rewrite drop_ge, take_ge in HQ by lia. simpl in HQ.
    rewrite app_nil_r in HQ. by destruct t.
  - destruct (lookup_lt_is_Some_2 (procs t) k ltac:(lia)) as [q Hq].
    rewrite <-(reparented_step i ip k q) in HQ by done.
    kstep. eapply wp_getp; [exact Hq|]. case_bool_decide as Hp.
    + rewrite decide_True in HQ by done. kstep. kstep. kstep.
      eapply wp_updp; [exact Hq|]. kstep. apply wp_when; intros Hz; bools.
      * rewrite decide_True in HQ by done. apply wp_modify. apply IH; try done.
        { simpl. by rewrite length_fmap, length_insert, Hl, Nat.add_succ_r. }
        simpl. by rewrite Hip.
      * rewrite decide_False in HQ by done. apply IH; try done.
        { simpl. by rewrite length_insert, Hl, Nat.add_succ_r. }
        simpl. by rewrite Hip.
    + rewrite decide_False in HQ by done. apply IH; try done. lia.
Qed.

(** * sched *)

Lemma wp_sched_out s i p (Q : Z -> pt E -> Prop) :
  holding (mycpu s) (ptlock s) = true -> ncli (mycpu s) = 1 -> iflag (mycpu s) = false ->
  curproc s = Some i -> procs s !! i = Some p -> state p <> RUNNING ->
  Q (intena (mycpu s)) s -> wp sched_out s Q.
Proof.
  intros Hh Hn Hf Hc Hp Hst HQ. unfold sched_out. kstep. kstep.
  rewrite Hh, Hn. simpl. kstep. eapply wp_cur; [exact Hc|].
  kstep. eapply wp_getp; [exact Hp|]. rewrite bool_decide_false by done.
  unfold readeflags. rewrite Hf. simpl. by kstep.
Qed.

(** The lock as its holder sees it after acquire. *)
Definition held s : Prop :=
  holding (mycpu s) (ptlock s) = true /\ ncli (mycpu s) = 1 /\ iflag (mycpu s) = false.

Lemma acq_held s : lock_free s -> ncli (mycpu s) = 0 -> held (acq stk s).
Proof.
  intros _ Hn. unfold held, acq, holding. simpl.
  destruct (mycpu s) as [id n ie fl]. simpl in Hn. subst n. simpl.
  by rewrite bool_decide_true.
Qed.

Lemma held_with_procs ps s : held s -> held (with_procs ps s).
Proof. done. Qed.

(** * exit, continued *)

(** The table exit leaves: [p] the exiting process, [cs] the channels woken by
    closing its files and dropping its directory. *)
Definition zombie_of (st now : Z) (p : proc) : proc :=
  set_ttime now (set_exit_status st (set_state ZOMBIE (set_cwd None
    (set_ofile (replicate NOFILE None) p)))).

Definition exit_table (i : nat) (ip : option nat) (st now : Z) (cs : list channel)
    (p : proc) (ps : list proc) : list proc :=
  <[i := zombie_of st now p]> (reparented i ip 0
    (wake (ChProc <$> parent p) <$> (wake_all cs <$> ps))).

Lemma reparented_lookup i ip k ps j q :
  ps !! j = Some q -> (k <= j)%nat ->
  exists b : bool, reparented i ip k ps !! j =
    Some (if b then wake (ChProc <$> ip) (adopt i ip q) else adopt i ip q).
Proof.
  intros Hj Hk. unfold reparented.
  assert ((take k ps ++ (adopt i ip <$> drop k ps)) !! j = Some (adopt i ip q)) as HL.
  { assert (j < length ps)%nat by by eapply lookup_lt_Some.
    rewrite lookup_app_r; rewrite length_take_le by lia; [|lia].
    rewrite list_lookup_fmap, lookup_drop.
    replace (k + (j - k))%nat with j by lia. by rewrite Hj. }
  case_match; [exists true|exists false; done].
  by rewrite list_lookup_fmap, HL.
Qed.

Lemma length_reparented i ip k ps : length (reparented i ip k ps) = length ps.
Proof.
  unfold reparented. case_match; rewrite ?length_fmap, length_app, length_fmap, <-length_app;
    by rewrite take_drop.
Qed.

(** A process whose parent is not [i] and who is awake passes the loop
    unchanged; so does its replacement by another such process. *)
Lemma reparented_insert_other i ip ps j x :
  parent x <> Some i -> state x <> SLEEPING -> (exists y, ps !! j = Some y /\ parent y <> Some i) ->
  reparented i ip 0 (<[j := x]> ps) = <[j := x]> (reparented i ip 0 ps).
Proof.
  intros Hx Hxs (y & Hy & Hyp). unfold reparented. rewrite !drop_0. simpl.
  assert (existsb (orphan_zombie i) (<[j := x]> ps) = existsb (orphan_zombie i) ps) as ->.
  { revert j Hy. induction ps as [|z ps IH]; intros [|j] Hy; simpl in *; [done..| |].
    - injection Hy as ->. unfold orphan_zombie at 1 3.
      by rewrite !(bool_decide_false (parent _ = _)).
    - by rewrite IH. }
  assert (adopt i ip x = x) as Hax by (unfold adopt; by rewrite decide_False).
  rewrite list_fmap_insert, Hax. case_match; [|done].
  rewrite list_fmap_insert. by rewrite wake_awake.
Qed.

Lemma wp_exit_bury st t i p W (Q : unit -> pt E -> Prop) :
  lock_free t -> ncli (mycpu t) = 0 -> curproc t = Some i ->
  initproc t <> Some i -> length W = NPROC -> (i < NPROC)%nat ->
  procs t = <[i := set_ofile (replicate NOFILE None) p]> W ->
  W !! i = Some p -> state p = RUNNING -> parent p <> Some i ->
  (forall u, held u ->
     core u = core (with_procs (<[i := zombie_of st (s32 (ticks t)) p]>
       (reparented i (initproc t) 0 (wake (ChProc <$> parent p) <$> W))) t) -> Q tt u) ->
  wp (exit_bury stk st i) t Q.
Proof.
  intros Hf Hn Hc Hip Hl Hi Ht HWi Hst Hpar HQ.
  set (p1 := set_ofile (replicate NOFILE None) p) in *. set (p2 := set_cwd None p1).
  set (V := wake (ChProc <$> parent p) <$> W) in *.
  assert (wake (ChProc <$> parent p2) <$> <[i := p2]> W = <[i := p2]> V) as HV.
  { rewrite list_fmap_insert. by rewrite wake_awake by (simpl; congruence). }
  assert (exists y, V !! i = Some y /\ parent y <> Some i) as HVi.
  { unfold V. rewrite list_lookup_fmap, HWi. eexists. split; [done|].
    rewrite wake_awake by congruence. done. }
  unfold exit_bury. kstep. eapply (wp_updp _ i p1).
  { rewrite Ht. by apply list_lookup_insert_eq; rewrite Hl. }
  rewrite Ht, list_insert_insert_eq. fold p2.
  kstep. apply (wp_acquire stk); [done|].
  kstep. eapply (wp_getp _ i p2). { by apply list_lookup_insert_eq; rewrite Hl. }
  kstep. apply wp_modify.
  change (procs (acq _ _)) with (<[i := p2]> W). rewrite HV.
  kstep. eapply (wp_exit_reparent _ i (initproc t)); [done..| |].
  { simpl. rewrite length_insert. unfold V. by rewrite length_fmap. }
  change (procs (with_procs ?x _)) with x.
  rewrite (reparented_insert_other i _ V i p2) by (done || (simpl; congruence)).
  set (R := reparented i (initproc t) 0 V) in *.
  assert (R !! i = None -> False) as HR.
  { intros HR. apply lookup_ge_None in HR. unfold R in HR. rewrite length_reparented in HR.
    unfold V in HR. rewrite length_fmap, Hl in HR. lia. }
  destruct (R !! i) as [y|] eqn:HRi; [clear HR|by destruct HR].
  repeat kstep.
  destruct (acq_held t Hf Hn) as (Hh & Hnc & Hfl).
  eapply (wp_sched_out _ i).
  - exact Hh.
  - exact Hnc.
  - exact Hfl.
  - exact Hc.
  - plk.
  - done.
  - kstep. apply HQ; [done|]. simpl. by rewrite ?list_insert_insert_eq.
Qed.

Lemma wp_exit st s i p dir cs e (Q : unit -> pt E -> Prop) :
  lock_free s -> ncli (mycpu s) = 0 ->
  curproc s = Some i -> initproc s <> Some i ->
  length (procs s) = NPROC -> procs s !! i = Some p -> state p = RUNNING ->
  length (ofile p) = NOFILE -> cwd p = Some dir -> parent p <> Some i ->
  exit_env (ofile p) dir (env s) = Ok (cs, e) ->
  (forall t, held t ->
     core t = core (with_env e (with_procs
       (exit_table i (initproc s) st (s32 (ticks s)) cs p (procs s)) s)) ->
     Q tt t) ->
  wp (exit stk st) s Q.
Proof.
  intros Hs Hn Hc Hne Hl Hp Hst Hof Hcwd Hpar Henv HQ.
  unfold exit_env in Henv.
  apply bind_Ok_inv in Henv as (cs1 & e1 & Hcl & Henv).
  apply bind_Ok_inv in Henv as ([] & e2 & Hbo & Henv).
  apply bind_Ok_inv in Henv as (cs2 & e3 & Hiput & Henv).
  apply bind_Ok_inv in Henv as (cs3 & e4 & Heo & Henv). injection Henv as <- <-.
  unfold exit. kstep. eapply wp_cur; [exact Hc|]. kstep. kstep.
  rewrite bool_decide_false by congruence.
  kstep. eapply (wp_exit_files s i p NOFILE 0 cs1 e1); [done|done|congruence|done|done|].
  intros t1 Ht1. simpl in Ht1.
  destruct (quiet_fields _ _ Ht1) as (Htp1 & _ & _ & _ & _ & _ & Hte1). simpl in Htp1, Hte1.
  set (p1 := set_ofile (replicate NOFILE None) p) in *.
  assert (state p1 <> SLEEPING) as Hst1 by (simpl; congruence).
  assert (i < length (procs s))%nat as Hi by by eapply lookup_lt_Some.
  kstep. eapply wp_liftE; [rewrite Hte1; exact Hbo|].
  kstep. eapply (wp_getp _ i p1).
  { simpl. rewrite Htp1. apply list_lookup_insert_eq. by rewrite length_fmap. }
  replace (cwd p1) with (Some dir) by done.
  kstep. eapply wp_call_; [apply Ht1|exact Hiput|]. intros t2 Ht2. simpl in Ht2.
  destruct (quiet_fields _ _ Ht2) as (Htp2 & _ & _ & _ & _ & _ & Hte2). simpl in Htp2, Hte2.
  kstep. eapply wp_call_; [apply Ht2|rewrite Hte2; exact Heo|]. intros t3 Ht3.
  assert (wake_all cs3 <$> procs t2 = <[i := p1]> (wake_all (cs1 ++ cs2 ++ cs3) <$> procs s)) as Heq.
  { rewrite Htp2, Htp1, !list_fmap_insert, <-!list_fmap_compose.
    rewrite (wake_all_awake cs2), (wake_all_awake cs3) by done. f_equal.
    apply list_fmap_ext. intros. simpl. by rewrite !wake_all_app. }
  rewrite Heq in Ht3.
  pose proof (quiet_trans _ _ _ (quiet_trans _ _ _ (quiet_over _ e4 _ _ Ht1)
    (quiet_over _ e4 _ _ Ht2)) Ht3) as Hq. clear Ht1 Ht2 Ht3 Htp1 Htp2.
  destruct (quiet_fields _ _ Hq) as (Htp & Hti & _ & _ & Htt & Htc & _).
  simpl in Htp, Hti, Htt, Htc.
  eapply (wp_exit_bury st t3 i p (wake_all (cs1 ++ cs2 ++ cs3) <$> procs s)); try done.
  - apply Hq.
  - by rewrite (quiet_ncli _ _ Hq).
  - congruence.
  - congruence.
  - by rewrite length_fmap.
  - congruence.
  - rewrite list_lookup_fmap, Hp. simpl. by rewrite wake_all_awake by congruence.
  - intros u Hu Hcu. apply HQ; [done|]. rewrite Hcu, Hti, Htt. unfold exit_table.
    pose proof (quiet_core _ _ Hq) as Hcore.
    exact (f_equal (with_procs _) Hcore).
Qed.

(** * sleep *)

(** A process going to sleep on [c]; under the dynamic policy it gains ten
    tickets, unless it has a hundred. *)
Definition slept (np : Z) (c : channel) (p : proc) : proc :=
  let q := set_state SLEEPING (set_chan (Some c) p) in
  if (np =? 2) && (ntickets p <? 100) then set_ntickets (ntickets p + 10) q else q.

Lemma slept_state np c p : state (slept np c p) = SLEEPING.
Proof. unfold slept. by case_match. Qed.

Lemma wp_sleep_mark t i p c (Q : Z -> pt E -> Prop) :
  held t -> curproc t = Some i -> procs t !! i = Some p ->
  Q (intena (mycpu t)) (with_procs (<[i := slept (npolicy t) c p]> (procs t)) t) ->
  wp (sleep_mark i c) t Q.
Proof.
  intros (Hh & Hn & Hf) Hc Hp HQ.
  assert (i < length (procs t))%nat by by eapply lookup_lt_Some.
  unfold sleep_mark. repeat kstep. unfold slept in HQ.
  apply wp_when; simpl; intros Hb; rewrite Hb in HQ.
  - kstep. eapply (wp_sched_out _ i); [done..|plk|done|].
    simpl. by rewrite ?list_insert_insert_eq.
  - eapply (wp_sched_out _ i); [done..|plk|done|].
    simpl. by rewrite ?list_insert_insert_eq.
Qed.

(** * wait *)

Definition dead_child (i : nat) (q : proc) : Prop := parent q = Some i /\ state q = ZOMBIE.

Global Instance dead_child_dec i q : Decision (dead_child i q).
Proof. unfold dead_child. apply _. Defined.

(** The first exited child of process [i], and whether it has children. *)
Definition find_zombie (i : nat) (ps : list proc) : option (nat * proc) :=
  list_find (dead_child i) ps.

Definition has_child (i : nat) (ps : list proc) : bool :=
  existsb (fun q => bool_decide (parent q = Some i)) ps.

Definition reap_env (q : proc) : M E unit := kfree (kstack q);; freevm (pgdir q).

Definition buried (q : proc) : proc :=
  set_state UNUSED (set_killed 0 (set_name (<[0%nat := 0]> (name q))
    (set_parent None (set_pid 0 (set_kstack 0 q))))).

(** The scan from entry [k] on, [hk] the value of havekids so far. *)
Lemma wp_wait_scan i m k hk t (Q : wait_scan -> pt E -> Prop) :
  length (procs t) = (k + m)%nat ->
  match find_zombie i (drop k (procs t)) with
  | Some (j, q) => exists e, reap_env q (env t) = Ok (tt, e) /\
      Q (Reaped (pid q) (exit_status q) (perf_of q))
        (with_env e (with_procs (<[(k + j)%nat := buried q]> (procs t)) t))
  | None => Q (NoZombie (hk || has_child i (drop k (procs t)))) t
  end ->
  wp (wait_scan_loop (seq k m) i hk) t Q.
Proof.
  revert k hk. induction m as [|m IH]; intros k hk Hl HQ; simpl.
  - rewrite drop_ge in HQ by lia. simpl in HQ. rewrite orb_false_r in HQ. by kstep.
  - destruct (lookup_lt_is_Some_2 (procs t) k ltac:(lia)) as [q Hq].
    rewrite (drop_S _ _ _ Hq) in HQ. unfold find_zombie in HQ, IH. simpl in HQ.
    kstep. eapply wp_getp; [exact Hq|].
    case_bool_decide as Hpar; simpl.
    + case_bool_decide as Hz.
      * rewrite decide_True in HQ by done. rewrite Nat.add_0_r in HQ.
        destruct HQ as (e & He & HQ).
        apply bind_Ok_inv in He as ([] & e1 & He1 & He2).
        kstep. eapply wp_liftE; [exact He1|]. kstep. kstep.
        kstep. eapply wp_liftE; [exact He2|]. repeat kstep.
        simpl. by rewrite ?list_insert_insert_eq.
      * rewrite decide_False in HQ by (intros [_ ?]; done).
        apply IH; [lia|]. simpl. rewrite orb_true_r in HQ.
        destruct (list_find _ (drop (S k) _)) as [[j r]|]; simpl in *; [|done].
        by replace (S (k + j)) with (k + S j)%nat by lia.
    + rewrite decide_False in HQ by (intros [? _]; done).
      apply IH; [lia|]. simpl in *.
      destruct (list_find _ (drop (S k) _)) as [[j r]|]; simpl in *; [|done].
      by replace (S (k + j)) with (k + S j)%nat by lia.
Qed.

(** A pass of wait entered from [s] by taking the lock. *)
Lemma wp_wait s i p status want (Q : wait_result -> pt E -> Prop) :
  lock_free s -> ncli (mycpu s) = 0 -> length (procs s) = NPROC ->
  curproc s = Some i -> procs s !! i = Some p ->
  match find_zombie i (procs s) with
  | Some (j, q) => exists e, reap_env q (env s) = Ok (tt, e) /\
      forall t, quiet (with_env e (with_procs (<[j := buried q]> (procs s)) s)) t ->
        Q (WaitDone (pid q) (if negb (status =? 0) then Some (exit_status q) else None)
             (if (want : bool) then Some (perf_of q) else None)) t
  | None =>
      if negb (has_child i (procs s)) || negb (killed p =? 0) then
        forall t, quiet s t -> Q (WaitDone (-1) None None) t
      else forall t, held t ->
        core t = core (with_procs (<[i := slept (npolicy s) (ChProc i) p]> (procs s)) s) ->
        Q (WaitSleeping (intena (mycpu t))) t
  end ->
  wp (acquire_pt stk;; wait_pass stk status want) s Q.
Proof.
  intros Hs Hn Hl Hc Hp HQ.
  kstep. apply (wp_acquire stk); [done|]. unfold wait_pass.
  kstep. eapply (wp_cur _ i); [done|]. kstep.
  apply (wp_wait_scan i NPROC 0); [done|]. rewrite drop_0.
  change (procs (acq stk s)) with (procs s). change (env (acq stk s)) with (env s).
  destruct (find_zombie i (procs s)) as [[j q]|].
  - destruct HQ as (e & He & HQ). exists e. split; [done|].
    kstep. eapply (wp_release stk s); [done..|]. kstep. apply HQ.
    exact (quiet_settle stk (with_env e (with_procs _ s)) Hs).
  - simpl orb. kstep. eapply (wp_getp _ i p); [done|].
    destruct (negb _ || negb _) eqn:Hb.
    + kstep. eapply (wp_release stk s); [done..|]. kstep. apply HQ.
      exact (quiet_settle stk s Hs).
    + kstep. unfold sleep_out. kstep. kstep.
      change (curproc (acq stk s)) with (curproc s). rewrite Hc. kstep.
      apply (wp_sleep_mark _ i p); [by apply acq_held|done..|].
      kstep. kstep.
      set (t := with_procs _ _). apply (HQ t); [|done].
      by apply held_with_procs, acq_held.
Qed.

(** * fork *)

Fixpoint dups (fs : list (option nat)) : M E unit :=
  match fs with
  | [] => mret tt
  | Some f :: fs => filedup f;; dups fs
  | None :: fs => dups fs
  end.

(** What fork asks of the rest of the kernel, and how far it gets. *)
Inductive fork_outcome := ForkNoStack | ForkNoMem (kst : Z) | ForkOk (kst dir : Z).

Definition fork_env (p : proc) (wd : nat) : M E fork_outcome :=
  k ← kalloc;
  match k with
  | None => mret ForkNoStack
  | Some k =>
      d ← copyuvm (pgdir p) (sz p);
      match d with
      | None => kfree k;; mret (ForkNoMem k)
      | Some d => dups (ofile p);; idup wd;; mret (ForkOk k d)
      end
  end.

(** A descriptor of the child: the parent's if it is open, else what the slot
    held. *)
Definition inherit (fs gs : list (option nat)) : list (option nat) :=
  zip_with (fun o old => match o with Some f => Some f | None => old end) fs gs.

Lemma inherit_fresh fs gs :
  length fs = length gs -> Forall (fun o => o = None) gs -> inherit fs gs = fs.
Proof.
  unfold inherit. revert gs.
  induction fs as [|o fs IH]; intros [|g gs] Hl Hg; simpl in *; try done.
  apply Forall_cons in Hg as [-> Hg]. rewrite IH by (done || lia). by destruct o.
Qed.

(** The child: [i] the parent's slot, [p] the parent, [q] what the slot held. *)
Definition child_of (i : nat) (p : proc) (n k d now : Z) (q : proc) : proc :=
  set_state RUNNABLE (copy_name (name p) (set_cwd (cwd p)
    (set_ofile (inherit (ofile p) (ofile q))
    (set_tf (set_tf_eax 0 (tf p)) (set_tf (tf p) (set_parent (Some i) (set_sz (sz p)
    (set_pgdir d (fresh_proc n k now q))))))))).

Lemma wp_fork_files t i np p r m k e (Q : unit -> pt E -> Prop) :
  i <> np -> procs t !! i = Some p -> procs t !! np = Some r ->
  length (ofile p) = (k + m)%nat -> length (ofile r) = (k + m)%nat ->
  dups (drop k (ofile p)) (env t) = Ok (tt, e) ->
  Q tt (with_env e (with_procs (<[np := set_ofile
      (take k (ofile r) ++ inherit (drop k (ofile p)) (drop k (ofile r))) r]> (procs t)) t)) ->
  wp (fork_files (seq k m) i np) t Q.
Proof.
  intros Hne. revert t r k.
  induction m as [|m IH]; intros t r k Hp Hr Hlp Hlr Hd HQ; simpl.
  - rewrite drop_ge in Hd by lia. injection Hd as <-. kstep.
    rewrite !drop_ge, take_ge in HQ by lia. simpl in HQ. rewrite app_nil_r in HQ.
    rewrite list_insert_id in HQ by (rewrite Hr; by destruct r). by destruct t.
  - destruct (lookup_lt_is_Some_2 (ofile p) k ltac:(lia)) as [o Ho].
    destruct (lookup_lt_is_Some_2 (ofile r) k ltac:(lia)) as [g Hg].
    rewrite (drop_S _ _ _ Ho) in Hd, HQ. rewrite (drop_S _ _ _ Hg) in HQ.
    unfold inherit in HQ, IH. simpl in HQ.
    kstep. eapply wp_getp; [exact Hp|]. rewrite Ho. destruct o as [f|]; simpl in Hd.
    + apply bind_Ok_inv in Hd as ([] & e1 & Hf & Hd).
      kstep. eapply wp_liftE; [exact Hf|]. kstep. eapply (wp_updp _ np r); [exact Hr|].
      eapply (IH _ (set_ofile (<[k := Some f]> (ofile r)) r)); try done.
      * simpl. by rewrite list_lookup_insert_ne.
      * simpl. by eapply lookup_ins_eq.
      * lia.
      * simpl. rewrite length_insert. lia.
      * simpl. rewrite (take_S_r _ _ (Some f)) by (apply list_lookup_insert_eq; lia).
        rewrite take_insert_ge, drop_insert_lt, <-app_assoc by lia.
        by rewrite list_insert_insert_eq.
    + eapply (IH _ r); try done; [lia..|].
      by rewrite (take_S_r _ _ _ Hg), <-app_assoc.
Qed.

(** The slot fork used, afterwards. *)
Definition fork_slot (i : nat) (p : proc) (n now : Z) (q : proc) (o : fork_outcome) : proc :=
  match o with
  | ForkNoStack => failed_proc n q
  | ForkNoMem k => set_state UNUSED (set_kstack 0 (set_pgdir 0 (fresh_proc n k now q)))
  | ForkOk k d => child_of i p n k d now q
  end.

Definition fork_result (n : Z) (o : fork_outcome) : Z :=
  match o with ForkOk _ _ => n | _ => -1 end.

Lemma wp_fork s i p wd np q o e (Q : Z -> pt E -> Prop) :
  lock_free s -> curproc s = Some i -> procs s !! i = Some p -> state p <> UNUSED ->
  length (ofile p) = NOFILE -> length (ofile q) = NOFILE -> cwd p = Some wd ->
  first_unused (procs s) = Some (np, q) ->
  fork_env p wd (env s) = Ok (o, e) ->
  (forall t, quiet (with_nextpid (s32 (nextpid s + 1)) (with_env e (with_procs
      (<[np := fork_slot i p (nextpid s) (s32 (ticks s)) q o]> (procs s)) s))) t ->
     Q (fork_result (nextpid s) o) t) ->
  wp (fork forkret_addr trapret_addr stk) s Q.
Proof.
  intros Hs Hc Hp Hst Hlp Hlq Hwd Hfu Hfe HQ.
  pose proof (first_unused_lookup _ _ _ Hfu) as [Hnp Hun].
  assert (i <> np) as Hne by congruence.
  unfold fork_env in Hfe. apply bind_Ok_inv in Hfe as (k & e1 & Hk & Hfe).
  unfold fork. kstep. eapply (wp_allocproc s np q k e1); [done..|]. intros t Ht.
  destruct k as [k|]; cbv beta iota in Ht |- *.
  2:{ injection Hfe as <- <-. kstep. by apply HQ. }
  destruct (quiet_fields _ _ Ht) as (Htp & _ & _ & _ & _ & Htc & Hte).
  simpl in Htp, Htc, Hte.
  set (r := fresh_proc _ _ _ _) in *.
  assert (procs t !! np = Some r) as Hr by (rewrite Htp; by eapply lookup_ins_eq).
  assert (procs t !! i = Some p) as Hip by (rewrite Htp; by rewrite list_lookup_insert_ne).
  apply bind_Ok_inv in Hfe as (d & e2 & Hd & Hfe).
  kstep. eapply (wp_cur _ i); [congruence|]. kstep. eapply (wp_getp _ i p); [done|].
  kstep. eapply wp_liftE; [rewrite Hte; exact Hd|]. kstep. kstep.
  destruct d as [d|].
  - apply bind_Ok_inv in Hfe as ([] & e3 & Hdup & Hfe).
    apply bind_Ok_inv in Hfe as ([] & e4 & Hidup & Hfe). injection Hfe as <- <-.
    do 8 kstep. set (r1 := set_tf _ _).
    kstep. eapply (wp_fork_files _ i np p r1); [done|plk|plk|exact Hlp|exact Hlq|exact Hdup|].
    rewrite !drop_0. simpl take. rewrite app_nil_l, Hwd.
    change (procs (with_procs ?x _)) with x. change (procs (with_env _ t)) with (procs t).
    rewrite list_insert_insert_eq.
    kstep. eapply wp_liftE; [exact Hidup|].
    do 6 kstep.
    kstep. apply (wp_acquire stk); [apply Ht|].
    kstep. eapply wp_updp; [plk|].
    kstep. eapply (wp_release stk); [|reflexivity..|]; [apply Ht|].
    kstep. apply HQ. unfold fork_slot, child_of.
    simpl. rewrite !list_insert_insert_eq, Htp, list_insert_insert_eq, Hwd.
    eapply quiet_trans; [exact (quiet_over _ e4 _ _ Ht)|].
    exact (quiet_settle stk (with_env e4 (with_procs _ t)) (quiet_free _ _ Ht)).
  - apply bind_Ok_inv in Hfe as ([] & e3 & Hkf & Hfe). injection Hfe as <- <-.
    kstep. kstep. kstep. eapply wp_liftE; [exact Hkf|].
    repeat kstep. apply HQ. simpl. rewrite !list_insert_insert_eq, Htp, list_insert_insert_eq.
    eapply quiet_trans; [exact (quiet_over _ e3 _ _ Ht)|].
    exact (quiet_refl (with_env e3 (with_procs _ t)) (quiet_free _ _ Ht)).
Qed.

(** * The scheduler *)

(** The table a turn of the scheduler draws from: with no ticket in the game
    after the last turn, the uniform policy is applied first. *)
Definition lottery_table (nt : Z) (ps : list proc) : list proc :=
  if nt =? 0 then set_ntickets 10 <$> ps else ps.

(** The tickets of the turn, the drawn one, and the new seed. *)
Definition lottery_total (nt : Z) (ps : list proc) : Z := getTickets (lottery_table nt ps).

Definition lottery_draw (nt : Z) s : Z * Z := PRNG (seed s) (lottery_total nt (procs s)).

Lemma wp_switchuvm t i p (Q : unit -> pt E -> Prop) :
  cli_ok (mycpu t) -> 0 < ncli (mycpu t) -> procs t !! i = Some p ->
  kstack p <> 0 -> pgdir p <> 0 ->
  Q tt (with_cr3 (u32 (pgdir p - KERNBASE)) (with_esp0 (kstack p + KSTACKSIZE) t)) ->
  wp (switchuvm i) t Q.
Proof.
  intros Hcli Hn Hp Hk Hd HQ. unfold switchuvm.
  kstep. eapply wp_getp; [exact Hp|].
  destruct (Z.eqb_spec (kstack p) 0); [done|]. destruct (Z.eqb_spec (pgdir p) 0); [done|].
  do 6 kstep. eapply wp_run.
  - unfold act. simpl. rewrite popcli_pushcli by done. simpl. reflexivity.
  - unfold popped. destruct (Z.eqb_spec (ncli (mycpu t)) 0); [lia|]. by destruct t.
Qed.

(** The state in which the scheduler draws, from [s] with the lock free. *)
Definition sched_entry s : pt E :=
  acq stk (with_mycpu (sti (mycpu s)) s).

(** Up to the draw. *)
Lemma wp_scheduler_draw nt s (Q : Z * option nat -> pt E -> Prop) :
  locked (ptlock s) = 0 -> ncli (mycpu s) = 0 ->
  (let ps := lottery_table nt (procs s) in
   let u := with_seed (snd (lottery_draw nt s)) (with_procs ps (sched_entry s)) in
   match pick ps (fst (lottery_draw nt s)) with
   | Some i => wp (modify (with_curproc (Some i));; switchuvm i;; updp i (set_state RUNNING);;
                   mret (lottery_total nt (procs s), Some i)) u Q
   | None => wp (release_pt;; mret (lottery_total nt (procs s), None)) u Q
   end) ->
  wp (scheduler_out stk nt) s Q.
Proof.
  intros Hl Hn HQ. unfold scheduler_out. do 2 kstep.
  assert (lock_free (with_mycpu (sti (mycpu s)) s)) as Hf.
  { split; [done|]. split; simpl; lia. }
  kstep. apply (wp_acquire stk); [exact Hf|]. fold (sched_entry s). kstep.
  assert (forall R : Z -> pt E -> Prop,
    R (lottery_total nt (procs s)) (with_procs (lottery_table nt (procs s)) (sched_entry s)) ->
    wp (if nt =? 0 then
          act (fun s => obind (call_policy 0 (procs s)) (fun '(t, ps) => Ok (t, with_procs ps s)))
        else gets (fun s => getTickets (procs s))) (sched_entry s) R) as Hpol.
  { intros R HR. unfold lottery_total, lottery_table in HR. destruct (Z.eqb_spec nt 0).
    - eapply wp_run; [|exact HR]. unfold act, call_policy. simpl.
      change (procs (sched_entry s)) with (procs s).
      rewrite <-uniform_time_dist_table. unfold uniform_time_dist, getTickets.
      rewrite <-uniform_total. by destruct (uniform_time_dist_loop _ _).
    - apply wp_gets. by destruct s. }
  apply Hpol. kstep. unfold prng, lottery_draw in *. simpl in HQ.
  change (seed (with_procs _ _)) with (seed s).
  eapply wp_run.
  { change (seed (with_procs _ (sched_entry s))) with (seed s).
    rewrite (surjective_pairing (PRNG _ _)). reflexivity. }
  do 2 kstep. change (procs (with_seed _ (with_procs ?x _))) with x.
  by destruct (pick _ _).
Qed.

(** The lottery has a winner whenever somebody can run. *)
Lemma lottery_winner nt s :
  tickets_ok (lottery_table nt (procs s)) -> length (procs s) = NPROC -> 0 <= seed s < 2 ^ 32 ->
  Exists (fun p => state p = RUNNABLE) (procs s) ->
  exists i p, pick (lottery_table nt (procs s)) (fst (lottery_draw nt s)) = Some i /\
    lottery_table nt (procs s) !! i = Some p /\ state p = RUNNABLE.
Proof.
  intros Hok' Hl Hsd Hex. set (ps := lottery_table nt (procs s)) in *.
  assert (length ps = NPROC /\ Exists (fun p => state p = RUNNABLE) ps) as (Hl' & Hex').
  { unfold ps, lottery_table. case_match; [|done]. split.
    - by rewrite length_fmap.
    - apply Exists_exists in Hex as (p & Hp & Hst). apply Exists_exists.
      exists (set_ntickets 10 p). split; [|done]. by apply list_elem_of_fmap_2. }
  assert (0 < tsum ps <= 109 * 64) as Hts.
  { split; [by apply tsum_pos|]. pose proof (tsum_bounds _ Hok'). rewrite Hl' in *.
    unfold NPROC in *. lia. }
  destruct (PRNG_bounds (seed s) (lottery_total nt (procs s)) Hsd) as [_ Hr].
  assert (lottery_total nt (procs s) = tsum ps) as HT.
  { apply getTickets_tsum; [done|]. by rewrite Hl'. }
  rewrite HT in Hr. specialize (Hr ltac:(lia)).
  assert (Forall (fun p => 0 <= ntickets p <= INT_MAX) ps) as Hf.
  { eapply Forall_impl; [exact Hok'|]. unfold INT_MAX. simpl. lia. }
  assert (fst (lottery_draw nt s) = fst (PRNG (seed s) (tsum ps))) as Hd
    by (unfold lottery_draw; by rewrite HT).
  rewrite Hd. unfold INT_MAX in *.
  destruct (pick_total ps (fst (PRNG (seed s) (tsum ps)))) as [j Hj]; [done|unfold INT_MAX; lia..|].
  destruct (pick_interval ps (fst (PRNG (seed s) (tsum ps))) j) as [Hp _];
    [done|unfold INT_MAX; lia|].
  destruct (Hp Hj) as (p & ? & ? & _). by exists j, p.
Qed.

(** The turn that dispatches process [i]. *)
Lemma wp_scheduler_dispatch nt s i p (Q : Z * option nat -> pt E -> Prop) :
  locked (ptlock s) = 0 -> ncli (mycpu s) = 0 ->
  pick (lottery_table nt (procs s)) (fst (lottery_draw nt s)) = Some i ->
  lottery_table nt (procs s) !! i = Some p -> kstack p <> 0 -> pgdir p <> 0 ->
  (forall t, held t ->
     core t = core (with_procs (<[i := set_state RUNNING p]> (lottery_table nt (procs s)))
       (with_cr3 (u32 (pgdir p - KERNBASE)) (with_esp0 (kstack p + KSTACKSIZE)
       (with_curproc (Some i) (with_seed (snd (lottery_draw nt s)) s))))) ->
     Q (lottery_total nt (procs s), Some i) t) ->
  wp (scheduler_out stk nt) s Q.
Proof.
  intros Hl Hn Hpick Hp Hk Hd HQ. apply wp_scheduler_draw; [done..|]. cbv zeta.
  rewrite Hpick.
  destruct (acq_held (with_mycpu (sti (mycpu s)) s)) as (Hh & Hnc & Hfl); [|done|].
  { split; [done|]. split; simpl; lia. }
  fold (sched_entry s) in Hh, Hnc, Hfl.
  do 2 kstep. kstep. apply (wp_switchuvm _ i p); try done.
  { change (cli_ok (mycpu (sched_entry s))). split; [lia|done]. }
  { change (0 < ncli (mycpu (sched_entry s))). lia. }
  kstep. eapply wp_updp; [plk|]. kstep. by apply HQ.
Qed.

End spec.
