(* ===== verification/ProcInv.v ===== *)
(** The process table as the kernel runs: an invariant of every operation of
    proc.c, and its consequences along any run on one CPU: live processes have
    distinct pids, parent pointers never dangle, only the current process is
    RUNNING, and an unused slot is nobody's child. *)

From S2P Require Import Prelude Hoare StringC Spinlock Proc Sched ProcOps.

(** * The invariant *)

Definition alive (p : proc) : Prop :=
  state p = SLEEPING \/ state p = RUNNABLE \/ state p = RUNNING.

(** Taking part in the process tree: born and not yet buried. *)
Definition grown (p : proc) : Prop := state p <> UNUSED /\ state p <> EMBRYO.

(** What holds of slot [i] of table [ps]; [ip] is initproc, [n] nextpid. *)
Record slot_ok (ip : option nat) (n : Z) (ps : list proc) (i : nat) (p : proc) : Prop := {
  ok_pid : state p <> UNUSED -> 1 <= pid p < n;
  ok_unused : state p = UNUSED -> parent p = None;
  ok_parent : grown p ->
    match parent p with
    | None => ip = Some i
    | Some k => exists q, ps !! k = Some q /\ alive q
    end }.

(** The arrays inside a slot have their declared sizes. *)
Definition shaped (p : proc) : Prop := length (ofile p) = NOFILE /\ length (name p) = 16%nat.

(** The table invariant, except for slot [x] while it is being set up or torn
    down; that slot is nobody's parent. *)
Record tinv (x : option nat) (ip : option nat) (n : Z) (ps : list proc) : Prop := {
  inv_len : length ps = NPROC;
  inv_next : 1 <= n <= INT_MAX;
  inv_shape : Forall shaped ps;
  inv_slot : forall i p, ps !! i = Some p -> Some i <> x -> slot_ok ip n ps i p;
  inv_pids : forall i j p q, ps !! i = Some p -> ps !! j = Some q ->
    Some i <> x -> Some j <> x -> state p <> UNUSED -> state q <> UNUSED ->
    pid p = pid q -> i = j;
  inv_x : forall i p k, x = Some k -> ps !! i = Some p -> Some i <> x -> grown p ->
    parent p <> Some k;
  inv_init : exists k q, ip = Some k /\ ps !! k = Some q /\ alive q /\ x <> Some k }.

(** Two versions of a process that the table invariant does not distinguish:
    same pid, parent and stage of life. *)
Record same_stage (p q : proc) : Prop := {
  st_pid : pid q = pid p;
  st_parent : parent q = parent p;
  st_unused : state q = UNUSED <-> state p = UNUSED;
  st_grown : grown q <-> grown p;
  st_alive : alive p -> alive q;
  st_shaped : shaped p -> shaped q }.

(** ... and, besides, the process does not start running. *)
Record same_life (p q : proc) : Prop := {
  sl_pid : pid q = pid p;
  sl_parent : parent q = parent p;
  sl_unused : state q = UNUSED <-> state p = UNUSED;
  sl_grown : grown q <-> grown p;
  sl_alive : alive p -> alive q;
  sl_running : state q = RUNNING -> state p = RUNNING;
  sl_shaped : shaped p -> shaped q }.

Lemma same_stage_alive p q :
  alive p -> alive q -> pid q = pid p -> parent q = parent p -> (shaped p -> shaped q) ->
  same_stage p q.
Proof.
  intros Hp Hq. split; try done; unfold grown, alive in *;
    destruct Hp as [E1|[E1|E1]]; destruct Hq as [E2|[E2|E2]]; rewrite E1, E2; split; congruence || done.
Qed.

Lemma same_life_stage p q : same_life p q -> same_stage p q.
Proof. by intros []. Qed.

Lemma same_life_refl p : same_life p p.
Proof. by split. Qed.

(** A pointwise change that keeps everybody's stage of life. *)
Lemma tinv_map x ip n ps qs :
  tinv x ip n ps -> length qs = length ps ->
  (forall i p q, ps !! i = Some p -> qs !! i = Some q -> same_stage p q) ->
  tinv x ip n qs.
Proof.
  intros [Hl Hn Hsh Hs Hp Hx Hi] Hlen Hsl.
  assert (forall i q, qs !! i = Some q -> exists p, ps !! i = Some p /\ same_stage p q) as Hback.
  { intros i q Hq. destruct (lookup_lt_is_Some_2 ps i) as [p Hpi].
    { rewrite <-Hlen. by eapply lookup_lt_Some. }
    exists p. eauto. }
  assert (forall k p, ps !! k = Some p -> alive p -> exists q, qs !! k = Some q /\ alive q) as Hfw.
  { intros k p Hk Ha. destruct (lookup_lt_is_Some_2 qs k) as [q Hq].
    { rewrite Hlen. by eapply lookup_lt_Some. }
    exists q. split; [done|]. by eapply st_alive; eauto. }
  split; try done.
  - congruence.
  - apply Forall_lookup. intros i q Hq. destruct (Hback i q Hq) as (p & Hpi & []).
    rewrite Forall_lookup in Hsh. eauto.
  - intros i q Hq Hne. destruct (Hback i q Hq) as (p & Hpi & [E1 E2 E3 E4 _ _]).
    destruct (Hs i p Hpi Hne) as [A B C]. rewrite <-E1 in A. split.
    + intros. apply A. tauto.
    + intros. rewrite E2. apply B. tauto.
    + intros Hg. rewrite E2. apply E4, C in Hg. destruct (parent p); [|done].
      destruct Hg as (r & Hr & Ha). eauto.
  - intros i j q r Hq Hr Hix Hjx Hsq Hsr Hpid.
    destruct (Hback i q Hq) as (p & Hpi & [E1 _ E3 _ _ _]).
    destruct (Hback j r Hr) as (p' & Hpj & [F1 _ F3 _ _ _]).
    eapply (Hp i j p p'); eauto; try tauto. congruence.
  - intros i q k -> Hq Hne Hg. destruct (Hback i q Hq) as (p & Hpi & [_ E2 _ E4 _ _]).
    rewrite E2. eapply (Hx i p k); eauto. tauto.
  - destruct Hi as (k & q & -> & Hk & Ha & Hne). destruct (Hfw k q Hk Ha) as (r & ? & ?).
    by exists k, r.
Qed.

(** A free slot is taken out of the invariant. *)
Lemma tinv_open ip n ps i p :
  tinv None ip n ps -> ps !! i = Some p -> ~ alive p -> tinv (Some i) ip n ps.
Proof.
  intros [Hl Hn Hsh Hs Hp _ Hi] Hpi Hna.
  split; try done.
  - intros j q Hq _. by apply Hs.
  - intros j k q r Hq Hr _ _. by apply Hp.
  - intros j q k [= <-] Hq Hne Hg Hpar.
    destruct (Hs j q Hq ltac:(done)) as [_ _ C]. rewrite Hpar in C.
    destruct (C Hg) as (r & Hr & Ha). congruence.
  - destruct Hi as (k & q & -> & Hk & Ha & _). exists k, q.
    repeat split; try done. intros [= ->]. congruence.
Qed.

(** While it is out, anything may be written into it. *)
Lemma tinv_out ip n ps i q :
  tinv (Some i) ip n ps -> shaped q -> tinv (Some i) ip n (<[i := q]> ps).
Proof.
  intros [Hl Hn Hsh Hs Hp Hx Hi] Hq.
  assert (forall j r, <[i := q]> ps !! j = Some r -> Some j <> Some i -> ps !! j = Some r) as Hne.
  { intros j r Hr Hj. by rewrite list_lookup_insert_ne in Hr by congruence. }
  split; try done.
  - by rewrite length_insert.
  - by apply Forall_insert.
  - intros j r Hr Hj. pose proof (Hne j r Hr Hj) as Hr'.
    destruct (Hs j r Hr' Hj) as [A B C]. split; [done..|]. intros Hg.
    specialize (C Hg). destruct (parent r) as [k|] eqn:Hpar; [|done].
    destruct C as (u & Hu & Ha). exists u. split; [|done].
    rewrite list_lookup_insert_ne; [done|]. intros ->.
    by apply (Hx j r k eq_refl Hr' Hj Hg).
  - intros j k r u Hr Hu Hj Hk. apply (Hp j k); auto.
  - intros j r k [= <-] Hr Hj. apply (Hx j r i eq_refl (Hne j r Hr Hj) Hj).
  - destruct Hi as (k & u & -> & Hk & Ha & Hki). exists k, u. split; [done|].
    rewrite list_lookup_insert_ne by congruence. done.
Qed.

(** The slot comes back: free, or with a pid of its own. *)
Lemma tinv_close ip n ps i p :
  tinv (Some i) ip n ps -> ps !! i = Some p -> slot_ok ip n ps i p ->
  (state p <> UNUSED -> forall j q, ps !! j = Some q -> j <> i -> state q <> UNUSED ->
     pid q <> pid p) ->
  tinv None ip n ps.
Proof.
  intros [Hl Hn Hsh Hs Hp Hx Hi] Hpi Hok Hpid. split; try done.
  - intros j q Hq _. destruct (decide (j = i)) as [->|Hj]; [congruence|].
    apply Hs; [done|congruence].
  - intros j k q r Hq Hr _ _ Hsq Hsr He.
    destruct (decide (j = i)) as [->|Hj], (decide (k = i)) as [->|Hk]; [done|..].
    + assert (q = p) as -> by congruence. by destruct (Hpid Hsq k r Hr Hk Hsr).
    + assert (r = p) as -> by congruence. by destruct (Hpid Hsr j q Hq Hj Hsq).
    + eapply (Hp j k); eauto; congruence.
  - destruct Hi as (k & u & -> & Hk & Ha & Hki). by exists k, u.
Qed.

(** A slot that is not anybody's parent changes, keeping its pid if it stays
    in use. *)
Lemma tinv_replace ip n ps i p q :
  tinv None ip n ps -> ps !! i = Some p -> ~ alive p -> shaped q ->
  slot_ok ip n (<[i := q]> ps) i q ->
  (state q <> UNUSED -> pid q = pid p /\ state p <> UNUSED) ->
  tinv None ip n (<[i := q]> ps).
Proof.
  intros Ht Hp Hna Hsh Hok Hpid. assert (i < length ps)%nat by by eapply lookup_lt_Some.
  eapply tinv_close; [|by apply list_lookup_insert_eq|done|].
  - apply tinv_out; [|done]. by eapply tinv_open.
  - intros Hst j r Hr Hj Hsr. rewrite list_lookup_insert_ne in Hr by done.
    destruct (Hpid Hst) as [-> Hsp]. intros He. apply Hj.
    by eapply (inv_pids _ _ _ _ Ht j i).
Qed.

(** A new pid may be handed out. *)
Lemma tinv_next x ip n ps : tinv x ip n ps -> n < INT_MAX -> tinv x ip (n + 1) ps.
Proof.
  intros [Hl Hn Hsh Hs Hp Hx Hi] Hlt. split; try done; [lia|].
  intros i p Hpi Hne. destruct (Hs i p Hpi Hne) as [A B C]. split; [|done..].
  intros Hst. specialize (A Hst). lia.
Qed.

(** A process is handed to another, living, parent. *)
Lemma tinv_adopt ip n ps i p k q :
  tinv None ip n ps -> ps !! i = Some p -> state p <> UNUSED ->
  ps !! k = Some q -> alive q -> tinv None ip n (<[i := set_parent (Some k) p]> ps).
Proof.
  intros [Hl Hn Hsh Hs Hp Hx Hi] Hpi Hst Hk Ha.
  assert (forall j r, ps !! j = Some r -> alive r ->
    exists u, <[i := set_parent (Some k) p]> ps !! j = Some u /\ alive u) as Hfw.
  { intros j r Hr Har. destruct (decide (i = j)) as [->|Hne].
    - exists (set_parent (Some k) p). split; [|by assert (r = p) as -> by congruence].
      apply list_lookup_insert_eq. by eapply lookup_lt_Some.
    - exists r. by rewrite list_lookup_insert_ne. }
  assert (forall j u, <[i := set_parent (Some k) p]> ps !! j = Some u -> exists r,
    ps !! j = Some r /\ state u = state r /\ pid u = pid r /\ (j <> i -> u = r) /\
    (j = i -> parent u = Some k)) as Hback.
  { intros j u Hu. rewrite list_lookup_insert_dec in Hu. case_decide as D.
    - destruct D as [-> _]. injection Hu as <-. by exists p.
    - exists u. repeat split; try done. intros ->. destruct D. split; [done|].
      by eapply lookup_lt_Some. }
  split; try done.
  - by rewrite length_insert.
  - apply Forall_insert; [done|]. rewrite Forall_lookup in Hsh. by specialize (Hsh i p Hpi).
  - intros j u Hu _. destruct (Hback j u Hu) as (r & Hr & E1 & E2 & E3 & E4).
    destruct (Hs j r Hr ltac:(done)) as [A B C]. split.
    + by rewrite E1, E2.
    + intros Hun. destruct (decide (j = i)) as [->|Hj]; [congruence|].
      rewrite (E3 Hj) in *. by apply B.
    + intros Hg. destruct (decide (j = i)) as [->|Hj].
      * rewrite E4 by done. by eapply Hfw.
      * rewrite (E3 Hj) in *. specialize (C Hg). destruct (parent r); [|done].
        destruct C as (v & Hv & Hav). by eapply Hfw.
  - intros j l u v Hu Hv _ _ Hsu Hsv He.
    destruct (Hback j u Hu) as (r & Hr & E1 & E2 & _).
    destruct (Hback l v Hv) as (r' & Hr' & F1 & F2 & _).
    eapply (Hp j l r r'); congruence.
  - destruct Hi as (l & u & -> & Hl' & Hal & _). destruct (Hfw l u Hl' Hal) as (v & ? & ?).
    by exists l, v.
Qed.

(** A process without children dies. *)
Lemma tinv_die ip n ps i p q :
  tinv None ip n ps -> ps !! i = Some p -> alive p -> ip <> Some i ->
  (forall j r, ps !! j = Some r -> parent r <> Some i) ->
  pid q = pid p -> parent q = parent p -> state q = ZOMBIE -> shaped q ->
  tinv None ip n (<[i := q]> ps).
Proof.
  intros Ht Hpi Ha Hip Hnk E1 E2 E3 E4. pose proof Ht as [Hl Hn Hsh Hs Hp Hx Hi].
  assert (grown p) as Hg by (destruct Ha as [Ha|[Ha|Ha]]; split; congruence).
  assert (tinv (Some i) ip n ps) as Hout.
  { split; try done.
    - intros j r Hr _. by apply Hs.
    - intros j k r u Hr Hu _ _. by apply Hp.
    - intros j r k [= <-] Hr _ _. by eapply Hnk.
    - destruct Hi as (k & u & -> & Hk & Hak & _). exists k, u.
      repeat split; try done. }
  assert (i < length ps)%nat by by eapply lookup_lt_Some.
  apply (tinv_close ip n _ i q).
  - by apply tinv_out.
  - by apply list_lookup_insert_eq.
  - destruct (Hs i p Hpi ltac:(done)) as [A B C]. specialize (C Hg). split.
    + intros _. rewrite E1. apply A. by destruct Hg.
    + congruence.
    + intros _. rewrite E2. destruct (parent p) as [k|] eqn:Hpar; [|congruence].
      destruct C as (u & Hu & Hau). exists u. split; [|done].
      rewrite list_lookup_insert_ne; [done|]. intros <-. by eapply (Hnk i p).
  - intros _ j r Hr Hj Hsr. rewrite list_lookup_insert_ne in Hr by done. rewrite E1.
    intros He. apply Hj. destruct Hg. by eapply (Hp j i r p).
Qed.

(** Only the current process is RUNNING (one CPU). *)
Definition rinv (cp : option nat) (ps : list proc) : Prop :=
  forall i p, ps !! i = Some p -> state p = RUNNING -> cp = Some i.

Lemma rinv_map cp ps qs :
  rinv cp ps -> length qs = length ps ->
  (forall i p q, ps !! i = Some p -> qs !! i = Some q -> same_life p q) -> rinv cp qs.
Proof.
  intros Hr Hl Hsl i q Hq Hst. destruct (lookup_lt_is_Some_2 ps i) as [p Hp].
  { rewrite <-Hl. by eapply lookup_lt_Some. }
  apply (Hr i p Hp). by eapply sl_running; eauto.
Qed.

Lemma rinv_insert cp ps i q :
  rinv cp ps -> (state q = RUNNING -> cp = Some i) -> rinv cp (<[i := q]> ps).
Proof.
  intros Hr Hq j p Hp. rewrite list_lookup_insert_dec in Hp. case_decide as D.
  - destruct D as [-> _]. injection Hp as <-. done.
  - by apply Hr.
Qed.

Lemma length_safestrcpy_buf n buf src : length (safestrcpy_buf n buf src) = length buf.
Proof.
  revert buf src. induction n as [|n IH]; intros [|x buf] src; simpl; try done.
  destruct src as [|c src]; simpl; [by destruct buf|].
  case_match; simpl; [by rewrite IH|by destruct buf].
Qed.

Lemma same_life_copy_name src p : same_life p (copy_name src p).
Proof.
  split; try done. intros [? ?]. split; [done|].
  change (length (safestrcpy_buf 15 (name p) src) = 16%nat). by rewrite length_safestrcpy_buf.
Qed.

Section preserve.
Context {E : Type} `{KernelEnv E}.
Context (forkret_addr trapret_addr : Z) (stk : list Z) (kpgdir : Z).

Implicit Types s t : pt E.

Definition pinv (x : option nat) s : Prop :=
  tinv x (initproc s) (nextpid s) (procs s) /\ rinv (curproc s) (procs s).

(** An assertion about the table, initproc, nextpid and the current process
    only: it survives everything the rest of the kernel does. *)
Definition table_only (P : pt E -> Prop) : Prop :=
  forall s t, procs t = procs s -> initproc t = initproc s -> nextpid t = nextpid s ->
    curproc t = curproc s -> P s -> P t.

Lemma pinv_table_only x : table_only (pinv x).
Proof. intros s t E1 E2 E3 E4. unfold pinv. by rewrite E1, E2, E3, E4. Qed.

Lemma keeps_liftE {A} P (m : M E A) : table_only P -> keeps P (liftE m).
Proof.
  intros HP s a s' Hs Hr. unfold liftE in Hr.
  destruct (m (env s)) as [[b e]| | |]; simplify_eq/=. by eapply (HP s).
Qed.

Lemma keeps_acquire P : table_only P -> keeps P (acquire_pt stk).
Proof.
  intros HP s a s' Hs Hr. unfold acquire_pt in Hr.
  destruct (acquire _ _ _) as [[c l]| | |]; simplify_eq/=. by eapply (HP s).
Qed.

Lemma keeps_release P : table_only P -> keeps P release_pt.
Proof.
  intros HP s a s' Hs Hr. unfold release_pt in Hr.
  destruct (release _ _) as [[c l]| | |]; simplify_eq/=. by eapply (HP s).
Qed.

Lemma holds_getp P i : holds P (getp i) (fun p s => P s /\ procs s !! i = Some p).
Proof. apply holds_deref. Qed.

Lemma holds_cur P : holds P cur (fun i s => P s /\ curproc s = Some i).
Proof. apply holds_deref. Qed.

Lemma holds_updp P i f (Q : unit -> pt E -> Prop) :
  (forall s p, P s -> procs s !! i = Some p -> Q tt (with_procs (<[i := f p]> (procs s)) s)) ->
  (forall s, P s -> procs s !! i = None -> Q tt s) ->
  holds P (updp i f) Q.
Proof.
  intros Hs Hn s a s' HP Hr. injection Hr as <- <-.
  destruct (procs s !! i) as [p|] eqn:Hp.
  - replace (alter f i (procs s)) with (<[i := f p]> (procs s)); [by apply Hs|].
    apply list_eq. intros j. rewrite list_lookup_insert_dec.
    destruct (decide (i = j)) as [->|Hne].
    + rewrite decide_True by (split; [done|by eapply lookup_lt_Some]).
      by rewrite list_lookup_alter_eq, Hp.
    + rewrite decide_False by (intros [? _]; done). by rewrite list_lookup_alter_ne.
  - replace (alter f i (procs s)) with (procs s).
    { destruct s. by apply Hn. }
    apply list_eq. intros j. destruct (decide (i = j)) as [->|Hne].
    + by rewrite list_lookup_alter_eq, Hp.
    + by rewrite list_lookup_alter_ne.
Qed.

(** An assertion that a change of one slot within its stage of life keeps. *)
Definition life_only (P : pt E -> Prop) : Prop :=
  forall s qs, length qs = length (procs s) ->
    (forall i p q, procs s !! i = Some p -> qs !! i = Some q -> same_life p q) ->
    P s -> P (with_procs qs s).

Lemma pinv_life_only x : life_only (pinv x).
Proof.
  intros s qs Hl Hsl [Ht Hr]. split; simpl; [|by eapply rinv_map].
  eapply tinv_map; [done..|]. intros. apply same_life_stage. eauto.
Qed.

Lemma keeps_updp P i f :
  life_only P -> (forall p, same_life p (f p)) -> keeps P (updp i f).
Proof.
  intros HP Hf. apply holds_updp; [|done]. intros s p Hs Hp.
  apply HP; [by rewrite length_insert| |done].
  intros j a b Ha Hb. rewrite list_lookup_insert_dec in Hb. case_decide as D.
  - destruct D as [-> _]. injection Hb as <-. replace a with p by congruence. apply Hf.
  - assert (a = b) as -> by congruence. apply same_life_refl.
Qed.

Lemma keeps_map P (f : proc -> proc) :
  life_only P -> (forall p, same_life p (f p)) ->
  keeps P (modify (fun s => with_procs (f <$> procs s) s)).
Proof.
  intros HP Hf. apply holds_modify. intros s Hs. apply HP; [by rewrite length_fmap| |done].
  intros j a b Ha Hb. rewrite list_lookup_fmap, Ha in Hb. injection Hb as <-. apply Hf.
Qed.

Lemma same_life_wake c p : same_life p (wake c p).
Proof.
  unfold wake. case_bool_decide as Hs; [|apply same_life_refl].
  case_bool_decide; [|apply same_life_refl]. simpl.
  split; try done; unfold grown, alive; simpl; rewrite Hs; intuition congruence.
Qed.

Lemma keeps_wakeup P c : table_only P -> life_only P -> keeps P (wakeup stk c).
Proof.
  intros HT HL. eapply holds_bind; [by apply keeps_acquire|]. intros ?.
  eapply holds_bind; [|intros; by apply keeps_release].
  apply keeps_map; [done|]. intros. apply same_life_wake.
Qed.

Lemma keeps_wakes P cs : table_only P -> life_only P -> keeps P (wakes stk cs).
Proof.
  intros HT HL. induction cs as [|c cs IH]; simpl; [by apply holds_ret|].
  eapply holds_bind; [by apply keeps_wakeup|]. done.
Qed.

Lemma keeps_call_ P m : table_only P -> life_only P -> keeps P (call_ stk m).
Proof.
  intros HT HL. eapply holds_bind; [by apply keeps_liftE|]. intros. by apply keeps_wakes.
Qed.

(** Slot [i] is in use by a process that can still run. *)
Definition up (i : nat) s : Prop := exists p, procs s !! i = Some p /\ alive p.

(** An assertion is stable if neither the rest of the kernel nor a change
    within a process's stage of life affects it. *)
Definition stable (P : pt E -> Prop) : Prop := table_only P /\ life_only P.

Lemma stable_pinv x : stable (pinv x).
Proof. split; [apply pinv_table_only|apply pinv_life_only]. Qed.

Lemma stable_up i : stable (up i).
Proof.
  split.
  - intros s t E1 _ _ _ (p & Hp & Ha). exists p. by rewrite E1.
  - intros s qs Hl Hsl (p & Hp & Ha). destruct (lookup_lt_is_Some_2 qs i) as [q Hq].
    { rewrite Hl. by eapply lookup_lt_Some. }
    exists q. split; [done|]. by eapply sl_alive; eauto.
Qed.

Lemma stable_cur i : stable (fun s => curproc s = Some i).
Proof. split; [|by intros s qs _ _]. intros s t _ _ _ -> Hs. done. Qed.

Lemma stable_init ip : stable (fun s => initproc s = ip).
Proof. split; [|by intros s qs _ _]. by intros s t _ -> _ _ Hs. Qed.

Lemma stable_and P Q : stable P -> stable Q -> stable (fun s => P s /\ Q s).
Proof.
  intros [A B] [C D]. split.
  - intros s t E1 E2 E3 E4 [Hp Hq]. split; [by eapply (A s)|by eapply (C s)].
  - intros s qs Hl Hsl [Hp Hq]. split; [by eapply B|by eapply D].
Qed.

Lemma keeps_updp_up P i f :
  stable P -> (forall p, alive p -> same_life p (f p)) ->
  keeps (fun s => P s /\ up i s) (updp i f).
Proof.
  intros HP Hf. pose proof (stable_and _ _ HP (stable_up i)) as [_ HL].
  apply holds_updp; [|done]. intros s p Hs Hp.
  apply HL; [by rewrite length_insert| |done].
  intros j a b Ha Hb. rewrite list_lookup_insert_dec in Hb. case_decide as D.
  - destruct D as [-> _]. injection Hb as <-. destruct Hs as [_ (q & Hq & Hal)].
    assert (q = p) as -> by congruence. replace a with p by congruence. by apply Hf.
  - assert (a = b) as -> by congruence. apply same_life_refl.
Qed.

Lemma same_life_alive p q :
  alive p -> alive q -> pid q = pid p -> parent q = parent p ->
  (state q = RUNNING -> state p = RUNNING) -> (shaped p -> shaped q) -> same_life p q.
Proof.
  intros Hp Hq E1 E2 E3 E4. by destruct (same_stage_alive p q Hp Hq E1 E2 E4).
Qed.

(** Straight-line code that only makes changes within a stage of life. *)
Ltac keep HS := unfold keeps; cbv beta zeta; lazymatch goal with
  | |- holds ?P (_ ≫= _) _ => apply (holds_bind P _ (fun _ => P)); [keep HS|intros ?; keep HS]
  | |- holds _ (mret _) _ => by apply holds_ret
  | |- holds _ (panic _) _ => apply holds_panic
  | |- holds _ (fault _) _ => apply holds_fault
  | |- holds _ get _ => apply keeps_get
  | |- holds _ (gets _) _ => apply keeps_gets
  | |- holds _ get_ticks _ => apply keeps_gets
  | |- holds _ (getp _) _ => apply keeps_deref
  | |- holds _ cur _ => apply keeps_deref
  | |- holds _ (liftE _) _ => apply keeps_liftE, HS
  | |- holds _ (call_ _ _) _ => apply keeps_call_; apply HS
  | |- holds _ (wakes _ _) _ => apply keeps_wakes; apply HS
  | |- holds _ (acquire_pt _) _ => apply keeps_acquire, HS
  | |- holds _ release_pt _ => apply keeps_release, HS
  | |- holds _ (wakeup1 _) _ => apply keeps_map; [apply HS|intros; apply same_life_wake]
  | |- holds _ (updp _ _) _ => try (apply keeps_updp; [apply HS|by intros ?; split])
  | |- holds _ (when false _) _ => by apply holds_ret
  | |- holds _ (when _ _) _ => apply keeps_when; keep HS
  | |- holds _ (modify ?f) _ =>
      let u := fresh "u" in let Hu := fresh "Hu" in
      try (apply holds_modify; intros u Hu;
           exact (proj1 HS u (f u) eq_refl eq_refl eq_refl eq_refl Hu))
  | |- holds _ (match ?x with _ => _ end) _ => destruct x; keep HS
  | |- _ => idtac
  end.

(** The first command of a sequence, when it is of that kind. *)
Ltac keep1 HS := lazymatch goal with
  | |- holds ?P (_ ≫= _) _ => apply (holds_bind P _ (fun _ => P)); [keep HS|intros ?]
  end.

Lemma keeps_sched_out P : stable P -> keeps P sched_out.
Proof. intros HS. unfold sched_out. keep HS. Qed.

Lemma keeps_sched_in P ie : stable P -> keeps P (sched_in ie).
Proof. intros HS. unfold sched_in. keep HS. Qed.

Lemma keeps_switchuvm P i : stable P -> keeps P (switchuvm i).
Proof.
  intros HS. unfold switchuvm. keep HS.
  intros s r s' Hs Hr. unfold act in Hr.
  destruct (popcli _); simplify_eq/=. by eapply (proj1 HS s).
Qed.

Lemma keeps_exit_files P fds i : stable P -> keeps P (exit_files stk fds i).
Proof.
  intros HS. induction fds as [|fd fds IH]; simpl; [keep HS|]. keep HS; try done.
  apply keeps_updp; [apply HS|]. intros p. split; try done.
  intros [? ?]. split; [simpl; by rewrite length_insert|done].
Qed.

Lemma keeps_fork_files P fds i np : stable P -> keeps P (fork_files fds i np).
Proof.
  intros HS. induction fds as [|fd fds IH]; simpl; [keep HS|]. keep HS; try done.
  apply keeps_updp; [apply HS|]. intros p. split; try done.
  intros [? ?]. split; [simpl; by rewrite length_insert|done].
Qed.

(** The current process is up. *)
Definition running s : Prop := exists i, curproc s = Some i /\ up i s.

Lemma stable_running : stable running.
Proof.
  split.
  - intros s t E1 E2 E3 E4 (i & Hc & Hu). exists i. split; [congruence|].
    by apply (proj1 (stable_up i) s).
  - intros s qs Hl Hsl (i & Hc & Hu). exists i. split; [done|].
    by apply (proj2 (stable_up i) s).
Qed.

Lemma holds_cur_up P :
  holds (fun s => P s /\ running s) cur (fun i s => (P s /\ curproc s = Some i) /\ up i s).
Proof.
  intros s i s' [HP (j & Hj & Hu)] Hr. apply deref_inv in Hr as (k & Hk & Hr).
  injection Hr as <- <-. assert (j = i) as -> by congruence. done.
Qed.

Definition P0 s : Prop := pinv None s.

Lemma stable_P0 : stable P0.
Proof. apply stable_pinv. Qed.

(** * yield, sleep and wakeup *)

Lemma keeps_mark P i f :
  stable P -> (forall p, state (f p) = SLEEPING \/ state (f p) = RUNNABLE) ->
  (forall p, pid (f p) = pid p /\ parent (f p) = parent p /\ (shaped p -> shaped (f p))) ->
  keeps (fun s => P s /\ up i s) (updp i f).
Proof.
  intros HS Hst Hf. apply keeps_updp_up; [done|]. intros p Ha. destruct (Hf p) as (? & ? & ?).
  apply same_life_alive; try done.
  - unfold alive. destruct (Hst p); tauto.
  - intros Hr. destruct (Hst p); congruence.
Qed.

Lemma inv_yield_out : holds (fun s => P0 s /\ running s) (yield_out stk) (fun _ => P0).
Proof.
  pose proof (stable_and _ _ stable_P0 stable_running) as HS.
  eapply holds_bind; [apply keeps_acquire, HS|]. intros ?.
  eapply holds_bind; [apply holds_cur_up|]. intros i.
  pose proof (stable_and _ _ stable_P0 (stable_cur i)) as HC.
  pose proof (stable_and _ _ HC (stable_up i)) as HU.
  eapply holds_bind; [apply (keeps_mark _ i _ HC); [by right|done]|]. intros ?.
  apply (keeps_conseq (fun s => (P0 s /\ curproc s = Some i) /\ up i s)); [done|by intros ? s [[? _] _]|].
  keep HU; by apply keeps_sched_out.
Qed.

Lemma inv_sleep_mark i c :
  holds (fun s => P0 s /\ up i s) (sleep_mark i c) (fun _ s => P0 s /\ up i s).
Proof.
  pose proof (stable_and _ _ stable_P0 (stable_up i)) as HU.
  unfold sleep_mark.
  eapply holds_bind; [apply keeps_updp; [apply HU|by intros; split]|]. intros ?.
  eapply holds_bind; [apply (keeps_mark _ i _ stable_P0); [by left|done]|]. intros ?.
  keep HU. by apply keeps_sched_out.
Qed.

Lemma keeps_release_lk P l : table_only P -> keeps P (release_lk l).
Proof.
  intros HP s a s' Hs Hr. unfold release_lk in Hr.
  destruct (release _ _) as [[c l']| | |]; simplify_eq/=. by eapply (HP s).
Qed.

Lemma keeps_acquire_lk P l : table_only P -> keeps P (acquire_lk stk l).
Proof.
  intros HP s a s' Hs Hr. unfold acquire_lk in Hr.
  destruct (acquire _ _ _) as [[c l']| | |]; simplify_eq/=. by eapply (HP s).
Qed.

Lemma inv_sleep_out c lk :
  holds (fun s => P0 s /\ running s) (sleep_out stk c lk) (fun _ => P0).
Proof.
  unfold sleep_out. eapply holds_bind; [apply holds_gets|]. intros [i|]; [|apply holds_panic].
  pose proof (stable_and _ _ stable_P0 (stable_up i)) as HU.
  apply (keeps_conseq (fun s => P0 s /\ up i s)).
  - intros s [[HP (j & Hj & Hu)] Hi]. assert (j = i) as -> by congruence. done.
  - by intros ? s [? _].
  - destruct lk; [apply holds_panic| |].
    + keep HU. apply inv_sleep_mark.
    + keep HU; [by apply keeps_release_lk, HU|apply inv_sleep_mark].
Qed.

Lemma inv_sleep_in lk ie : keeps P0 (sleep_in stk lk ie).
Proof.
  pose proof stable_P0 as HS. unfold sleep_in. keep HS.
  - by apply keeps_sched_in.
  - by apply keeps_acquire_lk, HS.
Qed.

(** * kill *)

Lemma inv_kill id : keeps P0 (kill stk id).
Proof.
  pose proof stable_P0 as HS. unfold kill. keep HS. generalize (seq 0 NPROC) as js.
  induction js as [|j js IH]; simpl; [keep HS|].
  eapply holds_bind; [apply holds_getp|]. intros q.
  destruct (pid q =? id).
  2:{ by eapply (keeps_conseq P0); [intros ? [? _]| |]. }
  case_bool_decide as Hst.
  - pose proof (stable_and _ _ HS (stable_up j)) as HU.
    apply (keeps_conseq (fun s => P0 s /\ up j s)).
    + intros s [HP Hj]. split; [done|]. exists q. split; [done|]. by left.
    + by intros ? s [? _].
    + keep HU. apply (keeps_mark _ j _ HS); [by right|done].
  - apply (keeps_conseq P0); [by intros s [? _]|done|]. keep HS.
Qed.

(** * Policies, priorities, ticks and memory *)

Lemma same_life_tick p : same_life p (tick1 p).
Proof. unfold tick1. destruct (state p) eqn:?; by split. Qed.

Lemma inv_update_times : keeps P0 (update_times stk).
Proof.
  pose proof stable_P0 as HS. unfold update_times. keep HS.
  apply keeps_map; [apply HS|]. intros. apply same_life_tick.
Qed.

Lemma inv_set_my_priority pr : keeps P0 (set_my_priority pr).
Proof. pose proof stable_P0 as HS. unfold set_my_priority. keep HS. Qed.

(** A policy only deals out tickets and priorities. *)
Lemma call_policy_map pl ps total qs :
  call_policy pl ps = Ok (total, qs) ->
  exists f, qs = f <$> ps /\ forall p, same_life p (f p) /\ state (f p) = state p.
Proof.
  unfold call_policy. intros Hc. destruct (pl <? 0); [done|].
  destruct (Z.to_nat pl) as [|[|[|[|n]]]]; simpl in Hc; try done.
  - exists (set_ntickets 10). split; [|intros p; split; [by split|done]].
    rewrite <-uniform_time_dist_table. by injection Hc as ->.
  - exists (fun p => if decide (state p = RUNNABLE) then set_ntickets 10 (set_priority 10 p)
              else set_priority 10 p).
    split; [|intros p; case_decide; (split; [by split|done])].
    rewrite <-priority_scheduling_table. by injection Hc as ->.
  - exists (set_ntickets 20). split; [|intros p; split; [by split|done]].
    rewrite <-dynamic_tickets_allc_table. by injection Hc as ->.
Qed.

Lemma keeps_policy_act {A} P pl (g : Z -> A) :
  stable P ->
  keeps P (act (fun s => obind (call_policy pl (procs s)) (fun '(t, ps) => Ok (g t, with_procs ps s)))).
Proof.
  intros HS s a s' Hs Hr. unfold act in Hr.
  destruct (call_policy pl (procs s)) as [[t qs]| | |] eqn:Hc; simplify_eq/=.
  destruct (call_policy_map _ _ _ _ Hc) as (f & -> & Hf).
  apply (proj2 HS); [by rewrite length_fmap| |done].
  intros j p q Hp Hq. rewrite list_lookup_fmap, Hp in Hq. injection Hq as <-. apply Hf.
Qed.

Lemma inv_policy pl : keeps P0 (policy pl).
Proof.
  pose proof stable_P0 as HS. unfold policy. keep HS.
  by apply (keeps_policy_act P0 pl (fun _ => tt)).
Qed.

Lemma inv_growproc n : keeps P0 (growproc n).
Proof.
  pose proof stable_P0 as HS. unfold growproc. keep HS; by apply keeps_switchuvm.
Qed.

(** * Slots being set up or torn down *)

(** Slot [i] holds a process with property [R]. *)
Definition slot (R : proc -> Prop) (i : nat) s : Prop :=
  exists p, procs s !! i = Some p /\ R p.

Lemma stable_slot R i : (forall p q, same_life p q -> R p -> R q) -> stable (slot R i).
Proof.
  intros HR. split.
  - intros s t E1 _ _ _ (p & Hp & Hq). exists p. by rewrite E1.
  - intros s qs Hl Hsl (p & Hp & Ha). destruct (lookup_lt_is_Some_2 qs i) as [q Hq].
    { rewrite Hl. by eapply lookup_lt_Some. }
    exists q. split; [done|]. by eapply HR; eauto.
Qed.

Definition embryo (par : option nat) (p : proc) : Prop :=
  state p = EMBRYO /\ parent p = par.

Lemma embryo_life par p q : same_life p q -> embryo par p -> embryo par q.
Proof.
  intros [_ E2 E3 E4 _ _ _] [Hst Hpar]. split; [|congruence].
  unfold grown in E4. rewrite Hst in E3, E4.
  destruct (state q); try done; exfalso;
    (by destruct E3 as [E3 _]; discriminate E3) || (apply proj1 in E4; by destruct E4 as [_ []]).
Qed.

Lemma stable_embryo par i : stable (slot (embryo par) i).
Proof. apply stable_slot. intros p q. apply embryo_life. Qed.

(** Writing into a slot that is out of the invariant. *)
Lemma holds_updp_out j f (R R' : proc -> Prop) :
  (forall q, R q -> R' (f q) /\ (shaped q -> shaped (f q)) /\ state (f q) <> RUNNING) ->
  holds (fun s => pinv (Some j) s /\ slot R j s) (updp j f)
    (fun _ s => pinv (Some j) s /\ slot R' j s).
Proof.
  intros Hf. apply holds_updp.
  - intros s p [[Ht Hr] (q & Hq & HR)] Hp. assert (q = p) as -> by congruence.
    destruct (Hf p HR) as (HR' & Hsh & Hst). split; [split|]; simpl.
    + apply tinv_out; [done|]. apply Hsh. pose proof (inv_shape _ _ _ _ Ht) as HF.
      rewrite Forall_lookup in HF. eauto.
    + by apply rinv_insert.
    + exists (f p). split; [|done]. apply list_lookup_insert_eq. by eapply lookup_lt_Some.
  - intros s [_ (q & Hq & _)] Hn. congruence.
Qed.

(** Writing into an embryo. *)
Lemma holds_updp_embryo P i f par (R' : proc -> Prop) :
  table_only P ->
  (forall s p, P s -> procs s !! i = Some p -> embryo par p ->
     P (with_procs (<[i := f p]> (procs s)) s)) ->
  (forall s p, P s -> procs s !! i = Some p -> embryo par p -> shaped p ->
     shaped (f p) /\ R' (f p) /\ state (f p) <> RUNNING /\
     (state (f p) <> UNUSED -> pid (f p) = pid p) /\
     (state (f p) = UNUSED -> parent (f p) = None) /\
     (grown (f p) -> exists k, parent (f p) = Some k /\ k <> i /\ up k s)) ->
  holds (fun s => (P0 s /\ P s) /\ slot (embryo par) i s) (updp i f)
    (fun _ s => (P0 s /\ P s) /\ slot R' i s).
Proof.
  intros HT HP Hf. apply holds_updp.
  - intros s p [[[Ht Hr] HPs] (q & Hq & HR)] Hp. assert (q = p) as -> by congruence.
    assert (i < length (procs s))%nat by by eapply lookup_lt_Some.
    assert (shaped p) as Hsh.
    { pose proof (inv_shape _ _ _ _ Ht) as HF. rewrite Forall_lookup in HF. eauto. }
    destruct (Hf s p HPs Hp HR Hsh) as (H1 & H2 & H3 & H4 & H5 & H6).
    pose proof HR as [Hst Hpar].
    split; [split; [split|]|]; simpl.
    + eapply tinv_replace; try done.
      * unfold alive. rewrite Hst. by intros [|[|]].
      * split; [|done|].
        -- intros Hu. rewrite (H4 Hu). apply (ok_pid _ _ _ _ _ (inv_slot _ _ _ _ Ht i p Hp ltac:(done))).
           congruence.
        -- intros Hg. destruct (H6 Hg) as (k & -> & Hki & (u & Hu & Ha)). exists u.
           by rewrite list_lookup_insert_ne.
      * intros Hu. split; [by apply H4|congruence].
    + by apply rinv_insert.
    + by apply HP.
    + exists (f p). split; [by apply list_lookup_insert_eq|done].
  - intros s [_ (q & Hq & _)] Hn. congruence.
Qed.

(** * allocproc and fork *)

(** The claimed slot, with its new pid. *)
Lemma claim_slot s i p :
  P0 s -> running s -> nextpid s < INT_MAX -> procs s !! i = Some p -> state p = UNUSED ->
  let t := with_procs (<[i := set_pid (nextpid s) (set_state EMBRYO p)]> (procs s))
             (with_nextpid (s32 (nextpid s + 1)) s) in
  (P0 t /\ running t) /\ slot (embryo None) i t.
Proof.
  intros [Ht Hr] (k & Hk & u & Hu & Ha) Hlt Hp Hst t.
  assert (i < length (procs s))%nat by by eapply lookup_lt_Some.
  pose proof (inv_next _ _ _ _ Ht) as Hn. pose proof (inv_shape _ _ _ _ Ht) as Hsh.
  rewrite Forall_lookup in Hsh. specialize (Hsh i p Hp).
  assert (s32 (nextpid s + 1) = nextpid s + 1) as E1
    by (apply s32_small; unfold INT_MAX in *; lia).
  pose proof (inv_slot _ _ _ _ Ht) as Hslot.
  assert (~ alive p) as Hna by (unfold alive; rewrite Hst; by intros [|[|]]).
  assert (k <> i) by congruence.
  split; [split; [split|]|].
  - simpl. rewrite E1. eapply tinv_close; [|by apply list_lookup_insert_eq| |].
    + apply tinv_out; [|done]. apply tinv_next; [|done]. by eapply tinv_open.
    + split; simpl; [lia|done|]. intros [_ []]. done.
    + intros _ j q Hq Hj Hsq. rewrite list_lookup_insert_ne in Hq by done. simpl.
      destruct (Hslot j q Hq ltac:(done)) as [Hpid _ _]. specialize (Hpid Hsq). lia.
  - by apply rinv_insert.
  - exists k. split; [done|]. exists u. split; [|done]. simpl. by rewrite list_lookup_insert_ne.
  - exists (set_pid (nextpid s) (set_state EMBRYO p)).
    split; [by apply list_lookup_insert_eq|]. split; [done|]. simpl.
    by apply (ok_unused _ _ _ _ _ (Hslot i p Hp ltac:(done))).
Qed.

Lemma stable_fork par i : stable (fun s => (P0 s /\ running s) /\ slot (embryo par) i s).
Proof. apply stable_and; [apply stable_and, stable_running; apply stable_P0|apply stable_embryo]. Qed.

(** Writing into an embryo does not concern the running process. *)
Lemma up_not_embryo k i s p par :
  up k s -> procs s !! i = Some p -> embryo par p -> k <> i.
Proof.
  intros (u & Hu & Ha) Hp [Hst _] ->. assert (u = p) as -> by congruence.
  unfold alive in Ha. rewrite Hst in Ha. by destruct Ha as [|[|]].
Qed.

Lemma running_embryo s i p par q :
  running s -> procs s !! i = Some p -> embryo par p -> running (with_procs (<[i := q]> (procs s)) s).
Proof.
  intros (k & Hk & Hu) Hp He. pose proof (up_not_embryo _ _ _ _ _ Hu Hp He).
  exists k. split; [done|]. destruct Hu as (u & Hu & Ha). exists u. split; [|done]. simpl.
  by rewrite list_lookup_insert_ne.
Qed.

(** The embryo is given up. *)
Lemma holds_give_up i :
  holds (fun s => (P0 s /\ running s) /\ slot (embryo None) i s) (updp i (set_state UNUSED))
    (fun _ s => (P0 s /\ running s) /\ slot (fun _ => True) i s).
Proof.
  apply (holds_updp_embryo _ _ _ None); [apply stable_running| |].
  - intros s p HR Hp He. by eapply running_embryo.
  - intros s p _ _ [Hst Hpar] Hsh. split_and!; try done. by intros [[] _].
Qed.

Lemma inv_allocproc :
  holds (fun s => (P0 s /\ running s) /\ nextpid s < INT_MAX)
    (allocproc forkret_addr trapret_addr stk)
    (fun r s => (P0 s /\ running s) /\
       match r with None => True | Some i => slot (embryo None) i s end).
Proof.
  unfold allocproc. eapply holds_bind; [apply keeps_acquire|].
  { intros s t E1 E2 E3 E4 [[HP HR] Hn]. rewrite <-E3 in Hn. split; [split|done].
    - by apply (proj1 stable_P0 s).
    - by apply (proj1 stable_running s). }
  intros ?. eapply holds_bind; [apply holds_gets|]. intros ps.
  pose proof (stable_and _ _ stable_P0 stable_running) as HS.
  destruct (list_find _ ps) as [[i p]|] eqn:Hf.
  2:{ apply (holds_bind _ _ (fun _ s => P0 s /\ running s)); [|intros ?; by apply holds_ret].
      apply (keeps_conseq (fun s => P0 s /\ running s)); [by intros s [[? _] _]|done|keep HS]. }
  apply list_find_Some in Hf as (Hi & Hst & _).
  intros s r s' [[[HP HR] Hn] Hps] Hr. subst ps.
  apply bind_Ok_inv in Hr as ([] & s1 & E1 & Hr). injection E1 as <-.
  rewrite (alter_insert _ _ _ _ Hi) in Hr.
  apply bind_Ok_inv in Hr as (n & s1 & E1 & Hr). injection E1 as <- <-.
  apply bind_Ok_inv in Hr as ([] & s1 & E1 & Hr). injection E1 as <-.
  apply bind_Ok_inv in Hr as ([] & s1 & E1 & Hr). injection E1 as <-.
  simpl in Hr. erewrite alter_insert in Hr
    by (apply list_lookup_insert_eq; by eapply lookup_lt_Some).
  rewrite list_insert_insert_eq in Hr.
  pose proof (claim_slot s i p HP HR Hn Hi Hst) as Hc. simpl in Hc.
  revert r s' Hr. pose proof (stable_fork None i) as HF.
  match goal with |- forall r s', ?m ?t = _ -> _ =>
    enough (holds (fun s => (P0 s /\ running s) /\ slot (embryo None) i s) m
      (fun r s => (P0 s /\ running s) /\
       match r with None => True | Some i => slot (embryo None) i s end)) as Hm
      by (intros r s'; by apply (Hm t)) end.
  keep1 HF. eapply holds_bind; [keep HF|]. intros k.
  keep1 HF. destruct k as [k|].
  - cbv zeta. repeat (keep1 HF). by apply holds_ret.
  - eapply holds_bind; [apply holds_give_up|]. intros ?. apply holds_ret.
    by intros s0 [? _].
Qed.

Lemma inv_fork :
  holds (fun s => (P0 s /\ running s) /\ nextpid s < INT_MAX)
    (fork forkret_addr trapret_addr stk) (fun _ => P0).
Proof.
  unfold fork. eapply holds_bind; [apply inv_allocproc|].
  intros [np|]; [|apply holds_ret; by intros s [[? _] _]].
  pose proof (stable_fork None np) as HF.
  apply (holds_bind _ _ (fun i s => (P0 s /\ (running s /\ curproc s = Some i)) /\
    slot (embryo None) np s)).
  { intros s r s' [[HP HR] Hs] Hr. apply deref_inv in Hr as (k & Hk & Hr). by injection Hr as <- <-. }
  intros i.
  pose proof (stable_and _ _ stable_running (stable_cur i)) as HS'.
  pose proof (stable_and _ _ (stable_and _ _ stable_P0 HS') (stable_embryo None np)) as HS.
  eapply holds_bind; [keep HS|]. intros p. eapply holds_bind; [keep HS|]. intros d.
  keep1 HS. destruct d as [d|].
  2:{ apply (holds_conseq _ (fun s => (P0 s /\ running s) /\ slot (embryo None) np s) _ _
        (fun _ s => (P0 s /\ running s) /\ slot (fun _ => True) np s));
        [|by intros s [[? [? _]] ?]|by intros ? s [[? _] _]].
      do 3 keep1 HF.
      eapply holds_bind; [apply holds_give_up|]. intros ?. by apply holds_ret. }
  keep1 HS.
  eapply holds_bind.
  { apply (holds_updp_embryo _ _ _ None (embryo (Some i))); [apply HS'| |].
    - intros s q [HR Hc] Hq He. split; [|done]. by eapply running_embryo.
    - intros s q _ _ [Hst _] Hsh. split_and!; try done; simpl; [congruence..|].
      intros [_ []]. done. }
  intros ?. pose proof (stable_and _ _ (stable_and _ _ stable_P0 HS')
    (stable_embryo (Some i) np)) as HE.
  do 2 keep1 HE.
  eapply holds_bind; [by apply keeps_fork_files|]. intros ?.
  destruct (cwd p) as [dir|]; [|apply holds_fault].
  do 2 keep1 HE.
  eapply holds_bind; [apply keeps_updp; [apply HE|apply same_life_copy_name]|]. intros ?.
  do 2 keep1 HE.
  eapply holds_bind.
  { apply (holds_updp_embryo _ _ _ (Some i) (fun _ => True)); [apply HS'| |].
    - intros s r [HR Hc] Hr He. split; [|done]. by eapply running_embryo.
    - intros s r [(k & Hk & Hu) Hc] Hr He Hsh. assert (k = i) as -> by congruence.
      split_and!; try done. intros _. exists i. split; [apply He|]. split; [|done].
      by eapply up_not_embryo. }
  intros ?. eapply (holds_bind _ _ (fun _ => P0)).
  { apply (keeps_conseq P0); [by intros s [[? _] _]|done|apply keeps_release, stable_P0]. }
  intros ?. by apply holds_ret.
Qed.

(** * exit *)

(** The first [k] slots have no child of [i]. *)
Definition no_child (i k : nat) s : Prop :=
  forall j q, (j < k)%nat -> procs s !! j = Some q -> parent q <> Some i.

Lemma stable_no_child i k : stable (no_child i k).
Proof.
  split.
  - intros s t E1 _ _ _ Hn j q Hj. rewrite E1. by apply Hn.
  - intros s qs Hl Hsl Hn j q Hj Hq. destruct (lookup_lt_is_Some_2 (procs s) j) as [p Hp].
    { rewrite <-Hl. by eapply lookup_lt_Some. }
    rewrite (sl_parent p q) by eauto. by apply (Hn j).
Qed.

Lemma holds_adopt ip i k q :
  ip <> Some i ->
  holds (fun s => (((P0 s /\ initproc s = ip) /\ up i s) /\ no_child i k s) /\
      procs s !! k = Some q /\ parent q = Some i)
    (updp k (set_parent ip))
    (fun _ s => ((P0 s /\ initproc s = ip) /\ up i s) /\ no_child i (S k) s).
Proof.
  intros Hip. apply holds_updp; [|intros s [_ [Hk _]] Hn; congruence].
  intros s p [[[[[Ht Hr] Hi] (u & Hu & Ha)] Hnc] [Hk Hpar]] Hk'. assert (p = q) as -> by congruence. clear Hk'.
  pose proof (inv_init _ _ _ _ Ht) as (l & r & Hl & Hlr & Har & _).
  assert (Some l = ip) as <- by congruence.
  assert (state q <> UNUSED) as Hst.
  { intros Hun. pose proof (ok_unused _ _ _ _ _ (inv_slot _ _ _ _ Ht k q Hk ltac:(done)) Hun).
    congruence. }
  split; [split; [split; [split|]|]|]; simpl; try done.
  - by eapply tinv_adopt.
  - apply rinv_insert; [done|]. simpl. by apply Hr.
  - destruct (decide (k = i)) as [->|Hne].
    + exists (set_parent (Some l) q). split; [|by assert (u = q) as <- by congruence].
      apply list_lookup_insert_eq. by eapply lookup_lt_Some.
    + exists u. simpl. by rewrite list_lookup_insert_ne.
  - intros j p Hj Hp. simpl in Hp. rewrite list_lookup_insert_dec in Hp. case_decide as D.
    + injection Hp as <-. simpl. congruence.
    + apply (Hnc j p); [|done]. assert (j <> k); [|lia]. intros ->. destruct D.
      split; [done|]. by eapply lookup_lt_Some.
Qed.

Lemma holds_exit_reparent ip i m k :
  ip <> Some i ->
  holds (fun s => ((P0 s /\ initproc s = ip) /\ up i s) /\ no_child i k s)
    (exit_reparent (seq k m) i)
    (fun _ s => ((P0 s /\ initproc s = ip) /\ up i s) /\ no_child i (k + m) s).
Proof.
  intros Hip. revert k. induction m as [|m IH]; intros k; simpl.
  { rewrite Nat.add_0_r. by apply holds_ret. }
  rewrite Nat.add_succ_r, <-Nat.add_succ_l.
  pose proof (fun k => stable_and _ _ (stable_and _ _ (stable_and _ _ stable_P0 (stable_init ip))
    (stable_up i)) (stable_no_child i k)) as HS.
  eapply holds_bind; [apply holds_getp|]. intros q. case_bool_decide as Hpar.
  - apply (holds_bind _ _ (fun a s => (((P0 s /\ initproc s = ip) /\ up i s) /\ no_child i k s) /\
      (procs s !! k = Some q /\ parent q = Some i) /\ a = ip)).
    { intros s a s' [Hs Hq] Hr. injection Hr as <- <-. split; [done|]. split; [done|].
      apply Hs. }
    intros ip'. apply (holds_bind _ _ (fun _ s =>
      ((P0 s /\ initproc s = ip) /\ up i s) /\ no_child i (S k) s)).
    { intros s a s' (Hs & Hq & ->). by apply (holds_adopt ip i k q). }
    intros ?. eapply holds_bind; [keep (HS (S k))|]. intros ?. apply IH.
  - eapply holds_conseq; [apply IH| |done]. intros s [[Hs Hnc] Hq]. split; [done|].
    intros j p Hj Hp. destruct (decide (j = k)) as [->|]; [congruence|]. apply (Hnc j); [lia|done].
Qed.

Lemma holds_die ip i :
  ip <> Some i ->
  holds (fun s => ((P0 s /\ initproc s = ip) /\ up i s) /\ no_child i NPROC s)
    (updp i (set_state ZOMBIE)) (fun _ => P0).
Proof.
  intros Hip. apply holds_updp; [|by intros s [[[? _] _] _]].
  intros s p [[[[Ht Hr] Hi] (u & Hu & Ha)] Hnc] Hp. assert (u = p) as -> by congruence.
  pose proof (inv_shape _ _ _ _ Ht) as Hsh. rewrite Forall_lookup in Hsh.
  split; simpl.
  - eapply tinv_die; try done; [congruence| |by apply (Hsh i p)].
    intros j r Hr'. apply (Hnc j r); [|done]. rewrite <-(inv_len _ _ _ _ Ht).
    by eapply lookup_lt_Some.
  - by apply rinv_insert.
Qed.

Lemma inv_exit st : holds (fun s => P0 s /\ running s) (exit stk st) (fun _ => P0).
Proof.
  unfold exit. eapply holds_bind; [apply holds_cur_up|]. intros i.
  apply (holds_bind _ _ (fun ip s => ((P0 s /\ initproc s = ip) /\ up i s))).
  { intros s ip s' [[HP _] Hu] Hr. by injection Hr as <- <-. }
  intros ip. case_bool_decide as Hip; [apply holds_panic|].
  pose proof (stable_and _ _ (stable_and _ _ stable_P0 (stable_init ip)) (stable_up i)) as HS.
  eapply holds_bind; [by apply keeps_exit_files|]. intros ?.
  do 2 keep1 HS.
  case_match; [|apply holds_fault]. do 2 keep1 HS.
  unfold exit_bury. do 4 keep1 HS.
  eapply holds_bind.
  { eapply holds_conseq; [apply (holds_exit_reparent ip i NPROC 0); done| |].
    - intros s Hs. split; [exact Hs|]. intros j q Hj. lia.
    - intros ? s Hs. exact Hs. }
  intros ?. eapply holds_bind; [by apply holds_die|]. intros ?.
  pose proof stable_P0 as HS0. keep HS0. by apply keeps_sched_out.
Qed.

(** * wait *)

Definition zombie (p : proc) : Prop := state p = ZOMBIE.
Definition orphan (p : proc) : Prop := state p = ZOMBIE /\ parent p = None.

(** Burying the zombie in slot [j]. *)
Lemma holds_bury {B} j q (k : M (pt E) B) (Q : B -> pt E -> Prop) :
  holds P0 k Q ->
  holds (fun s => pinv (Some j) s /\ slot zombie j s)
    (liftE (kfree (kstack q));;
     updp j (set_kstack 0);;
     liftE (freevm (pgdir q));;
     updp j (set_pid 0);;
     updp j (set_parent None);;
     updp j (fun q => set_name (<[0%nat := 0]> (name q)) q);;
     updp j (set_killed 0);;
     updp j (set_state UNUSED);;
     k) Q.
Proof.
  intros Hk.
  assert (table_only (fun s => pinv (Some j) s /\ slot zombie j s)) as HT.
  { intros s t E1 E2 E3 E4 [HP (p & Hp & Hz)]. split; [by apply (pinv_table_only _ s)|].
    exists p. by rewrite E1. }
  eapply holds_bind; [by apply keeps_liftE|]. intros ?.
  eapply holds_bind; [apply (holds_updp_out j _ zombie zombie); unfold zombie; simpl;
    intros p ->; done|]. intros ?.
  eapply holds_bind; [by apply keeps_liftE|]. intros ?.
  eapply holds_bind; [apply (holds_updp_out j _ zombie zombie); unfold zombie; simpl;
    intros p ->; done|]. intros ?.
  eapply holds_bind; [apply (holds_updp_out j _ zombie orphan); unfold zombie, orphan; simpl;
    intros p ->; done|]. intros ?.
  eapply holds_bind.
  { apply (holds_updp_out j _ orphan orphan). intros p [E1 E2]. unfold orphan. simpl.
    rewrite E1. split; [done|]. split; [|done]. intros [? ?]. split; [done|]. simpl.
    by rewrite length_insert. }
  intros ?.
  eapply holds_bind; [apply (holds_updp_out j _ orphan orphan); unfold orphan; simpl;
    intros p [-> ->]; done|]. intros ?.
  eapply holds_bind; [|intros ?; exact Hk].
  eapply holds_conseq; [apply (holds_updp_out j _ orphan (fun p => state p = UNUSED /\ parent p = None));
    unfold orphan; simpl; intros p [_ ->]; done|done|].
  intros ? s [[Ht Hr] (p & Hp & Hun & Hpar)]. split; [|done].
  eapply tinv_close; [done|done| |congruence].
  split; [done|done|]. by intros [[] _].
Qed.

Lemma inv_wait_scan js i hk : keeps P0 (wait_scan_loop js i hk).
Proof.
  pose proof stable_P0 as HS. unfold keeps. revert hk.
  induction js as [|j js IH]; intros hk; simpl; [keep HS|].
  eapply holds_bind; [apply holds_getp|]. intros q.
  case_bool_decide as Hpar; simpl; [|apply (keeps_conseq P0); [by intros s [? _]|done|apply IH]].
  case_bool_decide as Hz; [|apply (keeps_conseq P0); [by intros s [? _]|done|apply IH]].
  apply (holds_conseq _ (fun s => pinv (Some j) s /\ slot zombie j s) _ _ (fun _ => P0));
    [apply (holds_bury j q); by apply holds_ret| |done].
  intros s [[Ht Hr] Hq]. split; [|by exists q]. split; [|done].
  eapply tinv_open; [done|done|]. unfold alive. rewrite Hz. by intros [|[|]].
Qed.

(** A scan that finds no zombie changes nothing. *)
Lemma wait_scan_none js i hk hk' s s' :
  wait_scan_loop js i hk s = Ok (NoZombie hk', s') -> s' = s.
Proof.
  revert hk. induction js as [|j js IH]; intros hk Hr; simpl in Hr.
  { by injection Hr as <- <-. }
  apply bind_Ok_inv in Hr as (q & t & Hq & Hr). unfold getp in Hq.
  apply deref_inv in Hq as (q' & _ & Hq). injection Hq as <- <-.
  case_bool_decide; simpl in Hr; [|by apply IH in Hr].
  case_bool_decide; [|by apply IH in Hr]. exfalso.
  do 8 apply bind_Ok_inv in Hr as (? & ? & _ & Hr). discriminate Hr.
Qed.

Lemma inv_wait_pass status want :
  holds (fun s => P0 s /\ running s) (wait_pass stk status want) (fun _ => P0).
Proof.
  pose proof stable_P0 as HS. pose proof (stable_and _ _ HS stable_running) as HR.
  unfold wait_pass. eapply holds_bind; [keep HR|]. intros i.
  apply (holds_bind _ _ (fun r s => P0 s /\ (match r with NoZombie _ => running s | _ => True end))).
  { intros s r s' [HP Hrun] Hr. split; [by eapply inv_wait_scan|].
    destruct r as [|hk]; [done|]. by rewrite (wait_scan_none _ _ _ _ _ _ Hr). }
  intros [id st pf|hk].
  - apply (keeps_conseq P0); [by intros s [? _]|done|keep HS].
  - eapply holds_bind; [keep HR|]. intros p. case_match.
    + apply (keeps_conseq P0); [by intros s [? _]|done|keep HS].
    + eapply holds_bind; [apply inv_sleep_out|]. intros ?. by apply holds_ret.
Qed.

Lemma inv_wait status want :
  holds (fun s => P0 s /\ running s) (acquire_pt stk;; wait_pass stk status want) (fun _ => P0).
Proof.
  pose proof (stable_and _ _ stable_P0 stable_running) as HR.
  keep1 HR. apply inv_wait_pass.
Qed.

Lemma inv_wait_resume status want ie :
  holds (fun s => P0 s /\ running s) (sleep_in stk LkPtable ie;; wait_pass stk status want)
    (fun _ => P0).
Proof.
  pose proof (stable_and _ _ stable_P0 stable_running) as HR.
  apply (holds_bind _ _ (fun _ s => P0 s /\ running s)); [|intros ?; apply inv_wait_pass].
  unfold sleep_in. keep HR. by apply keeps_sched_in.
Qed.

(** * The scheduler *)

Lemma pick_runnable ps ticket i :
  pick ps ticket = Some i -> exists p, ps !! i = Some p /\ state p = RUNNABLE.
Proof.
  revert ticket i. induction ps as [|p ps IH]; intros ticket i Hp; simpl in Hp; [done|].
  case_bool_decide as Hst; simpl in Hp.
  - destruct (_ <? 0); [injection Hp as <-; by exists p|].
    apply fmap_Some in Hp as (j & Hj & ->). by apply IH in Hj.
  - apply fmap_Some in Hp as (j & Hj & ->). by apply IH in Hj.
Qed.

Lemma stable_idle : stable (fun s => curproc s = None).
Proof. split; [|by intros s qs _ _]. by intros s t _ _ _ -> Hs. Qed.

(** Dispatching: the winner becomes the current and running process. *)
Lemma holds_dispatch i :
  holds (fun s => (P0 s /\ curproc s = Some i) /\ up i s)
    (updp i (set_state RUNNING)) (fun _ s => P0 s).
Proof.
  apply holds_updp; [|by intros s [[? _] _]].
  intros s p [[[Ht Hr] Hc] (u & Hu & Ha)] Hp. assert (u = p) as -> by congruence.
  split; simpl; [|by apply rinv_insert].
  pose proof (inv_shape _ _ _ _ Ht) as Hsh. rewrite Forall_lookup in Hsh.
  eapply tinv_map; [exact Ht|by rewrite length_insert|].
  intros j a b Hja Hjb. rewrite list_lookup_insert_dec in Hjb. case_decide as D.
  - destruct D as [-> _]. injection Hjb as <-. assert (a = p) as -> by congruence.
    apply same_stage_alive; try done. right. by right.
  - assert (a = b) as -> by congruence. apply same_life_stage, same_life_refl.
Qed.

Lemma inv_scheduler_out nt :
  holds (fun s => P0 s /\ curproc s = None) (scheduler_out stk nt) (fun _ => P0).
Proof.
  pose proof (stable_and _ _ stable_P0 stable_idle) as HS.
  unfold scheduler_out. do 2 keep1 HS.
  eapply holds_bind.
  { destruct (nt =? 0).
    - by apply (keeps_policy_act _ 0 (fun total => total)).
    - keep HS. }
  intros nt'. apply (holds_bind _ _ (fun _ s => P0 s /\ curproc s = None)).
  { intros s r s' Hs Hr. unfold prng in Hr. destruct (PRNG _ _). injection Hr as <- <-.
    by apply (proj1 HS s). }
  intros ticket. eapply holds_bind; [apply holds_gets|]. intros ps.
  destruct (pick ps ticket) as [i|] eqn:Hpick.
  2:{ apply (keeps_conseq P0); [by intros s [[? _] _]|done|]. pose proof stable_P0 as HS0.
      keep HS0. }
  apply pick_runnable in Hpick as (p & Hp & Hst).
  apply (holds_bind _ _ (fun _ s => (P0 s /\ curproc s = Some i) /\ up i s)).
  { apply holds_modify. intros s [[[Ht Hr] Hc] Hps]. split; [split; [split|]|]; simpl; try done.
    - intros j q Hq Hrun. pose proof (Hr j q Hq Hrun). congruence.
    - exists p. simpl. split; [congruence|]. right. by left. }
  intros ?. pose proof (stable_and _ _ (stable_and _ _ stable_P0 (stable_cur i)) (stable_up i)) as HU.
  eapply holds_bind; [by apply keeps_switchuvm|]. intros ?.
  eapply holds_bind; [apply holds_dispatch|]. intros ?. by apply holds_ret.
Qed.

(** Back in the scheduler: the process that gave up the CPU is not RUNNING. *)
Lemma inv_scheduler_in :
  holds (fun s => P0 s /\ forall i p, curproc s = Some i -> procs s !! i = Some p ->
      state p <> RUNNING) (scheduler_in kpgdir) (fun _ => P0).
Proof.
  unfold scheduler_in, switchkvm. pose proof stable_P0 as HS.
  apply (holds_bind _ _ (fun _ s => P0 s /\ forall i p, curproc s = Some i ->
    procs s !! i = Some p -> state p <> RUNNING)); [by apply holds_modify|]. intros ?.
  eapply (holds_bind _ _ (fun _ => P0)); [|intros ?; keep HS].
  apply holds_modify. intros s [[Ht Hr] Hc]. split; simpl; [done|].
  intros j q Hq Hst. exfalso. by apply (Hc j q (Hr j q Hq Hst) Hq).
Qed.

(** * Booting *)

(** The table as the linker left it, before userinit. *)
Definition boot s : Prop :=
  procs s = replicate NPROC proc_zero /\ nextpid s = 1 /\ curproc s = None.

(** Only slot 0 is taken, by the process that will be init. *)
Definition only_init s : Prop :=
  length (procs s) = NPROC /\ nextpid s = 2 /\ curproc s = None /\ Forall shaped (procs s) /\
  slot (fun p => embryo None p /\ pid p = 1) 0 s /\
  forall j p, j <> 0%nat -> procs s !! j = Some p -> state p = UNUSED /\ parent p = None.

Lemma stable_only_init : stable only_init.
Proof.
  split.
  - intros s t E1 E2 E3 E4 (H1 & H2 & H3 & H4 & H5 & H6). unfold only_init, slot.
    by rewrite E1, E3, E4.
  - intros s qs Hl Hsl (H1 & H2 & H3 & H4 & H5 & H6).
    assert (forall j q, qs !! j = Some q -> exists p, procs s !! j = Some p /\ same_life p q) as Hb.
    { intros j q Hq. destruct (lookup_lt_is_Some_2 (procs s) j) as [p Hp]; [|eauto].
      rewrite <-Hl. by eapply lookup_lt_Some. }
    rewrite Forall_lookup in H4. split_and!; try done; simpl.
    + congruence.
    + apply Forall_lookup. intros j q Hq. destruct (Hb j q Hq) as (p & Hp & []). eauto.
    + refine (proj2 (stable_slot _ 0 _) s qs Hl Hsl H5). intros p q Hpq [He Hpid].
      split; [by eapply embryo_life|]. by rewrite (sl_pid _ _ Hpq).
    + intros j q Hj Hq. destruct (Hb j q Hq) as (p & Hp & []).
      destruct (H6 j p Hj Hp). split; [tauto|congruence].
Qed.

Lemma inv_boot_alloc :
  holds boot (allocproc forkret_addr trapret_addr stk)
    (fun r s => match r with
                | Some i => i = 0%nat /\ only_init s
                | None => True
                end).
Proof.
  unfold allocproc. eapply holds_bind; [apply keeps_acquire|].
  { intros s t E1 _ E3 E4. unfold boot. by rewrite E1, E3, E4. }
  intros ?. eapply holds_bind; [apply holds_gets|]. intros ps.
  intros s r s' [(Hps & Hn & Hc) <-] Hr.
  assert (list_find (fun p => state p = UNUSED) (procs s) = Some (0%nat, proc_zero)) as Hf
    by by rewrite Hps.
  rewrite Hf in Hr.
  apply bind_Ok_inv in Hr as ([] & s1 & E1 & Hr). injection E1 as <-.
  apply bind_Ok_inv in Hr as (n & s1 & E1 & Hr). injection E1 as <- <-.
  apply bind_Ok_inv in Hr as ([] & s1 & E1 & Hr). injection E1 as <-.
  apply bind_Ok_inv in Hr as ([] & s1 & E1 & Hr). injection E1 as <-.
  simpl in Hr. rewrite Hps, Hn in Hr.
  revert r s' Hr.
  match goal with |- forall r s', ?m ?t = _ -> _ => set (t0 := t); set (k := m) end.
  assert (only_init t0) as Ht0.
  { unfold only_init, t0. simpl. split_and!; try done.
    - repeat (constructor; [done|]). done.
    - eexists. split; [reflexivity|]. done.
    - intros [|j] p Hj Hp; [done|]. simpl in Hp.
      do 63 (destruct j as [|j]; [by injection Hp as <-|]). done. }
  enough (holds only_init k (fun r s => match r with
    | Some i => i = 0%nat /\ only_init s | None => True end)) as Hk by (intros r s'; by apply Hk).
  pose proof stable_only_init as HS. subst k.
  keep1 HS. apply (holds_bind _ _ (fun _ => only_init)); [keep HS|]. intros k. keep1 HS.
  destruct k as [k|].
  - cbv zeta. repeat keep1 HS. by apply holds_ret.
  - eapply (holds_bind _ _ (fun _ _ => True)); [done|]. intros ?. by apply holds_ret.
Qed.

(** userinit's last step makes init runnable. *)
Lemma only_init_start s p :
  only_init s -> initproc s = Some 0%nat -> procs s !! 0%nat = Some p ->
  P0 (with_procs (<[0%nat := set_state RUNNABLE p]> (procs s)) s).
Proof.
  intros (H1 & H2 & H3 & H4 & (q & Hq & (Hst & Hpar) & Hpid) & H6) Hi Hp.
  assert (q = p) as -> by congruence. rewrite Forall_lookup in H4.
  assert (forall j r, <[0%nat := set_state RUNNABLE p]> (procs s) !! j = Some r ->
    (j = 0%nat /\ r = set_state RUNNABLE p) \/ (state r = UNUSED /\ parent r = None)) as Hcase.
  { intros j r Hr. rewrite list_lookup_insert_dec in Hr. case_decide as D.
    - left. destruct D as [-> _]. by injection Hr as <-.
    - right. apply (H6 j r); [|done]. intros ->. destruct D. split; [done|].
      by eapply lookup_lt_Some. }
  split; simpl.
  - split.
    + by rewrite length_insert.
    + unfold INT_MAX. lia.
    + apply Forall_insert; [by apply Forall_lookup|]. exact (H4 _ _ Hp).
    + intros j r Hr _. destruct (Hcase j r Hr) as [[-> ->]|[E1 E2]].
      * split; simpl; [lia|done|]. by rewrite Hpar.
      * split; [done|done|]. by intros [[] _].
    + intros i j r u Hr Hu _ _ Hsr Hsu _.
      destruct (Hcase i r Hr) as [[-> _]|[? _]]; [|done].
      destruct (Hcase j u Hu) as [[-> _]|[? _]]; [done|done].
    + done.
    + exists 0%nat, (set_state RUNNABLE p). split_and!; try done.
      * apply list_lookup_insert_eq. by eapply lookup_lt_Some.
      * right. by left.
  - intros j r Hr Hrun. destruct (Hcase j r Hr) as [[-> ->]|[? _]]; [done|congruence].
Qed.

Lemma inv_userinit :
  holds boot (userinit forkret_addr trapret_addr stk) (fun _ => P0).
Proof.
  unfold userinit. eapply holds_bind; [apply inv_boot_alloc|]. intros np.
  destruct np as [i|].
  2:{ eapply (holds_bind _ _ (fun _ _ => True)); [done|]. intros ?. apply holds_fault. }
  destruct (decide (i = 0%nat)) as [->|Hne]; [|by intros s r s' [? _]].
  apply (holds_bind _ _ (fun _ s => only_init s /\ initproc s = Some 0%nat)).
  { apply holds_modify. by intros s [_ Hs]. }
  intros ?. pose proof (stable_and _ _ stable_only_init (stable_init (Some 0%nat))) as HS.
  apply (holds_bind _ _ (fun _ s => only_init s /\ initproc s = Some 0%nat)); [keep HS|]. intros d.
  keep1 HS. destruct d as [d|]; [|apply holds_panic]. cbv zeta. do 4 keep1 HS.
  eapply holds_bind; [apply keeps_updp; [apply HS|apply same_life_copy_name]|]. intros ?.
  eapply (holds_bind _ _ (fun _ s => only_init s /\ initproc s = Some 0%nat));
    [unfold callE; keep HS|]. intros dir. do 2 keep1 HS.
  apply (holds_bind _ _ (fun _ => P0)).
  - apply holds_updp.
    + intros s p [Hs Hi] Hp. by apply only_init_start.
    + intros s [(_ & _ & _ & _ & (q & Hq & _) & _) _] Hn. congruence.
  - intros ?. apply keeps_release, stable_P0.
Qed.

(** * Runs

    One CPU.  The kernel is entered by the process that is running (a system
    call or the timer interrupt) or resumed by the scheduler; an operation
    runs until it returns or switches away.  A resumed process continues
    after the switch it made ([yield_in], [sleep_in], [wait_resume]) or, for
    a new one, in [forkret]. *)

Abbreviation fork_ := (fork forkret_addr trapret_addr stk).

Inductive os_step s t : Prop :=
| os_fork r : running s -> nextpid s < INT_MAX -> fork_ s = Ok (r, t) -> os_step s t
| os_exit st : running s -> exit stk st s = Ok (tt, t) -> os_step s t
| os_wait status r : running s -> wait stk status s = Ok (r, t) -> os_step s t
| os_wait_resume status ie r :
    running s -> wait_resume stk status ie s = Ok (r, t) -> os_step s t
| os_wait_stat status r : running s -> wait_stat stk status s = Ok (r, t) -> os_step s t
| os_wait_stat_resume status ie r :
    running s -> wait_stat_resume stk status ie s = Ok (r, t) -> os_step s t
| os_kill id r : kill stk id s = Ok (r, t) -> os_step s t
| os_yield_out ie : running s -> yield_out stk s = Ok (ie, t) -> os_step s t
| os_yield_in ie : yield_in ie s = Ok (tt, t) -> os_step s t
| os_sleep_out c lk r : running s -> sleep_out stk c lk s = Ok (r, t) -> os_step s t
| os_sleep_in lk ie r : sleep_in stk lk ie s = Ok (r, t) -> os_step s t
| os_wakeup c : wakeup stk c s = Ok (tt, t) -> os_step s t
| os_tick l l' : timer_tick stk l s = Ok (l', t) -> os_step s t
| os_policy pl : policy pl s = Ok (tt, t) -> os_step s t
| os_priority pr : set_my_priority pr s = Ok (tt, t) -> os_step s t
| os_growproc n r : growproc n s = Ok (r, t) -> os_step s t
| os_scheduler_out nt r :
    curproc s = None -> scheduler_out stk nt s = Ok (r, t) -> os_step s t
| os_scheduler_in :
    (forall i p, curproc s = Some i -> procs s !! i = Some p -> state p <> RUNNING) ->
    scheduler_in kpgdir s = Ok (tt, t) -> os_step s t
| os_forkret first m r : forkret stk first m s = Ok (r, t) -> os_step s t.

Lemma os_step_inv s t : P0 s -> os_step s t -> P0 t.
Proof.
  pose proof stable_P0 as HS. intros HP Hstep. destruct Hstep.
  - by eapply inv_fork.
  - by eapply inv_exit.
  - by eapply (inv_wait status false).
  - by eapply (inv_wait_resume status false).
  - by eapply (inv_wait status true).
  - by eapply (inv_wait_resume status true).
  - by eapply inv_kill.
  - by eapply inv_yield_out.
  - assert (keeps P0 (yield_in (E := E) ie)) as Hk
      by (unfold yield_in; keep HS; by apply keeps_sched_in).
    by eapply Hk.
  - by eapply inv_sleep_out.
  - by eapply inv_sleep_in.
  - by eapply (keeps_wakeup P0 c); [apply HS..| |].
  - assert (keeps P0 (timer_tick stk l)) as Hk.
    { unfold timer_tick. keep HS; [by apply keeps_acquire_lk, HS|apply inv_update_times| |
        by apply keeps_release_lk, HS]. apply keeps_wakeup; apply HS. }
    by eapply Hk.
  - by eapply inv_policy.
  - by eapply inv_set_my_priority.
  - by eapply inv_growproc.
  - by eapply inv_scheduler_out.
  - by eapply inv_scheduler_in.
  - assert (keeps P0 (forkret stk first m)) as Hk by (unfold forkret; keep HS).
    by eapply Hk.
Qed.

Lemma os_run_inv s t : P0 s -> rtc os_step s t -> P0 t.
Proof. intros HP Hr. revert HP. induction Hr; eauto using os_step_inv. Qed.

(** A state the kernel can be in: userinit from the boot table, then any run. *)
Definition os_reachable t : Prop :=
  exists s0 s1, boot s0 /\ userinit forkret_addr trapret_addr stk s0 = Ok (tt, s1) /\
    rtc os_step s1 t.

Lemma os_reachable_inv t : os_reachable t -> P0 t.
Proof.
  intros (s0 & s1 & Hb & Hu & Hr). eapply os_run_inv; [|exact Hr]. by eapply inv_userinit.
Qed.

End preserve.
