(* ===== verification/ForkExit.v ===== *)
(** The life of a process: fork makes a faithful copy or changes nothing that
    matters, exit leaves a zombie with its status and wakes the parent, wait
    returns that status once and frees the slot, kill reaches its target. *)

From S2P Require Import Prelude StringC Spinlock Proc Sched ProcOps ProcFacts ProcSpec ProcInv ProcProps.

Section life.
Context {E : Type} `{KernelEnv E}.
Context (forkret_addr trapret_addr : Z) (stk : list Z) (kpgdir : Z).

Implicit Types s t : pt E.

Abbreviation fork := (fork forkret_addr trapret_addr stk).

(** C7. fork, when memory and descriptors can be had, returns the new pid and
    makes in a free slot a RUNNABLE child of the caller: same memory size,
    registers with %eax = 0, open files, directory and name, its own page
    table and kernel stack; no other slot changes and the lock is released. *)
Theorem fork_copies s i p wd np q k d e :
  lock_free s -> curproc s = Some i -> procs s !! i = Some p -> state p = RUNNING ->
  shaped p -> shaped q -> cwd p = Some wd ->
  first_unused (procs s) = Some (np, q) -> Forall (fun o => o = None) (ofile q) ->
  fork_env p wd (env s) = Ok (ForkOk k d, e) ->
  exists t c, fork s = Ok (nextpid s, t) /\ procs t = <[np := c]> (procs s) /\
    state c = RUNNABLE /\ pid c = nextpid s /\ parent c = Some i /\ sz c = sz p /\
    pgdir c = d /\ kstack c = k /\ tf c = set_tf_eax 0 (tf p) /\ ofile c = ofile p /\
    cwd c = cwd p /\ cstr (name c) = take 15 (cstr (name p)) /\
    c_eip (ctx c) = forkret_addr /\ ret_word c = trapret_addr /\
    nextpid t = s32 (nextpid s + 1) /\ env t = e /\ lock_free t.
Proof.
  intros Hs Hc Hp Hst [Hp1 Hp2] [Hq1 Hq2] Hwd Hf Hnone Hfe.
  destruct (wp_fork forkret_addr trapret_addr stk s i p wd np q (ForkOk k d) e
    (fun r t => r = nextpid s /\ quiet (with_nextpid (s32 (nextpid s + 1)) (with_env e (with_procs
      (<[np := fork_slot forkret_addr trapret_addr i p (nextpid s) (s32 (ticks s)) q (ForkOk k d)]>
        (procs s)) s))) t)) as (r & t & Hrun & -> & Hq); try done.
  { congruence. }
  destruct (quiet_fields _ _ Hq) as (Htp & _ & Htn & _ & _ & _ & Hte).
  exists t, (child_of forkret_addr trapret_addr i p (nextpid s) k d (s32 (ticks s)) q).
  split_and!; try done.
  - apply inherit_fresh; [by rewrite Hp1, Hq1|done].
  - change (cstr (safestrcpy_buf 15 (name q) (name p)) = take 15 (cstr (name p))).
    apply cstr_safestrcpy. lia.
  - apply Hq.
Qed.

(** fork without a free slot returns -1 and changes nothing; without a
    kernel stack or page table it returns -1, the slot it tried stays UNUSED
    with the parent, files and directory it had, no other slot changes, and
    the lock is released. *)
Lemma fork_fails s i p wd :
  lock_free s -> curproc s = Some i -> procs s !! i = Some p -> state p = RUNNING ->
  shaped p -> cwd p = Some wd ->
  (first_unused (procs s) = None -> exists t, fork s = Ok (-1, t) /\ quiet s t) /\
  (forall np q o e,
     first_unused (procs s) = Some (np, q) -> shaped q ->
     fork_env p wd (env s) = Ok (o, e) -> (forall k d, o <> ForkOk k d) ->
     exists t c, fork s = Ok (-1, t) /\ procs t = <[np := c]> (procs s) /\
       state c = UNUSED /\ kstack c = 0 /\ parent c = parent q /\ ofile c = ofile q /\
       cwd c = cwd q /\ env t = e /\ curproc t = Some i /\ lock_free t).
Proof.
  intros Hs Hc Hp Hst [Hp1 _] Hwd. split.
  - intros Hf. destruct (wp_allocproc_full forkret_addr trapret_addr stk s
      (fun r t => r = None /\ quiet s t)) as (r & t & Hrun & -> & Hq); try done.
    exists t. split; [|done]. unfold ProcOps.fork. by rewrite (bind_Ok _ _ _ _ _ Hrun).
  - intros np q o e Hf [Hq1 _] Hfe Ho.
    pose proof (first_unused_lookup _ _ _ Hf) as [_ Hun].
    destruct (wp_fork forkret_addr trapret_addr stk s i p wd np q o e
      (fun r t => r = fork_result (nextpid s) o /\
        quiet (with_nextpid (s32 (nextpid s + 1)) (with_env e (with_procs
          (<[np := fork_slot forkret_addr trapret_addr i p (nextpid s) (s32 (ticks s)) q o]>
          (procs s)) s))) t)) as (r & t & Hrun & -> & Hq); try done.
    { congruence. }
    destruct (quiet_fields _ _ Hq) as (Htp & _ & _ & _ & _ & Htc & Hte).
    exists t, (fork_slot forkret_addr trapret_addr i p (nextpid s) (s32 (ticks s)) q o).
    simpl in Htc. rewrite Htc.
    destruct o as [|k|k d]; [..|by destruct (Ho k d)]; split_and!; try done; apply Hq.
Qed.

(** * exit *)

Lemma existsb_orphan_wake_all i cs ps :
  existsb (orphan_zombie i) (wake_all cs <$> ps) = existsb (orphan_zombie i) ps.
Proof.
  revert ps. induction cs as [|c cs IH]; intros ps.
  - by rewrite (list_fmap_id ps : wake_all [] <$> ps = ps).
  - change (wake_all (c :: cs)) with (wake_all cs ∘ wake (Some c)).
    by rewrite list_fmap_compose, IH, existsb_orphan_wake.
Qed.

(** Another process after the exit of process [i]. *)
Lemma exit_table_lookup i ip st now cs p ps j q :
  ps !! j = Some q -> j <> i ->
  exit_table i ip st now cs p ps !! j = Some (
    let q1 := adopt i ip (wake (ChProc <$> parent p) (wake_all cs q)) in
    if existsb (orphan_zombie i) ps then wake (ChProc <$> ip) q1 else q1).
Proof.
  intros Hq Hj. unfold exit_table. rewrite list_lookup_insert_ne by done.
  unfold reparented. rewrite drop_0, existsb_orphan_wake, existsb_orphan_wake_all. simpl take.
  rewrite app_nil_l. case_match; rewrite !list_lookup_fmap, Hq; done.
Qed.

Lemma wake_fields c q :
  pid (wake c q) = pid q /\ parent (wake c q) = parent q /\ chan (wake c q) = chan q /\
  (state q <> SLEEPING -> state (wake c q) = state q) /\
  (state (wake c q) = SLEEPING \/ state (wake c q) = RUNNABLE \/ state (wake c q) = state q).
Proof. rewrite wake_spec. case_decide as D; simpl; tauto. Qed.

Lemma wake_all_fields cs q :
  pid (wake_all cs q) = pid q /\ parent (wake_all cs q) = parent q /\
  chan (wake_all cs q) = chan q /\
  (state q <> SLEEPING -> state (wake_all cs q) = state q) /\
  (state q = SLEEPING -> state (wake_all cs q) = SLEEPING \/ state (wake_all cs q) = RUNNABLE).
Proof.
  revert q. induction cs as [|c cs IH]; intros q; [simpl; tauto|].
  change (wake_all (c :: cs) q) with (wake_all cs (wake (Some c) q)).
  destruct (IH (wake (Some c) q)) as (-> & -> & -> & A & B).
  rewrite wake_spec in *. case_decide as D; simpl in *; [|tauto].
  destruct D as [-> _]. split_and!; try done. intros _. right. by apply A.
Qed.

(** The other processes: pid kept, children handed to init, sleepers at most
    woken, and everybody who waits for the news awake. *)
Lemma exit_table_others i ip st now cs p ps j q :
  ps !! j = Some q -> j <> i ->
  exists q', exit_table i ip st now cs p ps !! j = Some q' /\ pid q' = pid q /\
    parent q' = (if decide (parent q = Some i) then ip else parent q) /\
    (state q <> SLEEPING -> state q' = state q) /\
    (state q = SLEEPING -> state q' = SLEEPING \/ state q' = RUNNABLE) /\
    (state q = SLEEPING -> chan q = ChProc <$> parent p -> state q' = RUNNABLE) /\
    (state q = SLEEPING -> chan q = ChProc <$> ip -> existsb (orphan_zombie i) ps = true ->
       state q' = RUNNABLE).
Proof.
  intros Hq Hj. eexists. split; [by apply exit_table_lookup|]. cbv zeta.
  destruct (wake_all_fields cs q) as (A1 & A2 & A3 & A4 & A5).
  set (r := wake_all cs q) in *.
  assert (forall x, pid (adopt i ip x) = pid x /\ state (adopt i ip x) = state x /\
    chan (adopt i ip x) = chan x /\
    parent (adopt i ip x) = if decide (parent x = Some i) then ip else parent x) as Had
    by (intros x; unfold adopt; by case_decide).
  destruct (Had (wake (ChProc <$> parent p) r)) as (B1 & B2 & B3 & B4).
  set (u := adopt i ip _) in *.
  rewrite (wake_spec _ r) in B1, B2, B3, B4. rewrite (wake_spec _ u).
  rewrite <-A1, <-A2, <-A3 in *. clearbody r u.
  assert (state q = SLEEPING -> chan r = ChProc <$> ip ->
    ~ (state u = SLEEPING /\ chan u = ChProc <$> ip) -> state u = RUNNABLE) as Hip.
  { intros Hs Hch Hn. destruct (A5 Hs) as [E1|E1]; repeat case_decide; simpl in *;
      try congruence; destruct Hn; split; congruence. }
  destruct (existsb _ ps); repeat case_decide; simpl in *;
    split_and!; try done; try (by intros; apply Hip); intuition congruence.
Qed.

(** C9. exit of a process other than init: it becomes a ZOMBIE holding its
    status and the time, with its files and directory dropped and its pid and
    parent kept; its children belong to init; nobody else's pid or parent
    changes; a parent asleep in wait is woken, and so is init if it inherits a
    zombie; and the process enters the scheduler with ptable.lock held. *)
Theorem exit_becomes_zombie st s i p dir cs e :
  lock_free s -> ncli (mycpu s) = 0 ->
  curproc s = Some i -> initproc s <> Some i ->
  length (procs s) = NPROC -> procs s !! i = Some p -> state p = RUNNING ->
  shaped p -> cwd p = Some dir -> parent p <> Some i ->
  exit_env (ofile p) dir (env s) = Ok (cs, e) ->
  exists t z, exit stk st s = Ok (tt, t) /\ procs t !! i = Some z /\
    state z = ZOMBIE /\ exit_status z = st /\ ttime z = s32 (ticks s) /\ pid z = pid p /\
    parent z = parent p /\ ofile z = replicate NOFILE None /\ cwd z = None /\
    (forall j q, procs s !! j = Some q -> j <> i ->
       exists q', procs t !! j = Some q' /\ pid q' = pid q /\
         parent q' = (if decide (parent q = Some i) then initproc s else parent q) /\
         (state q <> SLEEPING -> state q' = state q) /\
         (state q = SLEEPING -> chan q = ChProc <$> parent p -> state q' = RUNNABLE) /\
         (state q = SLEEPING -> chan q = ChProc <$> initproc s ->
            existsb (orphan_zombie i) (procs s) = true -> state q' = RUNNABLE)) /\
    env t = e /\ held t.
Proof.
  intros Hs Hn Hc Hip Hl Hp Hst [Hof _] Hcwd Hpar Henv.
  destruct (wp_exit stk st s i p dir cs e (fun _ t => held t /\ core t = core (with_env e (with_procs
       (exit_table i (initproc s) st (s32 (ticks s)) cs p (procs s)) s))))
    as ([] & t & Hrun & Hh & Hcore); [done..|].
  pose proof (core_eq procs _ _ (fun _ => eq_refl) Hcore) as Htp. simpl in Htp.
  exists t, (zombie_of st (s32 (ticks s)) p). split_and!; try done.
  - rewrite Htp. unfold exit_table. apply list_lookup_insert_eq.
    rewrite length_reparented, !length_fmap, Hl. rewrite <-Hl. by eapply lookup_lt_Some.
  - intros j q Hq Hj. rewrite Htp.
    destruct (exit_table_others i (initproc s) st (s32 (ticks s)) cs p (procs s) j q Hq Hj)
      as (q' & ? & ? & ? & ? & _ & ? & ?).
    by exists q'.
  - exact (core_eq env _ _ (fun _ => eq_refl) Hcore).
Qed.

(** * wait *)

Lemma wait_unfold status : wait stk status = (acquire_pt stk;; wait_pass stk status false).
Proof. done. Qed.

(** wait, on every path: with an exited child it frees the child's kernel
    stack, page table and slot and returns its pid, storing the status if the
    caller asked for it; with no children, or when killed, it returns -1 and
    changes nothing; otherwise the caller is left SLEEPING on its own address
    with ptable.lock held until the scheduler has switched away. *)
Lemma wait_cases s i p status :
  lock_free s -> ncli (mycpu s) = 0 -> length (procs s) = NPROC ->
  curproc s = Some i -> procs s !! i = Some p ->
  match find_zombie i (procs s) with
  | Some (j, q) => forall e, reap_env q (env s) = Ok (tt, e) ->
      exists t c, wait stk status s =
          Ok (WaitDone (pid q) (if status =? 0 then None else Some (exit_status q)) None, t) /\
        procs t = <[j := c]> (procs s) /\ state c = UNUSED /\ pid c = 0 /\ parent c = None /\
        killed c = 0 /\ kstack c = 0 /\ env t = e /\ lock_free t
  | None =>
      if negb (has_child i (procs s)) || negb (killed p =? 0) then
        exists t, wait stk status s = Ok (WaitDone (-1) None None, t) /\ quiet s t
      else exists t c, wait stk status s = Ok (WaitSleeping (intena (mycpu t)), t) /\
        procs t = <[i := c]> (procs s) /\ state c = SLEEPING /\ chan c = Some (ChProc i) /\
        env t = env s /\ held t
  end.
Proof.
  intros Hs Hn Hl Hc Hp. rewrite wait_unfold.
  pose proof (fun Q => wp_wait stk s i p status false Q Hs Hn Hl Hc Hp) as Hw.
  destruct (find_zombie i (procs s)) as [[j q]|].
  - intros e He.
    destruct (Hw (fun r t => r = WaitDone (pid q) (if negb (status =? 0) then Some (exit_status q)
      else None) None /\ quiet (with_env e (with_procs (<[j := buried q]> (procs s)) s)) t))
      as (r & t & Hrun & -> & Hq).
    { exists e. split; [done|]. intros t Ht. done. }
    destruct (quiet_fields _ _ Hq) as (Htp & _ & _ & _ & _ & _ & Hte).
    exists t, (buried q). split_and!; try done; [|apply Hq].
    rewrite Hrun. by destruct (status =? 0).
  - destruct (negb _ || negb _).
    + destruct (Hw (fun r t => r = WaitDone (-1) None None /\ quiet s t))
        as (r & t & Hrun & -> & Hq); [done|]. by exists t.
    + destruct (Hw (fun r t => r = WaitSleeping (intena (mycpu t)) /\ held t /\
        core t = core (with_procs (<[i := slept (npolicy s) (ChProc i) p]> (procs s)) s)))
        as (r & t & Hrun & -> & Hh & Hcore); [done|].
      exists t, (slept (npolicy s) (ChProc i) p). split_and!; try done.
      * exact (core_eq procs _ _ (fun _ => eq_refl) Hcore).
      * apply slept_state.
      * unfold slept. by case_match.
      * exact (core_eq env _ _ (fun _ => eq_refl) Hcore).
Qed.

(** Only the new zombie is there for the parent to find. *)
Lemma exit_table_zombie i ip st now cs p ps j pj :
  ps !! i = Some p -> parent p = Some j -> i <> j -> parent pj <> Some j ->
  (forall k q, ps !! k = Some q -> state q = ZOMBIE ->
     parent q <> Some j /\ parent q <> Some i) ->
  find_zombie j (<[j := pj]> (exit_table i ip st now cs p ps)) = Some (i, zombie_of st now p).
Proof.
  intros Hp Hpar Hij Hpj Hz. assert (i < length ps)%nat by by eapply lookup_lt_Some.
  assert (length (exit_table i ip st now cs p ps) = length ps) as Hlen.
  { unfold exit_table. by rewrite length_insert, length_reparented, !length_fmap. }
  apply list_find_Some. split_and!.
  - rewrite list_lookup_insert_ne by done. unfold exit_table. apply list_lookup_insert_eq.
    by rewrite length_reparented, !length_fmap.
  - by split.
  - intros k y Hk Hki [Hyp Hys]. rewrite list_lookup_insert_dec in Hk. case_decide as D.
    { destruct D as [-> _]. injection Hk as <-. done. }
    destruct (lookup_lt_is_Some_2 ps k) as [q Hq].
    { rewrite <-Hlen. by eapply lookup_lt_Some. }
    destruct (exit_table_others i ip st now cs p ps k q Hq ltac:(lia))
      as (q' & Hq' & _ & E2 & E3 & E4 & _).
    assert (q' = y) as -> by congruence.
    assert (state q = ZOMBIE) as Hqz.
    { destruct (decide (state q = SLEEPING)) as [Hsl|Hsl]; [|by rewrite <-E3].
      destruct (E4 Hsl); congruence. }
    destruct (Hz k q Hq Hqz) as [N1 N2]. case_decide; congruence.
Qed.

(** C13. exit hands its status to wait: after [exit st], when the parent next
    runs wait (nothing but its own slot having changed meanwhile, and no other
    dead child being around) it gets the child's pid and [st], and the slot is
    free again. *)
Theorem exit_wait_handover st s i p j dir cs e :
  lock_free s -> ncli (mycpu s) = 0 ->
  curproc s = Some i -> initproc s <> Some i ->
  length (procs s) = NPROC -> procs s !! i = Some p -> state p = RUNNING ->
  shaped p -> cwd p = Some dir -> parent p = Some j -> i <> j -> (j < NPROC)%nat ->
  exit_env (ofile p) dir (env s) = Ok (cs, e) ->
  (forall k q, procs s !! k = Some q -> state q = ZOMBIE ->
     parent q <> Some j /\ parent q <> Some i) ->
  exists t, exit stk st s = Ok (tt, t) /\
    forall u pj status e', lock_free u -> ncli (mycpu u) = 0 -> curproc u = Some j ->
      procs u = <[j := pj]> (procs t) -> parent pj <> Some j -> status <> 0 ->
      reap_env (zombie_of st (s32 (ticks s)) p) (env u) = Ok (tt, e') ->
      exists v c, wait stk status u = Ok (WaitDone (pid p) (Some st) None, v) /\
        procs v = <[i := c]> (procs u) /\ state c = UNUSED.
Proof.
  intros Hs Hn Hc Hip Hl Hp Hst [Hof _] Hcwd Hpar Hij Hj Henv Hz.
  destruct (wp_exit stk st s i p dir cs e (fun _ t => core t = core (with_env e (with_procs
       (exit_table i (initproc s) st (s32 (ticks s)) cs p (procs s)) s))))
    as ([] & t & Hrun & Hcore); try done; [congruence|].
  pose proof (core_eq procs _ _ (fun _ => eq_refl) Hcore) as Htp. simpl in Htp.
  exists t. split; [done|]. intros u pj status e' Hu Hnu Hcu Hpu Hpj Hstat He.
  assert (length (procs t) = NPROC) as Hlt.
  { rewrite Htp. unfold exit_table. by rewrite length_insert, length_reparented, !length_fmap. }
  destruct (wp_wait stk u j pj status false (fun r v => r = WaitDone (pid p) (Some st) None /\
    quiet (with_env e' (with_procs (<[i := buried (zombie_of st (s32 (ticks s)) p)]> (procs u)) u)) v))
    as (r & v & Hrun' & -> & Hq); try done.
  - by rewrite Hpu, length_insert.
  - rewrite Hpu. apply list_lookup_insert_eq. by rewrite Hlt.
  - assert (find_zombie j (procs u) = Some (i, zombie_of st (s32 (ticks s)) p)) as ->
      by (rewrite Hpu, Htp; by apply exit_table_zombie).
    exists e'. split; [done|]. intros v Hv. split; [|done]. by destruct (Z.eqb_spec status 0).
  - destruct (quiet_fields _ _ Hq) as (Hvp & _). by exists v, (buried (zombie_of st (s32 (ticks s)) p)).
Qed.

(** * kill *)

(** kill finds the first slot with the given pid: it is marked killed and,
    if asleep, made RUNNABLE so that it can notice; the call returns 0 and no
    other slot changes.  Without such a slot it returns -1 and changes nothing. *)
Lemma kill_marks s id :
  lock_free s -> length (procs s) = NPROC ->
  match first_pid id (procs s) with
  | Some (j, p) => exists t q, kill stk id s = Ok (0, t) /\ procs t = <[j := q]> (procs s) /\
      killed q = 1 /\ pid q = id /\ parent q = parent p /\
      state q = (if decide (state p = SLEEPING) then RUNNABLE else state p) /\ lock_free t
  | None => exists t, kill stk id s = Ok (-1, t) /\ quiet s t
  end.
Proof.
  intros Hs Hl.
  destruct (wp_kill stk id s (fun r t => match first_pid id (procs s) with
     | Some (j, p) => r = 0 /\ quiet (with_procs (<[j := kill_proc p]> (procs s)) s) t
     | None => r = -1 /\ quiet s t
     end)) as (r & t & Hrun & HQ); [done..| |].
  { intros t. by destruct (first_pid id (procs s)) as [[j p]|]. }
  destruct (first_pid id (procs s)) as [[j p]|] eqn:Hf; destruct HQ as [-> Hq].
  - apply list_find_Some in Hf as (_ & Hpid & _).
    exists t, (kill_proc p). unfold kill_proc. destruct (quiet_fields _ _ Hq) as (Htp & _).
    split_and!; try done; try (by case_decide). apply Hq.
  - by exists t.
Qed.

(** kill does not look at the state of the slot and allocproc does not
    clear the flag: kill(0) succeeds as soon as some slot is free (a freed slot
    has pid 0), and the next process forked into that slot is born killed. *)
Lemma kill_zero_poisons s i p wd np q k d e :
  lock_free s -> length (procs s) = NPROC ->
  curproc s = Some i -> procs s !! i = Some p -> state p = RUNNING ->
  shaped p -> shaped q -> cwd p = Some wd ->
  first_unused (procs s) = Some (np, q) -> first_pid 0 (procs s) = Some (np, q) ->
  fork_env p wd (env s) = Ok (ForkOk k d, e) ->
  exists t u c, kill stk 0 s = Ok (0, t) /\ fork t = Ok (nextpid s, u) /\
    procs u !! np = Some c /\ pid c = nextpid s /\ state c = RUNNABLE /\ killed c = 1.
Proof.
  intros Hs Hl Hc Hp Hst [Hp1 _] [Hq1 _] Hwd Hf Hf0 Hfe.
  pose proof (first_unused_lookup _ _ _ Hf) as [Hnp Hun].
  assert (i <> np) as Hne by congruence.
  assert (np < length (procs s))%nat as Hlt by by eapply lookup_lt_Some.
  destruct (wp_kill stk 0 s (fun r t => r = 0 /\
     quiet (with_procs (<[np := set_killed 1 q]> (procs s)) s) t)) as (r & t & Hrun & -> & Hq);
    [done..| |].
  { intros t. rewrite Hf0. unfold kill_proc. by rewrite decide_False by congruence. }
  destruct (quiet_fields _ _ Hq) as (Htp & _ & Htn & _ & Htt & Htc & Hte). simpl in *.
  destruct (wp_fork forkret_addr trapret_addr stk t i p wd np (set_killed 1 q) (ForkOk k d) e
    (fun r u => r = nextpid t /\ quiet (with_nextpid (s32 (nextpid t + 1)) (with_env e (with_procs
      (<[np := fork_slot forkret_addr trapret_addr i p (nextpid t) (s32 (ticks t)) (set_killed 1 q)
         (ForkOk k d)]> (procs t)) t))) u)) as (r & u & Hfork & -> & Hu); try done.
  - apply Hq.
  - congruence.
  - rewrite Htp. by rewrite list_lookup_insert_ne.
  - congruence.
  - rewrite Htp. apply list_find_Some in Hf as (_ & _ & Hbefore). apply list_find_Some.
    split_and!; [by apply list_lookup_insert_eq|done|].
    intros j y Hj Hlt'. rewrite list_lookup_insert_ne in Hj by lia. by apply (Hbefore j y).
  - by rewrite Hte.
  - destruct (quiet_fields _ _ Hu) as (Hup & _). simpl in Hup.
    exists t, u, (child_of forkret_addr trapret_addr i p (nextpid t) k d (s32 (ticks t)) (set_killed 1 q)).
    rewrite <-Htn. split_and!; try done. rewrite Hup, Htp, list_insert_insert_eq.
    by apply list_lookup_insert_eq.
Qed.

End life.

(** * The theorems on the small kernel *)

Lemma lock_free_demo (s : pt Demo.env) :
  (locked (ptlock s) =? 0) = true -> (ncli (mycpu s) =? 0) = true -> lock_free s.
Proof. intros. bools. split; [done|]. split; lia. Qed.

Ltac demo := vm_compute; (reflexivity || (split; reflexivity) || (intros [=]) || lia).

Lemma fork_copies_witness :
  exists t, ProcOps.fork 100 200 Demo.stk Demo.init_runs = Ok (nextpid Demo.init_runs, t).
Proof.
  destruct (fork_copies 100 200 Demo.stk Demo.init_runs 0 (Demo.slot Demo.init_runs 0) 1 1
    (Demo.slot Demo.init_runs 1) 12288 16384 [20480; 24576])
    as (t & c & Hrun & _);
    [apply lock_free_demo; demo|demo..| |demo|exists t; exact Hrun].
  apply (Forall_forallb _ (fun o => bool_decide (o = None))); [intros o Ho; by bools|demo].
Defined.

Lemma exit_becomes_zombie_witness :
  exists t z, exit Demo.stk 7 Demo.child_runs = Ok (tt, t) /\ procs t !! 1%nat = Some z /\
    state z = ZOMBIE /\ exit_status z = 7.
Proof.
  destruct (exit_becomes_zombie Demo.stk 7 Demo.child_runs 1 (Demo.slot Demo.child_runs 1) 1
    [] [20480; 24576]) as (t & z & Hrun & Hz & Hst & Hex & _);
    [apply lock_free_demo; demo|demo..|exists t, z; split_and!; [exact Hrun|exact Hz|exact Hst|exact Hex]].
Defined.

Lemma exit_wait_handover_witness :
  exists v, wait Demo.stk 1 Demo.init_again =
    Ok (WaitDone (pid (Demo.slot Demo.child_runs 1)) (Some 7) None, v).
Proof.
  destruct (exit_wait_handover Demo.stk 7 Demo.child_runs 1 (Demo.slot Demo.child_runs 1) 0 1
    [] [20480; 24576]) as (t & Hrun & Hwait); [apply lock_free_demo; demo|demo..| |].
  - intros k q Hq Hz. exfalso. revert Hz.
    change ((fun q => state q <> ZOMBIE) q). revert k q Hq. apply Forall_lookup.
    apply (Forall_forallb _ (fun q => negb (bool_decide (state q = ZOMBIE))));
      [intros q Hq; by bools|demo].
  - assert (t = Demo.after (exit Demo.stk 7) Demo.child_runs) as ->
      by (unfold Demo.after; rewrite Hrun; reflexivity).
    destruct (Hwait Demo.init_again (Demo.slot Demo.init_again 0) 1 [16384; 12288; 20480; 24576])
      as (v & c & Hw & _); [apply lock_free_demo; demo|demo..|exists v; exact Hw].
Defined.

