(* ===== verification/Kalloc.v ===== *)
(** kalloc.c: the allocator of physical pages.

    The free list is threaded through the free pages themselves: the first word
    of a free page is the address of the next one.  The model keeps it there,
    in the byte memory, so the theorems also say what clients must not do. *)

From S2P Require Import Prelude StringC Spinlock Proc.

(** memlayout.h and mmu.h *)
Definition PHYSTOP : Z := 0xE000000.

Definition V2P (a : Z) : Z := u32 (u32 a - KERNBASE).

Definition P2V (a : Z) : Z := a + KERNBASE.

Definition PGROUNDUP (sz : Z) : Z := Z.land (u32 (sz + PGSIZE - 1)) (u32 (Z.lnot (PGSIZE - 1))).

Definition PGROUNDDOWN (a : Z) : Z := Z.land a (u32 (Z.lnot (PGSIZE - 1))).

(** Masking off the offset within a page. *)
Lemma page_mask x : 0 <= x < 2 ^ 32 -> Z.land x (u32 (Z.lnot (PGSIZE - 1))) = x - x mod PGSIZE.
Proof. intros Hx. exact (land_high x 12 Hx ltac:(lia)). Qed.

Lemma PGROUNDUP_spec a :
  0 <= a <= 2 ^ 32 - PGSIZE ->
  PGROUNDUP a mod PGSIZE = 0 /\ a <= PGROUNDUP a < a + PGSIZE.
Proof.
  intros Ha. unfold PGROUNDUP. rewrite u32_small by (unfold PGSIZE in *; lia).
  rewrite page_mask by (unfold PGSIZE in *; lia). unfold PGSIZE in *. zdm.
Qed.

Lemma PGROUNDDOWN_spec a :
  0 <= a < 2 ^ 32 -> PGROUNDDOWN a mod PGSIZE = 0 /\ a - PGSIZE < PGROUNDDOWN a <= a.
Proof.
  intros Ha. unfold PGROUNDDOWN. rewrite page_mask by done. unfold PGSIZE in *. zdm.
Qed.

(** kmem, the memory it manages, and the executing CPU. *)
Record kmem := mkKmem {
  klock : spinlock;
  use_lock : Z;
  freelist : Z;
  ram : mem;
  kcpu : cpu }.

Definition with_ram (m : mem) (s : kmem) : kmem :=
  mkKmem (klock s) (use_lock s) (freelist s) m (kcpu s).

Definition with_freelist (p : Z) (s : kmem) : kmem :=
  mkKmem (klock s) (use_lock s) p (ram s) (kcpu s).

Definition with_use_lock (u : Z) (s : kmem) : kmem :=
  mkKmem (klock s) u (freelist s) (ram s) (kcpu s).

Definition with_klock (l : spinlock) (c : cpu) (s : kmem) : kmem :=
  mkKmem l (use_lock s) (freelist s) (ram s) c.

Section kalloc.
(** [kend]: the linker's symbol end; [stk]: what getcallerpcs records. *)
Context (kend : Z) (stk : list Z).

Abbreviation K := (M kmem).

Definition acquire_k : K unit := fun s =>
  obind (acquire stk (kcpu s) (klock s)) (fun '(c, l) => Ok (tt, with_klock l c s)).

Definition release_k : K unit := fun s =>
  obind (release (kcpu s) (klock s)) (fun '(c, l) => Ok (tt, with_klock l c s)).

(** if(kmem.use_lock) acquire; ... if(kmem.use_lock) release *)
Definition locked_k {A} (body : K A) : K A :=
  u ← gets use_lock;
  when (negb (u =? 0)) acquire_k;;
  a ← body;
  u ← gets use_lock;
  when (negb (u =? 0)) release_k;;
  mret a.

Definition kfree (v : Z) : K unit :=
  if negb (v mod PGSIZE =? 0) || (v <? kend) || (PHYSTOP <=? V2P v) then panic "kfree"
  else
    modify (fun s => with_ram (memset (ram s) v 1 PGSIZE) s);;
    locked_k (
      r ← gets freelist;
      modify (fun s => with_ram (store32 (ram s) v r) s);;
      modify (with_freelist v)).

Definition kalloc : K Z :=
  locked_k (
    r ← gets freelist;
    when (negb (r =? 0)) (modify (fun s => with_freelist (load32 (ram s) r) s));;
    mret r).

(** The loop of freerange; [fuel] is the number of pages that fit. *)
Fixpoint freerange_loop (fuel : nat) (p vend : Z) : K unit :=
  match fuel with
  | O => mret tt
  | S fuel =>
      if p + PGSIZE <=? vend then kfree p;; freerange_loop fuel (p + PGSIZE) vend
      else mret tt
  end.

Definition freerange (vstart vend : Z) : K unit :=
  let p := PGROUNDUP vstart in
  freerange_loop (S (Z.to_nat ((vend - p) / PGSIZE))) p vend.

Definition kinit1 (vstart vend : Z) : K unit :=
  modify (fun s => with_klock (initlock "kmem" (klock s)) (kcpu s) s);;
  modify (with_use_lock 0);;
  freerange vstart vend.

Definition kinit2 (vstart vend : Z) : K unit :=
  freerange vstart vend;;
  modify (with_use_lock 1).

(** * Invariant *)

(** A page the allocator accepts. *)
Definition page_ok (v : Z) : Prop :=
  v mod PGSIZE = 0 /\ kend <= v /\ KERNBASE < v /\ v < KERNBASE + PHYSTOP.

(** The list of pages reached from [p]. *)
Fixpoint chain (m : mem) (p : Z) (l : list Z) : Prop :=
  match l with
  | [] => p = 0
  | a :: l => p = a /\ chain m (load32 m a) l
  end.

(** The allocator's lock is free (or not in use yet). *)
Definition kquiet (s : kmem) : Prop :=
  locked (klock s) = 0 /\ cli_ok (kcpu s).

Record kinv (free : list Z) (s : kmem) : Prop := {
  k_chain : chain (ram s) (freelist s) free;
  k_nodup : NoDup free;
  k_pages : Forall page_ok free;
  k_bytes : byte_mem (ram s);
  k_quiet : kquiet s }.

(** * The operations *)

Lemma wp_locked_k {A} (body : K A) s (Q : A -> kmem -> Prop) :
  kquiet s ->
  (forall s1, ram s1 = ram s -> freelist s1 = freelist s -> use_lock s1 = use_lock s ->
     wp body s1 (fun a s2 => klock s2 = klock s1 /\ kcpu s2 = kcpu s1 /\ use_lock s2 = use_lock s1 /\
       forall s3, kquiet s3 -> ram s3 = ram s2 -> freelist s3 = freelist s2 ->
         use_lock s3 = use_lock s2 -> Q a s3)) ->
  wp (locked_k body) s Q.
Proof.
  intros [Hl Hc] Hb. unfold locked_k. apply wp_bind, wp_gets, wp_bind. apply wp_when; intros Hu.
  - eapply wp_run.
    { unfold acquire_k. rewrite acquire_free by done. simpl. reflexivity. }
    apply wp_bind. eapply wp_mono; [by apply Hb|].
    intros a s2 (E1 & E2 & E3 & HQ). simpl in E1, E2, E3.
    apply wp_bind, wp_gets, wp_bind. rewrite E3. apply wp_when; [|congruence]. intros _.
    eapply wp_run.
    { unfold release_k. rewrite E1, E2, release_held by done. simpl. reflexivity. }
    apply wp_ret, HQ; try done. split; [done|]. by apply popped_ok.
  - apply wp_bind. eapply wp_mono; [by apply Hb|].
    intros a s2 (E1 & E2 & E3 & HQ).
    apply wp_bind, wp_gets, wp_bind. rewrite E3. apply wp_when; [congruence|]. intros _.
    apply wp_ret, HQ; try done. unfold kquiet. by rewrite E1, E2.
Qed.

(** Changes of memory that leave the free pages alone keep the chain. *)
Lemma chain_ext m m' p l :
  (forall a x, a ∈ l -> a <= x < a + PGSIZE -> m' x = m x) -> chain m p l -> chain m' p l.
Proof.
  revert p. induction l as [|a l IH]; intros p Hm Hc; simpl in *; [done|].
  destruct Hc as [-> Hc]. split; [done|].
  rewrite (load32_ext m' m) by (intros x Hx; apply (Hm a); [by left|unfold PGSIZE; lia]).
  apply IH; [|done]. intros b x Hb. apply Hm. by right.
Qed.

(** Distinct pages do not overlap. *)
Lemma pages_disjoint a b x y :
  a mod PGSIZE = 0 -> b mod PGSIZE = 0 -> a <> b ->
  a <= x < a + PGSIZE -> b <= y < b + PGSIZE -> x <> y.
Proof. unfold PGSIZE. intros. zdm. Qed.

Lemma page_ok_nonzero v : page_ok v -> v <> 0 /\ 0 <= v < 2 ^ 32.
Proof. unfold page_ok, KERNBASE, PHYSTOP. lia. Qed.

Lemma kfree_guard v :
  page_ok v -> negb (v mod PGSIZE =? 0) || (v <? kend) || (PHYSTOP <=? V2P v) = false.
Proof.
  intros Hv. pose proof (page_ok_nonzero v Hv) as [_ Hr]. destruct Hv as (H1 & H2 & H3 & H4).
  rewrite H1. simpl. destruct (Z.ltb_spec v kend); [lia|]. simpl.
  apply Z.leb_gt. unfold V2P. rewrite (u32_small v), u32_small by (unfold KERNBASE in *; lia).
  unfold KERNBASE in *. lia.
Qed.

(** kfree pushes the page. *)
Lemma wp_kfree v free s (Q : unit -> kmem -> Prop) :
  kinv free s -> page_ok v -> v ∉ free ->
  (forall t, kinv (v :: free) t -> use_lock t = use_lock s ->
     (forall x, x < v \/ v + PGSIZE <= x -> ram t x = ram s x) -> Q tt t) ->
  wp (kfree v) s Q.
Proof.
  intros [Hch Hnd Hpg Hb Hq] Hv Hnin HQ. unfold kfree. rewrite kfree_guard by done.
  apply wp_bind, wp_modify, wp_locked_k; [done|]. simpl. intros s1 E1 E2 E3.
  apply wp_bind, wp_gets, wp_bind, wp_modify, wp_modify. simpl. split_and!; try done.
  intros t Hqt Et1 Et2 Et3. simpl in *.
  pose proof (page_ok_nonzero v Hv) as [Hv0 _].
  assert (forall x, x < v \/ v + PGSIZE <= x -> ram t x = ram s x) as Hfr.
  { intros x Hx. rewrite Et1, store32_byte, E1, memset_byte by (unfold PGSIZE; lia).
    repeat case_match; bools; unfold PGSIZE in *; lia || done. }
  apply HQ; [|congruence|done]. split; try done.
  - rewrite Et2. split; [done|]. assert (load32 (ram t) v = freelist s) as ->.
    { rewrite Et1, load32_store32, E2. destruct free as [|a free]; [by rewrite Hch|].
      destruct Hch as [-> _]. apply Forall_cons in Hpg as [Ha _]. apply u32_small.
      by apply page_ok_nonzero. }
    eapply chain_ext; [|exact Hch]. intros a x Ha Hx. apply Hfr.
    assert (a <> v) by congruence. rewrite Forall_forall in Hpg. destruct (Hpg a Ha) as [Hma _].
    destruct Hv as [Hmv _]. unfold PGSIZE in *. zdm.
  - by constructor.
  - by constructor.
  - rewrite Et1, E1. apply store32_byte_mem, memset_byte_mem; [unfold PGSIZE; lia|done].
Qed.

(** kalloc pops one, or reports that there is none. *)
Lemma wp_kalloc free s (Q : Z -> kmem -> Prop) :
  kinv free s ->
  (forall t, use_lock t = use_lock s -> ram t = ram s ->
     match free with
     | [] => kinv [] t -> Q 0 t
     | v :: free => kinv free t -> Q v t
     end) ->
  wp kalloc s Q.
Proof.
  intros [Hch Hnd Hpg Hb Hq] HQ. apply wp_locked_k; [done|]. intros s1 E1 E2 E3.
  apply wp_bind, wp_gets, wp_bind. destruct free as [|v free]; simpl in Hch.
  - rewrite E2, Hch. apply wp_when; [done|]. intros _. apply wp_ret. split_and!; try done.
    intros t Hqt Et1 Et2 Et3. apply HQ; try congruence. split; try done; [|by rewrite Et1, E1].
    rewrite Et2. simpl. congruence.
  - destruct Hch as [Hf Hch]. apply Forall_cons in Hpg as [Hv Hpg].
    apply NoDup_cons in Hnd as [_ Hnd]. pose proof (page_ok_nonzero v Hv) as [Hv0 _].
    rewrite E2, Hf. apply wp_when; intros Hz; bools; [|done].
    apply wp_modify, wp_ret. split_and!; try done. intros t Hqt Et1 Et2 Et3. simpl in *.
    apply HQ; try congruence. split; try done; [|by rewrite Et1, E1].
    rewrite Et2, Et1, E1. done.
Qed.

(** * Initialisation *)

(** The pages of a range, in the order freerange meets them. *)
Definition pages_from (p : Z) (n : nat) : list Z := (fun i => p + PGSIZE * Z.of_nat i) <$> seq 0 n.

Lemma pages_from_S p n : pages_from p (S n) = p :: pages_from (p + PGSIZE) n.
Proof.
  unfold pages_from. simpl. f_equal; [lia|]. rewrite <-fmap_S_seq, <-list_fmap_compose.
  apply list_fmap_ext. intros i x _. simpl. lia.
Qed.

Lemma elem_of_pages_from p n v :
  v ∈ pages_from p n <-> exists i, (i < n)%nat /\ v = p + PGSIZE * Z.of_nat i.
Proof.
  unfold pages_from. rewrite list_elem_of_fmap. split.
  - intros (i & -> & Hi). apply elem_of_seq in Hi. exists i. split; [lia|done].
  - intros (i & Hi & ->). exists i. split; [done|]. apply elem_of_seq. lia.
Qed.

Lemma wp_freerange_loop n p vend free s (Q : unit -> kmem -> Prop) :
  kinv free s -> Forall page_ok (pages_from p n) -> (forall v, v ∈ pages_from p n -> v ∉ free) ->
  p + PGSIZE * Z.of_nat n <= vend < p + PGSIZE * Z.of_nat n + PGSIZE ->
  (forall t, kinv (rev (pages_from p n) ++ free) t -> use_lock t = use_lock s -> Q tt t) ->
  wp (freerange_loop (S n) p vend) s Q.
Proof.
  revert p free s. induction n as [|n IH]; intros p free s Hk Hok Hnin Hend HQ;
    cbn [freerange_loop].
  - destruct (Z.leb_spec (p + PGSIZE) vend); [lia|]. by apply wp_ret, HQ.
  - destruct (Z.leb_spec (p + PGSIZE) vend); [|unfold PGSIZE in *; lia].
    rewrite pages_from_S in Hok, Hnin, HQ. apply Forall_cons in Hok as [Hp Hok].
    apply wp_bind. eapply wp_kfree; [done|done|apply Hnin; by left|].
    intros t Ht Hu _. apply (IH _ (p :: free)); [done|done| |lia|].
    + intros v Hv. apply not_elem_of_cons. split; [|apply Hnin; by right].
      apply elem_of_pages_from in Hv as (i & _ & ->). unfold PGSIZE. lia.
    + intros u Hku Huu. apply HQ; [|congruence]. simpl. by rewrite <-app_assoc.
Qed.

(** * Clients *)

(** A client allocates, frees what it was given, and writes into the pages it
    holds. *)
Inductive client_step : kmem * list Z -> kmem * list Z -> Prop :=
| client_alloc s t v al : kalloc s = Ok (v, t) -> v <> 0 -> client_step (s, al) (t, v :: al)
| client_nomem s t al : kalloc s = Ok (0, t) -> client_step (s, al) (t, al)
| client_free s t v al al' : al ≡ₚ v :: al' -> kfree v s = Ok (tt, t) -> client_step (s, al) (t, al')
| client_write s a x b al : a ∈ al -> a <= x < a + PGSIZE ->
    client_step (s, al) (with_ram (upd (ram s) x b) s, al).

Definition client_inv (pages : list Z) (c : kmem * list Z) : Prop :=
  exists free, kinv free (fst c) /\ free ++ snd c ≡ₚ pages.

Lemma client_step_inv pages c d :
  NoDup pages -> Forall page_ok pages -> client_inv pages c -> client_step c d -> client_inv pages d.
Proof.
  intros Hnd Hok (free & Hk & Hp) Hs.
  assert (Forall page_ok (snd c)) as Hal.
  { rewrite <-Hp in Hok. by apply Forall_app in Hok as [_ ?]. }
  assert (NoDup (free ++ snd c)) as Hnd' by by rewrite Hp.
  destruct Hs as [s t v al Hr Hv|s t al Hr|s t v al al' Hal' Hr|s a x b al Ha Hx]; simpl in *.
  - destruct (wp_kalloc free s (fun v t => match free with
      | [] => v = 0 | w :: free => v = w /\ kinv free t end) Hk) as (v' & t' & Hr' & HQ).
    { intros u _ _. by destruct free. }
    assert (v' = v /\ t' = t) as [-> ->] by (split; congruence).
    destruct free as [|w free]; [done|]. destruct HQ as [-> HQ]. exists free. split; [done|].
    simpl. by rewrite <-Permutation_middle.
  - destruct (wp_kalloc free s (fun v t => kinv match free with [] => [] | _ :: f => f end t /\
      v = match free with [] => 0 | w :: _ => w end) Hk) as (v' & t' & Hr' & HQ & E).
    { intros u _ _. by destruct free. }
    assert (v' = 0 /\ t' = t) as [-> ->] by (split; congruence).
    destruct free as [|w free]; [by exists []|]. exfalso. subst w.
    rewrite <-Hp in Hok. simpl in Hok. apply Forall_cons in Hok as [H0 _].
    by apply page_ok_nonzero in H0 as [].
  - rewrite Hal' in Hal, Hnd', Hp. apply Forall_cons in Hal as [Hv _].
    assert (v ∉ free) as Hnin.
    { apply NoDup_app in Hnd' as (_ & Hd & _). intros Hin. apply (Hd v Hin). by left. }
    destruct (wp_kfree v free s (fun _ t => kinv (v :: free) t) Hk Hv Hnin) as (u & t' & Hr' & HQ).
    { done. }
    assert (t' = t) as -> by congruence. exists (v :: free). split; [done|].
    simpl. rewrite Permutation_middle. done.
  - exists free. split; [|done]. destruct Hk as [Hch Hn Hpg Hb Hq]. split; try done; simpl.
    + eapply chain_ext; [|exact Hch]. intros c y Hc Hy. apply upd_ne.
      rewrite Forall_forall in Hal, Hpg. destruct (Hal a Ha) as [Hma _], (Hpg c Hc) as [Hmc _].
      assert (c <> a) as Hca.
      { intros ->. apply NoDup_app in Hnd' as (_ & Hd & _). by apply (Hd a). }
      by apply (pages_disjoint c a).
    + by apply upd_byte_mem.
Qed.

(** C16. The allocator hands out each page to one holder at a time: along any
    sequence of allocations, frees of held pages and writes into held pages,
    the free list threaded through memory together with the pages held is
    always the initial set of pages; held pages never overlap, kalloc returns 0
    exactly when every page is held, and freeing a held page never panics. *)
Theorem kalloc_partition pages s0 t al :
  kinv pages s0 -> rtc client_step (s0, []) (t, al) ->
  exists free, kinv free t /\ free ++ al ≡ₚ pages /\
    (forall a b x, a ∈ al -> b ∈ free ++ al -> a <> b ->
       a <= x < a + PGSIZE -> ~ (b <= x < b + PGSIZE)) /\
    (exists v u, kalloc t = Ok (v, u) /\ (v = 0 <-> length al = length pages)) /\
    (forall v, v ∈ al -> exists u, kfree v t = Ok (tt, u)).
Proof.
  intros Hk0 Hr. pose proof (k_nodup _ _ Hk0) as Hnd. pose proof (k_pages _ _ Hk0) as Hok.
  assert (client_inv pages (t, al)) as (free & Hk & Hp).
  { assert (client_inv pages (s0, [])) as H0 by (exists pages; by rewrite app_nil_r).
    revert H0. generalize (s0, @nil Z) (t, al) Hr. clear -Hnd Hok.
    induction 1; eauto using client_step_inv. }
  simpl in Hk, Hp. rewrite <-Hp in Hnd, Hok. exists free. split_and!; try done.
  - intros a b x Ha Hb Hab Hx Hy. rewrite Forall_forall in Hok.
    destruct (Hok a) as [Hma _]; [apply elem_of_app; by right|]. destruct (Hok b) as [Hmb _]; [done|].
    by eapply (pages_disjoint a b x x).
  - destruct (wp_kalloc free t (fun v _ => v = match free with [] => 0 | w :: _ => w end) Hk)
      as (v & u & Hrun & Hv); [intros; by destruct free|].
    exists v, u. split; [done|]. rewrite <-(Permutation_length Hp), length_app.
    destruct free as [|w free]; simpl; [tauto|]. apply Forall_cons in Hok as [Hw _].
    apply page_ok_nonzero in Hw as [Hw _]. split; [congruence|lia].
  - intros v Hv. apply Forall_app in Hok as [_ Hal]. rewrite Forall_forall in Hal.
    apply NoDup_app in Hnd as (_ & Hd & _).
    destruct (wp_kfree v free t (fun _ _ => True) Hk (Hal v Hv)) as ([] & u & Hrun & _); [|done|].
    + intros Hin. by apply (Hd v).
    + by exists u.
Qed.

(** kinit1 puts exactly the whole pages between its bounds on the free
    list: from an empty list, with the bounds above the kernel and below
    PHYSTOP, it returns and the list holds every such page once. *)
Theorem kinit1_pages vstart vend s :
  freelist s = 0 -> byte_mem (ram s) -> cli_ok (kcpu s) ->
  kend <= vstart -> KERNBASE < vstart -> vstart <= vend -> vend <= KERNBASE + PHYSTOP ->
  let p := PGROUNDUP vstart in
  let n := Z.to_nat ((vend - p) / PGSIZE) in
  exists t, kinit1 vstart vend s = Ok (tt, t) /\ kinv (rev (pages_from p n)) t /\
    (forall v, v ∈ pages_from p n <-> v mod PGSIZE = 0 /\ vstart <= v /\ v + PGSIZE <= vend).
Proof.
  intros Hf Hb Hc Hs1 Hs2 Hse He p n.
  destruct (PGROUNDUP_spec vstart) as [Hp1 Hp2]; [unfold KERNBASE, PHYSTOP, PGSIZE in *; lia|].
  fold p in Hp1, Hp2.
  assert (forall v, v ∈ pages_from p n <-> v mod PGSIZE = 0 /\ vstart <= v /\ v + PGSIZE <= vend)
    as Hin.
  { intros v. rewrite elem_of_pages_from. unfold n, PGSIZE in *. split.
    - intros (i & Hi & ->). zdm.
    - intros (H1 & H2 & H3). exists (Z.to_nat ((v - p) / 4096)). split; zdm. }
  set (s1 := with_use_lock 0 (with_klock (initlock "kmem" (klock s)) (kcpu s) s)).
  assert (Forall page_ok (pages_from p n)) as Hok.
  { apply Forall_forall. intros v Hv. apply Hin in Hv as (? & ? & ?).
    repeat split; unfold PGSIZE in *; lia || done. }
  destruct (Z.lt_ge_cases vend p) as [Hlt|Hge].
  - assert (n = 0%nat) as Hn0 by (unfold n, PGSIZE; zdm). rewrite Hn0 in *.
    exists s1. split; [|split; [|done]].
    + unfold kinit1, freerange. fold p.
      assert (Z.to_nat ((vend - p) / PGSIZE) = 0%nat) as -> by done. simpl.
      destruct (Z.leb_spec (p + PGSIZE) vend); [unfold PGSIZE in *; lia|done].
    + split; simpl; try done. apply NoDup_nil_2.
  - destruct (wp_freerange_loop n p vend [] s1 (fun _ t => kinv (rev (pages_from p n)) t))
      as ([] & t & Hrun & Hk).
    + split; simpl; try done. apply NoDup_nil_2.
    + done.
    + intros v _. apply not_elem_of_nil.
    + unfold n, PGSIZE. zdm.
    + intros t Ht _. by rewrite app_nil_r in Ht.
    + by exists t.
Qed.

End kalloc.

(** Three pages above a kernel that ends at 0x80100000. *)
Definition demo_kmem : kmem :=
  mkKmem (mkSpinlock 0 EmptyString None []) 0 0 (fun _ => 0) (mkCpu 0 0 0 false).

Lemma demo_kinv : kinv 0x80100000 [0x80102000; 0x80101000]
  (with_ram (store32 (store32 (fun _ => 0) 0x80102000 0x80101000) 0x80101000 0)
     (with_freelist 0x80102000 demo_kmem)).
Proof.
  split; simpl; try done.
  - apply (bool_decide_eq_true_1 _). vm_compute. reflexivity.
  - repeat constructor; unfold KERNBASE, PHYSTOP; lia || reflexivity.
  - apply store32_byte_mem, store32_byte_mem. intros a. lia.
Qed.

Lemma kalloc_partition_witness :
  exists t al free, rtc (client_step 0x80100000 (replicate 10 0)) (with_ram
      (store32 (store32 (fun _ => 0) 0x80102000 0x80101000) 0x80101000 0)
      (with_freelist 0x80102000 demo_kmem), []) (t, al) /\
    al = [0x80102000] /\ free ++ al ≡ₚ [0x80102000; 0x80101000].
Proof.
  assert (exists t, rtc (client_step 0x80100000 (replicate 10 0)) (with_ram
      (store32 (store32 (fun _ => 0) 0x80102000 0x80101000) 0x80101000 0)
      (with_freelist 0x80102000 demo_kmem), []) (t, [0x80102000])) as [t Ht].
  { eexists. apply rtc_once. eapply client_alloc; [reflexivity|lia]. }
  destruct (kalloc_partition 0x80100000 (replicate 10 0) _ _ _ _ demo_kinv Ht) as (free & _ & Hp & _).
  exists t, [0x80102000], free. done.
Defined.
