(* ===== verification/Vm.v ===== *)
(** vm.c: page directories and page tables in the memory kalloc manages.

    A page directory is the kernel address of its page; its entries and those
    of the page tables are words of the byte memory, read and written at the
    addresses the code computes.  Addresses are 32 bits wide. *)

From S2P Require Import Prelude StringC Spinlock Proc Kalloc.

(** * mmu.h and memlayout.h *)

Definition PTE_P : Z := 1.
Definition PTE_W : Z := 2.
Definition PTE_U : Z := 4.
Definition NPDENTRIES : nat := 1024.
Definition EXTMEM : Z := 0x100000.
Definition DEVSPACE : Z := 0xFE000000.
Definition KERNLINK : Z := KERNBASE + EXTMEM.

Definition PDX (va : Z) : Z := Z.land (Z.shiftr (u32 va) 22) 0x3FF.
Definition PTX (va : Z) : Z := Z.land (Z.shiftr (u32 va) 12) 0x3FF.
Definition PGADDR (d t o : Z) : Z := u32 (Z.lor (Z.lor (Z.shiftl d 22) (Z.shiftl t 12)) o).
Definition PTE_ADDR (pte : Z) : Z := Z.land pte 0xFFFFF000.
Definition PTE_FLAGS (pte : Z) : Z := Z.land pte 0xFFF.

(** pte & PTE_x *)
Definition has (flag pte : Z) : bool := negb (Z.land pte flag =? 0).

(** memmove from memory outside: the bytes [bs] stored from [a] on. *)
Fixpoint write_bytes (m : mem) (a : Z) (bs : list Z) : mem :=
  match bs with
  | [] => m
  | b :: bs => write_bytes (upd m a b) (a + 1) bs
  end.

Section vm.
Context (kend : Z) (stk : list Z).

Abbreviation K := (M kmem).
Abbreviation kalloc := (kalloc stk).
Abbreviation kfree := (kfree kend stk).

Definition ld (a : Z) : K Z := gets (fun s => load32 (ram s) a).
Definition st (a v : Z) : K unit := modify (fun s => with_ram (store32 (ram s) a v) s).
Definition zero_page (a : Z) : K unit := modify (fun s => with_ram (memset (ram s) a 0 PGSIZE) s).

(** The address of the entry, or 0. *)
Definition walkpgdir (pgdir va : Z) (alloc : bool) : K Z :=
  let pde := pgdir + 4 * PDX va in
  e ← ld pde;
  if has PTE_P e then mret (P2V (PTE_ADDR e) + 4 * PTX va)
  else if negb alloc then mret 0
  else
    pgtab ← kalloc;
    if pgtab =? 0 then mret 0
    else
      zero_page pgtab;;
      st pde (Z.lor (Z.lor (Z.lor (V2P pgtab) PTE_P) PTE_W) PTE_U);;
      mret (pgtab + 4 * PTX va).

(** The loop of mappages; [fuel] is the number of pages up to [last]. *)
Fixpoint mappages_loop (fuel : nat) (pgdir a last pa perm : Z) : K Z :=
  match fuel with
  | O => mret 0
  | S fuel =>
      pte ← walkpgdir pgdir a true;
      if pte =? 0 then mret (-1)
      else
        e ← ld pte;
        if has PTE_P e then panic "remap"
        else
          st pte (Z.lor (Z.lor pa perm) PTE_P);;
          if a =? last then mret 0
          else mappages_loop fuel pgdir (u32 (a + PGSIZE)) last (u32 (pa + PGSIZE)) perm
  end.

Definition mappages (pgdir va size pa perm : Z) : K Z :=
  let a := PGROUNDDOWN va in
  let last := PGROUNDDOWN (u32 (va + size - 1)) in
  mappages_loop (S (Z.to_nat (u32 (last - a) / PGSIZE))) pgdir a last pa perm.

Record kmap := mkKmap { virt : Z; phys_start : Z; phys_end : Z; kperm : Z }.

(** [data]: the linker's symbol, where the kernel's data begins. *)
Definition kmaps (data : Z) : list kmap :=
  [ mkKmap KERNBASE 0 EXTMEM PTE_W;
    mkKmap KERNLINK (V2P KERNLINK) (V2P data) 0;
    mkKmap data (V2P data) PHYSTOP PTE_W;
    mkKmap DEVSPACE DEVSPACE 0 PTE_W ].

Fixpoint map_all (pgdir : Z) (l : list kmap) : K Z :=
  match l with
  | [] => mret pgdir
  | k :: l =>
      r ← mappages pgdir (virt k) (u32 (phys_end k - phys_start k)) (phys_start k) (kperm k);
      if r <? 0 then mret 0 else map_all pgdir l
  end.

Definition setupkvm (data : Z) : K Z :=
  pgdir ← kalloc;
  if pgdir =? 0 then mret 0
  else
    zero_page pgdir;;
    when (DEVSPACE <? P2V PHYSTOP) (panic "PHYSTOP too high");;
    map_all pgdir (kmaps data).

(** kpgdir, and what switchkvm loads into cr3. *)
Definition kvmalloc (data : Z) : K (Z * Z) :=
  kpgdir ← setupkvm data;
  mret (kpgdir, V2P kpgdir).

(** [init]: the bytes of the program. *)
Definition inituvm (pgdir : Z) (init : list Z) : K unit :=
  let sz := Z.of_nat (length init) in
  if PGSIZE <=? sz then panic "inituvm: more than a page"
  else
    mem ← kalloc;
    if mem =? 0 then fault "memset"
    else
      zero_page mem;;
      mappages pgdir 0 PGSIZE (V2P mem) (Z.lor PTE_W PTE_U);;
      modify (fun s => with_ram (write_bytes (ram s) mem init) s).

(** The loop of deallocuvm; each turn goes on by a page at least. *)
Fixpoint deallocuvm_loop (fuel : nat) (pgdir a oldsz : Z) : K unit :=
  match fuel with
  | O => mret tt
  | S fuel =>
      if a <? oldsz then
        pte ← walkpgdir pgdir a false;
        if pte =? 0 then
          deallocuvm_loop fuel pgdir (u32 (u32 (PGADDR (PDX a + 1) 0 0 - PGSIZE) + PGSIZE)) oldsz
        else
          e ← ld pte;
          when (has PTE_P e)
            (let pa := PTE_ADDR e in
             when (pa =? 0) (panic "kfree");;
             kfree (P2V pa);;
             st pte 0);;
          deallocuvm_loop fuel pgdir (u32 (a + PGSIZE)) oldsz
      else mret tt
  end.

Definition deallocuvm (pgdir oldsz newsz : Z) : K Z :=
  if oldsz <=? newsz then mret oldsz
  else
    let a := PGROUNDUP newsz in
    deallocuvm_loop (S (Z.to_nat ((oldsz - a) / PGSIZE))) pgdir a oldsz;;
    mret newsz.

Fixpoint allocuvm_loop (fuel : nat) (pgdir a oldsz newsz : Z) : K Z :=
  match fuel with
  | O => mret newsz
  | S fuel =>
      if a <? newsz then
        mem ← kalloc;
        if mem =? 0 then deallocuvm pgdir newsz oldsz;; mret 0
        else
          zero_page mem;;
          r ← mappages pgdir a PGSIZE (V2P mem) (Z.lor PTE_W PTE_U);
          if r <? 0 then deallocuvm pgdir newsz oldsz;; kfree mem;; mret 0
          else allocuvm_loop fuel pgdir (a + PGSIZE) oldsz newsz
      else mret newsz
  end.

(** The new size, or 0; newsz below KERNBASE keeps a + PGSIZE in range. *)
Definition allocuvm (pgdir oldsz newsz : Z) : K Z :=
  if KERNBASE <=? newsz then mret 0
  else if newsz <? oldsz then mret oldsz
  else
    let a := PGROUNDUP oldsz in
    allocuvm_loop (S (Z.to_nat ((newsz - a) / PGSIZE))) pgdir a oldsz newsz.

Definition freevm (pgdir : Z) : K unit :=
  if pgdir =? 0 then panic "freevm: no pgdir"
  else
    deallocuvm pgdir KERNBASE 0;;
    for_n NPDENTRIES 0 (fun i =>
      e ← ld (pgdir + 4 * Z.of_nat i);
      when (has PTE_P e) (kfree (P2V (PTE_ADDR e))));;
    kfree pgdir.

Definition clearpteu (pgdir uva : Z) : K unit :=
  pte ← walkpgdir pgdir uva false;
  if pte =? 0 then panic "clearpteu"
  else
    e ← ld pte;
    st pte (Z.land e (u32 (Z.lnot PTE_U))).

Fixpoint copyuvm_loop (fuel : nat) (pgdir d i sz : Z) : K Z :=
  match fuel with
  | O => mret d
  | S fuel =>
      if i <? sz then
        pte ← walkpgdir pgdir i false;
        if pte =? 0 then panic "copyuvm: pte should exist"
        else
          e ← ld pte;
          if negb (has PTE_P e) then panic "copyuvm: page not present"
          else
            let pa := PTE_ADDR e in
            let flags := PTE_FLAGS e in
            mem ← kalloc;
            if mem =? 0 then freevm d;; mret 0
            else
              modify (fun s => with_ram (memmove (ram s) mem (P2V pa) PGSIZE) s);;
              r ← mappages d i PGSIZE (V2P mem) flags;
              if r <? 0 then freevm d;; mret 0
              else copyuvm_loop fuel pgdir d (u32 (i + PGSIZE)) sz
      else mret d
  end.

Definition copyuvm (data pgdir sz : Z) : K Z :=
  d ← setupkvm data;
  if d =? 0 then mret 0
  else copyuvm_loop (S (Z.to_nat (sz / PGSIZE + 1))) pgdir d 0 sz.

(** The entry is read without a test of the pointer. *)
Definition uva2ka (pgdir uva : Z) : K Z :=
  pte ← walkpgdir pgdir uva false;
  if pte =? 0 then fault "uva2ka"
  else
    e ← ld pte;
    if negb (has PTE_P e) then mret 0
    else if negb (has PTE_U e) then mret 0
    else mret (P2V (PTE_ADDR e)).

(** [buf]: the len bytes still to be copied; every turn copies some. *)
Fixpoint copyout_loop (fuel : nat) (pgdir va : Z) (buf : list Z) : K Z :=
  match fuel with
  | O => mret 0
  | S fuel =>
      match buf with
      | [] => mret 0
      | _ :: _ =>
          let va0 := PGROUNDDOWN va in
          pa0 ← uva2ka pgdir va0;
          if pa0 =? 0 then mret (-1)
          else
            let n := Z.min (PGSIZE - (va - va0)) (Z.of_nat (length buf)) in
            modify (fun s => with_ram (write_bytes (ram s) (pa0 + (va - va0)) (take (Z.to_nat n) buf)) s);;
            copyout_loop fuel pgdir (u32 (va0 + PGSIZE)) (drop (Z.to_nat n) buf)
      end
  end.

Definition copyout (pgdir va : Z) (p : list Z) : K Z := copyout_loop (S (length p)) pgdir va p.

End vm.
