(* ===== verification/VmProps.v ===== *)
(** Page tables as maps from user pages to entries: walkpgdir and mappages
    change exactly the entries they are asked to, and copyout the bytes. *)

From S2P Require Import Prelude StringC Spinlock Proc Kalloc Vm.

(** * Entries *)

Lemma page_bits a b : a mod PGSIZE = 0 -> 0 <= b < PGSIZE -> Z.land a b = 0.
Proof.
  intros Ha Hb. apply Z.bits_inj'. intros n Hn. rewrite Z.land_spec, Z.bits_0.
  destruct (Z.lt_ge_cases n 12).
  - replace a with (a / 4096 * 2 ^ 12) by (unfold PGSIZE in Ha; pose proof (Z.div_mod a 4096 ltac:(lia)); lia).
    by rewrite Z.mul_pow2_bits_low by lia.
  - rewrite <- (Z.mod_small b (2 ^ 12)) by (unfold PGSIZE in *; lia).
    rewrite Z.mod_pow2_bits_high by lia. apply andb_false_r.
Qed.

(** An entry made of a page address and flags. *)
Lemma entry_parts a f :
  0 <= a < 2 ^ 32 -> a mod PGSIZE = 0 -> 0 <= f < PGSIZE ->
  PTE_ADDR (Z.lor a f) = a /\ 0 <= Z.lor a f < 2 ^ 32 /\
  forall b, 0 <= b < PGSIZE -> Z.land (Z.lor a f) b = Z.land f b.
Proof.
  intros Ha Hm Hf.
  assert (forall x, 0 <= x < 2 ^ 32 -> Z.land x 0xFFFFF000 = x - x mod PGSIZE) as Hmask by apply page_mask.
  assert (Z.lor a f = a + f) as Hlor.
  { pose proof (Z.add_lor_land a f) as H. rewrite (page_bits a f) in H by done. lia. }
  assert (0 <= a + f < 2 ^ 32) as Hr by (unfold PGSIZE in *; zdm).
  split; [|split; [by rewrite Hlor|]].
  - unfold PTE_ADDR. rewrite Hlor, Hmask by done. unfold PGSIZE in *. zdm.
  - intros b Hb. rewrite Z.land_lor_distr_l. by rewrite (page_bits a b).
Qed.

Lemma PDX_spec va : 0 <= va < 2 ^ 32 -> PDX va = va / 2 ^ 22 /\ 0 <= PDX va < 1024.
Proof.
  intros Hv. unfold PDX. change 0x3FF with (Z.ones 10). rewrite Z.land_ones, u32_small, Z.shiftr_div_pow2 by lia.
  rewrite Z.mod_small by (change (2 ^ 22) with 4194304 in *; zdm). change (2 ^ 22) with 4194304. zdm.
Qed.

Lemma PTX_spec va : 0 <= va < 2 ^ 32 -> PTX va = va / PGSIZE mod 1024 /\ 0 <= PTX va < 1024.
Proof.
  intros Hv. unfold PTX. change 0x3FF with (Z.ones 10). rewrite Z.land_ones, u32_small, Z.shiftr_div_pow2 by lia.
  change (2 ^ 12) with PGSIZE. change (2 ^ 10) with 1024. split; [done|]. apply Z.mod_pos_bound. lia.
Qed.

(** The two indices determine the page. *)
Lemma same_page x y :
  0 <= x < 2 ^ 32 -> 0 <= y < 2 ^ 32 -> PDX x = PDX y -> PTX x = PTX y -> x / PGSIZE = y / PGSIZE.
Proof.
  intros Hx Hy. destruct (PDX_spec x Hx) as [-> _], (PDX_spec y Hy) as [-> _].
  destruct (PTX_spec x Hx) as [-> _], (PTX_spec y Hy) as [-> _]. unfold PGSIZE. change (2 ^ 22) with 4194304. zdm.
Qed.

Lemma page_indices x y :
  0 <= x < 2 ^ 32 -> 0 <= y < 2 ^ 32 -> x / PGSIZE = y / PGSIZE -> PDX x = PDX y /\ PTX x = PTX y.
Proof.
  intros Hx Hy E. destruct (PDX_spec x Hx) as [-> _], (PDX_spec y Hy) as [-> _].
  destruct (PTX_spec x Hx) as [-> _], (PTX_spec y Hy) as [-> _].
  split; [|by rewrite E]. unfold PGSIZE in E. change (2 ^ 22) with 4194304. zdm.
Qed.

Lemma V2P_page kend v : page_ok kend v -> V2P v = v - KERNBASE /\ 0 <= V2P v < 2 ^ 32 /\ V2P v mod PGSIZE = 0 /\ P2V (V2P v) = v.
Proof.
  intros Hv. pose proof (page_ok_nonzero _ v Hv) as [_ Hr]. destruct Hv as (H1 & _ & H3 & H4).
  unfold V2P, P2V. rewrite (u32_small v) by done. unfold KERNBASE, PHYSTOP, PGSIZE in *. rewrite u32_small by lia. zdm.
Qed.

(** * The map of a page directory *)

Definition inpage (q x : Z) : Prop := q <= x < q + PGSIZE.

Definition pde_at (m : mem) (pgdir i : Z) : Z := load32 m (pgdir + 4 * i).

(** The page table of a directory entry. *)
Definition tab (m : mem) (pgdir i : Z) : option Z :=
  if has PTE_P (pde_at m pgdir i) then Some (P2V (PTE_ADDR (pde_at m pgdir i))) else None.

(** The entry of a virtual address, 0 if there is no table for it. *)
Definition pte_at (m : mem) (pgdir va : Z) : Z :=
  match tab m pgdir (PDX va) with
  | Some t => load32 m (t + 4 * PTX va)
  | None => 0
  end.

Section props.
Context (kend : Z) (stk : list Z).

(** The directory and its tables are pages in use, all different. *)
Record ptable (free : list Z) (pgdir : Z) (m : mem) : Prop := {
  pt_dir : page_ok kend pgdir;
  pt_used : pgdir ∉ free;
  pt_tab i t : 0 <= i < 1024 -> tab m pgdir i = Some t -> page_ok kend t /\ (t ∉ free) /\ t <> pgdir;
  pt_inj i j t : 0 <= i < 1024 -> 0 <= j < 1024 -> tab m pgdir i = Some t -> tab m pgdir j = Some t -> i = j }.

(** The free pages and the page tables of a directory. *)
Definition supply (free : list Z) (pgdir : Z) (m : mem) (q : Z) : Prop :=
  q ∈ free \/ exists i, 0 <= i < 1024 /\ tab m pgdir i = Some q.

(** Memory that belongs neither to the directory, nor to its tables, nor to
    the free pages. *)
Definition outside (free : list Z) (pgdir : Z) (m : mem) (x : Z) : Prop :=
  ~ inpage pgdir x /\ forall q, supply free pgdir m q -> ~ inpage q x.

(** All other memory is as before, and a page taken from the free ones is now a
    table: no page is lost. *)
Record framed (pgdir : Z) (free : list Z) (m : mem) (free' : list Z) (m' : mem) : Prop := {
  fr_same x : outside free pgdir m x -> m' x = m x;
  fr_supply q : supply free' pgdir m' q <-> supply free pgdir m q }.

Lemma framed_refl pgdir free m : framed pgdir free m free m.
Proof. done. Qed.

Lemma framed_trans pgdir f1 m1 f2 m2 f3 m3 :
  framed pgdir f1 m1 f2 m2 -> framed pgdir f2 m2 f3 m3 -> framed pgdir f1 m1 f3 m3.
Proof.
  intros [H1 S1] [H2 S2]. split; [|intros q; by rewrite S2].
  intros x Hx. rewrite H2, H1; [done..|]. destruct Hx as [Hx Hs]. split; [done|]. intros q Hq. by apply Hs, S1.
Qed.

Lemma tab_ext m m' pgdir i :
  0 <= i < 1024 -> (forall x, inpage pgdir x -> m' x = m x) -> tab m' pgdir i = tab m pgdir i.
Proof.
  intros Hi Hm. unfold tab, pde_at.
  rewrite (load32_ext m' m); [done|]. intros x Hx. apply Hm. unfold inpage, PGSIZE. lia.
Qed.

Lemma pte_ext m m' pgdir va :
  0 <= va < 2 ^ 32 -> tab m' pgdir (PDX va) = tab m pgdir (PDX va) ->
  (forall t x, tab m pgdir (PDX va) = Some t -> inpage t x -> m' x = m x) -> pte_at m' pgdir va = pte_at m pgdir va.
Proof.
  intros Hv Ht Hm. unfold pte_at. rewrite Ht. destruct (tab m pgdir (PDX va)) as [t|] eqn:E; [|done].
  destruct (PTX_spec va Hv) as [_ Hp]. apply load32_ext. intros x Hx. apply (Hm t); [done|]. unfold inpage, PGSIZE. lia.
Qed.

Lemma kinv_ram free s m :
  kinv kend free s -> byte_mem m -> (forall q x, q ∈ free -> inpage q x -> m x = ram s x) ->
  kinv kend free (with_ram m s).
Proof.
  intros [Hc Hn Hp Hb Hq] Hm Hf. split; try done. simpl. eapply chain_ext; [|exact Hc]. intros a x Ha. by apply Hf.
Qed.

Lemma inpage_disjoint p q x : page_ok kend p -> page_ok kend q -> p <> q -> inpage p x -> inpage q x -> False.
Proof. intros [Hp _] [Hq _] Hne H1 H2. by apply (pages_disjoint p q x x). Qed.

(** The entry walkpgdir makes for a new table. *)
Lemma table_entry v :
  page_ok kend v -> exists e, e = Z.lor (Z.lor (Z.lor (V2P v) PTE_P) PTE_W) PTE_U /\ 0 <= e < 2 ^ 32 /\
    has PTE_P e = true /\ P2V (PTE_ADDR e) = v.
Proof.
  intros Hv. destruct (V2P_page _ _ Hv) as (_ & Hr & Hm & Hp). eexists. split; [done|].
  rewrite <- !Z.lor_assoc. change (Z.lor PTE_P (Z.lor PTE_W PTE_U)) with 7.
  destruct (entry_parts (V2P v) 7 Hr Hm ltac:(unfold PGSIZE; lia)) as (Ha & Hb & Hl).
  split; [done|]. split; [|by rewrite Ha]. unfold has, PTE_P. by rewrite Hl by (unfold PGSIZE; lia).
Qed.

Lemma new_table free v pgdir m va :
  ptable (v :: free) pgdir m -> page_ok kend v -> v ∉ free -> 0 <= va < 2 ^ 32 -> tab m pgdir (PDX va) = None ->
  let m' := store32 (memset m v 0 PGSIZE) (pgdir + 4 * PDX va) (Z.lor (Z.lor (Z.lor (V2P v) PTE_P) PTE_W) PTE_U) in
  ptable free pgdir m' /\ tab m' pgdir (PDX va) = Some v /\
  (forall x, 0 <= x < 2 ^ 32 -> pte_at m' pgdir x = pte_at m pgdir x) /\ framed pgdir (v :: free) m free m'.
Proof.
  intros [Hd Hu Ht Hi] Hv Hvf Hva Hno m'. destruct (table_entry v Hv) as (e & He & Her & Hep & Hea).
  destruct (PDX_spec va Hva) as [_ Hx]. apply not_elem_of_cons in Hu as [Hne Hu].
  assert (forall x, ~ inpage v x -> ~ (pgdir + 4 * PDX va <= x < pgdir + 4 * PDX va + 4) -> m' x = m x) as Hout.
  { intros x H1 H2. unfold m'. rewrite store32_byte, memset_byte by (unfold PGSIZE; lia). unfold inpage, PGSIZE in *.
    repeat case_match; bools; lia || done. }
  assert (forall j x, 0 <= j < 1024 -> pgdir + 4 * j <= x < pgdir + 4 * j + 4 -> inpage pgdir x /\ ~ inpage v x) as Hin.
  { intros j x Hj Hxj. assert (inpage pgdir x) by (unfold inpage, PGSIZE; lia). split; [done|].
    intros Hvx. by apply (inpage_disjoint pgdir v x). }
  assert (tab m' pgdir (PDX va) = Some v) as Hnew.
  { unfold tab, pde_at, m'. rewrite load32_store32, <- He, u32_small, Hep, Hea by done. done. }
  assert (forall j, 0 <= j < 1024 -> j <> PDX va -> tab m' pgdir j = tab m pgdir j) as Hold.
  { intros j Hj Hjx. unfold tab, pde_at. rewrite (load32_ext m' m); [done|]. intros x Hxx.
    apply Hout; [by apply (Hin j x)|lia]. }
  split; [split|split; [done|split]].
  - done.
  - done.
  - intros i t Hi1 Hti. destruct (decide (i = PDX va)) as [->|Hn]; [rewrite Hnew in Hti; injection Hti as <-; done|].
    rewrite Hold in Hti by done. destruct (Ht i t Hi1 Hti) as (H1 & H2 & H3). apply not_elem_of_cons in H2 as [_ H2]. done.
  - intros i j t Hi1 Hj1 Hti Htj. destruct (decide (i = PDX va)) as [->|Hn], (decide (j = PDX va)) as [->|Hn']; try done.
    + rewrite Hnew in Hti. injection Hti as <-. rewrite Hold in Htj by done.
      destruct (Ht j v Hj1 Htj) as (_ & H2 & _). apply not_elem_of_cons in H2 as []. done.
    + rewrite Hnew in Htj. injection Htj as <-. rewrite Hold in Hti by done.
      destruct (Ht i v Hi1 Hti) as (_ & H2 & _). apply not_elem_of_cons in H2 as []. done.
    + rewrite Hold in Hti, Htj by done. by apply (Hi i j t).
  - intros x Hxr. destruct (PDX_spec x Hxr) as [_ Hpx]. destruct (decide (PDX x = PDX va)) as [E|Hn].
    + unfold pte_at. rewrite E, Hnew, Hno. destruct (PTX_spec x Hxr) as [_ Hpt].
      assert (forall y, v + 4 * PTX x <= y < v + 4 * PTX x + 4 -> m' y = 0) as H0.
      { intros y Hy. assert (inpage v y) as Hvy by (unfold inpage, PGSIZE; lia). unfold m'.
        rewrite store32_byte. case_match; bools; [exfalso; by apply (Hin (PDX va) y)| |];
          rewrite memset_byte by (unfold PGSIZE; lia); (case_match; [done|]); unfold inpage in Hvy; bools; lia. }
      unfold load32. by rewrite !H0 by lia.
    + apply pte_ext; [done|by apply Hold|]. intros t y Hty Hy. destruct (Ht (PDX x) t Hpx Hty) as (H1 & H2 & H3).
      apply not_elem_of_cons in H2 as [H2 _]. apply Hout.
      * intros Hvy. by apply (inpage_disjoint t v y).
      * intros Hpy. destruct (Hin (PDX va) y Hx Hpy) as [Hpg _]. by apply (inpage_disjoint t pgdir y).
  - split.
    + intros x (O1 & O2). assert (~ inpage v x) as Hvx by (apply O2; left; by left).
      apply Hout; [done|]. intros Hpx. by apply O1, (Hin (PDX va) x).
    + intros q. split; intros [Hq|(i & Hi1 & Hti)].
      * left. by right.
      * destruct (decide (i = PDX va)) as [->|Hn]; [rewrite Hnew in Hti; injection Hti as <-; left; by left|].
        rewrite Hold in Hti by done. right. by exists i.
      * apply elem_of_cons in Hq as [->|Hq]; [right; by exists (PDX va)|by left].
      * right. exists i. split; [done|]. rewrite Hold; [done|done|]. intros ->. by rewrite Hno in Hti.
Qed.

Lemma wp_walk_alloc free s pgdir va (Q : Z -> kmem -> Prop) :
  kinv kend free s -> ptable free pgdir (ram s) -> 0 <= va < 2 ^ 32 ->
  (free = [] -> forall t, kinv kend [] t -> ram t = ram s -> Q 0 t) ->
  (forall free' t tb, suffix free' free -> kinv kend free' t -> ptable free' pgdir (ram t) ->
     tab (ram t) pgdir (PDX va) = Some tb ->
     (forall x, 0 <= x < 2 ^ 32 -> pte_at (ram t) pgdir x = pte_at (ram s) pgdir x) ->
     framed pgdir free (ram s) free' (ram t) -> Q (tb + 4 * PTX va) t) ->
  wp (walkpgdir stk pgdir va true) s Q.
Proof.
  intros Hk Hp Hva HQ0 HQ. destruct (PDX_spec va Hva) as [_ Hx]. unfold walkpgdir. apply wp_bind, wp_gets.
  destruct (has PTE_P (load32 (ram s) (pgdir + 4 * PDX va))) eqn:E.
  { apply wp_ret. apply (HQ free); try done. unfold tab, pde_at. by rewrite E. }
  cbn [negb]. apply wp_bind. apply (wp_kalloc kend stk free s); [done|]. intros t Hu Hr. destruct free as [|v free].
  { intros Hkt. by apply wp_ret, HQ0. }
  intros Hkt. pose proof (k_pages _ _ _ Hk) as Hpg. apply Forall_cons in Hpg as [Hv _].
  pose proof (k_nodup _ _ _ Hk) as Hnd. apply NoDup_cons in Hnd as [Hvf _].
  destruct (page_ok_nonzero _ _ Hv) as [Hv0 _]. rewrite (proj2 (Z.eqb_neq v 0)) by done.
  assert (tab (ram s) pgdir (PDX va) = None) as Hno by (unfold tab, pde_at; by rewrite E).
  destruct (new_table free v pgdir (ram s) va Hp Hv Hvf Hva Hno) as (N1 & N2 & N3 & N4).
  apply wp_bind, wp_modify, wp_bind, wp_modify, wp_ret. cbn [with_ram ram klock use_lock freelist kcpu]. rewrite Hr.
  set (m := store32 _ _ _) in *. change (mkKmem _ _ _ m _) with (with_ram m t).
  apply (HQ free); try done; [by exists [v]|]. pose proof (k_pages _ _ _ Hkt) as Hpq. rewrite Forall_forall in Hpq.
  apply (kinv_ram free t m); [done|apply store32_byte_mem, memset_byte_mem; [unfold PGSIZE; lia|apply Hk]|].
  intros q x Hq Hxq. unfold m. rewrite Hr, store32_byte. case_match; bools; [exfalso| |].
  - apply (inpage_disjoint q pgdir x); [by apply Hpq|apply Hp| |done|unfold inpage, PGSIZE; lia].
    intros ->. apply (pt_used _ _ _ Hp). by right.
  - rewrite memset_byte by (unfold PGSIZE; lia). case_match; [|done]. bools. exfalso.
    apply (inpage_disjoint q v x); [by apply Hpq|done|congruence|done|]. unfold inpage. lia.
  - rewrite memset_byte by (unfold PGSIZE; lia). case_match; [|done]. bools. exfalso.
    apply (inpage_disjoint q v x); [by apply Hpq|done|congruence|done|]. unfold inpage. lia.
Qed.

(** Storing an entry of a table. *)
Lemma set_pte free pgdir m va t e :
  ptable free pgdir m -> 0 <= va < 2 ^ 32 -> tab m pgdir (PDX va) = Some t -> 0 <= e < 2 ^ 32 ->
  let m' := store32 m (t + 4 * PTX va) e in
  ptable free pgdir m' /\ framed pgdir free m free m' /\
  forall x, 0 <= x < 2 ^ 32 -> pte_at m' pgdir x = if decide (x / PGSIZE = va / PGSIZE) then e else pte_at m pgdir x.
Proof.
  intros Hp Hva Htab He m'. destruct (PDX_spec va Hva) as [_ Hx]. destruct (PTX_spec va Hva) as [_ Hy].
  destruct (pt_tab _ _ _ Hp _ _ Hx Htab) as (Ht & Htf & Htd).
  assert (forall x, ~ inpage t x -> m' x = m x) as Hout.
  { intros x Hnx. unfold m'. rewrite store32_byte. unfold inpage, PGSIZE in Hnx. case_match; bools; lia || done. }
  assert (forall i, 0 <= i < 1024 -> tab m' pgdir i = tab m pgdir i) as Htabs.
  { intros i Hi. apply tab_ext; [done|]. intros x Hxd. apply Hout. intros Hxt.
    by apply (inpage_disjoint t pgdir x); [|apply Hp| | |]. }
  split; [split|split].
  - apply Hp.
  - apply Hp.
  - intros i u Hi Hu. rewrite Htabs in Hu by done. by apply (pt_tab _ _ _ Hp i).
  - intros i j u Hi Hj Hu1 Hu2. rewrite Htabs in Hu1, Hu2 by done. by apply (pt_inj _ _ _ Hp i j u).
  - split; [intros x (O1 & O2); apply Hout, O2; right; by exists (PDX va)|].
    intros q. split; (intros [Hq|(i & Hi & Hq)]; [by left|right; exists i; split; [done|]]);
      [by rewrite Htabs in Hq|by rewrite Htabs].
  - intros x Hxr. destruct (PDX_spec x Hxr) as [_ Hdx]. destruct (PTX_spec x Hxr) as [_ Htx].
    unfold pte_at. rewrite Htabs by done. case_decide as Hpg.
    + destruct (page_indices x va Hxr Hva Hpg) as [-> ->]. rewrite Htab. unfold m'. by rewrite load32_store32, u32_small.
    + destruct (decide (PDX x = PDX va)) as [E|E].
      * rewrite E, Htab. unfold m'. apply load32_store32_ne.
        assert (PTX x <> PTX va) by (intros E2; apply Hpg; by apply same_page). lia.
      * destruct (tab m pgdir (PDX x)) as [u|] eqn:Eu; [|done].
        destruct (pt_tab _ _ _ Hp _ _ Hdx Eu) as (Hu & _ & _). apply load32_ext. intros y Hyy. apply Hout. intros Hty.
        assert (u <> t) as Hut by (intros ->; apply E; by apply (pt_inj _ _ _ Hp _ _ t)).
        apply (inpage_disjoint u t y); try done. unfold inpage, PGSIZE. lia.
Qed.

(** Where [k] pages from [a] on are mapped to the pages from [pa] on. *)
Definition mapped_run (a pa perm : Z) (k : nat) (old : Z -> Z) (x : Z) : Z :=
  if decide (a <= x < a + PGSIZE * Z.of_nat k) then Z.lor (Z.lor (pa + PGSIZE * ((x - a) / PGSIZE)) perm) PTE_P else old x.

Lemma flags_present perm : 0 <= perm < PGSIZE -> 0 <= Z.lor perm PTE_P < PGSIZE.
Proof.
  intros Hp. unfold PTE_P, PGSIZE in *. assert (0 <= Z.lor perm 1) by (apply Z.lor_nonneg; lia). split; [done|].
  destruct (decide (perm = 0)) as [->|]; [done|]. change 4096 with (2 ^ 12).
  assert (perm < 2 ^ 12) by (change (2 ^ 12) with 4096; lia).
  apply Z.log2_lt_cancel. rewrite Z.log2_lor, Z.log2_pow2 by lia. apply Z.max_lub_lt; [|done]. apply Z.log2_lt_pow2; lia.
Qed.

(** One turn of mappages. *)
Lemma wp_map_page pgdir a v free s (rest : M kmem Z) (Q : Z -> kmem -> Prop) :
  kinv kend free s -> ptable free pgdir (ram s) -> 0 <= a < 2 ^ 32 -> 0 <= v < 2 ^ 32 ->
  has PTE_P (pte_at (ram s) pgdir a) = false ->
  (free = [] -> forall t, kinv kend [] t -> ram t = ram s -> Q (-1) t) ->
  (forall free' t, suffix free' free -> kinv kend free' t -> ptable free' pgdir (ram t) ->
     framed pgdir free (ram s) free' (ram t) ->
     (forall x, 0 <= x < 2 ^ 32 ->
        pte_at (ram t) pgdir x = if decide (x / PGSIZE = a / PGSIZE) then v else pte_at (ram s) pgdir x) ->
     wp rest t Q) ->
  wp (pte ← walkpgdir stk pgdir a true;
      if pte =? 0 then mret (-1)
      else e ← ld pte; if has PTE_P e then panic "remap" else st pte v;; rest) s Q.
Proof.
  intros Hk Hp Ha Hv Hnp HQ0 HQ. destruct (PDX_spec a Ha) as [_ Hx]. destruct (PTX_spec a Ha) as [_ Hy].
  apply wp_bind. apply (wp_walk_alloc free s pgdir a); [done|done|done| |].
  { intros Hf t Hkt Hr. apply wp_ret. by apply HQ0. }
  intros free' t tb Hsuf Hkt Hpt Htab Hsame Hfr. destruct (pt_tab _ _ _ Hpt _ _ Hx Htab) as (Htb & Htf & _).
  destruct (page_ok_nonzero _ _ Htb) as [_ Hr0]. assert (KERNBASE < tb) as Hkb by apply Htb.
  rewrite (proj2 (Z.eqb_neq _ 0)) by (unfold KERNBASE in *; lia). apply wp_bind, wp_gets.
  assert (load32 (ram t) (tb + 4 * PTX a) = pte_at (ram t) pgdir a) as -> by (unfold pte_at; by rewrite Htab).
  rewrite Hsame, Hnp by done. apply wp_bind, wp_modify.
  destruct (set_pte free' pgdir (ram t) a tb v Hpt Ha Htab Hv) as (S1 & S2 & S3).
  apply (HQ free'); simpl; try done.
  - apply kinv_ram; [done|apply store32_byte_mem, Hkt|]. intros q x Hq Hxq. rewrite store32_byte. case_match; [|done]. bools.
    exfalso. pose proof (k_pages _ _ _ Hkt) as Hpq. rewrite Forall_forall in Hpq.
    apply (inpage_disjoint q tb x); [by apply Hpq|done|congruence|done|]. unfold inpage, PGSIZE. lia.
  - by eapply framed_trans.
  - intros x Hxr. rewrite S3 by done. case_decide; [done|]. by apply Hsame.
Qed.

Lemma wp_mappages_loop n pgdir a last pa perm free s :
  kinv kend free s -> ptable free pgdir (ram s) ->
  0 <= a -> a mod PGSIZE = 0 -> last = a + PGSIZE * Z.of_nat n -> last < 2 ^ 32 ->
  0 <= pa -> pa mod PGSIZE = 0 -> pa + PGSIZE * Z.of_nat n < 2 ^ 32 -> 0 <= perm < PGSIZE ->
  (forall x, a <= x < last + PGSIZE -> has PTE_P (pte_at (ram s) pgdir x) = false) ->
  wp (mappages_loop stk (S n) pgdir a last pa perm) s (fun r t => exists free' k,
    suffix free' free /\ kinv kend free' t /\ ptable free' pgdir (ram t) /\ framed pgdir free (ram s) free' (ram t) /\
    ((r = 0 /\ k = S n) \/ (r = -1 /\ (k <= n)%nat /\ free' = [])) /\
    forall x, 0 <= x < 2 ^ 32 -> pte_at (ram t) pgdir x = mapped_run a pa perm k (pte_at (ram s) pgdir) x).
Proof.
  revert a pa free s. induction n as [n IH] using lt_wf_ind.
  intros a pa free s Hk Hp Ha Ham Hlast Hl32 Hpa Hpam Hpa32 Hperm Hfree.
  assert (0 <= Z.lor (Z.lor pa perm) PTE_P < 2 ^ 32) as He.
  { rewrite <- Z.lor_assoc. apply entry_parts; [unfold PGSIZE in *; lia|done|by apply flags_present]. }
  assert (forall x, x / PGSIZE = a / PGSIZE <-> a <= x < a + PGSIZE) as Hpage by (intros x; unfold PGSIZE in *; zdm).
  assert (last + PGSIZE <= 2 ^ 32) as Hl32' by (unfold PGSIZE in *; zdm).
  cbn [mappages_loop]. apply (wp_map_page pgdir a (Z.lor (Z.lor pa perm) PTE_P) free s); try done;
    [unfold PGSIZE in *; lia|apply Hfree; unfold PGSIZE in *; lia| |].
  { intros -> t Hkt Hr. exists [], 0%nat. rewrite Hr. split; [done|]. split; [done|]. split; [done|]. split; [apply framed_refl|].
    split; [right; split; [done|]; split; [lia|done]|]. intros x Hx. unfold mapped_run. by rewrite decide_False by lia. }
  intros free1 t1 Hsuf Hk1 Hp1 Hfr1 Hpte. destruct (Z.eqb_spec a last) as [El|El].
  { apply wp_ret. exists free1, 1%nat. split; [done|]. split; [done|]. split; [done|]. split; [done|].
    assert (n = 0%nat) as -> by (unfold PGSIZE in *; lia). split; [by left|].
    intros x Hx. rewrite Hpte by done. unfold mapped_run.
    destruct (decide (x / PGSIZE = a / PGSIZE)) as [E|E].
    - apply Hpage in E. rewrite decide_True by lia. rewrite (Z.div_small (x - a)) by lia. by rewrite Z.add_0_r.
    - rewrite decide_False; [done|]. intros H. apply E, Hpage. lia. }
  destruct n as [|n]; [lia|]. rewrite !u32_small by (unfold PGSIZE in *; lia).
  eapply wp_mono; [apply (IH n ltac:(lia) (a + PGSIZE) (pa + PGSIZE) free1 t1); try done; unfold PGSIZE in *; try zdm|].
  { intros x Hx. rewrite Hpte by lia. rewrite decide_False; [apply Hfree; lia|]. intros E. apply Hpage in E. unfold PGSIZE in *. lia. }
  intros r t (free2 & k & Hs2 & Hk2 & Hp2 & Hfr2 & Hr & Hx2). exists free2, (S k). split; [by etrans|]. split; [done|].
  split; [done|]. split; [by eapply framed_trans|].
  split; [destruct Hr as [[-> ->]|(-> & Hkn & ->)]; [by left|right; split; [done|]; split; [lia|done]]|].
  intros x Hx. rewrite Hx2 by done. unfold mapped_run. rewrite Hpte by done.
  destruct (decide (a + PGSIZE <= x < a + PGSIZE + PGSIZE * Z.of_nat k)) as [H1|H1].
  - rewrite decide_True by (unfold PGSIZE in *; lia). do 2 f_equal. unfold PGSIZE in *. zdm.
  - destruct (decide (x / PGSIZE = a / PGSIZE)) as [E|E].
    + apply Hpage in E. rewrite decide_True by (unfold PGSIZE in *; lia). rewrite (Z.div_small (x - a)) by lia. by rewrite Z.add_0_r.
    + rewrite decide_False; [done|]. intros H2. apply E, Hpage. unfold PGSIZE in *. lia.
Qed.

Lemma wp_mappages pgdir va size pa perm free s :
  kinv kend free s -> ptable free pgdir (ram s) ->
  0 <= va -> 0 < size -> va + size <= 2 ^ 32 ->
  0 <= pa -> pa mod PGSIZE = 0 -> 0 <= perm < PGSIZE ->
  let a := PGROUNDDOWN va in
  let last := PGROUNDDOWN (va + size - 1) in
  let pages := S (Z.to_nat ((last - a) / PGSIZE)) in
  pa + (last - a) < 2 ^ 32 ->
  (forall x, a <= x < a + PGSIZE * Z.of_nat pages -> has PTE_P (pte_at (ram s) pgdir x) = false) ->
  wp (mappages stk pgdir va size pa perm) s (fun r t => exists free' k,
    suffix free' free /\ kinv kend free' t /\ ptable free' pgdir (ram t) /\ framed pgdir free (ram s) free' (ram t) /\
    ((r = 0 /\ k = pages) \/ (r = -1 /\ (k < pages)%nat /\ free' = [])) /\
    forall x, 0 <= x < 2 ^ 32 -> pte_at (ram t) pgdir x = mapped_run a pa perm k (pte_at (ram s) pgdir) x).
Proof.
  intros Hk Hp Hva Hsz Hend Hpa Hpam Hperm a last pages Hpa32 Hfree.
  destruct (PGROUNDDOWN_spec va ltac:(lia)) as [Ham Ha]. destruct (PGROUNDDOWN_spec (va + size - 1) ltac:(lia)) as [Hlm Hl].
  fold a in Ham, Ha. fold last in Hlm, Hl.
  assert (a <= last /\ last = a + PGSIZE * Z.of_nat (Z.to_nat ((last - a) / PGSIZE)) /\ 0 <= a) as (Hal & Hlast & Ha0)
    by (unfold PGSIZE in *; zdm).
  unfold mappages. rewrite (u32_small (va + size - 1)) by lia. fold a. fold last. rewrite u32_small by lia.
  eapply wp_mono; [apply (wp_mappages_loop _ pgdir a last pa perm free s); try done; try lia|].
  - intros x Hx. apply Hfree. unfold pages. rewrite Nat2Z.inj_succ, Z.mul_succ_r. lia.
  - intros r t (free' & k & H1 & H2 & H3 & H4 & H5 & H6). exists free', k. split_and!; try done.
    destruct H5 as [H5|(-> & Hkn & ->)]; [by left|right; split; [done|]; split; [unfold pages; lia|done]].
Qed.

(** C26. mappages enters exactly the pages of its range: each is mapped to the
    next physical page with the permissions asked for, every other entry of
    the directory is unchanged, and so is all memory but the directory, its
    tables and the pages taken for new ones; those are tables now, none is
    lost.  It returns -1 only when no free page is left, with a part of the
    range mapped. *)
Theorem mappages_maps pgdir va size pa perm free s :
  kinv kend free s -> ptable free pgdir (ram s) ->
  0 <= va -> 0 < size -> va + size <= 2 ^ 32 ->
  0 <= pa -> pa mod PGSIZE = 0 -> 0 <= perm < PGSIZE ->
  let a := PGROUNDDOWN va in
  let last := PGROUNDDOWN (va + size - 1) in
  let pages := S (Z.to_nat ((last - a) / PGSIZE)) in
  pa + (last - a) < 2 ^ 32 ->
  (forall x, a <= x < a + PGSIZE * Z.of_nat pages -> has PTE_P (pte_at (ram s) pgdir x) = false) ->
  exists r t free' k, mappages stk pgdir va size pa perm s = Ok (r, t) /\
    suffix free' free /\ kinv kend free' t /\ ptable free' pgdir (ram t) /\ framed pgdir free (ram s) free' (ram t) /\
    ((r = 0 /\ k = pages) \/ (r = -1 /\ (k < pages)%nat /\ free' = [])) /\
    forall x, 0 <= x < 2 ^ 32 -> pte_at (ram t) pgdir x = mapped_run a pa perm k (pte_at (ram s) pgdir) x.
Proof.
  intros Hk Hp Hva Hsz Hend Hpa Hpam Hperm a last pages Hpa32 Hfree.
  destruct (wp_mappages pgdir va size pa perm free s) as (r & t & Hr & free' & k & H); try done. by exists r, t, free', k.
Qed.

(** * User memory *)

(** The frame of a virtual address, and the byte there. *)
Definition frame_of (m : mem) (pgdir x : Z) : Z := P2V (PTE_ADDR (pte_at m pgdir x)).
Definition uread (m : mem) (pgdir x : Z) : Z := m (frame_of m pgdir x + x mod PGSIZE).

(** User code can use the page of [x]. *)
Definition user (m : mem) (pgdir x : Z) : Prop :=
  0 <= x < KERNBASE /\ has PTE_P (pte_at m pgdir x) = true /\ has PTE_U (pte_at m pgdir x) = true.

(** User pages have frames of their own. *)
Record user_ok (free : list Z) (pgdir : Z) (m : mem) : Prop := {
  uo_frame x : user m pgdir x -> page_ok kend (frame_of m pgdir x) /\ (frame_of m pgdir x ∉ free) /\
    frame_of m pgdir x <> pgdir /\ forall i, 0 <= i < 1024 -> tab m pgdir i <> Some (frame_of m pgdir x);
  uo_inj x y : user m pgdir x -> user m pgdir y -> frame_of m pgdir x = frame_of m pgdir y -> x / PGSIZE = y / PGSIZE }.

Lemma write_bytes_spec m a bs x :
  write_bytes m a bs x = if decide (a <= x < a + Z.of_nat (length bs)) then u8 (nth (Z.to_nat (x - a)) bs 0) else m x.
Proof.
  revert m a. induction bs as [|b bs IH]; intros m a; simpl; [by rewrite decide_False by lia|].
  rewrite IH. unfold upd. repeat case_decide; try lia.
  - destruct (Z.to_nat (x - a)) as [|k] eqn:E; [lia|]. do 2 f_equal. lia.
  - destruct (Z.eqb_spec x a) as [->|]; [|lia]. by rewrite Z.sub_diag.
  - destruct (Z.eqb_spec x a); [lia|done].
Qed.

Lemma write_bytes_byte_mem m a bs : byte_mem m -> byte_mem (write_bytes m a bs).
Proof. intros H x. rewrite write_bytes_spec. case_decide; [apply u8_range|apply H]. Qed.

(** A present entry is in a table. *)
Lemma present_tab m pgdir x : has PTE_P (pte_at m pgdir x) = true -> exists t, tab m pgdir (PDX x) = Some t.
Proof. unfold pte_at. destruct (tab m pgdir (PDX x)) as [t|]; [by exists t|done]. Qed.

Lemma wp_uva2ka pgdir x s free :
  ptable free pgdir (ram s) -> user (ram s) pgdir x -> uva2ka stk pgdir x s = Ok (frame_of (ram s) pgdir x, s).
Proof.
  intros Hp (Hx & HP & HU). destruct (present_tab _ _ _ HP) as [t Ht].
  assert (0 <= x < 2 ^ 32) as Hx32 by (unfold KERNBASE in *; lia). destruct (PDX_spec x Hx32) as [_ Hd].
  destruct (pt_tab _ _ _ Hp _ _ Hd Ht) as (Htk & _). destruct (PTX_spec x Hx32) as [_ Hy].
  assert (KERNBASE < t) by apply Htk. unfold frame_of, pte_at in *. rewrite Ht in *. revert Ht. unfold tab, pde_at.
  unfold uva2ka, walkpgdir, ld. munfold. destruct (has PTE_P (load32 (ram s) (pgdir + 4 * PDX x))); [|done]. intros [= ->].
  rewrite (proj2 (Z.eqb_neq _ 0)) by (unfold KERNBASE in *; lia). by rewrite HP, HU.
Qed.

(** The memory [m'] has the directory of [m], and is changed in the frames of
    the user pages of [X] only. *)
Record same_map (free : list Z) (pgdir : Z) (m m' : mem) (X : Z -> Prop) : Prop := {
  sm_pt : ptable free pgdir m';
  sm_pte x : 0 <= x < 2 ^ 32 -> pte_at m' pgdir x = pte_at m pgdir x;
  sm_ok : user_ok free pgdir m';
  sm_out y : (forall x, X x -> ~ inpage (frame_of m pgdir x) y) -> m' y = m y }.

Lemma user_same m m' pgdir x :
  (forall x, 0 <= x < 2 ^ 32 -> pte_at m' pgdir x = pte_at m pgdir x) -> user m' pgdir x <-> user m pgdir x.
Proof. intros H. unfold user. split; intros (Hx & H1 & H2); (rewrite H in * || rewrite <- H in *); unfold KERNBASE in *; try lia; done. Qed.

Lemma write_frame free pgdir m x bs off :
  ptable free pgdir m -> user_ok free pgdir m -> user m pgdir x -> 0 <= off -> off + Z.of_nat (length bs) <= PGSIZE ->
  let m' := write_bytes m (frame_of m pgdir x + off) bs in
  same_map free pgdir m m' (eq x) /\
  forall y, user m pgdir y -> uread m' pgdir y =
    if decide (y / PGSIZE = x / PGSIZE /\ off <= y mod PGSIZE < off + Z.of_nat (length bs))
    then u8 (nth (Z.to_nat (y mod PGSIZE - off)) bs 0) else uread m pgdir y.
Proof.
  intros Hp Ho Hu Hoff Hlen m'. destruct (uo_frame _ _ _ Ho x Hu) as (Hf & Hff & Hfd & Hft). set (f := frame_of m pgdir x) in *.
  assert (forall y, ~ inpage f y -> m' y = m y) as Hout.
  { intros y Hy. unfold m'. rewrite write_bytes_spec, decide_False; [done|]. unfold inpage in Hy. lia. }
  assert (forall i, 0 <= i < 1024 -> tab m' pgdir i = tab m pgdir i) as Htab.
  { intros i Hi. apply tab_ext; [done|]. intros y Hy. apply Hout. intros Hfy. by apply (inpage_disjoint f pgdir y); [|apply Hp| | |]. }
  assert (forall y, 0 <= y < 2 ^ 32 -> pte_at m' pgdir y = pte_at m pgdir y) as Hpte.
  { intros y Hy. destruct (PDX_spec y Hy) as [_ Hd]. apply pte_ext; [done|by apply Htab|]. intros t z Ht Hz. apply Hout. intros Hfz.
    destruct (pt_tab _ _ _ Hp _ _ Hd Ht) as (Htk & _). apply (inpage_disjoint f t z); try done. intros ->. by apply (Hft (PDX y)). }
  assert (forall y, user m pgdir y -> frame_of m' pgdir y = frame_of m pgdir y) as Hfr.
  { intros y (Hy & _). unfold frame_of. rewrite Hpte; [done|]. unfold KERNBASE in *. lia. }
  split; [split|].
  - destruct Hp as [P1 P2 P3 P4]. split; [done|done| |].
    + intros i t Hi Ht. rewrite Htab in Ht by done. by apply (P3 i).
    + intros i j t Hi Hj H1 H2. rewrite Htab in H1, H2 by done. by apply (P4 i j t).
  - done.
  - split.
    + intros y Hy. apply (user_same m m' pgdir y Hpte) in Hy. rewrite Hfr by done.
      destruct (uo_frame _ _ _ Ho y Hy) as (Q1 & Q2 & Q3 & Q4). split; [done|]. split; [done|]. split; [done|].
      intros i Hi. rewrite Htab by done. by apply Q4.
    + intros y z Hy Hz. apply (user_same m m' pgdir _ Hpte) in Hy, Hz. rewrite !Hfr by done. by apply Ho.
  - intros y Hy. by apply Hout, Hy.
  - intros y Hy. unfold uread. rewrite Hfr by done. destruct (uo_frame _ _ _ Ho y Hy) as (Q1 & _).
    pose proof (Z.mod_pos_bound y PGSIZE ltac:(unfold PGSIZE; lia)) as Hmod.
    destruct (decide (y / PGSIZE = x / PGSIZE)) as [E|E].
    + assert (frame_of m pgdir y = f) as ->.
      { unfold f, frame_of, pte_at. destruct Hy as (Hy & _), Hu as (Hx & _). unfold KERNBASE in *.
        by destruct (page_indices y x ltac:(lia) ltac:(lia) E) as [-> ->]. }
      unfold m'. rewrite write_bytes_spec. repeat case_decide; try lia. do 2 f_equal. lia.
    + rewrite decide_False by tauto. apply Hout. intros Hin. apply E. apply (uo_inj _ _ _ Ho y x Hy Hu). fold f.
      destruct (decide (frame_of m pgdir y = f)) as [|Hne]; [done|]. exfalso.
      apply (inpage_disjoint (frame_of m pgdir y) f (frame_of m pgdir y + y mod PGSIZE)); try done. unfold inpage. lia.
Qed.

Lemma same_map_trans free pgdir m1 m2 m3 (X Y Z : Z -> Prop) :
  same_map free pgdir m1 m2 X -> same_map free pgdir m2 m3 Y -> (forall x, X x -> Z x) ->
  (forall x, Y x -> Z x /\ 0 <= x < 2 ^ 32) -> same_map free pgdir m1 m3 Z.
Proof.
  intros [P1 E1 O1 F1] [P2 E2 O2 F2] HX HY. split; [done| |done|].
  - intros x Hx. by rewrite E2, E1.
  - intros y Hy. rewrite F2; [apply F1; intros x Hx; apply Hy; by apply HX|].
    intros x Hx. destruct (HY x Hx) as [Hz Hr]. unfold frame_of. rewrite E1 by done. by apply Hy.
Qed.

Lemma kinv_frames free s pgdir m X :
  kinv kend free s -> user_ok free pgdir (ram s) -> same_map free pgdir (ram s) m X -> byte_mem m ->
  (forall x, X x -> user (ram s) pgdir x) -> kinv kend free (with_ram m s).
Proof.
  intros Hk Ho Hs Hb HX. apply kinv_ram; [done|done|]. intros q y Hq Hy. apply (sm_out _ _ _ _ _ Hs). intros x Hx Hfy.
  destruct (uo_frame _ _ _ Ho x (HX x Hx)) as (Q1 & Q2 & _).
  pose proof (k_pages _ _ _ Hk) as Hpg. rewrite Forall_forall in Hpg.
  apply (inpage_disjoint q (frame_of (ram s) pgdir x) y); try done; [by apply Hpg|]. intros ->. done.
Qed.

(** The user memory after [bs] was copied to [va]. *)
Definition copied (va : Z) (bs : list Z) (old : Z -> Z) (y : Z) : Z :=
  if decide (va <= y < va + Z.of_nat (length bs)) then u8 (nth (Z.to_nat (y - va)) bs 0) else old y.

(** The bytes copied up to the end of the page of [va], then the others, are the bytes copied. *)
Lemma copied_page va va0 n (l : list Z) (rd mid : Z -> Z) y :
  va0 mod PGSIZE = 0 -> va0 <= va -> 0 <= n <= Z.of_nat (length l) -> n <= PGSIZE - (va - va0) ->
  (n < Z.of_nat (length l) -> va0 + PGSIZE = va + n) ->
  mid y = (if decide (y / PGSIZE = va0 / PGSIZE /\ va - va0 <= y mod PGSIZE < va - va0 + Z.of_nat (Z.to_nat n))
           then u8 (nth (Z.to_nat (y mod PGSIZE - (va - va0))) (take (Z.to_nat n) l) 0) else rd y) ->
  copied (va0 + PGSIZE) (drop (Z.to_nat n) l) mid y = copied va l rd y.
Proof.
  intros Hm0 H0 Hn Hn' Hnext Hmid. unfold copied. rewrite length_drop.
  assert (Z.of_nat (length l - Z.to_nat n) = Z.of_nat (length l) - n) as -> by lia.
  rewrite Hmid. destruct (decide (va0 + PGSIZE <= y < va0 + PGSIZE + (Z.of_nat (length l) - n))) as [H1|H1].
  - rewrite decide_True by lia. f_equal. rewrite nth_lookup, lookup_drop, nth_lookup. do 2 f_equal. lia.
  - assert (y / PGSIZE = va0 / PGSIZE <-> va0 <= y < va0 + PGSIZE) as Hpg by (unfold PGSIZE in *; zdm).
    destruct (decide (y / PGSIZE = va0 / PGSIZE /\ va - va0 <= y mod PGSIZE < va - va0 + Z.of_nat (Z.to_nat n))) as [[H2 H3]|H2].
    + assert (y mod PGSIZE = y - va0) as Ey by (apply Hpg in H2; unfold PGSIZE in *; zdm).
      rewrite decide_True by lia. f_equal. rewrite !nth_lookup. rewrite lookup_take_lt by lia. do 2 f_equal. lia.
    + rewrite decide_False; [done|]. intros H3. apply H2. assert (va0 <= y < va0 + PGSIZE) as H4 by lia.
      assert (y mod PGSIZE = y - va0) as Ey by (unfold PGSIZE in *; zdm). split; [by apply Hpg|lia].
Qed.

Lemma wp_copyout_loop fuel pgdir va bs free s :
  kinv kend free s -> ptable free pgdir (ram s) -> user_ok free pgdir (ram s) -> (length bs < fuel)%nat -> 0 <= va ->
  (forall x, va <= x < va + Z.of_nat (length bs) -> user (ram s) pgdir x) ->
  exists t, copyout_loop stk fuel pgdir va bs s = Ok (0, t) /\ kinv kend free t /\
    same_map free pgdir (ram s) (ram t) (fun x => va <= x < va + Z.of_nat (length bs)) /\
    forall y, user (ram s) pgdir y -> uread (ram t) pgdir y = copied va bs (uread (ram s) pgdir) y.
Proof.
  revert va bs s. induction fuel as [|fuel IH]; intros va bs s Hk Hp Ho Hf Hva Hu; [lia|]. cbn [copyout_loop].
  destruct bs as [|b bs].
  { exists s. split; [done|]. split; [done|]. split; [by split|]. intros y _. unfold copied. by rewrite decide_False by (simpl; lia). }
  set (l := b :: bs) in *. assert (user (ram s) pgdir va) as Huva by (apply Hu; unfold l; simpl; lia).
  assert (0 <= va < KERNBASE) as Hva32 by apply Huva.
  destruct (PGROUNDDOWN_spec va ltac:(unfold KERNBASE in *; lia)) as [Hm0 H0]. set (va0 := PGROUNDDOWN va) in *.
  assert (va / PGSIZE = va0 / PGSIZE /\ va mod PGSIZE = va - va0 /\ 0 <= va0) as (Epg & Emod & Hva0) by (unfold PGSIZE in *; clearbody va0; zdm).
  assert (user (ram s) pgdir va0) as Hu0.
  { unfold user, pte_at in *. destruct (page_indices va va0 ltac:(unfold KERNBASE in *; lia) ltac:(unfold KERNBASE in *; lia) Epg) as [<- <-].
    split; [lia|apply Huva]. }
  rewrite (bind_Ok _ _ _ _ _ (wp_uva2ka pgdir va0 s free Hp Hu0)).
  destruct (uo_frame _ _ _ Ho va0 Hu0) as (Hf0 & _). destruct (page_ok_nonzero _ _ Hf0) as [Hfn _].
  rewrite (proj2 (Z.eqb_neq _ 0)) by done. remember (Z.min (PGSIZE - (va - va0)) (Z.of_nat (length l))) as n eqn:Hndef.
  assert (1 <= n <= Z.of_nat (length l) /\ n <= PGSIZE - (va - va0)) as [Hn Hn'] by (unfold l in *; cbn [length] in *; clearbody va0; lia).
  assert (length (take (Z.to_nat n) l) = Z.to_nat n) as Hlt by (rewrite length_take; lia).
  destruct (write_frame free pgdir (ram s) va0 (take (Z.to_nat n) l) (va - va0) Hp Ho Hu0 ltac:(lia) ltac:(lia)) as [Hsm Hrd].
  set (m1 := write_bytes _ _ _) in *. rewrite (bind_Ok _ _ s tt (with_ram m1 s)) by done.
  assert (kinv kend free (with_ram m1 s)) as Hk1.
  { eapply kinv_frames; [done|done|exact Hsm|apply write_bytes_byte_mem, Hk|]. by intros x <-. }
  assert (forall x, 0 <= x < 2 ^ 32 -> pte_at m1 pgdir x = pte_at (ram s) pgdir x) as Hpte by apply Hsm.
  destruct (IH (u32 (va0 + PGSIZE)) (drop (Z.to_nat n) l) (with_ram m1 s)) as (t & Ht & Hkt & Hsm2 & Hrd2).
  - done.
  - apply Hsm.
  - apply Hsm.
  - rewrite length_drop. unfold l in *. simpl in *. lia.
  - apply u32_range.
  - rewrite length_drop. intros x Hx. apply (user_same (ram s) m1 pgdir x Hpte). apply Hu.
    rewrite u32_small in Hx by (unfold KERNBASE, PGSIZE in *; lia). lia.
  - rewrite length_drop in Hsm2. simpl ram in *. rewrite u32_small in * by (unfold KERNBASE, PGSIZE in *; lia).
    assert (Z.of_nat (length l - Z.to_nat n) = Z.of_nat (length l) - n) as El by lia. rewrite El in *.
    assert (n < Z.of_nat (length l) -> va0 + PGSIZE = va + n) as Hnext by lia.
    exists t. split; [done|]. split; [done|]. split.
    + assert (same_map free pgdir (ram s) m1 (fun x => va <= x < va + Z.of_nat (length l))) as Hsm1.
      { destruct Hsm as [P1 E1 O1 F1]. split; try done. intros y Hy. apply F1. intros x <-.
        assert (frame_of (ram s) pgdir va0 = frame_of (ram s) pgdir va) as ->; [|apply Hy; lia].
        unfold frame_of, pte_at.
        by destruct (page_indices va va0 ltac:(unfold KERNBASE in *; lia) ltac:(unfold KERNBASE in *; lia) Epg) as [<- <-]. }
      eapply same_map_trans; [exact Hsm1|exact Hsm2|done|]. intros x Hx. cbn beta in *.
      assert (va <= x < va + Z.of_nat (length l)) as Hxr by lia.
      split; [done|]. destruct (Hu x Hxr) as (Hxk & _). unfold KERNBASE in *. lia.
    + intros y Hy. rewrite Hrd2 by (by apply (user_same (ram s) m1 pgdir y Hpte)).
      apply copied_page; try done; try lia. by rewrite Hrd, Hlt by done.
Qed.

(** copyout stores its bytes where user code sees them: when every page of
    the range is present and open to the user it returns 0, the bytes from va
    on read through the page table are those given, every other user byte and
    the page table itself are unchanged, and no kernel memory is touched. *)
Lemma copyout_writes pgdir va bs free s :
  kinv kend free s -> ptable free pgdir (ram s) -> user_ok free pgdir (ram s) -> 0 <= va ->
  (forall x, va <= x < va + Z.of_nat (length bs) -> user (ram s) pgdir x) ->
  exists t, copyout stk pgdir va bs s = Ok (0, t) /\ kinv kend free t /\
    (forall x, 0 <= x < 2 ^ 32 -> pte_at (ram t) pgdir x = pte_at (ram s) pgdir x) /\
    (forall y, user (ram s) pgdir y -> uread (ram t) pgdir y = copied va bs (uread (ram s) pgdir) y) /\
    (forall y, (forall x, user (ram s) pgdir x -> ~ inpage (frame_of (ram s) pgdir x) y) -> ram t y = ram s y).
Proof.
  intros Hk Hp Ho Hva Hu. destruct (wp_copyout_loop (S (length bs)) pgdir va bs free s) as (t & Ht & Hkt & Hsm & Hrd); try done; [lia|].
  exists t. split; [done|]. split; [done|]. split; [apply Hsm|]. split; [done|].
  intros y Hy. apply (sm_out _ _ _ _ _ Hsm). intros x Hx. by apply Hy, Hu.
Qed.

End props.

(** A directory at 0x80103000, empty or with one user page at address 0. *)
Module VmDemo.

Definition kend : Z := 0x80100000.
Definition dir : Z := 0x80103000.
Definition table : Z := 0x80104000.
Definition frame : Z := 0x80105000.
Definition m0 : mem := fun _ => 0.

Definition m1 : mem :=
  store32 (memset m0 table 0 PGSIZE) (dir + 4 * PDX 0) (Z.lor (Z.lor (Z.lor (V2P table) PTE_P) PTE_W) PTE_U).

Definition entry : Z := Z.lor (V2P frame) (Z.lor (Z.lor PTE_W PTE_U) PTE_P).

Definition m2 : mem := store32 m1 (table + 4 * PTX 0) entry.

Lemma page v : v mod PGSIZE = 0 -> kend <= v < 0x80200000 -> page_ok kend v.
Proof. unfold page_ok, kend, KERNBASE, PHYSTOP. intros. split; [done|]. lia. Qed.

Lemma no_tab i : tab m0 dir i = None.
Proof. done. Qed.

Lemma pt0 free : dir ∉ free -> ptable kend free dir m0.
Proof. intros H. split; [by apply page|done| |]; intros; by rewrite no_tab in *. Qed.

Definition kstate (free : Z) (m : mem) : kmem := with_ram m (with_freelist free demo_kmem).

Lemma m1_ok : ptable kend [] dir m1 /\ tab m1 dir (PDX 0) = Some table /\
  forall x, 0 <= x < 2 ^ 32 -> pte_at m1 dir x = 0.
Proof.
  destruct (new_table kend [] table dir m0 0) as (H1 & H2 & H3 & _); try done.
  - apply pt0. intros H. apply elem_of_cons in H as [H|H]; [done|by apply elem_of_nil in H].
  - apply not_elem_of_nil.
Qed.

Lemma m2_ok : ptable kend [] dir m2 /\
  forall x, 0 <= x < 2 ^ 32 -> pte_at m2 dir x = if decide (x / PGSIZE = 0) then entry else 0.
Proof.
  destruct m1_ok as (H1 & H2 & H3). destruct (set_pte kend [] dir m1 0 table entry H1 ltac:(lia) H2) as (S1 & _ & S3); [by vm_compute|].
  split; [exact S1|]. intros x Hx. rewrite S3 by done. change (0 / PGSIZE) with 0. case_decide; [done|by apply H3].
Qed.

Lemma m2_user x : user m2 dir x -> 0 <= x < PGSIZE /\ frame_of m2 dir x = frame.
Proof.
  intros (Hx & Hp & _). destruct m2_ok as [_ He]. assert (0 <= x < 2 ^ 32) as Hr by (unfold KERNBASE in *; lia).
  unfold frame_of. rewrite He in Hp |- * by done. case_decide as E; [|done]. split; [unfold PGSIZE in *; zdm|done].
Qed.

Lemma m2_tab i t : 0 <= i < 1024 -> tab m2 dir i = Some t -> t = table.
Proof.
  intros Hi. assert (tab m2 dir i = tab m1 dir i) as ->.
  { apply tab_ext; [done|]. intros y Hy. unfold m2. rewrite store32_byte. case_match; [|done]. bools. unfold inpage, dir, table, PGSIZE in *.
    change (4 * PTX 0) with 0 in *. lia. }
  destruct m1_ok as (H1 & H2 & H3). destruct (decide (i = PDX 0)) as [->|Hne]; [rewrite H2; congruence|].
  unfold tab, pde_at, m1. rewrite load32_store32_ne by (change (PDX 0) with 0 in *; lia).
  rewrite (load32_ext _ m0); [done|]. intros y Hy. rewrite memset_byte by (unfold PGSIZE; lia).
  destruct ((table <=? y) && (y <? table + PGSIZE)) eqn:E; [|reflexivity]. bools. unfold table, dir, PGSIZE in *. lia.
Qed.

Lemma m2_user_ok : user_ok kend [] dir m2.
Proof.
  split.
  - intros x Hx. destruct (m2_user x Hx) as [_ ->]. split; [by apply page|]. split; [apply not_elem_of_nil|]. split; [done|].
    intros i Hi Ht. apply m2_tab in Ht; done.
  - intros x y Hx Hy _. destruct (m2_user x Hx) as [H1 _], (m2_user y Hy) as [H2 _].
    by rewrite !Z.div_small by done.
Qed.

Lemma kinv_nil m : byte_mem m -> kinv kend [] (kstate 0 m).
Proof. intros Hm. split; simpl; try done. apply NoDup_nil_2. Qed.

End VmDemo.

Lemma mappages_maps_witness :
  exists r t, mappages (replicate 10 0) VmDemo.dir 4096 8192 0 6 (VmDemo.kstate 0 VmDemo.m0) = Ok (r, t) /\ r = -1.
Proof.
  destruct (mappages_maps VmDemo.kend (replicate 10 0) VmDemo.dir 4096 8192 0 6 [] (VmDemo.kstate 0 VmDemo.m0))
    as (r & t & free' & k & Hrun & _); try lia.
  - apply VmDemo.kinv_nil. intros x. unfold VmDemo.m0. lia.
  - apply VmDemo.pt0, not_elem_of_nil.
  - done.
  - unfold PGSIZE. lia.
  - done.
  - done.
  - exists r, t. split; [exact Hrun|]. vm_compute in Hrun. congruence.
Defined.

