(* ===== verification/VmSpace.v ===== *)
(** vm.c: address spaces.

    An address space is a page directory with its page tables and the frames of
    its user half.  The lemmas follow these pages from the free list and back:
    growing, shrinking, copying and freeing a space lose no page and leave all
    other memory alone. *)

From S2P Require Import Prelude StringC Spinlock Proc Kalloc Vm VmProps.

(** The user half has a present entry for [x]. *)
Definition mapped (m : mem) (pgdir x : Z) : Prop :=
  0 <= x < KERNBASE /\ has PTE_P (pte_at m pgdir x) = true.

(** The pages of an address space: directory, tables and frames. *)
Definition owned (m : mem) (pgdir q : Z) : Prop :=
  q = pgdir \/ (exists i, 0 <= i < 1024 /\ tab m pgdir i = Some q) \/
  exists x, mapped m pgdir x /\ frame_of m pgdir x = q.

Definition pool (free : list Z) (m : mem) (pgdir q : Z) : Prop := q ∈ free \/ owned m pgdir q.

(** Exactly the pages below [sz] are mapped. *)
Definition spans (m : mem) (pgdir sz : Z) : Prop :=
  forall x, 0 <= x < KERNBASE -> mapped m pgdir x <-> x < PGROUNDUP sz.

Section space.
Context (kend : Z) (stk : list Z).
#[local] Set Default Proof Using "Type".

(** The pages are in use, and every one for a single purpose. *)
Record space (free : list Z) (pgdir : Z) (m : mem) : Prop := {
  sp_pt : ptable kend free pgdir m;
  sp_frame x : mapped m pgdir x -> page_ok kend (frame_of m pgdir x) /\ (frame_of m pgdir x ∉ free) /\
    frame_of m pgdir x <> pgdir /\ forall i, 0 <= i < 1024 -> tab m pgdir i <> Some (frame_of m pgdir x);
  sp_inj x y : mapped m pgdir x -> mapped m pgdir y ->
    frame_of m pgdir x = frame_of m pgdir y -> x / PGSIZE = y / PGSIZE }.

(** From one state to the next no page is lost and other memory is the same. *)
Record evolves (pgdir : Z) (free : list Z) (m : mem) (free' : list Z) (m' : mem) : Prop := {
  ev_pool q : pool free' m' pgdir q <-> pool free m pgdir q;
  ev_same x : (forall q, pool free m pgdir q -> ~ inpage q x) -> m' x = m x }.

Lemma evolves_refl pgdir free m : evolves pgdir free m free m.
Proof. done. Qed.

Lemma evolves_trans pgdir f1 m1 f2 m2 f3 m3 :
  evolves pgdir f1 m1 f2 m2 -> evolves pgdir f2 m2 f3 m3 -> evolves pgdir f1 m1 f3 m3.
Proof.
  intros [P1 S1] [P2 S2]. split; [intros q; by rewrite P2|].
  intros x Hx. rewrite S2, S1; [done..|]. intros q Hq. by apply Hx, P1.
Qed.

Lemma mapped_32 m pgdir x : mapped m pgdir x -> 0 <= x < 2 ^ 32.
Proof. intros [Hx _]. unfold KERNBASE in Hx. lia. Qed.

(** A page of the space is a page of the allocator that is not free. *)
Lemma owned_page free pgdir m q : space free pgdir m -> owned m pgdir q -> page_ok kend q /\ q ∉ free.
Proof.
  intros [Hp Hf _] [->|[(i & Hi & Ht)|(x & Hx & <-)]].
  - split; apply Hp.
  - by destruct (pt_tab _ _ _ _ Hp i q Hi Ht) as (? & ? & _).
  - by destruct (Hf x Hx) as (? & ? & _).
Qed.

Lemma walk_noalloc pgdir va s :
  walkpgdir stk pgdir va false s =
    Ok (match tab (ram s) pgdir (PDX va) with Some t => t + 4 * PTX va | None => 0 end, s).
Proof.
  unfold walkpgdir, ld. erewrite bind_Ok by reflexivity. unfold tab, pde_at.
  by destruct (has PTE_P (load32 (ram s) (pgdir + 4 * PDX va))).
Qed.

(** Memory away from the directory and the tables does not matter to entries. *)
Lemma entries_ext free pgdir m m' :
  ptable kend free pgdir m ->
  (forall x, inpage pgdir x -> m' x = m x) ->
  (forall i t x, 0 <= i < 1024 -> tab m pgdir i = Some t -> inpage t x -> m' x = m x) ->
  (forall i, 0 <= i < 1024 -> tab m' pgdir i = tab m pgdir i) /\
  (forall x, 0 <= x < 2 ^ 32 -> pte_at m' pgdir x = pte_at m pgdir x).
Proof.
  intros Hp Hd Ht. assert (forall i, 0 <= i < 1024 -> tab m' pgdir i = tab m pgdir i) as Htab.
  { intros i Hi. by apply tab_ext. }
  split; [done|]. intros x Hx. destruct (PDX_spec x Hx) as [_ Hd']. apply pte_ext; [done|by apply Htab|].
  intros t y Hty. by apply (Ht (PDX x)).
Qed.

(** What is known of the entries decides what is known of the space. *)
Lemma mapped_ext pgdir m m' x :
  (forall y, 0 <= y < 2 ^ 32 -> pte_at m' pgdir y = pte_at m pgdir y) ->
  (mapped m' pgdir x <-> mapped m pgdir x) /\ (mapped m pgdir x -> frame_of m' pgdir x = frame_of m pgdir x).
Proof.
  intros H. unfold mapped, frame_of. split.
  - split; intros [Hx Hm]; (split; [done|]); [rewrite <- H|rewrite H]; try done; unfold KERNBASE in Hx; lia.
  - intros [Hx _]. rewrite H; [done|]. unfold KERNBASE in Hx. lia.
Qed.

Lemma owned_ext pgdir m m' q :
  (forall i, 0 <= i < 1024 -> tab m' pgdir i = tab m pgdir i) ->
  (forall x, 0 <= x < 2 ^ 32 -> pte_at m' pgdir x = pte_at m pgdir x) ->
  owned m' pgdir q <-> owned m pgdir q.
Proof.
  intros Ht Hp. unfold owned. apply or_iff_compat_l. split; intros [(i & Hi & H)|(x & Hx & H)].
  - left. exists i. by rewrite <- Ht.
  - right. exists x. destruct (mapped_ext pgdir m m' x Hp) as [H1 H2]. apply H1 in Hx. by rewrite <- H2.
  - left. exists i. by rewrite Ht.
  - right. exists x. destruct (mapped_ext pgdir m m' x Hp) as [H1 H2]. split; [by apply H1|by rewrite H2].
Qed.

(** A space is as before when its own pages are, whatever else happens. *)
Lemma space_frame free free' pgdir m m' :
  space free pgdir m -> (forall q x, owned m pgdir q -> inpage q x -> m' x = m x) ->
  (forall q, owned m pgdir q -> q ∉ free') ->
  space free' pgdir m' /\ (forall x, 0 <= x < 2 ^ 32 -> pte_at m' pgdir x = pte_at m pgdir x) /\
  (forall q, owned m' pgdir q <-> owned m pgdir q) /\
  forall x, mapped m pgdir x -> uread m' pgdir x = uread m pgdir x.
Proof.
  intros Hs Hm Hf. pose proof Hs as [Hp Hfr Hi]. destruct (entries_ext free pgdir m m' Hp) as [Ht He].
  { intros x. apply Hm. by left. }
  { intros i t x Hi' Hti. apply Hm. right. left. by exists i. }
  assert (forall x, (mapped m' pgdir x <-> mapped m pgdir x) /\ (mapped m pgdir x -> frame_of m' pgdir x = frame_of m pgdir x)) as Hme.
  { intros x. by apply mapped_ext. }
  split; [split; [split|..]|split; [done|split]].
  - apply Hp.
  - apply Hf. by left.
  - intros i t Hi' Hti. rewrite Ht in Hti by done. destruct (pt_tab _ _ _ _ Hp i t Hi' Hti) as (H1 & _ & H3).
    split; [done|]. split; [|done]. apply Hf. right. left. by exists i.
  - intros i j t Hi1 Hj1 Hti Htj. rewrite Ht in Hti, Htj by done. by apply (pt_inj _ _ _ _ Hp i j t).
  - intros x Hx. destruct (Hme x) as [E1 E2]. apply E1 in Hx. rewrite E2 by done.
    destruct (Hfr x Hx) as (H1 & _ & H3 & H4). split; [done|]. split; [apply Hf; right; right; by exists x|].
    split; [done|]. intros i Hi'. rewrite Ht by done. by apply H4.
  - intros x y Hx Hy. destruct (Hme x) as [E1 E2], (Hme y) as [F1 F2]. apply E1 in Hx. apply F1 in Hy.
    rewrite E2, F2 by done. by apply Hi.
  - intros q. by apply owned_ext.
  - intros x Hx. unfold uread. rewrite (proj2 (Hme x)) by done. apply (Hm (frame_of m pgdir x)).
    + right. right. by exists x.
    + unfold inpage. pose proof (Z.mod_pos_bound x PGSIZE ltac:(unfold PGSIZE; lia)). lia.
Qed.

(** ** Entries *)

Lemma pool_supply free pgdir m q :
  pool free m pgdir q <-> supply free pgdir m q \/ q = pgdir \/ exists x, mapped m pgdir x /\ frame_of m pgdir x = q.
Proof. unfold pool, supply, owned. clear. tauto. Qed.

Lemma set_pte_tabs free pgdir m va t e i :
  ptable kend free pgdir m -> 0 <= va < 2 ^ 32 -> tab m pgdir (PDX va) = Some t -> 0 <= i < 1024 ->
  tab (store32 m (t + 4 * PTX va) e) pgdir i = tab m pgdir i.
Proof.
  intros Hp Hva Ht Hi. destruct (PDX_spec va Hva) as [_ Hx]. destruct (PTX_spec va Hva) as [_ Hy].
  destruct (pt_tab _ _ _ _ Hp _ _ Hx Ht) as (Htk & _ & Hne). apply tab_ext; [done|]. intros x Hxd.
  rewrite store32_byte. case_match; [|done]. bools. exfalso.
  apply (inpage_disjoint kend t pgdir x); [done|apply Hp|done| |done]. unfold inpage, PGSIZE. lia.
Qed.

Lemma page_of x : x = PGSIZE * (x / PGSIZE) + x mod PGSIZE /\ 0 <= x mod PGSIZE < PGSIZE.
Proof. unfold PGSIZE. zdm. Qed.

Lemma frame_inpage m pgdir x : inpage (frame_of m pgdir x) (frame_of m pgdir x + x mod PGSIZE).
Proof. unfold inpage. pose proof (page_of x). lia. Qed.

Lemma pte_same_page m pgdir x y :
  0 <= x < 2 ^ 32 -> 0 <= y < 2 ^ 32 -> x / PGSIZE = y / PGSIZE -> pte_at m pgdir x = pte_at m pgdir y.
Proof. intros Hx Hy E. destruct (page_indices x y Hx Hy E) as [E1 E2]. unfold pte_at. by rewrite E1, E2. Qed.

(** kfree of the frame of [a] has changed its page; the entry is cleared. *)
Section unmap.
Context (free : list Z) (pgdir : Z) (m m1 : mem) (a t : Z).
Context (Hs : space free pgdir m) (Ha : mapped m pgdir a) (Ht : tab m pgdir (PDX a) = Some t).
Let fr := frame_of m pgdir a.
Context (Hm1 : forall x, ~ inpage fr x -> m1 x = m x).
Let m2 := store32 m1 (t + 4 * PTX a) 0.
#[local] Set Default Proof Using "Type*".

Lemma unmap_entries :
  (forall i, 0 <= i < 1024 -> tab m1 pgdir i = tab m pgdir i) /\
  (forall x, 0 <= x < 2 ^ 32 -> pte_at m1 pgdir x = pte_at m pgdir x) /\ ptable kend (fr :: free) pgdir m1.
Proof.
  pose proof Hs as [Hp Hf _]. destruct (Hf a Ha) as (F1 & F2 & F3 & F4). fold fr in F1, F2, F3, F4.
  destruct (entries_ext free pgdir m m1 Hp) as [E1 E2].
  { intros x Hx. apply Hm1. intros Hfx. by apply (inpage_disjoint kend fr pgdir x); [|apply Hp| | |]. }
  { intros i u x Hi Hu Hx. apply Hm1. intros Hfx. destruct (pt_tab _ _ _ _ Hp i u Hi Hu) as (U1 & _ & _).
    apply (inpage_disjoint kend fr u x); try done. intros <-. by apply (F4 i). }
  split; [done|]. split; [done|]. split.
  - apply Hp.
  - apply not_elem_of_cons. split; [congruence|apply Hp].
  - intros i u Hi Hu. rewrite E1 in Hu by done. destruct (pt_tab _ _ _ _ Hp i u Hi Hu) as (U1 & U2 & U3).
    split; [done|]. split; [|done]. apply not_elem_of_cons. split; [intros ->; by apply (F4 i)|done].
  - intros i j u Hi Hj Hu1 Hu2. rewrite E1 in Hu1, Hu2 by done. by apply (pt_inj _ _ _ _ Hp i j u).
Qed.

Lemma unmap_ptes :
  ptable kend (fr :: free) pgdir m2 /\
  (forall i, 0 <= i < 1024 -> tab m2 pgdir i = tab m pgdir i) /\
  (forall x, 0 <= x < 2 ^ 32 ->
     pte_at m2 pgdir x = if decide (x / PGSIZE = a / PGSIZE) then 0 else pte_at m pgdir x) /\
  (forall x, mapped m2 pgdir x <-> mapped m pgdir x /\ x / PGSIZE <> a / PGSIZE) /\
  (forall x, mapped m2 pgdir x -> frame_of m2 pgdir x = frame_of m pgdir x).
Proof.
  destruct unmap_entries as (E1 & E2 & E3). pose proof (mapped_32 _ _ _ Ha) as Ha32.
  destruct (PDX_spec a Ha32) as [_ Hd]. assert (tab m1 pgdir (PDX a) = Some t) as Ht1 by by rewrite E1.
  destruct (set_pte kend (fr :: free) pgdir m1 a t 0 E3 Ha32 Ht1) as (S1 & _ & S3); [lia|].
  assert (forall x, 0 <= x < 2 ^ 32 ->
     pte_at m2 pgdir x = if decide (x / PGSIZE = a / PGSIZE) then 0 else pte_at m pgdir x) as Hpte.
  { intros x Hx. unfold m2. rewrite S3 by done. case_decide; [done|by apply E2]. }
  split; [done|]. split; [intros i Hi; unfold m2; rewrite (set_pte_tabs (fr :: free)) by done; by apply E1|].
  split; [done|]. split.
  - intros x. unfold mapped. split.
    + intros [Hx Hm]. rewrite Hpte in Hm by (unfold KERNBASE in Hx; lia). by case_decide.
    + intros [[Hx Hm] Hn]. split; [done|]. rewrite Hpte by (unfold KERNBASE in Hx; lia). by rewrite decide_False.
  - intros x [Hx Hm]. unfold frame_of. assert (0 <= x < 2 ^ 32) as Hx' by (unfold KERNBASE in Hx; lia).
    rewrite Hpte in Hm |- * by done. by case_decide.
Qed.

Lemma unmap_space : space (fr :: free) pgdir m2.
Proof.
  destruct unmap_ptes as (P1 & P2 & P3 & P4 & P5). pose proof Hs as [Hp Hf Hi]. split; [done| |].
  - intros x Hx. rewrite P5 by done. apply P4 in Hx as [Hx Hn]. destruct (Hf x Hx) as (F1 & F2 & F3 & F4).
    split; [done|]. split; [|split; [done|]].
    + apply not_elem_of_cons. split; [|done]. intros E. by apply Hn, Hi.
    + intros i Hii. rewrite P2 by done. by apply F4.
  - intros x y Hx Hy. rewrite !P5 by done. apply P4 in Hx as [Hx _]. apply P4 in Hy as [Hy _]. by apply Hi.
Qed.

Lemma unmap_evolves : evolves pgdir free m (fr :: free) m2.
Proof.
  destruct unmap_ptes as (P1 & P2 & P3 & P4 & P5). pose proof Hs as [Hp Hf Hi].
  destruct (PDX_spec a (mapped_32 _ _ _ Ha)) as [_ Hd]. destruct (PTX_spec a (mapped_32 _ _ _ Ha)) as [_ Hy]. split.
  - intros q. split.
    + intros [[->|Hq]%elem_of_cons|[->|[(i & Hii & Hq)|(x & Hx & <-)]]].
      * right. right. right. by exists a.
      * by left.
      * right. by left.
      * right. right. left. exists i. by rewrite <- P2.
      * right. right. right. exists x. rewrite P5 by done. split; [by apply P4|done].
    + intros [Hq|[->|[(i & Hii & Hq)|(x & Hx & <-)]]].
      * left. by right.
      * right. by left.
      * right. right. left. exists i. by rewrite P2.
      * destruct (decide (x / PGSIZE = a / PGSIZE)) as [E|E].
        -- left. unfold frame_of. rewrite (pte_same_page m pgdir x a); [left|by eapply mapped_32..|done].
        -- right. right. right. exists x. rewrite P5 by by apply P4. split; [by apply P4|done].
  - intros x Hx. unfold m2. rewrite store32_byte. case_match; bools.
    + exfalso. apply (Hx t); [right; right; left; by exists (PDX a)|]. unfold inpage, PGSIZE. lia.
    + apply Hm1, Hx. right. right. right. by exists a.
    + apply Hm1, Hx. right. right. right. by exists a.
Qed.

Lemma unmap_uread x : mapped m2 pgdir x -> uread m2 pgdir x = uread m pgdir x.
Proof.
  destruct unmap_ptes as (P1 & P2 & P3 & P4 & P5). pose proof Hs as [Hp Hf Hi]. intros Hx. unfold uread.
  rewrite P5 by done. apply P4 in Hx as [Hx Hn]. destruct (Hf x Hx) as (F1 & F2 & F3 & F4).
  destruct (PDX_spec a (mapped_32 _ _ _ Ha)) as [_ Hd]. destruct (PTX_spec a (mapped_32 _ _ _ Ha)) as [_ Hy].
  destruct (pt_tab _ _ _ _ Hp _ _ Hd Ht) as (T1 & _ & _). pose proof (frame_inpage m pgdir x) as Hin.
  assert (~ inpage fr (frame_of m pgdir x + x mod PGSIZE)) as Hout.
  { intros Hfx. destruct (Hf a Ha) as (A1 & _). apply (inpage_disjoint kend (frame_of m pgdir x) fr _ F1 A1) in Hin; [done| |done].
    intros E. by apply Hn, Hi. }
  unfold m2. rewrite store32_byte. case_match; bools; [exfalso|by apply Hm1..].
  apply (inpage_disjoint kend (frame_of m pgdir x) t _ F1 T1) in Hin; [done| |unfold inpage, PGSIZE in *; lia].
  intros E. apply (F4 (PDX a)); [done|congruence].
Qed.

End unmap.

(** ** deallocuvm *)

(** The pages from [a] to [b] are unmapped, the others as before. *)
Record shrunk (pgdir a b : Z) (free : list Z) (m : mem) (free' : list Z) (m' : mem) : Prop := {
  sh_space : space free' pgdir m';
  sh_evolves : evolves pgdir free m free' m';
  sh_gone x : 0 <= x < 2 ^ 32 -> a <= x < b -> has PTE_P (pte_at m' pgdir x) = false;
  sh_kept x : 0 <= x < 2 ^ 32 -> ~ a <= x < b -> pte_at m' pgdir x = pte_at m pgdir x;
  sh_read x : mapped m' pgdir x -> uread m' pgdir x = uread m pgdir x }.

(** Nothing was mapped. *)
Lemma shrunk_none pgdir a b free m :
  space free pgdir m -> (forall x, a <= x < b -> has PTE_P (pte_at m pgdir x) = false) -> shrunk pgdir a b free m free m.
Proof. intros Hs Hx. split; try done. intros x _. by apply Hx. Qed.

Lemma shrunk_mapped pgdir a b free m free' m' x :
  shrunk pgdir a b free m free' m' -> mapped m' pgdir x -> mapped m pgdir x /\ ~ a <= x < b.
Proof.
  intros [_ _ Hg Hk _] Hm. pose proof (mapped_32 _ _ _ Hm) as Hx.
  destruct (decide (a <= x < b)) as [E|E]; [destruct Hm as [_ Hm]; by rewrite Hg in Hm|].
  split; [|done]. destruct Hm as [H1 H2]. split; [done|]. by rewrite <- Hk.
Qed.

Lemma shrunk_trans pgdir a c b f1 m1 f2 m2 f3 m3 :
  0 <= a -> a <= c -> c <= b -> b <= 2 ^ 32 ->
  shrunk pgdir a c f1 m1 f2 m2 -> shrunk pgdir c b f2 m2 f3 m3 -> shrunk pgdir a b f1 m1 f3 m3.
Proof.
  intros Ha0 Hac Hcb Hb H1 H2. pose proof H2 as [S2 E2 G2 K2 R2]. destruct H1 as [S1 E1 G1 K1 R1]. split.
  - done.
  - by eapply evolves_trans.
  - intros x Hr Hx. destruct (decide (c <= x)); [apply G2; lia|]. rewrite K2 by lia. apply G1; lia.
  - intros x Hx Hn. rewrite K2, K1 by lia. done.
  - intros x Hx. rewrite R2 by done. apply R1. by apply (shrunk_mapped _ _ _ _ _ _ _ x H2).
Qed.

Lemma in_page a x : a mod PGSIZE = 0 -> x / PGSIZE = a / PGSIZE <-> a <= x < a + PGSIZE.
Proof. unfold PGSIZE. intros. zdm. Qed.

(** One page of the loop that is mapped. *)
Lemma shrunk_unmap free pgdir m m1 a t :
  space free pgdir m -> mapped m pgdir a -> a mod PGSIZE = 0 -> tab m pgdir (PDX a) = Some t ->
  (forall x, ~ inpage (frame_of m pgdir a) x -> m1 x = m x) ->
  shrunk pgdir a (a + PGSIZE) free m (frame_of m pgdir a :: free) (store32 m1 (t + 4 * PTX a) 0).
Proof.
  intros Hs Ha Ham Ht Hm1. destruct (unmap_ptes free pgdir m m1 a t Hs Ha Ht Hm1) as (_ & _ & P3 & _ & _).
  assert (0 <= a < KERNBASE) as Ha' by apply Ha. split.
  - by apply (unmap_space free pgdir m m1 a t).
  - by apply (unmap_evolves free pgdir m m1 a t).
  - intros x Hr Hx. rewrite P3 by done. by rewrite decide_True by by apply in_page.
  - intros x Hx Hn. rewrite P3 by done. by rewrite decide_False by by rewrite in_page.
  - by apply (unmap_uread free pgdir m m1 a t).
Qed.

(** The address after a directory entry without a table. *)
Lemma next_dir a : 0 <= a < KERNBASE -> a mod PGSIZE = 0 ->
  exists n, u32 (u32 (PGADDR (PDX a + 1) 0 0 - PGSIZE) + PGSIZE) = n /\ n mod PGSIZE = 0 /\ a + PGSIZE <= n <= KERNBASE /\
    forall x, a <= x < n -> PDX x = PDX a.
Proof.
  intros Ha Ham. assert (0 <= a < 2 ^ 32) as Ha32 by (unfold KERNBASE in Ha; lia).
  destruct (PDX_spec a Ha32) as [E Hd]. exists ((a / 2 ^ 22 + 1) * 2 ^ 22). unfold KERNBASE, PGSIZE in *.
  split; [|split; [|split]].
  - unfold PGADDR. rewrite E, !Z.lor_0_r, Z.shiftl_mul_pow2 by lia.
    change (2 ^ 22) with 4194304 in *. rewrite (u32_small (_ * _)) by zdm. rewrite u32_add_l.
    rewrite u32_small; [lia|zdm].
  - change (2 ^ 22) with 4194304. zdm.
  - change (2 ^ 22) with 4194304. zdm.
  - intros x Hx. change (2 ^ 22) with 4194304 in *. destruct (PDX_spec x) as [-> _]; [zdm|]. rewrite E.
    change (2 ^ 22) with 4194304. zdm.
Qed.

(** A turn of the loop at a page that has a table. *)
Lemma wp_dealloc_page pgdir a tb free s (Q : unit -> kmem -> Prop) :
  kinv kend free s -> space free pgdir (ram s) -> 0 <= a < KERNBASE -> a mod PGSIZE = 0 ->
  tab (ram s) pgdir (PDX a) = Some tb ->
  (forall free' t, kinv kend free' t -> shrunk pgdir a (a + PGSIZE) free (ram s) free' (ram t) -> Q tt t) ->
  let e := pte_at (ram s) pgdir a in
  wp (when (has PTE_P e) (when (PTE_ADDR e =? 0) (panic "kfree");; kfree kend stk (P2V (PTE_ADDR e));; st (tb + 4 * PTX a) 0)) s Q.
Proof.
  intros Hk Hs Ha Ham Et HQ e. assert (0 <= a < 2 ^ 32) as Ha32 by (unfold KERNBASE in *; lia). apply wp_when; intros Hpr.
  2:{ apply (HQ free); [done|]. apply shrunk_none; [done|]. intros x Hxr.
      rewrite (pte_same_page _ _ x a); [done|unfold KERNBASE, PGSIZE in *; lia|done|by apply in_page]. }
  assert (mapped (ram s) pgdir a) as Hma by done. destruct (sp_frame _ _ _ Hs a Hma) as (F1 & F2 & _ & _).
  assert (PTE_ADDR e <> 0) as Hne.
  { intros E. unfold frame_of, P2V in F1. fold e in F1. rewrite E in F1. destruct F1 as (_ & _ & F1 & _). lia. }
  apply wp_bind. rewrite (proj2 (Z.eqb_neq _ 0)) by done. apply wp_ret, wp_bind.
  apply (wp_kfree kend stk (frame_of (ram s) pgdir a) free s); [done..|]. intros t Hkt _ Hrt. apply wp_modify.
  assert (forall x, ~ inpage (frame_of (ram s) pgdir a) x -> ram t x = ram s x) as Hrt'.
  { intros x Hx'. apply Hrt. unfold inpage in Hx'. lia. }
  apply (HQ (frame_of (ram s) pgdir a :: free)); [|by apply shrunk_unmap].
  apply kinv_ram; [done|apply store32_byte_mem, Hkt|]. intros q x Hq Hxq. rewrite store32_byte. case_match; [|done]. bools. exfalso.
  destruct (unmap_entries free pgdir (ram s) (ram t) a tb Hs Hma Et Hrt') as (E1 & _ & E3).
  destruct (PDX_spec a Ha32) as [_ Hd]. destruct (PTX_spec a Ha32) as [_ Hx].
  assert (tab (ram t) pgdir (PDX a) = Some tb) as Et' by by rewrite E1.
  destruct (pt_tab _ _ _ _ E3 _ _ Hd Et') as (T1 & T2 & _). pose proof (k_pages _ _ _ Hkt) as Hpg. rewrite Forall_forall in Hpg.
  apply (inpage_disjoint kend q tb x); [by apply Hpg|done|congruence|done|]. unfold inpage, PGSIZE. lia.
Qed.

Lemma wp_deallocuvm_loop fuel pgdir a oldsz free s (Q : unit -> kmem -> Prop) :
  kinv kend free s -> space free pgdir (ram s) -> 0 <= a -> a mod PGSIZE = 0 -> 0 <= oldsz <= KERNBASE ->
  oldsz <= a + PGSIZE * Z.of_nat fuel ->
  (forall free' t, kinv kend free' t -> shrunk pgdir a (Z.max a (PGROUNDUP oldsz)) free (ram s) free' (ram t) -> Q tt t) ->
  wp (deallocuvm_loop kend stk fuel pgdir a oldsz) s Q.
Proof.
  intros Hk Hs Ha Ham Ho. destruct (PGROUNDUP_spec oldsz) as [Hom Hob]; [unfold KERNBASE, PGSIZE in *; lia|].
  set (b := PGROUNDUP oldsz) in *.
  revert a free s Hk Hs Ha Ham. induction fuel as [|fuel IH]; intros a free s Hk Hs Ha Ham Hf HQ; cbn [deallocuvm_loop].
  { apply wp_ret, (HQ free); [done|]. apply shrunk_none; [done|]. unfold PGSIZE in *. intros x Hx. exfalso. zdm. }
  destruct (Z.ltb_spec a oldsz) as [Hlt|Hge].
  2:{ apply wp_ret, (HQ free); [done|]. apply shrunk_none; [done|]. unfold PGSIZE in *. intros x Hx. exfalso. zdm. }
  assert (a + PGSIZE <= b) as Hab by (unfold PGSIZE in *; zdm). rewrite Z.max_r in HQ by (unfold PGSIZE in *; lia).
  assert (0 <= a < KERNBASE) as Hak by lia. assert (0 <= a < 2 ^ 32) as Ha32 by (unfold KERNBASE in *; lia).
  assert (b <= KERNBASE) as Hbk by (unfold KERNBASE, PGSIZE in *; zdm).
  (* go on at [c], when the pages up to it are gone *)
  assert (forall c free1 s1, c mod PGSIZE = 0 -> a + PGSIZE <= c -> kinv kend free1 s1 ->
    shrunk pgdir a (Z.min c b) free (ram s) free1 (ram s1) ->
    wp (deallocuvm_loop kend stk fuel pgdir c oldsz) s1 Q) as Hnext.
  { intros c free1 s1 Hcm Hc Hk1 Hsh. apply (IH c free1 s1); try done; [by apply (sh_space _ _ _ _ _ _ _ Hsh)|unfold PGSIZE in *; lia..|].
    intros free2 t Hk2 Hsh2. apply (HQ free2); [done|]. unfold KERNBASE in *. destruct (Z.le_gt_cases c b) as [Hcb|Hcb].
    - rewrite Z.min_l in Hsh by lia. rewrite Z.max_r in Hsh2 by lia. eapply (shrunk_trans pgdir a c b); try done; lia.
    - rewrite Z.min_r in Hsh by lia. rewrite Z.max_l in Hsh2 by lia.
      eapply (shrunk_trans pgdir a b b); try done; [lia..|]. destruct Hsh2 as [S2 E2 G2 K2 R2].
      split; try done; [lia|]. intros x Hx _. apply K2; [done|lia]. }
  apply wp_bind. eapply wp_run; [apply walk_noalloc|]. destruct (PDX_spec a Ha32) as [_ Hd]. destruct (PTX_spec a Ha32) as [_ Hx].
  destruct (tab (ram s) pgdir (PDX a)) as [tb|] eqn:Et.
  2:{ destruct (next_dir a Hak Ham) as (n & -> & Hnm & Hn & Hpdx). cbn. apply (Hnext n free s); [done|lia|done|].
      apply shrunk_none; [done|]. intros x Hxr. unfold pte_at. rewrite Hpdx, Et by lia. done. }
  destruct (pt_tab _ _ _ _ (sp_pt _ _ _ Hs) _ _ Hd Et) as (Htb & _). assert (KERNBASE < tb) by apply Htb.
  rewrite (proj2 (Z.eqb_neq _ 0)) by (unfold KERNBASE in *; lia). apply wp_bind, wp_gets.
  assert (load32 (ram s) (tb + 4 * PTX a) = pte_at (ram s) pgdir a) as -> by (unfold pte_at; by rewrite Et).
  apply wp_bind. rewrite u32_small by (unfold KERNBASE, PGSIZE in *; lia).
  apply (wp_dealloc_page pgdir a tb free s); try done. intros free1 t Hkt Hsh.
  apply (Hnext (a + PGSIZE) free1); [unfold PGSIZE in *; zdm|lia|done|by rewrite Z.min_l by lia].
Qed.

Lemma wp_deallocuvm pgdir oldsz newsz free s (Q : Z -> kmem -> Prop) :
  kinv kend free s -> space free pgdir (ram s) -> 0 <= newsz -> newsz < oldsz <= KERNBASE ->
  (forall free' t, kinv kend free' t -> shrunk pgdir (PGROUNDUP newsz) (PGROUNDUP oldsz) free (ram s) free' (ram t) -> Q newsz t) ->
  wp (deallocuvm kend stk pgdir oldsz newsz) s Q.
Proof.
  intros Hk Hs Hn Ho HQ. unfold deallocuvm. rewrite (proj2 (Z.leb_gt _ _)) by lia.
  destruct (PGROUNDUP_spec newsz) as [Hnm Hnb]; [unfold KERNBASE, PGSIZE in *; lia|].
  destruct (PGROUNDUP_spec oldsz) as [Hom Hob]; [unfold KERNBASE, PGSIZE in *; lia|].
  apply wp_bind. apply (wp_deallocuvm_loop _ pgdir (PGROUNDUP newsz) oldsz free s); try done; try lia.
  - unfold PGSIZE in *. zdm.
  - intros free' t Hkt Hsh. apply wp_ret, (HQ free'); [done|]. rewrite Z.max_r in Hsh; [done|]. unfold PGSIZE in *. zdm.
Qed.

(** ** A new page *)

Definition entry_of (v perm : Z) : Z := Z.lor (Z.lor (V2P v) perm) PTE_P.

Lemma entry_of_parts v perm :
  page_ok kend v -> 0 <= perm < PGSIZE ->
  0 <= entry_of v perm < 2 ^ 32 /\ has PTE_P (entry_of v perm) = true /\ P2V (PTE_ADDR (entry_of v perm)) = v /\
  forall b, 0 <= b < PGSIZE -> Z.land (entry_of v perm) b = Z.land (Z.lor perm PTE_P) b.
Proof.
  intros Hv Hp. destruct (V2P_page _ _ Hv) as (_ & Hr & Hm & Hpv). unfold entry_of. rewrite <- Z.lor_assoc.
  destruct (entry_parts (V2P v) (Z.lor perm PTE_P) Hr Hm (flags_present perm Hp)) as (Ea & Eb & El).
  split; [done|]. split; [|split; [by rewrite Ea|done]].
  unfold has. rewrite El by (unfold PTE_P, PGSIZE; lia). rewrite Z.land_lor_distr_l. unfold PTE_P.
  change (Z.land 1 1) with 1. apply negb_true_iff, Z.eqb_neq. intros E. apply Z.lor_eq_0_iff in E as [_ E]. done.
Qed.

(** The page [v], that nobody had, is now at [a]. *)
Record added (pgdir a v perm : Z) (free : list Z) (m : mem) (free' : list Z) (m' : mem) : Prop := {
  ad_space : space free' pgdir m';
  ad_pte x : 0 <= x < 2 ^ 32 ->
    pte_at m' pgdir x = if decide (x / PGSIZE = a / PGSIZE) then entry_of v perm else pte_at m pgdir x;
  ad_pool q : pool free' m' pgdir q <-> q = v \/ pool free m pgdir q;
  ad_same x : outside free pgdir m x -> m' x = m x }.

Lemma added_intro pgdir a v perm free m free' m' :
  space free pgdir m -> 0 <= a < KERNBASE -> has PTE_P (pte_at m pgdir a) = false ->
  page_ok kend v -> v ∉ free -> ~ owned m pgdir v -> 0 <= perm < PGSIZE ->
  suffix free' free -> ptable kend free' pgdir m' -> framed pgdir free m free' m' ->
  (forall x, 0 <= x < 2 ^ 32 ->
     pte_at m' pgdir x = if decide (x / PGSIZE = a / PGSIZE) then entry_of v perm else pte_at m pgdir x) ->
  added pgdir a v perm free m free' m'.
Proof.
  intros Hs Ha Hnp Hv Hvf Hvo Hperm Hsuf Hpt [Hfs Hfq] Hpte. pose proof Hs as [Hp Hf Hi].
  destruct (entry_of_parts v perm Hv Hperm) as (_ & Hep & Hev & _).
  assert (0 <= a < 2 ^ 32) as Ha32 by (unfold KERNBASE in Ha; lia).
  assert (forall x, 0 <= x < KERNBASE -> 0 <= x < 2 ^ 32) as H32 by (unfold KERNBASE; lia).
  assert (forall x, mapped m' pgdir x -> x / PGSIZE = a / PGSIZE /\ frame_of m' pgdir x = v \/
     x / PGSIZE <> a / PGSIZE /\ mapped m pgdir x /\ frame_of m' pgdir x = frame_of m pgdir x) as Hcase.
  { intros x [Hx Hm]. unfold mapped, frame_of. rewrite Hpte in Hm |- * by auto. case_decide; [by left|by right]. }
  assert (forall x, mapped m pgdir x -> mapped m' pgdir x /\ frame_of m' pgdir x = frame_of m pgdir x) as Hold.
  { intros x [Hx Hm]. unfold mapped, frame_of. rewrite Hpte by auto. case_decide as E; [|done].
    rewrite (pte_same_page m pgdir x a), Hnp in Hm; [done|auto..|done]. }
  assert (mapped m' pgdir a /\ frame_of m' pgdir a = v) as [Hma Hfa].
  { unfold mapped, frame_of. rewrite Hpte, decide_True by done. done. }
  assert (forall q, q ∈ free' -> q ∈ free) as Hsub by (destruct Hsuf as [l ->]; intros q Hq; apply elem_of_app; by right).
  assert (forall q, supply free pgdir m q -> q ∈ free \/ owned m pgdir q) as Hso.
  { intros q [Hq|Hq]; [by left|right; right; by left]. }
  split; [split|done| |done].
  - done.
  - intros x Hx. destruct (Hcase x Hx) as [[_ ->]|(_ & Hmx & ->)].
    + split; [done|]. split; [by intros H%Hsub|]. split; [intros ->; apply Hvo; by left|].
      intros i Hi' Ht. destruct (Hso v) as [?|?]; [|done..]. apply Hfq. right. by exists i.
    + destruct (Hf x Hmx) as (F1 & F2 & F3 & F4). split; [done|]. split; [by intros H%Hsub|]. split; [done|].
      intros i Hi' Ht. destruct (proj1 (Hfq (frame_of m pgdir x))) as [?|(j & Hj & Htj)]; [right; by exists i|done|by apply (F4 j)].
  - assert (forall y, mapped m pgdir y -> v <> frame_of m pgdir y) as Hvy.
    { intros y Hy E. apply Hvo. right. right. by exists y. }
    intros x y Hx Hy. destruct (Hcase x Hx) as [[Ex ->]|(_ & Hmx & ->)], (Hcase y Hy) as [[Ey ->]|(_ & Hmy & ->)]; intros E.
    + congruence.
    + by apply Hvy in E.
    + symmetry in E. by apply Hvy in E.
    + by apply Hi.
  - intros q. rewrite !pool_supply, Hfq. split.
    + intros [?|[?|(x & Hx & <-)]]; [tauto..|]. destruct (Hcase x Hx) as [[_ ->]|(_ & Hmx & ->)]; [tauto|].
      right. right. right. by exists x.
    + intros [->|[?|[?|(x & Hx & <-)]]]; [|tauto..|].
      * right. right. by exists a.
      * right. right. exists x. by apply Hold.
Qed.

Lemma wp_map_fresh pgdir a v perm free s (Q : Z -> kmem -> Prop) :
  kinv kend free s -> space free pgdir (ram s) -> 0 <= a < KERNBASE -> a mod PGSIZE = 0 ->
  has PTE_P (pte_at (ram s) pgdir a) = false ->
  page_ok kend v -> v ∉ free -> ~ owned (ram s) pgdir v -> 0 <= perm < PGSIZE ->
  (free = [] -> forall t, kinv kend [] t -> ram t = ram s -> Q (-1) t) ->
  (forall free' t, kinv kend free' t -> added pgdir a v perm free (ram s) free' (ram t) -> Q 0 t) ->
  wp (mappages stk pgdir a PGSIZE (V2P v) perm) s Q.
Proof.
  intros Hk Hs Ha Ham Hnp Hv Hvf Hvo Hperm HQ0 HQ. unfold mappages.
  assert (0 <= a < 2 ^ 32) as Ha32 by (unfold KERNBASE in Ha; lia).
  assert (PGROUNDDOWN a = a) as Ea.
  { destruct (PGROUNDDOWN_spec a Ha32) as [H1 H2]. unfold PGSIZE in *. zdm. }
  assert (PGROUNDDOWN (u32 (a + PGSIZE - 1)) = a) as El.
  { rewrite u32_small by (unfold KERNBASE, PGSIZE in *; lia).
    destruct (PGROUNDDOWN_spec (a + PGSIZE - 1)) as [H1 H2]; unfold KERNBASE, PGSIZE in *; [lia|]. zdm. }
  rewrite Ea, El, Z.sub_diag. cbn [mappages_loop]. destruct (entry_of_parts v perm Hv Hperm) as (He & _).
  apply (wp_map_page kend stk pgdir a (entry_of v perm) free s); try done; [apply Hs|].
  intros free' t Hsuf Hkt Hpt Hfr Hpte. rewrite Z.eqb_refl. apply wp_ret, (HQ free'); [done|].
  by apply added_intro.
Qed.

(** A page in use that is neither the directory nor a table. *)
Lemma outside_page free pgdir m s q x :
  kinv kend free s -> ptable kend free pgdir m -> page_ok kend q -> q <> pgdir -> ~ supply free pgdir m q ->
  inpage q x -> outside free pgdir m x.
Proof.
  intros Hk Hp Hq Hd Hns Hx. split.
  - intros Hxd. by apply (inpage_disjoint kend q pgdir x); [|apply Hp| | |].
  - intros r Hr Hxr. apply (inpage_disjoint kend q r x); [done| |intros ->; done|done|done].
    destruct Hr as [Hr|(i & Hi & Hr)].
    + pose proof (k_pages _ _ _ Hk) as Hpg. rewrite Forall_forall in Hpg. by apply Hpg.
    + by destruct (pt_tab _ _ _ _ Hp i r Hi Hr).
Qed.

Lemma added_reads pgdir a v perm free m free' m' s :
  kinv kend free s -> space free pgdir m -> 0 <= a < KERNBASE -> has PTE_P (pte_at m pgdir a) = false ->
  page_ok kend v -> v ∉ free -> ~ owned m pgdir v -> 0 <= perm < PGSIZE ->
  added pgdir a v perm free m free' m' ->
  (forall x, mapped m pgdir x -> uread m' pgdir x = uread m pgdir x) /\
  (forall x, 0 <= x < KERNBASE -> x / PGSIZE = a / PGSIZE -> uread m' pgdir x = m (v + x mod PGSIZE)).
Proof.
  intros Hk Hs Ha Hnp Hv Hvf Hvo Hperm [_ Hpte _ Hsame]. pose proof Hs as [Hp Hf _].
  assert (forall x, 0 <= x < KERNBASE -> 0 <= x < 2 ^ 32) as H32 by (unfold KERNBASE; lia).
  split; intros x Hx.
  - unfold uread, frame_of at 1. destruct Hx as [Hx Hm]. rewrite Hpte by auto. rewrite decide_False.
    2:{ intros E. rewrite (pte_same_page m pgdir x a), Hnp in Hm; [done|auto..|done]. }
    destruct (Hf x) as (F1 & F2 & F3 & F4); [done|]. apply Hsame.
    apply (outside_page free pgdir m s (frame_of m pgdir x)); try done; [|apply frame_inpage].
    intros [?|(i & Hi & Ht)]; [done|by apply (F4 i)].
  - intros E. unfold uread, frame_of. rewrite Hpte, decide_True by auto.
    destruct (entry_of_parts v perm Hv Hperm) as (_ & _ & -> & _). apply Hsame.
    apply (outside_page free pgdir m s v); try done.
    + intros ->. apply Hvo. by left.
    + intros [?|Ht]; [done|]. apply Hvo. right. by left.
    + unfold inpage. pose proof (page_of x). lia.
Qed.

(** kalloc has taken [v] and its page was filled. *)
Lemma fill_space pgdir v free m m1 s :
  kinv kend (v :: free) s -> space (v :: free) pgdir m -> (forall x, ~ inpage v x -> m1 x = m x) ->
  space free pgdir m1 /\ (forall x, 0 <= x < 2 ^ 32 -> pte_at m1 pgdir x = pte_at m pgdir x) /\
  (forall q, owned m1 pgdir q <-> owned m pgdir q) /\ forall x, mapped m pgdir x -> uread m1 pgdir x = uread m pgdir x.
Proof.
  intros Hk Hs Hm. pose proof (k_pages _ _ _ Hk) as Hpg. apply Forall_cons in Hpg as [Hv _]. apply (space_frame (v :: free)).
  - done.
  - intros q x Hq Hx. apply Hm. intros Hvx. destruct (owned_page _ _ _ _ Hs Hq) as [Hqp Hqf].
    apply (inpage_disjoint kend q v x); try done. intros ->. apply Hqf. by left.
  - intros q Hq Hin. destruct (owned_page _ _ _ _ Hs Hq) as [_ Hqf]. apply Hqf. by right.
Qed.

(** A page of the free list, filled to [m1], is now at [a]. *)
Record attached (pgdir a v perm : Z) (free : list Z) (m m1 : mem) (free' : list Z) (m' : mem) : Prop := {
  at_space : space free' pgdir m';
  at_evolves : evolves pgdir free m free' m';
  at_pte x : 0 <= x < 2 ^ 32 ->
    pte_at m' pgdir x = if decide (x / PGSIZE = a / PGSIZE) then entry_of v perm else pte_at m pgdir x;
  at_read x : mapped m pgdir x -> uread m' pgdir x = uread m pgdir x;
  at_new x : 0 <= x < KERNBASE -> x / PGSIZE = a / PGSIZE -> uread m' pgdir x = m1 (v + x mod PGSIZE) }.

Lemma wp_alloc_page pgdir a perm (g : Z -> mem -> mem) free s (K1 : M kmem Z) (K2 : Z -> M kmem Z) (K3 : M kmem Z) (Q : Z -> kmem -> Prop) :
  kinv kend free s -> space free pgdir (ram s) -> 0 <= a < KERNBASE -> a mod PGSIZE = 0 ->
  has PTE_P (pte_at (ram s) pgdir a) = false -> 0 <= perm < PGSIZE ->
  (forall v x, ~ inpage v x -> g v (ram s) x = ram s x) -> (forall v, byte_mem (g v (ram s))) ->
  (free = [] -> forall t, kinv kend [] t -> ram t = ram s -> wp K1 t Q) ->
  (forall v t, free = [v] -> kinv kend [] t -> ram t = g v (ram s) -> wp (K2 v) t Q) ->
  (forall v free' t, v ∈ free -> page_ok kend v -> kinv kend free' t ->
     attached pgdir a v perm free (ram s) (g v (ram s)) free' (ram t) -> wp K3 t Q) ->
  wp (v ← kalloc stk; if v =? 0 then K1 else modify (fun s => with_ram (g v (ram s)) s);;
      r ← mappages stk pgdir a PGSIZE (V2P v) perm; if r <? 0 then K2 v else K3) s Q.
Proof.
  intros Hk Hs Ha Ham Hnp Hperm Hg Hgb H1 H2 H3. apply wp_bind. apply (wp_kalloc kend stk free s); [done|].
  intros t Hu Hr. destruct free as [|v free]; [intros Hkt; by apply H1|]. intros Hkt.
  pose proof (k_pages _ _ _ Hk) as Hpg. apply Forall_cons in Hpg as [Hv Hpg].
  pose proof (k_nodup _ _ _ Hk) as Hnd. apply NoDup_cons in Hnd as [Hvf _].
  destruct (page_ok_nonzero _ _ Hv) as [Hv0 _]. rewrite (proj2 (Z.eqb_neq v 0)) by done.
  destruct (fill_space pgdir v free (ram s) (g v (ram s)) s Hk Hs (Hg v)) as (S1 & S2 & S3 & S4).
  assert (~ owned (g v (ram s)) pgdir v) as Hvo.
  { rewrite S3. intros Ho. destruct (owned_page _ _ _ _ Hs Ho) as [_ Hn]. apply Hn. by left. }
  apply wp_bind, wp_modify, wp_bind. rewrite Hr.
  assert (kinv kend free (with_ram (g v (ram s)) t)) as Hk1.
  { apply kinv_ram; [done|apply Hgb|]. intros q x Hq Hx. rewrite Hr. apply Hg. intros Hvx. rewrite Forall_forall in Hpg.
    apply (inpage_disjoint kend q v x); try done; [by apply Hpg|congruence]. }
  assert (has PTE_P (pte_at (g v (ram s)) pgdir a) = false) as Hnp1 by (rewrite S2; [done|unfold KERNBASE in Ha; lia]).
  apply (wp_map_fresh pgdir a v perm free); try done.
  - intros -> u Hku Hru. by apply (H2 v).
  - intros free' u Hku Had. cbn [Z.ltb]. apply (H3 v free'); [by left|done|done|].
    destruct (added_reads pgdir a v perm free (g v (ram s)) free' (ram u) _ Hk1 S1 Ha Hnp1 Hv Hvf Hvo Hperm Had) as [R1 R2].
    destruct Had as [A1 A2 A3 A4]. cbn [ram with_ram] in *. split.
    + done.
    + split.
      * intros q. rewrite A3. unfold pool. rewrite S3, elem_of_cons. clear. tauto.
      * intros x Hx. rewrite A4.
        -- apply Hg, Hx. left. by left.
        -- split; [apply Hx; right; by left|]. intros q [Hq|(i & Hi & Hq)]; apply Hx.
           ++ left. by right.
           ++ right. apply S3. right. left. by exists i.
    + intros x Hx. rewrite A2 by done. case_decide; [done|by apply S2].
    + intros x Hx. rewrite R1; [by apply S4|]. by apply (mapped_ext pgdir (ram s)).
    + done.
Qed.

(** ** allocuvm *)

(** The pages from [a] to [b] are new: writable by the user, and zero. *)
Record grown (pgdir a b : Z) (free : list Z) (m : mem) (free' : list Z) (m' : mem) : Prop := {
  gr_space : space free' pgdir m';
  gr_evolves : evolves pgdir free m free' m';
  gr_new x : a <= x < b -> user m' pgdir x /\ has PTE_W (pte_at m' pgdir x) = true /\ uread m' pgdir x = 0;
  gr_kept x : 0 <= x < 2 ^ 32 -> ~ a <= x < b -> pte_at m' pgdir x = pte_at m pgdir x;
  gr_read x : mapped m pgdir x -> ~ a <= x < b -> uread m' pgdir x = uread m pgdir x }.

Lemma grown_none pgdir a b free m : space free pgdir m -> b <= a -> grown pgdir a b free m free m.
Proof. intros Hs Hab. split; try done. intros x Hx. lia. Qed.

Lemma user_mapped m pgdir x : user m pgdir x -> mapped m pgdir x.
Proof. by intros (? & ? & _). Qed.

Lemma kept_mapped m m' pgdir x : pte_at m' pgdir x = pte_at m pgdir x -> mapped m pgdir x -> mapped m' pgdir x.
Proof. intros E [Hx Hm]. split; [done|]. by rewrite E. Qed.

Lemma grown_trans pgdir a c b f1 m1 f2 m2 f3 m3 :
  0 <= a -> a <= c -> c <= b -> b <= KERNBASE ->
  grown pgdir a c f1 m1 f2 m2 -> grown pgdir c b f2 m2 f3 m3 -> grown pgdir a b f1 m1 f3 m3.
Proof.
  intros Ha Hac Hcb Hb [S1 E1 N1 K1 R1] [S2 E2 N2 K2 R2].
  assert (forall x, 0 <= x < KERNBASE -> 0 <= x < 2 ^ 32) as H32 by (unfold KERNBASE; lia). split.
  - done.
  - by eapply evolves_trans.
  - intros x Hx. destruct (decide (c <= x)); [apply N2; lia|]. destruct (N1 x) as ((X1 & X2 & X3) & X4 & X5); [lia|].
    unfold user. rewrite K2 by (auto || lia). rewrite R2; [done| |lia]. done.
  - intros x Hx Hn. rewrite K2, K1 by lia. done.
  - intros x Hx Hn. rewrite R2, R1; try done; try lia. apply (kept_mapped m1); [|done]. apply K1; [by eapply mapped_32|lia].
Qed.

(** Growing inside of what is then cut off leaves nothing. *)
Lemma grown_shrunk pgdir a b c d f1 m1 f2 m2 f3 m3 :
  a <= c -> d <= b -> grown pgdir c d f1 m1 f2 m2 -> shrunk pgdir a b f2 m2 f3 m3 -> shrunk pgdir a b f1 m1 f3 m3.
Proof.
  intros Hac Hdb [S1 E1 N1 K1 R1] H2. pose proof H2 as [S2 E2 G2 K2 R2]. split; try done.
  - by eapply evolves_trans.
  - intros x Hx Hn. rewrite K2, K1 by lia. done.
  - intros x Hx. rewrite R2 by done. destruct (shrunk_mapped _ _ _ _ _ _ _ _ H2 Hx) as [Hm Hn].
    assert (0 <= x < 2 ^ 32) by by eapply mapped_32. apply R1; [|lia].
    apply (kept_mapped m2); [|done]. symmetry. apply K1; [done|lia].
Qed.

Lemma zero_fill v m x : ~ inpage v x -> memset m v 0 PGSIZE x = m x.
Proof. intros Hx. rewrite memset_byte by (unfold PGSIZE; lia). unfold inpage in Hx. case_match; [bools; lia|done]. Qed.

Lemma attached_grown pgdir a v free m free' m' :
  space free pgdir m -> page_ok kend v -> 0 <= a < KERNBASE -> a mod PGSIZE = 0 ->
  attached pgdir a v (Z.lor PTE_W PTE_U) free m (memset m v 0 PGSIZE) free' m' ->
  grown pgdir a (a + PGSIZE) free m free' m'.
Proof.
  intros Hs Hv Ha Ham [A1 A2 A3 A4 A5]. split; try done.
  - intros x Hx. assert (x / PGSIZE = a / PGSIZE) as E by by apply in_page.
    assert (0 <= x < KERNBASE) as Hx' by (unfold KERNBASE, PGSIZE in *; zdm).
    destruct (entry_of_parts v (Z.lor PTE_W PTE_U) Hv) as (_ & Hp & _ & Hb); [by vm_compute|].
    unfold user. rewrite A3, decide_True by (done || unfold KERNBASE in *; lia). split; [split; [done|split; [done|]]|split].
    + unfold has. by rewrite Hb by by vm_compute.
    + unfold has. by rewrite Hb by by vm_compute.
    + rewrite A5 by done. rewrite memset_byte by (unfold PGSIZE; lia). pose proof (page_of x).
      case_match; [done|]. bools; lia.
  - intros x Hx Hn. rewrite A3 by done. rewrite decide_False; [done|]. by rewrite in_page.
  - intros x Hx _. by apply A4.
Qed.

(** The last page goes back to the free list. *)
Lemma shrunk_give pgdir a b v m m1 free' m2 m3 s :
  kinv kend [v] s -> space [v] pgdir m -> (forall x, ~ inpage v x -> m1 x = m x) ->
  shrunk pgdir a b [] m1 free' m2 -> v ∉ free' -> (forall x, ~ inpage v x -> m3 x = m2 x) ->
  shrunk pgdir a b [v] m (v :: free') m3.
Proof.
  intros Hk Hs Hm1 Hsh Hvf Hm3. destruct (fill_space pgdir v [] m m1 s Hk Hs Hm1) as (F1 & F2 & F3 & F4).
  pose proof Hsh as [S2 E2 G2 K2 R2]. pose proof (k_pages _ _ _ Hk) as Hpg. apply Forall_cons in Hpg as [Hv _].
  assert (forall q, owned m2 pgdir q -> owned m pgdir q) as Hsub.
  { intros q Hq. assert (pool [] m1 pgdir q) as [H|H]; [apply E2; by right|by apply elem_of_nil in H|by apply F3]. }
  destruct (space_frame free' (v :: free') pgdir m2 m3 S2) as (T1 & T2 & T3 & T4).
  { intros q x Hq Hx. apply Hm3. intros Hvx. destruct (owned_page _ _ _ _ S2 Hq) as [Hqp _].
    destruct (owned_page _ _ _ _ Hs (Hsub q Hq)) as [_ Hqv].
    apply (inpage_disjoint kend q v x); try done. intros ->. apply Hqv. by left. }
  { intros q Hq. destruct (owned_page _ _ _ _ S2 Hq) as [_ Hqp]. destruct (owned_page _ _ _ _ Hs (Hsub q Hq)) as [_ Hqv].
    apply not_elem_of_cons. split; [intros ->; apply Hqv; by left|done]. }
  assert (forall x, (mapped m3 pgdir x <-> mapped m2 pgdir x)) as Hme by (intros x; by apply mapped_ext). split.
  - done.
  - split.
    + intros q. unfold pool. rewrite T3, elem_of_cons, list_elem_of_singleton. pose proof (ev_pool _ _ _ _ _ E2 q) as Hq.
      unfold pool in Hq. rewrite F3 in Hq. assert (q ∉ []) by apply not_elem_of_nil. tauto.
    + intros x Hx. rewrite Hm3, (ev_same _ _ _ _ _ E2), Hm1; [done| | |]; try (apply Hx; left; by left).
      intros q [Hq|Hq]; [by apply elem_of_nil in Hq|]. apply Hx. right. by apply F3.
  - intros x Hr Hx. rewrite T2 by done. by apply G2.
  - intros x Hx Hn. by rewrite T2, K2, F2.
  - intros x Hx. apply Hme in Hx. rewrite T4, R2 by done. apply F4. apply (mapped_ext pgdir m m1 x F2).
    by apply (shrunk_mapped _ _ _ _ _ _ _ _ Hsh).
Qed.

Lemma wp_allocuvm_loop fuel pgdir a oldsz newsz free s (Q : Z -> kmem -> Prop) :
  kinv kend free s -> space free pgdir (ram s) -> 0 <= oldsz <= newsz -> newsz < KERNBASE ->
  PGROUNDUP oldsz <= a -> a mod PGSIZE = 0 -> newsz <= a + PGSIZE * Z.of_nat fuel ->
  (forall x, a <= x < PGROUNDUP newsz -> has PTE_P (pte_at (ram s) pgdir x) = false) ->
  (forall free' t, kinv kend free' t -> shrunk pgdir (PGROUNDUP oldsz) (PGROUNDUP newsz) free (ram s) free' (ram t) -> Q 0 t) ->
  (forall free' t, kinv kend free' t -> grown pgdir a (Z.max a (PGROUNDUP newsz)) free (ram s) free' (ram t) -> Q newsz t) ->
  wp (allocuvm_loop kend stk fuel pgdir a oldsz newsz) s Q.
Proof.
  intros Hk Hs Ho Hn. destruct (PGROUNDUP_spec newsz) as [Hnm Hnb]; [unfold KERNBASE, PGSIZE in *; lia|].
  destruct (PGROUNDUP_spec oldsz) as [_ Hob]; [unfold KERNBASE, PGSIZE in *; lia|].
  set (B := PGROUNDUP newsz) in *. set (A := PGROUNDUP oldsz) in *.
  assert (B <= KERNBASE) as HBk by (unfold KERNBASE, PGSIZE in *; zdm).
  revert a free s Hk Hs. induction fuel as [|fuel IH]; intros a free s Hk Hs HAa Ham Hf Hnp HQ0 HQ; cbn [allocuvm_loop].
  { apply wp_ret, (HQ free); [done|]. apply grown_none; [done|]. unfold PGSIZE in *. zdm. }
  destruct (Z.ltb_spec a newsz) as [Hlt|Hge].
  2:{ apply wp_ret, (HQ free); [done|]. apply grown_none; [done|]. unfold PGSIZE in *. zdm. }
  assert (a + PGSIZE <= B) as HaB by (unfold PGSIZE in *; zdm). rewrite Z.max_r in HQ by (unfold PGSIZE in *; lia).
  apply (wp_alloc_page pgdir a (Z.lor PTE_W PTE_U) (fun v m => memset m v 0 PGSIZE) free s); try done.
  - unfold KERNBASE, PGSIZE in *. lia.
  - apply Hnp. unfold PGSIZE in *. lia.
  - intros v x. apply zero_fill.
  - intros v. by apply memset_byte_mem; [unfold PGSIZE; lia|apply Hk].
  - intros -> t Hkt Hr. apply wp_bind. apply (wp_deallocuvm pgdir newsz oldsz [] t); [done|by rewrite Hr|lia..|].
    intros free' u Hku Hsh. apply wp_ret, (HQ0 free'); [done|]. by rewrite Hr in Hsh.
  - intros v t -> Hkt Hr. destruct (fill_space pgdir v [] (ram s) (ram t) s Hk Hs) as (S1 & _ & S3 & _).
    { intros x Hx. rewrite Hr. by apply zero_fill. }
    apply wp_bind. apply (wp_deallocuvm pgdir newsz oldsz [] t); [done|done|lia..|]. intros free' u Hku Hsh.
    assert (v ∉ free') as Hvf.
    { intros Hv. assert (pool [] (ram t) pgdir v) as [H|H]; [apply (sh_evolves _ _ _ _ _ _ _ Hsh); by left|by apply elem_of_nil in H|].
      apply S3 in H. destruct (owned_page _ _ _ _ Hs H) as [_ H']. apply H'. by left. }
    pose proof (k_pages _ _ _ Hk) as Hpg. apply Forall_cons in Hpg as [Hv _].
    apply wp_bind. apply (wp_kfree kend stk v free' u); [done..|]. intros w Hkw _ Hrw. apply wp_ret, (HQ0 (v :: free')); [done|].
    eapply (shrunk_give pgdir A B v (ram s) (ram t) free' (ram u) (ram w) s); try done.
    + intros x Hx. rewrite Hr. by apply zero_fill.
    + intros x Hx. apply Hrw. unfold inpage in Hx. lia.
  - intros v free1 t Hv Hvp Hkt Hat. apply attached_grown in Hat; [|done|done|unfold KERNBASE, PGSIZE in *; lia|done].
    apply (IH (a + PGSIZE) free1 t); try done.
    + apply Hat.
    + unfold PGSIZE in *. lia.
    + unfold PGSIZE in *. zdm.
    + unfold PGSIZE in *. lia.
    + intros x Hx. unfold KERNBASE, PGSIZE in *. rewrite (gr_kept _ _ _ _ _ _ _ Hat) by lia. apply Hnp. lia.
    + intros free' u Hku Hsh. apply (HQ0 free'); [done|]. by eapply (grown_shrunk pgdir A B a (a + PGSIZE)).
    + intros free' u Hku Hgr. apply (HQ free'); [done|]. rewrite Z.max_r in Hgr by lia.
      eapply (grown_trans pgdir a (a + PGSIZE) B); try done; unfold PGSIZE in *; lia.
Qed.

Lemma wp_allocuvm pgdir oldsz newsz free s (Q : Z -> kmem -> Prop) :
  kinv kend free s -> space free pgdir (ram s) -> 0 <= oldsz <= newsz -> newsz < KERNBASE ->
  (forall x, PGROUNDUP oldsz <= x < PGROUNDUP newsz -> has PTE_P (pte_at (ram s) pgdir x) = false) ->
  (forall free' t, kinv kend free' t -> shrunk pgdir (PGROUNDUP oldsz) (PGROUNDUP newsz) free (ram s) free' (ram t) -> Q 0 t) ->
  (forall free' t, kinv kend free' t -> grown pgdir (PGROUNDUP oldsz) (PGROUNDUP newsz) free (ram s) free' (ram t) -> Q newsz t) ->
  wp (allocuvm kend stk pgdir oldsz newsz) s Q.
Proof.
  intros Hk Hs Ho Hn Hnp HQ0 HQ. unfold allocuvm. rewrite (proj2 (Z.leb_gt _ _)), (proj2 (Z.ltb_ge _ _)) by lia.
  destruct (PGROUNDUP_spec newsz) as [Hnm Hnb]; [unfold KERNBASE, PGSIZE in *; lia|].
  destruct (PGROUNDUP_spec oldsz) as [Hom Hob]; [unfold KERNBASE, PGSIZE in *; lia|].
  apply (wp_allocuvm_loop _ pgdir (PGROUNDUP oldsz) oldsz newsz free s); try done.
  - unfold PGSIZE in *. zdm.
  - intros free' t Hkt Hgr. apply (HQ free'); [done|]. rewrite Z.max_r in Hgr; [done|]. unfold PGSIZE in *. zdm.
Qed.

(** ** freevm *)

(** The tables up to [i] are free, the directory is not touched. *)
Record freeing (pgdir : Z) (free : list Z) (m : mem) (i : nat) (free' : list Z) (m' : mem) : Prop := {
  fg_free q : q ∈ free' <-> q ∈ free \/ exists j, 0 <= j < Z.of_nat i /\ tab m pgdir j = Some q;
  fg_dir x : inpage pgdir x -> m' x = m x;
  fg_same x : (forall q, supply free pgdir m q -> ~ inpage q x) -> m' x = m x }.

Lemma wp_free_tables pgdir free s (Q : unit -> kmem -> Prop) :
  kinv kend free s -> ptable kend free pgdir (ram s) ->
  (forall free' t, kinv kend free' t -> freeing pgdir free (ram s) NPDENTRIES free' (ram t) -> Q tt t) ->
  wp (for_n NPDENTRIES 0 (fun i =>
        e ← ld (pgdir + 4 * Z.of_nat i); when (has PTE_P e) (kfree kend stk (P2V (PTE_ADDR e))))) s Q.
Proof.
  intros Hk Hp HQ.
  apply (wp_for (fun i t => exists free', kinv kend free' t /\ freeing pgdir free (ram s) i free' (ram t))).
  - exists free. split; [done|]. split; try done. intros q. split; [by left|]. intros [?|(j & Hj & _)]; [done|lia].
  - intros i t Hi (free1 & Hk1 & [F1 F2 F3]). assert (0 <= Z.of_nat i < 1024) as Hi' by (unfold NPDENTRIES in Hi; lia).
    apply wp_bind, wp_gets.
    assert (load32 (ram t) (pgdir + 4 * Z.of_nat i) = pde_at (ram s) pgdir (Z.of_nat i)) as ->.
    { unfold pde_at. apply load32_ext. intros x Hx. apply F2. unfold inpage, PGSIZE. lia. }
    assert (forall j q, 0 <= j < Z.of_nat (S i) -> tab (ram s) pgdir j = Some q ->
      0 <= j < Z.of_nat i \/ j = Z.of_nat i) as Hlast by lia.
    apply wp_when; intros He.
    + assert (tab (ram s) pgdir (Z.of_nat i) = Some (P2V (PTE_ADDR (pde_at (ram s) pgdir (Z.of_nat i))))) as Ht by (unfold tab; by rewrite He).
      set (v := P2V _) in *. destruct (pt_tab _ _ _ _ Hp _ _ Hi' Ht) as (V1 & V2 & V3).
      apply (wp_kfree kend stk v free1 t); [done|done| |].
      { rewrite F1. intros [?|(j & Hj & Hq)]; [done|].
        assert (j = Z.of_nat i) by (eapply (pt_inj _ _ _ _ Hp); [lia|lia|done|done]). lia. }
      intros u Hku _ Hru. exists (v :: free1). split; [done|]. split.
      * intros q. rewrite elem_of_cons, F1. split.
        -- intros [->|[?|(j & Hj & Hq)]]; [right; exists (Z.of_nat i); split; [lia|done]|by left|right; exists j; split; [lia|done]].
        -- intros [?|(j & Hj & Hq)]; [tauto|]. destruct (Hlast j q Hj Hq) as [Hlt| ->]; [right; right; by exists j|left; congruence].
      * intros x Hx. rewrite Hru; [by apply F2|]. destruct (decide (inpage v x)) as [Hvx|Hvx]; [|unfold inpage in Hvx; lia].
        exfalso. by apply (inpage_disjoint kend v pgdir x); [|apply Hp| | |].
      * intros x Hx. rewrite Hru; [by apply F3|]. assert (~ inpage v x) as Hvx by (apply Hx; right; by exists (Z.of_nat i)).
        unfold inpage in Hvx. lia.
    + exists free1. split; [done|]. split; [|done|done]. intros q. rewrite F1. split.
      * intros [?|(j & Hj & Hq)]; [by left|right; exists j; split; [lia|done]].
      * intros [?|(j & Hj & Hq)]; [by left|]. destruct (Hlast j q Hj Hq) as [Hlt| ->]; [right; by exists j|].
        unfold tab in Hq. by rewrite He in Hq.
  - intros t (free' & Hkt & Hfg). by apply (HQ free').
Qed.

(** Everything is free, and nothing else has changed. *)
Lemma wp_freevm pgdir free s (Q : unit -> kmem -> Prop) :
  kinv kend free s -> space free pgdir (ram s) ->
  (forall free' t, kinv kend free' t -> (forall q, q ∈ free' <-> pool free (ram s) pgdir q) ->
     (forall x, (forall q, pool free (ram s) pgdir q -> ~ inpage q x) -> ram t x = ram s x) -> Q tt t) ->
  wp (freevm kend stk pgdir) s Q.
Proof.
  intros Hk Hs HQ. pose proof (pt_dir _ _ _ _ (sp_pt _ _ _ Hs)) as Hd. destruct (page_ok_nonzero _ _ Hd) as [Hd0 _].
  unfold freevm. rewrite (proj2 (Z.eqb_neq _ 0)) by done. apply wp_bind.
  apply (wp_deallocuvm pgdir KERNBASE 0 free s); [done|done|lia|unfold KERNBASE; lia|]. intros free1 s1 Hk1 Hsh.
  change (PGROUNDUP 0) with 0 in Hsh. change (PGROUNDUP KERNBASE) with KERNBASE in Hsh. pose proof Hsh as [S1 [E1 E1'] _ _ _].
  assert (forall q, supply free1 pgdir (ram s1) q \/ q = pgdir <-> pool free (ram s) pgdir q) as Hpool.
  { intros q. rewrite <- E1, pool_supply. split; [tauto|]. intros [?|[?|(x & Hx & _)]]; [tauto..|].
    destruct (shrunk_mapped _ _ _ _ _ _ _ _ Hsh Hx) as [[Hr _] Hn]. done. }
  apply wp_bind. apply (wp_free_tables pgdir free1 s1); [done|apply S1|]. intros free2 s2 Hk2 [F1 F2 F3].
  assert (forall q, q ∈ free2 <-> supply free1 pgdir (ram s1) q) as Hsup by (intros q; by rewrite F1).
  assert (pgdir ∉ free2) as Hdf.
  { rewrite Hsup. intros [H|(i & Hi & Ht)]; [by apply (pt_used _ _ _ _ (sp_pt _ _ _ S1))|].
    by destruct (pt_tab _ _ _ _ (sp_pt _ _ _ S1) _ _ Hi Ht) as (_ & _ & ?). }
  apply (wp_kfree kend stk pgdir free2 s2); [done..|]. intros t Hkt _ Hrt. apply (HQ (pgdir :: free2)); [done| |].
  - intros q. rewrite elem_of_cons, Hsup, <- Hpool. tauto.
  - intros x Hx. assert (~ inpage pgdir x) as Hdx by (apply Hx; right; by left). rewrite Hrt by (unfold inpage in Hdx; lia).
    rewrite F3; [by apply E1'|]. intros q Hq. apply Hx, Hpool. by left.
Qed.

(** ** setupkvm *)

Definition ksize (k : kmap) : Z := u32 (phys_end k - phys_start k).

(** Whole pages of the kernel half. *)
Definition kmap_ok (k : kmap) : Prop :=
  KERNBASE <= virt k /\ virt k mod PGSIZE = 0 /\ 0 < ksize k /\ ksize k mod PGSIZE = 0 /\ virt k + ksize k <= 2 ^ 32 /\
  0 <= phys_start k /\ phys_start k mod PGSIZE = 0 /\ phys_start k + ksize k <= 2 ^ 32 /\
  0 <= kperm k < PGSIZE /\ has PTE_U (kperm k) = false.

(** One after the other, from [lo] on. *)
Fixpoint kmaps_from (lo : Z) (l : list kmap) : Prop :=
  match l with
  | [] => True
  | k :: l => kmap_ok k /\ lo <= virt k /\ kmaps_from (virt k + ksize k) l
  end.

(** The entry of a kernel address. *)
Definition kentry (k : kmap) (x : Z) : Z :=
  Z.lor (Z.lor (phys_start k + PGSIZE * ((x - virt k) / PGSIZE)) (kperm k)) PTE_P.

Definition kernel_half (m : mem) (pgdir : Z) (l : list kmap) : Prop :=
  forall k x, k ∈ l -> virt k <= x < virt k + ksize k -> pte_at m pgdir x = kentry k x.

(** No entry of the kernel half lets the user in. *)
Definition no_user (m : mem) (pgdir : Z) : Prop :=
  forall x, KERNBASE <= x < 2 ^ 32 -> has PTE_U (pte_at m pgdir x) = false.

Lemma kentry_no_user k x : kmap_ok k -> virt k <= x < virt k + ksize k -> has PTE_U (kentry k x) = false.
Proof.
  intros (V1 & V2 & V3 & V4 & V5 & P1 & P2 & P3 & P4 & P5) Hx. unfold kentry. rewrite <- Z.lor_assoc.
  destruct (entry_parts (phys_start k + PGSIZE * ((x - virt k) / PGSIZE)) (Z.lor (kperm k) PTE_P)) as (_ & _ & Hb).
  - unfold PGSIZE in *. zdm.
  - unfold PGSIZE in *. zdm.
  - by apply flags_present.
  - unfold has in *. rewrite Hb by (unfold PTE_U, PGSIZE; lia). rewrite Z.land_lor_distr_l.
    change (Z.land PTE_P PTE_U) with 0. by rewrite Z.lor_0_r.
Qed.

Lemma wp_map_kmap pgdir k free s :
  kinv kend free s -> ptable kend free pgdir (ram s) -> kmap_ok k ->
  (forall x, virt k <= x < 2 ^ 32 -> has PTE_P (pte_at (ram s) pgdir x) = false) ->
  wp (mappages stk pgdir (virt k) (ksize k) (phys_start k) (kperm k)) s (fun r t => exists free',
    suffix free' free /\ kinv kend free' t /\ ptable kend free' pgdir (ram t) /\ framed pgdir free (ram s) free' (ram t) /\
    (r = -1 \/ r = 0 /\ (forall x, virt k <= x < virt k + ksize k -> pte_at (ram t) pgdir x = kentry k x) /\
       forall x, 0 <= x < 2 ^ 32 -> ~ virt k <= x < virt k + ksize k -> pte_at (ram t) pgdir x = pte_at (ram s) pgdir x)).
Proof.
  intros Hk Hp (V1 & V2 & V3 & V4 & V5 & P1 & P2 & P3 & P4 & _) Hnp. unfold KERNBASE in V1.
  assert (PGROUNDDOWN (virt k) = virt k) as Ea.
  { destruct (PGROUNDDOWN_spec (virt k) ltac:(lia)) as [H1 H2]. unfold PGSIZE in *. zdm. }
  assert (PGROUNDDOWN (virt k + ksize k - 1) = virt k + ksize k - PGSIZE) as El.
  { destruct (PGROUNDDOWN_spec (virt k + ksize k - 1) ltac:(lia)) as [H1 H2]. unfold PGSIZE in *. zdm. }
  assert (PGSIZE * Z.of_nat (S (Z.to_nat ((virt k + ksize k - PGSIZE - virt k) / PGSIZE))) = ksize k) as En by (unfold PGSIZE in *; zdm).
  eapply wp_mono; [apply (wp_mappages kend stk pgdir (virt k) (ksize k) (phys_start k) (kperm k) free s); try done; try lia|].
  - rewrite Ea, El, En. intros x Hx. apply Hnp. lia.
  - intros r t (free' & n & H1 & H2 & H3 & H4 & H5 & H6). exists free'. split_and!; try done.
    destruct H5 as [[-> ->]|(-> & _ & _)]; [right|by left]. split; [done|].
    rewrite Ea, El in H6. split; intros x Hx; [|intros Hn]; rewrite H6 by lia; unfold mapped_run; rewrite En.
    + by rewrite decide_True by lia.
    + by rewrite decide_False by lia.
Qed.

Lemma wp_map_all l pgdir lo free s (Q : Z -> kmem -> Prop) :
  kinv kend free s -> ptable kend free pgdir (ram s) -> KERNBASE <= lo -> kmaps_from lo l ->
  (forall x, lo <= x < 2 ^ 32 -> has PTE_P (pte_at (ram s) pgdir x) = false) -> no_user (ram s) pgdir ->
  (forall free' t r, suffix free' free -> kinv kend free' t -> ptable kend free' pgdir (ram t) ->
     framed pgdir free (ram s) free' (ram t) ->
     r = 0 \/ r = pgdir /\ kernel_half (ram t) pgdir l /\ no_user (ram t) pgdir /\
       (forall x, 0 <= x < lo -> pte_at (ram t) pgdir x = pte_at (ram s) pgdir x) -> Q r t) ->
  wp (map_all stk pgdir l) s Q.
Proof.
  intros Hk Hp Hlo Hl. revert lo free s Hk Hp Hlo Hl Q.
  induction l as [|k l IH]; intros lo free s Hk Hp Hlo Hl Q Hnp Hnu HQ; cbn [map_all].
  { apply wp_ret, (HQ free); try done. right. split; [done|]. split; [|done]. by intros k x Hx%elem_of_nil. }
  destruct Hl as (Hko & Hlk & Hl). pose proof Hko as (V1 & V2 & V3 & V4 & V5 & _). fold (ksize k).
  apply wp_bind. eapply wp_mono; [apply (wp_map_kmap pgdir k free s); try done; intros x Hx; apply Hnp; lia|].
  intros r t (free1 & Hsuf & Hkt & Hpt & Hfr & Hr). destruct Hr as [->|(-> & Hin & Hout)]; cbn [Z.ltb Z.compare].
  { apply wp_ret, (HQ free1); try done. by left. }
  apply (IH (virt k + ksize k) free1 t); try done; [lia| | |].
  - intros x Hx. unfold KERNBASE in *. rewrite Hout by lia. apply Hnp. lia.
  - intros x Hx. destruct (decide (virt k <= x < virt k + ksize k)) as [E|E].
    + rewrite Hin by done. by apply kentry_no_user.
    + rewrite Hout; [by apply Hnu|unfold KERNBASE in *; lia|done].
  - intros free2 u r Hs2 Hku Hpu Hfu Hr. apply (HQ free2); try done; [by etrans|by eapply framed_trans|].
    destruct Hr as [->|(-> & Hkh & Hun & Hlow)]; [by left|right]. split; [done|]. split; [|split; [done|]].
    + intros k' x [->|Hk']%elem_of_cons Hx; [|by apply Hkh]. rewrite Hlow by (unfold KERNBASE in *; lia). by apply Hin.
    + intros x Hx. unfold KERNBASE in *. rewrite Hlow, Hout by lia. done.
Qed.

(** A space without user pages. *)
Lemma space_empty free pgdir m : ptable kend free pgdir m -> (forall x, ~ mapped m pgdir x) -> space free pgdir m.
Proof. intros Hp Hn. split; [done| |]; intros x; [|intros y]; intros Hx; by apply Hn in Hx. Qed.

(** A directory of zeros has no tables. *)
Lemma zero_dir v m : (forall i, 0 <= i < 1024 -> tab (memset m v 0 PGSIZE) v i = None) /\
  forall x, 0 <= x < 2 ^ 32 -> pte_at (memset m v 0 PGSIZE) v x = 0.
Proof.
  assert (forall i, 0 <= i < 1024 -> tab (memset m v 0 PGSIZE) v i = None) as Ht.
  { intros i Hi. unfold tab, pde_at, load32. rewrite !memset_byte by (unfold PGSIZE; lia).
    assert (forall k, 0 <= k < 4 -> (v <=? v + 4 * i + k) && (v + 4 * i + k <? v + PGSIZE) = true) as Hk.
    { intros k Hk. apply andb_true_iff. rewrite Z.leb_le, Z.ltb_lt. unfold PGSIZE. lia. }
    pose proof (Hk 0 ltac:(lia)) as H0. rewrite Z.add_0_r in H0. by rewrite H0, !Hk by lia. }
  split; [done|]. intros x Hx. destruct (PDX_spec x Hx) as [_ Hd]. unfold pte_at. by rewrite Ht.
Qed.

Lemma wp_setupkvm data free s (Q : Z -> kmem -> Prop) :
  kinv kend free s -> kmaps_from KERNBASE (kmaps data) ->
  (forall free' t, (forall q, q ∈ free' -> q ∈ free) -> kinv kend free' t ->
     (forall x, (forall q, q ∈ free -> ~ inpage q x) -> ram t x = ram s x) -> Q 0 t) ->
  (forall pgdir free' t, pgdir ∈ free -> pgdir <> 0 -> kinv kend free' t -> space free' pgdir (ram t) ->
     (forall x, ~ mapped (ram t) pgdir x) -> kernel_half (ram t) pgdir (kmaps data) -> no_user (ram t) pgdir ->
     (forall q, pool free' (ram t) pgdir q <-> q ∈ free) ->
     (forall x, (forall q, q ∈ free -> ~ inpage q x) -> ram t x = ram s x) -> Q pgdir t) ->
  wp (setupkvm stk data) s Q.
Proof.
  intros Hk Hmaps HQ0 HQ. unfold setupkvm. apply wp_bind. apply (wp_kalloc kend stk free s); [done|].
  intros t Hu Hr. destruct free as [|v free].
  { intros Hkt. apply wp_ret, (HQ0 []); try done. intros x _. by rewrite Hr. }
  intros Hkt. pose proof (k_pages _ _ _ Hk) as Hpg. apply Forall_cons in Hpg as [Hv Hpg].
  pose proof (k_nodup _ _ _ Hk) as Hnd. apply NoDup_cons in Hnd as [Hvf _].
  destruct (page_ok_nonzero _ _ Hv) as [Hv0 _]. rewrite (proj2 (Z.eqb_neq v 0)) by done.
  apply wp_bind, wp_modify, wp_bind. change (DEVSPACE <? P2V PHYSTOP) with false. apply wp_ret.
  set (s1 := with_ram (memset (ram t) v 0 PGSIZE) t). destruct (zero_dir v (ram t)) as [Hz1 Hz2].
  assert (forall x, ~ inpage v x -> ram s1 x = ram s x) as Hs1.
  { intros x Hx. unfold s1. simpl. rewrite <- Hr. by apply zero_fill. }
  assert (kinv kend free s1) as Hk1.
  { apply kinv_ram; [done|by apply memset_byte_mem; [unfold PGSIZE; lia|apply Hkt]|]. intros q x Hq Hx. apply zero_fill. intros Hvx.
    rewrite Forall_forall in Hpg. apply (inpage_disjoint kend q v x); try done; [by apply Hpg|congruence]. }
  assert (ptable kend free v (ram s1)) as Hp1.
  { split; try done; intros i; intros; [|]; by rewrite Hz1 in *. }
  apply (wp_map_all (kmaps data) v KERNBASE free s1); try done; [intros x Hx; unfold KERNBASE in *; simpl; by rewrite Hz2 by lia..|].
  intros free' u r Hsuf Hku Hpu [Hfr Hsup] Hcase.
  assert (forall q, supply free' v (ram u) q <-> q ∈ free) as Hsup'.
  { intros q. rewrite Hsup. split; [|by left]. intros [?|(i & Hi & Ht)]; [done|by rewrite Hz1 in Ht]. }
  assert (forall x, (forall q, q ∈ v :: free -> ~ inpage q x) -> ram u x = ram s x) as Hsame.
  { intros x Hx. rewrite Hfr; [apply Hs1, Hx; by left|]. split; [apply Hx; by left|]. intros q Hq. apply Hx. right. by apply Hsup', Hsup. }
  destruct Hcase as [->|(-> & Hkh & Hun & Hlow)].
  - apply (HQ0 free'); try done. intros q Hq. right. apply Hsup'. by left.
  - assert (forall x, ~ mapped (ram u) v x) as Hnm.
    { intros x [Hx Hm]. rewrite Hlow in Hm by done. simpl in Hm. rewrite Hz2 in Hm by (unfold KERNBASE in *; lia). done. }
    apply (HQ v free'); try done; [by left|by apply space_empty|].
    intros q. rewrite pool_supply, Hsup', elem_of_cons. split; [|tauto]. intros [?|[?|(x & Hx & _)]]; [tauto..|by apply Hnm in Hx].
Qed.

(** ** copyuvm *)

(** The space [d] has a copy of the pages of [p] below [i]; [m0] is memory as
    it was before, and [S] the pages that were free then. *)
Record copying (p d i : Z) (m0 : mem) (S : Z -> Prop) (free : list Z) (m : mem) : Prop := {
  cp_space : space free d m;
  cp_pool q : pool free m d q <-> S q;
  cp_apart q : owned m0 p q -> ~ S q;
  cp_parent q x : owned m0 p q -> inpage q x -> m x = m0 x;
  cp_mapped x : 0 <= x < KERNBASE -> mapped m d x <-> x < i;
  cp_same x : 0 <= x < i -> uread m d x = uread m0 p x /\ PTE_FLAGS (pte_at m d x) = PTE_FLAGS (pte_at m0 p x) }.

(** The flags of an entry that is present survive. *)
Lemma entry_flags v e : page_ok kend v -> has PTE_P e = true -> PTE_FLAGS (entry_of v (PTE_FLAGS e)) = PTE_FLAGS e.
Proof.
  intros Hv He. assert (0 <= PTE_FLAGS e < PGSIZE) as Hf.
  { unfold PTE_FLAGS. change 0xFFF with (Z.ones 12). rewrite Z.land_ones by lia. apply Z.mod_pos_bound. unfold PGSIZE. lia. }
  destruct (entry_of_parts v (PTE_FLAGS e) Hv Hf) as (_ & _ & _ & Hb). unfold PTE_FLAGS at 1. rewrite Hb by (unfold PGSIZE; lia).
  assert (Z.testbit e 0 = true) as H0.
  { unfold has, PTE_P in He. apply negb_true_iff, Z.eqb_neq in He. destruct (Z.testbit e 0) eqn:E; [done|]. exfalso. apply He.
    apply Z.bits_inj'. intros n Hn. rewrite Z.land_spec, Z.bits_0. destruct (decide (n = 0)) as [->|Hn0]; [by rewrite E|].
    rewrite (Z.bits_above_log2 1 n) by (simpl; lia). apply andb_false_r. }
  apply Z.bits_inj'. intros n Hn. unfold PTE_FLAGS. rewrite !Z.land_spec, Z.lor_spec, Z.land_spec. unfold PTE_P.
  destruct (decide (n = 0)) as [->|Hn0]; [by rewrite H0|]. rewrite (Z.bits_above_log2 1 n) by (simpl; lia).
  rewrite orb_false_r. destruct (Z.testbit e n), (Z.testbit 0xFFF n); done.
Qed.

Lemma page_of_copied m1 m v f x :
  byte_mem m -> (forall y, m1 y = memmove m v f PGSIZE y) -> m1 (v + x mod PGSIZE) = m (f + x mod PGSIZE).
Proof.
  intros Hm H1. pose proof (page_of x) as [_ Hx]. rewrite H1, memmove_byte by (done || unfold PGSIZE; lia).
  case_match; bools; [f_equal; lia|lia..].
Qed.

Lemma copying_parent p d i m0 S free m free0 :
  space free0 p m0 -> copying p d i m0 S free m ->
  space free p m /\ (forall x, 0 <= x < 2 ^ 32 -> pte_at m p x = pte_at m0 p x) /\
  (forall q, owned m p q <-> owned m0 p q) /\ forall x, mapped m0 p x -> uread m p x = uread m0 p x.
Proof.
  intros Hs0 [C1 C2 C3 C4 C5 C6]. apply (space_frame free0); [done|done|]. intros q Hq Hin. apply (C3 q Hq), C2. by left.
Qed.

(** Pages of the parent are away from those of the child and the free ones. *)
Lemma pages_apart free0 p m0 free d m s q r x :
  kinv kend free s -> space free0 p m0 -> space free d m -> (forall q, owned m0 p q -> ~ pool free m d q) ->
  owned m0 p q -> inpage q x -> pool free m d r -> ~ inpage r x.
Proof.
  intros Hk Hs0 Hs Hap Hq Hx Hr Hrx. destruct (owned_page _ _ _ _ Hs0 Hq) as [Hqp _].
  apply (inpage_disjoint kend q r x); [done| |intros ->; by apply (Hap r)|done|done].
  destruct Hr as [Hr|Hr]; [|by destruct (owned_page _ _ _ _ Hs Hr)].
  pose proof (k_pages _ _ _ Hk) as Hpg. rewrite Forall_forall in Hpg. by apply Hpg.
Qed.

(** One page more. *)
Lemma copying_step p d i m0 S free m free' m' v free0 s (e := pte_at m0 p i) :
  kinv kend free s -> byte_mem m -> space free0 p m0 -> copying p d i m0 S free m -> page_ok kend v ->
  mapped m0 p i -> i mod PGSIZE = 0 ->
  attached d i v (PTE_FLAGS e) free m (memmove m v (P2V (PTE_ADDR e)) PGSIZE) free' m' ->
  copying p d (i + PGSIZE) m0 S free' m'.
Proof.
  intros Hk Hm Hs0 Hcp Hv Hmi Him [A1 [A2 A2'] A3 A4 A5]. pose proof Hcp as [C1 C2 C3 C4 C5 C6].
  assert (0 <= i < KERNBASE) as Hi by apply Hmi.
  assert (forall q, owned m0 p q -> ~ pool free m d q) as Hap by (intros q Hq; rewrite C2; by apply C3).
  destruct (entry_of_parts v (PTE_FLAGS e)) as (_ & Hep & _); [done|unfold PTE_FLAGS; change 0xFFF with (Z.ones 12);
    rewrite Z.land_ones by lia; apply Z.mod_pos_bound; unfold PGSIZE; lia|].
  assert (forall x, 0 <= x < KERNBASE -> x / PGSIZE = i / PGSIZE <-> i <= x < i + PGSIZE) as Hpg by (intros; by apply in_page).
  assert (forall x, 0 <= x < KERNBASE -> 0 <= x < 2 ^ 32) as H32 by (unfold KERNBASE; lia). split.
  - done.
  - intros q. by rewrite A2.
  - done.
  - intros q x Hq Hx. rewrite A2'; [by apply (C4 q)|]. intros r Hr. by apply (pages_apart free0 p m0 free d m s q r x).
  - intros x Hx. unfold mapped. rewrite A3 by auto. case_decide as E.
    + apply Hpg in E; [|done]. split; [lia|done].
    + rewrite Hpg in E by done. specialize (C5 x Hx). unfold mapped in C5. unfold PGSIZE in *. split; [intros H; apply C5 in H; lia|].
      intros H. apply C5. lia.
  - intros x Hx. assert (i + PGSIZE <= KERNBASE) as Hik by (unfold KERNBASE, PGSIZE in *; zdm).
    assert (0 <= x < KERNBASE) as Hxk by lia. rewrite A3 by auto. case_decide as E.
    + rewrite A5 by done. assert (pte_at m0 p x = e) as Ee by (apply pte_same_page; auto).
      rewrite (page_of_copied _ m v (P2V (PTE_ADDR e)) x Hm) by done. rewrite Ee. split; [|by apply entry_flags, Hmi].
      unfold uread, frame_of. rewrite Ee. apply (C4 (frame_of m0 p i)); [right; right; by exists i|].
      unfold frame_of, inpage. fold e. pose proof (page_of x). lia.
    + rewrite Hpg in E by done. destruct (C6 x) as [R1 R2]; [unfold PGSIZE in *; lia|]. split; [|done]. rewrite A4; [done|].
      apply C5; [done|]. unfold PGSIZE in *. lia.
Qed.

(** After a failure the parent is as before, and all pages but [lost] are free. *)
Definition undone (p : Z) (m0 : mem) (S : Z -> Prop) (lost free' : list Z) (m' : mem) : Prop :=
  (forall q, S q <-> q ∈ free' \/ q ∈ lost) /\ forall q x, owned m0 p q -> inpage q x -> m' x = m0 x.

(** freevm of the child, when a page [v] may have been taken for it in vain. *)
Lemma wp_copy_fails p d i m0 S lost free m free0 s t (Q : Z -> kmem -> Prop) :
  space free0 p m0 -> kinv kend free s -> copying p d i m0 S free m ->
  kinv kend [] t -> free = lost -> (lost = [] \/ exists v, lost = [v]) -> (forall x, (forall v, v ∈ lost -> ~ inpage v x) -> ram t x = m x) ->
  (forall free' u, kinv kend free' u -> undone p m0 S lost free' (ram u) -> Q 0 u) ->
  wp (freevm kend stk d;; mret 0) t Q.
Proof.
  intros Hs0 Hk [C1 C2 C3 C4 C5 C6] Hkt -> Hl Hm HQ.
  assert (forall q, owned m0 p q -> ~ pool lost m d q) as Hap by (intros q Hq; rewrite C2; by apply C3).
  destruct (space_frame lost [] d m (ram t) C1) as (S1 & _ & S3 & _).
  { intros q x Hq Hx. apply Hm. intros v Hv Hvx. destruct (owned_page _ _ _ _ C1 Hq) as [Hqp Hqf].
    pose proof (k_pages _ _ _ Hk) as Hpg. rewrite Forall_forall in Hpg.
    apply (inpage_disjoint kend q v x); try done; [by apply Hpg|congruence]. }
  { intros q _. apply not_elem_of_nil. }
  apply wp_bind. apply (wp_freevm d [] t); [done..|]. intros free' u Hku Hfree Hsame. apply wp_ret, (HQ free'); [done|]. split.
  - intros q. rewrite <- C2, Hfree. unfold pool. rewrite S3. pose proof (not_elem_of_nil q). tauto.
  - intros q x Hq Hx. assert (forall r, pool lost m d r -> ~ inpage r x) as Hr.
    { intros r Hr. by apply (pages_apart free0 p m0 lost d m s q r x). }
    rewrite Hsame, Hm; [by apply (C4 q)| |].
    + intros v Hv. apply Hr. by left.
    + intros r [H|H]; [by apply elem_of_nil in H|]. apply Hr. right. by apply S3.
Qed.

Lemma wp_copyuvm_loop fuel p d i sz m0 S free0 free s (Q : Z -> kmem -> Prop) :
  space free0 p m0 -> 0 <= sz <= KERNBASE -> (forall x, 0 <= x < sz -> mapped m0 p x) ->
  kinv kend free s -> copying p d i m0 S free (ram s) -> 0 <= i <= PGROUNDUP sz -> i mod PGSIZE = 0 ->
  sz <= i + PGSIZE * Z.of_nat fuel ->
  (forall lost free' t, (length lost <= 1)%nat -> kinv kend free' t -> undone p m0 S lost free' (ram t) -> Q 0 t) ->
  (forall free' t, kinv kend free' t -> copying p d (PGROUNDUP sz) m0 S free' (ram t) -> Q d t) ->
  wp (copyuvm_loop kend stk fuel p d i sz) s Q.
Proof.
  intros Hs0 Hsz Hmap. destruct (PGROUNDUP_spec sz) as [Hbm Hb]; [unfold KERNBASE, PGSIZE in *; lia|].
  set (b := PGROUNDUP sz) in *. revert i free s. induction fuel as [|fuel IH]; intros i free s Hk Hcp Hi Him Hf HQ0 HQ; cbn [copyuvm_loop].
  { apply wp_ret, (HQ free); [done|]. replace b with i; [done|]. unfold PGSIZE in *. zdm. }
  destruct (Z.ltb_spec i sz) as [Hlt|Hge].
  2:{ apply wp_ret, (HQ free); [done|]. replace b with i; [done|]. unfold PGSIZE in *. zdm. }
  assert (i + PGSIZE <= b) as Hib by (unfold PGSIZE in *; zdm).
  assert (0 <= i < 2 ^ 32) as Hi32 by (unfold KERNBASE in *; lia).
  destruct (copying_parent p d i m0 S free (ram s) free0 Hs0 Hcp) as (P1 & P2 & P3 & P4).
  pose proof (Hmap i ltac:(lia)) as Hmi. apply wp_bind. eapply wp_run; [apply walk_noalloc|].
  destruct (present_tab (ram s) p i) as [tb Htb]; [rewrite P2 by done; apply Hmi|]. rewrite Htb.
  destruct (PDX_spec i Hi32) as [_ Hd]. destruct (PTX_spec i Hi32) as [_ Hx]. destruct (pt_tab _ _ _ _ (sp_pt _ _ _ P1) _ _ Hd Htb) as (T1 & _).
  assert (KERNBASE < tb) by apply T1. rewrite (proj2 (Z.eqb_neq _ 0)) by (unfold KERNBASE in *; lia). apply wp_bind, wp_gets.
  assert (load32 (ram s) (tb + 4 * PTX i) = pte_at m0 p i) as -> by (rewrite <- P2 by done; unfold pte_at; by rewrite Htb).
  rewrite (proj2 Hmi). cbn [negb]. set (e := pte_at m0 p i). pose proof Hcp as [C1 C2 C3 C4 C5 C6].
  assert (forall v x, ~ inpage v x -> memmove (ram s) v (P2V (PTE_ADDR e)) PGSIZE x = ram s x) as Hmv.
  { intros v x Hvx. rewrite memmove_byte by (apply Hk || unfold PGSIZE; lia). unfold inpage in Hvx. case_match; [bools; lia|done]. }
  apply (wp_alloc_page d i (PTE_FLAGS e) (fun v m => memmove m v (P2V (PTE_ADDR e)) PGSIZE) free s); try done.
  - lia.
  - destruct (has PTE_P (pte_at (ram s) d i)) eqn:E; [|done]. assert (mapped (ram s) d i) as H' by (split; [lia|done]). apply C5 in H'; lia.
  - unfold PTE_FLAGS. change 0xFFF with (Z.ones 12). rewrite Z.land_ones by lia. apply Z.mod_pos_bound. unfold PGSIZE. lia.
  - intros v. apply memmove_byte_mem; [unfold PGSIZE; lia|apply Hk].
  - intros -> t Hkt Hr. apply (wp_copy_fails p d i m0 S [] [] (ram s) free0 s t); try done; [by left|intros x _; by rewrite Hr|].
    intros free' u. by apply (HQ0 []), Nat.le_0_l.
  - intros v t -> Hkt Hr. apply (wp_copy_fails p d i m0 S [v] [v] (ram s) free0 s t); try done; [right; by exists v| |].
    + intros x Hvx. rewrite Hr. apply Hmv, Hvx. by left.
    + intros free' u. by apply (HQ0 [v]).
  - intros v free1 t Hvf Hvp Hkt Hat. rewrite u32_small by (unfold KERNBASE, PGSIZE in *; lia).
    apply (IH (i + PGSIZE) free1 t); try done; [|unfold PGSIZE in *; lia|unfold PGSIZE in *; zdm|unfold PGSIZE in *; lia].
    by apply (copying_step p d i m0 S free (ram s) free1 (ram t) v free0 s); [|apply Hk|..].
Qed.

(** * What the routines promise *)

Lemma spans_not_mapped m pgdir sz x :
  spans m pgdir sz -> PGROUNDUP sz <= x -> 0 <= x < KERNBASE -> has PTE_P (pte_at m pgdir x) = false.
Proof.
  intros Hsz Hx Hr. destruct (has PTE_P (pte_at m pgdir x)) eqn:E; [|done]. exfalso.
  assert (x < PGROUNDUP sz); [|lia]. by apply Hsz.
Qed.

Lemma grown_spans pgdir oldsz newsz free m free' m' :
  0 <= oldsz <= newsz -> newsz < KERNBASE -> spans m pgdir oldsz ->
  grown pgdir (PGROUNDUP oldsz) (PGROUNDUP newsz) free m free' m' -> spans m' pgdir newsz.
Proof.
  intros Ho Hn Hsz [S1 E1 N1 K1 R1] x Hx.
  destruct (PGROUNDUP_spec newsz) as [Hnm Hnb]; [unfold KERNBASE, PGSIZE in *; lia|].
  destruct (PGROUNDUP_spec oldsz) as [Hom Hob]; [unfold KERNBASE, PGSIZE in *; lia|].
  assert (PGROUNDUP oldsz <= PGROUNDUP newsz) as Hon by (unfold PGSIZE in *; zdm).
  destruct (decide (PGROUNDUP oldsz <= x < PGROUNDUP newsz)) as [E|E].
  - split; [lia|]. intros _. by apply user_mapped, N1.
  - specialize (Hsz x Hx). unfold mapped in *. rewrite K1 by (done || unfold KERNBASE in *; lia). rewrite Hsz. lia.
Qed.

(** C28. allocuvm always returns.  It grows the space by zeroed pages the user
    can write, or gives up with 0 when memory runs out; in both cases what was
    mapped before keeps its frame, its permissions and its bytes, a failure
    leaves exactly the old pages mapped, no page of memory is lost, and memory
    outside of the space and the free list is the same. *)
Theorem allocuvm_grows pgdir oldsz newsz free s :
  kinv kend free s -> space free pgdir (ram s) -> spans (ram s) pgdir oldsz ->
  0 <= oldsz <= newsz -> newsz < KERNBASE ->
  exists r t free', allocuvm kend stk pgdir oldsz newsz s = Ok (r, t) /\
    kinv kend free' t /\ space free' pgdir (ram t) /\ evolves pgdir free (ram s) free' (ram t) /\
    (forall x, mapped (ram s) pgdir x ->
       pte_at (ram t) pgdir x = pte_at (ram s) pgdir x /\ uread (ram t) pgdir x = uread (ram s) pgdir x) /\
    (r = newsz /\ spans (ram t) pgdir newsz /\
       (forall x, PGROUNDUP oldsz <= x < PGROUNDUP newsz ->
          user (ram t) pgdir x /\ has PTE_W (pte_at (ram t) pgdir x) = true /\ uread (ram t) pgdir x = 0) \/
     r = 0 /\ spans (ram t) pgdir oldsz).
Proof.
  intros Hk Hs Hsz Ho Hn.
  destruct (PGROUNDUP_spec newsz) as [Hnm Hnb]; [unfold KERNBASE, PGSIZE in *; lia|].
  destruct (PGROUNDUP_spec oldsz) as [Hom Hob]; [unfold KERNBASE, PGSIZE in *; lia|].
  assert (PGROUNDUP newsz <= KERNBASE) as Hk1 by (unfold KERNBASE, PGSIZE in *; zdm).
  assert (PGROUNDUP oldsz <= PGROUNDUP newsz) as Hon by (unfold PGSIZE in *; zdm).
  assert (forall x, 0 <= x < KERNBASE -> 0 <= x < 2 ^ 32) as H32 by (unfold KERNBASE; lia).
  assert (forall x, mapped (ram s) pgdir x -> ~ PGROUNDUP oldsz <= x) as Hold.
  { intros x Hx. assert (0 <= x < KERNBASE) as Hr by apply Hx. apply Hsz in Hx; [lia|done]. }
  edestruct (wp_allocuvm pgdir oldsz newsz free s (fun r t => exists free', kinv kend free' t /\
    (r = 0 /\ shrunk pgdir (PGROUNDUP oldsz) (PGROUNDUP newsz) free (ram s) free' (ram t) \/
     r = newsz /\ grown pgdir (PGROUNDUP oldsz) (PGROUNDUP newsz) free (ram s) free' (ram t))))
    as (r & t & Hrun & free' & Hkt & Hcase); try done.
  { intros x Hx. apply (spans_not_mapped _ _ oldsz); [done|lia..]. }
  { intros free' t Hkt Hsh. exists free'. split; [done|by left]. }
  { intros free' t Hkt Hgr. exists free'. split; [done|by right]. }
  exists r, t, free'. split; [done|]. split; [done|]. destruct Hcase as [[-> [S1 E1 G1 K1 R1]]|[-> [S1 E1 N1 K1 R1]]].
  - assert (forall x, 0 <= x < KERNBASE -> mapped (ram t) pgdir x <-> mapped (ram s) pgdir x) as Hm.
    { intros x Hx. unfold mapped. destruct (decide (PGROUNDUP oldsz <= x < PGROUNDUP newsz)) as [E|E]; [|by rewrite K1 by auto].
      rewrite G1, (spans_not_mapped (ram s) pgdir oldsz) by (auto || lia). done. }
    split_and!; [done|done| |right; split; [done|]].
    + intros x Hx. assert (0 <= x < KERNBASE) by apply Hx. pose proof (Hold x Hx). split; [apply K1; [auto|lia]|]. apply R1. by apply Hm.
    + intros x Hx. rewrite Hm by done. by apply Hsz.
  - split_and!; [done|done| |left; split_and!; [done| |done]].
    + intros x Hx. assert (0 <= x < KERNBASE) by apply Hx. pose proof (Hold x Hx). split; [apply K1; [auto|lia]|]. apply R1; [done|lia].
    + by apply (grown_spans pgdir oldsz newsz free (ram s) free').
Qed.

(** C30. freevm always returns and frees every page of the space, its frames,
    its tables and the directory, each once: the free list afterwards is the
    old one and exactly these pages.  No other memory changes. *)
Theorem freevm_frees_all pgdir free s :
  kinv kend free s -> space free pgdir (ram s) ->
  exists t free', freevm kend stk pgdir s = Ok (tt, t) /\ kinv kend free' t /\
    (forall q, q ∈ free' <-> q ∈ free \/ owned (ram s) pgdir q) /\
    (forall x, (forall q, q ∈ free' -> ~ inpage q x) -> ram t x = ram s x).
Proof.
  intros Hk Hs. destruct (wp_freevm pgdir free s (fun _ t => exists free', kinv kend free' t /\
    (forall q, q ∈ free' <-> pool free (ram s) pgdir q) /\
    forall x, (forall q, pool free (ram s) pgdir q -> ~ inpage q x) -> ram t x = ram s x)) as ([] & t & Hr & free' & H1 & H2 & H3);
    [done|done|by intros free' t H1 H2 H3; exists free'|].
  exists t, free'. split_and!; try done. intros x Hx. apply H3. intros q Hq. by apply Hx, H2.
Qed.

(** C19. copyuvm always returns.  The child has the pages of the parent below sz
    and no others, with their bytes and permissions in frames of its own, and
    the kernel's mapping; or memory runs out and the result is 0.  The parent
    is untouched either way, and on success no page of memory is lost. *)
Theorem copyuvm_copies data p sz free s :
  kinv kend free s -> space free p (ram s) -> kmaps_from KERNBASE (kmaps data) ->
  0 <= sz <= KERNBASE -> (forall x, 0 <= x < sz -> mapped (ram s) p x) ->
  exists d t free', copyuvm kend stk data p sz s = Ok (d, t) /\ kinv kend free' t /\
    space free' p (ram t) /\ (forall q, owned (ram t) p q <-> owned (ram s) p q) /\
    (forall x, mapped (ram s) p x ->
       pte_at (ram t) p x = pte_at (ram s) p x /\ uread (ram t) p x = uread (ram s) p x) /\
    (d = 0 /\ (forall q, q ∈ free' -> q ∈ free) \/
     d <> 0 /\ space free' d (ram t) /\ (forall q, pool free' (ram t) d q <-> q ∈ free) /\ spans (ram t) d sz /\
       forall x, 0 <= x < PGROUNDUP sz ->
         uread (ram t) d x = uread (ram s) p x /\ PTE_FLAGS (pte_at (ram t) d x) = PTE_FLAGS (pte_at (ram s) p x)).
Proof.
  intros Hk Hs Hmaps Hsz Hmap. destruct (PGROUNDUP_spec sz) as [Hbm Hb]; [unfold KERNBASE, PGSIZE in *; lia|].
  assert (forall q x, owned (ram s) p q -> inpage q x -> forall r, r ∈ free -> ~ inpage r x) as Hap.
  { intros q x Hq Hx r Hr Hrx. destruct (owned_page _ _ _ _ Hs Hq) as [H1 H2]. pose proof (k_pages _ _ _ Hk) as Hpg.
    rewrite Forall_forall in Hpg. apply (inpage_disjoint kend q r x); try done; [by apply Hpg|congruence]. }
  enough (wp (copyuvm kend stk data p sz) s (fun d t => exists free', kinv kend free' t /\
    (d = 0 /\ (forall q, q ∈ free' -> q ∈ free) /\ (forall q x, owned (ram s) p q -> inpage q x -> ram t x = ram s x) \/
     d <> 0 /\ copying p d (PGROUNDUP sz) (ram s) (fun q => q ∈ free) free' (ram t)))) as (d & t & Hr & free' & Hkt & Hcase).
  - exists d, t, free'. split; [done|]. split; [done|]. destruct Hcase as [(-> & Hsub & Hsame)|(Hd & Hcp)].
    + destruct (space_frame free free' p (ram s) (ram t) Hs Hsame) as (P1 & P2 & P3 & P4).
      { intros q Hq Hin. destruct (owned_page _ _ _ _ Hs Hq) as [_ Hn]. by apply Hn, Hsub. }
      split_and!; try done; [|by left]. intros x Hx. split; [apply P2; by eapply mapped_32|by apply P4].
    + destruct (copying_parent p d _ _ _ _ _ free Hs Hcp) as (P1 & P2 & P3 & P4). destruct Hcp as [C1 C2 C3 C4 C5 C6].
      split_and!; try done; [|by right]. intros x Hx. split; [apply P2; by eapply mapped_32|by apply P4].
  - unfold copyuvm. apply wp_bind. apply (wp_setupkvm data free s); [done|done| |].
    { intros free' t Hsub Hkt Hsame. cbn. apply wp_ret. exists free'. split; [done|]. left. split_and!; try done.
      intros q x Hq Hx. apply Hsame. by apply (Hap q x). }
    intros d free1 t Hdf Hd0 Hkt Hsp Hnm _ _ Hpool Hsame. rewrite (proj2 (Z.eqb_neq d 0)) by done.
    apply (wp_copyuvm_loop _ p d 0 sz (ram s) (fun q => q ∈ free) free free1 t); try done.
    + split; try done.
      * intros q Hq Hin. by destruct (owned_page _ _ _ _ Hs Hq).
      * intros q x Hq Hx. apply Hsame. by apply (Hap q x).
      * intros x Hx. split; [intros H; by apply Hnm in H|lia].
      * intros x Hx. lia.
    + unfold PGSIZE in *. lia.
    + unfold PGSIZE in *. zdm.
    + intros lost free' u _ Hku [Hfree Hpar]. exists free'. split; [done|]. left. split; [done|]. split; [|done].
      intros q Hq. apply Hfree. by left.
    + intros free' u Hku Hcp. exists free'. split; [done|]. by right.
Qed.

End space.

(** * An instance: one user page at address 0, and one free page. *)

Module SpaceDemo.
Import VmDemo.

Definition spare : Z := 0x80106000.
Definition m3 : mem := store32 m2 spare 0.
Definition start : kmem := kstate spare m3.

Lemma m2_mapped x : mapped m2 dir x <-> 0 <= x < PGSIZE.
Proof.
  unfold mapped. destruct m2_ok as [_ He]. split.
  - intros [Hx Hp]. rewrite He in Hp by (unfold KERNBASE in Hx; lia). case_decide as E; [|done]. unfold PGSIZE in *. zdm.
  - intros Hx. rewrite He by (unfold PGSIZE in Hx; lia). unfold PGSIZE, KERNBASE in *. split; [lia|].
    rewrite decide_True by zdm. by vm_compute.
Qed.

Lemma m2_space : space kend [] dir m2.
Proof.
  assert (forall x, mapped m2 dir x -> user m2 dir x) as Hu.
  { intros x Hx. pose proof (proj1 (m2_mapped x) Hx) as Hr. destruct Hx as [Hk Hp]. split; [done|]. split; [done|].
    destruct m2_ok as [_ He]. rewrite He by (unfold KERNBASE in Hk; lia).
    rewrite decide_True by (unfold PGSIZE in *; zdm). by vm_compute. }
  destruct m2_user_ok as [U1 U2]. split; [apply m2_ok| |].
  - intros x Hx. by apply U1, Hu.
  - intros x y Hx Hy. apply U2; by apply Hu.
Qed.

Lemma m3_out x : ~ inpage spare x -> m3 x = m2 x.
Proof. intros Hx. unfold m3. rewrite store32_byte. case_match; [|done]. bools. unfold inpage, PGSIZE in Hx. lia. Qed.

Lemma m2_owned q : owned m2 dir q -> page_ok kend q /\ q <> spare.
Proof.
  intros Hq. split; [by destruct (owned_page kend _ _ _ _ m2_space Hq)|].
  destruct Hq as [->|[(i & Hi & Ht)|(x & Hx & <-)]]; [done| |].
  - by rewrite (m2_tab i q Hi Ht).
  - apply m2_mapped in Hx. unfold frame_of. destruct m2_ok as [_ He].
    rewrite He by (unfold PGSIZE in Hx; lia). rewrite decide_True by (unfold PGSIZE in *; zdm). by vm_compute.
Qed.

Lemma m3_space : space kend [spare] dir m3 /\ (forall x, mapped m3 dir x <-> 0 <= x < PGSIZE).
Proof.
  destruct (space_frame kend [] [spare] dir m2 m3 m2_space) as (S1 & S2 & _ & _).
  - intros q x Hq Hx. destruct (m2_owned q Hq) as [H1 H2]. apply m3_out. intros Hsx.
    apply (inpage_disjoint kend q spare x); try done.
  - intros q Hq. destruct (m2_owned q Hq) as [H1 H2]. by rewrite list_elem_of_singleton.
  - split; [done|]. intros x. rewrite <- m2_mapped. by apply mapped_ext.
Qed.

Lemma start_kinv : kinv kend [spare] start.
Proof.
  split; simpl; try done.
  - apply NoDup_singleton.
  - repeat constructor; done.
  - unfold m3, m2, m1. do 2 apply store32_byte_mem. apply store32_byte_mem, memset_byte_mem; [unfold PGSIZE; lia|].
    intros x. unfold m0. lia.
Qed.

Lemma start_spans : spans (ram start) dir 4096.
Proof. intros x Hx. destruct m3_space as [_ ->]. change (PGROUNDUP 4096) with 4096. unfold PGSIZE. lia. Qed.

End SpaceDemo.

Lemma allocuvm_grows_witness :
  exists r t free', allocuvm VmDemo.kend (replicate 10 0) VmDemo.dir 4096 6000 SpaceDemo.start = Ok (r, t) /\
    space VmDemo.kend free' VmDemo.dir (ram t).
Proof.
  destruct (allocuvm_grows VmDemo.kend (replicate 10 0) VmDemo.dir 4096 6000 [SpaceDemo.spare] SpaceDemo.start)
    as (r & t & free' & Hr & _ & Hs & _).
  - exact SpaceDemo.start_kinv.
  - apply SpaceDemo.m3_space.
  - exact SpaceDemo.start_spans.
  - lia.
  - unfold KERNBASE. lia.
  - exists r, t, free'. split; [exact Hr|exact Hs].
Defined.

Lemma freevm_frees_all_witness :
  exists t (free' : list Z), freevm VmDemo.kend (replicate 10 0) VmDemo.dir SpaceDemo.start = Ok (tt, t) /\
    VmDemo.dir ∈ free' /\ SpaceDemo.spare ∈ free'.
Proof.
  destruct (freevm_frees_all VmDemo.kend (replicate 10 0) VmDemo.dir [SpaceDemo.spare] SpaceDemo.start)
    as (t & free' & Hr & _ & Hq & _).
  - exact SpaceDemo.start_kinv.
  - apply SpaceDemo.m3_space.
  - exists t, free'. split; [exact Hr|]. split; apply Hq; [right; left; reflexivity|left; left].
Defined.

Lemma copyuvm_copies_witness :
  exists d t free', copyuvm VmDemo.kend (replicate 10 0) 0x80108000 VmDemo.dir 4096 SpaceDemo.start = Ok (d, t) /\
    space VmDemo.kend free' VmDemo.dir (ram t).
Proof.
  destruct (copyuvm_copies VmDemo.kend (replicate 10 0) 0x80108000 VmDemo.dir 4096 [SpaceDemo.spare] SpaceDemo.start)
    as (d & t & free' & Hr & _ & Hs & _).
  - exact SpaceDemo.start_kinv.
  - apply SpaceDemo.m3_space.
  - repeat split; vm_compute; congruence.
  - unfold KERNBASE. lia.
  - intros x Hx. apply SpaceDemo.m3_space. unfold PGSIZE. lia.
  - exists d, t, free'. split; [exact Hr|exact Hs].
Defined.
