(* ===== verification/UserMem.v ===== *)
(** vm.c: writing into an address space that is being built.

    copyout, clearpteu and the loading of pages change the bytes of frames, or
    one entry; these lemmas say what they leave of the rest of the space.
    copyout may fail, so its lemma is about runs that return. *)

From S2P Require Import Prelude Hoare StringC Spinlock Proc Kalloc Vm VmProps VmSpace.

(** The [n] bytes user code sees from [p] on. *)
Definition uslice (m : mem) (pgdir p : Z) (n : nat) : list Z :=
  (fun k => uread m pgdir (p + Z.of_nat k)) <$> seq 0 n.

Section usermem.
Context (kend : Z) (stk : list Z).
#[local] Set Default Proof Using "Type".

(** Only frames of mapped pages have changed. *)
Record rewritten (free : list Z) (pgdir : Z) (m m' : mem) : Prop := {
  rw_space : space kend free pgdir m';
  rw_pte x : 0 <= x < 2 ^ 32 -> pte_at m' pgdir x = pte_at m pgdir x;
  rw_owned q : owned m' pgdir q <-> owned m pgdir q;
  rw_same y : (forall x, mapped m pgdir x -> ~ inpage (frame_of m pgdir x) y) -> m' y = m y }.

Lemma rewritten_refl free pgdir m : space kend free pgdir m -> rewritten free pgdir m m.
Proof. by split. Qed.

Lemma rewritten_trans free pgdir m1 m2 m3 :
  rewritten free pgdir m1 m2 -> rewritten free pgdir m2 m3 -> rewritten free pgdir m1 m3.
Proof.
  intros [S1 P1 O1 F1] [S2 P2 O2 F2]. split; [done| | |].
  - intros x Hx. by rewrite P2, P1.
  - intros q. by rewrite O2.
  - intros y Hy. rewrite F2; [by apply F1|]. intros x Hx. destruct (mapped_ext pgdir m1 m2 x P1) as [E1 E2].
    apply E1 in Hx. rewrite E2 by done. by apply Hy.
Qed.

Lemma rewritten_evolves free pgdir m m' : rewritten free pgdir m m' -> evolves pgdir free m free m'.
Proof.
  intros [S1 P1 O1 F1]. split; [intros q; unfold pool; by rewrite O1|]. intros x Hx. apply F1. intros y Hy.
  apply Hx. right. right. right. by exists y.
Qed.

Lemma rewritten_mapped free pgdir m m' x : rewritten free pgdir m m' -> mapped m' pgdir x <-> mapped m pgdir x.
Proof. intros [_ P1 _ _]. by apply mapped_ext. Qed.

Lemma rewritten_frame free pgdir m m' x :
  rewritten free pgdir m m' -> mapped m pgdir x -> frame_of m' pgdir x = frame_of m pgdir x.
Proof. intros [_ P1 _ _]. by apply mapped_ext. Qed.

(** Any change to the frame of [x]. *)
Lemma write_space free pgdir m m' x :
  space kend free pgdir m -> mapped m pgdir x -> (forall y, ~ inpage (frame_of m pgdir x) y -> m' y = m y) ->
  rewritten free pgdir m m'.
Proof.
  intros Hs Hx Hm. pose proof Hs as [Hp Hf Hi]. destruct (Hf x Hx) as (F1 & F2 & F3 & F4).
  destruct (entries_ext kend free pgdir m m' Hp) as [Et Ep].
  { intros y Hy. apply Hm. intros Hfy. by apply (inpage_disjoint kend (frame_of m pgdir x) pgdir y); [|apply Hp| | |]. }
  { intros i t y Hi' Ht Hy. apply Hm. intros Hfy. destruct (pt_tab _ _ _ _ Hp i t Hi' Ht) as (T1 & _).
    apply (inpage_disjoint kend (frame_of m pgdir x) t y); try done. intros E. apply (F4 i); congruence. }
  split; [|done|by intros q; apply owned_ext|].
  - assert (forall y, (mapped m' pgdir y <-> mapped m pgdir y) /\ (mapped m pgdir y -> frame_of m' pgdir y = frame_of m pgdir y)) as Hme.
    { intros y. by apply mapped_ext. }
    split; [split|..].
    + apply Hp.
    + apply Hp.
    + intros i t Hi' Ht. rewrite Et in Ht by done. by apply (pt_tab _ _ _ _ Hp i t).
    + intros i j t Hi' Hj Ht1 Ht2. rewrite Et in Ht1, Ht2 by done. by apply (pt_inj _ _ _ _ Hp i j t).
    + intros y Hy. destruct (Hme y) as [E1 E2]. apply E1 in Hy. rewrite E2 by done. destruct (Hf y Hy) as (G1 & G2 & G3 & G4).
      split_and!; try done. intros i Hi'. rewrite Et by done. by apply G4.
    + intros y z Hy Hz. destruct (Hme y) as [E1 E2], (Hme z) as [E3 E4]. apply E1 in Hy. apply E3 in Hz.
      rewrite E2, E4 by done. by apply Hi.
  - intros y Hy. apply Hm. by apply Hy.
Qed.

Lemma rewritten_kinv free s pgdir m :
  kinv kend free s -> space kend free pgdir (ram s) -> rewritten free pgdir (ram s) m -> byte_mem m -> kinv kend free (with_ram m s).
Proof.
  intros Hk Hs [_ _ _ F1] Hb. apply kinv_ram; [done|done|]. intros q y Hq Hy. apply F1. intros x Hx Hfy.
  destruct (sp_frame _ _ _ _ Hs x Hx) as (Q1 & Q2 & _). pose proof (k_pages _ _ _ Hk) as Hpg. rewrite Forall_forall in Hpg.
  apply (inpage_disjoint kend q (frame_of (ram s) pgdir x) y); try done; [by apply Hpg|congruence].
Qed.

(** Bytes stored within a frame, as the user sees them. *)
Lemma write_bytes_user free pgdir m x bs off :
  space kend free pgdir m -> mapped m pgdir x -> 0 <= off -> off + Z.of_nat (length bs) <= PGSIZE ->
  let m' := write_bytes m (frame_of m pgdir x + off) bs in
  rewritten free pgdir m m' /\
  forall y, mapped m pgdir y -> uread m' pgdir y =
    if decide (y / PGSIZE = x / PGSIZE /\ off <= y mod PGSIZE < off + Z.of_nat (length bs))
    then u8 (nth (Z.to_nat (y mod PGSIZE - off)) bs 0) else uread m pgdir y.
Proof.
  intros Hs Hx Ho Hl m'. assert (forall y, ~ inpage (frame_of m pgdir x) y -> m' y = m y) as Hout.
  { intros y Hy. unfold m'. rewrite write_bytes_spec. rewrite decide_False; [done|]. unfold inpage in Hy. lia. }
  pose proof (write_space free pgdir m m' x Hs Hx Hout) as Hrw. split; [done|]. intros y Hy. unfold uread at 1.
  rewrite (rewritten_frame free pgdir m m' y Hrw Hy). pose proof (page_of y) as [_ Hym].
  destruct (decide (y / PGSIZE = x / PGSIZE)) as [E|E].
  - assert (frame_of m pgdir y = frame_of m pgdir x) as Ef.
    { unfold frame_of. rewrite (pte_same_page m pgdir y x); [done|by eapply mapped_32..|done]. }
    unfold m'. rewrite Ef, write_bytes_spec. repeat case_decide; try lia.
    + do 2 f_equal. lia.
    + unfold uread. by rewrite Ef.
  - rewrite decide_False by tauto. apply Hout. pose proof (frame_inpage m pgdir y) as Hin. intros Hfx.
    destruct (sp_frame _ _ _ _ Hs x Hx) as (X1 & _), (sp_frame _ _ _ _ Hs y Hy) as (Y1 & _).
    apply (inpage_disjoint kend (frame_of m pgdir y) (frame_of m pgdir x) _ Y1 X1) in Hin; [done| |done].
    intros Ef. by apply E, (sp_inj _ _ _ _ Hs).
Qed.

(** * copyout *)

Lemma post_uva2ka pgdir x s free (Q : Z -> kmem -> Prop) :
  space kend free pgdir (ram s) -> no_user (ram s) pgdir -> 0 <= x < 2 ^ 32 ->
  (~ user (ram s) pgdir x -> Q 0 s) -> (user (ram s) pgdir x -> Q (frame_of (ram s) pgdir x) s) ->
  post (uva2ka stk pgdir x) s Q.
Proof.
  intros Hs Hnu Hx HQ0 HQ. unfold uva2ka. apply post_bind. intros a t Hr. rewrite walk_noalloc in Hr. injection Hr as <- <-.
  destruct (tab (ram s) pgdir (PDX x)) as [tb|] eqn:Et; [|intros ? ? Hr; discriminate Hr].
  destruct (PDX_spec x Hx) as [_ Hd]. destruct (PTX_spec x Hx) as [_ Hp].
  destruct (pt_tab _ _ _ _ (sp_pt _ _ _ _ Hs) _ _ Hd Et) as (Ht & _). assert (KERNBASE < tb) by apply Ht.
  rewrite (proj2 (Z.eqb_neq _ 0)) by (unfold KERNBASE in *; lia). apply post_bind, post_gets.
  assert (load32 (ram s) (tb + 4 * PTX x) = pte_at (ram s) pgdir x) as -> by (unfold pte_at; by rewrite Et).
  destruct (has PTE_P (pte_at (ram s) pgdir x)) eqn:EP; cbn [negb].
  2:{ apply post_ret, HQ0. intros (_ & H1 & _). congruence. }
  destruct (has PTE_U (pte_at (ram s) pgdir x)) eqn:EU; cbn [negb].
  2:{ apply post_ret, HQ0. intros (_ & _ & H1). congruence. }
  apply post_ret, HQ. split; [|done]. destruct (decide (x < KERNBASE)) as [Hlt|Hge]; [lia|].
  rewrite Hnu in EU; [done|lia].
Qed.

Lemma user_rewritten free pgdir m m' x : rewritten free pgdir m m' -> user m' pgdir x <-> user m pgdir x.
Proof.
  intros [_ P1 _ _]. unfold user. split; intros (Hx & H1 & H2); (split; [done|]); [rewrite <- P1|rewrite P1]; try done; unfold KERNBASE in Hx; lia.
Qed.

(** What copyout leaves: on success all of its range is the user's. *)
Definition copyout_post (free : list Z) (pgdir va : Z) (bs : list Z) (s : kmem) (r : Z) (t : kmem) : Prop :=
  kinv kend free t /\ rewritten free pgdir (ram s) (ram t) /\ (r = 0 \/ r = -1) /\
  (r = 0 -> (forall x, va <= x < va + Z.of_nat (length bs) -> user (ram s) pgdir x) /\
     forall y, mapped (ram s) pgdir y -> uread (ram t) pgdir y = copied va bs (uread (ram s) pgdir) y).

Lemma no_user_rewritten free pgdir m m' : rewritten free pgdir m m' -> no_user m pgdir -> no_user m' pgdir.
Proof. intros [_ P1 _ _] Hn x Hx. rewrite P1 by (unfold KERNBASE in *; lia). by apply Hn. Qed.

(** A first part within the page of [va], and the rest from the next page on. *)
Lemma copied_rest va va0 n bs (old new : Z -> Z) y :
  va0 mod PGSIZE = 0 -> va0 <= va < va0 + PGSIZE -> n = Z.min (PGSIZE - (va - va0)) (Z.of_nat (length bs)) ->
  new y = (if decide (y / PGSIZE = va0 / PGSIZE /\ va - va0 <= y mod PGSIZE < va - va0 + n)
           then u8 (nth (Z.to_nat (y mod PGSIZE - (va - va0))) (take (Z.to_nat n) bs) 0) else old y) ->
  copied (va0 + PGSIZE) (drop (Z.to_nat n) bs) new y = copied va bs old y.
Proof.
  intros Hm Hv Hn Hy. unfold copied. rewrite length_drop, Hy. pose proof (in_page va0 y Hm) as Hp.
  assert (va0 <= y < va0 + PGSIZE -> y mod PGSIZE = y - va0) as Hmod by (unfold PGSIZE in *; intros; zdm).
  destruct (decide (va0 <= y < va0 + PGSIZE)) as [E|E].
  - rewrite Hmod by done. rewrite (decide_False (P := va0 + PGSIZE <= y < _)) by lia.
    destruct (decide (va <= y < va + Z.of_nat (length bs))) as [E2|E2].
    + rewrite decide_True by (split; [by apply Hp|lia]). f_equal. rewrite !nth_lookup, lookup_take, decide_True by lia.
      do 2 f_equal. lia.
    + rewrite decide_False; [done|]. intros [_ ?]. lia.
  - rewrite (decide_False (P := y / PGSIZE = va0 / PGSIZE /\ _)) by tauto.
    destruct (decide (va <= y < va + Z.of_nat (length bs))) as [E2|E2].
    + rewrite decide_True by lia. f_equal. rewrite !nth_lookup, lookup_drop. do 2 f_equal. lia.
    + rewrite decide_False by lia. done.
Qed.

Lemma post_copyout_loop fuel pgdir va bs free s :
  kinv kend free s -> space kend free pgdir (ram s) -> no_user (ram s) pgdir -> (length bs < fuel)%nat -> 0 <= va < 2 ^ 32 ->
  post (copyout_loop stk fuel pgdir va bs) s (copyout_post free pgdir va bs s).
Proof.
  revert va bs s. induction fuel as [|fuel IH]; intros va bs s Hk Hs Hnu Hf Hva; [lia|]. cbn [copyout_loop].
  destruct bs as [|b bs'] eqn:Eb; [|rewrite <- Eb in *].
  { apply post_ret. split; [done|]. split; [by apply rewritten_refl|]. split; [by left|]. intros _. split; [simpl; lia|].
    intros y _. unfold copied. by rewrite decide_False by (simpl; lia). }
  assert (0 < Z.of_nat (length bs)) as Hlen by (rewrite Eb; simpl; lia). clear b bs' Eb.
  destruct (PGROUNDDOWN_spec va Hva) as [H0m H0]. set (va0 := PGROUNDDOWN va) in *.
  assert (0 <= va0 < 2 ^ 32) as Hva0 by (unfold PGSIZE in *; zdm).
  assert (va0 / PGSIZE = va / PGSIZE) as Epg by (unfold PGSIZE in *; zdm).
  assert (va mod PGSIZE = va - va0) as Emod by (unfold PGSIZE in *; zdm).
  apply post_bind. apply (post_uva2ka pgdir va0 s free); [done..| |].
  { intros _. cbn. apply post_ret. split; [done|]. split; [by apply rewritten_refl|]. split; [by right|done]. }
  intros Hu0. assert (mapped (ram s) pgdir va0) as Hm0 by by apply user_mapped.
  destruct (sp_frame _ _ _ _ Hs va0 Hm0) as (F1 & _). destruct (page_ok_nonzero _ _ F1) as [Hf0 _].
  rewrite (proj2 (Z.eqb_neq _ 0)) by done. set (n := Z.min _ _). assert (0 < n <= Z.of_nat (length bs)) as Hn by (unfold n; lia).
  assert (Z.of_nat (length (take (Z.to_nat n) bs)) = n) as Etl by (rewrite length_take; lia).
  destruct (write_bytes_user free pgdir (ram s) va0 (take (Z.to_nat n) bs) (va - va0) Hs Hm0) as [Hrw Hrd]; [lia|unfold n in *; lia|].
  set (m1 := write_bytes _ _ _) in *. apply post_bind, post_modify. fold m1.
  assert (va0 < KERNBASE) as Hk0 by apply Hu0. rewrite u32_small by (unfold KERNBASE, PGSIZE in *; lia).
  assert (kinv kend free (with_ram m1 s)) as Hk1.
  { apply (rewritten_kinv free s pgdir); try done. apply write_bytes_byte_mem, Hk. }
  eapply post_mono; [apply (IH (va0 + PGSIZE) (drop (Z.to_nat n) bs)); cbn [ram with_ram]|].
  - done.
  - apply Hrw.
  - by apply (no_user_rewritten free pgdir (ram s)).
  - rewrite length_drop. lia.
  - unfold KERNBASE, PGSIZE in *. lia.
  - intros r t (Hkt & Hrt & Hr & Hok). cbn [ram with_ram] in *. split; [done|]. split; [by eapply rewritten_trans|]. split; [done|].
    intros Er. destruct (Hok Er) as [Hus Hre]. rewrite length_drop in Hus. clear Hok.
    assert (forall x, va <= x < va0 + PGSIZE -> x / PGSIZE = va0 / PGSIZE /\ x mod PGSIZE = x - va0) as Hpage by (unfold PGSIZE in *; intros; zdm).
    assert (va + n < va0 + PGSIZE -> n = Z.of_nat (length bs)) as Hall by (unfold n; lia). split.
    + intros x Hx. destruct (decide (va0 + PGSIZE <= x)) as [E|E].
      * apply (user_rewritten free pgdir (ram s) m1 x Hrw), Hus. assert (n = PGSIZE - (va - va0)) by lia. lia.
      * destruct (Hpage x ltac:(lia)) as [E1 _]. destruct Hu0 as (K1 & K2 & K3). unfold user.
        rewrite (pte_same_page (ram s) pgdir x va0); [|unfold KERNBASE, PGSIZE in *; lia|done|done]. split; [|done].
        unfold KERNBASE, PGSIZE in *. zdm.
    + intros y Hy. rewrite Hre by by apply (rewritten_mapped free pgdir (ram s)).
      apply copied_rest; [done|lia|done|]. by rewrite (Hrd y Hy), Etl.
Qed.

Lemma post_copyout pgdir va bs free s :
  kinv kend free s -> space kend free pgdir (ram s) -> no_user (ram s) pgdir -> 0 <= va < 2 ^ 32 ->
  post (copyout stk pgdir va bs) s (copyout_post free pgdir va bs s).
Proof. intros. apply post_copyout_loop; try done. lia. Qed.

(** * clearpteu *)

(** The entry of [a] has other flags now. *)
Record reflagged (free : list Z) (pgdir a e : Z) (m m' : mem) : Prop := {
  rf_space : space kend free pgdir m';
  rf_evolves : evolves pgdir free m free m';
  rf_pte x : 0 <= x < 2 ^ 32 ->
    pte_at m' pgdir x = if decide (x / PGSIZE = a / PGSIZE) then e else pte_at m pgdir x;
  rf_mapped x : mapped m' pgdir x <-> mapped m pgdir x;
  rf_read x : mapped m pgdir x -> uread m' pgdir x = uread m pgdir x }.

Lemma reflag free pgdir m a t e s :
  kinv kend free s -> space kend free pgdir m -> mapped m pgdir a -> tab m pgdir (PDX a) = Some t -> 0 <= e < 2 ^ 32 ->
  has PTE_P e = true -> PTE_ADDR e = PTE_ADDR (pte_at m pgdir a) ->
  reflagged free pgdir a e m (store32 m (t + 4 * PTX a) e).
Proof.
  intros Hk Hs Ha Ht He Hp Hadr. pose proof Hs as [Hpt Hf Hi]. pose proof (mapped_32 _ _ _ Ha) as Ha32.
  destruct (set_pte kend free pgdir m a t e Hpt Ha32 Ht He) as (S1 & [S2 S2'] & S3). set (m' := store32 _ _ _) in *.
  assert (forall i, 0 <= i < 1024 -> tab m' pgdir i = tab m pgdir i) as Htab by (intros i Hi'; by apply (set_pte_tabs kend free)).
  assert (forall x, (mapped m' pgdir x <-> mapped m pgdir x) /\ (mapped m pgdir x -> frame_of m' pgdir x = frame_of m pgdir x)) as Hme.
  { intros x. unfold mapped, frame_of. split.
    - split; intros [Hx Hm]; (split; [done|]); assert (0 <= x < 2 ^ 32) as Hx32 by (unfold KERNBASE in Hx; lia).
      + rewrite S3 in Hm by done. case_decide as E; [|done]. rewrite (pte_same_page m pgdir x a) by done. apply Ha.
      + rewrite S3 by done. by case_decide.
    - intros [Hx _]. assert (0 <= x < 2 ^ 32) as Hx32 by (unfold KERNBASE in Hx; lia). rewrite S3 by done. case_decide as E; [|done].
      by rewrite Hadr, (pte_same_page m pgdir x a). }
  split; [split|split| | |].
  - done.
  - intros x Hx. destruct (Hme x) as [E1 E2]. apply E1 in Hx. rewrite E2 by done. destruct (Hf x Hx) as (F1 & F2 & F3 & F4).
    split_and!; try done. intros i Hi'. rewrite Htab by done. by apply F4.
  - intros x y Hx Hy. destruct (Hme x) as [E1 E2], (Hme y) as [E3 E4]. apply E1 in Hx. apply E3 in Hy. rewrite E2, E4 by done. by apply Hi.
  - intros q. rewrite !pool_supply, S2'. apply or_iff_compat_l, or_iff_compat_l. split; intros (x & Hx & <-); exists x; destruct (Hme x) as [E1 E2].
    + apply E1 in Hx. by rewrite E2.
    + rewrite E2 by done. split; [by apply E1|done].
  - intros x Hx. apply S2. split; [apply Hx; right; by left|]. intros q Hq. apply Hx, pool_supply. by left.
  - done.
  - intros x. apply Hme.
  - intros x Hx. unfold uread. rewrite (proj2 (Hme x)) by done. apply S2. destruct (Hf x Hx) as (F1 & F2 & F3 & F4).
    apply (outside_page kend free pgdir m s (frame_of m pgdir x)); try done; [|apply frame_inpage].
    intros [?|(i & Hi' & Hti)]; [done|by apply (F4 i)].
Qed.

Lemma wp_clearpteu pgdir a free s (Q : unit -> kmem -> Prop) :
  kinv kend free s -> space kend free pgdir (ram s) -> mapped (ram s) pgdir a ->
  (forall t e, kinv kend free t -> has PTE_U e = false -> reflagged free pgdir a e (ram s) (ram t) -> Q tt t) ->
  wp (clearpteu stk pgdir a) s Q.
Proof.
  intros Hk Hs Ha HQ. pose proof (mapped_32 _ _ _ Ha) as Ha32. unfold clearpteu. apply wp_bind.
  eapply wp_run; [apply walk_noalloc|]. destruct (present_tab _ _ _ (proj2 Ha)) as [tb Et]. rewrite Et.
  destruct (PDX_spec a Ha32) as [_ Hd]. destruct (PTX_spec a Ha32) as [_ Hx].
  destruct (pt_tab _ _ _ _ (sp_pt _ _ _ _ Hs) _ _ Hd Et) as (T1 & T2 & _). assert (KERNBASE < tb) by apply T1.
  rewrite (proj2 (Z.eqb_neq _ 0)) by (unfold KERNBASE in *; lia). apply wp_bind, wp_gets.
  assert (load32 (ram s) (tb + 4 * PTX a) = pte_at (ram s) pgdir a) as -> by (unfold pte_at; by rewrite Et).
  set (e := pte_at (ram s) pgdir a) in *. set (e' := Z.land e _).
  assert (0 <= e') as He0.
  { apply Z.land_nonneg. right. apply u32_range. }
  assert (forall b, Z.land e' b = Z.land e (Z.land (u32 (Z.lnot PTE_U)) b)) as Hl by (intros b; unfold e'; by rewrite Z.land_assoc).
  apply wp_modify. apply (HQ _ e').
  - apply kinv_ram; [done|apply store32_byte_mem, Hk|]. intros q x Hq Hxq. rewrite store32_byte. case_match; [|done]. bools. exfalso.
    pose proof (k_pages _ _ _ Hk) as Hpg. rewrite Forall_forall in Hpg.
    apply (inpage_disjoint kend q tb x); [by apply Hpg|done|congruence|done|]. unfold inpage, PGSIZE. lia.
  - unfold has. rewrite Hl. change (Z.land (u32 (Z.lnot PTE_U)) PTE_U) with 0. by rewrite Z.land_0_r.
  - apply (reflag free pgdir (ram s) a tb e' s); try done.
    + assert (e' = Z.land e' (Z.ones 32)) as -> by by rewrite Hl.
      rewrite Z.land_ones by lia. apply Z.mod_pos_bound. lia.
    + unfold has. rewrite Hl. change (Z.land (u32 (Z.lnot PTE_U)) PTE_P) with PTE_P. apply Ha.
    + unfold PTE_ADDR. rewrite Hl. done.
Qed.

(** * Slices of user memory *)

Lemma uslice_ext m m' pgdir p n :
  (forall x, p <= x < p + Z.of_nat n -> uread m' pgdir x = uread m pgdir x) -> uslice m' pgdir p n = uslice m pgdir p n.
Proof.
  intros Hx. unfold uslice. apply list_fmap_ext. intros i k Hk. apply lookup_seq in Hk as [-> Hk]. apply Hx. lia.
Qed.

Lemma uslice_copied m' pgdir va bs (old : Z -> Z) :
  Forall (fun b => 0 <= b < 256) bs ->
  (forall x, va <= x < va + Z.of_nat (length bs) -> uread m' pgdir x = copied va bs old x) ->
  uslice m' pgdir va (length bs) = bs.
Proof.
  intros Hb Hx. apply list_eq. intros i. unfold uslice. rewrite list_lookup_fmap.
  destruct (decide (i < length bs)%nat) as [Hi|Hi].
  - destruct (lookup_lt_is_Some_2 bs i Hi) as [b Hbi]. rewrite Hbi, lookup_seq_lt by done.
    change (Some (uread m' pgdir (va + Z.of_nat (0 + i))) = Some b). f_equal. rewrite Hx by lia.
    unfold copied. rewrite decide_True by lia. replace (Z.to_nat (va + Z.of_nat (0 + i) - va)) with i by lia.
    rewrite nth_lookup, Hbi. rewrite Forall_forall in Hb. apply u8_small, Hb. by eapply list_elem_of_lookup_2.
  - rewrite lookup_seq_ge by lia. by rewrite lookup_ge_None_2 by lia.
Qed.

End usermem.
