(* ===== verification/Irq.v ===== *)
(** picirq.c, ioapic.c and timer.c: which interrupts reach the processors.

    The 8259A controllers are seen through the bytes written to their ports;
    the I/O APIC is its window (a register number, then data) onto a file of
    registers. *)

From S2P Require Import Prelude.

Definition IO_PIC1 : Z := 0x20.
Definition IO_PIC2 : Z := 0xA0.
Definition IRQ_SLAVE : Z := 2.
Definition T_SYSCALL : Z := 64.
Definition T_IRQ0 : Z := 32.
Definition IRQ_TIMER : Z := 0.
Definition IRQ_KBD : Z := 1.
Definition IRQ_COM1 : Z := 4.
Definition IRQ_IDE : Z := 14.
Definition IRQ_SPURIOUS : Z := 31.

Definition REG_ID : Z := 0.
Definition REG_VER : Z := 1.
Definition REG_TABLE : Z := 0x10.
Definition INT_DISABLED : Z := 0x00010000.

(** The bytes written to ports (latest first), the mask in memory, the I/O
    APIC's window and registers, what mpinit found out, and what cprintf was
    asked to show. *)
Record irqs := mkIrqs {
  ports : list (Z * Z);
  irqmask : Z;
  io_reg : Z;
  io_file : Z -> Z;
  ismp : bool;
  ioapicid : Z;
  complaints : nat }.

Definition irqmask0 : Z := Z.land 0xFFFF (Z.lnot (Z.shiftl 1 IRQ_SLAVE)).

Abbreviation IrqM := (M irqs).

Definition outb (port v : Z) : IrqM unit :=
  modify (fun s => mkIrqs ((port, u8 v) :: ports s) (irqmask s) (io_reg s) (io_file s) (ismp s) (ioapicid s) (complaints s)).

Definition picsetmask (mask : Z) : IrqM unit :=
  modify (fun s => mkIrqs (ports s) mask (io_reg s) (io_file s) (ismp s) (ioapicid s) (complaints s));;
  outb (IO_PIC1 + 1) mask;;
  outb (IO_PIC2 + 1) (Z.shiftr mask 8).

Definition picenable (irq : Z) : IrqM unit :=
  m ← gets irqmask;
  picsetmask (Z.land (Z.land m (Z.lnot (Z.shiftl 1 irq))) 0xFFFF).

Definition picinit : IrqM unit :=
  outb (IO_PIC1 + 1) 0xFF;;
  outb (IO_PIC2 + 1) 0xFF;;
  outb IO_PIC1 0x11;;
  outb (IO_PIC1 + 1) T_IRQ0;;
  outb (IO_PIC1 + 1) (Z.shiftl 1 IRQ_SLAVE);;
  outb (IO_PIC1 + 1) 0x3;;
  outb IO_PIC2 0x11;;
  outb (IO_PIC2 + 1) (T_IRQ0 + 8);;
  outb (IO_PIC2 + 1) IRQ_SLAVE;;
  outb (IO_PIC2 + 1) 0x3;;
  outb IO_PIC1 0x68;;
  outb IO_PIC1 0x0a;;
  outb IO_PIC2 0x68;;
  outb IO_PIC2 0x0a;;
  m ← gets irqmask;
  when (negb (m =? 0xFFFF)) (picsetmask m).

(** ioapic->reg = reg *)
Definition set_reg (reg : Z) : IrqM unit :=
  modify (fun s => mkIrqs (ports s) (irqmask s) reg (io_file s) (ismp s) (ioapicid s) (complaints s)).

Definition ioapicread (reg : Z) : IrqM Z :=
  set_reg reg;;
  gets (fun s => io_file s (io_reg s)).

Definition ioapicwrite (reg data : Z) : IrqM unit :=
  set_reg reg;;
  modify (fun s => mkIrqs (ports s) (irqmask s) (io_reg s)
    (fun r => if r =? io_reg s then u32 data else io_file s r) (ismp s) (ioapicid s) (complaints s)).

(** [n] more entries of the table, from entry [i]. *)
Fixpoint ioapic_mask (n : nat) (i : Z) : IrqM unit :=
  match n with
  | O => mret tt
  | S n =>
      ioapicwrite (REG_TABLE + 2 * i) (Z.lor INT_DISABLED (T_IRQ0 + i));;
      ioapicwrite (REG_TABLE + 2 * i + 1) 0;;
      ioapic_mask n (i + 1)
  end.

Definition ioapicinit : IrqM unit :=
  mp ← gets ismp;
  if negb mp then mret tt
  else
    v ← ioapicread REG_VER;
    let maxintr := Z.land (Z.shiftr v 16) 0xFF in
    id ← ioapicread REG_ID;
    x ← gets ioapicid;
    when (negb (Z.shiftr id 24 =? x))
      (modify (fun s => mkIrqs (ports s) (irqmask s) (io_reg s) (io_file s) (ismp s) (ioapicid s) (S (complaints s))));;
    ioapic_mask (Z.to_nat (maxintr + 1)) 0.

Definition ioapicenable (irq cpunum : Z) : IrqM unit :=
  mp ← gets ismp;
  if negb mp then mret tt
  else
    ioapicwrite (REG_TABLE + 2 * irq) (T_IRQ0 + irq);;
    ioapicwrite (REG_TABLE + 2 * irq + 1) (Z.shiftl cpunum 24).

(** timer.c *)
Definition IO_TIMER1 : Z := 0x040.
Definition TIMER_FREQ : Z := 1193182.
Definition TIMER_DIV (x : Z) : Z := (TIMER_FREQ + x / 2) / x.
Definition TIMER_MODE : Z := IO_TIMER1 + 3.
Definition TIMER_SEL0 : Z := 0x00.
Definition TIMER_RATEGEN : Z := 0x04.
Definition TIMER_16BIT : Z := 0x30.

Definition timerinit : IrqM unit :=
  outb TIMER_MODE (Z.lor (Z.lor TIMER_SEL0 TIMER_RATEGEN) TIMER_16BIT);;
  outb IO_TIMER1 (TIMER_DIV 100 mod 256);;
  outb IO_TIMER1 (TIMER_DIV 100 / 256);;
  picenable IRQ_TIMER.

(** * The mask *)

(** The last byte written to a port. *)
Fixpoint last_byte (l : list (Z * Z)) (p : Z) : option Z :=
  match l with
  | [] => None
  | (q, v) :: l => if q =? p then Some v else last_byte l p
  end.

(** The controllers have the mask that is in memory. *)
Record pic_ok (s : irqs) : Prop := {
  pic_range : 0 <= irqmask s < 2 ^ 16;
  pic_low : last_byte (ports s) (IO_PIC1 + 1) = Some (irqmask s mod 256);
  pic_high : last_byte (ports s) (IO_PIC2 + 1) = Some (irqmask s / 256) }.

Lemma picsetmask_ok m s : 0 <= m < 2 ^ 16 ->
  exists t, picsetmask m s = Ok (tt, t) /\ pic_ok t /\ irqmask t = m /\ io_file t = io_file s /\ ismp t = ismp s.
Proof.
  intros Hm. eexists. split; [reflexivity|]. split; [|done]. split; simpl; [done|done|]. f_equal. unfold u8.
  rewrite Z.shiftr_div_pow2 by lia. rewrite Z.mod_small; [done|]. zdm.
Qed.

(** picenable unmasks one line and no other. *)
Lemma wp_picenable irq s (Q : unit -> irqs -> Prop) :
  0 <= irq < 16 -> pic_ok s ->
  (forall t, pic_ok t -> (forall i, 0 <= i < 16 -> Z.testbit (irqmask t) i = Z.testbit (irqmask s) i && negb (i =? irq)) ->
     io_file t = io_file s -> ismp t = ismp s -> Q tt t) ->
  wp (picenable irq) s Q.
Proof.
  intros Hi [Hr _ _] HQ. unfold picenable. apply wp_bind, wp_gets. set (m := Z.land _ 0xFFFF).
  assert (m = Z.land (irqmask s) (Z.lnot (Z.shiftl 1 irq)) mod 2 ^ 16) as Hm by (unfold m; by rewrite <- (Z.land_ones _ 16)).
  destruct (picsetmask_ok m s) as (t & Hrun & Hok & Ht & Hio & Hmp); [rewrite Hm; by apply Z.mod_pos_bound|].
  eapply wp_run; [exact Hrun|]. apply HQ; try done. intros i Hi'. rewrite Ht, Hm, Z.mod_pow2_bits_low by lia.
  rewrite Z.land_spec, Z.lnot_spec by lia. f_equal. f_equal. rewrite Z.shiftl_spec by lia.
  destruct (Z.eqb_spec i irq) as [->|Hne]; [by rewrite Z.sub_diag|].
  change 1 with (2 ^ 0). rewrite Z.pow2_bits_eqb by lia. by apply Z.eqb_neq; lia.
Qed.

(** ioapicenable writes the two words of its entry and no other register. *)
Lemma ioapicenable_routes irq cpu s :
  ismp s = true ->
  exists t, ioapicenable irq cpu s = Ok (tt, t) /\ ismp t = true /\ irqmask t = irqmask s /\ ports t = ports s /\
    forall r, io_file t r =
      if r =? REG_TABLE + 2 * irq then u32 (T_IRQ0 + irq)
      else if r =? REG_TABLE + 2 * irq + 1 then u32 (Z.shiftl cpu 24) else io_file s r.
Proof.
  intros Hmp. destruct s as [a b c f mp d e]. simpl in Hmp. subst mp. eexists. split; [reflexivity|]. split_and!; try done.
  intros r. simpl. destruct (Z.eqb_spec r (REG_TABLE + 2 * irq)), (Z.eqb_spec r (REG_TABLE + 2 * irq + 1)); try done. lia.
Qed.

Lemma ioapic_mask_spec n i s :
  exists t, ioapic_mask n i s = Ok (tt, t) /\ ismp t = ismp s /\ irqmask t = irqmask s /\ ports t = ports s /\
    (forall k, i <= k < i + Z.of_nat n ->
       io_file t (REG_TABLE + 2 * k) = u32 (Z.lor INT_DISABLED (T_IRQ0 + k)) /\ io_file t (REG_TABLE + 2 * k + 1) = 0) /\
    forall r, r < REG_TABLE + 2 * i -> io_file t r = io_file s r.
Proof.
  revert i s. induction n as [|n IH]; intros i s; [exists s; split_and!; try done; lia|].
  cbn [ioapic_mask]. set (s1 := mkIrqs (ports s) (irqmask s) (REG_TABLE + 2 * i + 1)
    (fun r => if r =? REG_TABLE + 2 * i + 1 then u32 0 else if r =? REG_TABLE + 2 * i then u32 (Z.lor INT_DISABLED (T_IRQ0 + i)) else io_file s r)
    (ismp s) (ioapicid s) (complaints s)).
  destruct (IH (i + 1) s1) as (t & Hrun & T1 & T2 & T3 & T4 & T5). exists t. split; [done|]. split_and!; try done.
  - intros k Hk. destruct (decide (k = i)) as [->|Hne]; [|apply T4; lia]. rewrite !T5 by lia. simpl. rewrite Z.eqb_refl.
    rewrite (proj2 (Z.eqb_neq _ _)) by lia. by rewrite Z.eqb_refl.
  - intros r Hr. rewrite T5 by lia. simpl. by rewrite !(proj2 (Z.eqb_neq _ _)) by lia.
Qed.

(** ioapicinit leaves every entry the controller has disabled. *)
Lemma ioapicinit_masks s :
  ismp s = true ->
  exists t, ioapicinit s = Ok (tt, t) /\ irqmask t = irqmask s /\ ports t = ports s /\
    forall k, 0 <= k <= Z.land (Z.shiftr (io_file s REG_VER) 16) 0xFF ->
      io_file t (REG_TABLE + 2 * k) = u32 (Z.lor INT_DISABLED (T_IRQ0 + k)) /\ io_file t (REG_TABLE + 2 * k + 1) = 0.
Proof.
  intros Hmp. set (n := Z.land _ 0xFF). assert (0 <= n) as Hn by (apply Z.land_nonneg; by right).
  enough (wp ioapicinit s (fun _ t => irqmask t = irqmask s /\ ports t = ports s /\ forall k, 0 <= k <= n ->
    io_file t (REG_TABLE + 2 * k) = u32 (Z.lor INT_DISABLED (T_IRQ0 + k)) /\ io_file t (REG_TABLE + 2 * k + 1) = 0)) as ([] & t & H) by by exists t.
  unfold ioapicinit. apply wp_bind, wp_gets. rewrite Hmp. apply wp_bind, wp_bind, wp_modify, wp_gets, wp_bind, wp_bind, wp_modify, wp_gets.
  apply wp_bind, wp_gets, wp_bind. cbn [io_file io_reg ioapicid]. fold n.
  assert (forall x, irqmask x = irqmask s -> ports x = ports s -> wp (ioapic_mask (Z.to_nat (n + 1)) 0) x (fun _ t =>
    irqmask t = irqmask s /\ ports t = ports s /\ forall k, 0 <= k <= n ->
    io_file t (REG_TABLE + 2 * k) = u32 (Z.lor INT_DISABLED (T_IRQ0 + k)) /\ io_file t (REG_TABLE + 2 * k + 1) = 0)) as Hx.
  { intros x X1 X2. destruct (ioapic_mask_spec (Z.to_nat (n + 1)) 0 x) as (t & Hrun & T1 & T2 & T3 & T4 & _).
    eapply wp_run; [exact Hrun|]. split; [congruence|]. split; [congruence|]. intros k Hk. apply T4. lia. }
  apply wp_when; intros _; [apply wp_modify|]; by apply Hx.
Qed.

(** timerinit gives the counter its two bytes, low then high, of a count that
    makes it interrupt a hundred times a second to within a thousandth, and
    unmasks the timer. *)
Lemma timerinit_rate s :
  exists t lo hi rest, timerinit s = Ok (tt, t) /\ ports t = rest ++ (IO_TIMER1, hi) :: (IO_TIMER1, lo) :: (TIMER_MODE, 0x34) :: ports s /\
    1000 * Z.abs (TIMER_FREQ - 100 * (lo + 256 * hi)) <= TIMER_FREQ /\ Z.testbit (irqmask t) IRQ_TIMER = false.
Proof.
  eexists _, 156, 46, [_; _]. split; [reflexivity|]. split; [reflexivity|]. split; [vm_compute; discriminate|].
  cbn [irqmask outb]. rewrite !Z.land_spec. cbn. by rewrite andb_false_r.
Qed.
