(* ===== verification/Pipe.v ===== *)
(** pipe.c: a ring buffer of 512 bytes between two counters that run modulo
    2^32.  A call that has to wait stops at its sleep; the part after it is the
    loop entered again ([pipewrite_loop], [piperead_wait]).  The theorems relate
    the ring to an unbounded FIFO of bytes. *)

From S2P Require Import Prelude Spinlock.

Definition PIPESIZE : Z := 512.

Record pipe := mkPipe {
  plock : spinlock;
  data : list Z;
  nread : Z;
  nwrite : Z;
  readopen : Z;
  writeopen : Z }.

(** The two channels, &p->nread and &p->nwrite. *)
Inductive pchan := CNread | CNwrite.

#[global] Instance pchan_eq_dec : EqDecision pchan.
Proof. solve_decision. Defined.

(** The pipe, the executing CPU, proc->killed of the caller, the wakeup calls
    made so far (latest first), and whether the page was given to kfree. *)
Record pst := mkPst {
  pp : pipe;
  pcpu : cpu;
  pkilled : Z;
  woken : list pchan;
  pfreed : bool }.

Definition with_pp (p : pipe) (s : pst) : pst :=
  mkPst p (pcpu s) (pkilled s) (woken s) (pfreed s).

Definition with_plock (l : spinlock) (p : pipe) : pipe :=
  mkPipe l (data p) (nread p) (nwrite p) (readopen p) (writeopen p).

(** p->data[p->nwrite++ % PIPESIZE] = b *)
Definition put (b : Z) (p : pipe) : pipe :=
  mkPipe (plock p) (<[Z.to_nat (nwrite p mod PIPESIZE) := b]> (data p)) (nread p)
    (u32 (nwrite p + 1)) (readopen p) (writeopen p).

(** p->data[p->nread++ % PIPESIZE] *)
Definition front (p : pipe) : option Z := data p !! Z.to_nat (nread p mod PIPESIZE).

Definition advance (p : pipe) : pipe :=
  mkPipe (plock p) (data p) (u32 (nread p + 1)) (nwrite p) (readopen p) (writeopen p).

Definition with_readopen (v : Z) (p : pipe) : pipe :=
  mkPipe (plock p) (data p) (nread p) (nwrite p) v (writeopen p).

Definition with_writeopen (v : Z) (p : pipe) : pipe :=
  mkPipe (plock p) (data p) (nread p) (nwrite p) (readopen p) v.

Section pipe.
Context (stk : list Z).

Abbreviation P := (M pst).

Definition acquire_p : P unit := fun s =>
  obind (acquire stk (pcpu s) (plock (pp s))) (fun '(c, l) =>
    Ok (tt, mkPst (with_plock l (pp s)) c (pkilled s) (woken s) (pfreed s))).

Definition release_p : P unit := fun s =>
  obind (release (pcpu s) (plock (pp s))) (fun '(c, l) =>
    Ok (tt, mkPst (with_plock l (pp s)) c (pkilled s) (woken s) (pfreed s))).

Definition wakeup_p (c : pchan) : P unit :=
  modify (fun s => mkPst (pp s) (pcpu s) (pkilled s) (c :: woken s) (pfreed s)).

Definition kfree_p : P unit :=
  modify (fun s => mkPst (pp s) (pcpu s) (pkilled s) (woken s) true).

(** How a call ends: with a return value, or in sleep(c, &p->lock), the lock
    being handed to sleep; a writer that sleeps still has [rest] to write. *)
Inductive wres := WDone (r : Z) | WSleep (rest : list Z).
Inductive rres := RDone (bs : list Z) | RKilled | RSleep.

(** The loop of pipewrite with the bytes still to write, the lock held; [n] is
    the value it will return. *)
Fixpoint pipewrite_loop (src : list Z) (n : Z) : P wres :=
  match src with
  | [] => wakeup_p CNread;; release_p;; mret (WDone n)
  | b :: rest =>
      s ← get;
      if nwrite (pp s) =? u32 (nread (pp s) + PIPESIZE) then
        if (readopen (pp s) =? 0) || negb (pkilled s =? 0) then release_p;; mret (WDone (-1))
        else wakeup_p CNread;; mret (WSleep src)
      else
        modify (fun s => with_pp (put b (pp s)) s);;
        pipewrite_loop rest n
  end.

(** [addr]: the caller's buffer. *)
Definition pipewrite (addr : list Z) (n : Z) : P wres :=
  acquire_p;; pipewrite_loop (take (Z.to_nat n) addr) n.

(** The copy loop of piperead, at most [n] more bytes. *)
Fixpoint piperead_loop (n : nat) : P (list Z) :=
  match n with
  | O => mret []
  | S n =>
      s ← get;
      if nread (pp s) =? nwrite (pp s) then mret []
      else
        b ← deref "data" (fun s => front (pp s));
        modify (fun s => with_pp (advance (pp s)) s);;
        bs ← piperead_loop n;
        mret (b :: bs)
  end.

(** piperead with the lock held: the waiting loop and the copy. *)
Definition piperead_wait (n : Z) : P rres :=
  s ← get;
  if (nread (pp s) =? nwrite (pp s)) && negb (writeopen (pp s) =? 0) then
    if negb (pkilled s =? 0) then release_p;; mret RKilled
    else mret RSleep
  else
    bs ← piperead_loop (Z.to_nat n);
    wakeup_p CNwrite;;
    release_p;;
    mret (RDone bs).

Definition piperead (n : Z) : P rres := acquire_p;; piperead_wait n.

Definition pipeclose (writable : Z) : P unit :=
  acquire_p;;
  (if negb (writable =? 0) then
     modify (fun s => with_pp (with_writeopen 0 (pp s)) s);; wakeup_p CNread
   else
     modify (fun s => with_pp (with_readopen 0 (pp s)) s);; wakeup_p CNwrite);;
  s ← get;
  if (readopen (pp s) =? 0) && (writeopen (pp s) =? 0) then release_p;; kfree_p
  else release_p.

(** * The queue in the ring *)

(** The number of bytes in the pipe. *)
Definition fill (p : pipe) : Z := u32 (nwrite p - nread p).

Record pipe_ok (p : pipe) : Prop := {
  ok_data : length (data p) = Z.to_nat PIPESIZE;
  ok_nread : 0 <= nread p < 2 ^ 32;
  ok_nwrite : 0 <= nwrite p < 2 ^ 32;
  ok_fill : fill p <= PIPESIZE }.

(** The bytes in the pipe, oldest first. *)
Definition contents (p : pipe) : list Z :=
  (fun k => default 0 (data p !! Z.to_nat ((nread p + Z.of_nat k) mod PIPESIZE)))
    <$> seq 0 (Z.to_nat (fill p)).

Lemma fill_range p : 0 <= fill p < 2 ^ 32.
Proof. apply u32_range. Qed.

Lemma full_test p :
  pipe_ok p -> (nwrite p =? u32 (nread p + PIPESIZE)) = (fill p =? PIPESIZE).
Proof.
  intros [_ Hr Hw Hf]. apply eq_true_iff_eq. rewrite !Z.eqb_eq. unfold fill, PIPESIZE, u32 in *.
  Z.div_mod_to_equations; lia.
Qed.

Lemma empty_test p : pipe_ok p -> (nread p =? nwrite p) = (fill p =? 0).
Proof.
  intros [_ Hr Hw Hf]. apply eq_true_iff_eq. rewrite !Z.eqb_eq. unfold fill, u32 in *.
  Z.div_mod_to_equations; lia.
Qed.

Lemma length_contents p : length (contents p) = Z.to_nat (fill p).
Proof. unfold contents. by rewrite length_fmap, length_seq. Qed.

(** The slot the next byte goes to is the one after the last byte, modulo the
    ring, even when the counters have wrapped. *)
Lemma nwrite_slot p : nwrite p mod PIPESIZE = (nread p + fill p) mod PIPESIZE.
Proof. unfold fill, PIPESIZE, u32. Z.div_mod_to_equations. lia. Qed.

Lemma fill_put b p : pipe_ok p -> fill p < PIPESIZE -> fill (put b p) = fill p + 1.
Proof.
  intros [_ Hr Hw _] Hf. unfold fill, PIPESIZE, u32 in *. simpl. unfold u32.
  Z.div_mod_to_equations. lia.
Qed.

Lemma put_ok b p : pipe_ok p -> fill p < PIPESIZE -> pipe_ok (put b p).
Proof.
  intros Hp Hf. pose proof (fill_put b p Hp Hf) as Hfp. destruct Hp as [Hd Hr Hw _]. split; simpl.
  - by rewrite length_insert.
  - done.
  - apply u32_range.
  - lia.
Qed.

Lemma ring_distinct a i j :
  0 <= i < PIPESIZE -> 0 <= j < PIPESIZE -> i <> j -> (a + i) mod PIPESIZE <> (a + j) mod PIPESIZE.
Proof. unfold PIPESIZE. intros. Z.div_mod_to_equations. lia. Qed.

Lemma put_contents b p :
  pipe_ok p -> fill p < PIPESIZE -> contents (put b p) = contents p ++ [b].
Proof.
  intros Hp Hf. pose proof (fill_range p). unfold contents at 1. rewrite fill_put by done.
  replace (Z.to_nat (fill p + 1)) with (Z.to_nat (fill p) + 1)%nat by lia.
  rewrite seq_app, fmap_app. f_equal.
  - apply list_fmap_ext. intros i k Hk. apply lookup_seq in Hk as [-> Hi]. simpl.
    rewrite list_lookup_insert_ne; [done|]. rewrite nwrite_slot.
    pose proof (ring_distinct (nread p) (fill p) (Z.of_nat i)) as Hd.
    intros E. apply Hd; try lia. apply Z2Nat.inj; [apply Z.mod_pos_bound; done..|].
    simpl in E. exact E.
  - csimpl. f_equal. rewrite nwrite_slot.
    replace (Z.of_nat (Z.to_nat (fill p))) with (fill p) by lia.
    rewrite list_lookup_insert_eq; [done|]. destruct Hp as [-> _ _ _].
    apply Z2Nat.inj_lt; try done; apply Z.mod_pos_bound; done.
Qed.

Lemma fill_advance p : pipe_ok p -> 0 < fill p -> fill (advance p) = fill p - 1.
Proof.
  intros [_ Hr Hw _] Hf. unfold fill, u32 in *. simpl. unfold u32. Z.div_mod_to_equations. lia.
Qed.

Lemma advance_ok p : pipe_ok p -> 0 < fill p -> pipe_ok (advance p).
Proof.
  intros Hp Hf. pose proof (fill_advance p Hp Hf) as Hfp. destruct Hp as [Hd Hr Hw Hl].
  split; simpl; try done; [apply u32_range|lia].
Qed.

Lemma front_contents p :
  pipe_ok p -> 0 < fill p ->
  exists b, front p = Some b /\ contents p = b :: contents (advance p).
Proof.
  intros Hp Hf. destruct (lookup_lt_is_Some_2 (data p) (Z.to_nat (nread p mod PIPESIZE))) as [b Hb].
  { destruct Hp as [-> _ _ _]. apply Z2Nat.inj_lt; try done; apply Z.mod_pos_bound; done. }
  exists b. split; [done|]. unfold contents at 1.
  replace (Z.to_nat (fill p)) with (S (Z.to_nat (fill (advance p))))
    by (rewrite fill_advance by done; lia).
  rewrite <-cons_seq, fmap_cons. f_equal.
  - change (Z.of_nat 0) with 0. by rewrite Z.add_0_r, Hb.
  - unfold contents. rewrite <-fmap_S_seq, <-list_fmap_compose.
    apply list_fmap_ext. intros i k Hk. apply lookup_seq in Hk as [-> _]. simpl.
    do 3 f_equal. unfold PIPESIZE, u32. Z.div_mod_to_equations. lia.
Qed.

(** * The operations *)

Definition pquiet (s : pst) : Prop := locked (plock (pp s)) = 0 /\ cli_ok (pcpu s).

(** Holding the lock since [c]. *)
Definition pheld (c : cpu) (s : pst) : Prop :=
  cli_ok c /\ pcpu s = pushcli c /\
  exists nm, plock (pp s) = mkSpinlock 1 nm (Some (cpu_id c)) stk.

Lemma wp_acquire_p s (Q : unit -> pst -> Prop) :
  pquiet s ->
  (forall t l, pheld (pcpu s) t -> pp t = with_plock l (pp s) -> woken t = woken s ->
     pkilled t = pkilled s -> pfreed t = pfreed s -> Q tt t) ->
  wp acquire_p s Q.
Proof.
  intros [Hl Hc] HQ. eapply wp_run.
  - unfold acquire_p. rewrite acquire_free by done. simpl. reflexivity.
  - eapply HQ; try done. split_and!; try done. by eexists.
Qed.

Lemma wp_release_p c s (Q : unit -> pst -> Prop) :
  pheld c s ->
  (forall t l, pquiet t -> pp t = with_plock l (pp s) -> woken t = woken s ->
     pkilled t = pkilled s -> pfreed t = pfreed s -> Q tt t) ->
  wp release_p s Q.
Proof.
  intros (Hc & Hp & nm & Hl) HQ. eapply wp_run.
  - unfold release_p. rewrite Hp, Hl, release_held by done. simpl. reflexivity.
  - eapply HQ; try done. split; [done|]. by apply popped_ok.
Qed.

(** The lock plays no part in the queue. *)
Lemma contents_lock l p : contents (with_plock l p) = contents p.
Proof. done. Qed.

Lemma pipe_ok_lock l p : pipe_ok p -> pipe_ok (with_plock l p).
Proof. intros [? ? ? ?]. by split. Qed.

(** What pipewrite accepts of [src] with [room] bytes of room. *)
Definition accepted (room : nat) (src : list Z) (r : wres) : list Z :=
  match r with
  | WSleep rest => take (length src - length rest) src
  | WDone v => if v =? -1 then take room src else src
  end.

Definition room (s : pst) : nat := (Z.to_nat PIPESIZE - length (contents (pp s)))%nat.

(** pipewrite from a state with the lock held. *)
Lemma wp_pipewrite_loop src n c s (Q : wres -> pst -> Prop) :
  pheld c s -> pipe_ok (pp s) ->
  (forall r t, pipe_ok (pp t) -> contents (pp t) = contents (pp s) ++ take (room s) src ->
     readopen (pp t) = readopen (pp s) -> writeopen (pp t) = writeopen (pp s) ->
     pkilled t = pkilled s -> pfreed t = pfreed s ->
     (if (length src <=? room s)%nat then r = WDone n /\ woken t = CNread :: woken s /\ pquiet t
      else if (readopen (pp s) =? 0) || negb (pkilled s =? 0) then
        r = WDone (-1) /\ woken t = woken s /\ pquiet t
      else r = WSleep (drop (room s) src) /\ woken t = CNread :: woken s /\ pheld c t) ->
     Q r t) ->
  wp (pipewrite_loop src n) s Q.
Proof.
  revert s. induction src as [|b src IH]; intros s Hh Hok HQ; simpl.
  - apply wp_bind, wp_modify, wp_bind. eapply (wp_release_p c); [done|]. simpl.
    intros t l Hq Hp Hw Hk Hf. apply wp_ret, HQ; rewrite ?Hp; try done.
    + by apply pipe_ok_lock.
    + by rewrite take_nil, app_nil_r, contents_lock.
  - apply wp_bind, wp_get. rewrite full_test by done.
    pose proof (fill_range (pp s)). pose proof (ok_fill _ Hok) as Hfl.
    assert (room s = (Z.to_nat PIPESIZE - Z.to_nat (fill (pp s)))%nat) as Hroom
      by (unfold room; by rewrite length_contents).
    destruct (Z.eqb_spec (fill (pp s)) PIPESIZE) as [Hfull|Hfull].
    + assert (room s = 0%nat) as Hr0 by lia. rewrite Hr0 in HQ. simpl in HQ.
      destruct ((readopen (pp s) =? 0) || negb (pkilled s =? 0)).
      * apply wp_bind. eapply (wp_release_p c); [done|]. intros t l Hq Hp Hw Hk Hf.
        apply wp_ret, HQ; rewrite ?Hp; try done; [by apply pipe_ok_lock|].
        by rewrite app_nil_r, contents_lock.
      * apply wp_bind, wp_modify, wp_ret, HQ; simpl; try done. by rewrite app_nil_r.
    + assert (fill (pp s) < PIPESIZE) as Hlt by lia.
      apply wp_bind, wp_modify. apply IH; simpl.
      * done.
      * by apply put_ok.
      * assert (room (with_pp (put b (pp s)) s) = (room s - 1)%nat) as Hroom'.
        { unfold room. simpl. rewrite put_contents, length_app by done. simpl. lia. }
        intros r t Hokt Hct Hro Hwo Hk Hf Hres. rewrite Hroom' in Hct, Hres.
        destruct (room s) as [|m] eqn:Hm; [lia|]. simpl in Hct, Hres.
        rewrite Nat.sub_0_r in Hct, Hres.
        apply HQ; try done. by rewrite Hct, put_contents, <-app_assoc.
Qed.

Lemma wp_piperead_loop n c s (Q : list Z -> pst -> Prop) :
  pheld c s -> pipe_ok (pp s) ->
  (forall t, pipe_ok (pp t) -> pheld c t -> contents (pp t) = drop n (contents (pp s)) ->
     readopen (pp t) = readopen (pp s) -> writeopen (pp t) = writeopen (pp s) ->
     woken t = woken s -> pkilled t = pkilled s -> pfreed t = pfreed s ->
     Q (take n (contents (pp s))) t) ->
  wp (piperead_loop n) s Q.
Proof.
  revert s Q. induction n as [|n IH]; intros s Q Hh Hok HQ; simpl.
  - by apply wp_ret, HQ.
  - apply wp_bind, wp_get. rewrite empty_test by done. pose proof (fill_range (pp s)).
    destruct (Z.eqb_spec (fill (pp s)) 0) as [He|He].
    + assert (contents (pp s) = []) as Hc.
      { apply nil_length_inv. rewrite length_contents, He. done. }
      rewrite Hc in HQ. apply wp_ret. by apply HQ.
    + destruct (front_contents (pp s)) as (b & Hb & Hc); [done|lia|].
      apply wp_bind. eapply wp_deref; [exact Hb|]. apply wp_bind, wp_modify, wp_bind.
      apply IH; simpl; [done|apply advance_ok; [done|lia]|].
      intros t Hokt Hht Hct Hro Hwo Hw Hk Hf. apply wp_ret. rewrite Hc in HQ. simpl in HQ.
      by apply HQ.
Qed.

Lemma wp_pipewrite src n s (Q : wres -> pst -> Prop) :
  pquiet s -> pipe_ok (pp s) ->
  (forall r t, pipe_ok (pp t) -> contents (pp t) = contents (pp s) ++ take (room s) src ->
     readopen (pp t) = readopen (pp s) -> writeopen (pp t) = writeopen (pp s) ->
     pkilled t = pkilled s -> pfreed t = pfreed s ->
     (if (length src <=? room s)%nat then r = WDone n /\ woken t = CNread :: woken s /\ pquiet t
      else if (readopen (pp s) =? 0) || negb (pkilled s =? 0) then
        r = WDone (-1) /\ woken t = woken s /\ pquiet t
      else r = WSleep (drop (room s) src) /\ woken t = CNread :: woken s /\
        pheld (pcpu s) t) ->
     Q r t) ->
  wp (acquire_p;; pipewrite_loop src n) s Q.
Proof.
  intros Hq Hok HQ. apply wp_bind, wp_acquire_p; [done|]. intros t l Hh Hp Hw Hk Hf.
  assert (room t = room s) as Hroom by (unfold room; by rewrite Hp).
  eapply wp_pipewrite_loop; [done|rewrite Hp; by apply pipe_ok_lock|].
  rewrite Hroom, Hp, Hk, Hw, Hf. simpl. intros r u. rewrite contents_lock. apply HQ.
Qed.

Lemma wp_piperead n s (Q : rres -> pst -> Prop) :
  pquiet s -> pipe_ok (pp s) ->
  (forall r t, pipe_ok (pp t) ->
     readopen (pp t) = readopen (pp s) -> writeopen (pp t) = writeopen (pp s) ->
     pkilled t = pkilled s -> pfreed t = pfreed s ->
     (if bool_decide (contents (pp s) = []) && negb (writeopen (pp s) =? 0) then
        contents (pp t) = [] /\ woken t = woken s /\
        (if pkilled s =? 0 then r = RSleep /\ pheld (pcpu s) t else r = RKilled /\ pquiet t)
      else r = RDone (take (Z.to_nat n) (contents (pp s))) /\
        contents (pp t) = drop (Z.to_nat n) (contents (pp s)) /\
        woken t = CNwrite :: woken s /\ pquiet t) -> Q r t) ->
  wp (piperead n) s Q.
Proof.
  intros Hq Hok HQ. apply wp_bind, wp_acquire_p; [done|]. intros t l Hh Hp Hw Hk Hf.
  assert (pipe_ok (pp t)) as Hokt by (rewrite Hp; by apply pipe_ok_lock).
  unfold piperead_wait. apply wp_bind, wp_get.
  assert ((nread (pp t) =? nwrite (pp t)) = bool_decide (contents (pp s) = [])) as ->.
  { rewrite empty_test by done. rewrite Hp. change (fill (with_plock l (pp s))) with (fill (pp s)).
    pose proof (fill_range (pp s)). pose proof (length_contents (pp s)) as Hlen.
    destruct (Z.eqb_spec (fill (pp s)) 0) as [He|He]; symmetry.
    - apply bool_decide_eq_true. apply nil_length_inv. rewrite Hlen, He. done.
    - apply bool_decide_eq_false. intros Hnil. rewrite Hnil in Hlen. simpl in Hlen. lia. }
  rewrite Hp. simpl. destruct (bool_decide (contents (pp s) = []) && negb (writeopen (pp s) =? 0)) eqn:Hb.
  - apply andb_true_iff in Hb as [Hnil _]. apply bool_decide_eq_true in Hnil. rewrite Hk.
    destruct (Z.eqb_spec (pkilled s) 0) as [Hz|Hz]; simpl.
    + apply wp_ret, HQ; rewrite ?Hp; try done. by apply pipe_ok_lock.
    + apply wp_bind. eapply wp_release_p; [done|]. intros u l' Hqu Hpu Hwu Hku Hfu.
      apply wp_ret, HQ; rewrite ?Hpu, ?Hp; try done; try congruence.
      * by do 2 apply pipe_ok_lock.
      * split; [done|]. split; [congruence|done].
  - apply wp_bind. eapply wp_piperead_loop; [done|done|].
    intros u Hoku Hhu Hcu Hrou Hwou Hwu Hku Hfu. apply wp_bind, wp_modify, wp_bind.
    eapply (wp_release_p (pcpu s)); [done|]. simpl. intros v l' Hqv Hpv Hwv Hkv Hfv.
    rewrite Hp, contents_lock in Hcu. rewrite Hp, contents_lock. rewrite Hp in Hrou, Hwou.
    apply wp_ret, HQ; rewrite ?Hpv; try done; try congruence.
    + by apply pipe_ok_lock.
    + split_and!; try done. congruence.
Qed.

(** pipewrite is an append to a bounded queue: it adds the bytes that fit,
    in order.  If all fit it returns [n] and has woken the readers; if the
    reader is gone or the caller was killed it returns -1; otherwise it has
    woken the readers and sleeps with exactly the bytes that did not fit. *)
Theorem pipewrite_appends addr n s :
  pquiet s -> pipe_ok (pp s) ->
  let src := take (Z.to_nat n) addr in
  exists r t, pipewrite addr n s = Ok (r, t) /\ pipe_ok (pp t) /\
    contents (pp t) = contents (pp s) ++ take (room s) src /\
    (if (length src <=? room s)%nat then r = WDone n /\ woken t = CNread :: woken s
     else if (readopen (pp s) =? 0) || negb (pkilled s =? 0) then r = WDone (-1)
     else r = WSleep (drop (room s) src) /\ woken t = CNread :: woken s).
Proof.
  intros Hq Hok src.
  destruct (wp_pipewrite src n s (fun r t => pipe_ok (pp t) /\
    contents (pp t) = contents (pp s) ++ take (room s) src /\
    (if (length src <=? room s)%nat then r = WDone n /\ woken t = CNread :: woken s
     else if (readopen (pp s) =? 0) || negb (pkilled s =? 0) then r = WDone (-1)
     else r = WSleep (drop (room s) src) /\ woken t = CNread :: woken s)))
    as (r & t & Hrun & HQ); [done..| |by exists r, t].
  intros r t Hokt Hct _ _ _ _ Hres. split_and!; try done. repeat case_match; tauto.
Qed.

(** piperead takes bytes off the front: up to [n], oldest first, waking the
    writers; on an empty pipe with a writer it sleeps (or returns -1 when
    killed), and without a writer it returns no bytes. *)
Theorem piperead_takes n s :
  pquiet s -> pipe_ok (pp s) ->
  exists r t, piperead n s = Ok (r, t) /\ pipe_ok (pp t) /\
    (if bool_decide (contents (pp s) = []) && negb (writeopen (pp s) =? 0) then
       contents (pp t) = [] /\ r = (if pkilled s =? 0 then RSleep else RKilled)
     else r = RDone (take (Z.to_nat n) (contents (pp s))) /\
       contents (pp t) = drop (Z.to_nat n) (contents (pp s)) /\ woken t = CNwrite :: woken s).
Proof.
  intros Hq Hok. destruct (wp_piperead n s (fun r t => pipe_ok (pp t) /\
    (if bool_decide (contents (pp s) = []) && negb (writeopen (pp s) =? 0) then
       contents (pp t) = [] /\ r = (if pkilled s =? 0 then RSleep else RKilled)
     else r = RDone (take (Z.to_nat n) (contents (pp s))) /\
       contents (pp t) = drop (Z.to_nat n) (contents (pp s)) /\ woken t = CNwrite :: woken s)))
    as (r & t & Hrun & HQ); [done..| |by exists r, t].
  intros r t Hokt _ _ _ _ Hres. split; [done|]. repeat case_match; tauto.
Qed.

(** * Runs *)

(** A history: [W] the bytes the pipe has accepted, [R] the bytes it has
    returned, in order.  A sleeper gives up the lock and later runs its loop
    again; wakers, closers and killers come in between. *)
Inductive pipe_hist : list Z -> list Z -> pst -> Prop :=
| hist_start s : pquiet s -> pipe_ok (pp s) -> contents (pp s) = [] -> pipe_hist [] [] s
| hist_write W R s src n r t : pipe_hist W R s ->
    (acquire_p;; pipewrite_loop src n) s = Ok (WDone r, t) ->
    pipe_hist (W ++ accepted (room s) src (WDone r)) R t
| hist_write_sleep W R s src n rest t u : pipe_hist W R s ->
    (acquire_p;; pipewrite_loop src n) s = Ok (WSleep rest, t) -> release_p t = Ok (tt, u) ->
    pipe_hist (W ++ accepted (room s) src (WSleep rest)) R u
| hist_read W R s n bs t : pipe_hist W R s -> piperead n s = Ok (RDone bs, t) ->
    pipe_hist W (R ++ bs) t
| hist_read_killed W R s n t : pipe_hist W R s -> piperead n s = Ok (RKilled, t) ->
    pipe_hist W R t
| hist_read_sleep W R s n t u : pipe_hist W R s -> piperead n s = Ok (RSleep, t) ->
    release_p t = Ok (tt, u) -> pipe_hist W R u
| hist_other W R s t : pipe_hist W R s -> pquiet t -> data (pp t) = data (pp s) ->
    nread (pp t) = nread (pp s) -> nwrite (pp t) = nwrite (pp s) -> pipe_hist W R t.

Lemma release_p_keeps c t u :
  pheld c t -> release_p t = Ok (tt, u) ->
  pquiet u /\ exists l, pp u = with_plock l (pp t).
Proof.
  intros Hh Hr. destruct (wp_release_p c t (fun _ u => pquiet u /\ exists l, pp u = with_plock l (pp t)))
    as ([] & v & Hv & HQ); [done| |].
  - intros v l Hq Hp _ _ _. split; [done|by exists l].
  - assert (v = u) as -> by congruence. done.
Qed.

(** What one write accepts is what fits. *)
Lemma accepted_fits src n s r t :
  pquiet s -> pipe_ok (pp s) -> (acquire_p;; pipewrite_loop src n) s = Ok (r, t) ->
  pipe_ok (pp t) /\ contents (pp t) = contents (pp s) ++ accepted (room s) src r /\
  match r with WDone _ => pquiet t | WSleep _ => pheld (pcpu s) t end.
Proof.
  intros Hq Hok Hr.
  destruct (wp_pipewrite src n s (fun r t => pipe_ok (pp t) /\
    contents (pp t) = contents (pp s) ++ accepted (room s) src r /\
    match r with WDone _ => pquiet t | WSleep _ => pheld (pcpu s) t end))
    as (r' & t' & Hr' & HQ); [done..| |].
  - intros r' t' Hokt Hct _ _ _ _ Hres. split; [done|]. rewrite Hct.
    destruct (Nat.leb_spec (length src) (room s)) as [Hle|Hgt].
    + destruct Hres as (-> & _ & Hqt). split; [|done]. f_equal. simpl.
      rewrite take_ge by done. by destruct (n =? -1).
    + destruct (_ || _).
      * destruct Hres as (-> & _ & Hqt). done.
      * destruct Hres as (-> & _ & Hht). split; [|done]. f_equal. simpl.
        rewrite length_drop. f_equal. lia.
  - assert (r' = r /\ t' = t) as [-> ->] by (split; congruence). done.
Qed.

Lemma piperead_splits n s r t :
  pquiet s -> pipe_ok (pp s) -> piperead n s = Ok (r, t) ->
  pipe_ok (pp t) /\
  match r with
  | RDone bs => contents (pp s) = bs ++ contents (pp t) /\ pquiet t
  | RKilled => contents (pp s) = contents (pp t) /\ pquiet t
  | RSleep => contents (pp s) = contents (pp t) /\ pheld (pcpu s) t
  end.
Proof.
  intros Hq Hok Hr. destruct (wp_piperead n s (fun r t => pipe_ok (pp t) /\
    match r with
    | RDone bs => contents (pp s) = bs ++ contents (pp t) /\ pquiet t
    | RKilled => contents (pp s) = contents (pp t) /\ pquiet t
    | RSleep => contents (pp s) = contents (pp t) /\ pheld (pcpu s) t
    end)) as (r' & t' & Hr' & HQ); [done..| |].
  - intros r' t' Hokt _ _ _ _ Hres. split; [done|].
    destruct (bool_decide (contents (pp s) = []) && negb (writeopen (pp s) =? 0)) eqn:Hb.
    + apply andb_true_iff in Hb as [Hb _]. apply bool_decide_eq_true in Hb.
      destruct Hres as (Hc & _ & Hres). rewrite Hb, Hc.
      destruct (pkilled s =? 0); destruct Hres as [-> ?]; done.
    + destruct Hres as (-> & Hc & _ & ?). split; [|done]. by rewrite Hc, take_drop.
  - assert (r' = r /\ t' = t) as [-> ->] by (split; congruence). done.
Qed.

Lemma pipe_hist_inv W R s :
  pipe_hist W R s -> W = R ++ contents (pp s) /\ pipe_ok (pp s) /\ pquiet s.
Proof.
  induction 1 as [s Hq Hok Hc|W R s src n r t _ IH Hr|W R s src n rest t u _ IH Hr Hrel
    |W R s n bs t _ IH Hr|W R s n t _ IH Hr|W R s n t u _ IH Hr Hrel|W R s t _ IH Hqt E1 E2 E3];
    [by rewrite Hc|destruct IH as (-> & Hok & Hq)..].
  - apply accepted_fits in Hr as (Hokt & -> & Hqt); [|done..]. by rewrite app_assoc.
  - apply accepted_fits in Hr as (Hokt & Hct & Hht); [|done..].
    apply (release_p_keeps _ _ _ Hht) in Hrel as (Hqu & l & ->).
    rewrite contents_lock, Hct, app_assoc. split_and!; try done. by apply pipe_ok_lock.
  - apply piperead_splits in Hr as (Hokt & -> & Hqt); [|done..]. by rewrite app_assoc.
  - apply piperead_splits in Hr as (Hokt & -> & Hqt); done.
  - apply piperead_splits in Hr as (Hokt & -> & Hht); [|done..].
    apply (release_p_keeps _ _ _ Hht) in Hrel as (Hqu & l & ->).
    rewrite contents_lock. split_and!; try done. by apply pipe_ok_lock.
  - assert (contents (pp t) = contents (pp s)) as -> by (unfold contents, fill; by rewrite E1, E2, E3).
    split_and!; try done. destruct Hok. split; unfold fill in *; by rewrite ?E1, ?E2, ?E3.
Qed.

(** C18. First in, first out, nothing lost: along any history of writes, reads,
    sleeps and wakeups, however often the 32-bit counters wrap, the bytes read
    so far followed by the bytes in the ring are exactly the bytes accepted. *)
Theorem pipe_fifo W R s :
  pipe_hist W R s -> W = R ++ contents (pp s) /\ pipe_ok (pp s).
Proof. intros Hh. by destruct (pipe_hist_inv _ _ _ Hh) as (? & ? & _). Qed.

(** Closing: the other side is woken so that it can notice, and the page is
    freed when the second end closes, and only then. *)
Lemma pipeclose_closes w s :
  pquiet s -> pfreed s = false ->
  exists t l, pipeclose w s = Ok (tt, t) /\ pquiet t /\
    pp t = with_plock l ((if w =? 0 then with_readopen 0 else with_writeopen 0) (pp s)) /\
    woken t = (if w =? 0 then CNwrite else CNread) :: woken s /\ pkilled t = pkilled s /\
    pfreed t = (readopen (pp t) =? 0) && (writeopen (pp t) =? 0).
Proof.
  intros Hq Hf.
  enough (wp (pipeclose w) s (fun _ t => exists l : spinlock, pquiet t /\
    pp t = with_plock l ((if w =? 0 then with_readopen 0 else with_writeopen 0) (pp s)) /\
    woken t = (if w =? 0 then CNwrite else CNread) :: woken s /\ pkilled t = pkilled s /\
    pfreed t = (readopen (pp t) =? 0) && (writeopen (pp t) =? 0)))
    as ([] & t & Hrun & l & HQ) by by exists t, l.
  unfold pipeclose. apply wp_bind, wp_acquire_p; [done|]. intros t l Hh Hp Hw Hk Hft.
  assert (readopen (pp t) = readopen (pp s) /\ writeopen (pp t) = writeopen (pp s)) as (E1 & E2)
    by by rewrite Hp.
  apply wp_bind. destruct (Z.eqb_spec w 0) as [->|Hw0]; simpl.
  - apply wp_bind, wp_modify, wp_modify, wp_bind, wp_get. simpl. rewrite E2.
    destruct (writeopen (pp s) =? 0) eqn:Hwo; [apply wp_bind|];
      (eapply (wp_release_p (pcpu s)); [done|]; intros u l' Hqu Hpu Hwu Hku Hfu);
      [apply wp_modify|]; simpl in *; exists l'; (split; [done|]); rewrite Hpu, Hp; simpl; rewrite Hwo;
      split_and!; congruence || done.
  - apply wp_bind, wp_modify, wp_modify, wp_bind, wp_get. simpl. rewrite E1, andb_true_r.
    destruct (readopen (pp s) =? 0) eqn:Hro; [apply wp_bind|];
      (eapply (wp_release_p (pcpu s)); [done|]; intros u l' Hqu Hpu Hwu Hku Hfu);
      [apply wp_modify|]; simpl in *; exists l'; (split; [done|]); rewrite Hpu, Hp; simpl; rewrite Hro;
      split_and!; congruence || done || (simpl; congruence).
Qed.

End pipe.

(** * A pipe whose counters are about to wrap *)

Definition demo_pipe : pst :=
  mkPst (mkPipe (mkSpinlock 0 "pipe" None []) (replicate 512 0) (2 ^ 32 - 2) (2 ^ 32 - 2) 1 1)
    (mkCpu 0 0 0 false) 0 [] false.

Definition demo_stk : list Z := replicate 10 0.

Lemma demo_pipe_ok : pquiet demo_pipe /\ pipe_ok (pp demo_pipe) /\ contents (pp demo_pipe) = [].
Proof. split_and!; [done| |done]. by split. Qed.

(** Four bytes go in across the wrap, two come out. *)
Definition demo_written : pst :=
  match pipewrite demo_stk [1; 2; 3; 4] 4 demo_pipe with Ok (_, t) => t | _ => demo_pipe end.

Definition demo_read : pst :=
  match piperead demo_stk 2 demo_written with Ok (_, t) => t | _ => demo_pipe end.

Lemma pipe_fifo_witness : [1; 2; 3; 4] = [1; 2] ++ contents (pp demo_read).
Proof.
  destruct demo_pipe_ok as (H1 & H2 & H3).
  refine (proj1 (pipe_fifo demo_stk [1; 2; 3; 4] [1; 2] demo_read _)).
  apply (hist_read demo_stk [1; 2; 3; 4] [] demo_written 2); [|vm_compute; reflexivity].
  apply (hist_write demo_stk [] [] demo_pipe [1; 2; 3; 4] 4 4); [by apply hist_start|].
  vm_compute. reflexivity.
Defined.

