(* ===== verification/Sleeplock.v ===== *)
(** sleeplock.c: long-term locks.  The spinlock lk->lk only makes the few
    assignments atomic, so each operation is one step on the lock's fields; the
    channel a release wakes is the lock itself.  A caller that finds the lock
    taken sleeps and tries again: here it [Blocks]. *)

From S2P Require Import Prelude.

Record sleeplock := mkSleeplock {
  sl_locked : Z;
  sl_name : string;
  sl_pid : Z }.

Definition initsleeplock (name : string) : sleeplock := mkSleeplock 0 name 0.

(** [pid]: the caller's proc->pid. *)
Definition acquiresleep (pid : Z) (lk : sleeplock) : outcome sleeplock :=
  if negb (sl_locked lk =? 0) then Blocks "acquiresleep: sleep(lk, &lk->lk)"
  else Ok (mkSleeplock 1 (sl_name lk) pid).

(** The second component: wakeup(lk) was called. *)
Definition releasesleep (lk : sleeplock) : sleeplock * bool := (mkSleeplock 0 (sl_name lk) 0, true).

Definition holdingsleep (lk : sleeplock) : Z := sl_locked lk.

(** * Processes on one lock *)

(** What a process does with the lock: outside, trying, or inside. *)
Inductive sl_at := Outside | Trying | Inside.

#[global] Instance sl_at_eq_dec : EqDecision sl_at.
Proof. solve_decision. Defined.

Record slsys := mkSlsys { sys_lk : sleeplock; sys_at : list sl_at }.

(** Each process, whose pid is its index + 1, calls acquiresleep (and again
    after each wakeup), works, and calls releasesleep. *)
Inductive sl_step : slsys -> slsys -> Prop :=
| sl_call s i : sys_at s !! i = Some Outside ->
    sl_step s (mkSlsys (sys_lk s) (<[i := Trying]> (sys_at s)))
| sl_enter s i l : sys_at s !! i = Some Trying ->
    acquiresleep (Z.of_nat i + 1) (sys_lk s) = Ok l ->
    sl_step s (mkSlsys l (<[i := Inside]> (sys_at s)))
| sl_leave s i : sys_at s !! i = Some Inside ->
    sl_step s (mkSlsys (fst (releasesleep (sys_lk s))) (<[i := Outside]> (sys_at s))).

Definition sl_boot (s : slsys) : Prop :=
  (exists nm, sys_lk s = initsleeplock nm) /\ Forall (fun a => a = Outside) (sys_at s).

(** The lock says who is inside. *)
Definition sl_inv (s : slsys) : Prop :=
  (sl_locked (sys_lk s) = 0 /\ sl_pid (sys_lk s) = 0 /\
     forall i, sys_at s !! i <> Some Inside) \/
  (sl_locked (sys_lk s) = 1 /\ exists i, sl_pid (sys_lk s) = Z.of_nat i + 1 /\
     forall j, sys_at s !! j = Some Inside <-> j = i).

Lemma sl_step_inv s t : sl_inv s -> sl_step s t -> sl_inv t.
Proof.
  intros HI Hs. destruct Hs as [s i Hi|s i l Hi Hl|s i Hi];
    assert (i < length (sys_at s))%nat as Hlt by (by eapply lookup_lt_Some).
  - destruct HI as [(H1 & H2 & H3)|(H1 & k & H2 & H3)]; [left|right; split; [done|exists k; split; [done|]]].
    + split_and!; try done. intros j. simpl. rewrite list_lookup_insert_dec. case_decide; [done|apply H3].
    + intros j. simpl. rewrite list_lookup_insert_dec. case_decide as D; [|apply H3].
      split; [done|]. intros ->. destruct D as [-> _].
      assert (sys_at s !! k = Some Inside) by by apply H3. congruence.
  - unfold acquiresleep in Hl. destruct HI as [(H1 & H2 & H3)|(H1 & k & H2 & H3)].
    + rewrite H1 in Hl. injection Hl as <-. right. split; [done|]. exists i. split; [done|].
      intros j. simpl. rewrite list_lookup_insert_dec. case_decide as D.
      * destruct D as [-> _]. done.
      * split; [intros Hj; by apply H3 in Hj|]. intros ->. by destruct D.
    + rewrite H1 in Hl. discriminate Hl.
  - left. split_and!; try done. simpl. intros j. rewrite list_lookup_insert_dec. case_decide as D; [done|].
    destruct HI as [(H1 & H2 & H3)|(H1 & k & H2 & H3)]; [apply H3|].
    intros Hj. apply H3 in Hj as ->. apply H3 in Hi as ->. by destruct D.
Qed.

Lemma sl_boot_inv s : sl_boot s -> sl_inv s.
Proof.
  intros [[nm Hl] HF]. left. unfold sl_inv. rewrite Hl. split_and!; try done. intros i Hi.
  rewrite Forall_lookup in HF. by specialize (HF i _ Hi).
Qed.

(** A sleeping lock is held by one process at a time: along any
    interleaving at most one process is between its acquiresleep and its
    releasesleep, and the lock then carries that process's pid. *)
Lemma sleeplock_exclusive s0 s :
  sl_boot s0 -> rtc sl_step s0 s ->
  forall i j, sys_at s !! i = Some Inside -> sys_at s !! j = Some Inside ->
    i = j /\ holdingsleep (sys_lk s) = 1 /\ sl_pid (sys_lk s) = Z.of_nat i + 1.
Proof.
  intros Hb Hr. assert (sl_inv s) as HI.
  { apply sl_boot_inv in Hb. induction Hr; eauto using sl_step_inv. }
  intros i j Hi Hj. destruct HI as [(_ & _ & H3)|(H1 & k & H2 & H3)]; [by apply H3 in Hi|].
  apply H3 in Hi as ->. by apply H3 in Hj as ->.
Qed.

