(* ===== verification/Codec.v ===== *)
(** Structures inside disk blocks: 16- and 32-bit little-endian fields of a
    byte list, and the splice that a memmove into part of a block does. *)

From S2P Require Import Prelude.

(** Replace the bytes from [off] on by [x]. *)
Definition splice (off : nat) (x l : list Z) : list Z :=
  take off l ++ x ++ drop (off + length x) l.

(** The [n] bytes from [off] on. *)
Definition slice (off n : nat) (l : list Z) : list Z := take n (drop off l).

Definition le16 (v : Z) : list Z := [u8 v; u8 (Z.shiftr v 8)].

Definition le32 (v : Z) : list Z :=
  [u8 v; u8 (Z.shiftr v 8); u8 (Z.shiftr v 16); u8 (Z.shiftr v 24)].

(** The value of a little-endian byte list. *)
Fixpoint le_val (l : list Z) : Z :=
  match l with
  | [] => 0
  | b :: l => b + 2 ^ 8 * le_val l
  end.

Definition get16 (l : list Z) (off : nat) : Z := le_val (slice off 2 l).
Definition get32 (l : list Z) (off : nat) : Z := le_val (slice off 4 l).
Definition put16 (l : list Z) (off : nat) (v : Z) : list Z := splice off (le16 v) l.
Definition put32 (l : list Z) (off : nat) (v : Z) : list Z := splice off (le32 v) l.

Definition bytes (l : list Z) : Prop := Forall (fun b => 0 <= b < 256) l.

Lemma length_splice off x l :
  (off + length x <= length l)%nat -> length (splice off x l) = length l.
Proof. intros. unfold splice. rewrite !length_app, length_take, length_drop. lia. Qed.

Lemma lookup_splice off x l i :
  (off + length x <= length l)%nat ->
  splice off x l !! i =
    if decide (off <= i < off + length x)%nat then x !! (i - off)%nat else l !! i.
Proof.
  intros Hl. unfold splice. case_decide as D.
  - rewrite lookup_app_r by (rewrite length_take; lia). rewrite length_take.
    rewrite Nat.min_l by lia. by rewrite lookup_app_l by lia.
  - destruct (decide (i < off)%nat).
    + rewrite lookup_app_l by (rewrite length_take; lia). by rewrite lookup_take_lt by lia.
    + rewrite lookup_app_r by (rewrite length_take; lia). rewrite length_take, Nat.min_l by lia.
      rewrite lookup_app_r by lia. rewrite lookup_drop. f_equal. lia.
Qed.

Lemma length_slice off n l : (off + n <= length l)%nat -> length (slice off n l) = n.
Proof. intros. unfold slice. rewrite length_take, length_drop. lia. Qed.

Lemma lookup_slice off n l i : (i < n)%nat -> slice off n l !! i = l !! (off + i)%nat.
Proof. intros. unfold slice. by rewrite lookup_take_lt, lookup_drop by lia. Qed.

Lemma slice_splice_eq off x l :
  (off + length x <= length l)%nat -> slice off (length x) (splice off x l) = x.
Proof.
  intros. unfold slice, splice. rewrite drop_app_ge by (rewrite length_take; lia).
  rewrite length_take, Nat.min_l by lia. rewrite Nat.sub_diag, drop_0.
  by rewrite take_app_length.
Qed.

Lemma slice_splice_ne off x l off' n :
  (off + length x <= length l)%nat -> (off' + n <= off \/ off + length x <= off')%nat ->
  slice off' n (splice off x l) = slice off' n l.
Proof.
  intros Hl Hd. apply list_eq. intros i. destruct (decide (i < n)%nat) as [Hi|Hi].
  - rewrite !lookup_slice by done. rewrite lookup_splice by done. by rewrite decide_False by lia.
  - unfold slice. by rewrite !lookup_take_ge by lia.
Qed.

Lemma length_put32 l off v : (off + 4 <= length l)%nat -> length (put32 l off v) = length l.
Proof. intros. unfold put32. by apply length_splice. Qed.

Lemma length_put16 l off v : (off + 2 <= length l)%nat -> length (put16 l off v) = length l.
Proof. intros. unfold put16. by apply length_splice. Qed.

Lemma le_val_le32 v : le_val (le32 v) = u32 v.
Proof.
  unfold le32. cbn [le_val]. rewrite !Z.shiftr_div_pow2 by lia. unfold u8, u32.
  Z.div_mod_to_equations. lia.
Qed.

Lemma le_val_le16 v : le_val (le16 v) = u16 v.
Proof.
  unfold le16. cbn [le_val]. rewrite !Z.shiftr_div_pow2 by lia. unfold u8, u16.
  Z.div_mod_to_equations. lia.
Qed.

Lemma get32_put32_eq l off v : (off + 4 <= length l)%nat -> get32 (put32 l off v) off = u32 v.
Proof.
  intros. unfold get32, put32. change 4%nat with (length (le32 v)).
  rewrite slice_splice_eq by done. apply le_val_le32.
Qed.

Lemma get32_put32_ne l off v off' :
  (off + 4 <= length l)%nat -> (off' + 4 <= off \/ off + 4 <= off')%nat ->
  get32 (put32 l off v) off' = get32 l off'.
Proof. intros. unfold get32, put32. by rewrite slice_splice_ne. Qed.

Lemma get16_put16_eq l off v : (off + 2 <= length l)%nat -> get16 (put16 l off v) off = u16 v.
Proof.
  intros. unfold get16, put16. change 2%nat with (length (le16 v)).
  rewrite slice_splice_eq by done. apply le_val_le16.
Qed.

Lemma get16_put16_ne l off v off' :
  (off + 2 <= length l)%nat -> (off' + 2 <= off \/ off + 2 <= off')%nat ->
  get16 (put16 l off v) off' = get16 l off'.
Proof. intros. unfold get16, put16. by rewrite slice_splice_ne. Qed.

Lemma get32_splice_ne x l off off' :
  (off + length x <= length l)%nat -> (off' + 4 <= off \/ off + length x <= off')%nat ->
  get32 (splice off x l) off' = get32 l off'.
Proof. intros. unfold get32. by rewrite slice_splice_ne. Qed.

Lemma get16_splice_ne x l off off' :
  (off + length x <= length l)%nat -> (off' + 2 <= off \/ off + length x <= off')%nat ->
  get16 (splice off x l) off' = get16 l off'.
Proof. intros. unfold get16. by rewrite slice_splice_ne. Qed.

Lemma get32_put16_ne l off v off' :
  (off + 2 <= length l)%nat -> (off' + 4 <= off \/ off + 2 <= off')%nat ->
  get32 (put16 l off v) off' = get32 l off'.
Proof. intros. unfold put16. by apply get32_splice_ne. Qed.

Lemma get16_put32_ne l off v off' :
  (off + 4 <= length l)%nat -> (off' + 2 <= off \/ off + 4 <= off')%nat ->
  get16 (put32 l off v) off' = get16 l off'.
Proof. intros. unfold put32. by apply get16_splice_ne. Qed.

Lemma le_val_range l : bytes l -> 0 <= le_val l < 2 ^ (8 * Z.of_nat (length l)).
Proof.
  induction 1 as [|b l Hb _ IH]; [simpl; lia|]. cbn [le_val length].
  replace (8 * Z.of_nat (S (length l))) with (8 + 8 * Z.of_nat (length l)) by lia.
  rewrite Z.pow_add_r by lia. lia.
Qed.

Lemma bytes_slice off n l : bytes l -> bytes (slice off n l).
Proof. intros. by apply Forall_take, Forall_drop. Qed.

Lemma bytes_splice off x l : bytes x -> bytes l -> bytes (splice off x l).
Proof.
  intros. unfold splice. repeat apply Forall_app_2; [by apply Forall_take|done|by apply Forall_drop].
Qed.

Lemma bytes_le32 v : bytes (le32 v).
Proof. unfold le32. repeat constructor; apply u8_range. Qed.

Lemma bytes_le16 v : bytes (le16 v).
Proof. unfold le16. repeat constructor; apply u8_range. Qed.

Lemma get32_range l off : bytes l -> (off + 4 <= length l)%nat -> 0 <= get32 l off < 2 ^ 32.
Proof.
  intros Hb Hl. unfold get32. pose proof (le_val_range _ (bytes_slice off 4 l Hb)) as Hr.
  by rewrite length_slice in Hr by done.
Qed.

(** Writing a field with the value it has changes nothing. *)
Lemma splice_slice off n l : (off + n <= length l)%nat -> splice off (slice off n l) l = l.
Proof.
  intros. apply list_eq. intros i. rewrite lookup_splice by by rewrite length_slice.
  rewrite length_slice by done. case_decide; [|done]. rewrite lookup_slice by lia. f_equal. lia.
Qed.
