(* ===== verification/Mp.v ===== *)
(** mp.c: what the BIOS says about the processors.

    Memory is its bytes at kernel virtual addresses.  A run of mpinit's loop that
    would go on forever runs out of fuel and is [Blocks]. *)

From S2P Require Import Prelude StringC Codec Kalloc.

Definition NCPU : nat := 8.

Definition MPPROC : Z := 0.
Definition MPBUS : Z := 1.
Definition MPIOAPIC : Z := 2.
Definition MPIOINTR : Z := 3.
Definition MPLINTR : Z := 4.

Definition sizeof_mp : Z := 16.
Definition sizeof_mpconf : Z := 44.
Definition sizeof_mpproc : Z := 20.
Definition sizeof_mpioapic : Z := 8.

(** The apicid fields of cpus, the counters and flags, the register page of the
    local APIC, and the bytes written to ports (latest first). *)
Record mpst := mkMp {
  apicids : list Z;
  ncpu : nat;
  ismp : bool;
  ioapicid : Z;
  lapic : Z;
  mports : list (Z * Z) }.

Definition mp0 : mpst := mkMp (replicate NCPU 0) 0 false 0 0 [].

Abbreviation MpM := (M mpst).

Section mp.
(** Memory, and what the interrupt mode configuration register reads as. *)
Context (m : mem) (imcr : Z).

Definition sum (addr : Z) (len : nat) : Z := u8 (foldr Z.add 0 (bytes_at m addr len)).

(** memcmp(p, "_MP_", 4) == 0 and memcmp(p, "PCMP", 4) == 0 *)
Definition is_MP (p : Z) : bool := bool_decide (bytes_at m p 4 = [95; 77; 80; 95]).
Definition is_PCMP (p : Z) : bool := bool_decide (bytes_at m p 4 = [80; 67; 77; 80]).

Definition mp_physaddr (p : Z) : Z := le_val (bytes_at m (p + 4) 4).
Definition mp_imcrp (p : Z) : Z := m (p + 12).
Definition conf_length (p : Z) : Z := le_val (bytes_at m (p + 4) 2).
Definition conf_version (p : Z) : Z := m (p + 6).
Definition conf_lapicaddr (p : Z) : Z := le_val (bytes_at m (p + 36) 4).

Fixpoint search_loop (fuel : nat) (p e : Z) : option Z :=
  match fuel with
  | O => None
  | S fuel =>
      if p <? e then
        if is_MP p && (sum p (Z.to_nat sizeof_mp) =? 0) then Some p else search_loop fuel (p + sizeof_mp) e
      else None
  end.

(** A round of the loop takes one structure. *)
Definition mpsearch1 (a len : Z) : option Z :=
  let addr := u32 (P2V a) in search_loop (Z.to_nat (len / sizeof_mp) + 1) addr (addr + len).

Definition mpsearch : option Z :=
  let bda := P2V 0x400 in
  let p := Z.shiftl (Z.lor (Z.shiftl (m (bda + 0x0F)) 8) (m (bda + 0x0E))) 4 in
  let rom := mpsearch1 0xF0000 0x10000 in
  if negb (p =? 0) then
    match mpsearch1 p 1024 with Some mp => Some mp | None => rom end
  else
    let p := Z.lor (Z.shiftl (m (bda + 0x14)) 8) (m (bda + 0x13)) * 1024 in
    match mpsearch1 (u32 (p - 1024)) 1024 with Some mp => Some mp | None => rom end.

(** The floating pointer and the configuration table it leads to. *)
Definition mpconfig : option (Z * Z) :=
  match mpsearch with
  | None => None
  | Some mp =>
      if mp_physaddr mp =? 0 then None
      else
        let conf := u32 (P2V (mp_physaddr mp)) in
        if negb (is_PCMP conf) then None
        else if negb (conf_version conf =? 1) && negb (conf_version conf =? 4) then None
        else if negb (sum conf (Z.to_nat (conf_length conf)) =? 0) then None
        else Some (mp, conf)
  end.

Definition add_cpu (apicid : Z) (s : mpst) : mpst :=
  if (ncpu s <? NCPU)%nat then mkMp (<[ncpu s := apicid]> (apicids s)) (S (ncpu s)) (ismp s) (ioapicid s) (lapic s) (mports s) else s.

Definition set_ioapic (id : Z) (s : mpst) : mpst := mkMp (apicids s) (ncpu s) (ismp s) id (lapic s) (mports s).

Definition set_ismp (b : bool) (s : mpst) : mpst := mkMp (apicids s) (ncpu s) b (ioapicid s) (lapic s) (mports s).

(** The loop over the entries of the table.  The break of the default case
    leaves the switch, not the loop. *)
Fixpoint entry_loop (fuel : nat) (p e : Z) : MpM unit :=
  match fuel with
  | O => blocks "mpinit: the loop over the entries"
  | S fuel =>
      if p <? e then
        if m p =? MPPROC then modify (add_cpu (m (p + 1)));; entry_loop fuel (p + sizeof_mpproc) e
        else if m p =? MPIOAPIC then modify (set_ioapic (m (p + 1)));; entry_loop fuel (p + sizeof_mpioapic) e
        else if (m p =? MPBUS) || (m p =? MPIOINTR) || (m p =? MPLINTR) then entry_loop fuel (p + 8) e
        else modify (set_ismp false);; entry_loop fuel p e
      else mret tt
  end.

Definition moutb (port v : Z) : MpM unit :=
  modify (fun s => mkMp (apicids s) (ncpu s) (ismp s) (ioapicid s) (lapic s) ((port, u8 v) :: mports s)).

Definition mpinit (fuel : nat) : MpM unit :=
  match mpconfig with
  | None => mret tt
  | Some (mp, conf) =>
      modify (fun s => mkMp (apicids s) (ncpu s) true (ioapicid s) (conf_lapicaddr conf) (mports s));;
      entry_loop fuel (conf + sizeof_mpconf) (conf + conf_length conf);;
      b ← gets ismp;
      if negb b then modify (fun s => mkMp (apicids s) 1 (ismp s) 0 0 (mports s))
      else when (negb (mp_imcrp mp =? 0)) (moutb 0x22 0x70;; moutb 0x23 (Z.lor imcr 1))
  end.
End mp.

(** * The floating pointer *)

Section search.
Context (m : mem).

(** A structure mpsearch1 accepts. *)
Definition candidate (p : Z) : bool := is_MP m p && (sum m p (Z.to_nat sizeof_mp) =? 0).

(** mpsearch1 returns the first one among the places it looks at, every 16
    bytes, and 0 only when there is none. *)
Lemma search_first fuel p e :
  e <= p + sizeof_mp * Z.of_nat fuel ->
  match search_loop m fuel p e with
  | Some q => exists k, 0 <= k /\ q = p + sizeof_mp * k /\ q < e /\ candidate q = true /\ forall j, 0 <= j < k -> candidate (p + sizeof_mp * j) = false
  | None => forall j, 0 <= j -> p + sizeof_mp * j < e -> candidate (p + sizeof_mp * j) = false
  end.
Proof.
  revert p. induction fuel as [|fuel IH]; intros p He; cbn [search_loop]; unfold sizeof_mp in *.
  { intros j Hj Hlt. lia. }
  destruct (Z.ltb_spec p e) as [Hlt|Hge]; [|intros j Hj Hl; lia]. change (is_MP m p && _) with (candidate p). destruct (candidate p) eqn:Hc; cbn iota.
  - exists 0. split; [done|]. split; [lia|]. split; [done|]. split; [done|]. intros j Hj. lia.
  - specialize (IH (p + 16) ltac:(lia)). assert (forall j, candidate (p + 16 + 16 * (j - 1)) = candidate (p + 16 * j)) as E by (intros j; f_equal; lia).
    destruct (search_loop m fuel (p + 16) e) as [q|].
    + destruct IH as (k & Hk & -> & Hq & Hcq & Hbefore). exists (k + 1). split; [lia|]. split; [lia|]. split; [done|]. split; [done|].
      intros j Hj. destruct (Z.eq_dec j 0) as [->|Hne]; [by rewrite Z.mul_0_r, Z.add_0_r|]. rewrite <- E. apply Hbefore. lia.
    + intros j Hj Hl. destruct (Z.eq_dec j 0) as [->|Hne]; [by rewrite Z.mul_0_r, Z.add_0_r|]. rewrite <- E. apply IH; lia.
Qed.
End search.

(** * The table *)

(** An entry as the MultiProcessor specification lays it out. *)
Inductive entry :=
| EProc (apicid : Z) (rest : list Z)
| EIoapic (id : Z) (rest : list Z)
| EOther (type : Z) (rest : list Z).

Definition encode (e : entry) : list Z :=
  match e with
  | EProc id rest => MPPROC :: id :: rest
  | EIoapic id rest => MPIOAPIC :: id :: rest
  | EOther ty rest => ty :: rest
  end.

Definition entry_ok (e : entry) : Prop :=
  match e with
  | EProc _ rest => length rest = 18%nat
  | EIoapic _ rest => length rest = 6%nat
  | EOther ty rest => (ty = MPBUS \/ ty = MPIOINTR \/ ty = MPLINTR) /\ length rest = 7%nat
  end.

Definition proc_ids (es : list entry) : list Z := omap (fun e => match e with EProc id _ => Some id | _ => None end) es.
Definition ioapic_ids (es : list entry) : list Z := omap (fun e => match e with EIoapic id _ => Some id | _ => None end) es.

(** What one entry does to the kernel's variables. *)
Definition effect (e : entry) (s : mpst) : mpst :=
  match e with EProc id _ => add_cpu id s | EIoapic id _ => set_ioapic id s | EOther _ _ => s end.

Definition effects (es : list entry) (s : mpst) : mpst := foldl (fun s e => effect e s) s es.

Lemma bytes_at_app m a l l' :
  bytes_at m a (length (l ++ l')) = l ++ l' -> bytes_at m a (length l) = l /\ bytes_at m (a + Z.of_nat (length l)) (length l') = l'.
Proof.
  revert a. induction l as [|x l IH]; intros a H; cbn [app length bytes_at] in *.
  - by rewrite Z.add_0_r.
  - injection H as Hx H. destruct (IH (a + 1) H) as [H1 H2]. split; [by rewrite Hx, H1|].
    by replace (a + Z.of_nat (S (length l))) with (a + 1 + Z.of_nat (length l)) by lia.
Qed.

Section table.
Context (m : mem).

(** The loop takes the known entries one after the other. *)
Lemma entry_loop_takes es : forall fuel p e s,
  Forall entry_ok es -> bytes_at m p (length (concat (encode <$> es))) = concat (encode <$> es) ->
  p + Z.of_nat (length (concat (encode <$> es))) <= e -> (length es <= fuel)%nat ->
  entry_loop m fuel p e s =
  entry_loop m (fuel - length es) (p + Z.of_nat (length (concat (encode <$> es)))) e (effects es s).
Proof.
  induction es as [|x es IH]; intros fuel p e s Hok Hb He Hf; cbn [fmap list_fmap concat length effects foldl] in *.
  { by rewrite Z.add_0_r, Nat.sub_0_r. }
  apply Forall_cons in Hok as [Hx Hok]. destruct fuel as [|fuel]; [lia|]. apply bytes_at_app in Hb as [Hb1 Hb2]. rewrite length_app in *.
  replace (S fuel - S (length es))%nat with (fuel - length es)%nat by lia.
  assert (forall n, length (encode x) = n -> p + Z.of_nat (n + length (concat (encode <$> es))) = p + Z.of_nat n + Z.of_nat (length (concat (encode <$> es)))) as Hlen by lia.
  cbn [entry_loop]. destruct x as [id rest|id rest|ty rest]; cbn [entry_ok encode length] in *.
  - injection Hb1 as H0 H1 _. rewrite Hx in *. replace (p <? e) with true by lia. rewrite H0, H1. change (MPPROC =? MPPROC) with true. cbn iota.
    etrans; [by apply bind_Ok|]. rewrite (IH fuel); [|done|done|unfold sizeof_mpproc; lia|lia]. f_equal. unfold sizeof_mpproc. lia.
  - injection Hb1 as H0 H1 _. rewrite Hx in *. replace (p <? e) with true by lia. rewrite H0, H1. change (MPIOAPIC =? MPPROC) with false.
    change (MPIOAPIC =? MPIOAPIC) with true. cbn iota.
    etrans; [by apply bind_Ok|]. rewrite (IH fuel); [|done|done|unfold sizeof_mpioapic; lia|lia]. f_equal. unfold sizeof_mpioapic. lia.
  - injection Hb1 as H0 _. destruct Hx as [Hty Hl]. rewrite Hl in *. replace (p <? e) with true by lia. rewrite H0.
    replace (ty =? MPPROC) with false by (unfold MPPROC, MPBUS, MPIOINTR, MPLINTR in *; lia).
    replace (ty =? MPIOAPIC) with false by (unfold MPIOAPIC, MPBUS, MPIOINTR, MPLINTR in *; lia).
    replace ((ty =? MPBUS) || (ty =? MPIOINTR) || (ty =? MPLINTR)) with true by (destruct Hty as [->|[->| ->]]; done).
    rewrite (IH fuel); [|done|done|lia|lia]. f_equal. lia.
Qed.

(** An entry of another type is never passed. *)
Lemma entry_loop_hangs fuel p e s :
  p < e -> ~ 0 <= m p <= 4 -> entry_loop m fuel p e s = Blocks "mpinit: the loop over the entries".
Proof.
  intros Hp Hty. revert s. induction fuel as [|fuel IH]; intros s; [done|]. cbn [entry_loop]. replace (p <? e) with true by lia.
  unfold MPPROC, MPIOAPIC, MPBUS, MPIOINTR, MPLINTR. replace (m p =? 0) with false by lia. replace (m p =? 2) with false by lia.
  replace (m p =? 1) with false by lia. replace (m p =? 3) with false by lia. replace (m p =? 4) with false by lia. cbn [orb].
  etrans; [by apply bind_Ok|]. apply IH.
Qed.
End table.

(** What the known entries amount to. *)
Record counted (es : list entry) (s t : mpst) : Prop := {
  ct_len : length (apicids t) = NCPU;
  ct_ncpu : ncpu t = Nat.min NCPU (ncpu s + length (proc_ids es));
  ct_ids : take (ncpu t) (apicids t) = take NCPU (take (ncpu s) (apicids s) ++ proc_ids es);
  ct_io : ioapicid t = default (ioapicid s) (last (ioapic_ids es));
  ct_rest : ismp t = ismp s /\ lapic t = lapic s /\ mports t = mports s }.

Lemma last_cons_default {A} (x y : A) l : default y (last (x :: l)) = default x (last l).
Proof. rewrite last_cons. by destruct (last l). Qed.

Lemma effects_counted es : forall s, length (apicids s) = NCPU -> (ncpu s <= NCPU)%nat -> counted es s (effects es s).
Proof.
  induction es as [|x es IH]; intros s Hl Hn.
  { split; cbn [effects foldl proc_ids ioapic_ids omap list_omap length]; try done; [lia|].
    rewrite app_nil_r, take_take. f_equal. lia. }
  change (effects (x :: es) s) with (effects es (effect x s)). destruct x as [id rest|id rest|ty rest].
  - change (proc_ids (EProc id rest :: es)) with (id :: proc_ids es) in *. cbn [effect]. unfold add_cpu. destruct (Nat.ltb_spec (ncpu s) NCPU) as [Hlt|Hge].
    + destruct (IH (mkMp (<[ncpu s := id]> (apicids s)) (S (ncpu s)) (ismp s) (ioapicid s) (lapic s) (mports s))) as [C1 C2 C3 C4 C5];
        [by cbn [apicids]; rewrite length_insert|cbn [ncpu]; lia|].
      cbn [ncpu apicids ioapicid ismp lapic mports] in *. split; try done; change (proc_ids (EProc id rest :: es)) with (id :: proc_ids es).
      * rewrite C2. cbn [length]. lia.
      * rewrite C3. f_equal. rewrite (take_S_r _ _ id) by (apply list_lookup_insert_eq; lia). rewrite take_insert_ge by lia. by rewrite <- app_assoc.
    + destruct (IH s Hl Hn) as [C1 C2 C3 C4 C5]. split; try done; change (proc_ids (EProc id rest :: es)) with (id :: proc_ids es).
      * rewrite C2. cbn [length]. lia.
      * rewrite C3, !take_app_le by (rewrite length_take; lia). done.
  - destruct (IH (set_ioapic id s) Hl Hn) as [C1 C2 C3 C4 C5]. split; try done.
    change (ioapic_ids (EIoapic id rest :: es)) with (id :: ioapic_ids es). cbn [set_ioapic ioapicid] in C4. by rewrite last_cons_default.
  - destruct (IH s Hl Hn) as [C1 C2 C3 C4 C5]. by split.
Qed.

Lemma bind_Blocks {S A B} (x : M S A) (k : A -> M S B) s e : x s = Blocks e -> (x ≫= k) s = Blocks e.
Proof. unfold mbind, M_bind. by intros ->. Qed.

Section init.
Context (m : mem) (imcr : Z) (mp conf : Z) (es : list entry).
Hypothesis Hconf : mpconfig m = Some (mp, conf).
Hypothesis Hok : Forall entry_ok es.
Hypothesis Hbytes : bytes_at m (conf + sizeof_mpconf) (length (concat (encode <$> es))) = concat (encode <$> es).

#[local] Set Default Proof Using "Type*".

Definition mp_start : mpst := mkMp (replicate NCPU 0) 0 true 0 (conf_lapicaddr m conf) [].

Lemma mpinit_loop fuel :
  sizeof_mpconf + Z.of_nat (length (concat (encode <$> es))) <= conf_length m conf -> (length es <= fuel)%nat ->
  entry_loop m fuel (conf + sizeof_mpconf) (conf + conf_length m conf) mp_start =
  entry_loop m (fuel - length es) (conf + sizeof_mpconf + Z.of_nat (length (concat (encode <$> es)))) (conf + conf_length m conf) (effects es mp_start).
Proof. intros Hl Hf. apply entry_loop_takes; [done|done|lia|done]. Qed.
End init.

(** C37. mpinit reads the table of the BIOS.  Whenever mpconfig accepts a table
    whose entries are of the known types, mpinit returns, with one round of its
    loop for each entry; cpus holds the APIC ids of the first NCPU processors in
    the order of the table and ncpu their number, ioapicid is the id of the last
    I/O APIC, lapic the address in the header, and the IMCR is switched exactly
    if the floating pointer asks for it. *)
Theorem mpinit_reads m imcr mp conf es fuel :
  mpconfig m = Some (mp, conf) -> Forall entry_ok es ->
  bytes_at m (conf + sizeof_mpconf) (length (concat (encode <$> es))) = concat (encode <$> es) ->
  conf_length m conf = sizeof_mpconf + Z.of_nat (length (concat (encode <$> es))) -> (length es < fuel)%nat ->
  exists t, mpinit m imcr fuel mp0 = Ok (tt, t) /\
    ismp t = true /\ ncpu t = Nat.min NCPU (length (proc_ids es)) /\ take (ncpu t) (apicids t) = take NCPU (proc_ids es) /\
    ioapicid t = default 0 (last (ioapic_ids es)) /\ lapic t = conf_lapicaddr m conf /\
    mports t = if mp_imcrp m mp =? 0 then [] else [(0x23, u8 (Z.lor imcr 1)); (0x22, 0x70)].
Proof.
  intros Hconf Hok Hb Hlen Hf. destruct (effects_counted es (mp_start m conf)) as [C1 C2 C3 C4 (C5 & C6 & C7)]; [done|cbn; lia|].
  set (t := effects es (mp_start m conf)) in *. cbn [mp_start ismp lapic mports] in *.
  assert (entry_loop m fuel (conf + sizeof_mpconf) (conf + conf_length m conf) (mp_start m conf) = Ok (tt, t)) as Hloop.
  { rewrite (mpinit_loop m mp conf es Hconf Hok Hb) by lia. fold t. destruct (fuel - length es)%nat eqn:E; [lia|]. cbn [entry_loop].
    by replace (_ <? _) with false by lia. }
  unfold mpinit. rewrite Hconf. erewrite bind_Ok by reflexivity. cbn [mp0 apicids ncpu ioapicid mports]. fold (mp_start m conf).
  erewrite bind_Ok by exact Hloop. erewrite bind_Ok by reflexivity. rewrite C5. cbn [negb]. destruct (mp_imcrp m mp =? 0) eqn:E; cbn [negb when].
  - by exists t.
  - eexists. split; [reflexivity|]. cbn [ismp ncpu apicids ioapicid lapic mports]. rewrite C7. done.
Qed.

(** C40. An entry of a type mpinit does not know hangs the kernel.  The default
    case means to fall back to one processor, but its break leaves the switch
    and not the loop: mpinit never returns, however long it runs. *)
Theorem mpinit_unknown_hangs m imcr mp conf es fuel :
  mpconfig m = Some (mp, conf) -> Forall entry_ok es ->
  bytes_at m (conf + sizeof_mpconf) (length (concat (encode <$> es))) = concat (encode <$> es) ->
  sizeof_mpconf + Z.of_nat (length (concat (encode <$> es))) < conf_length m conf ->
  ~ 0 <= m (conf + sizeof_mpconf + Z.of_nat (length (concat (encode <$> es)))) <= 4 -> (length es <= fuel)%nat ->
  mpinit m imcr fuel mp0 = Blocks "mpinit: the loop over the entries".
Proof.
  intros Hconf Hok Hb Hlen Hty Hf. unfold mpinit. rewrite Hconf. erewrite bind_Ok by reflexivity. cbn [mp0 apicids ncpu ioapicid mports].
  fold (mp_start m conf). apply bind_Blocks. rewrite (mpinit_loop m mp conf es Hconf Hok Hb) by lia. apply entry_loop_hangs; [lia|done].
Qed.

Module MpDemo.
(** A BIOS with the floating pointer in the EBDA and a table at 0xE0000: two
    processors, a bus and an I/O APIC; with [bad], an entry of type 9 as well. *)
Definition es : list entry := [EProc 0 (replicate 18 0); EProc 3 (replicate 18 0); EOther MPBUS (replicate 7 0); EIoapic 2 (replicate 6 0)].
Definition tail (bad : bool) : list Z := if bad then [9] else [].
Definition body (bad : bool) : list Z := concat (encode <$> es) ++ tail bad.
Definition len (bad : bool) : Z := 44 + Z.of_nat (length (body bad)).
Definition header (bad : bool) (check : Z) : list Z :=
  [80; 67; 77; 80] ++ le16 (len bad) ++ [4; check] ++ replicate 20 32 ++ le32 0 ++ le16 0 ++ le16 4 ++ le32 0xFEE00000 ++ [0; 0; 0; 0].
Definition fix_sum (l : list Z) : Z := u8 (- foldr Z.add 0 l).
Definition table (bad : bool) : list Z := header bad (fix_sum (header bad 0 ++ body bad)) ++ body bad.
Definition pointer (check : Z) : list Z := [95; 77; 80; 95] ++ le32 0xE0000 ++ [1; 4; check; 0; 128; 0; 0; 0].
Definition place (l : list Z) (a : Z) (m : mem) : mem :=
  fun x => if (a <=? x) && (x <? a + Z.of_nat (length l)) then nth (Z.to_nat (x - a)) l 0 else m x.
Definition bios (bad : bool) : mem :=
  place (le16 0x9FC0) (P2V 0x40E) (place (pointer (fix_sum (pointer 0))) (P2V 0x9FC00) (place (table bad) (P2V 0xE0000) (fun _ => 0))).
Definition conf : Z := P2V 0xE0000.
Definition mp : Z := P2V 0x9FC00.
End MpDemo.

Lemma mpinit_reads_witness :
  exists t, mpinit (MpDemo.bios false) 0 5 mp0 = Ok (tt, t) /\ take (ncpu t) (apicids t) = [0; 3] /\ ioapicid t = 2 /\ lapic t = 0xFEE00000.
Proof.
  destruct (mpinit_reads (MpDemo.bios false) 0 MpDemo.mp MpDemo.conf MpDemo.es 5) as (t & H & _ & _ & Hids & Hio & Hl & _).
  - vm_compute. reflexivity.
  - repeat constructor.
  - vm_compute. reflexivity.
  - vm_compute. reflexivity.
  - cbn. lia.
  - exists t. split; [exact H|]. split; [exact Hids|]. split; [exact Hio|]. rewrite Hl. vm_compute. reflexivity.
Defined.

Lemma mpinit_unknown_hangs_witness : mpinit (MpDemo.bios true) 0 1000 mp0 = Blocks "mpinit: the loop over the entries".
Proof.
  apply (mpinit_unknown_hangs (MpDemo.bios true) 0 MpDemo.mp MpDemo.conf MpDemo.es).
  - vm_compute. reflexivity.
  - repeat constructor.
  - vm_compute. reflexivity.
  - vm_compute. reflexivity.
  - vm_compute. intros [_ H]. by apply H.
  - cbn. lia.
Defined.
