(* ===== verification/Lapic.v ===== *)
(** lapic.c: the local APIC and the clock of the CMOS.

    A device is what it answers to each read, given everything the processor has
    written to it and read from it before.  Loops that wait for a device have
    fuel and are [Blocks] without it. *)

From S2P Require Import Prelude StringC Codec Spinlock Kalloc Irq Mp.

(** Indices of registers. *)
Definition ID : Z := 0x0020 / 4.
Definition VER : Z := 0x0030 / 4.
Definition TPR : Z := 0x0080 / 4.
Definition EOI : Z := 0x00B0 / 4.
Definition SVR : Z := 0x00F0 / 4.
Definition ENABLE : Z := 0x100.
Definition ESR : Z := 0x0280 / 4.
Definition ICRLO : Z := 0x0300 / 4.
Definition INIT : Z := 0x500.
Definition STARTUP : Z := 0x600.
Definition DELIVS : Z := 0x1000.
Definition ASSERT : Z := 0x4000.
Definition LEVEL : Z := 0x8000.
Definition BCAST : Z := 0x80000.
Definition ICRHI : Z := 0x0310 / 4.
Definition TIMER : Z := 0x0320 / 4.
Definition X1 : Z := 0xB.
Definition PERIODIC : Z := 0x20000.
Definition PCINT : Z := 0x0340 / 4.
Definition LINT0 : Z := 0x0350 / 4.
Definition LINT1 : Z := 0x0360 / 4.
Definition ERROR : Z := 0x0370 / 4.
Definition MASKED : Z := 0x10000.
Definition TICR : Z := 0x0380 / 4.
Definition TDCR : Z := 0x03E0 / 4.
Definition IRQ_ERROR : Z := 19.

Definition CMOS_PORT : Z := 0x70.
Definition CMOS_RETURN : Z := 0x71.
Definition CMOS_STATA : Z := 0x0a.
Definition CMOS_STATB : Z := 0x0b.
Definition CMOS_UIP : Z := Z.shiftl 1 7.
Definition SECS : Z := 0x00.
Definition MINS : Z := 0x02.
Definition HOURS : Z := 0x04.
Definition DAY : Z := 0x07.
Definition MONTH : Z := 0x08.
Definition YEAR : Z := 0x09.

(** One access to the registers of the local APIC or to the ports. *)
Inductive access := Wr (at_ v : Z) | Rd (at_ : Z).

(** What mpinit found, the accesses to the local APIC and to the ports (latest
    first), memory, and how often cpunum was called with interrupts enabled (it
    complains the first time). *)
Record lst := mkL {
  found : mpst;
  apic : list access;
  cmos : list access;
  low : mem;
  complained : nat }.

Abbreviation LpM := (M lst).

Record rtcdate := mkDate { second : Z; minute : Z; hour : Z; day : Z; month : Z; year : Z }.

Section lapic.
(** The answers of the local APIC and of the ports, and EFLAGS. *)
Context (apic_read : list access -> Z -> Z) (port_read : list access -> Z -> Z) (eflags : Z).

Definition lapic_rd (index : Z) : LpM Z :=
  act (fun s => Ok (apic_read (apic s) index, mkL (found s) (Rd index :: apic s) (cmos s) (low s) (complained s))).

Definition lapicw (index value : Z) : LpM unit :=
  modify (fun s => mkL (found s) (Wr index (u32 value) :: apic s) (cmos s) (low s) (complained s));;
  lapic_rd ID;;
  mret tt.

Fixpoint wait_delivery (fuel : nat) : LpM unit :=
  match fuel with
  | O => blocks "lapicinit: the INIT is being delivered"
  | S fuel => v ← lapic_rd ICRLO; if negb (Z.land v DELIVS =? 0) then wait_delivery fuel else mret tt
  end.

Definition lapicinit (fuel : nat) : LpM unit :=
  a ← gets (fun s => lapic (found s));
  if a =? 0 then mret tt
  else
    lapicw SVR (Z.lor ENABLE (T_IRQ0 + IRQ_SPURIOUS));;
    lapicw TDCR X1;;
    lapicw TIMER (Z.lor PERIODIC (T_IRQ0 + IRQ_TIMER));;
    lapicw TICR 10000000;;
    lapicw LINT0 MASKED;;
    lapicw LINT1 MASKED;;
    v ← lapic_rd VER;
    when (4 <=? Z.land (Z.shiftr v 16) 0xFF) (lapicw PCINT MASKED);;
    lapicw ERROR (T_IRQ0 + IRQ_ERROR);;
    lapicw ESR 0;;
    lapicw ESR 0;;
    lapicw EOI 0;;
    lapicw ICRHI 0;;
    lapicw ICRLO (Z.lor (Z.lor BCAST INIT) LEVEL);;
    wait_delivery fuel;;
    lapicw TPR 0.

(** The loop over cpus. *)
Fixpoint cpu_loop (n i : nat) (ids : list Z) (apicid : Z) : LpM Z :=
  match n with
  | O => panic "unknown apicid\n"
  | S n => if nth i ids 0 =? apicid then mret (Z.of_nat i) else cpu_loop n (S i) ids apicid
  end.

Definition cpunum : LpM Z :=
  when (negb (Z.land eflags FL_IF =? 0)) (modify (fun s => mkL (found s) (apic s) (cmos s) (low s) (S (complained s))));;
  a ← gets (fun s => lapic (found s));
  if a =? 0 then mret 0
  else
    id ← lapic_rd ID;
    f ← gets found;
    cpu_loop (ncpu f) 0 (apicids f) (Z.shiftr id 24).

Definition lapiceoi : LpM unit :=
  a ← gets (fun s => lapic (found s));
  when (negb (a =? 0)) (lapicw EOI 0).

Definition microdelay (us : Z) : LpM unit := mret tt.

Definition coutb (port v : Z) : LpM unit :=
  modify (fun s => mkL (found s) (apic s) (Wr port (u8 v) :: cmos s) (low s) (complained s)).

Definition cinb (port : Z) : LpM Z :=
  act (fun s => Ok (port_read (cmos s) port, mkL (found s) (apic s) (Rd port :: cmos s) (low s) (complained s))).

(** A store to the warm reset vector. *)
Definition wrv_store (i v : Z) : LpM unit :=
  let a := P2V (Z.lor (Z.shiftl 0x40 4) 0x67) + 2 * i in
  modify (fun s => mkL (found s) (apic s) (cmos s) (upd (upd (low s) a (u8 v)) (a + 1) (u8 (Z.shiftr v 8))) (complained s)).

(** One STARTUP of the loop. *)
Definition startup_ipi (apicid addr : Z) : LpM unit :=
  lapicw ICRHI (Z.shiftl apicid 24);;
  lapicw ICRLO (Z.lor STARTUP (Z.shiftr addr 12));;
  microdelay 200.

Definition lapicstartap (apicid addr : Z) : LpM unit :=
  coutb CMOS_PORT 0xF;;
  coutb (CMOS_PORT + 1) 0x0A;;
  wrv_store 0 0;;
  wrv_store 1 (Z.shiftr addr 4);;
  lapicw ICRHI (Z.shiftl apicid 24);;
  lapicw ICRLO (Z.lor (Z.lor INIT LEVEL) ASSERT);;
  microdelay 200;;
  lapicw ICRLO (Z.lor INIT LEVEL);;
  microdelay 100;;
  startup_ipi apicid addr;;
  startup_ipi apicid addr.

Definition cmos_read (reg : Z) : LpM Z :=
  coutb CMOS_PORT reg;;
  microdelay 200;;
  cinb CMOS_RETURN.

Definition fill_rtcdate : LpM rtcdate :=
  s ← cmos_read SECS;
  mi ← cmos_read MINS;
  h ← cmos_read HOURS;
  d ← cmos_read DAY;
  mo ← cmos_read MONTH;
  y ← cmos_read YEAR;
  mret (mkDate s mi h d mo y).

#[global] Instance rtcdate_eq_dec : EqDecision rtcdate.
Proof. solve_decision. Defined.

(** The loop that reads the date until two readings agree. *)
Fixpoint date_loop (fuel : nat) : LpM rtcdate :=
  match fuel with
  | O => blocks "cmostime: the clock is being updated"
  | S fuel =>
      t1 ← fill_rtcdate;
      a ← cmos_read CMOS_STATA;
      if negb (Z.land a CMOS_UIP =? 0) then date_loop fuel
      else
        t2 ← fill_rtcdate;
        if bool_decide (t1 = t2) then mret t1 else date_loop fuel
  end.

(** CONV *)
Definition conv (x : Z) : Z := u32 (Z.shiftr x 4 * 10 + Z.land x 0xf).

Definition cmostime (fuel : nat) : LpM rtcdate :=
  sb ← cmos_read CMOS_STATB;
  let bcd := Z.land sb (Z.shiftl 1 2) =? 0 in
  t1 ← date_loop fuel;
  let t1 := if bcd then mkDate (conv (second t1)) (conv (minute t1)) (conv (hour t1)) (conv (day t1)) (conv (month t1)) (conv (year t1)) else t1 in
  mret (mkDate (second t1) (minute t1) (hour t1) (day t1) (month t1) (u32 (year t1 + 2000))).
End lapic.

(** * Which processor this is *)

Section cpunum.
Context (apic_read : list access -> Z -> Z) (eflags : Z).

(** The first index of an id. *)
Fixpoint index_of (ids : list Z) (x : Z) : option nat :=
  match ids with
  | [] => None
  | y :: ids => if y =? x then Some 0%nat else S <$> index_of ids x
  end.

Lemma cpu_loop_index n ids x : forall i s,
  (i + n <= length ids)%nat ->
  cpu_loop n i ids x s = match index_of (take n (drop i ids)) x with Some k => Ok (Z.of_nat (i + k), s) | None => Panic "unknown apicid\n" end.
Proof.
  induction n as [|n IH]; intros i s Hl; [done|]. cbn [cpu_loop]. destruct (lookup_lt_is_Some_2 ids i ltac:(lia)) as [y Hy].
  rewrite (drop_S ids y i Hy). cbn [take index_of]. rewrite (nth_lookup_Some ids i 0 y Hy). destruct (y =? x).
  - by rewrite Nat.add_0_r.
  - rewrite IH by lia. destruct (index_of (take n (drop (S i) ids)) x) as [k|]; [|done]. cbn. by rewrite Nat.add_succ_r.
Qed.

(** cpunum is the index of the processor's own APIC id among those mpinit found. *)
Lemma cpunum_index s :
  (ncpu (found s) <= length (apicids (found s)))%nat -> lapic (found s) <> 0 ->
  match index_of (take (ncpu (found s)) (apicids (found s))) (Z.shiftr (apic_read (apic s) ID) 24) with
  | Some k => exists t, cpunum apic_read eflags s = Ok (Z.of_nat k, t) /\ found t = found s
  | None => cpunum apic_read eflags s = Panic "unknown apicid\n"
  end.
Proof.
  intros Hl Ha. unfold cpunum. set (s1 := if negb (Z.land eflags FL_IF =? 0) then mkL (found s) (apic s) (cmos s) (low s) (S (complained s)) else s).
  assert (forall A (k : unit -> LpM A), (when (negb (Z.land eflags FL_IF =? 0)) (modify (fun s => mkL (found s) (apic s) (cmos s) (low s) (S (complained s)))) ≫= k) s = k tt s1) as Hw.
  { intros A k. unfold s1, when. by destruct (negb _). }
  rewrite Hw. assert (found s1 = found s /\ apic s1 = apic s) as [Hf Hap] by (unfold s1; by destruct (negb _)).
  erewrite bind_Ok by reflexivity. rewrite Hf. replace (lapic (found s) =? 0) with false by lia. erewrite bind_Ok by reflexivity. erewrite bind_Ok by reflexivity.
  cbn [found]. rewrite Hf, Hap, cpu_loop_index, drop_0 by (cbn; lia). destruct (index_of _ _) as [k|]; [|done].
  eexists. split; [reflexivity|done].
Qed.
End cpunum.

(** * Programming the local APIC *)

(** The value last written to a register. *)
Fixpoint written (r : Z) (h : list access) : option Z :=
  match h with
  | [] => None
  | Wr i v :: h => if i =? r then Some v else written r h
  | Rd _ :: h => written r h
  end.

Section program.
Context (apic_read : list access -> Z -> Z).

Lemma wp_lapicw i v s Q :
  (forall t, found t = found s -> apic t = Rd ID :: Wr i (u32 v) :: apic s -> Q tt t) -> wp (lapicw apic_read i v) s Q.
Proof.
  intros HQ. unfold lapicw, lapic_rd. apply wp_bind, wp_modify, wp_bind. eapply wp_run; [reflexivity|]. by apply wp_ret, HQ.
Qed.

Lemma wp_lapic_rd i s Q :
  (forall t, found t = found s -> apic t = Rd i :: apic s -> Q (apic_read (apic s) i) t) -> wp (lapic_rd apic_read i) s Q.
Proof. intros HQ. unfold lapic_rd. eapply wp_run; [reflexivity|]. by apply HQ. Qed.

(** The INIT is delivered after at most [k] reads. *)
Definition delivers (k : nat) : Prop := forall h, exists j, (j <= k)%nat /\ Z.land (apic_read (replicate j (Rd ICRLO) ++ h) ICRLO) DELIVS = 0.

Lemma wp_wait_delivery j : forall fuel s Q,
  (j < fuel)%nat -> Z.land (apic_read (replicate j (Rd ICRLO) ++ apic s) ICRLO) DELIVS = 0 ->
  (forall t, found t = found s -> (forall r, written r (apic t) = written r (apic s)) -> Q tt t) -> wp (wait_delivery apic_read fuel) s Q.
Proof.
  induction j as [|j IH]; intros [|fuel] s Q Hf Hz HQ; try lia; cbn [wait_delivery]; apply wp_bind, wp_lapic_rd; intros s1 F1 A1.
  - cbn [replicate app] in Hz. rewrite Hz. cbn [Z.eqb negb]. apply wp_ret, HQ; [done|]. intros r. by rewrite A1.
  - assert (forall r, written r (apic s1) = written r (apic s)) as Hw by (intros r; by rewrite A1).
    destruct (Z.land (apic_read (apic s) ICRLO) DELIVS =? 0); cbn [negb]; [by apply wp_ret, HQ|].
    apply IH; [lia| |].
    + rewrite A1. by rewrite replicate_S_end, <- app_assoc in Hz.
    + intros t Ft Wt. apply HQ; [congruence|]. intros r. by rewrite Wt.
Qed.

(** The timer runs in periodic mode with the vector trap knows as the timer,
    errors and spurious interrupts have their own vectors, the external lines are
    masked and no interrupt is held back by priority. *)
Definition programmed (f : mpst) (t : lst) : Prop :=
  found t = f /\
  written TIMER (apic t) = Some (Z.lor PERIODIC (T_IRQ0 + IRQ_TIMER)) /\ written TICR (apic t) = Some 10000000 /\
  written SVR (apic t) = Some (Z.lor ENABLE (T_IRQ0 + IRQ_SPURIOUS)) /\ written ERROR (apic t) = Some (T_IRQ0 + IRQ_ERROR) /\
  written LINT0 (apic t) = Some MASKED /\ written LINT1 (apic t) = Some MASKED /\ written TPR (apic t) = Some 0.

(** lapicinit returns once the INIT is delivered and leaves the APIC so. *)
Lemma lapicinit_programs fuel k s :
  lapic (found s) <> 0 -> delivers k -> (k < fuel)%nat -> wp (lapicinit apic_read fuel) s (fun _ => programmed (found s)).
Proof.
  intros Ha Hd Hf. unfold lapicinit. apply wp_bind, wp_gets. replace (lapic (found s) =? 0) with false by lia.
  apply wp_bind, wp_lapicw. intros s1 F1 A1. apply wp_bind, wp_lapicw. intros s2 F2 A2. apply wp_bind, wp_lapicw. intros s3 F3 A3.
  apply wp_bind, wp_lapicw. intros s4 F4 A4. apply wp_bind, wp_lapicw. intros s5 F5 A5. apply wp_bind, wp_lapicw. intros s6 F6 A6.
  apply wp_bind, wp_lapic_rd. intros s7 F7 A7. apply wp_bind.
  cut (forall s8, found s8 = found s7 -> (forall r, r <> PCINT -> written r (apic s8) = written r (apic s7)) ->
       wp (lapicw apic_read ERROR (T_IRQ0 + IRQ_ERROR);; lapicw apic_read ESR 0;; lapicw apic_read ESR 0;; lapicw apic_read EOI 0;;
           lapicw apic_read ICRHI 0;; lapicw apic_read ICRLO (Z.lor (Z.lor BCAST INIT) LEVEL);; wait_delivery apic_read fuel;; lapicw apic_read TPR 0) s8 (fun _ => programmed (found s))).
  { intros Hrest. apply wp_when; intros _; [apply wp_lapicw; intros s8 F8 A8|]; apply Hrest; try done.
    intros r Hr. rewrite A8. cbn [written]. by destruct (Z.eqb_spec PCINT r). }
  intros s8 F8 W8. apply wp_bind, wp_lapicw. intros s9 F9 A9. apply wp_bind, wp_lapicw. intros s10 F10 A10. apply wp_bind, wp_lapicw. intros s11 F11 A11.
  apply wp_bind, wp_lapicw. intros s12 F12 A12. apply wp_bind, wp_lapicw. intros s13 F13 A13. apply wp_bind, wp_lapicw. intros s14 F14 A14.
  destruct (Hd (apic s14)) as (j & Hj & Hz). apply wp_bind, (wp_wait_delivery j); [lia|done|]. intros s15 F15 W15. apply wp_lapicw. intros t Ft At.
  split; [congruence|]. rewrite At. cbn [written]. rewrite !W15, A14, A13, A12, A11, A10, A9. cbn [written]. rewrite !W8 by done.
  rewrite A7, A6, A5, A4, A3, A2, A1. done.
Qed.
End program.

(** * The clock *)

(** A number as the clock shows it. *)
Definition show (bcd : bool) (x : Z) : Z := if bcd then 16 * (x / 10) + x mod 10 else x.

Definition shown (bcd : bool) (d : rtcdate) : rtcdate :=
  mkDate (show bcd (second d)) (show bcd (minute d)) (show bcd (hour d)) (show bcd (day d)) (show bcd (month d)) (show bcd (year d)).

Definition date_ok (d : rtcdate) : Prop := Forall (fun x => 0 <= x < 100) [second d; minute d; hour d; day d; month d; year d].

(** From the [n]-th access on the clock shows [d] and no update is under way. *)
Definition standing (port_read : list access -> Z -> Z) (bcd : bool) (d : rtcdate) (n : nat) : Prop :=
  forall h, (n <= length h)%nat ->
    let v reg := port_read (Wr CMOS_PORT reg :: h) CMOS_RETURN in
    mkDate (v SECS) (v MINS) (v HOURS) (v DAY) (v MONTH) (v YEAR) = shown bcd d /\
    Z.land (v CMOS_STATA) CMOS_UIP = 0 /\ (Z.land (v CMOS_STATB) (Z.shiftl 1 2) =? 0) = bcd.

Section clock.
Context (port_read : list access -> Z -> Z) (bcd : bool) (d : rtcdate) (n : nat).
Hypothesis Hclock : standing port_read bcd d n.

#[local] Set Default Proof Using "Type*".

Definition answer (reg : Z) (h : list access) : Z := port_read (Wr CMOS_PORT reg :: h) CMOS_RETURN.

Lemma wp_cmos_read reg s Q :
  (forall t, length (cmos t) = S (S (length (cmos s))) -> Q (answer (u8 reg) (cmos s)) t) -> wp (cmos_read port_read reg) s Q.
Proof using Type.
  intros HQ. unfold cmos_read, coutb, microdelay, cinb. apply wp_bind, wp_modify, wp_bind, wp_ret. eapply wp_run; [reflexivity|]. by apply HQ.
Qed.

Lemma answer_date h : (n <= length h)%nat ->
  answer SECS h = show bcd (second d) /\ answer MINS h = show bcd (minute d) /\ answer HOURS h = show bcd (hour d) /\
  answer DAY h = show bcd (day d) /\ answer MONTH h = show bcd (month d) /\ answer YEAR h = show bcd (year d).
Proof. intros Hh. destruct (Hclock h Hh) as [H _]. by injection H. Qed.

Lemma wp_fill s Q :
  (forall x t, (length (cmos s) <= length (cmos t))%nat -> ((n <= length (cmos s))%nat -> x = shown bcd d) -> Q x t) -> wp (fill_rtcdate port_read) s Q.
Proof.
  intros HQ. unfold fill_rtcdate. apply wp_bind, wp_cmos_read. intros s1 H1. apply wp_bind, wp_cmos_read. intros s2 H2.
  apply wp_bind, wp_cmos_read. intros s3 H3. apply wp_bind, wp_cmos_read. intros s4 H4. apply wp_bind, wp_cmos_read. intros s5 H5.
  apply wp_bind, wp_cmos_read. intros s6 H6. apply wp_ret, HQ; [lia|]. intros Hn. unfold shown.
  change (u8 SECS) with SECS. change (u8 MINS) with MINS. change (u8 HOURS) with HOURS. change (u8 DAY) with DAY. change (u8 MONTH) with MONTH. change (u8 YEAR) with YEAR.
  f_equal; apply answer_date; lia.
Qed.

(** Once the clock stands, the next round ends the loop. *)
Lemma wp_date_last fuel s Q :
  (n <= length (cmos s))%nat -> (forall t, Q (shown bcd d) t) -> wp (date_loop port_read (S fuel)) s Q.
Proof.
  intros Hn HQ. cbn [date_loop]. apply wp_bind, wp_fill. intros x s1 H1 ->; [|done]. apply wp_bind, wp_cmos_read. intros s2 H2.
  change (u8 CMOS_STATA) with CMOS_STATA. rewrite (proj1 (proj2 (Hclock (cmos s1) ltac:(lia))) : Z.land (answer CMOS_STATA (cmos s1)) CMOS_UIP = 0). cbn [Z.eqb negb].
  apply wp_bind, wp_fill. intros y s3 H3 ->; [|lia]. rewrite bool_decide_eq_true_2 by done. by apply wp_ret.
Qed.

Lemma wp_date fuel : forall s Q,
  (n < length (cmos s) + fuel)%nat -> (0 < fuel)%nat -> (forall x t, ((n <= length (cmos s))%nat -> x = shown bcd d) -> Q x t) -> wp (date_loop port_read fuel) s Q.
Proof.
  induction fuel as [|fuel IH]; intros s Q Hf Hpos HQ.
  - lia.
  - destruct (decide (n <= length (cmos s))%nat) as [Hle|Hgt]; [apply wp_date_last; [done|]; intros t; by apply HQ|].
    cbn [date_loop]. apply wp_bind, wp_fill. intros x s1 H1 _. apply wp_bind, wp_cmos_read. intros s2 H2.
    destruct (negb _); [apply IH; [lia|lia|]; intros y t _; apply HQ; lia|]. apply wp_bind, wp_fill. intros y s3 H3 _.
    case_bool_decide; [apply wp_ret, HQ; lia|]. apply IH; [lia|lia|]. intros z t _. apply HQ. lia.
Qed.
End clock.

(** Two digits in BCD. *)
Lemma conv_show x : 0 <= x < 100 -> conv (show true x) = x.
Proof.
  intros Hx. unfold conv, show. pose proof (Z.div_mod x 10 ltac:(lia)). pose proof (Z.mod_pos_bound x 10 ltac:(lia)).
  rewrite Z.shiftr_div_pow2 by lia. change (2 ^ 4) with 16. change 0xf with (Z.ones 4). rewrite Z.land_ones by lia. change (2 ^ 4) with 16.
  rewrite (Z.mul_comm 16), Z.div_add_l, (Z.div_small (x mod 10)), (Z.add_comm (_ * 16)), Z.mod_add, (Z.mod_small (x mod 10)) by lia.
  unfold u32. rewrite Z.mod_small; lia.
Qed.

(** C39. cmostime reads the clock.  When the clock shows the date, in BCD or in
    binary as its status register says, from some access on, cmostime returns:
    the loop that waits for two equal readings ends.  When it shows the date
    from the start, the result is that date, in the years from 2000 on. *)
Theorem cmostime_reads port_read bcd d n fuel s :
  standing port_read bcd d n -> date_ok d -> (n < fuel)%nat ->
  exists r t, cmostime port_read fuel s = Ok (r, t) /\
    ((n <= length (cmos s))%nat -> r = mkDate (second d) (minute d) (hour d) (day d) (month d) (year d + 2000)).
Proof.
  intros Hclock Hok Hf. cut (wp (cmostime port_read fuel) s (fun r _ => (n <= length (cmos s))%nat -> r = mkDate (second d) (minute d) (hour d) (day d) (month d) (year d + 2000))); [done|].
  unfold cmostime. apply wp_bind, (wp_cmos_read port_read). intros s1 H1. apply wp_bind, (wp_date port_read bcd d n Hclock); [lia|lia|].
  intros x t Hx. apply wp_ret. intros Hn. rewrite Hx by lia. change (u8 CMOS_STATB) with CMOS_STATB. unfold answer.
  rewrite (proj2 (proj2 (Hclock (cmos s) Hn))). repeat (apply Forall_cons in Hok as [? Hok]).
  destruct bcd; cbn [shown second minute hour day month year].
  - rewrite !conv_show by done. f_equal. unfold u32. rewrite Z.mod_small; lia.
  - cbn [show]. f_equal. unfold u32. rewrite Z.mod_small; lia.
Qed.

Module LapicDemo.
(** A clock in BCD that shows 23:59:58 on 2016-12-31 after ten accesses. *)
Definition date : rtcdate := mkDate 58 59 23 31 12 16.
Definition field (reg : Z) : Z :=
  if reg =? SECS then second date else if reg =? MINS then minute date else if reg =? HOURS then hour date
  else if reg =? DAY then day date else if reg =? MONTH then month date else if reg =? YEAR then year date else 0.
Definition port_read (h : list access) (port : Z) : Z :=
  match h with
  | Wr _ reg :: h => if (length h <? 10)%nat then 0xFF else show true (field reg)
  | _ => 0xFF
  end.
Definition start : lst := mkL mp0 [] [] (fun _ => 0) 0.
End LapicDemo.

Lemma cmostime_reads_witness : exists r t, cmostime LapicDemo.port_read 11 LapicDemo.start = Ok (r, t).
Proof.
  destruct (cmostime_reads LapicDemo.port_read true LapicDemo.date 10 11 LapicDemo.start) as (r & t & H & _).
  - intros h Hh. cbn [LapicDemo.port_read]. replace (length h <? 10)%nat with false by (symmetry; apply Nat.ltb_ge; exact Hh). repeat split; reflexivity.
  - repeat (constructor; [cbn; lia|]). constructor.
  - lia.
  - exists r, t. exact H.
Defined.
