(* ===== verification/Blocks.v ===== *)
(** The contract between the buffer cache and the layers above it.

    A client sees blocks of one device: their contents on disk, their contents
    in the cache (newer for the blocks log.c has pinned as dirty), the buffers
    it holds locked, and the writes made to the disk in order.  [BufLayer] is
    what the cache offers, [BufLaws] what each call does to that view. *)

From stdpp Require Import gmap.
From S2P Require Import Prelude.

Record bview := mkBview {
  vdisk : Z -> list Z;
  vcache : Z -> list Z;
  vheld : gmap nat (Z * list Z);   (* buffer: block number and data *)
  vdirty : gset Z;
  vtrace : list (Z * list Z) }.    (* latest first *)

Definition fupd (f : Z -> list Z) (b : Z) (x : list Z) : Z -> list Z :=
  fun b' => if bool_decide (b' = b) then x else f b'.

Definition v_hold (h : nat) (b : Z) (x : list Z) (v : bview) : bview :=
  mkBview (vdisk v) (vcache v) (<[h := (b, x)]> (vheld v)) (vdirty v) (vtrace v).

Definition v_pin (b : Z) (x : list Z) (v : bview) : bview :=
  mkBview (vdisk v) (fupd (vcache v) b x) (vheld v) ({[b]} ∪ vdirty v) (vtrace v).

Definition v_write (b : Z) (x : list Z) (v : bview) : bview :=
  mkBview (fupd (vdisk v) b x) (fupd (vcache v) b x) (vheld v) (vdirty v ∖ {[b]})
    ((b, x) :: vtrace v).

Definition v_drop (h : nat) (v : bview) : bview :=
  mkBview (vdisk v) (vcache v) (delete h (vheld v)) (vdirty v) (vtrace v).

(** A cache that has just been started over a disk. *)
Definition bview0 (d : Z -> list Z) : bview := mkBview d d ∅ ∅ [].

(** How many buffers the cache has, and blocks the disk. *)
Definition nbuf : nat := 30.
Definition fssize : Z := 1000.

(** The device of the root file system. *)
Definition ROOTDEV : Z := 1.
Definition BSIZE : Z := 512.

Class BufLayer (S : Type) := {
  bl_read : Z -> Z -> M S nat;        (* bread(dev, b) *)
  bl_blockno : nat -> M S Z;          (* b->blockno *)
  bl_data : nat -> M S (list Z);      (* b->data *)
  bl_set : nat -> list Z -> M S unit; (* assignments to b->data *)
  bl_pin : nat -> M S unit;           (* b->flags |= B_DIRTY *)
  bl_write : nat -> M S unit;         (* bwrite(b) *)
  bl_release : nat -> M S unit }.     (* brelse(b) *)

Class BufLaws (S : Type) `{BufLayer S} := {
  rep : S -> bview -> Prop;
  law_read s v b (Q : nat -> S -> Prop) :
    rep s v -> 0 <= b < fssize ->
    (forall h x, vheld v !! h <> Some (b, x)) ->
    (b ∈ vdirty v \/ (size (vheld v) + size (vdirty v) < nbuf)%nat) ->
    (forall h s', vheld v !! h = None -> rep s' (v_hold h b (vcache v b) v) -> Q h s') ->
    wp (bl_read ROOTDEV b) s Q;
  law_blockno s v h b x (Q : Z -> S -> Prop) :
    rep s v -> vheld v !! h = Some (b, x) -> Q b s -> wp (bl_blockno h) s Q;
  law_data s v h b x (Q : list Z -> S -> Prop) :
    rep s v -> vheld v !! h = Some (b, x) -> Q x s -> wp (bl_data h) s Q;
  law_set s v h b y x (Q : unit -> S -> Prop) :
    rep s v -> vheld v !! h = Some (b, y) ->
    (forall s', rep s' (v_hold h b x v) -> Q tt s') -> wp (bl_set h x) s Q;
  law_pin s v h b x (Q : unit -> S -> Prop) :
    rep s v -> vheld v !! h = Some (b, x) ->
    (forall s', rep s' (v_pin b x v) -> Q tt s') -> wp (bl_pin h) s Q;
  law_write s v h b x (Q : unit -> S -> Prop) :
    rep s v -> 0 <= b < fssize -> vheld v !! h = Some (b, x) ->
    (forall s', rep s' (v_write b x v) -> Q tt s') -> wp (bl_write h) s Q;
  law_release s v h b x (Q : unit -> S -> Prop) :
    rep s v -> vheld v !! h = Some (b, x) -> vcache v b = x ->
    (forall s', rep s' (v_drop h v) -> Q tt s') -> wp (bl_release h) s Q;
  (** Blocks that are not pinned are on disk as they are in the cache. *)
  law_clean s v b : rep s v -> b ∉ vdirty v -> vcache v b = vdisk v b }.

Lemma fupd_eq f b x : fupd f b x b = x.
Proof. unfold fupd. by rewrite bool_decide_true. Qed.

Lemma fupd_ne f b x b' : b' <> b -> fupd f b x b' = f b'.
Proof. intros. unfold fupd. by rewrite bool_decide_false. Qed.

(** Membership in small sets of blocks. *)
Ltac dset := rewrite ?elem_of_union, ?elem_of_difference, ?elem_of_singleton in *; intuition congruence.
