(* ===== verification/Bio.v ===== *)
(** bio.c: the buffer cache, over the disk of ide.c.

    A buffer is its index in bcache.buf; the doubly linked LRU list through
    bcache.head is the list of indices from head.next to head.prev.  What
    bcache.lock protects happens in one step; a buffer locked by another
    process [Blocks] the caller.  The second part shows that the cache keeps
    the contract of Blocks.v, which is all the layers above rely on. *)

From stdpp Require Import gmap.
From S2P Require Import Prelude Sleeplock Codec Blocks.

Definition NBUF : nat := 30.
Definition FSSIZE : Z := 1000.
Definition B_VALID : Z := 2.
Definition B_DIRTY : Z := 4.

Record buf := mkBuf {
  b_flags : Z;
  b_dev : Z;
  b_blockno : Z;
  b_lock : sleeplock;
  b_refcnt : Z;
  b_data : list Z }.

Definition set_flags (v : Z) (b : buf) : buf :=
  mkBuf v (b_dev b) (b_blockno b) (b_lock b) (b_refcnt b) (b_data b).

Definition set_lock (l : sleeplock) (b : buf) : buf :=
  mkBuf (b_flags b) (b_dev b) (b_blockno b) l (b_refcnt b) (b_data b).

Definition set_refcnt (r : Z) (b : buf) : buf :=
  mkBuf (b_flags b) (b_dev b) (b_blockno b) (b_lock b) r (b_data b).

Definition set_data (x : list Z) (b : buf) : buf :=
  mkBuf (b_flags b) (b_dev b) (b_blockno b) (b_lock b) (b_refcnt b) x.

(** The cache, the disks (blocks by device and number), the writes made to
    them (latest first), and the pid of the running process. *)
Record bcache := mkBcache {
  bufs : list buf;
  lru : list nat;
  disk : Z -> Z -> list Z;
  dwrites : list (Z * Z * list Z);
  mypid : Z }.

Definition with_bufs (l : list buf) (s : bcache) : bcache :=
  mkBcache l (lru s) (disk s) (dwrites s) (mypid s).

Definition with_lru (l : list nat) (s : bcache) : bcache :=
  mkBcache (bufs s) l (disk s) (dwrites s) (mypid s).

(** The disk takes block [b] of device [d]. *)
Definition disk_write (d b : Z) (x : list Z) (s : bcache) : bcache :=
  mkBcache (bufs s) (lru s)
    (fun d' b' => if bool_decide (d' = d /\ b' = b) then x else disk s d' b')
    ((d, b, x) :: dwrites s) (mypid s).

Section bio.
(** Whether the second disk answered at boot. *)
Context (havedisk1 : bool).

Abbreviation B := (M bcache).

Definition getb (i : nat) : B buf := deref "struct buf" (fun s => bufs s !! i).

Definition updb (i : nat) (f : buf -> buf) : B unit :=
  modify (fun s => with_bufs (alter f i (bufs s)) s).

(** The list as it grows: each buffer goes in front. *)
Definition binit : B unit :=
  modify (fun s =>
    with_lru (fold_left (fun l i => i :: l) (seq 0 NBUF) [])
      (with_bufs (set_lock (initsleeplock "buffer") <$> bufs s) s)).

(** iderw, from the request to its completion by ideintr: idestart rejects a
    block beyond the disk, a dirty buffer is written, any other is read. *)
Definition iderw (i : nat) : B unit :=
  b ← getb i;
  if holdingsleep (b_lock b) =? 0 then panic "iderw: buf not locked"
  else if Z.land (b_flags b) (Z.lor B_VALID B_DIRTY) =? B_VALID then panic "iderw: nothing to do"
  else if negb (b_dev b =? 0) && negb havedisk1 then panic "iderw: ide disk 1 not present"
  else if FSSIZE <=? b_blockno b then panic "incorrect blockno"
  else
    (if negb (Z.land (b_flags b) B_DIRTY =? 0) then
       modify (disk_write (b_dev b) (b_blockno b) (b_data b))
     else act (fun s => Ok (tt, with_bufs
            (alter (set_data (disk s (b_dev b) (b_blockno b))) i (bufs s)) s)));;
    updb i (fun b => set_flags (Z.lor (b_flags b) B_VALID) b);;
    updb i (fun b => set_flags (Z.land (b_flags b) (Z.lnot B_DIRTY)) b).

Definition lock_buf (i : nat) : B unit :=
  act (fun s =>
    match bufs s !! i with
    | None => Fault "struct buf"
    | Some b => obind (acquiresleep (mypid s) (b_lock b)) (fun l =>
        Ok (tt, with_bufs (<[i := set_lock l b]> (bufs s)) s))
    end).

(** Is this buffer the block, or one that can be recycled? *)
Definition is_block (s : bcache) (d n : Z) (i : nat) : bool :=
  match bufs s !! i with
  | Some b => (b_dev b =? d) && (b_blockno b =? n)
  | None => false
  end.

Definition is_clean (s : bcache) (i : nat) : bool :=
  match bufs s !! i with
  | Some b => (b_refcnt b =? 0) && (Z.land (b_flags b) B_DIRTY =? 0)
  | None => false
  end.

Definition bget (d n : Z) : B nat :=
  s ← get;
  match List.find (is_block s d n) (lru s) with
  | Some i =>
      updb i (fun b => set_refcnt (u32 (b_refcnt b + 1)) b);;
      lock_buf i;;
      mret i
  | None =>
      match List.find (is_clean s) (rev (lru s)) with
      | Some i =>
          updb i (fun b => mkBuf 0 d n (b_lock b) 1 (b_data b));;
          lock_buf i;;
          mret i
      | None => panic "bget: no buffers"
      end
  end.

Definition bread (d n : Z) : B nat :=
  i ← bget d n;
  b ← getb i;
  when (Z.land (b_flags b) B_VALID =? 0) (iderw i);;
  mret i.

Definition bwrite (i : nat) : B unit :=
  b ← getb i;
  if holdingsleep (b_lock b) =? 0 then panic "bwrite"
  else
    updb i (fun b => set_flags (Z.lor (b_flags b) B_DIRTY) b);;
    iderw i.

Definition brelse (i : nat) : B unit :=
  b ← getb i;
  if holdingsleep (b_lock b) =? 0 then panic "brelse"
  else
    updb i (fun b => set_lock (fst (releasesleep (b_lock b))) b);;
    updb i (fun b => set_refcnt (u32 (b_refcnt b - 1)) b);;
    b ← getb i;
    when (b_refcnt b =? 0)
      (modify (fun s => with_lru (i :: List.filter (fun j => negb (j =? i)%nat) (lru s)) s)).

End bio.

(** * The cache keeps the contract of Blocks.v

    The root file system is on device [ROOTDEV], the second disk. *)

#[global] Instance bcache_layer : BufLayer bcache := {
  bl_read := bread true;
  bl_blockno h := b ← getb h; mret (b_blockno b);
  bl_data h := b ← getb h; mret (b_data b);
  bl_set h x := getb h;; updb h (set_data x);
  bl_pin h := getb h;; updb h (fun b => set_flags (Z.lor (b_flags b) B_DIRTY) b);
  bl_write := bwrite true;
  bl_release := brelse }.

(** A buffer of the root device with block [b], and no other has it. *)
Definition sole (s : bcache) (i : nat) (b : Z) : Prop :=
  forall j c, bufs s !! j = Some c -> b_dev c = ROOTDEV -> b_blockno c = b -> j = i.

(** A buffer nobody holds: unlocked, and the cached contents if valid. *)
Definition idle (v : bview) (a : buf) : Prop :=
  sl_locked (b_lock a) = 0 /\ b_refcnt a = 0 /\
  (b_dev a = ROOTDEV -> b_flags a <> 0 -> b_data a = vcache v (b_blockno a)).

Definition taken (b : Z) (x : list Z) (a : buf) : Prop :=
  b_dev a = ROOTDEV /\ b_blockno a = b /\ b_data a = x /\ b_flags a <> 0 /\
  sl_locked (b_lock a) = 1 /\ b_refcnt a = 1.

Definition pinned (s : bcache) (b : Z) : Prop :=
  exists i a, bufs s !! i = Some a /\ b_dev a = ROOTDEV /\ b_blockno a = b /\ b_flags a = 6.

Record brep (s : bcache) (v : bview) : Prop := {
  r_len : length (bufs s) = NBUF;
  r_lru : Permutation (lru s) (seq 0 NBUF);
  r_flags i a : bufs s !! i = Some a -> b_flags a = 0 \/ b_flags a = 2 \/ b_flags a = 6;
  r_dev i a : bufs s !! i = Some a -> b_dev a = ROOTDEV \/ b_flags a = 0;
  r_sole i a : bufs s !! i = Some a -> b_dev a = ROOTDEV -> sole s i (b_blockno a);
  r_held i b x : vheld v !! i = Some (b, x) -> exists a, bufs s !! i = Some a /\ taken b x a;
  r_idle i a : bufs s !! i = Some a -> vheld v !! i = None -> idle v a;
  r_dirty b : b ∈ vdirty v <-> pinned s b;
  r_disk b : disk s ROOTDEV b = vdisk v b;
  r_clean b : b ∉ vdirty v -> vcache v b = vdisk v b;
  r_trace : dwrites s = (fun w => (ROOTDEV, fst w, snd w)) <$> vtrace v }.

Lemma alter_at {A} (f : A -> A) (l : list A) i a : l !! i = Some a -> alter f i l = <[i := f a]> l.
Proof.
  revert i. induction l as [|c l IH]; intros [|i] Hi; simplify_eq/=; [done|]. f_equal. by apply IH.
Qed.

(** One buffer changes, on block [b_blockno a'], and the view with it. *)
Lemma brep_upd s v s' v' i a a' :
  brep s v -> bufs s !! i = Some a -> bufs s' = <[i := a']> (bufs s) ->
  Permutation (lru s') (lru s) ->
  (b_flags a' = 0 \/ b_flags a' = 2 \/ b_flags a' = 6) -> b_dev a' = ROOTDEV ->
  (forall j c, j <> i -> bufs s !! j = Some c -> b_dev c = ROOTDEV -> b_blockno c <> b_blockno a') ->
  (forall j, j <> i -> vheld v' !! j = vheld v !! j) ->
  (match vheld v' !! i with Some (b, x) => taken b x a' | None => idle v' a' end) ->
  (forall b, b <> b_blockno a' -> vcache v' b = vcache v b) ->
  (forall b, b <> b_blockno a' -> b ∈ vdirty v' <-> b ∈ vdirty v) ->
  (b_blockno a' ∈ vdirty v' <-> b_flags a' = 6) ->
  (b_flags a = 6 -> b_blockno a = b_blockno a') ->
  (forall b, disk s' ROOTDEV b = vdisk v' b) ->
  (forall b, b ∉ vdirty v' -> vcache v' b = vdisk v' b) ->
  dwrites s' = (fun w => (ROOTDEV, fst w, snd w)) <$> vtrace v' ->
  brep s' v'.
Proof.
  intros HR Hi Hb Hlru Hfl Hdev Hsole Hh Hhi Hca Hdi Hdi' Hev Hdk Hcl Htr.
  assert (i < length (bufs s))%nat as Hlt by by eapply lookup_lt_Some.
  assert (forall j c, bufs s' !! j = Some c -> (j = i /\ c = a') \/ (j <> i /\ bufs s !! j = Some c)) as HL.
  { intros j c. rewrite Hb, list_lookup_insert_dec. case_decide as D.
    - destruct D as [-> _]. intros [= <-]. by left.
    - intros Hj. right. split; [|done]. intros ->. by destruct D. }
  assert (bufs s' !! i = Some a') as Hi'.
  { rewrite Hb. by apply list_lookup_insert_eq. }
  assert (forall j c, j <> i -> bufs s !! j = Some c -> bufs s' !! j = Some c) as HL'.
  { intros j c Hj Hc. rewrite Hb. by rewrite list_lookup_insert_ne by done. }
  constructor; try done.
  - rewrite Hb, length_insert. apply HR.
  - rewrite Hlru. apply HR.
  - intros j c Hj. apply HL in Hj as [[-> ->]|[? Hj]]; [done|by eapply HR].
  - intros j c Hj. apply HL in Hj as [[-> ->]|[? Hj]]; [by left|by eapply HR].
  - intros j c Hj Hd k e Hk Hke Hbe. apply HL in Hj as [[-> ->]|[Hji Hj]]; apply HL in Hk as [[-> ->]|[Hki Hk]].
    + done.
    + exfalso. by eapply (Hsole k e).
    + exfalso. by eapply (Hsole j c).
    + by eapply (r_sole s v HR j c Hj Hd k e).
  - intros j b x Hj. destruct (decide (j = i)) as [->|Hji].
    + rewrite Hj in Hhi. by exists a'.
    + rewrite Hh in Hj by done. destruct (r_held s v HR j b x Hj) as (c & Hc & Ht). exists c. auto.
  - intros j c Hj Hn. apply HL in Hj as [[-> ->]|[Hji Hj]]; [by rewrite Hn in Hhi|].
    rewrite Hh in Hn by done. destruct (r_idle s v HR j c Hj Hn) as (? & ? & Hx).
    split_and!; [done|done|]. intros Hd Hf. rewrite Hca by by eapply Hsole. auto.
  - intros b. destruct (decide (b = b_blockno a')) as [->|Hne].
    + rewrite Hdi'. split.
      * intros H6. by exists i, a'.
      * intros (j & c & Hj & Hd & Hbb & H6). apply HL in Hj as [[-> ->]|[Hji Hj]]; [done|].
        exfalso. by eapply (Hsole j c).
    + rewrite Hdi by done. rewrite (r_dirty s v HR). split; intros (j & c & Hj & Hd & Hbb & H6).
      * exists j, c. destruct (decide (j = i)) as [->|Hji]; [|by auto].
        exfalso. apply Hne. assert (c = a) as -> by congruence. rewrite <- Hbb. by apply Hev.
      * apply HL in Hj as [[-> ->]|[Hji Hj]]; [by subst|]. by exists j, c.
Qed.

Lemma brep_sole s v i a :
  brep s v -> bufs s !! i = Some a -> b_dev a = ROOTDEV ->
  forall j c, j <> i -> bufs s !! j = Some c -> b_dev c = ROOTDEV -> b_blockno c <> b_blockno a.
Proof. intros HR Hi Hd j c Hji Hj Hc Hb. apply Hji. by eapply (r_sole s v HR i a Hi Hd). Qed.

Lemma brep_flag s v i a :
  brep s v -> bufs s !! i = Some a -> b_dev a = ROOTDEV ->
  b_blockno a ∈ vdirty v <-> b_flags a = 6.
Proof.
  intros HR Hi Hd. rewrite (r_dirty s v HR). split.
  - intros (j & c & Hj & Hc & Hb & H6). assert (j = i) as ->.
    { by eapply (r_sole s v HR i a Hi Hd). }
    by assert (c = a) as -> by congruence.
  - intros H6. by exists i, a.
Qed.

Lemma disk_write_other d b x s b' :
  disk (disk_write d b x s) d b' = fupd (disk s d) b x b'.
Proof.
  unfold disk_write, fupd. simpl. destruct (decide (b' = b)) as [->|].
  - by rewrite !bool_decide_true.
  - rewrite !bool_decide_false; [done|done|]. by intros [_ ?].
Qed.

Lemma lru_front l i n :
  Permutation l (seq 0 n) -> (i < n)%nat ->
  Permutation (i :: List.filter (fun j => negb (j =? i)%nat) l) l.
Proof.
  intros Hl Hi. assert (List.NoDup l) as ND.
  { eapply Permutation_NoDup; [by symmetry|]. apply seq_NoDup. }
  assert (In i l) as Hin.
  { eapply Permutation_in; [by symmetry|]. apply in_seq. lia. }
  apply NoDup_Permutation; [|by apply NoDup_ListNoDup|].
  - apply NoDup_ListNoDup. constructor; [|by apply List.NoDup_filter].
    rewrite filter_In, Nat.eqb_refl. by intros [_ [=]].
  - intros j. rewrite elem_of_cons, !list_elem_of_In, filter_In, negb_true_iff, Nat.eqb_neq.
    split; [by intros [->|[? _]]|]. intros Hj. destruct (decide (j = i)); auto.
Qed.

Section laws.
Implicit Types (s : bcache) (v : bview) (a : buf).

Lemma wp_getb s i a (Q : buf -> bcache -> Prop) :
  bufs s !! i = Some a -> Q a s -> wp (getb i) s Q.
Proof. intros. by eapply wp_deref. Qed.

Lemma wp_updb s i a f (Q : unit -> bcache -> Prop) :
  bufs s !! i = Some a -> Q tt (with_bufs (<[i := f a]> (bufs s)) s) -> wp (updb i f) s Q.
Proof. intros Hi HQ. apply wp_modify. by rewrite (alter_at f _ _ a Hi). Qed.

(** Two updates of a buffer are one. *)
Lemma wp_updb_again s i a l f (Q : unit -> bcache -> Prop) :
  (i < length l)%nat -> Q tt (with_bufs (<[i := f a]> l) s) ->
  wp (updb i f) (with_bufs (<[i := a]> l) s) Q.
Proof.
  intros Hi HQ. eapply wp_updb; [by apply list_lookup_insert_eq|]. simpl.
  rewrite list_insert_insert_eq. by destruct s.
Qed.

Lemma wp_getb_again s i a l (Q : buf -> bcache -> Prop) :
  (i < length l)%nat -> Q a (with_bufs (<[i := a]> l) s) ->
  wp (getb i) (with_bufs (<[i := a]> l) s) Q.
Proof. intros Hi HQ. eapply wp_getb; [by apply list_lookup_insert_eq|done]. Qed.

(** The disk request of a locked buffer that is not valid reads the block. *)
Lemma wp_iderw_read s i a l (Q : unit -> bcache -> Prop) :
  (i < length l)%nat -> sl_locked (b_lock a) = 1 -> b_flags a = 0 -> b_blockno a < FSSIZE ->
  Q tt (with_bufs (<[i := set_flags 2 (set_data (disk s (b_dev a) (b_blockno a)) a)]> l) s) ->
  wp (iderw true i) (with_bufs (<[i := a]> l) s) Q.
Proof.
  intros Hi Hlk Hf Hb HQ. apply wp_bind, wp_getb_again; [done|].
  unfold holdingsleep. rewrite Hlk, Hf. cbn [Z.eqb]. change (Z.land 0 _ =? B_VALID) with false.
  rewrite andb_false_r. replace (FSSIZE <=? b_blockno a) with false by lia. cbn beta iota.
  change (Z.land 0 B_DIRTY =? 0) with true. cbn [negb].
  apply wp_bind. eapply wp_run; [reflexivity|].
  cbn [with_bufs bufs lru disk dwrites mypid].
  rewrite (alter_at _ _ _ a) by by apply list_lookup_insert_eq. rewrite list_insert_insert_eq.
  apply wp_bind, (wp_updb_again s); [done|].
  apply (wp_updb_again s); [done|]. destruct a; simpl in *. subst. exact HQ.
Qed.

(** That of a dirty buffer writes it. *)
Lemma wp_iderw_write s i a l (Q : unit -> bcache -> Prop) :
  (i < length l)%nat -> sl_locked (b_lock a) = 1 -> b_flags a = 6 -> b_blockno a < FSSIZE ->
  Q tt (with_bufs (<[i := set_flags 2 a]> l) (disk_write (b_dev a) (b_blockno a) (b_data a) s)) ->
  wp (iderw true i) (with_bufs (<[i := a]> l) s) Q.
Proof.
  intros Hi Hlk Hf Hb HQ. apply wp_bind, wp_getb_again; [done|].
  unfold holdingsleep. rewrite Hlk, Hf. cbn [Z.eqb]. change (Z.land 6 _ =? B_VALID) with false.
  rewrite andb_false_r. replace (FSSIZE <=? b_blockno a) with false by lia. cbn beta iota.
  change (Z.land 6 B_DIRTY =? 0) with false. cbn [negb].
  apply wp_bind, wp_modify.
  change (disk_write (b_dev a) (b_blockno a) (b_data a) (with_bufs (<[i:=a]> l) s))
    with (with_bufs (<[i:=a]> l) (disk_write (b_dev a) (b_blockno a) (b_data a) s)).
  apply wp_bind, wp_updb_again; [done|].
  apply wp_updb_again; [done|]. destruct a; simpl in *. subst. exact HQ.
Qed.

Lemma wp_lock_buf s i a l (Q : unit -> bcache -> Prop) :
  (i < length l)%nat -> sl_locked (b_lock a) = 0 ->
  Q tt (with_bufs (<[i := set_lock (mkSleeplock 1 (sl_name (b_lock a)) (mypid s)) a]> l) s) ->
  wp (lock_buf i) (with_bufs (<[i := a]> l) s) Q.
Proof.
  intros Hi Hlk HQ. unfold lock_buf, act. eapply wp_run; [|exact HQ]. simpl.
  rewrite list_lookup_insert_eq by done. unfold acquiresleep. rewrite Hlk. simpl.
  by rewrite list_insert_insert_eq.
Qed.

Lemma held_buf s v h b x :
  brep s v -> vheld v !! h = Some (b, x) ->
  exists a, bufs s !! h = Some a /\ (h < length (bufs s))%nat /\ taken b x a /\
    (b_flags a = 2 \/ b_flags a = 6) /\ (b ∈ vdirty v <-> b_flags a = 6).
Proof.
  intros HR Hh. destruct (r_held s v HR h b x Hh) as (a & Ha & Ht). exists a.
  pose proof Ht as (Hd & Hb & _ & Hf & _).
  split_and!; [done|by eapply lookup_lt_Some|done| |].
  - destruct (r_flags s v HR h a Ha) as [?|?]; [done|done].
  - rewrite <- Hb. by eapply brep_flag.
Qed.

Lemma bcache_set s v h b y x (Q : unit -> bcache -> Prop) :
  brep s v -> vheld v !! h = Some (b, y) ->
  (forall s', brep s' (v_hold h b x v) -> Q tt s') -> wp (bl_set h x) s Q.
Proof.
  intros HR Hh HQ. destruct (held_buf s v h b y HR Hh) as (a & Ha & _ & Ht & Hf & Hdf).
  destruct Ht as (Hd & Hb & Hx & Hf0 & Hlk & Hrc).
  apply wp_bind, (wp_getb s h a); [done|]. apply (wp_updb s h a); [done|]. apply HQ.
  eapply (brep_upd s v _ _ h a (set_data x a)); simpl; try done.
  - auto.
  - rewrite Hb in *. rewrite <- Hb. by eapply brep_sole.
  - intros j Hj. by rewrite lookup_insert_ne.
  - rewrite lookup_insert_eq. by split_and!.
  - by rewrite Hb.
  - apply HR.
  - apply HR.
  - apply HR.
Qed.

Lemma bcache_pin s v h b x (Q : unit -> bcache -> Prop) :
  brep s v -> vheld v !! h = Some (b, x) ->
  (forall s', brep s' (v_pin b x v) -> Q tt s') -> wp (bl_pin h) s Q.
Proof.
  intros HR Hh HQ. destruct (held_buf s v h b x HR Hh) as (a & Ha & _ & Ht & Hf & Hdf).
  destruct Ht as (Hd & Hb & Hx & Hf0 & Hlk & Hrc).
  apply wp_bind, (wp_getb s h a); [done|]. apply (wp_updb s h a); [done|]. apply HQ.
  assert (Z.lor (b_flags a) B_DIRTY = 6) as E6 by by destruct Hf as [-> | ->].
  eapply (brep_upd s v _ _ h a (set_flags (Z.lor (b_flags a) B_DIRTY) a)); simpl; rewrite ?Hb, ?E6; try done.
  - auto.
  - rewrite <- Hb. by eapply brep_sole.
  - rewrite Hh. by split_and!.
  - intros b' Hb'. by rewrite fupd_ne.
  - intros b' Hb'. dset.
  - dset.
  - apply HR.
  - intros b' Hb'. rewrite fupd_ne by dset. apply HR. dset.
  - apply HR.
Qed.

Lemma bcache_write s v h b x (Q : unit -> bcache -> Prop) :
  brep s v -> 0 <= b < fssize -> vheld v !! h = Some (b, x) ->
  (forall s', brep s' (v_write b x v) -> Q tt s') -> wp (bl_write h) s Q.
Proof.
  intros HR Hr Hh HQ. destruct (held_buf s v h b x HR Hh) as (a & Ha & Hlt & Ht & Hf & Hdf).
  destruct Ht as (Hd & Hb & Hx & Hf0 & Hlk & Hrc).
  assert (Z.lor (b_flags a) B_DIRTY = 6) as E6 by by destruct Hf as [-> | ->].
  apply wp_bind, (wp_getb s h a); [done|]. unfold holdingsleep. rewrite Hlk. cbn [Z.eqb].
  apply wp_bind, (wp_updb s h a); [done|]. rewrite E6.
  apply wp_iderw_write; [done|done|done|simpl; rewrite Hb; apply Hr|]. apply HQ. simpl. rewrite Hb, Hx, Hd.
  eapply (brep_upd s v _ _ h a (set_flags 2 (set_flags 6 a))); simpl; rewrite ?Hb; try done.
  - auto.
  - rewrite <- Hb. by eapply brep_sole.
  - rewrite Hh. by split_and!.
  - intros b' Hb'. by rewrite fupd_ne.
  - intros b' Hb'. dset.
  - split; [dset|lia].
  - intros b'. unfold fupd, disk_write. simpl. rewrite (r_disk s v HR).
    destruct (decide (b' = b)) as [->|]; [by rewrite !bool_decide_true|].
    rewrite !bool_decide_false; [done|done|]. by intros [_ ?].
  - intros b' Hb'. destruct (decide (b' = b)) as [->|]; [by rewrite !fupd_eq|].
    rewrite !fupd_ne by done. apply HR. dset.
  - by rewrite (r_trace s v HR).
Qed.

Lemma bcache_release s v h b x (Q : unit -> bcache -> Prop) :
  brep s v -> vheld v !! h = Some (b, x) -> vcache v b = x ->
  (forall s', brep s' (v_drop h v) -> Q tt s') -> wp (bl_release h) s Q.
Proof.
  intros HR Hh Hc HQ. destruct (held_buf s v h b x HR Hh) as (a & Ha & Hlt & Ht & Hf & Hdf).
  destruct Ht as (Hd & Hb & Hx & Hf0 & Hlk & Hrc).
  apply wp_bind, (wp_getb s h a); [done|]. unfold holdingsleep. rewrite Hlk. cbn [Z.eqb].
  apply wp_bind, (wp_updb s h a); [done|].
  apply wp_bind, wp_updb_again; [done|].
  apply wp_bind, wp_getb_again; [done|]. simpl. rewrite Hrc. change (u32 (1 - 1)) with 0. cbn [Z.eqb].
  apply wp_modify, HQ.
  eapply (brep_upd s v _ _ h a (set_refcnt 0 (set_lock (fst (releasesleep (b_lock a))) a)));
    simpl; rewrite ?Hb; try done.
  - eapply lru_front; [apply HR|]. by rewrite (r_len s v HR) in Hlt.
  - auto.
  - rewrite <- Hb. by eapply brep_sole.
  - intros j Hj. by rewrite lookup_delete_ne.
  - rewrite lookup_delete_eq. split_and!; [done|done|]. simpl. intros _ _. by rewrite Hb, Hc.
  - apply HR.
  - apply HR.
  - apply HR.
Qed.

(** If no buffer can be recycled, the held and the pinned ones are all of them. *)
Lemma bufs_full s v :
  brep s v -> (forall i, (i < NBUF)%nat -> is_clean s i = false) ->
  (NBUF <= size (vheld v) + size (vdirty v))%nat.
Proof.
  intros HR Hn.
  set (P i := exists a, bufs s !! i = Some a /\ b_flags a = 6).
  assert (forall i, Decision (P i)) as DP.
  { intros i. unfold P. destruct (bufs s !! i) as [a|] eqn:Ei.
    - destruct (decide (b_flags a = 6)); [left; by exists a|right; by intros (? & [= <-] & ?)].
    - right. by intros (? & [=] & ?). }
  set (bl i := match bufs s !! i with Some a => b_blockno a | None => 0 end).
  set (L := filter P (seq 0 NBUF)). set (L' := filter (fun i => ~ P i) (seq 0 NBUF)).
  assert (length L + length L' = NBUF)%nat as HLL.
  { rewrite <- (length_seq NBUF 0) at 1. rewrite <- (filter_app_complement P (seq 0 NBUF)) at 1.
    by rewrite length_app. }
  assert (length L <= size (vdirty v))%nat as H1.
  { rewrite <- (length_fmap bl L), <- (size_list_to_set (C := gset Z) (bl <$> L)).
    - apply subseteq_size. intros b. rewrite elem_of_list_to_set, list_elem_of_fmap.
      intros (i & -> & Hi). apply list_elem_of_filter in Hi as [(a & Ha & H6) Hi].
      destruct (r_dev s v HR i a Ha) as [Hd|?]; [|lia].
      unfold bl. rewrite Ha. by eapply brep_flag.
    - apply NoDup_fmap_2_strong; [|apply NoDup_filter, NoDup_ListNoDup, seq_NoDup].
      intros i j Hi Hj. apply list_elem_of_filter in Hi as [(a & Ha & H6) Hi].
      apply list_elem_of_filter in Hj as [(c & Hc & H6') Hj]. unfold bl. rewrite Ha, Hc. intros Hbb.
      destruct (r_dev s v HR i a Ha) as [Hd|?]; [|lia].
      destruct (r_dev s v HR j c Hc) as [Hd'|?]; [|lia].
      by eapply (r_sole s v HR j c Hc Hd' i a). }
  assert (length L' <= size (vheld v))%nat as H2.
  { rewrite <- (size_dom (D := gset nat)), <- (size_list_to_set (C := gset nat) L').
    - apply subseteq_size. intros i. rewrite elem_of_list_to_set. intros Hi.
      apply list_elem_of_filter in Hi as [HP Hi]. apply elem_of_seq in Hi.
      apply elem_of_dom. destruct (vheld v !! i) as [p|] eqn:Eh; [by eexists|]. exfalso.
      destruct (lookup_lt_is_Some_2 (bufs s) i) as [a Ha]; [rewrite (r_len s v HR); lia|].
      destruct (r_idle s v HR i a Ha Eh) as (_ & Hrc & _).
      specialize (Hn i ltac:(lia)). unfold is_clean in Hn. rewrite Ha, Hrc in Hn.
      destruct (r_flags s v HR i a Ha) as [Ef|[Ef|Ef]]; [by rewrite Ef in Hn|by rewrite Ef in Hn|].
      apply HP. by exists a.
    - apply NoDup_filter, NoDup_ListNoDup, seq_NoDup. }
  lia.
Qed.

(** A buffer that was idle is handed out with [b]'s cached contents. *)
Lemma brep_take s v i a a' b :
  brep s v -> bufs s !! i = Some a -> taken b (vcache v b) a' ->
  (b_flags a' = 2 \/ b_flags a' = 6) -> (b ∈ vdirty v <-> b_flags a' = 6) ->
  (forall j c, j <> i -> bufs s !! j = Some c -> b_dev c = ROOTDEV -> b_blockno c <> b) ->
  (b_flags a = 6 -> b_blockno a = b) ->
  brep (with_bufs (<[i := a']> (bufs s)) s) (v_hold i b (vcache v b) v).
Proof.
  intros HR Ha (Hd & Hb & Hx & Hf & Hlk & Hrc) Hfl Hdf Hs Hev.
  eapply (brep_upd s v _ _ i a a'); simpl; rewrite ?Hb; try done; try apply HR.
  - auto.
  - intros j Hj. by rewrite lookup_insert_ne.
  - rewrite lookup_insert_eq. by split_and!.
Qed.

(** The rest of bread: the locked buffer is read in unless it is valid. *)
Lemma wp_bread_rest s v i a a1 b (Q : nat -> bcache -> Prop) :
  brep s v -> bufs s !! i = Some a ->
  b_dev a1 = ROOTDEV -> b_blockno a1 = b -> b < FSSIZE ->
  sl_locked (b_lock a1) = 1 -> b_refcnt a1 = 1 ->
  (b_flags a1 = 0 /\ b ∉ vdirty v \/
   (b_flags a1 = 2 \/ b_flags a1 = 6) /\ b_data a1 = vcache v b /\ (b ∈ vdirty v <-> b_flags a1 = 6)) ->
  (forall j c, j <> i -> bufs s !! j = Some c -> b_dev c = ROOTDEV -> b_blockno c <> b) ->
  (b_flags a = 6 -> b_blockno a = b) ->
  (forall s', brep s' (v_hold i b (vcache v b) v) -> Q i s') ->
  wp (c ← getb i; when (Z.land (b_flags c) B_VALID =? 0) (iderw true i);; mret i)
    (with_bufs (<[i := a1]> (bufs s)) s) Q.
Proof.
  intros HR Ha Hd Hb Hlt Hlk Hrc Hcase Hs Hev HQ.
  assert (i < length (bufs s))%nat as Hi by by eapply lookup_lt_Some.
  apply wp_bind, wp_getb_again; [done|]. apply wp_bind, wp_when; intros Ef.
  - destruct Hcase as [[Hf Hn]|[[Hf|Hf] _]]; [|by rewrite Hf in Ef|by rewrite Hf in Ef].
    apply wp_iderw_read; [done|done|done|lia|]. apply wp_ret, HQ.
    eapply brep_take; try done.
    + split_and!; try done. simpl. rewrite Hd, Hb, (r_disk s v HR). symmetry. by apply HR.
    + by left.
  - destruct Hcase as [[Hf Hn]|(Hf & Hx & Hdf)]; [by rewrite Hf in Ef|].
    apply wp_ret, HQ. eapply brep_take; try done. split_and!; try done. lia.
Qed.

Lemma block_not_held s v i a b :
  brep s v -> bufs s !! i = Some a -> b_blockno a = b -> (forall h x, vheld v !! h <> Some (b, x)) -> vheld v !! i = None.
Proof.
  intros HR Ea Hb Hnh. destruct (vheld v !! i) as [[b' x]|] eqn:Eh; [|done].
  destruct (r_held s v HR i b' x Eh) as (a' & Ha' & _ & Hb' & _).
  assert (a' = a) as -> by congruence. destruct (Hnh i x). by rewrite Eh, <- Hb', Hb.
Qed.

Lemma clean_not_held s v i a : brep s v -> bufs s !! i = Some a -> b_refcnt a = 0 -> vheld v !! i = None.
Proof.
  intros HR Ea Hrc. destruct (vheld v !! i) as [[b' x]|] eqn:Eh; [|done].
  destruct (r_held s v HR i b' x Eh) as (a' & Ha' & _ & _ & _ & _ & _ & Hrc').
  assert (a' = a) as -> by congruence. lia.
Qed.

(** Every buffer is on the list, so a search that finds none speaks of all. *)
Lemma lru_all s v i : brep s v -> (i < NBUF)%nat -> In i (lru s).
Proof. intros HR Hi. eapply Permutation_in; [symmetry; apply HR|]. apply in_seq. lia. Qed.

Lemma find_absent s v b :
  brep s v -> List.find (is_block s ROOTDEV b) (lru s) = None ->
  forall i c, bufs s !! i = Some c -> b_dev c = ROOTDEV -> b_blockno c <> b.
Proof.
  intros HR Ef i c Hc Hd Hb. assert (is_block s ROOTDEV b i = true) as Hi.
  { unfold is_block. rewrite Hc, Hd, Hb. by rewrite !Z.eqb_refl. }
  rewrite (List.find_none _ _ Ef i) in Hi; [done|]. apply (lru_all s v); [done|].
  apply lookup_lt_Some in Hc. by rewrite (r_len s v HR) in Hc.
Qed.

Lemma bcache_read s v b (Q : nat -> bcache -> Prop) :
  brep s v -> 0 <= b < fssize ->
  (forall h x, vheld v !! h <> Some (b, x)) ->
  (b ∈ vdirty v \/ (size (vheld v) + size (vdirty v) < nbuf)%nat) ->
  (forall h s', vheld v !! h = None -> brep s' (v_hold h b (vcache v b) v) -> Q h s') ->
  wp (bl_read ROOTDEV b) s Q.
Proof.
  intros HR Hr Hnh Hroom HQ. change (wp (bread true ROOTDEV b) s Q).
  apply wp_bind. unfold bget. apply wp_bind, wp_get.
  destruct (List.find (is_block s ROOTDEV b) (lru s)) as [i|] eqn:Ef.
  - apply List.find_some in Ef as [_ Hblk]. unfold is_block in Hblk.
    destruct (bufs s !! i) as [a|] eqn:Ea; [|done]. apply andb_true_iff in Hblk as [Hd Hb].
    apply Z.eqb_eq in Hd, Hb.
    assert (i < length (bufs s))%nat as Hlt by by eapply lookup_lt_Some.
    pose proof (block_not_held s v i a b HR Ea Hb Hnh) as Hni.
    destruct (r_idle s v HR i a Ea Hni) as (Hlk & Hrc & Hx).
    apply wp_bind, (wp_updb s i a); [done|]. apply wp_bind, wp_lock_buf; [done|done|].
    rewrite Hrc. apply wp_ret. simpl.
    apply (wp_bread_rest s v i a _ b); try done; simpl.
    + apply Hr.
    + pose proof (brep_flag s v i a HR Ea Hd) as Hbf. rewrite Hb in Hbf.
      destruct (r_flags s v HR i a Ea) as [Hf|Hf]; [left; split; [done|by rewrite Hbf, Hf]|].
      right. split_and!; [done| |done]. rewrite <- Hb. apply Hx; [done|lia].
    + rewrite <- Hb. by eapply brep_sole.
    + intros s' Hs'. by apply HQ.
  - pose proof (find_absent s v b HR Ef) as Hno.
    assert (b ∉ vdirty v) as Hnd.
    { rewrite (r_dirty s v HR). intros (i & c & Hc & Hd & Hb & _). by eapply Hno. }
    destruct (List.find (is_clean s) (rev (lru s))) as [i|] eqn:Ec.
    + apply List.find_some in Ec as [_ Hcl]. unfold is_clean in Hcl.
      destruct (bufs s !! i) as [a|] eqn:Ea; [|done]. apply andb_true_iff in Hcl as [Hrc Hfl].
      apply Z.eqb_eq in Hrc, Hfl.
      assert (i < length (bufs s))%nat as Hlt by by eapply lookup_lt_Some.
      pose proof (clean_not_held s v i a HR Ea Hrc) as Hni.
      destruct (r_idle s v HR i a Ea Hni) as (Hlk & _ & _).
      apply wp_bind, (wp_updb s i a); [done|]. apply wp_bind, wp_lock_buf; [done|done|].
      apply wp_ret. simpl. apply (wp_bread_rest s v i a _ b); try done; simpl.
      * apply Hr.
      * by left.
      * intros j c _. by apply Hno.
      * intros H6. by rewrite H6 in Hfl.
      * intros s' Hs'. by apply HQ.
    + exfalso. destruct Hroom as [?|Hroom]; [done|].
      assert (NBUF <= size (vheld v) + size (vdirty v))%nat as Hfull; [|unfold nbuf, NBUF in *; lia].
      apply (bufs_full s v HR). intros i Hi. apply (List.find_none _ _ Ec).
      apply -> in_rev. by apply (lru_all s v).
Qed.

#[global] Instance bcache_laws : BufLaws bcache.
Proof.
  refine {| rep := brep |}.
  - apply bcache_read.
  - intros s v h b x Q HR Hh HQ. destruct (held_buf s v h b x HR Hh) as (a & Ha & _ & (_ & <- & _) & _).
    apply wp_bind, (wp_getb s h a); [done|]. by apply wp_ret.
  - intros s v h b x Q HR Hh HQ. destruct (held_buf s v h b x HR Hh) as (a & Ha & _ & (_ & _ & <- & _) & _).
    apply wp_bind, (wp_getb s h a); [done|]. by apply wp_ret.
  - apply bcache_set.
  - apply bcache_pin.
  - apply bcache_write.
  - apply bcache_release.
  - intros s v b HR. apply HR.
Defined.

End laws.

(** * Runs of the cache *)

Inductive bop := BRead (b : Z) | BSet (h : nat) (x : list Z) | BPin (h : nat) | BWrite (h : nat) | BRelease (h : nat).

(** A call of the cache; the handle is what bread returns. *)
Definition brun (op : bop) : M bcache nat :=
  match op with
  | BRead b => bread true ROOTDEV b
  | BSet h x => bl_set h x;; mret h
  | BPin h => bl_pin h;; mret h
  | BWrite h => bwrite true h;; mret h
  | BRelease h => brelse h;; mret h
  end.

(** What a client may call: it reads a block of the disk it does not hold
    while buffers are left, and uses the buffers it holds; a buffer it changed
    was pinned (log_write) or written before it is released. *)
Definition allowed (v : bview) (op : bop) : Prop :=
  match op with
  | BRead b => 0 <= b < FSSIZE /\ (forall h x, vheld v !! h <> Some (b, x)) /\
      (b ∈ vdirty v \/ (size (vheld v) + size (vdirty v) < NBUF)%nat)
  | BSet h _ | BPin h => is_Some (vheld v !! h)
  | BWrite h => exists b x, vheld v !! h = Some (b, x) /\ 0 <= b < FSSIZE
  | BRelease h => exists b x, vheld v !! h = Some (b, x) /\ vcache v b = x
  end.

(** And what the call means, given the handle it returned. *)
Definition vnext (v : bview) (op : bop) (r : nat) : bview :=
  match op with
  | BRead b => v_hold r b (vcache v b) v
  | BSet h x => match vheld v !! h with Some (b, _) => v_hold h b x v | None => v end
  | BPin h => match vheld v !! h with Some (b, x) => v_pin b x v | None => v end
  | BWrite h => match vheld v !! h with Some (b, x) => v_write b x v | None => v end
  | BRelease h => v_drop h v
  end.

(** The cache as the kernel's zeroed memory has it, before binit. *)
Definition bcache0 (d : Z -> Z -> list Z) (pid : Z) : bcache :=
  mkBcache (replicate NBUF (mkBuf 0 0 0 (mkSleeplock 0 "(null)" 0) 0 [])) [] d [] pid.

Inductive bio_run : bcache -> bview -> Prop :=
| bio_boot d pid s : binit (bcache0 d pid) = Ok (tt, s) -> bio_run s (bview0 (d ROOTDEV))
| bio_call s v op r s' : bio_run s v -> allowed v op -> brun op s = Ok (r, s') ->
    bio_run s' (vnext v op r).

Lemma bcache_call s v op :
  brep s v -> allowed v op ->
  wp (brun op) s (fun r s' => brep s' (vnext v op r) /\
    forall b, op = BRead b -> vheld v !! r = None).
Proof.
  intros HR Ha. destruct op as [b|h x|h|h|h]; simpl in *.
  - destruct Ha as (Hb & Hn & Hroom). apply (bcache_read s v b); auto.
  - destruct Ha as [[b y] Hh]. rewrite Hh. apply wp_bind, (bcache_set s v h b y); [done|done|].
    intros s' Hs'. apply wp_ret. by split.
  - destruct Ha as [[b y] Hh]. rewrite Hh. apply wp_bind, (bcache_pin s v h b y); [done|done|].
    intros s' Hs'. apply wp_ret. by split.
  - destruct Ha as (b & y & Hh & Hb). rewrite Hh. apply wp_bind, (bcache_write s v h b y); [done|done|done|].
    intros s' Hs'. apply wp_ret. by split.
  - destruct Ha as (b & y & Hh & Hb). apply wp_bind, (bcache_release s v h b y); [done|done|done|].
    intros s' Hs'. apply wp_ret. by split.
Qed.

(** The cache after binit. *)
Definition booted (d : Z -> Z -> list Z) (pid : Z) : bcache :=
  mkBcache (replicate NBUF (mkBuf 0 0 0 (initsleeplock "buffer") 0 [])) (rev (seq 0 NBUF)) d [] pid.

Lemma binit_booted d pid : binit (bcache0 d pid) = Ok (tt, booted d pid).
Proof. reflexivity. Qed.

Lemma booted_buf d pid i a :
  bufs (booted d pid) !! i = Some a -> a = mkBuf 0 0 0 (initsleeplock "buffer") 0 [].
Proof. intros Hi. by apply lookup_replicate_1 in Hi as [-> _]. Qed.

Lemma booted_rep d pid : brep (booted d pid) (bview0 (d ROOTDEV)).
Proof.
  constructor; try done.
  - symmetry. apply Permutation_rev.
  - intros i a ->%booted_buf. by left.
  - intros i a ->%booted_buf. by right.
  - by intros i a ->%booted_buf.
  - by intros i a ->%booted_buf.
  - intros b. split; [intros Hb; exfalso; by apply (not_elem_of_empty (C := gset Z) b)|].
    by intros (i & a & ->%booted_buf & Hd & _).
Qed.

Lemma bio_run_rep s v : bio_run s v -> brep s v.
Proof.
  induction 1 as [d pid s Hs|s v op r s' Hr IH Ha Hb]; [|].
  { rewrite binit_booted in Hs. injection Hs as <-. apply booted_rep. }
  destruct (bcache_call s v op IH Ha) as (r1 & s1 & H1 & H2 & _). rewrite Hb in H1.
  by injection H1 as <- <-.
Qed.

(** C21. The buffer cache is coherent and never fails an allowed call.  After any
    run of reads, changes, pins, writes and releases from binit: a block is in
    at most one buffer; a locked buffer has exactly the data its holder gave
    it; and every call a client may make returns, bread with a buffer nobody
    held that has the block's current contents, whether they were cached,
    pinned by the log, or had to be read from disk into a recycled buffer. *)
Theorem bcache_coherent s v : bio_run s v ->
  (forall i j a c, bufs s !! i = Some a -> bufs s !! j = Some c ->
     b_dev a = ROOTDEV -> b_dev c = ROOTDEV -> b_blockno a = b_blockno c -> i = j) /\
  (forall h b x, vheld v !! h = Some (b, x) -> exists a, bufs s !! h = Some a /\
     b_blockno a = b /\ b_data a = x /\ holdingsleep (b_lock a) = 1) /\
  (forall op, allowed v op -> exists r s', brun op s = Ok (r, s') /\
     forall b, op = BRead b -> vheld v !! r = None /\ exists a, bufs s' !! r = Some a /\
       b_blockno a = b /\ b_data a = vcache v b /\ holdingsleep (b_lock a) = 1).
Proof.
  intros Hr%bio_run_rep. split_and!.
  - intros i j a c Hi Hj Hd Hd' Hb. by eapply (r_sole s v Hr j c Hj Hd' i a).
  - intros h b x Hh. destruct (r_held s v Hr h b x Hh) as (a & Ha & (_ & Hb & Hx & _ & Hl & _)).
    by exists a.
  - intros op Ha. destruct (bcache_call s v op Hr Ha) as (r & s' & H1 & H2 & H3).
    exists r, s'. split; [done|]. intros b ->. split; [by apply (H3 b)|].
    destruct (r_held _ _ H2 r b (vcache v b)) as (a & Ha' & (_ & Hb & Hx & _ & Hl & _)); [|by exists a].
    apply lookup_insert_eq.
Qed.

Lemma bcache_coherent_witness :
  exists r s', brun (BRead 7) (booted (fun _ b => [b]) 1) = Ok (r, s') /\
    exists a, bufs s' !! r = Some a /\ b_data a = [7].
Proof.
  destruct (bcache_coherent _ _ (bio_boot (fun _ b => [b]) 1 _ (binit_booted _ _))) as (_ & _ & H).
  destruct (H (BRead 7)) as (r & s' & Hr & Hb).
  - split; [done|]. split; [done|]. right. vm_compute. lia.
  - exists r, s'. split; [exact Hr|]. destruct (Hb 7 eq_refl) as (_ & a & Ha & _ & Hx & _). by exists a.
Defined.
