(* ===== verification/Ide.v ===== *)
(** ide.c: the queue of disk requests and the driver of the IDE controller.

    The controller is hardware: an instance of [IdePorts] answers the port
    instructions, and [IdeDisk] states what the driver relies on, the task
    file, the read and write commands, the data port and a status that
    becomes ready.  The theorems show that the queue serves the requests in
    order, each with the effect that Bio.v gives iderw. *)

From S2P Require Import Prelude Spinlock Sleeplock Codec Blocks Irq Bio.

Definition SECTOR_SIZE : Z := 512.
Definition IDE_BSY : Z := 0x80.
Definition IDE_DRDY : Z := 0x40.
Definition IDE_DF : Z := 0x20.
Definition IDE_ERR : Z := 0x01.
Definition IDE_CMD_READ : Z := 0x20.
Definition IDE_CMD_WRITE : Z := 0x30.
Definition IDE_CMD_RDMUL : Z := 0xc4.
Definition IDE_CMD_WRMUL : Z := 0xc5.

(** The instructions outb, inb, outsl and insl on a device. *)
Class IdePorts (D : Type) := {
  pt_outb : Z -> Z -> D -> D;
  pt_inb : Z -> D -> Z * D;
  pt_outsl : Z -> list Z -> D -> D;         (* the bytes of the words *)
  pt_insl : Z -> Z -> D -> list Z * D }.    (* so many words *)

(** [qnext] has the field of each buffer; [iwoken]: the channels of the
    wakeup calls, latest first. *)
Record ist (D : Type) := mkIst {
  ibufs : list buf;
  qnext : list (option nat);
  idequeue : option nat;
  idelock : spinlock;
  icpu : cpu;
  havedisk1 : bool;
  iwoken : list nat;
  iirq : irqs;
  idev : D }.
Arguments mkIst {D} _ _ _ _ _ _ _ _ _.
Arguments ibufs {D} _.
Arguments qnext {D} _.
Arguments idequeue {D} _.
Arguments idelock {D} _.
Arguments icpu {D} _.
Arguments havedisk1 {D} _.
Arguments iwoken {D} _.
Arguments iirq {D} _.
Arguments idev {D} _.

(** How iderw stops: it returns, or it has called sleep(b, &idelock). *)
Inductive ires := IDone | ISleep.

Section ide.
Context {D : Type} `{IdePorts D}.
(** What getcallerpcs records; how often idewait may look at the status. *)
Context (stk : list Z) (polls : nat).
Implicit Types (s : ist D).

Abbreviation W := (M (ist D)).

Definition with_ibufs (l : list buf) s : ist D :=
  mkIst l (qnext s) (idequeue s) (idelock s) (icpu s) (havedisk1 s) (iwoken s) (iirq s) (idev s).
Definition with_qnext (l : list (option nat)) s : ist D :=
  mkIst (ibufs s) l (idequeue s) (idelock s) (icpu s) (havedisk1 s) (iwoken s) (iirq s) (idev s).
Definition with_idequeue (q : option nat) s : ist D :=
  mkIst (ibufs s) (qnext s) q (idelock s) (icpu s) (havedisk1 s) (iwoken s) (iirq s) (idev s).
Definition with_idelock (l : spinlock) (c : cpu) s : ist D :=
  mkIst (ibufs s) (qnext s) (idequeue s) l c (havedisk1 s) (iwoken s) (iirq s) (idev s).
Definition with_havedisk1 (h : bool) s : ist D :=
  mkIst (ibufs s) (qnext s) (idequeue s) (idelock s) (icpu s) h (iwoken s) (iirq s) (idev s).
Definition with_iwoken (l : list nat) s : ist D :=
  mkIst (ibufs s) (qnext s) (idequeue s) (idelock s) (icpu s) (havedisk1 s) l (iirq s) (idev s).
Definition with_iirq (i : irqs) s : ist D :=
  mkIst (ibufs s) (qnext s) (idequeue s) (idelock s) (icpu s) (havedisk1 s) (iwoken s) i (idev s).
Definition with_idev (d : D) s : ist D :=
  mkIst (ibufs s) (qnext s) (idequeue s) (idelock s) (icpu s) (havedisk1 s) (iwoken s) (iirq s) d.

Definition ioutb (p v : Z) : W unit := modify (fun s => with_idev (pt_outb p (u8 v) (idev s)) s).
Definition iinb (p : Z) : W Z := act (fun s => let (v, d) := pt_inb p (idev s) in Ok (v, with_idev d s)).
Definition ioutsl (p : Z) (bs : list Z) : W unit := modify (fun s => with_idev (pt_outsl p bs (idev s)) s).
Definition iinsl (p n : Z) : W (list Z) := act (fun s => let (bs, d) := pt_insl p n (idev s) in Ok (bs, with_idev d s)).

Definition acquire_i : W unit := act (fun s =>
  obind (acquire stk (icpu s) (idelock s)) (fun '(c, l) => Ok (tt, with_idelock l c s))).
Definition release_i : W unit := act (fun s =>
  obind (release (icpu s) (idelock s)) (fun '(c, l) => Ok (tt, with_idelock l c s))).

Definition ibuf (i : nat) : W buf := deref "struct buf" (fun s => ibufs s !! i).
Definition upd_ibuf (i : nat) (f : buf -> buf) : W unit := modify (fun s => with_ibufs (alter f i (ibufs s)) s).
Definition on_irqs (m : M irqs unit) : W unit := act (fun s =>
  obind (m (iirq s)) (fun '(_, i) => Ok (tt, with_iirq i s))).

(** The loop of idewait; a disk that never becomes ready keeps the processor. *)
Fixpoint idewait_loop (fuel : nat) : W Z :=
  match fuel with
  | O => blocks "idewait"
  | S fuel =>
      r ← iinb 0x1f7;
      if negb (Z.land r (Z.lor IDE_BSY IDE_DRDY) =? IDE_DRDY) then idewait_loop fuel else mret r
  end.

Definition idewait (checkerr : bool) : W Z :=
  r ← idewait_loop polls;
  if checkerr && negb (Z.land r (Z.lor IDE_DF IDE_ERR) =? 0) then mret (-1) else mret 0.

(** for(i=0; i<1000; i++) if(inb(0x1f7) != 0) ... *)
Fixpoint probe (n : nat) : W unit :=
  match n with
  | O => mret tt
  | S n =>
      r ← iinb 0x1f7;
      if negb (r =? 0) then modify (with_havedisk1 true) else probe n
  end.

(** [ncpu] is what mpinit counted. *)
Definition ideinit (ncpu : Z) : W unit :=
  modify (fun s => with_idelock (initlock "ide" (idelock s)) (icpu s) s);;
  on_irqs (picenable IRQ_IDE);;
  on_irqs (ioapicenable IRQ_IDE (ncpu - 1));;
  idewait false;;
  ioutb 0x1f6 (Z.lor 0xe0 (Z.shiftl 1 4));;
  probe 1000;;
  ioutb 0x1f6 (Z.lor 0xe0 (Z.shiftl 0 4)).

Definition idestart (i : option nat) : W unit :=
  match i with
  | None => panic "idestart"
  | Some i =>
      b ← ibuf i;
      if FSSIZE <=? b_blockno b then panic "incorrect blockno"
      else
        let sector_per_block := BSIZE / SECTOR_SIZE in
        let sector := s32 (b_blockno b * sector_per_block) in
        let read_cmd := if sector_per_block =? 1 then IDE_CMD_READ else IDE_CMD_RDMUL in
        let write_cmd := if sector_per_block =? 1 then IDE_CMD_WRITE else IDE_CMD_WRMUL in
        if 7 <? sector_per_block then panic "idestart"
        else
          idewait false;;
          ioutb 0x3f6 0;;
          ioutb 0x1f2 sector_per_block;;
          ioutb 0x1f3 (Z.land sector 0xff);;
          ioutb 0x1f4 (Z.land (Z.shiftr sector 8) 0xff);;
          ioutb 0x1f5 (Z.land (Z.shiftr sector 16) 0xff);;
          ioutb 0x1f6 (Z.lor (Z.lor 0xe0 (Z.shiftl (Z.land (b_dev b) 1) 4)) (Z.land (Z.shiftr sector 24) 0x0f));;
          if negb (Z.land (b_flags b) B_DIRTY =? 0) then
            ioutb 0x1f7 write_cmd;;
            ioutsl 0x1f0 (b_data b)
          else ioutb 0x1f7 read_cmd
  end.

Definition ideintr : W unit :=
  acquire_i;;
  q ← gets idequeue;
  match q with
  | None => release_i
  | Some i =>
      n ← deref "struct buf" (fun s => qnext s !! i);
      modify (with_idequeue n);;
      b ← ibuf i;
      (if Z.land (b_flags b) B_DIRTY =? 0 then
         r ← idewait true;
         when (0 <=? r) (x ← iinsl 0x1f0 (BSIZE / 4); upd_ibuf i (set_data x))
       else mret tt);;
      upd_ibuf i (fun b => set_flags (Z.lor (b_flags b) B_VALID) b);;
      upd_ibuf i (fun b => set_flags (Z.land (b_flags b) (Z.lnot B_DIRTY)) b);;
      modify (fun s => with_iwoken (i :: iwoken s) s);;
      q ← gets idequeue;
      when (bool_decide (is_Some q)) (idestart q);;
      release_i
  end.

(** The loop at the end of iderw, with idelock held.  sleep gives the lock
    back; when the process runs again it has it. *)
Definition iderw_wait (i : nat) : W ires :=
  b ← ibuf i;
  if Z.land (b_flags b) (Z.lor B_VALID B_DIRTY) =? B_VALID then release_i;; mret IDone
  else release_i;; mret ISleep.

(** The loop over pp: &idequeue ([None]) or the qnext of a buffer. *)
Fixpoint append (fuel : nat) (pp : option nat) (i : nat) : W unit :=
  match fuel with
  | O => fault "idequeue"
  | S fuel =>
      n ← match pp with
          | None => gets idequeue
          | Some j => deref "struct buf" (fun s => qnext s !! j)
          end;
      match n with
      | Some j => append fuel (Some j) i
      | None =>
          match pp with
          | None => modify (with_idequeue (Some i))
          | Some j => modify (fun s => with_qnext (<[j := Some i]> (qnext s)) s)
          end
      end
  end.

Definition iderw (i : nat) : W ires :=
  b ← ibuf i;
  if holdingsleep (b_lock b) =? 0 then panic "iderw: buf not locked"
  else if Z.land (b_flags b) (Z.lor B_VALID B_DIRTY) =? B_VALID then panic "iderw: nothing to do"
  else
    h ← gets havedisk1;
    if negb (b_dev b =? 0) && negb h then panic "iderw: ide disk 1 not present"
    else
      acquire_i;;
      modify (fun s => with_qnext (<[i := None]> (qnext s)) s);;
      n ← gets (fun s => length (ibufs s));
      append (S n) None i;;
      q ← gets idequeue;
      when (bool_decide (q = Some i)) (idestart q);;
      iderw_wait i.

(** After the wakeup: sleep takes idelock again and the loop goes on. *)
Definition iderw_again (i : nat) : W ires := acquire_i;; iderw_wait i.

End ide.

(** * The controller *)

(** What the controller is doing: nothing, or waiting for the data of a block
    to be taken or given. *)
Inductive phase := Ready | Reads (drive lba : Z) | Writes (drive lba : Z).

(** The task file: drive and block number. *)
Definition drive_of (reg : Z -> Z) : Z := Z.land (Z.shiftr (reg 0x1f6) 4) 1.
Definition lba_of (reg : Z -> Z) : Z :=
  reg 0x1f3 + 256 * reg 0x1f4 + 65536 * reg 0x1f5 + 16777216 * Z.land (reg 0x1f6) 0xf.

Definition idle (r : Z) : Prop := Z.land r (Z.lor IDE_BSY IDE_DRDY) = IDE_DRDY.

Fixpoint polled `{IdePorts D} (n : nat) (d : D) : D :=
  match n with O => d | S n => polled n (snd (pt_inb 0x1f7 d)) end.

Class IdeDisk (D : Type) `{IdePorts D} := {
  dk_phase : D -> phase;
  dk_reg : D -> Z -> Z;
  dk_block : D -> Z -> Z -> list Z;
  dk_delay : nat;
  dk_len d x b : length (dk_block d x b) = Z.to_nat SECTOR_SIZE;
  dk_set p v d : dk_phase d = Ready -> p ∈ [0x3f6; 0x1f2; 0x1f3; 0x1f4; 0x1f5; 0x1f6] ->
    dk_phase (pt_outb p v d) = Ready /\ (forall q, dk_reg (pt_outb p v d) q = if q =? p then v else dk_reg d q) /\
    forall x b, dk_block (pt_outb p v d) x b = dk_block d x b;
  dk_read d : dk_phase d = Ready -> dk_reg d 0x1f2 = 1 ->
    dk_phase (pt_outb 0x1f7 IDE_CMD_READ d) = Reads (drive_of (dk_reg d)) (lba_of (dk_reg d)) /\
    forall x b, dk_block (pt_outb 0x1f7 IDE_CMD_READ d) x b = dk_block d x b;
  dk_write d : dk_phase d = Ready -> dk_reg d 0x1f2 = 1 ->
    dk_phase (pt_outb 0x1f7 IDE_CMD_WRITE d) = Writes (drive_of (dk_reg d)) (lba_of (dk_reg d)) /\
    forall x b, dk_block (pt_outb 0x1f7 IDE_CMD_WRITE d) x b = dk_block d x b;
  dk_give d x b l : dk_phase d = Writes x b -> length l = Z.to_nat SECTOR_SIZE ->
    dk_phase (pt_outsl 0x1f0 l d) = Ready /\
    forall x' b', dk_block (pt_outsl 0x1f0 l d) x' b' = if bool_decide (x' = x /\ b' = b) then l else dk_block d x' b';
  dk_take d x b : dk_phase d = Reads x b ->
    fst (pt_insl 0x1f0 (SECTOR_SIZE / 4) d) = dk_block d x b /\ dk_phase (snd (pt_insl 0x1f0 (SECTOR_SIZE / 4) d)) = Ready /\
    forall x' b', dk_block (snd (pt_insl 0x1f0 (SECTOR_SIZE / 4) d)) x' b' = dk_block d x' b';
  dk_poll d : dk_phase (snd (pt_inb 0x1f7 d)) = dk_phase d /\
    (forall q, dk_reg (snd (pt_inb 0x1f7 d)) q = dk_reg d q) /\
    forall x b, dk_block (snd (pt_inb 0x1f7 d)) x b = dk_block d x b;
  dk_ready d : exists n, (n <= dk_delay)%nat /\ idle (fst (pt_inb 0x1f7 (polled n d))) }.

(** * The driver on such a controller *)

(** A buffer that iderw may be called for. *)
Record wants (h : bool) (b : buf) : Prop := {
  w_lock : holdingsleep (b_lock b) <> 0;
  w_work : Z.land (b_flags b) (Z.lor B_VALID B_DIRTY) <> B_VALID;
  w_disk : b_dev b = 0 \/ b_dev b = 1 /\ h = true;
  w_block : 0 <= b_blockno b < FSSIZE;
  w_data : length (b_data b) = Z.to_nat BSIZE }.

Definition dirty (b : buf) : bool := negb (Z.land (b_flags b) B_DIRTY =? 0).

(** The buffer as the disk leaves it. *)
Definition finished (a : Z -> Z -> list Z) (b : buf) : buf :=
  set_flags (Z.land (Z.lor (b_flags b) B_VALID) (Z.lnot B_DIRTY))
    (if dirty b then b else set_data (a (b_dev b) (b_blockno b)) b).

Definition stored (a : Z -> Z -> list Z) (b : buf) (x n : Z) : list Z :=
  if dirty b && bool_decide (x = b_dev b /\ n = b_blockno b) then b_data b else a x n.

Lemma finished_valid a b : Z.land (b_flags (finished a b)) (Z.lor B_VALID B_DIRTY) = B_VALID.
Proof.
  cbn [finished set_flags b_flags]. rewrite <- Z.land_assoc. change (Z.land (Z.lnot B_DIRTY) (Z.lor B_VALID B_DIRTY)) with B_VALID.
  apply Z.bits_inj'. intros n _. rewrite Z.land_spec, Z.lor_spec. by destruct (Z.testbit B_VALID n), (Z.testbit (b_flags b) n).
Qed.

(** The list of the queue through idequeue and the qnext fields. *)
Fixpoint chain (nx : list (option nat)) (h : option nat) (q : list nat) : Prop :=
  match q with
  | [] => h = None
  | i :: q => h = Some i /\ exists n, nx !! i = Some n /\ chain nx n q
  end.

Lemma chain_insert nx h q j x : j ∉ q -> chain nx h q -> chain (<[j := x]> nx) h q.
Proof.
  revert h. induction q as [|i q IH]; intros h Hj; [done|]. apply not_elem_of_cons in Hj as [Hji Hj]. cbn [chain].
  intros (-> & n & Hn & Hc). split; [done|]. exists n. rewrite list_lookup_insert_ne by congruence. auto.
Qed.

(** Linking [i] behind the last buffer. *)
Lemma chain_snoc nx h q j i :
  NoDup (q ++ [j]) -> chain nx h (q ++ [j]) -> i ∉ q ++ [j] -> nx !! i = Some None -> chain (<[j := Some i]> nx) h (q ++ [j] ++ [i]).
Proof.
  revert h. induction q as [|k q IH]; intros h Hnd.
  - cbn [app chain]. intros (-> & n & Hn & ->) Hi Hix. split; [done|]. exists (Some i). rewrite list_elem_of_singleton in Hi.
    split; [apply list_lookup_insert_eq; by eapply lookup_lt_Some|]. split; [done|]. exists None.
    by rewrite list_lookup_insert_ne by congruence.
  - cbn [app chain] in *. apply NoDup_cons in Hnd as [Hk Hnd]. intros (-> & n & Hn & Hc) Hi Hix. apply not_elem_of_cons in Hi as [Hik Hi].
    split; [done|]. exists n. split; [|by apply IH]. rewrite list_lookup_insert_ne; [done|].
    intros ->. apply Hk, elem_of_app. right. by apply list_elem_of_singleton.
Qed.

Lemma lba_split n :
  0 <= n < FSSIZE ->
  u8 (Z.land n 0xff) + 256 * u8 (Z.land (Z.shiftr n 8) 0xff) + 65536 * u8 (Z.land (Z.shiftr n 16) 0xff) = n /\ Z.land (Z.shiftr n 24) 0x0f = 0.
Proof.
  intros Hn. unfold FSSIZE in Hn. rewrite !Z.shiftr_div_pow2 by lia.
  rewrite (Z.div_small n (2 ^ 16)), (Z.div_small n (2 ^ 24)) by lia. split; [|done].
  change 0xff with (Z.ones 8). rewrite !Z.land_ones by lia. change (0 mod 2 ^ 8) with 0. unfold u8. change (0 mod 2 ^ 8) with 0.
  rewrite !Z.mod_mod by lia. rewrite (Z.mod_small (n / 2 ^ 8)) by zdm. zdm.
Qed.

(** A port of the task file. *)
Ltac port := rewrite !elem_of_cons; tauto.

Section served.
Context {D : Type} `{IdeDisk D}.
Context (stk : list Z) (polls : nat) (Hpolls : (dk_delay < polls)%nat).
Implicit Types (s : ist D) (d : D).
#[local] Set Default Proof Using "Type*".

(** Looking at the status changes nothing. *)
Definition alike d d' : Prop :=
  dk_phase d' = dk_phase d /\ (forall q, dk_reg d' q = dk_reg d q) /\ forall x b, dk_block d' x b = dk_block d x b.

Lemma wp_idewait_loop fuel n s (Q : Z -> ist D -> Prop) :
  (n < fuel)%nat -> idle (fst (pt_inb 0x1f7 (polled n (idev s)))) ->
  (forall r d n, r = fst (pt_inb 0x1f7 (polled n (idev s))) -> idle r -> alike (idev s) d -> Q r (with_idev d s)) -> wp (idewait_loop fuel) s Q.
Proof.
  clear Hpolls. revert n s Q. induction fuel as [|fuel IH]; intros n s Q Hn Hid HQ; [lia|]. cbn [idewait_loop]. apply wp_bind.
  unfold iinb, act. destruct (pt_inb 0x1f7 (idev s)) as [r d] eqn:E. exists r, (with_idev d s). split; [by rewrite E|].
  pose proof (dk_poll (idev s)) as Hp. rewrite E in Hp. cbn [snd] in Hp.
  destruct (Z.eqb_spec (Z.land r (Z.lor IDE_BSY IDE_DRDY)) IDE_DRDY) as [Er|Er]; cbn [negb].
  - apply wp_ret. apply (HQ r d 0%nat); [by cbn [polled]; rewrite E|done|done].
  - destruct n as [|n]; [cbn [polled] in Hid; rewrite E in Hid; done|]. cbn [polled] in Hid. rewrite E in Hid. cbn [snd] in Hid.
    apply (IH n); [lia|done|]. intros r' d' m Hr' Hid' (A1 & A2 & A3). destruct Hp as (P1 & P2 & P3).
    apply (HQ r' d' (S m)); [cbn [polled]; by rewrite E|done|]. cbn [idev with_idev] in *.
    split; [congruence|]. split; [intros q; by rewrite A2|intros x b; by rewrite A3].
Qed.

Lemma wp_idewait c s (Q : Z -> ist D -> Prop) :
  (forall r d n, r = fst (pt_inb 0x1f7 (polled n (idev s))) -> idle r -> alike (idev s) d ->
     Q (if c && negb (Z.land r (Z.lor IDE_DF IDE_ERR) =? 0) then -1 else 0) (with_idev d s)) -> wp (idewait polls c) s Q.
Proof.
  intros HQ. unfold idewait. apply wp_bind. destruct (dk_ready (idev s)) as (n & Hn & Hid).
  apply (wp_idewait_loop polls n); [lia|done|]. intros r d m Hr Hir Ha. specialize (HQ r d m Hr Hir Ha).
  destruct (c && _); by apply wp_ret.
Qed.

Lemma wp_ioutb p v s (Q : unit -> ist D -> Prop) :
  dk_phase (idev s) = Ready -> p ∈ [0x3f6; 0x1f2; 0x1f3; 0x1f4; 0x1f5; 0x1f6] ->
  (forall d, dk_phase d = Ready -> (forall q, dk_reg d q = if q =? p then u8 v else dk_reg (idev s) q) ->
     (forall x b, dk_block d x b = dk_block (idev s) x b) -> Q tt (with_idev d s)) -> wp (ioutb p v) s Q.
Proof.
  intros Hph Hp HQ. apply wp_modify. destruct (dk_set p (u8 v) (idev s) Hph Hp) as (H1 & H2 & H3). by apply HQ.
Qed.

(** Starting a request: a dirty buffer is on the disk, any other block is
    about to come. *)
Lemma wp_idestart h i b s (Q : unit -> ist D -> Prop) :
  ibufs s !! i = Some b -> wants h b -> dk_phase (idev s) = Ready ->
  (forall d, dk_phase d = (if dirty b then Ready else Reads (b_dev b) (b_blockno b)) ->
     (forall x n, dk_block d x n = stored (dk_block (idev s)) b x n) -> Q tt (with_idev d s)) ->
  wp (idestart polls (Some i)) s Q.
Proof.
  intros Hi [_ _ Hdk Hbl Hdt] Hph HQ. unfold idestart. apply wp_bind. eapply wp_deref; [done|].
  rewrite (proj2 (Z.leb_gt _ _)) by lia. change (BSIZE / SECTOR_SIZE) with 1. cbn [Z.ltb Z.compare Pos.compare Pos.compare_cont Z.eqb Pos.eqb].
  rewrite Z.mul_1_r, (s32_small (b_blockno b)) by (unfold FSSIZE in *; lia).
  destruct (lba_split (b_blockno b) Hbl) as [Hl1 Hl2].
  apply wp_bind, wp_idewait. intros r d0 n _ _ (A1 & A2 & A3). rewrite Hph in A1.
  apply wp_bind, wp_ioutb; [done|port|]. intros d1 P1 R1 B1. cbn [idev with_idev] in R1, B1.
  apply wp_bind, wp_ioutb; [done|port|]. intros d2 P2 R2 B2. cbn [idev with_idev] in R2, B2.
  apply wp_bind, wp_ioutb; [done|port|]. intros d3 P3 R3 B3. cbn [idev with_idev] in R3, B3.
  apply wp_bind, wp_ioutb; [done|port|]. intros d4 P4 R4 B4. cbn [idev with_idev] in R4, B4.
  apply wp_bind, wp_ioutb; [done|port|]. intros d5 P5 R5 B5. cbn [idev with_idev] in R5, B5.
  apply wp_bind, wp_ioutb; [done|port|]. intros d6 P6 R6 B6. cbn [idev with_idev] in R6, B6.
  assert (dk_reg d6 0x1f2 = 1) as Hn by (rewrite R6, R5, R4, R3, R2; reflexivity).
  assert (drive_of (dk_reg d6) = b_dev b /\ lba_of (dk_reg d6) = b_blockno b) as [Hdr Hlb].
  { assert (dk_reg d6 0x1f3 = u8 (Z.land (b_blockno b) 0xff)) as E3 by (rewrite R6, R5, R4, R3; reflexivity).
    assert (dk_reg d6 0x1f4 = u8 (Z.land (Z.shiftr (b_blockno b) 8) 0xff)) as E4 by (rewrite R6, R5, R4; reflexivity).
    assert (dk_reg d6 0x1f5 = u8 (Z.land (Z.shiftr (b_blockno b) 16) 0xff)) as E5 by (rewrite R6, R5; reflexivity).
    unfold drive_of, lba_of. rewrite E3, E4, E5, Hl1, R6. cbn [Z.eqb Pos.eqb]. rewrite Hl2.
    destruct Hdk as [->|[-> _]]; (split; [reflexivity|]);
      match goal with |- _ + _ * ?z = _ => change z with 0 end; lia. }
  assert (forall x k, dk_block d6 x k = dk_block (idev s) x k) as B by (intros; by rewrite B6, B5, B4, B3, B2, B1, A3).
  fold (dirty b). unfold stored in HQ. destruct (dirty b) eqn:Hdirty.
  - apply wp_bind, wp_modify, wp_modify. cbn [idev with_idev]. change (u8 IDE_CMD_WRITE) with IDE_CMD_WRITE.
    destruct (dk_write d6 P6 Hn) as [W1 W2]. rewrite Hdr, Hlb in W1.
    destruct (dk_give _ _ _ (b_data b) W1 Hdt) as [G1 G2]. apply (HQ _ G1). intros x k. rewrite G2, W2, B. by destruct (bool_decide _).
  - apply wp_modify. cbn [idev with_idev]. change (u8 IDE_CMD_READ) with IDE_CMD_READ.
    destruct (dk_read d6 P6 Hn) as [W1 W2]. rewrite Hdr, Hlb in W1. apply HQ; [done|]. intros x k. cbn [andb]. by rewrite W2, B.
Qed.

(** The controller with the request of [b], the blocks on disk being [a]
    before it, or with no request. *)
Definition working (a : Z -> Z -> list Z) (b : option buf) d : Prop :=
  match b with
  | None => dk_phase d = Ready /\ forall x n, dk_block d x n = a x n
  | Some b => dk_phase d = (if dirty b then Ready else Reads (b_dev b) (b_blockno b)) /\
      forall x n, dk_block d x n = stored a b x n
  end.

(** [q]: the requests, the first one with the controller; [a]: the blocks on
    disk without them. *)
Record ide_inv (a : Z -> Z -> list Z) (q : list nat) s : Prop := {
  ii_chain : chain (qnext s) (idequeue s) q;
  ii_nodup : NoDup q;
  ii_len : length (qnext s) = length (ibufs s);
  ii_wants i : i ∈ q -> exists b, ibufs s !! i = Some b /\ wants (havedisk1 s) b;
  ii_lock : locked (idelock s) = 0 /\ cli_ok (icpu s);
  ii_dev : working a (head q ≫= fun i => ibufs s !! i) (idev s) }.

(** The status of a ready controller shows no error. *)
Definition healthy : Prop := forall d, idle (fst (pt_inb 0x1f7 d)) -> Z.land (fst (pt_inb 0x1f7 d)) (Z.lor IDE_DF IDE_ERR) = 0.

(** The data of the first request. *)
Lemma wp_take a h i b s (Q : unit -> ist D -> Prop) :
  healthy -> ibufs s !! i = Some b -> wants h b -> working a (Some b) (idev s) ->
  (forall d, working (stored a b) None d ->
     Q tt (with_ibufs (<[i := if dirty b then b else set_data (a (b_dev b) (b_blockno b)) b]> (ibufs s)) (with_idev d s))) ->
  wp (if Z.land (b_flags b) B_DIRTY =? 0 then
        r ← idewait polls true; when (0 <=? r) (x ← iinsl 0x1f0 (BSIZE / 4); upd_ibuf i (set_data x))
      else mret tt) s Q.
Proof.
  intros Hok Hi Hw [Hph Hbl] HQ. unfold dirty in *. destruct (Z.eqb_spec (Z.land (b_flags b) B_DIRTY) 0) as [E|E]; cbn [negb] in *.
  - apply wp_bind, wp_idewait. intros r d n Hr Hid (A1 & A2 & A3). rewrite Hr in Hid. pose proof (Hok _ Hid) as Hne. rewrite <- Hr in Hne.
    rewrite Hne. cbn [negb andb Z.eqb Z.leb Z.compare when]. apply wp_bind. rewrite Hph in A1.
    destruct (dk_take d _ _ A1) as (T1 & T2 & T3). unfold iinsl, act. cbn [idev with_idev]. change (BSIZE / 4) with (SECTOR_SIZE / 4).
    destruct (pt_insl 0x1f0 (SECTOR_SIZE / 4) d) as [l d'] eqn:El. cbn [fst snd] in *. exists l, (with_idev d' s). split; [cbn [idev with_idev]; by rewrite El|].
    apply wp_modify. cbn [ibufs with_idev]. rewrite (alter_at _ _ _ b) by done. rewrite T1, A3, Hbl. unfold stored. 
    replace (dirty b) with false by (unfold dirty; by rewrite E). cbn [andb]. apply HQ. split; [done|]. intros x k. by rewrite T3, A3, Hbl.
  - apply wp_ret. specialize (HQ (idev s)). rewrite list_insert_id in HQ by done. destruct s. apply HQ. done.
Qed.

(** idestart on the head of a queue, if there is one. *)
Lemma wp_start a q s (Q : unit -> ist D -> Prop) :
  working a None (idev s) -> idequeue s = head q -> (forall i, i ∈ q -> exists b, ibufs s !! i = Some b /\ wants (havedisk1 s) b) ->
  (forall d, working a (head q ≫= fun i => ibufs s !! i) d -> Q tt (with_idev d s)) ->
  wp (q ← gets idequeue; when (bool_decide (is_Some q)) (idestart polls q)) s Q.
Proof.
  intros [Hph Hbl] Hq Hw HQ. apply wp_bind, wp_gets. rewrite Hq. destruct q as [|j q]; cbn [head] in *.
  - apply wp_ret. specialize (HQ (idev s)). destruct s. by apply HQ.
  - rewrite bool_decide_true by by eexists. cbn [when]. destruct (Hw j) as (b & Hb & Hwb); [by left|].
    apply (wp_idestart (havedisk1 s) j b); [done|done|done|]. intros d D1 D2. apply HQ. cbn. rewrite Hb. split; [done|].
    intros x n. rewrite D2. unfold stored. by rewrite Hbl.
Qed.

Lemma chain_head nx h q : chain nx h q -> h = head q.
Proof. clear Hpolls. destruct q; [done|]. by intros [-> _]. Qed.

Lemma wp_ideintr a i q s (Q : unit -> ist D -> Prop) :
  healthy -> ide_inv a (i :: q) s ->
  (forall b t, ibufs s !! i = Some b -> wants (havedisk1 s) b -> ide_inv (stored a b) q t ->
     ibufs t = <[i := finished a b]> (ibufs s) -> iwoken t = i :: iwoken s -> havedisk1 t = havedisk1 s -> Q tt t) ->
  wp (ideintr stk polls) s Q.
Proof.
  intros Hok [(Hq & n & Hn & Hch) Hnd Hlen Hw [Hlk Hcli] Hdev] HQ. destruct (Hw i) as (b & Hb & Hwb); [by left|].
  cbn [head] in Hdev. change (Some i ≫= fun i => ibufs s !! i) with (ibufs s !! i) in Hdev. rewrite Hb in Hdev.
  apply NoDup_cons in Hnd as [Hi Hnd]. pose proof (lookup_lt_Some _ _ _ Hb) as Hlt.
  unfold ideintr. apply wp_bind. eapply wp_run; [unfold acquire_i, act; rewrite acquire_free by done; reflexivity|].
  apply wp_bind, wp_gets. cbn [idequeue with_idelock]. rewrite Hq. apply wp_bind. eapply wp_deref; [exact Hn|].
  apply wp_bind, wp_modify, wp_bind. eapply wp_deref; [exact Hb|]. apply wp_bind. eapply (wp_take a); [done|exact Hb|done|exact Hdev|].
  intros d Hd. apply wp_bind, wp_modify, wp_bind, wp_modify, wp_bind, wp_modify.
  cbn [ibufs with_ibufs with_idev with_idequeue with_idelock with_iwoken iwoken].
  rewrite (alter_at _ _ _ _ (list_lookup_insert_eq _ _ _ Hlt)), list_insert_insert_eq.
  rewrite (alter_at _ _ _ _ (list_lookup_insert_eq _ _ _ Hlt)), list_insert_insert_eq. cbn [b_flags set_flags].
  match goal with |- context [<[i := ?x]> (ibufs s)] => assert (x = finished a b) as -> by (unfold finished; by destruct (dirty b)) end.
  set (s1 := with_iwoken _ _). assert (forall j, j ∈ q -> exists c, ibufs s1 !! j = Some c /\ wants (havedisk1 s1) c) as Hw1.
  { intros j Hj. destruct (Hw j) as (c & Hc & Hwc); [by right|]. exists c. split; [|done]. cbn. rewrite list_lookup_insert_ne; [done|congruence]. }
  enough (wp ((q ← gets idequeue; when (bool_decide (is_Some q)) (idestart polls q));; release_i) s1 Q) as Hgo.
  { destruct Hgo as (x & t & Hrun & HQt). exists x, t. split; [|done]. rewrite <- Hrun. reflexivity. }
  apply wp_bind. apply (wp_start (stored a b) q); [exact Hd|exact (chain_head _ _ _ Hch)|done|]. intros d' Hd'.
  eapply wp_run; [unfold release_i, act, s1; cbn [icpu idelock with_idev with_iwoken with_ibufs with_idequeue with_idelock];
    rewrite release_held by done; reflexivity|].
  apply (HQ b); try done. split; try done.
  - cbn. by rewrite length_insert.
  - split; [done|]. by apply popped_ok.
Qed.

(** * New requests *)

(** Where the last buffer of the chain, or the variable itself, points to. *)
Definition linked (pp : option nat) (r : list nat) (i : nat) s : ist D :=
  match (match last r with Some j => Some j | None => pp end) with
  | Some j => with_qnext (<[j := Some i]> (qnext s)) s
  | None => with_idequeue (Some i) s
  end.

Lemma wp_append fuel pp i r s (Q : unit -> ist D -> Prop) :
  (length r < fuel)%nat ->
  match pp with
  | None => chain (qnext s) (idequeue s) r
  | Some j => exists n, qnext s !! j = Some n /\ chain (qnext s) n r
  end -> Q tt (linked pp r i s) -> wp (append fuel pp i) s Q.
Proof.
  clear Hpolls. revert pp r. induction fuel as [|fuel IH]; intros pp r Hf Hch HQ; [lia|]. cbn [append].
  assert (exists n, wp (match pp with None => gets idequeue | Some j => deref "struct buf" (fun s => qnext s !! j) end) s
    (fun m t => m = n /\ t = s) /\ chain (qnext s) n r) as (n & (m & t & Hrun & -> & ->) & Hc).
  { destruct pp as [j|]; [destruct Hch as (n & Hn & Hc); exists n|exists (idequeue s)]; (split; [|done]); [by eapply wp_deref|by apply wp_gets]. }
  apply wp_bind. eapply wp_run; [exact Hrun|]. destruct r as [|k r]; cbn [chain] in Hc.
  - rewrite Hc. unfold linked in HQ. cbn in HQ. destruct pp; apply wp_modify, HQ.
  - destruct Hc as (-> & m & Hm & Hc). apply (IH (Some k) r); [simpl in Hf; lia|by exists m|].
    unfold linked in *. rewrite last_cons in HQ. by destruct (last r).
Qed.

Lemma chain_linked q i s :
  chain (qnext s) (idequeue s) q -> NoDup q -> i ∉ q -> qnext s !! i = Some None ->
  chain (qnext (linked None q i s)) (idequeue (linked None q i s)) (q ++ [i]) /\
  length (qnext (linked None q i s)) = length (qnext s).
Proof.
  clear Hpolls. intros Hc Hnd Hi Hx. unfold linked. destruct q as [|j q] using rev_ind.
  - cbn. split; [|done]. split; [done|]. by exists None.
  - rewrite last_snoc, <- app_assoc. cbn [qnext idequeue with_qnext]. split; [by apply chain_snoc|by rewrite length_insert].
Qed.

Lemma linked_same q i s :
  let t := linked None q i s in
  ibufs t = ibufs s /\ idelock t = idelock s /\ icpu t = icpu s /\ havedisk1 t = havedisk1 s /\ iwoken t = iwoken s /\ idev t = idev s.
Proof. clear Hpolls. unfold linked. by destruct (match last q with Some j => Some j | None => None end). Qed.

Lemma wp_iderw a q i b s (Q : ires -> ist D -> Prop) :
  ide_inv a q s -> i ∉ q -> ibufs s !! i = Some b -> wants (havedisk1 s) b ->
  (forall t, ide_inv a (q ++ [i]) t -> ibufs t = ibufs s -> iwoken t = iwoken s -> havedisk1 t = havedisk1 s -> Q ISleep t) ->
  wp (iderw stk polls i) s Q.
Proof.
  intros [Hch Hnd Hlen Hw [Hlk Hcli] Hdev] Hi Hb Hwb HQ. pose proof Hwb as [W1 W2 W3 W4 W5]. pose proof (lookup_lt_Some _ _ _ Hb) as Hlt.
  unfold iderw. apply wp_bind. eapply wp_deref; [exact Hb|]. rewrite (proj2 (Z.eqb_neq _ 0)), (proj2 (Z.eqb_neq _ B_VALID)) by done.
  apply wp_bind, wp_gets. replace (negb (b_dev b =? 0) && negb (havedisk1 s)) with false by (destruct W3 as [->|[-> ->]]; done).
  apply wp_bind. eapply wp_run; [unfold acquire_i, act; rewrite acquire_free by done; reflexivity|].
  apply wp_bind, wp_modify, wp_bind, wp_gets, wp_bind. cbn [qnext with_idelock ibufs with_qnext]. set (s1 := with_qnext _ _).
  assert (chain (qnext s1) (idequeue s1) q) as Hc1 by by apply chain_insert.
  assert (length q <= length (ibufs s))%nat as Hql.
  { rewrite <- (length_seq (length (ibufs s)) 0). apply submseteq_length, NoDup_submseteq; [done|]. intros j Hj. apply elem_of_seq.
    destruct (Hw j Hj) as (c & Hc & _). apply lookup_lt_Some in Hc. lia. }
  apply (wp_append _ None i q); [lia|done|]. destruct (chain_linked q i s1 Hc1 Hnd Hi) as [Hc2 Hl2].
  { apply list_lookup_insert_eq. lia. }
  destruct (linked_same q i s1) as (L1 & L2 & L3 & L4 & L5 & L6). set (s2 := linked None q i s1) in *. clearbody s2.
  assert (length (qnext s2) = length (ibufs s2)) as Hlen2 by (rewrite Hl2, L1; cbn; by rewrite length_insert).
  assert (forall j, j ∈ q ++ [i] -> exists c, ibufs s2 !! j = Some c /\ wants (havedisk1 s2) c) as Hw2.
  { intros j Hj. rewrite L1, L4. apply elem_of_app in Hj as [Hj|Hj]; [by apply Hw|]. apply list_elem_of_singleton in Hj as ->. by exists b. }
  assert (NoDup (q ++ [i])) as Hnd2 by (apply NoDup_app; split_and!; [done| |apply NoDup_singleton]; intros j Hj Hj'; apply list_elem_of_singleton in Hj'; congruence).
  apply wp_bind, wp_gets, wp_bind.
  assert (forall d, working a (head (q ++ [i]) ≫= fun j => ibufs s2 !! j) d -> wp (iderw_wait i) (with_idev d s2) Q) as Hfin.
  { intros d Hd. unfold iderw_wait. apply wp_bind. eapply wp_deref; [cbn; rewrite L1; exact Hb|].
    rewrite (proj2 (Z.eqb_neq _ B_VALID)) by done. apply wp_bind.
    eapply wp_run; [unfold release_i, act; cbn [icpu idelock with_idev]; rewrite L2, L3; cbn [icpu idelock s1 with_qnext with_idelock];
      rewrite release_held by done; reflexivity|].
    apply wp_ret, HQ; try done. split; try done. split; [done|]. by apply popped_ok. }
  rewrite (chain_head _ _ _ Hc2). destruct q as [|j q]; cbn [app head].
  - rewrite bool_decide_true by done. cbn [when]. cbn in Hdev. change (idev s) with (idev s1) in Hdev. rewrite <- L6 in Hdev. destruct Hdev as [D1 D2].
    apply (wp_idestart (havedisk1 s) i b); [by rewrite L1|done|done|]. intros d E1 E2. apply Hfin. cbn. rewrite L1. 
    change (ibufs s1 !! i) with (ibufs s !! i). rewrite Hb. split; [done|]. intros x n. rewrite E2. unfold stored. by rewrite D2.
  - rewrite bool_decide_false by (intros [= ->]; apply Hi; by left). cbn [when]. apply wp_ret.
    specialize (Hfin (idev s2)). destruct s2. apply Hfin. cbn in *. by rewrite L1, L6.
Qed.

(** An interrupt with no request. *)
Lemma wp_spurious a s (Q : unit -> ist D -> Prop) :
  ide_inv a [] s -> (forall t, ide_inv a [] t -> ibufs t = ibufs s -> iwoken t = iwoken s -> havedisk1 t = havedisk1 s -> Q tt t) ->
  wp (ideintr stk polls) s Q.
Proof.
  intros [Hch Hnd Hlen Hw [Hlk Hcli] Hdev] HQ. cbn in Hch. unfold ideintr. apply wp_bind.
  eapply wp_run; [unfold acquire_i, act; rewrite acquire_free by done; reflexivity|]. apply wp_bind, wp_gets. cbn [idequeue with_idelock]. rewrite Hch.
  eapply wp_run; [unfold release_i, act; cbn [icpu idelock with_idelock]; rewrite release_held by done; reflexivity|].
  apply HQ; try done. split; try done. split; [done|]. by apply popped_ok.
Qed.

(** * Runs of the driver *)

(** What happens on idelock: a process calls iderw, or the disk interrupts. *)
Inductive ev := Req (i : nat) | Intr.

Fixpoint ide_run (evs : list ev) : M (ist D) unit :=
  match evs with
  | [] => mret tt
  | Req i :: evs => iderw stk polls i;; ide_run evs
  | Intr :: evs => ideintr stk polls;; ide_run evs
  end.

Fixpoint reqs (evs : list ev) : list nat :=
  match evs with
  | [] => []
  | Req i :: evs => i :: reqs evs
  | Intr :: evs => reqs evs
  end.

(** The requests left when each interrupt serves the first. *)
Fixpoint left_over (q : list nat) (evs : list ev) : list nat :=
  match evs with
  | [] => q
  | Req i :: evs => left_over (q ++ [i]) evs
  | Intr :: evs => left_over (tail q) evs
  end.

(** The calls of iderw of the buffer cache, one after the other. *)
Fixpoint serve_all (h : bool) (l : list nat) : M bcache unit :=
  match l with
  | [] => mret tt
  | i :: l => Bio.iderw h i;; serve_all h l
  end.

Lemma bio_iderw h i b a (s : bcache) :
  bufs s !! i = Some b -> wants h b -> (forall x n, disk s x n = a x n) ->
  exists t, Bio.iderw h i s = Ok (tt, t) /\ bufs t = <[i := finished a b]> (bufs s) /\ forall x n, disk t x n = stored a b x n.
Proof.
  clear Hpolls. intros Hi [W1 W2 W3 W4 W5] Ha. enough (wp (Bio.iderw h i) s (fun _ t =>
    bufs t = <[i := finished a b]> (bufs s) /\ forall x n, disk t x n = stored a b x n)) as ([] & t & Ht) by by exists t.
  pose proof (lookup_lt_Some _ _ _ Hi) as Hlt. apply wp_bind, (wp_getb s i b); [done|].
  rewrite (proj2 (Z.eqb_neq _ 0)), (proj2 (Z.eqb_neq _ B_VALID)) by done.
  replace (negb (b_dev b =? 0) && negb h) with false by (destruct W3 as [->|[-> ->]]; done).
  rewrite (proj2 (Z.leb_gt _ _)) by lia. unfold finished, stored, dirty.
  destruct (negb (Z.land (b_flags b) B_DIRTY =? 0)); apply wp_bind.
  - apply wp_modify, wp_bind, (wp_updb _ i b); [done|]. apply (wp_updb_again _ i); [done|]. split; [done|].
    intros x n. cbn. by rewrite Ha.
  - eapply wp_run; [reflexivity|]. cbn [bufs with_bufs]. rewrite (alter_at _ _ _ b) by done.
    apply wp_bind, (wp_updb_again s i); [done|]. apply (wp_updb_again s i); [done|]. split; [cbn; by rewrite Ha|]. intros x n. cbn. by rewrite Ha.
Qed.

Lemma ide_inv_ext a a' q s : (forall x n, a' x n = a x n) -> ide_inv a q s -> ide_inv a' q s.
Proof.
  clear Hpolls. intros E [I1 I2 I3 I4 I5 I6]. split; try done. destruct (_ ≫= _) as [b|]; destruct I6 as [J1 J2]; (split; [done|]);
    intros x n; rewrite J2; [unfold stored|]; by rewrite E.
Qed.

(** The driver runs like a queue that serves its first request at each
    interrupt. *)
Lemma ide_runs a q evs s bc :
  healthy -> ide_inv a q s -> NoDup (q ++ reqs evs) ->
  (forall i, i ∈ reqs evs -> exists b, ibufs s !! i = Some b /\ wants (havedisk1 s) b) ->
  bufs bc = ibufs s -> (forall x n, disk bc x n = a x n) ->
  exists served t bc', ide_run evs s = Ok (tt, t) /\ q ++ reqs evs = served ++ left_over q evs /\
    ide_inv (disk bc') (left_over q evs) t /\ serve_all (havedisk1 s) served bc = Ok (tt, bc') /\ bufs bc' = ibufs t /\
    iwoken t = rev served ++ iwoken s /\ (forall j, j ∉ q ++ reqs evs -> ibufs t !! j = ibufs s !! j) /\
    forall i, i ∈ served -> exists b, ibufs t !! i = Some b /\ Z.land (b_flags b) (Z.lor B_VALID B_DIRTY) = B_VALID.
Proof.
  intros Hok. revert a q s bc. induction evs as [|[i|] evs IH]; intros a q s bc Hinv Hnd Hreq Hbufs Hdisk.
  - exists [], s, bc. cbn. rewrite app_nil_r. split_and!; try done; [by eapply ide_inv_ext|]. intros i Hi. by apply not_elem_of_nil in Hi.
  - cbn [reqs] in *. destruct (Hreq i) as (b & Hb & Hw); [by left|]. assert (i ∉ q) as Hi.
    { intros Hi. apply NoDup_app in Hnd as (_ & Hd & _). apply (Hd i Hi). by left. }
    replace (q ++ i :: reqs evs) with ((q ++ [i]) ++ reqs evs) in * by (by rewrite <- app_assoc).
    destruct (wp_iderw a q i b s (fun _ t => ide_inv a (q ++ [i]) t /\ ibufs t = ibufs s /\ iwoken t = iwoken s /\ havedisk1 t = havedisk1 s)
      Hinv Hi Hb Hw) as (x & t & Hrun & Ht & T1 & T2 & T3); [done|].
    destruct (IH a (q ++ [i]) t bc) as (served & u & bc' & Hu & U); try done; [|congruence|].
    { intros j Hj. rewrite T1, T3. apply Hreq. by right. }
    exists served, u, bc'. rewrite T1, T2, T3 in U. split; [|done]. cbn [ide_run]. by rewrite (bind_Ok _ _ _ _ _ Hrun).
  - cbn [reqs left_over ide_run] in *. destruct q as [|i q].
    + destruct (wp_spurious a s (fun _ t => ide_inv a [] t /\ ibufs t = ibufs s /\ iwoken t = iwoken s /\ havedisk1 t = havedisk1 s)
        Hinv) as ([] & t & Hrun & Ht & T1 & T2 & T3); [done|].
      destruct (IH a [] t bc) as (served & u & bc' & Hu & U); try done; [|congruence|]; [by rewrite T1, T3|].
      exists served, u, bc'. rewrite T1, T2, T3 in U. split; [|done]. by rewrite (bind_Ok _ _ _ _ _ Hrun).
    + destruct (wp_ideintr a i q s (fun _ t => exists b, ibufs s !! i = Some b /\ wants (havedisk1 s) b /\ ide_inv (stored a b) q t /\
        ibufs t = <[i := finished a b]> (ibufs s) /\ iwoken t = i :: iwoken s /\ havedisk1 t = havedisk1 s) Hok Hinv)
        as ([] & t & Hrun & b & Hb & Hw & Ht & T1 & T2 & T3); [intros b t; by exists b|].
      destruct (bio_iderw (havedisk1 s) i b a bc) as (bc1 & B1 & B2 & B3); [by rewrite Hbufs|done|done|].
      cbn [app] in Hnd. apply NoDup_cons in Hnd as [Hni Hnd].
      destruct (IH (stored a b) q t bc1) as (served & u & bc' & Hu & U1 & U2 & U3 & U4 & U5 & U6 & U7); try done; [|by rewrite B2, Hbufs|].
      { intros j Hj. rewrite T1, T3. rewrite list_lookup_insert_ne; [by apply Hreq|]. intros ->. apply Hni, elem_of_app. by right. }
      exists (i :: served), u, bc'. rewrite (bind_Ok _ _ _ _ _ Hrun). split_and!; try done.
      * cbn [tail app]. by rewrite U1.
      * cbn [serve_all]. rewrite (bind_Ok _ _ _ _ _ B1). by rewrite <- T3.
      * rewrite U5, T2. cbn [rev]. by rewrite <- app_assoc.
      * intros j Hj. cbn [app] in Hj. apply not_elem_of_cons in Hj as [Hji Hj]. rewrite U6, T1 by done. by rewrite list_lookup_insert_ne.
      * intros j Hj. apply elem_of_cons in Hj as [->|Hj]; [|by apply U7]. exists (finished a b). split; [|apply finished_valid].
        rewrite U6, T1 by done. apply list_lookup_insert_eq. by eapply lookup_lt_Some.
Qed.

Lemma left_over_intr q k : left_over q (replicate k Intr) = drop k q.
Proof. clear Hpolls. revert q. induction k as [|k IH]; intros q; [done|]. cbn [replicate left_over]. rewrite IH. by destruct q, k. Qed.

Lemma left_over_app q evs evs' : left_over q (evs ++ evs') = left_over (left_over q evs) evs'.
Proof. clear Hpolls. revert q. induction evs as [|[i|] evs IH]; intros q; [done|apply IH..]. Qed.

Lemma reqs_app evs evs' : reqs (evs ++ evs') = reqs evs ++ reqs evs'.
Proof. clear Hpolls. induction evs as [|[i|] evs IH]; cbn; [done|by rewrite IH..]. Qed.

Lemma reqs_intr k : reqs (replicate k Intr) = [].
Proof. clear Hpolls. by induction k. Qed.

Lemma length_left_over q evs : (length (left_over q evs) <= length (q ++ reqs evs))%nat.
Proof.
  clear Hpolls. revert q. induction evs as [|[i|] evs IH]; intros q; cbn [left_over reqs]; [rewrite app_nil_r; done| |].
  - replace (q ++ i :: reqs evs) with ((q ++ [i]) ++ reqs evs) by (by rewrite <- app_assoc). apply IH.
  - etransitivity; [apply IH|]. rewrite !length_app. destruct q; simpl; lia.
Qed.

Lemma iderw_again_done a q s i b :
  ide_inv a q s -> ibufs s !! i = Some b -> Z.land (b_flags b) (Z.lor B_VALID B_DIRTY) = B_VALID ->
  exists t, iderw_again stk i s = Ok (IDone, t).
Proof.
  clear Hpolls. intros [_ _ _ _ [Hlk Hcli] _] Hb Hf. enough (wp (iderw_again stk i) s (fun r _ => r = IDone)) as (r & t & Hr & ->) by by exists t.
  apply wp_bind. eapply wp_run; [unfold acquire_i, act; rewrite acquire_free by done; reflexivity|].
  apply wp_bind. eapply wp_deref; [exact Hb|]. rewrite Hf, Z.eqb_refl. apply wp_bind.
  eapply wp_run; [unfold release_i, act; cbn [icpu idelock with_idelock]; rewrite release_held by done; reflexivity|]. by apply wp_ret.
Qed.


End served.

(** * A controller *)

Module IdeDemo.

(** Task file, phase, blocks, and whether the next status says busy. *)
Record ctl := mkCtl { c_reg : Z -> Z; c_phase : phase; c_disk : Z -> Z -> list Z; c_busy : bool; c_status : Z }.

Definition sector (l : list Z) : list Z := take 512 (l ++ replicate 512 0).

Definition outb (p v : Z) (d : ctl) : ctl :=
  if p =? 0x1f7 then
    mkCtl (c_reg d) ((if v =? IDE_CMD_READ then Reads else Writes) (drive_of (c_reg d)) (lba_of (c_reg d))) (c_disk d) true (c_status d)
  else mkCtl (fun q => if q =? p then v else c_reg d q) (c_phase d) (c_disk d) (c_busy d) (c_status d).

Definition inb (p : Z) (d : ctl) : Z * ctl :=
  (if c_busy d then IDE_BSY else c_status d, mkCtl (c_reg d) (c_phase d) (c_disk d) false (c_status d)).

Definition outsl (p : Z) (l : list Z) (d : ctl) : ctl :=
  match c_phase d with
  | Writes x b => mkCtl (c_reg d) Ready (fun x' b' => if bool_decide (x' = x /\ b' = b) then l else c_disk d x' b') true (c_status d)
  | _ => d
  end.

Definition insl (p n : Z) (d : ctl) : list Z * ctl :=
  match c_phase d with
  | Reads x b => (sector (c_disk d x b), mkCtl (c_reg d) Ready (c_disk d) (c_busy d) (c_status d))
  | _ => ([], d)
  end.

#[global] Instance ctl_ports : IdePorts ctl := { pt_outb := outb; pt_inb := inb; pt_outsl := outsl; pt_insl := insl }.

(** Block 3 of the second disk holds ones. *)
Definition disk0 (x b : Z) : list Z := if b =? 3 then replicate 512 1 else replicate 512 0.
Definition ctl0 (status : Z) : ctl := mkCtl (fun _ => 0) Ready disk0 false status.

(** A read of block 3 and a write of block 5. *)
Definition lk : sleeplock := mkSleeplock 1 "buffer" 1.
Definition b0 : buf := mkBuf 0 1 3 lk 1 (replicate 512 9).
Definition b1 : buf := mkBuf 6 1 5 lk 1 (replicate 512 7).
Definition irqs0 : irqs := mkIrqs [] irqmask0 0 (fun _ => 0) true 0 0.
Definition st0 (status : Z) : ist ctl :=
  mkIst [b0; b1] [None; None] None (mkSpinlock 0 "ide" None []) (mkCpu 0 0 0 true) true [] irqs0 (ctl0 status).

(** When the controller reports an error for a read, iderw returns all the
    same, with the buffer valid and its old bytes in it. *)
Lemma read_error_valid :
  match ide_run [] 3 [Req 0; Intr] (st0 (Z.lor IDE_DRDY IDE_ERR)) with
  | Ok (_, t) => (fun b => (b_flags b, b_data b)) <$> ibufs t !! 0%nat = Some (B_VALID, replicate 512 9)
  | _ => False
  end.
Proof. vm_compute. reflexivity. Qed.

(** A controller without errors, which is ready at the second look. *)
Record good := mkGood { g : ctl }.
Definition ok (d : ctl) : ctl := mkCtl (c_reg d) (c_phase d) (c_disk d) (c_busy d) IDE_DRDY.

#[global] Instance good_ports : IdePorts good := {
  pt_outb p v d := mkGood (ok (outb p v (g d)));
  pt_inb p d := let (v, c) := inb p (ok (g d)) in (v, mkGood c);
  pt_outsl p l d := mkGood (ok (outsl p l (g d)));
  pt_insl p n d := let (l, c) := insl p n (g d) in (l, mkGood (ok c)) }.

Lemma length_sector l : length (sector l) = 512%nat.
Proof. unfold sector. rewrite length_take, length_app, length_replicate. lia. Qed.

Lemma sector_full l : length l = 512%nat -> sector l = l.
Proof. intros Hl. unfold sector. by rewrite <- Hl, take_app_length. Qed.

#[global] Program Instance good_disk : IdeDisk good := {
  dk_phase d := c_phase (g d);
  dk_reg d := c_reg (g d);
  dk_block d x b := sector (c_disk (g d) x b);
  dk_delay := 1 }.
Next Obligation. intros. apply length_sector. Qed.
Next Obligation.
  intros p v d Hp Hin. cbn. unfold outb. rewrite (proj2 (Z.eqb_neq p 0x1f7)); [done|]. intros ->. rewrite !elem_of_cons in Hin. 
  destruct Hin as [|[|[|[|[|[|Hin]]]]]]; try discriminate. by apply not_elem_of_nil in Hin.
Qed.
Next Obligation. done. Qed.
Next Obligation. done. Qed.
Next Obligation.
  intros d x b l Hp Hl. cbn. unfold outsl. rewrite Hp. split; [done|]. intros x' b'. cbn. case_bool_decide; [by apply sector_full|done].
Qed.
Next Obligation. intros d x b Hp. cbn. unfold insl. by rewrite Hp. Qed.
Next Obligation. done. Qed.
Next Obligation.
  intros d. destruct (c_busy (g d)) eqn:E; [exists 1%nat|exists 0%nat]; (split; [lia|]); [done|]. unfold idle. cbn. by rewrite E.
Qed.

Definition st1 : ist good :=
  mkIst [b0; b1] [None; None] None (mkSpinlock 0 "ide" None []) (mkCpu 0 0 0 true) true [] irqs0 (mkGood (ctl0 IDE_DRDY)).

Lemma good_healthy : healthy (D := good).
Proof. intros d. cbn. by destruct (c_busy (g d)). Qed.

End IdeDemo.

