(* ===== verification/Memide.v ===== *)
(** memide.c: a disk in memory in the place of ide.c, and that it has the
    effect on buffers and blocks that the buffer cache relies on. *)

From S2P Require Import Prelude Sleeplock Codec Blocks Bio Ide.

(** The buffers, the bytes from memdisk on, and disksize. *)
Record mst := mkMst { mbufs : list buf; memdisk : list Z; disksize : Z }.

Definition mbuf (i : nat) : M mst buf := deref "struct buf" (fun s => mbufs s !! i).
Definition upd_mbuf (i : nat) (f : buf -> buf) : M mst unit :=
  modify (fun s => mkMst (alter f i (mbufs s)) (memdisk s) (disksize s)).

(** [img], [size]: the image that is linked in, and the value of the symbol
    for its size. *)
Definition ideinit (img : list Z) (size : Z) : M mst unit :=
  modify (fun s => mkMst (mbufs s) img (s32 (u32 size / BSIZE))).

Definition ideintr : M mst unit := mret tt.

Definition iderw (i : nat) : M mst unit :=
  b ← mbuf i;
  n ← gets disksize;
  if holdingsleep (b_lock b) =? 0 then panic "iderw: buf not locked"
  else if Z.land (b_flags b) (Z.lor B_VALID B_DIRTY) =? B_VALID then panic "iderw: nothing to do"
  else if negb (b_dev b =? 1) then panic "iderw: request not for disk 1"
  else if u32 n <=? b_blockno b then panic "iderw: block out of range"
  else
    let p := Z.to_nat (u32 (b_blockno b * BSIZE)) in
    (if negb (Z.land (b_flags b) B_DIRTY =? 0) then
       upd_mbuf i (fun b => set_flags (Z.land (b_flags b) (Z.lnot B_DIRTY)) b);;
       modify (fun s => mkMst (mbufs s) (splice p (b_data b) (memdisk s)) (disksize s))
     else
       m ← gets memdisk;
       upd_mbuf i (set_data (slice p (Z.to_nat BSIZE) m)));;
    upd_mbuf i (fun b => set_flags (Z.lor (b_flags b) B_VALID) b).

(** The blocks in memory. *)
Definition mblock (m : list Z) (n : Z) : list Z := slice (Z.to_nat (n * BSIZE)) (Z.to_nat BSIZE) m.

Lemma mblock_splice m n k x :
  0 <= n -> 0 <= k -> length x = Z.to_nat BSIZE -> (Z.to_nat (n * BSIZE) + length x <= length m)%nat ->
  mblock (splice (Z.to_nat (n * BSIZE)) x m) k = if bool_decide (k = n) then x else mblock m k.
Proof.
  intros Hn Hk Hx Hm. unfold mblock. case_bool_decide as E.
  - subst k. rewrite <- Hx. by apply slice_splice_eq.
  - apply slice_splice_ne; unfold BSIZE in *; lia.
Qed.

Lemma flags_commute f : Z.lor (Z.land f (Z.lnot B_DIRTY)) B_VALID = Z.land (Z.lor f B_VALID) (Z.lnot B_DIRTY).
Proof. rewrite Z.land_lor_distr_l. by change (Z.land B_VALID (Z.lnot B_DIRTY)) with B_VALID. Qed.

Lemma flags_clean f : Z.land f B_DIRTY = 0 -> Z.land (Z.lor f B_VALID) (Z.lnot B_DIRTY) = Z.lor f B_VALID.
Proof.
  intros Hf. rewrite <- flags_commute. f_equal. rewrite <- Z.ldiff_land. pose proof (Z.lor_ldiff_and f B_DIRTY) as E.
  by rewrite Hf, Z.lor_0_r in E.
Qed.

(** A request for disk 1 leaves the buffers and the blocks that the driver of
    the real disk leaves. *)
Lemma memide_refines i b s bc :
  mbufs s !! i = Some b -> wants true b -> b_dev b = 1 -> b_blockno b < disksize s < 2 ^ 31 ->
  Z.of_nat (length (memdisk s)) = disksize s * BSIZE -> bufs bc = mbufs s -> (forall n, 0 <= n -> disk bc 1 n = mblock (memdisk s) n) ->
  exists t bc', iderw i s = Ok (tt, t) /\ Bio.iderw true i bc = Ok (tt, bc') /\ bufs bc' = mbufs t /\
    forall n, 0 <= n -> disk bc' 1 n = mblock (memdisk t) n.
Proof.
  intros Hi Hw Hd Hn Hlen Hbufs Hdisk. destruct (bio_iderw true i b (disk bc) bc) as (bc' & B1 & B2 & B3); [by rewrite Hbufs|done|done|].
  pose proof Hw as [W1 W2 W3 W4 W5]. pose proof (lookup_lt_Some _ _ _ Hi) as Hlt. unfold FSSIZE, BSIZE in *.
  enough (wp (iderw i) s (fun _ t => bufs bc' = mbufs t /\ forall n, 0 <= n -> disk bc' 1 n = mblock (memdisk t) n)) as ([] & t & Hr & Ht).
  { exists t, bc'. by split. }
  unfold iderw. apply wp_bind. eapply wp_deref; [done|]. apply wp_bind, wp_gets.
  rewrite (proj2 (Z.eqb_neq _ 0)), (proj2 (Z.eqb_neq _ B_VALID)) by done. rewrite Hd. cbn [Z.eqb Pos.eqb negb].
  rewrite (u32_small (disksize s)), (proj2 (Z.leb_gt _ _)) by lia. unfold BSIZE. rewrite (u32_small (b_blockno b * 512)) by lia.
  rewrite B2, Hbufs. unfold finished, stored, dirty in *. destruct (negb (Z.land (b_flags b) B_DIRTY =? 0)) eqn:Edirty; apply wp_bind.
  - apply wp_bind, wp_modify, wp_modify, wp_modify. cbn [mbufs memdisk]. rewrite (alter_at _ _ _ b Hi).
    rewrite (alter_at _ _ _ _ (list_lookup_insert_eq _ _ _ Hlt)), list_insert_insert_eq. split; [cbn; by rewrite flags_commute|].
    intros n H0. rewrite B3, Hd, Hdisk, mblock_splice by (unfold BSIZE; lia). cbn [andb]. destruct (decide (n = b_blockno b)) as [->|Hne]; [by rewrite !bool_decide_true|].
    by rewrite !bool_decide_false by tauto.
  - apply wp_bind, wp_gets, wp_modify, wp_modify. cbn [mbufs memdisk]. rewrite (alter_at _ _ _ b Hi).
    rewrite (alter_at _ _ _ _ (list_lookup_insert_eq _ _ _ Hlt)), list_insert_insert_eq. rewrite Hd, (Hdisk (b_blockno b)) by lia. split.
    + cbn. by rewrite flags_clean by (bools; done).
    + intros n H0. by rewrite B3, Hdisk.
Qed.
