(* ===== verification/Layout.v ===== *)
(** fs.h: the disk layout.  The super block, the inodes and the directory
    entries as the bytes of a block, the block numbers computed from them, and
    readsb (fs.c). *)

From S2P Require Import Prelude Codec Blocks.

Definition ROOTINO : Z := 1.
Definition NDIRECT : Z := 12.
Definition NINDIRECT : Z := BSIZE / 4.
Definition MAXFILE : Z := NDIRECT + NINDIRECT.
Definition DIRSIZ : nat := 14.
Definition MAXOPBLOCKS : Z := 10.
Definition LOGSIZE : Z := MAXOPBLOCKS * 3.

Record superblock := mkSuper {
  sb_size : Z;
  sb_nblocks : Z;
  sb_ninodes : Z;
  sb_nlog : Z;
  sb_logstart : Z;
  sb_inodestart : Z;
  sb_bmapstart : Z }.

(** The memmove of a superblock, the fields at their offsets. *)
Definition sb_decode (d : list Z) : superblock :=
  mkSuper (get32 d 0) (get32 d 4) (get32 d 8) (get32 d 12) (get32 d 16) (get32 d 20) (get32 d 24).

Definition sb_encode (sb : superblock) : list Z :=
  le32 (sb_size sb) ++ le32 (sb_nblocks sb) ++ le32 (sb_ninodes sb) ++ le32 (sb_nlog sb) ++
  le32 (sb_logstart sb) ++ le32 (sb_inodestart sb) ++ le32 (sb_bmapstart sb).

Record dinode := mkDinode {
  di_type : Z;
  di_major : Z;
  di_minor : Z;
  di_nlink : Z;
  di_size : Z;
  di_addrs : list Z }.

Definition dinode_size : nat := 64.

(** The dinode at byte [off] of a block: four shorts, the size, 13 addresses. *)
Definition di_decode (d : list Z) (off : nat) : dinode :=
  mkDinode (s16 (get16 d off)) (s16 (get16 d (off + 2))) (s16 (get16 d (off + 4)))
    (s16 (get16 d (off + 6))) (get32 d (off + 8))
    ((fun i => get32 d (off + 12 + 4 * i)) <$> seq 0 13).

Definition di_encode (i : dinode) : list Z :=
  le16 (di_type i) ++ le16 (di_major i) ++ le16 (di_minor i) ++ le16 (di_nlink i) ++
  le32 (di_size i) ++ flat_map le32 (di_addrs i).

Definition IPB : Z := BSIZE / Z.of_nat dinode_size.
Definition IBLOCK (i : Z) (sb : superblock) : Z := u32 (i / IPB + sb_inodestart sb).
Definition BPB : Z := BSIZE * 8.
Definition BBLOCK (b : Z) (sb : superblock) : Z := u32 (b / BPB + sb_bmapstart sb).

Record dirent := mkDirent { de_inum : Z; de_name : list Z }.

Definition dirent_size : nat := 16.

Definition de_decode (d : list Z) (off : nat) : dirent :=
  mkDirent (get16 d off) (slice (off + 2) DIRSIZ d).

Definition de_encode (e : dirent) : list Z := le16 (de_inum e) ++ de_name e.

Definition readsb {S} `{BufLayer S} (dev : Z) : M S superblock :=
  bp ← bl_read dev 1;
  d ← bl_data bp;
  bl_release bp;;
  mret (sb_decode d).

(** * Round trips *)

Definition i16 (z : Z) : Prop := - 2 ^ 15 <= z < 2 ^ 15.
Definition uint (z : Z) : Prop := 0 <= z < 2 ^ 32.

Definition dinode_ok (i : dinode) : Prop :=
  i16 (di_type i) /\ i16 (di_major i) /\ i16 (di_minor i) /\ i16 (di_nlink i) /\
  uint (di_size i) /\ length (di_addrs i) = 13%nat /\ Forall uint (di_addrs i).

Lemma length_le32s l : length (flat_map le32 l) = (4 * length l)%nat.
Proof. induction l as [|a l IH]; [done|]. cbn [flat_map]. rewrite length_app, IH. simpl. lia. Qed.

Lemma length_di_encode i : dinode_ok i -> length (di_encode i) = dinode_size.
Proof.
  intros (_ & _ & _ & _ & _ & Hl & _). unfold di_encode. rewrite !length_app, length_le32s, Hl. done.
Qed.

Lemma s16_u16 z : i16 z -> s16 (u16 z) = z.
Proof. unfold i16. intros. zdm. Qed.

(** Fields of a byte string: skip what is before, take what is there. *)
Lemma get16_skip x l off : get16 (x ++ l) (length x + off) = get16 l off.
Proof. unfold get16, slice. by rewrite drop_app_add'. Qed.

Lemma get32_skip x l off : get32 (x ++ l) (length x + off) = get32 l off.
Proof. unfold get32, slice. by rewrite drop_app_add'. Qed.

Lemma get16_here v l : get16 (le16 v ++ l) 0 = u16 v.
Proof. unfold get16, slice. rewrite drop_0. apply le_val_le16. Qed.

Lemma get32_here v l : get32 (le32 v ++ l) 0 = u32 v.
Proof. unfold get32, slice. rewrite drop_0. apply le_val_le32. Qed.

Lemma get32_le32s l i : (i < length l)%nat -> get32 (flat_map le32 l) (4 * i) = u32 (nth i l 0).
Proof.
  revert i. induction l as [|a l IH]; intros i Hi; [simpl in Hi; lia|].
  cbn [flat_map]. destruct i as [|i].
  - apply get32_here.
  - replace (4 * S i)%nat with (length (le32 a) + 4 * i)%nat by (simpl; lia).
    rewrite get32_skip. apply IH. simpl in Hi. lia.
Qed.

Lemma get_splice off x l n o :
  (off + length x <= length l)%nat -> (o + n <= length x)%nat ->
  slice (off + o) n (splice off x l) = slice o n x.
Proof.
  intros Hl Ho. apply list_eq. intros i. destruct (decide (i < n)%nat).
  - rewrite !lookup_slice by done. rewrite lookup_splice by done. rewrite decide_True by lia. f_equal. lia.
  - unfold slice. by rewrite !lookup_take_ge by lia.
Qed.

Lemma get16_splice off x l o :
  (off + length x <= length l)%nat -> (o + 2 <= length x)%nat -> get16 (splice off x l) (off + o) = get16 x o.
Proof. intros. unfold get16. by rewrite get_splice. Qed.

Lemma get32_splice off x l o :
  (off + length x <= length l)%nat -> (o + 4 <= length x)%nat -> get32 (splice off x l) (off + o) = get32 x o.
Proof. intros. unfold get32. by rewrite get_splice. Qed.

Lemma di_decode_encode_at i rest : dinode_ok i -> di_decode (di_encode i ++ rest) 0 = i.
Proof.
  intros (Ht & Hma & Hmi & Hn & Hs & Hl & Ha). destruct i as [ty ma mi nl sz ad].
  unfold di_decode, di_encode. cbn [di_type di_major di_minor di_nlink di_size di_addrs] in *. rewrite <- !app_assoc. f_equal.
  - rewrite get16_here. by apply s16_u16.
  - rewrite (get16_skip (le16 ty) _ 0), get16_here. by apply s16_u16.
  - rewrite (get16_skip (le16 ty) _ 2), (get16_skip (le16 ma) _ 0), get16_here. by apply s16_u16.
  - rewrite (get16_skip (le16 ty) _ 4), (get16_skip (le16 ma) _ 2), (get16_skip (le16 mi) _ 0), get16_here.
    by apply s16_u16.
  - rewrite (get32_skip (le16 ty) _ 6), (get32_skip (le16 ma) _ 4), (get32_skip (le16 mi) _ 2),
      (get32_skip (le16 nl) _ 0), get32_here. by apply u32_small.
  - apply list_eq. intros k. rewrite list_lookup_fmap. destruct (decide (k < 13)%nat) as [Hk|Hk].
    + rewrite lookup_seq_lt by done. cbn [fmap option_fmap option_map].
      replace (0 + 12 + 4 * (0 + k))%nat with
        (length (le16 ty) + (length (le16 ma) + (length (le16 mi) + (length (le16 nl) +
           (length (le32 sz) + 4 * k)))))%nat by (simpl; lia).
      rewrite !get32_skip. destruct (lookup_lt_is_Some_2 ad k) as [x Hx]; [lia|].
      rewrite Hx. f_equal. unfold get32, slice. rewrite drop_app_le by (rewrite length_le32s; lia).
      rewrite take_app_le by (rewrite length_drop, length_le32s; lia).
      change (get32 (flat_map le32 ad) (4 * k) = x). rewrite get32_le32s by lia.
      rewrite (nth_lookup_Some ad k 0 x Hx). apply u32_small. by eapply Forall_lookup_1 in Ha.
    + rewrite lookup_seq_ge by lia. symmetry. apply lookup_ge_None. lia.
Qed.

(** What di_encode puts at a place of a block, di_decode reads back. *)
Lemma di_decode_splice i d off :
  dinode_ok i -> (off + dinode_size <= length d)%nat ->
  di_decode (splice off (di_encode i) d) off = i.
Proof.
  intros Hi Hl. pose proof (length_di_encode i Hi) as Hle.
  transitivity (di_decode (di_encode i ++ []) 0); [|by apply di_decode_encode_at].
  rewrite app_nil_r. unfold di_decode.
  replace (get16 (splice off (di_encode i) d) off) with (get16 (splice off (di_encode i) d) (off + 0))
    by (by rewrite Nat.add_0_r).
  unfold dinode_size in *. rewrite !get16_splice, !get32_splice by (rewrite Hle; lia). f_equal.
  apply list_fmap_ext. intros k x Hx. apply lookup_seq in Hx as [-> Hk].
  rewrite <- Nat.add_assoc. by rewrite get32_splice by (rewrite Hle; lia).
Qed.

(** Other places of the block keep their inodes. *)
Lemma di_decode_other x d off off' :
  (off + length x <= length d)%nat -> (off' + dinode_size <= off \/ off + length x <= off')%nat ->
  di_decode (splice off x d) off' = di_decode d off'.
Proof.
  intros Hl Hd. unfold di_decode, dinode_size in *.
  rewrite !get16_splice_ne, !get32_splice_ne by lia. f_equal.
  apply list_fmap_ext. intros k y Hy. apply lookup_seq in Hy as [-> Hk].
  by rewrite get32_splice_ne by lia.
Qed.

Lemma sb_decode_encode sb rest :
  Forall uint [sb_size sb; sb_nblocks sb; sb_ninodes sb; sb_nlog sb; sb_logstart sb; sb_inodestart sb; sb_bmapstart sb] ->
  sb_decode (sb_encode sb ++ rest) = sb.
Proof.
  intros H. destruct sb as [a b c d e f g]. unfold sb_encode, sb_decode.
  cbn [sb_size sb_nblocks sb_ninodes sb_nlog sb_logstart sb_inodestart sb_bmapstart] in *.
  repeat (apply Forall_cons in H as [? H]). rewrite <- !app_assoc.
  rewrite get32_here, (get32_skip (le32 a) _ 0), get32_here,
    (get32_skip (le32 a) _ 4), (get32_skip (le32 b) _ 0), get32_here,
    (get32_skip (le32 a) _ 8), (get32_skip (le32 b) _ 4), (get32_skip (le32 c) _ 0), get32_here,
    (get32_skip (le32 a) _ 12), (get32_skip (le32 b) _ 8), (get32_skip (le32 c) _ 4),
    (get32_skip (le32 d) _ 0), get32_here,
    (get32_skip (le32 a) _ 16), (get32_skip (le32 b) _ 12), (get32_skip (le32 c) _ 8),
    (get32_skip (le32 d) _ 4), (get32_skip (le32 e) _ 0), get32_here,
    (get32_skip (le32 a) _ 20), (get32_skip (le32 b) _ 16), (get32_skip (le32 c) _ 12),
    (get32_skip (le32 d) _ 8), (get32_skip (le32 e) _ 4), (get32_skip (le32 f) _ 0), get32_here.
  by rewrite !u32_small.
Qed.

Lemma de_decode_splice e d off :
  0 <= de_inum e < 2 ^ 16 -> length (de_name e) = DIRSIZ -> (off + dirent_size <= length d)%nat ->
  de_decode (splice off (de_encode e) d) off = e.
Proof.
  intros Hi Hn Hl. assert (length (de_encode e) = dirent_size) as Hle.
  { unfold de_encode. by rewrite length_app, Hn. }
  destruct e as [n x]. unfold de_decode, dirent_size, DIRSIZ in *. cbn [de_inum de_name] in *. f_equal.
  - replace (get16 (splice off (de_encode (mkDirent n x)) d) off)
      with (get16 (splice off (de_encode (mkDirent n x)) d) (off + 0)) by (by rewrite Nat.add_0_r).
    rewrite get16_splice by (rewrite Hle; lia). unfold de_encode.
    rewrite get16_here. by apply Z.mod_small.
  - rewrite get_splice by (rewrite Hle; lia). unfold slice, de_encode. cbn [de_inum de_name].
    change (drop 2 (le16 n ++ x)) with x. by rewrite take_ge by lia.
Qed.
