(* ===== verification/Log.v ===== *)
(** log.c: the write-ahead log, over the contract of Blocks.v.

    The state is [struct log] next to whatever state the buffer cache has.
    What log.lock protects happens in one step; a begin_op that has to wait
    [Blocks].  The second part is crash safety: the disk is what the writes
    issued so far made of it, in order and block by block, and a crash is a
    stop between two of them. *)

From stdpp Require Import gmap.
From S2P Require Import Prelude Codec Blocks Layout.

Record log := mkLog {
  l_start : Z;
  l_size : Z;
  l_outstanding : Z;
  l_committing : Z;
  l_dev : Z;
  lh_n : Z;
  lh_block : list Z;
  l_wakes : nat }.   (* calls of wakeup(&log) *)

Definition set_lh (n : Z) (bl : list Z) (g : log) : log :=
  mkLog (l_start g) (l_size g) (l_outstanding g) (l_committing g) (l_dev g) n bl (l_wakes g).

Definition set_ops (out com : Z) (g : log) : log :=
  mkLog (l_start g) (l_size g) out com (l_dev g) (lh_n g) (lh_block g) (l_wakes g).

Definition set_place (start size dev : Z) (g : log) : log :=
  mkLog start size (l_outstanding g) (l_committing g) dev (lh_n g) (lh_block g) (l_wakes g).

Definition woken (g : log) : log :=
  mkLog (l_start g) (l_size g) (l_outstanding g) (l_committing g) (l_dev g) (lh_n g) (lh_block g)
    (S (l_wakes g)).

Record lst (S : Type) := mkLst { lg : log; low : S }.
Arguments mkLst {S} _ _.
Arguments lg {S} _.
Arguments low {S} _.

Definition with_lg {S} (g : log) (s : lst S) : lst S := mkLst g (low s).
Definition with_low {S} (t : S) (s : lst S) : lst S := mkLst (lg s) t.

Section log.
Context {S : Type} `{BufLayer S}.

Abbreviation L := (M (lst S)).

(** A call of the buffer cache. *)
Definition lift {A} (m : M S A) : L A := fun s =>
  match m (low s) with
  | Ok (a, t) => Ok (a, with_low t s)
  | Panic e => Panic e
  | Fault e => Fault e
  | Blocks e => Blocks e
  end.

Definition modlog (f : log -> log) : L unit := modify (fun s => with_lg (f (lg s)) s).

(** log.lh.block[i] *)
Definition lh_get (i : nat) : L Z := deref "log.lh.block" (fun s => lh_block (lg s) !! i).

(** memmove(to->data, from->data, BSIZE) between two buffers. *)
Definition copy_block (to from : nat) : L unit :=
  x ← lift (bl_data from);
  y ← lift (bl_data to);
  lift (bl_set to (splice 0 (take (Z.to_nat BSIZE) x) y)).

(** The bodies of the loops of install_trans and write_log. *)
Definition install_one (g : log) (tail : nat) : L unit :=
  lbuf ← lift (bl_read (l_dev g) (u32 (l_start g + Z.of_nat tail + 1)));
  home ← lh_get tail;
  dbuf ← lift (bl_read (l_dev g) (u32 home));
  copy_block dbuf lbuf;;
  lift (bl_write dbuf);;
  lift (bl_release lbuf);;
  lift (bl_release dbuf).

Definition log_one (g : log) (tail : nat) : L unit :=
  to ← lift (bl_read (l_dev g) (u32 (l_start g + Z.of_nat tail + 1)));
  home ← lh_get tail;
  from ← lift (bl_read (l_dev g) (u32 home));
  copy_block to from;;
  lift (bl_write to);;
  lift (bl_release from);;
  lift (bl_release to).

Definition install_trans : L unit :=
  g ← gets lg;
  for_n (Z.to_nat (lh_n g)) 0 (install_one g).

Definition write_log : L unit :=
  g ← gets lg;
  for_n (Z.to_nat (lh_n g)) 0 (log_one g).

Definition read_head : L unit :=
  g ← gets lg;
  buf ← lift (bl_read (l_dev g) (u32 (l_start g)));
  d ← lift (bl_data buf);
  modlog (fun g => set_lh (s32 (get32 d 0)) (lh_block g) g);;
  for_n (Z.to_nat (s32 (get32 d 0))) 0 (fun i =>
    lh_get i;;
    modlog (fun g => set_lh (lh_n g) (<[i := s32 (get32 d (4 + 4 * i))]> (lh_block g)) g));;
  lift (bl_release buf).

(** hb->block[i] = log.lh.block[i] for i from [i] on. *)
Fixpoint put_blocks (i : nat) (bl d : list Z) : list Z :=
  match bl with
  | [] => d
  | b :: bl => put_blocks (i + 1) bl (put32 d (4 + 4 * i) b)
  end.

Definition write_head : L unit :=
  g ← gets lg;
  buf ← lift (bl_read (l_dev g) (u32 (l_start g)));
  d ← lift (bl_data buf);
  if Z.of_nat (length (lh_block g)) <? lh_n g then fault "log.lh.block"
  else
    lift (bl_set buf (put_blocks 0 (take (Z.to_nat (lh_n g)) (lh_block g)) (put32 d 0 (lh_n g))));;
    lift (bl_write buf);;
    lift (bl_release buf).

Definition recover_from_log : L unit :=
  read_head;;
  install_trans;;
  modlog (fun g => set_lh 0 (lh_block g) g);;
  write_head.

Definition initlog (dev : Z) : L unit :=
  if BSIZE <=? 4 + 4 * LOGSIZE then panic "initlog: too big logheader"
  else
    sb ← lift (readsb dev);
    modlog (set_place (s32 (sb_logstart sb)) (s32 (sb_nlog sb)) dev);;
    recover_from_log.

Definition begin_op : L unit :=
  g ← gets lg;
  if negb (l_committing g =? 0) then blocks "begin_op: sleep(&log, &log.lock)"
  else if LOGSIZE <? lh_n g + (l_outstanding g + 1) * MAXOPBLOCKS then
    blocks "begin_op: sleep(&log, &log.lock)"
  else modlog (set_ops (l_outstanding g + 1) (l_committing g)).

Definition commit : L unit :=
  g ← gets lg;
  when (0 <? lh_n g)
    (write_log;;
     write_head;;
     install_trans;;
     modlog (fun g => set_lh 0 (lh_block g) g);;
     write_head).

Definition end_op : L unit :=
  g ← gets lg;
  modlog (set_ops (l_outstanding g - 1) (l_committing g));;
  if negb (l_committing g =? 0) then panic "log.committing"
  else if l_outstanding g - 1 =? 0 then
    modlog (set_ops (l_outstanding g - 1) 1);;
    commit;;
    modlog (fun g => woken (set_ops (l_outstanding g) 0 g))
  else modlog woken.

(** The first of the [n] entries equal to the block number, or [n]. *)
Fixpoint absorb (bl : list Z) (b : Z) : nat :=
  match bl with
  | [] => 0%nat
  | c :: bl => if u32 c =? b then 0%nat else (1 + absorb bl b)%nat
  end.

Definition log_write (b : nat) : L unit :=
  g ← gets lg;
  if (LOGSIZE <=? lh_n g) || (l_size g - 1 <=? lh_n g) then panic "too big a transaction"
  else if l_outstanding g <? 1 then panic "log_write outside of trans"
  else
    bn ← lift (bl_blockno b);
    let i := absorb (take (Z.to_nat (lh_n g)) (lh_block g)) bn in
    lh_get i;;
    modlog (fun g => set_lh (if Z.of_nat i =? lh_n g then lh_n g + 1 else lh_n g)
                       (<[i := s32 bn]> (lh_block g)) g);;
    lift (bl_pin b).

End log.

(** * Crash states *)

(** The writes [ws] (first to last) made to the disk [d]. *)
Definition disk_after (d : Z -> list Z) (ws : list (Z * list Z)) : Z -> list Z :=
  fold_left (fun d w => fupd d (fst w) (snd w)) ws d.

(** The header block as initlog would read it. *)
Definition hdr_n (h : list Z) : nat := Z.to_nat (s32 (get32 h 0)).
Definition hdr_blocks (h : list Z) : list Z := (fun i => s32 (get32 h (4 + 4 * i))) <$> seq 0 (hdr_n h).

(** The logged blocks on disk, each with its home. *)
Definition logged (start : Z) (bl : list Z) (d : Z -> list Z) : list (Z * list Z) :=
  imap (fun i b => (b, d (start + Z.of_nat i + 1))) bl.

(** What the file system holds, given the disk: what recovery would install. *)
Definition durable (start : Z) (d : Z -> list Z) : Z -> list Z :=
  disk_after d (logged start (hdr_blocks (d start)) d).

(** A block of the file system proper, outside the log's area. *)
Definition home (start size b : Z) : Prop := 0 <= b < fssize /\ ~ (start <= b < start + size).

Definition sized (d : Z -> list Z) : Prop := forall b, length (d b) = Z.to_nat BSIZE.

(** A log area that fits the disk. *)
Definition area (start size : Z) : Prop := 0 <= start /\ 1 <= size /\ start + size <= fssize.

(** * What the routines do to the view *)

Lemma v_drop_hold h b x v : vheld v !! h = None -> v_drop h (v_hold h b x v) = v.
Proof.
  intros Hh. destruct v as [d c hd di tr]. unfold v_drop, v_hold. simpl in *. f_equal.
  by rewrite delete_insert_id.
Qed.

(** A copy between two held buffers, the destination written and both released. *)
Lemma v_copy h h' b b' x y y' v :
  vheld v = ∅ -> h <> h' ->
  v_drop h' (v_drop h (v_write b' x (v_hold h' b' y' (v_hold h' b' y (v_hold h b x v))))) = v_write b' x v.
Proof.
  intros Hh Hne. destruct v as [d c hd di tr]. unfold v_drop, v_hold, v_write. simpl in *. f_equal. subst hd.
  apply map_eq. intros k. rewrite !lookup_delete, !lookup_insert, !lookup_empty.
  repeat case_decide; rewrite ?lookup_empty; congruence.
Qed.

Lemma v_copy' h h' b b' x y y' z v :
  vheld v = ∅ -> h <> h' ->
  v_drop h (v_drop h' (v_write b x (v_hold h b y' (v_hold h' b' y (v_hold h b z v))))) = v_write b x v.
Proof.
  intros Hh Hne. destruct v as [d c hd di tr]. unfold v_drop, v_hold, v_write. simpl in *. f_equal. subst hd.
  apply map_eq. intros k. rewrite !lookup_delete, !lookup_insert, !lookup_empty.
  repeat case_decide; rewrite ?lookup_empty; congruence.
Qed.

Lemma splice_all x y : length x = length y -> splice 0 x y = x.
Proof.
  intros Hl. unfold splice. rewrite take_0, drop_ge by lia. by rewrite app_nil_r.
Qed.

(** Writes made through the cache. *)
Definition vwrites (ws : list (Z * list Z)) (v : bview) : bview :=
  fold_left (fun v w => v_write (fst w) (snd w) v) ws v.

(** The writes of write_log and install_trans. *)
Definition log_writes (start : Z) (bl : list Z) (c : Z -> list Z) : list (Z * list Z) :=
  imap (fun i b => (start + Z.of_nat i + 1, c b)) bl.

(** The in-memory log describes the transaction [bl]. *)
Record log_wf (g : log) (bl : list Z) : Prop := {
  wf_dev : l_dev g = ROOTDEV;
  wf_area : area (l_start g) (l_size g);
  wf_arr : length (lh_block g) = Z.to_nat LOGSIZE;
  wf_n : lh_n g = Z.of_nat (length bl);
  wf_bl : take (length bl) (lh_block g) = bl;
  wf_fits : Z.of_nat (length bl) < l_size g;
  wf_home : Forall (home (l_start g) (l_size g)) bl }.

Lemma disk_after_app d ws ws' : disk_after d (ws ++ ws') = disk_after (disk_after d ws) ws'.
Proof. apply fold_left_app. Qed.

Lemma disk_after_ne d ws b : b ∉ fst <$> ws -> disk_after d ws b = d b.
Proof.
  revert d. induction ws as [|[b' x] ws IH]; intros d Hb; [done|].
  cbn [fmap list_fmap] in Hb. rewrite not_elem_of_cons in Hb. destruct Hb as [Hb Hw].
  change (disk_after (fupd d b' x) ws b = d b). rewrite IH by done. by apply fupd_ne.
Qed.

Lemma disk_after_take d ws b i : b ∉ fst <$> ws -> disk_after d (take i ws) b = d b.
Proof.
  intros Hb. apply disk_after_ne. rewrite fmap_take. intros Hi. apply Hb. by eapply elem_of_take in Hi as (? & ? & _); eapply list_elem_of_lookup_2.
Qed.

Lemma vwrites_app ws ws' v : vwrites (ws ++ ws') v = vwrites ws' (vwrites ws v).
Proof. apply fold_left_app. Qed.

Lemma vwrites_cache ws v : vcache (vwrites ws v) = disk_after (vcache v) ws.
Proof. revert v. induction ws as [|w ws IH]; intros v; [done|]. apply (IH (v_write (fst w) (snd w) v)). Qed.

Lemma vwrites_disk ws v : vdisk (vwrites ws v) = disk_after (vdisk v) ws.
Proof. revert v. induction ws as [|w ws IH]; intros v; [done|]. apply (IH (v_write (fst w) (snd w) v)). Qed.

Lemma vwrites_held ws v : vheld (vwrites ws v) = vheld v.
Proof. revert v. induction ws as [|w ws IH]; intros v; [done|]. apply (IH (v_write (fst w) (snd w) v)). Qed.

Lemma vwrites_trace ws v : vtrace (vwrites ws v) = rev ws ++ vtrace v.
Proof.
  revert v. induction ws as [|[b x] ws IH]; intros v; [done|].
  change (vtrace (vwrites ws (v_write b x v)) = rev ((b, x) :: ws) ++ vtrace v).
  rewrite IH. simpl. by rewrite <- app_assoc.
Qed.

Lemma vwrites_dirty ws v b : b ∈ vdirty (vwrites ws v) <-> b ∈ vdirty v /\ b ∉ fst <$> ws.
Proof.
  revert v. induction ws as [|[b' x] ws IH]; intros v.
  - simpl. split; [|by intros [? _]]. intros ?. split; [done|apply not_elem_of_nil].
  - change (b ∈ vdirty (vwrites ws (v_write b' x v)) <-> b ∈ vdirty v /\ b ∉ b' :: (fst <$> ws)).
    rewrite IH, not_elem_of_cons. simpl. rewrite elem_of_difference, elem_of_singleton. tauto.
Qed.

Lemma vwrites_dirty_size ws v : (size (vdirty (vwrites ws v)) <= size (vdirty v))%nat.
Proof. apply subseteq_size. intros b Hb. by apply vwrites_dirty in Hb as [? _]. Qed.

Lemma sized_after d ws : sized d -> Forall (fun w => length (snd w) = Z.to_nat BSIZE) ws -> sized (disk_after d ws).
Proof.
  intros Hd HW. revert d Hd. induction HW as [|[b x] ws Hx _ IH]; intros d Hd; [done|].
  apply (IH (fupd d b x)). intros b'. unfold fupd. case_bool_decide; [done|apply Hd].
Qed.

Lemma vwrites_snoc ws v i b x :
  ws !! i = Some (b, x) -> vwrites (take (S i) ws) v = v_write b x (vwrites (take i ws) v).
Proof. intros Hi. rewrite (take_S_r _ _ _ Hi), vwrites_app. done. Qed.

Lemma fst_log_writes start bl c b :
  b ∈ fst <$> log_writes start bl c -> start < b <= start + Z.of_nat (length bl).
Proof.
  intros Hb. apply list_elem_of_fmap in Hb as ([b' x] & -> & Hw).
  apply list_elem_of_lookup in Hw as [i Hi]. unfold log_writes in Hi. rewrite list_lookup_imap in Hi.
  destruct (bl !! i) as [y|] eqn:Ey; [|done]. injection Hi as <- _. apply lookup_lt_Some in Ey. simpl. lia.
Qed.

Lemma fst_logged start bl d : fst <$> logged start bl d = bl.
Proof.
  unfold logged. rewrite fmap_imap. rewrite <- (list_fmap_id bl) at 2. rewrite <- imap_const. done.
Qed.

Lemma logged_ext start bl d d' :
  (forall i, (i < length bl)%nat -> d (start + Z.of_nat i + 1) = d' (start + Z.of_nat i + 1)) ->
  logged start bl d = logged start bl d'.
Proof.
  intros Hd. apply imap_ext. intros i b Hb. apply lookup_lt_Some in Hb. by rewrite Hd.
Qed.

Lemma home_not_area start size b i :
  home start size b -> 0 <= i < size -> b <> start + i.
Proof. intros [_ Hb] Hi ->. apply Hb. lia. Qed.

(** The header block write_head writes for the transaction [bl]. *)
Definition head_bytes (bl d : list Z) : list Z := put_blocks 0 bl (put32 d 0 (Z.of_nat (length bl))).

Lemma put_blocks_spec bl : forall i d,
  (4 + 4 * (i + length bl) <= length d)%nat ->
  length (put_blocks i bl d) = length d /\
  (forall off, (off + 4 <= 4 + 4 * i)%nat -> get32 (put_blocks i bl d) off = get32 d off) /\
  (forall j b, bl !! j = Some b -> get32 (put_blocks i bl d) (4 + 4 * (i + j)) = u32 b).
Proof.
  induction bl as [|b bl IH]; intros i d Hl; simpl in Hl.
  - split_and!; [done|done|]. by intros j b.
  - cbn [put_blocks]. pose proof (length_put32 d (4 + 4 * i) b ltac:(lia)) as Hp.
    destruct (IH (i + 1)%nat (put32 d (4 + 4 * i) b)) as (H1 & H2 & H3); [rewrite Hp; lia|].
    split_and!; [lia| |].
    + intros off Ho. rewrite H2 by lia. apply get32_put32_ne; lia.
    + intros [|j] c Hc; simpl in Hc.
      * injection Hc as <-. rewrite H2 by lia. rewrite Nat.add_0_r. apply get32_put32_eq. lia.
      * rewrite <- (H3 j c Hc). f_equal. lia.
Qed.

Lemma head_bytes_spec bl d :
  length d = Z.to_nat BSIZE -> Z.of_nat (length bl) <= LOGSIZE -> Forall (fun b => 0 <= b < fssize) bl ->
  length (head_bytes bl d) = Z.to_nat BSIZE /\ hdr_blocks (head_bytes bl d) = bl.
Proof.
  intros Hd Hn HF. change (Z.to_nat BSIZE) with 512%nat in *. unfold LOGSIZE, MAXOPBLOCKS in Hn.
  pose proof (length_put32 d 0 (Z.of_nat (length bl)) ltac:(lia)) as Hp.
  destruct (put_blocks_spec bl 0 (put32 d 0 (Z.of_nat (length bl)))) as (H1 & H2 & H3); [lia|].
  fold (head_bytes bl d) in *.
  assert (hdr_n (head_bytes bl d) = length bl) as Hhn.
  { unfold hdr_n. rewrite H2 by lia. rewrite get32_put32_eq by lia. rewrite u32_small by lia.
    rewrite s32_small by lia. apply Nat2Z.id. }
  split; [lia|]. apply list_eq. intros j. unfold hdr_blocks. rewrite list_lookup_fmap, Hhn.
  destruct (bl !! j) as [b|] eqn:Eb.
  - rewrite lookup_seq_lt by by eapply lookup_lt_Some. cbn [fmap option_fmap option_map].
    rewrite (H3 j b Eb). rewrite Forall_lookup in HF. specialize (HF j b Eb). unfold fssize in HF.
    by rewrite u32_small, s32_small by lia.
  - rewrite lookup_seq_ge; [done|]. by apply lookup_ge_None in Eb.
Qed.

(** A disk whose log area is in order. *)
Record disk_ok (start size : Z) (d : Z -> list Z) : Prop := {
  do_area : area start size;
  do_sized : sized d;
  do_n : 0 <= s32 (get32 (d start) 0) <= LOGSIZE;
  do_fits : Z.of_nat (length (hdr_blocks (d start))) < size;
  do_home : Forall (home start size) (hdr_blocks (d start)) }.

(** All writes of recover_from_log on the disk [d]. *)
Definition rec_writes (start : Z) (d : Z -> list Z) : list (Z * list Z) :=
  logged start (hdr_blocks (d start)) d ++ [(start, head_bytes [] (d start))].

(** All writes of commit for the transaction [bl] with cached contents [c]:
    the log, its header, the homes, and the empty header. *)
Definition commit_writes (start : Z) (bl : list Z) (c : Z -> list Z) : list (Z * list Z) :=
  log_writes start bl c ++ [(start, head_bytes bl (c start))] ++
  ((fun b => (b, c b)) <$> bl) ++ [(start, head_bytes [] (head_bytes bl (c start)))].

Lemma sized_logged start bl d : sized d -> Forall (fun w => length (snd w) = Z.to_nat BSIZE) (logged start bl d).
Proof.
  intros Hd. apply Forall_forall. intros w Hw. apply list_elem_of_lookup in Hw as [j Hj].
  unfold logged in Hj. rewrite list_lookup_imap in Hj. destruct (bl !! j); [|done]. injection Hj as <-. apply Hd.
Qed.

Lemma sized_log_writes start bl c : sized c -> Forall (fun w => length (snd w) = Z.to_nat BSIZE) (log_writes start bl c).
Proof.
  intros Hd. apply Forall_forall. intros w Hw. apply list_elem_of_lookup in Hw as [j Hj].
  unfold log_writes in Hj. rewrite list_lookup_imap in Hj. destruct (bl !! j); [|done]. injection Hj as <-. apply Hd.
Qed.

(** After write_log each block of the log has its block's contents. *)
Lemma log_writes_at start bl c d i b :
  bl !! i = Some b -> disk_after d (log_writes start bl c) (start + Z.of_nat i + 1) = c b.
Proof.
  revert start d i. induction bl as [|b' bl IH] using rev_ind; intros start d i Hi; [done|].
  unfold log_writes. rewrite imap_app, disk_after_app. simpl. rewrite Nat.add_0_r.
  destruct (decide (i = length bl)) as [->|Hne].
  - rewrite fupd_eq. rewrite lookup_app_r, Nat.sub_diag in Hi by done. by injection Hi as <-.
  - rewrite fupd_ne by lia. apply IH. rewrite lookup_app_l in Hi; [done|].
    apply lookup_lt_Some in Hi. rewrite length_app in Hi. simpl in Hi. lia.
Qed.

Lemma fst_pairs (c : Z -> list Z) (bl : list Z) : fst <$> ((fun b => (b, c b)) <$> bl) = bl.
Proof. rewrite <- list_fmap_compose. apply list_fmap_id. Qed.

Lemma bview0_room d : (1 + size (vdirty (bview0 d)) < nbuf)%nat.
Proof. unfold bview0, nbuf. cbn [vdirty]. rewrite size_empty. lia. Qed.

Section wps.
Context {S : Type} `{BL : BufLaws S}.
Implicit Types (s : lst S) (v : bview).

Lemma wp_lift {A} (m : M S A) s (Q : A -> lst S -> Prop) :
  wp m (low s) (fun a t => Q a (with_low t s)) -> wp (lift m) s Q.
Proof. intros (a & t & Hm & HQ). exists a, (with_low t s). split; [|done]. unfold lift. by rewrite Hm. Qed.

Lemma wp_modlog f s (Q : unit -> lst S -> Prop) :
  Q tt (with_lg (f (lg s)) s) -> wp (modlog f) s Q.
Proof. intros. by apply wp_modify. Qed.

Lemma wp_lh_get i s x (Q : Z -> lst S -> Prop) :
  lh_block (lg s) !! i = Some x -> Q x s -> wp (lh_get i) s Q.
Proof. intros. by eapply wp_deref. Qed.

Lemma wp_copy_block to from s v b b' x y (Q : unit -> lst S -> Prop) :
  rep (low s) v -> vheld v !! from = Some (b, x) -> vheld v !! to = Some (b', y) ->
  length x = Z.to_nat BSIZE -> length y = Z.to_nat BSIZE ->
  (forall t, rep t (v_hold to b' x v) -> Q tt (with_low t s)) ->
  wp (copy_block to from) s Q.
Proof.
  intros HR Hf Ht Hx Hy HQ. unfold copy_block.
  apply wp_bind, wp_lift, (law_data (low s) v from b x); [done|done|].
  apply wp_bind, wp_lift, (law_data (low s) v to b' y); [done|done|].
  apply wp_lift, (law_set (low s) v to b' y); [done|done|].
  rewrite take_ge by lia. rewrite splice_all by lia. done.
Qed.

Lemma wp_install_one g tail s v b (Q : unit -> lst S -> Prop) :
  let src := l_start g + Z.of_nat tail + 1 in
  rep (low s) v -> vheld v = ∅ -> lh_block (lg s) !! tail = Some b -> l_dev g = ROOTDEV ->
  0 <= src < fssize -> 0 <= b < fssize -> src <> b -> sized (vcache v) ->
  (size (vdirty v) < nbuf)%nat -> (b ∈ vdirty v \/ (1 + size (vdirty v) < nbuf)%nat) ->
  (forall t, rep t (v_write b (vcache v src) v) -> Q tt (with_low t s)) ->
  wp (install_one g tail) s Q.
Proof.
  intros src HR Hh Hb Hd Hsrc Hr Hne Hsz Hroom Hroom' HQ. unfold install_one.
  rewrite Hd. unfold fssize in *. rewrite !(u32_small (l_start g + _ + 1)) by (fold src; lia). fold src.
  apply wp_bind, wp_lift, (law_read (low s) v src); [done|done|by rewrite Hh|right; by rewrite Hh|].
  intros h t Hn Ht.
  apply wp_bind, (wp_lh_get tail (with_low t s) b); [done|]. rewrite u32_small by lia.
  apply wp_bind, wp_lift, (law_read _ _ b _ Ht); [done| | |].
  { intros k x. simpl. rewrite lookup_insert, Hh. case_decide; [congruence|done]. }
  { simpl. rewrite Hh. rewrite map_size_insert_None, map_size_empty by done. destruct Hroom'; [by left|right; lia]. }
  intros h' t' Hn' Ht'. simpl in Hn'. rewrite lookup_insert_None in Hn'. destruct Hn' as [_ Hhh].
  apply wp_bind, (wp_copy_block h' h (with_low t' (with_low t s)) _ src b (vcache v src) (vcache v b) _ Ht'); [ | |by apply Hsz|by apply Hsz|].
  { simpl. rewrite lookup_insert_ne by done. apply lookup_insert_eq. }
  { simpl. apply lookup_insert_eq. }
  intros t2 Ht2.
  apply wp_bind, wp_lift, (law_write _ _ h' b (vcache v src) _ Ht2); [done|simpl; apply lookup_insert_eq|].
  intros t3 Ht3.
  apply wp_bind, wp_lift, (law_release _ _ h src (vcache v src) _ Ht3); [ | |].
  { simpl. rewrite !lookup_insert_ne by done. apply lookup_insert_eq. }
  { simpl. by rewrite fupd_ne. }
  intros t4 Ht4.
  apply wp_lift, (law_release _ _ h' b (vcache v src) _ Ht4); [ | |].
  { simpl. rewrite lookup_delete_ne by done. apply lookup_insert_eq. }
  { simpl. by rewrite fupd_eq. }
  intros t5 Ht5. rewrite v_copy in Ht5 by done. by apply HQ.
Qed.

Lemma wp_log_one g tail s v b (Q : unit -> lst S -> Prop) :
  let dst := l_start g + Z.of_nat tail + 1 in
  rep (low s) v -> vheld v = ∅ -> lh_block (lg s) !! tail = Some b -> l_dev g = ROOTDEV ->
  0 <= dst < fssize -> 0 <= b < fssize -> dst <> b -> sized (vcache v) ->
  (size (vdirty v) < nbuf)%nat -> b ∈ vdirty v ->
  (forall t, rep t (v_write dst (vcache v b) v) -> Q tt (with_low t s)) ->
  wp (log_one g tail) s Q.
Proof.
  intros dst HR Hh Hb Hd Hdst Hr Hne Hsz Hroom Hdirty HQ. unfold log_one.
  rewrite Hd. unfold fssize in *. rewrite !(u32_small (l_start g + _ + 1)) by (fold dst; lia). fold dst.
  apply wp_bind, wp_lift, (law_read (low s) v dst); [done|done|by rewrite Hh|right; by rewrite Hh|].
  intros h t Hn Ht.
  apply wp_bind, (wp_lh_get tail (with_low t s) b); [done|]. rewrite u32_small by lia.
  apply wp_bind, wp_lift, (law_read _ _ b _ Ht); [done| |by left|].
  { intros k x. simpl. rewrite lookup_insert, Hh. case_decide; [congruence|done]. }
  intros h' t' Hn' Ht'. simpl in Hn'. rewrite lookup_insert_None in Hn'. destruct Hn' as [_ Hhh].
  apply wp_bind, (wp_copy_block h h' (with_low t' (with_low t s)) _ b dst (vcache v b) (vcache v dst) _ Ht'); [ | |by apply Hsz|by apply Hsz|].
  { simpl. apply lookup_insert_eq. }
  { simpl. rewrite lookup_insert_ne by done. apply lookup_insert_eq. }
  intros t2 Ht2.
  apply wp_bind, wp_lift, (law_write _ _ h dst (vcache v b) _ Ht2); [done|simpl; apply lookup_insert_eq|].
  intros t3 Ht3.
  apply wp_bind, wp_lift, (law_release _ _ h' b (vcache v b) _ Ht3); [ | |].
  { simpl. rewrite lookup_insert_ne by done. apply lookup_insert_eq. }
  { simpl. rewrite fupd_ne by done. done. }
  intros t4 Ht4.
  apply wp_lift, (law_release _ _ h dst (vcache v b) _ Ht4); [ | |].
  { simpl. rewrite lookup_delete_ne by done. apply lookup_insert_eq. }
  { simpl. by rewrite fupd_eq. }
  intros t5 Ht5. apply HQ. cut (v_write dst (vcache v b) v =
    v_drop h (v_drop h' (v_write dst (vcache v b) (v_hold h dst (vcache v b) (v_hold h' b (vcache v b)
      (v_hold h dst (vcache v dst) v)))))); [by intros ->|].
  symmetry. by apply v_copy'.
Qed.

Lemma wf_lookup g bl i b : log_wf g bl -> bl !! i = Some b -> lh_block g !! i = Some b.
Proof.
  intros Hwf Hi. pose proof (lookup_lt_Some _ _ _ Hi). rewrite <- (wf_bl g bl Hwf), lookup_take_lt in Hi by done.
  done.
Qed.

(** write_log copies each block of the transaction to its place in the log. *)
Lemma wp_write_log s v bl (Q : unit -> lst S -> Prop) :
  rep (low s) v -> vheld v = ∅ -> log_wf (lg s) bl -> sized (vcache v) ->
  (size (vdirty v) < nbuf)%nat -> (forall b, b ∈ bl -> b ∈ vdirty v) ->
  (forall t, rep t (vwrites (log_writes (l_start (lg s)) bl (vcache v)) v) -> Q tt (with_low t s)) ->
  wp write_log s Q.
Proof.
  intros HR Hh Hwf Hsz Hroom Hdirty HQ. set (ws := log_writes (l_start (lg s)) bl (vcache v)) in *.
  assert (length ws = length bl) as Hlen by apply length_imap.
  assert (forall b, b ∈ bl -> b ∉ fst <$> ws) as Hout.
  { intros b Hb Hin. apply fst_log_writes in Hin.
    pose proof (wf_home _ _ Hwf) as HF. rewrite Forall_forall in HF. destruct (HF b Hb) as [_ Hn].
    pose proof (wf_fits _ _ Hwf). apply Hn. lia. }
  apply wp_bind, wp_gets. rewrite (wf_n _ _ Hwf), Nat2Z.id.
  apply (wp_for (fun i s' => exists t, s' = with_low t s /\ rep t (vwrites (take i ws) v))).
  - exists (low s). split; [by destruct s|done].
  - intros i s' Hi (t & -> & Ht). destruct (lookup_lt_is_Some_2 bl i) as [b Hb]; [lia|].
    assert (b ∈ bl) as Hbl by by eapply list_elem_of_lookup_2.
    pose proof (wf_home _ _ Hwf) as HF. rewrite Forall_forall in HF. destruct (HF b Hbl) as [Hr Hn].
    pose proof (wf_fits _ _ Hwf). destruct (wf_area _ _ Hwf) as (? & ? & ?).
    assert (vcache (vwrites (take i ws) v) b = vcache v b) as Hc.
    { rewrite vwrites_cache. apply disk_after_take. by apply Hout. }
    apply (wp_log_one _ i _ (vwrites (take i ws) v) b); try done.
    + by rewrite vwrites_held.
    + by eapply wf_lookup.
    + apply Hwf.
    + lia.
    + intros <-. apply Hn. lia.
    + rewrite vwrites_cache. apply sized_after; [done|]. by apply Forall_take, sized_log_writes.
    + pose proof (vwrites_dirty_size (take i ws) v). lia.
    + apply vwrites_dirty. split; [by apply Hdirty|]. intros Hin. apply (Hout b Hbl).
      rewrite fmap_take in Hin. eapply elem_of_take in Hin as (? & ? & _). by eapply list_elem_of_lookup_2.
    + intros t' Ht'. exists t'. split; [done|]. rewrite (vwrites_snoc ws v i (l_start (lg s) + Z.of_nat i + 1) (vcache v b)).
      * by rewrite Hc in Ht'.
      * unfold ws, log_writes. by rewrite list_lookup_imap, Hb.
  - intros s' (t & -> & Ht). apply HQ. by rewrite take_ge in Ht by (simpl; lia).
Qed.

(** install_trans copies each logged block to its home. *)
Lemma wp_install_trans s v bl (Q : unit -> lst S -> Prop) :
  rep (low s) v -> vheld v = ∅ -> log_wf (lg s) bl -> sized (vcache v) ->
  (size (vdirty v) < nbuf)%nat ->
  (NoDup bl /\ (forall b, b ∈ bl -> b ∈ vdirty v) \/ (1 + size (vdirty v) < nbuf)%nat) ->
  (forall t, rep t (vwrites (logged (l_start (lg s)) bl (vcache v)) v) -> Q tt (with_low t s)) ->
  wp install_trans s Q.
Proof.
  intros HR Hh Hwf Hsz Hroom Hdirty HQ. set (ws := logged (l_start (lg s)) bl (vcache v)) in *.
  assert (length ws = length bl) as Hlen by apply length_imap.
  assert (fst <$> ws = bl) as Hfst by apply fst_logged.
  apply wp_bind, wp_gets. rewrite (wf_n _ _ Hwf), Nat2Z.id.
  apply (wp_for (fun i s' => exists t, s' = with_low t s /\ rep t (vwrites (take i ws) v))).
  - exists (low s). split; [by destruct s|done].
  - intros i s' Hi (t & -> & Ht). destruct (lookup_lt_is_Some_2 bl i) as [b Hb]; [lia|].
    assert (b ∈ bl) as Hbl by by eapply list_elem_of_lookup_2.
    pose proof (wf_home _ _ Hwf) as HF. rewrite Forall_forall in HF. destruct (HF b Hbl) as [Hr Hn].
    pose proof (wf_fits _ _ Hwf). destruct (wf_area _ _ Hwf) as (? & ? & ?).
    set (src := l_start (lg s) + Z.of_nat i + 1).
    assert (vcache (vwrites (take i ws) v) src = vcache v src) as Hc.
    { rewrite vwrites_cache. apply disk_after_take. rewrite Hfst. intros Hin.
      destruct (HF src Hin) as [_ Hn']. apply Hn'. lia. }
    pose proof (vwrites_dirty_size (take i ws) v).
    apply (wp_install_one _ i _ (vwrites (take i ws) v) b); try done.
    + by rewrite vwrites_held.
    + by eapply wf_lookup.
    + apply Hwf.
    + fold src. unfold src. lia.
    + intros <-. apply Hn. lia.
    + rewrite vwrites_cache. apply sized_after; [done|]. by apply Forall_take, sized_logged.
    + lia.
    + destruct Hdirty as [[HN Hd]|Hd]; [left|right; lia].
      apply vwrites_dirty. split; [by apply Hd|]. rewrite fmap_take, Hfst. intros Hin.
      eapply elem_of_take in Hin as (j & Hj & Hji). rewrite NoDup_alt in HN.
      specialize (HN _ _ _ Hb Hj). lia.
    + intros t' Ht'. exists t'. split; [done|]. rewrite (vwrites_snoc ws v i b (vcache v src)).
      * fold src in Ht'. by rewrite Hc in Ht'.
      * unfold ws, logged. by rewrite list_lookup_imap, Hb.
  - intros s' (t & -> & Ht). apply HQ. by rewrite take_ge in Ht by (simpl; lia).
Qed.

(** write_head writes the header of the current transaction. *)
Lemma wp_write_head s v bl (Q : unit -> lst S -> Prop) :
  rep (low s) v -> vheld v = ∅ -> log_wf (lg s) bl -> (size (vdirty v) < nbuf)%nat ->
  let start := l_start (lg s) in
  (forall t, rep t (v_write start (head_bytes bl (vcache v start)) v) -> Q tt (with_low t s)) ->
  wp write_head s Q.
Proof.
  intros HR Hh Hwf Hroom start HQ. destruct (wf_area _ _ Hwf) as (Hs1 & Hs2 & Hs3). fold start in Hs1, Hs3.
  apply wp_bind, wp_gets. rewrite (wf_dev _ _ Hwf). fold start.
  unfold fssize in Hs3. rewrite u32_small by lia.
  apply wp_bind, wp_lift, (law_read _ _ start _ HR); [unfold fssize; lia|by rewrite Hh|right; by rewrite Hh|].
  intros h t Hn Ht.
  apply wp_bind, wp_lift, (law_data _ _ h start (vcache v start) _ Ht); [simpl; apply lookup_insert_eq|].
  rewrite (wf_n _ _ Hwf), Nat2Z.id, (wf_bl _ _ Hwf).
  assert (length bl <= length (lh_block (lg s)))%nat as Hle.
  { rewrite <- (wf_bl _ _ Hwf) at 1. rewrite length_take. lia. }
  replace (Z.of_nat (length (lh_block (lg s))) <? Z.of_nat (length bl)) with false by lia.
  fold (head_bytes bl (vcache v start)).
  apply wp_bind, wp_lift, (law_set _ _ h start (vcache v start) _ _ Ht); [simpl; apply lookup_insert_eq|].
  intros t1 Ht1.
  apply wp_bind, wp_lift, (law_write _ _ h start (head_bytes bl (vcache v start)) _ Ht1); [unfold fssize; lia|simpl; apply lookup_insert_eq|].
  intros t2 Ht2.
  apply wp_lift, (law_release _ _ h start (head_bytes bl (vcache v start)) _ Ht2); [simpl; apply lookup_insert_eq|simpl; apply fupd_eq|].
  intros t3 Ht3. apply HQ. cut (v_drop h (v_write start (head_bytes bl (vcache v start))
    (v_hold h start (head_bytes bl (vcache v start)) (v_hold h start (vcache v start) v))) =
    v_write start (head_bytes bl (vcache v start)) v); [by intros <-|].
  destruct v as [d c hd di tr]. unfold v_drop, v_hold, v_write. simpl in *. f_equal.
  rewrite insert_insert_eq. by rewrite delete_insert_id by done.
Qed.

(** read_head loads the transaction the header block describes. *)
Lemma wp_read_head s v (Q : unit -> lst S -> Prop) :
  let start := l_start (lg s) in
  let bl := hdr_blocks (vcache v start) in
  rep (low s) v -> vheld v = ∅ -> l_dev (lg s) = ROOTDEV -> area start (l_size (lg s)) ->
  (size (vdirty v) < nbuf)%nat -> length (lh_block (lg s)) = Z.to_nat LOGSIZE ->
  0 <= s32 (get32 (vcache v start) 0) <= LOGSIZE ->
  (forall t g, rep t v -> lh_n g = Z.of_nat (length bl) -> length (lh_block g) = Z.to_nat LOGSIZE ->
     take (length bl) (lh_block g) = bl -> g = set_lh (lh_n g) (lh_block g) (lg s) ->
     Q tt (mkLst g t)) ->
  wp read_head s Q.
Proof.
  intros start bl HR Hh Hd Ha Hroom Harr Hn HQ. destruct Ha as (Hs1 & Hs2 & Hs3). unfold fssize in Hs3.
  apply wp_bind, wp_gets. rewrite Hd. fold start. rewrite u32_small by lia.
  apply wp_bind, wp_lift, (law_read _ _ start _ HR); [unfold fssize; lia|by rewrite Hh|right; by rewrite Hh|].
  intros h t Hn' Ht.
  apply wp_bind, wp_lift, (law_data _ _ h start (vcache v start) _ Ht); [simpl; apply lookup_insert_eq|].
  apply wp_bind, wp_modlog. set (d := vcache v start) in *. set (n := s32 (get32 d 0)) in *.
  assert (length bl = Z.to_nat n) as Hbl.
  { unfold bl, hdr_blocks. by rewrite length_fmap, length_seq. }
  apply wp_bind.
  apply (wp_for (fun i s' => exists a, s' = mkLst (set_lh n a (lg s)) t /\
    length a = Z.to_nat LOGSIZE /\ take i a = take i bl)).
  - by exists (lh_block (lg s)).
  - intros i s' Hi (a & -> & Hla & Hta). unfold LOGSIZE, MAXOPBLOCKS in *.
    destruct (lookup_lt_is_Some_2 a i) as [x Hx]; [lia|].
    apply wp_bind, (wp_lh_get i _ x); [done|]. apply wp_modlog. eexists. split; [done|].
    split; [by rewrite length_insert|].
    assert (bl !! i = Some (s32 (get32 d (4 + 4 * i)))) as Hbi.
    { unfold bl, hdr_blocks. rewrite list_lookup_fmap. fold d. unfold hdr_n. fold n.
      by rewrite lookup_seq_lt by lia. }
    cbn [lg lh_block set_lh]. rewrite (take_S_r bl i _ Hbi). erewrite take_S_r by (apply list_lookup_insert_eq; lia).
    rewrite take_insert_ge by lia. by rewrite Hta.
  - intros s' (a & -> & Hla & Hta). simpl in Hta. rewrite <- Hbl in Hta. rewrite (take_ge bl) in Hta by done.
    apply wp_lift, (law_release _ _ h start d _ Ht); [simpl; apply lookup_insert_eq|done|].
    intros t' Ht'. rewrite v_drop_hold in Ht' by done. apply HQ; simpl; try done. lia.
Qed.

(** The log between transactions. *)
Lemma log_wf_nil g bl : log_wf g bl -> log_wf (set_lh 0 (lh_block g) g) [].
Proof.
  intros Hwf. destruct (wf_area _ _ Hwf) as (? & ? & ?).
  constructor; simpl; try done; try apply Hwf. lia.
Qed.

Lemma wp_recover s d (Q : unit -> lst S -> Prop) :
  let start := l_start (lg s) in
  rep (low s) (bview0 d) -> l_dev (lg s) = ROOTDEV -> length (lh_block (lg s)) = Z.to_nat LOGSIZE ->
  disk_ok start (l_size (lg s)) d ->
  (forall t g, rep t (vwrites (rec_writes start d) (bview0 d)) -> log_wf g [] ->
     g = set_lh 0 (lh_block g) (lg s) -> Q tt (mkLst g t)) ->
  wp recover_from_log s Q.
Proof.
  intros start HR Hd Harr Hok HQ. destruct Hok as [Ha Hsz Hn Hfits Hhome]. pose proof (bview0_room d).
  apply wp_bind, (wp_read_head s (bview0 d)); [done|done|done|done|lia|done|done|].
  intros t g Ht Hgn Hga Hgt Hg. simpl in Hgn, Hgt. fold start in Hgn, Hgt.
  set (bl := hdr_blocks (d start)) in *.
  assert (l_start g = start) as Hst by by rewrite Hg.
  assert (l_size g = l_size (lg s)) as Hsi by by rewrite Hg.
  assert (log_wf g bl) as Hwf.
  { constructor; rewrite ?Hst, ?Hsi; try done. by rewrite Hg. }
  apply wp_bind, (wp_install_trans (mkLst g t) (bview0 d) bl);
    [done|done|done|done|lia|right; lia|].
  simpl. rewrite Hst. intros t1 Ht1. apply wp_bind, wp_modlog.
  pose proof (log_wf_nil g bl Hwf) as Hwf0.
  eapply (wp_write_head _ _ []); [exact Ht1|by rewrite vwrites_held|done| |].
  { pose proof (vwrites_dirty_size (logged start bl d) (bview0 d)). lia. }
  simpl. rewrite Hst, vwrites_cache. intros t2 Ht2. apply HQ; [|done|simpl; by rewrite Hg].
  unfold rec_writes. rewrite vwrites_app. fold bl. simpl.
  rewrite disk_after_ne in Ht2; [done|]. rewrite fst_logged. intros Hin.
  rewrite Forall_forall in Hhome. destruct (Hhome _ Hin) as [_ Hno]. destruct Ha as (? & ? & ?). apply Hno. lia.
Qed.

Lemma wp_commit s v bl (Q : unit -> lst S -> Prop) :
  let start := l_start (lg s) in
  rep (low s) v -> vheld v = ∅ -> log_wf (lg s) bl -> NoDup bl -> bl <> [] -> sized (vcache v) ->
  (size (vdirty v) < nbuf)%nat -> (forall b, b ∈ bl -> b ∈ vdirty v) ->
  (forall t g, rep t (vwrites (commit_writes start bl (vcache v)) v) -> log_wf g [] ->
     g = set_lh 0 (lh_block g) (lg s) -> Q tt (mkLst g t)) ->
  wp commit s Q.
Proof.
  intros start HR Hh Hwf HND Hne Hsz Hroom Hdirty HQ.
  destruct (wf_area _ _ Hwf) as (Ha1 & Ha2 & Ha3). fold start in Ha1, Ha3.
  pose proof (wf_home _ _ Hwf) as Hhome. rewrite Forall_forall in Hhome. pose proof (wf_fits _ _ Hwf) as Hfits.
  apply wp_bind, wp_gets. rewrite (wf_n _ _ Hwf).
  assert (0 < length bl)%nat by (destruct bl; [done|simpl; lia]).
  replace (0 <? Z.of_nat (length bl)) with true by lia. cbn [when].
  apply wp_bind, (wp_write_log s v bl); try done. intros t1 Ht1. fold start in Ht1.
  set (lw := log_writes start bl (vcache v)) in *.
  assert (start ∉ fst <$> lw) as Hnst.
  { intros Hin. apply fst_log_writes in Hin. lia. }
  assert (forall b, b ∈ bl -> b ∉ fst <$> lw) as Hnbl.
  { intros b Hb Hin. apply fst_log_writes in Hin. destruct (Hhome b Hb) as [_ Hno]. apply Hno. fold start. lia. }
  apply wp_bind, (wp_write_head (with_low t1 s) _ bl _ Ht1); [by rewrite vwrites_held|done| |].
  { pose proof (vwrites_dirty_size lw v). lia. }
  change (l_start (lg (with_low t1 s))) with start. rewrite vwrites_cache, disk_after_ne by done.
  intros t2 Ht2. set (hb := head_bytes bl (vcache v start)) in *.
  apply wp_bind, (wp_install_trans (with_low t2 (with_low t1 s)) _ bl _ Ht2).
  - simpl. by rewrite vwrites_held.
  - done.
  - simpl. rewrite vwrites_cache. intros b. unfold fupd. case_bool_decide.
    + apply head_bytes_spec; [apply Hsz| |].
      * rewrite <- (wf_bl _ _ Hwf), length_take, (wf_arr _ _ Hwf). unfold LOGSIZE, MAXOPBLOCKS. lia.
      * apply Forall_forall. intros x Hx. by apply Hhome.
    + apply sized_after; [done|by apply sized_log_writes].
  - simpl. assert (size (vdirty (vwrites lw v) ∖ {[start]}) <= size (vdirty (vwrites lw v)))%nat.
    { apply subseteq_size. intros b Hb. by apply elem_of_difference in Hb as [? _]. }
    pose proof (vwrites_dirty_size lw v). lia.
  - left. split; [done|]. intros b Hb. simpl. apply elem_of_difference. rewrite elem_of_singleton. split.
    + apply vwrites_dirty. auto.
    + intros ->. destruct (Hhome start Hb) as [_ Hno]. apply Hno. fold start. lia.
  - intros t3. change (l_start (lg (with_low t2 (with_low t1 s)))) with start.
    assert (logged start bl (vcache (v_write start hb (vwrites lw v))) = (fun b => (b, vcache v b)) <$> bl) as Hlog.
    { unfold logged. rewrite <- imap_const. apply imap_ext. intros i b Hb. simpl. f_equal.
      rewrite fupd_ne by lia. rewrite vwrites_cache. by apply log_writes_at. }
    rewrite Hlog. intros Ht3. apply wp_bind, wp_modlog.
    eapply (wp_write_head _ _ []); [exact Ht3| | | |].
    + by rewrite vwrites_held; simpl; rewrite vwrites_held.
    + by eapply log_wf_nil.
    + pose proof (vwrites_dirty_size ((fun b => (b, vcache v b)) <$> bl) (v_write start hb (vwrites lw v))) as Hd1.
      simpl in Hd1. assert (size (vdirty (vwrites lw v) ∖ {[start]}) <= size (vdirty (vwrites lw v)))%nat.
      { apply subseteq_size. intros b Hb. by apply elem_of_difference in Hb as [? _]. }
      pose proof (vwrites_dirty_size lw v). lia.
    + intros t4. simpl. fold start. rewrite vwrites_cache, disk_after_ne.
      2:{ rewrite fst_pairs. intros Hb. destruct (Hhome start Hb) as [_ Hno]. apply Hno. fold start. lia. }
      simpl. rewrite fupd_eq. intros Ht4. apply HQ; [|by eapply log_wf_nil|done].
      unfold commit_writes. rewrite !vwrites_app. done.
Qed.

End wps.

(** * Crash safety *)

Lemma disk_after_in d d' ws b : b ∈ fst <$> ws -> disk_after d ws b = disk_after d' ws b.
Proof.
  revert d d'. induction ws as [|[b' x] ws IH]; intros d d' Hb; [by apply not_elem_of_nil in Hb|].
  change (disk_after (fupd d b' x) ws b = disk_after (fupd d' b' x) ws b).
  destruct (decide (b ∈ fst <$> ws)) as [Hin|Hn]; [by apply IH|].
  rewrite !disk_after_ne by done. cbn [fmap list_fmap fst] in Hb.
  apply elem_of_cons in Hb as [->|?]; [by rewrite !fupd_eq|done].
Qed.

(** Writing again what was partly written changes nothing. *)
Lemma disk_after_again d ws k b : disk_after (disk_after d (take k ws)) ws b = disk_after d ws b.
Proof.
  destruct (decide (b ∈ fst <$> ws)) as [Hin|Hn]; [by apply disk_after_in|].
  rewrite !disk_after_ne; [done|done| |done]. rewrite fmap_take. intros Hi. apply Hn.
  eapply elem_of_take in Hi as (? & ? & _). by eapply list_elem_of_lookup_2.
Qed.

Lemma disk_after_pairs (c : Z -> list Z) (bl : list Z) b d :
  b ∈ bl -> disk_after d ((fun b => (b, c b)) <$> bl) b = c b.
Proof.
  intros Hin. induction bl as [|x bl IH] using rev_ind; [by apply not_elem_of_nil in Hin|].
  rewrite fmap_app, disk_after_app. simpl. destruct (decide (b = x)) as [->|Hne]; [apply fupd_eq|].
  rewrite fupd_ne by done. apply IH. apply elem_of_app in Hin as [?|Hx]; [done|].
  by apply list_elem_of_singleton in Hx.
Qed.

Lemma hdr_empty d : length d = Z.to_nat BSIZE -> s32 (get32 (head_bytes [] d) 0) = 0 /\ hdr_blocks (head_bytes [] d) = [].
Proof.
  intros Hd. destruct (head_bytes_spec [] d Hd) as [_ Hh]; [done|done|]. split; [|done].
  unfold head_bytes. simpl. rewrite get32_put32_eq; [done|]. rewrite Hd. change (Z.to_nat BSIZE) with 512%nat. lia.
Qed.

(** A disk with an empty header holds what it holds. *)
Lemma durable_empty start d b : hdr_blocks (d start) = [] -> durable start d b = d b.
Proof. intros Hh. unfold durable. by rewrite Hh. Qed.

Section crash.
Context (start sz : Z).

(** A crash during recovery: some of its writes were made. *)
Definition rec_crash (d d' : Z -> list Z) : Prop :=
  exists k, d' = disk_after d (take k (rec_writes start d)).

Lemma rec_crash_durable d d' b :
  disk_ok start sz d -> rec_crash d d' -> home start sz b ->
  durable start d' b = durable start d b.
Proof.
  intros [(Ha1 & Ha2 & Ha3) Hsz Hn Hfits Hhome] [k ->] Hb. rewrite Forall_forall in Hhome.
  set (bl := hdr_blocks (d start)) in *. set (W := logged start bl d).
  assert (fst <$> W = bl) as HW by apply fst_logged.
  assert (forall i, 0 <= i < sz -> start + i ∉ fst <$> W) as Hlog.
  { intros i Hi. rewrite HW. intros Hin. destruct (Hhome _ Hin) as [_ Hno]. apply Hno. lia. }
  unfold rec_writes. fold bl W. destruct (decide (k <= length W)%nat) as [Hk|Hk].
  - rewrite take_app_le by done. unfold durable.
    rewrite (disk_after_take d W start) by (rewrite <- (Z.add_0_r start); apply Hlog; lia). fold bl.
    rewrite (logged_ext start bl (disk_after d (take k W)) d).
    + apply disk_after_again.
    + intros i Hi. apply disk_after_take. rewrite <- Z.add_assoc. apply Hlog. lia.
  - rewrite take_ge by (rewrite length_app; simpl; lia). rewrite disk_after_app. simpl.
    rewrite durable_empty by (rewrite fupd_eq; by apply hdr_empty).
    rewrite fupd_ne; [done|]. rewrite <- (Z.add_0_r start). eapply home_not_area; [done|lia].
Qed.

Lemma rec_crash_ok d d' : disk_ok start sz d -> rec_crash d d' -> disk_ok start sz d'.
Proof.
  intros [(Ha1 & Ha2 & Ha3) Hsz Hn Hfits Hhome] [k ->]. pose proof Hhome as HF. rewrite Forall_forall in HF.
  assert (start ∉ fst <$> logged start (hdr_blocks (d start)) d) as Hlog.
  { rewrite fst_logged. intros Hin. destruct (HF _ Hin) as [_ Hno]. apply Hno. lia. }
  assert (Forall (fun w => length (snd w) = Z.to_nat BSIZE) (rec_writes start d)) as HS.
  { apply Forall_app_2; [by apply sized_logged|]. constructor; [|done]. by apply head_bytes_spec. }
  unfold rec_writes in *. set (W := logged start (hdr_blocks (d start)) d) in *.
  assert (sized (disk_after d (take k (W ++ [(start, head_bytes [] (d start))])))) as Hsz'.
  { apply sized_after; [done|]. by apply Forall_take. }
  destruct (decide (k <= length W)%nat) as [Hk|Hk].
  - rewrite take_app_le in * by done.
    constructor; rewrite ?(disk_after_take d W start) by done; try done.
  - rewrite take_ge in * by (rewrite length_app; simpl; lia). rewrite disk_after_app in *. simpl in *.
    destruct (hdr_empty (d start) (Hsz start)) as [H0 Hb].
    constructor; rewrite ?fupd_eq, ?H0, ?Hb; try done. simpl. lia.
Qed.

Lemma rec_crashes d d' b :
  disk_ok start sz d -> rtc rec_crash d d' -> home start sz b ->
  disk_ok start sz d' /\ durable start d' b = durable start d b.
Proof.
  intros Hok Hr Hb. induction Hr as [d|d d1 d2 H1 Hr IH]; [done|].
  destruct (IH (rec_crash_ok _ _ Hok H1)) as [Hok2 Hd2]. split; [done|].
  rewrite Hd2. by apply rec_crash_durable.
Qed.

(** Recovery leaves on disk what was durable. *)
Lemma rec_done d b :
  disk_ok start sz d -> home start sz b -> disk_after d (rec_writes start d) b = durable start d b.
Proof.
  intros [(Ha1 & Ha2 & Ha3) Hsz Hn Hfits Hhome] Hb. unfold rec_writes. rewrite disk_after_app. simpl.
  rewrite fupd_ne; [done|]. rewrite <- (Z.add_0_r start). eapply home_not_area; [done|lia].
Qed.

(** The disk while commit runs: the old contents until the header is written,
    the new ones from then on. *)
Lemma commit_crash d c bl k :
  area start sz -> Forall (home start sz) bl -> Z.of_nat (length bl) < sz -> Z.of_nat (length bl) <= LOGSIZE ->
  sized d -> sized c -> s32 (get32 (d start) 0) = 0 -> (forall b, b ∉ bl -> c b = d b) ->
  let dk := disk_after d (take k (commit_writes start bl c)) in
  disk_ok start sz dk /\ forall b, home start sz b ->
    durable start dk b = if decide (k <= length bl)%nat then d b else c b.
Proof.
  intros (Ha1 & Ha2 & Ha3) Hhome Hfits HL Hsd Hsc H0 Hclean dk. subst dk.
  pose proof Hhome as HF. rewrite Forall_forall in HF.
  assert (hdr_blocks (d start) = []) as Hnil.
  { unfold hdr_blocks, hdr_n. by rewrite H0. }
  assert (start ∉ bl) as Hsbl.
  { intros Hin. destruct (HF _ Hin) as [_ Hno]. apply Hno. lia. }
  set (lw := log_writes start bl c).
  assert (length lw = length bl) as Hlw by apply length_imap.
  assert (start ∉ fst <$> lw) as Hs1 by (intros Hin; apply fst_log_writes in Hin; lia).
  assert (forall x, home start sz x -> x ∉ fst <$> lw) as Hx1.
  { intros x [_ Hx] Hin. apply fst_log_writes in Hin. apply Hx. lia. }
  unfold commit_writes. fold lw. case_decide as Hk.
  - rewrite take_app_le by lia. split.
    + assert (sized (disk_after d (take k lw))) by (apply sized_after; [done|]; by apply Forall_take, sized_log_writes).
      constructor; rewrite ?(disk_after_take d lw start), ?H0, ?Hnil by done; try done. simpl. lia.
    + intros b Hb. rewrite durable_empty by by rewrite disk_after_take. apply disk_after_take. by apply Hx1.
  - set (hb := head_bytes bl (c start)). set (d1 := disk_after d (lw ++ [(start, hb)])).
    destruct (head_bytes_spec bl (c start)) as [Hhl Hhb]; [done|done| |].
    { apply Forall_forall. intros x Hx. by apply HF. }
    fold hb in Hhl, Hhb.
    assert (d1 start = hb) as Hd1 by (unfold d1; rewrite disk_after_app; apply fupd_eq).
    assert (sized d1) as Hsd1.
    { apply sized_after; [done|]. apply Forall_app_2; [by apply sized_log_writes|by constructor]. }
    assert (disk_ok start sz d1) as Hok1.
    { constructor; rewrite ?Hd1, ?Hhb; try done. unfold hb, head_bytes.
      destruct (put_blocks_spec bl 0 (put32 (c start) 0 (Z.of_nat (length bl)))) as (_ & H2 & _).
      - rewrite length_put32, Hsc by (rewrite Hsc; change (Z.to_nat BSIZE) with 512%nat; lia).
        unfold LOGSIZE, MAXOPBLOCKS in HL. change (Z.to_nat BSIZE) with 512%nat. lia.
      - rewrite H2 by lia. rewrite get32_put32_eq by (rewrite Hsc; change (Z.to_nat BSIZE) with 512%nat; lia).
        unfold LOGSIZE, MAXOPBLOCKS in *. rewrite u32_small, s32_small by lia. lia. }
    assert (logged start bl d1 = (fun b => (b, c b)) <$> bl) as Hlog.
    { unfold logged. rewrite <- imap_const. apply imap_ext. intros i x Hx. simpl. f_equal.
      unfold d1. rewrite disk_after_app. simpl. rewrite fupd_ne by lia. by apply log_writes_at. }
    assert (rec_crash d1 (disk_after d (take k (lw ++ [(start, hb)] ++
      ((fun b => (b, c b)) <$> bl) ++ [(start, head_bytes [] hb)])))) as Hcr.
    { exists (k - S (length lw))%nat. rewrite app_assoc, take_app, disk_after_app.
      rewrite take_ge by (rewrite length_app; simpl; lia). fold d1. unfold rec_writes.
      rewrite Hd1, Hhb, Hlog. rewrite length_app. simpl. by rewrite Nat.add_1_r. }
    split; [by eapply rec_crash_ok|]. intros b Hb. rewrite (rec_crash_durable _ _ _ Hok1 Hcr Hb).
    unfold durable. rewrite Hd1, Hhb, Hlog.
    destruct (decide (b ∈ bl)) as [Hin|Hnin].
    + by apply disk_after_pairs.
    + rewrite disk_after_ne by by rewrite fst_pairs. unfold d1. rewrite disk_after_app. simpl.
      rewrite fupd_ne by (rewrite <- (Z.add_0_r start); eapply home_not_area; [done|lia]).
      rewrite disk_after_ne by by apply Hx1. by rewrite Hclean.
Qed.

End crash.
