(* ===== verification/LogProps.v ===== *)
(** Properties of the log: what log_write, begin_op and end_op do to the
    transaction, atomicity of a commit whatever the crash, and recovery. *)

From stdpp Require Import gmap.
From S2P Require Import Prelude Codec Sleeplock Blocks Bio Layout Log.

(** Between the calls of log.c: the transaction [bl] is what is pinned, and
    the log on disk is empty. *)
Record log_inv {S} `{BufLaws S} (s : lst S) (v : bview) (bl : list Z) : Prop := {
  li_rep : rep (low s) v;
  li_wf : log_wf (lg s) bl;
  li_size : l_size (lg s) <= LOGSIZE;
  li_nodup : NoDup bl;
  li_dirty b : b ∈ vdirty v <-> b ∈ bl;
  li_cache : sized (vcache v);
  li_disk : sized (vdisk v);
  li_hdr : s32 (get32 (vdisk v (l_start (lg s))) 0) = 0;
  li_com : l_committing (lg s) = 0;
  li_out : 0 <= l_outstanding (lg s) }.

(** The transaction after log_write of block [b]. *)
Definition logs (bl : list Z) (b : Z) : list Z := if decide (b ∈ bl) then bl else bl ++ [b].

Lemma absorb_in bl b i : 
  Forall (fun c => 0 <= c < fssize) bl -> absorb bl b = i ->
  (i <= length bl)%nat /\ (b ∈ bl <-> (i < length bl)%nat) /\ ((i < length bl)%nat -> bl !! i = Some b).
Proof.
  intros HF. revert i. induction HF as [|c bl Hc HF IH]; intros i <-; simpl.
  - split_and!; [lia| |lia]. split; [intros Hb; by apply not_elem_of_nil in Hb|lia].
  - unfold fssize in Hc. rewrite u32_small by lia. destruct (c =? b) eqn:E.
    + apply Z.eqb_eq in E as ->. split_and!; [lia| |done]. split; [lia|left].
    + apply Z.eqb_neq in E. destruct (IH _ eq_refl) as (H1 & H2 & H3). split_and!; [lia| |].
      * rewrite elem_of_cons, H2. split; [intros [?|?]; [congruence|lia]|]. intros. right. lia.
      * intros Hi. apply H3. lia.
Qed.

Section props.
Context {S : Type} `{BL : BufLaws S}.
Implicit Types (s : lst S) (v : bview).

Lemma li_room s v bl : log_inv s v bl -> (size (vdirty v) < nbuf)%nat.
Proof.
  intros HI. assert (vdirty v = list_to_set bl) as ->.
  { apply set_eq. intros b. rewrite (li_dirty _ _ _ HI). by rewrite elem_of_list_to_set. }
  rewrite size_list_to_set by apply HI. pose proof (wf_fits _ _ (li_wf _ _ _ HI)). pose proof (li_size _ _ _ HI).
  unfold LOGSIZE, MAXOPBLOCKS, nbuf in *. lia.
Qed.

(** log_write records a block once and pins it. *)
Lemma log_write_spec s v bl h b x :
  log_inv s v bl -> vheld v !! h = Some (b, x) -> home (l_start (lg s)) (l_size (lg s)) b ->
  length x = Z.to_nat BSIZE -> 1 <= l_outstanding (lg s) -> lh_n (lg s) < l_size (lg s) - 1 ->
  exists s', log_write h s = Ok (tt, s') /\ log_inv s' (v_pin b x v) (logs bl b) /\
    lg s' = set_lh (lh_n (lg s')) (lh_block (lg s')) (lg s).
Proof.
  intros HI Hh Hb Hx Ho Hn. pose proof (li_wf _ _ _ HI) as Hwf.
  pose proof (wf_n _ _ Hwf) as Hln. pose proof (wf_arr _ _ Hwf) as Harr. pose proof (wf_bl _ _ Hwf) as Hbl.
  pose proof (li_size _ _ _ HI) as Hsi. pose proof (wf_home _ _ Hwf) as HF.
  destruct (absorb_in bl b _ ltac:(eapply Forall_impl; [exact HF|by intros ? []]) eq_refl) as (Hi1 & Hi2 & Hi3).
  set (i := absorb bl b) in *.
  assert (exists y, lh_block (lg s) !! i = Some y) as [y Hy].
  { apply lookup_lt_is_Some_2. rewrite Harr. unfold LOGSIZE, MAXOPBLOCKS in *. lia. }
  cut (wp (log_write h) s (fun _ s' => log_inv s' (v_pin b x v) (logs bl b) /\
    lg s' = set_lh (lh_n (lg s')) (lh_block (lg s')) (lg s))).
  { intros ([] & s' & H1 & H2). by exists s'. }
  apply wp_bind, wp_gets.
  replace (LOGSIZE <=? lh_n (lg s)) with false by lia. replace (l_size (lg s) - 1 <=? lh_n (lg s)) with false by lia.
  replace (l_outstanding (lg s) <? 1) with false by lia. cbn [orb].
  apply wp_bind, wp_lift, (law_blockno _ _ h b x _ (li_rep _ _ _ HI)); [done|].
  rewrite Hln, Nat2Z.id, Hbl. fold i. cbn zeta.
  apply wp_bind, (wp_lh_get i _ y); [done|]. apply wp_bind, wp_modlog.
  apply wp_lift. eapply (law_pin _ v h b x); [apply HI|done|]. intros t Ht. split; [|done].
  set (n' := if Z.of_nat i =? lh_n (lg s) then lh_n (lg s) + 1 else lh_n (lg s)).
  assert (s32 b = b) as Hsb. { destruct Hb as [Hb _]. unfold fssize in Hb. apply s32_small. lia. }
  assert (n' = Z.of_nat (length (logs bl b)) /\
    take (length (logs bl b)) (<[i := s32 b]> (lh_block (lg s))) = logs bl b) as [Hn' Ht'].
  { unfold n', logs. rewrite Hsb. destruct (decide (b ∈ bl)) as [Hin|Hnin].
    - pose proof (proj1 Hi2 Hin) as Hlt. replace (Z.of_nat i =? lh_n (lg s)) with false by lia. split; [done|].
      rewrite list_insert_id; [done|]. specialize (Hi3 Hlt). rewrite <- Hbl, lookup_take_lt in Hi3 by done. done.
    - assert (i = length bl) as Hil by (rewrite Hi2 in Hnin; lia).
      replace (Z.of_nat i =? lh_n (lg s)) with true by lia. rewrite length_app. simpl. split; [lia|].
      rewrite Hil, Nat.add_1_r. erewrite take_S_r by (apply list_lookup_insert_eq; apply lookup_lt_Some in Hy; lia).
      rewrite take_insert_ge by lia. by rewrite Hbl. }
  assert (Forall (home (l_start (lg s)) (l_size (lg s))) (logs bl b)) as HF'.
  { unfold logs. case_decide; [done|]. apply Forall_app. split; [done|by constructor]. }
  constructor; simpl; try apply HI; try done.
  - constructor; simpl; try apply Hwf; try done.
    + by rewrite length_insert.
    + assert (length (logs bl b) <= length bl + 1)%nat; [|lia].
      unfold logs. case_decide; [lia|]. rewrite length_app. simpl. lia.
  - unfold logs. case_decide; [apply HI|]. apply NoDup_app. split_and!; [apply HI| |apply NoDup_singleton].
    intros c Hc Hc'. apply list_elem_of_singleton in Hc' as ->. done.
  - intros c. rewrite elem_of_union, elem_of_singleton, (li_dirty _ _ _ HI). unfold logs. case_decide as D.
    + split; [intros [->|?]; done|]. auto.
    + rewrite elem_of_app, list_elem_of_singleton. tauto.
  - intros c. unfold fupd. case_bool_decide; [done|apply HI].
Qed.

(** The writes end_op makes when it commits. *)
Definition end_writes (start : Z) (bl : list Z) (c : Z -> list Z) : list (Z * list Z) :=
  match bl with
  | [] => []
  | _ => commit_writes start bl c
  end.

Lemma li_len s v bl : log_inv s v bl -> Z.of_nat (length bl) <= LOGSIZE.
Proof.
  intros HI. pose proof (li_wf _ _ _ HI) as Hwf.
  rewrite <- (wf_bl _ _ Hwf), length_take, (wf_arr _ _ Hwf). unfold LOGSIZE, MAXOPBLOCKS. lia.
Qed.

Lemma li_clean s v bl b : log_inv s v bl -> b ∉ bl -> vcache v b = vdisk v b.
Proof. intros HI Hb. eapply law_clean; [apply HI|]. by rewrite (li_dirty _ _ _ HI). Qed.

Lemma end_writes_crash s v bl k :
  log_inv s v bl ->
  let dk := disk_after (vdisk v) (take k (end_writes (l_start (lg s)) bl (vcache v))) in
  disk_ok (l_start (lg s)) (l_size (lg s)) dk /\
  forall b, home (l_start (lg s)) (l_size (lg s)) b ->
  durable (l_start (lg s)) dk b = if decide (k <= length bl)%nat then vdisk v b else vcache v b.
Proof.
  intros HI dk. pose proof (li_wf _ _ _ HI) as Hwf. destruct bl as [|b0 bl].
  - unfold dk, end_writes. rewrite take_nil. simpl.
    assert (hdr_blocks (vdisk v (l_start (lg s))) = []) as Hnil.
    { unfold hdr_blocks, hdr_n. by rewrite (li_hdr _ _ _ HI). }
    split.
    + constructor; rewrite ?Hnil, ?(li_hdr _ _ _ HI); try done; try apply Hwf. apply HI.
    + intros b Hb. rewrite durable_empty by done. case_decide; [done|]. symmetry.
      eapply li_clean; [done|]. apply not_elem_of_nil.
  - apply commit_crash; try apply Hwf; try apply HI; try done.
    + by eapply li_len.
    + intros b. by eapply li_clean.
Qed.

Lemma end_writes_header s v bl :
  log_inv s v bl ->
  let d := disk_after (vdisk v) (end_writes (l_start (lg s)) bl (vcache v)) in
  s32 (get32 (d (l_start (lg s))) 0) = 0 /\ hdr_blocks (d (l_start (lg s))) = [].
Proof.
  intros HI d. assert (s32 (get32 (d (l_start (lg s))) 0) = 0) as H0.
  { subst d. destruct bl as [|b0 bl]; [apply HI|]. unfold end_writes, commit_writes. rewrite !disk_after_app.
    cbn [disk_after fold_left fst snd]. rewrite fupd_eq. apply hdr_empty.
    pose proof (li_wf _ _ _ HI) as Hwf. apply head_bytes_spec; [apply HI|by eapply li_len|].
    eapply Forall_impl; [apply (wf_home _ _ Hwf)|by intros ? []]. }
  split; [done|]. unfold hdr_blocks, hdr_n. by rewrite H0.
Qed.

(** After end_op the disk has what the cache had. *)
Lemma log_inv_done s v bl t g :
  log_inv s v bl ->
  let v' := vwrites (end_writes (l_start (lg s)) bl (vcache v)) v in
  rep t v' -> log_wf g [] ->
  l_start g = l_start (lg s) -> l_size g = l_size (lg s) -> l_committing g = 0 -> 0 <= l_outstanding g ->
  log_inv (mkLst g t) v' [] /\ forall b, home (l_start (lg s)) (l_size (lg s)) b ->
    vdisk v' b = vcache v b /\ vcache v' b = vcache v b.
Proof.
  intros HI v' Ht Hwg Hst Hsi Hco Ho. set (ws := end_writes (l_start (lg s)) bl (vcache v)) in *.
  assert (forall b, b ∉ vdirty v') as Hclean.
  { intros b Hb. apply vwrites_dirty in Hb as [Hb Hn]. apply (li_dirty _ _ _ HI) in Hb. apply Hn.
    unfold ws, end_writes. destruct bl as [|b0 bl]; [by apply not_elem_of_nil in Hb|].
    unfold commit_writes. rewrite !fmap_app. apply elem_of_app. right. apply elem_of_app. right.
    apply elem_of_app. left. by rewrite fst_pairs. }
  assert (forall b, vcache v' b = vdisk v' b) as Hcd by (intros b; eapply law_clean; [exact Ht|done]).
  assert (vdisk v' = disk_after (vdisk v) ws) as Hvd by apply vwrites_disk.
  destruct (end_writes_crash s v bl (length ws) HI) as [Hok Hdur]. fold ws in Hok, Hdur. rewrite take_ge in Hok, Hdur by lia.
  destruct (end_writes_header s v bl HI) as [H0 Hnil]. fold ws in H0, Hnil. rewrite <- Hvd in *.
  split.
  - constructor; simpl; rewrite ?Hst, ?Hsi; try done.
    + apply HI.
    + constructor.
    + intros b. split; [by intros ?%Hclean|]. intros Hb. by apply not_elem_of_nil in Hb.
    + intros b. rewrite Hcd. apply Hok.
    + apply Hok.
  - intros b Hb. rewrite Hcd. cut (vdisk v' b = vcache v b); [done|].
    rewrite <- (durable_empty _ _ b Hnil). rewrite Hdur by done. case_decide as Hk; [|done].
    destruct bl as [|b0 bl]; [symmetry; eapply li_clean; [done|apply not_elem_of_nil]|].
    exfalso. unfold ws, end_writes, commit_writes in Hk. rewrite !length_app, length_fmap in Hk. simpl in Hk. lia.
Qed.

Lemma wp_end_op s v bl (Q : unit -> lst S -> Prop) :
  log_inv s v bl -> vheld v = ∅ -> l_outstanding (lg s) = 1 ->
  let v' := vwrites (end_writes (l_start (lg s)) bl (vcache v)) v in
  (forall s', rep (low s') v' -> log_wf (lg s') [] -> l_start (lg s') = l_start (lg s) ->
     l_size (lg s') = l_size (lg s) -> l_committing (lg s') = 0 -> l_outstanding (lg s') = 0 ->
     l_wakes (lg s') = Datatypes.S (l_wakes (lg s)) -> Q tt s') ->
  wp end_op s Q.
Proof.
  intros HI Hh Ho v' HQ. pose proof (li_wf _ _ _ HI) as Hwf. unfold end_op.
  apply wp_bind, wp_gets. rewrite Ho, (li_com _ _ _ HI). apply wp_bind, wp_modlog. cbn [Z.eqb negb].
  change (1 - 1) with 0. cbn [Z.eqb]. apply wp_bind, wp_modlog. apply wp_bind.
  set (s1 := with_lg _ _).
  assert (log_wf (lg s1) bl) as Hwf1 by (constructor; simpl; apply Hwf).
  destruct (decide (bl = [])) as [->|Hne].
  - unfold commit. apply wp_bind, wp_gets. rewrite (wf_n _ _ Hwf1). cbn [length Z.of_nat Z.ltb Z.compare when].
    apply wp_ret, wp_modlog, HQ; try done; [apply HI|]. constructor; simpl; apply Hwf1.
  - apply (wp_commit s1 v bl).
    + apply HI.
    + done.
    + done.
    + apply HI.
    + done.
    + apply HI.
    + by eapply li_room.
    + intros b. apply HI.
    + intros t g Ht Hg Hgs. apply wp_modlog, HQ; simpl; try done.
      * unfold v'. by destruct bl.
      * constructor; simpl; apply Hg.
      * by rewrite Hgs.
      * by rewrite Hgs.
      * by rewrite Hgs.
      * by rewrite Hgs.
Qed.

(** C2. A file-system transaction is atomic and durable.  The end_op of the last
    outstanding operation returns with the log empty and every block of the
    file system on disk as the cache has it.  If the machine stops after any
    number [k] of its disk writes, and then again any number of times in the
    middle of recovery, the recovery that completes finds every block as it
    was before the transaction when the header had not been written
    (k <= number of logged blocks), and as the transaction left it from then
    on; never a mixture. *)
Theorem transaction_atomic s v bl :
  let start := l_start (lg s) in let size := l_size (lg s) in
  log_inv s v bl -> vheld v = ∅ -> l_outstanding (lg s) = 1 ->
  exists s' ws, end_op s = Ok (tt, s') /\ log_inv s' (vwrites ws v) [] /\
    (forall b, home start size b -> vdisk (vwrites ws v) b = vcache v b) /\
    forall k d', rtc (rec_crash start) (disk_after (vdisk v) (take k ws)) d' ->
    forall r : lst S, rep (low r) (bview0 d') -> l_dev (lg r) = ROOTDEV ->
      l_start (lg r) = start -> l_size (lg r) = size -> length (lh_block (lg r)) = Z.to_nat LOGSIZE ->
    exists r', recover_from_log r = Ok (tt, r') /\ lh_n (lg r') = 0 /\
      rep (low r') (vwrites (rec_writes start d') (bview0 d')) /\
      forall b, home start size b ->
        disk_after d' (rec_writes start d') b =
          if decide (k <= length bl)%nat then vdisk v b else vcache v b.
Proof.
  intros start size HI Hh Ho.
  assert (wp end_op s (fun _ s' => let v' := vwrites (end_writes start bl (vcache v)) v in
    log_inv s' v' [] /\ forall b, home start size b -> vdisk v' b = vcache v b)) as ([] & s' & Hrun & HI' & Hd).
  { apply (wp_end_op s v bl); try done. intros [g t] Ht Hg Hst Hsi Hco Hou _.
    destruct (log_inv_done s v bl t g HI Ht Hg Hst Hsi Hco) as [H1 H2]; [simpl in *; lia|].
    split; [done|]. intros b Hb. by apply H2. }
  exists s', (end_writes start bl (vcache v)). split_and!; [done|done|done|].
  intros k d' Hr r HR Hdev Hst Hsi Harr.
  destruct (end_writes_crash s v bl k HI) as [Hok Hdur]. fold start size in Hok, Hdur.
  assert (disk_ok start size d') as Hok'.
  { clear -Hok Hr. induction Hr; [done|]. eauto using rec_crash_ok. }
  assert (wp recover_from_log r (fun _ r' => lh_n (lg r') = 0 /\
    rep (low r') (vwrites (rec_writes start d') (bview0 d')))) as ([] & r' & Hrec & Hn & Hrep).
  { apply (wp_recover r d'); rewrite ?Hst, ?Hsi; try done. intros t g Ht Hg _. split; [apply Hg|done]. }
  exists r'. split_and!; [done|done|done|]. intros b Hb. rewrite (rec_done start size d') by done.
  destruct (rec_crashes start size _ d' b Hok Hr Hb) as [_ ->]. by apply Hdur.
Qed.

Lemma wp_log_write s v bl h b x (Q : unit -> lst S -> Prop) :
  log_inv s v bl -> vheld v !! h = Some (b, x) -> home (l_start (lg s)) (l_size (lg s)) b ->
  length x = Z.to_nat BSIZE -> 1 <= l_outstanding (lg s) -> lh_n (lg s) < l_size (lg s) - 1 ->
  (forall s', log_inv s' (v_pin b x v) (logs bl b) ->
     lg s' = set_lh (lh_n (lg s')) (lh_block (lg s')) (lg s) -> Q tt s') ->
  wp (log_write h) s Q.
Proof.
  intros HI Hh Hb Hx Ho Hn HQ. destruct (log_write_spec s v bl h b x) as (s' & H1 & H2 & H3); try done.
  exists tt, s'. auto.
Qed.

(** log_write panics when the transaction has used up the log or no
    operation is open; otherwise it puts the block in the transaction, once
    however often it is written, pins its buffer, and keeps the log and the
    cache consistent. *)
Lemma log_write_cases s v bl h b x :
  log_inv s v bl -> vheld v !! h = Some (b, x) -> home (l_start (lg s)) (l_size (lg s)) b ->
  length x = Z.to_nat BSIZE ->
  if (l_size (lg s) - 1 <=? Z.of_nat (length bl)) then log_write h s = Panic "too big a transaction"
  else if l_outstanding (lg s) <? 1 then log_write h s = Panic "log_write outside of trans"
  else exists s', log_write h s = Ok (tt, s') /\ log_inv s' (v_pin b x v) (logs bl b).
Proof.
  intros HI Hh Hb Hx. pose proof (wf_n _ _ (li_wf _ _ _ HI)) as Hn. pose proof (li_size _ _ _ HI).
  destruct (_ <=? Z.of_nat _) eqn:E1; [|destruct (_ <? 1) eqn:E2].
  - unfold log_write, mbind, M_bind, gets. rewrite Hn, E1. by rewrite orb_true_r.
  - unfold log_write, mbind, M_bind, gets. rewrite Hn, E1, E2. replace (LOGSIZE <=? _) with false by lia. done.
  - destruct (log_write_spec s v bl h b x) as (s' & H1 & H2 & _); try done; try lia. by exists s'.
Qed.

(** begin_op admits an operation exactly when no commit is running and ten
    more blocks for it and for each open operation still fit the log;
    otherwise the caller sleeps. *)
Theorem begin_op_admits s v bl :
  log_inv s v bl ->
  (Z.of_nat (length bl) + (l_outstanding (lg s) + 1) * MAXOPBLOCKS <= LOGSIZE <->
     exists s', begin_op s = Ok (tt, s') /\ log_inv s' v bl /\ l_outstanding (lg s') = l_outstanding (lg s) + 1) /\
  (LOGSIZE < Z.of_nat (length bl) + (l_outstanding (lg s) + 1) * MAXOPBLOCKS ->
     exists w, begin_op s = Blocks w).
Proof.
  intros HI. pose proof (li_wf _ _ _ HI) as Hwf. pose proof (li_out _ _ _ HI).
  unfold begin_op, mbind, M_bind, gets. rewrite (li_com _ _ _ HI), (wf_n _ _ Hwf). cbn [Z.eqb negb].
  destruct (LOGSIZE <? _) eqn:E.
  - apply Z.ltb_lt in E. split; [|by eexists]. split; [lia|]. by intros (s' & [=] & _).
  - apply Z.ltb_ge in E. split; [|lia]. split; [|done]. intros _. eexists. split; [done|]. split; [|done].
    constructor; simpl; try apply HI; [constructor; simpl; apply Hwf|done|lia].
Qed.

(** The usual way to change a block: bread, new data, log_write, brelse. *)
Definition put_block (b : Z) (f : list Z -> list Z) : M (lst S) unit :=
  bp ← lift (bl_read ROOTDEV b);
  d ← lift (bl_data bp);
  lift (bl_set bp (f d));;
  log_write bp;;
  lift (bl_release bp).

Lemma v_put h b x y v :
  vheld v !! h = None -> v_drop h (v_pin b x (v_hold h b x (v_hold h b y v))) = v_pin b x v.
Proof.
  intros Hh. destruct v as [d c hd di tr]. unfold v_drop, v_hold, v_pin. simpl in *. f_equal.
  rewrite insert_insert_eq. by apply delete_insert_id.
Qed.

Lemma log_inv_view s v v' bl t :
  log_inv s v bl -> rep t v' -> vdirty v' = vdirty v -> vcache v' = vcache v -> vdisk v' = vdisk v ->
  log_inv (with_low t s) v' bl.
Proof.
  intros HI Ht H1 H2 H3. constructor; rewrite ?H1, ?H2, ?H3; try done; simpl; try apply HI.
Qed.

Lemma wp_put_block s v bl b f (Q : unit -> lst S -> Prop) :
  log_inv s v bl -> home (l_start (lg s)) (l_size (lg s)) b ->
  (forall h x, vheld v !! h <> Some (b, x)) ->
  (b ∈ bl \/ (size (vheld v) + size (vdirty v) < nbuf)%nat) ->
  length (f (vcache v b)) = Z.to_nat BSIZE -> 1 <= l_outstanding (lg s) -> lh_n (lg s) < l_size (lg s) - 1 ->
  (forall s', log_inv s' (v_pin b (f (vcache v b)) v) (logs bl b) ->
     lg s' = set_lh (lh_n (lg s')) (lh_block (lg s')) (lg s) -> Q tt s') ->
  wp (put_block b f) s Q.
Proof.
  intros HI Hb Hnh Hroom Hf Ho Hn HQ. unfold put_block.
  apply wp_bind, wp_lift, (law_read _ _ b _ (li_rep _ _ _ HI)); [apply Hb|done| |].
  { destruct Hroom; [left; by apply HI|by right]. }
  intros h t Hh Ht.
  apply wp_bind, wp_lift, (law_data _ _ h b (vcache v b) _ Ht); [apply lookup_insert_eq|].
  apply wp_bind, wp_lift, (law_set _ _ h b (vcache v b) _ _ Ht); [apply lookup_insert_eq|]. intros t1 Ht1.
  apply wp_bind, (wp_log_write _ (v_hold h b (f (vcache v b)) (v_hold h b (vcache v b) v)) bl h b (f (vcache v b)));
    try done.
  { by apply (log_inv_view s v). }
  { apply lookup_insert_eq. }
  intros s' HI' Hlg.
  apply wp_lift, (law_release _ _ h b (f (vcache v b)) _ (li_rep _ _ _ HI')); [apply lookup_insert_eq|apply fupd_eq|].
  intros t2 Ht2. rewrite v_put in Ht2 by done. apply HQ; [|done].
  by apply (log_inv_view s' _ _ _ _ HI').
Qed.

(** C29. initlog brings the file system up after a crash: with a log area in
    order it returns, the log is empty, and every block has its durable
    contents. *)
Theorem initlog_recovers (s : lst S) d start size :
  rep (low s) (bview0 d) -> length (lh_block (lg s)) = Z.to_nat LOGSIZE ->
  sb_logstart (sb_decode (d 1)) = start -> sb_nlog (sb_decode (d 1)) = size -> disk_ok start size d ->
  exists s' v', initlog ROOTDEV s = Ok (tt, s') /\ log_wf (lg s') [] /\ rep (low s') v' /\
    l_start (lg s') = start /\ l_size (lg s') = size /\ vheld v' = ∅ /\ vdirty v' = ∅ /\
    s32 (get32 (vdisk v' start) 0) = 0 /\
    forall b, home start size b -> vdisk v' b = durable start d b /\ vcache v' b = durable start d b.
Proof.
  intros HR Harr Hst Hsi Hok. destruct (do_area _ _ _ Hok) as (Ha1 & Ha2 & Ha3). unfold fssize in Ha3.
  set (v' := vwrites (rec_writes start d) (bview0 d)).
  assert (forall b, b ∉ vdirty v') as Hnd.
  { intros b Hb. apply vwrites_dirty in Hb as [Hb _]. by apply (not_elem_of_empty (C := gset Z) b). }
  cut (wp (initlog ROOTDEV) s (fun _ s' => log_wf (lg s') [] /\ rep (low s') v' /\ l_start (lg s') = start /\ l_size (lg s') = size)).
  { intros ([] & s' & Hrun & Hwf & Hrep & H1 & H2). exists s', v'.
    assert (vdisk v' = disk_after d (rec_writes start d)) as Hvd by apply vwrites_disk.
    split_and!; try done.
    - unfold v'. by rewrite vwrites_held.
    - apply set_eq. intros b. split; [by intros ?%Hnd|]. by intros ?%not_elem_of_empty.
    - rewrite Hvd. unfold rec_writes. rewrite disk_after_app. simpl. rewrite fupd_eq. apply hdr_empty. apply Hok.
    - intros b Hb. assert (vcache v' b = vdisk v' b) as -> by (eapply law_clean; [exact Hrep|done]).
      rewrite Hvd. by rewrite (rec_done start size). }
  unfold initlog. change (BSIZE <=? 4 + 4 * LOGSIZE) with false. cbn beta iota. unfold readsb.
  pose proof (bview0_room d).
  apply wp_bind, wp_lift. apply wp_bind, (law_read _ _ 1 _ HR); [done|done|right; change (vheld (bview0 d)) with (∅ : gmap nat (Z * list Z)); rewrite map_size_empty; lia|]. intros h t Hh Ht.
  apply wp_bind, (law_data _ _ h 1 (d 1) _ Ht); [apply lookup_insert_eq|].
  apply wp_bind, (law_release _ _ h 1 (d 1) _ Ht); [apply lookup_insert_eq|done|]. intros t1 Ht1.
  rewrite v_drop_hold in Ht1 by done. apply wp_ret, wp_bind, wp_modlog.
  rewrite Hst, Hsi, !s32_small by lia. apply (wp_recover _ d); simpl; try done.
  intros t2 g Ht2 Hg Hgs. split_and!; [done|done|by rewrite Hgs|by rewrite Hgs].
Qed.

End props.

(** * On the cache of Bio.v *)

Module Demo.

Definition zeros : list Z := replicate 512 0.
Definition ones : list Z := replicate 512 1.

(** The super block mkfs writes for 1000 blocks and 200 inodes. *)
Definition sb0 : superblock := mkSuper 1000 941 200 30 2 32 58.

Definition disk0 (_ b : Z) : list Z := if b =? 1 then sb_encode sb0 ++ replicate 484 0 else zeros.

Definition log0 (ops : Z) : log := mkLog 2 30 ops 0 ROOTDEV 0 (replicate 30 0) 0.

Definition st0 (ops : Z) : lst bcache := mkLst (log0 ops) (booted disk0 1).

(** Three operations reserve ten blocks each and the first writes thirty. *)
Definition three_ops : M (lst bcache) unit :=
  begin_op;; begin_op;; begin_op;; for_n 30 100 (fun b => put_block (Z.of_nat b) id).

Lemma disk0_sized : sized (disk0 ROOTDEV).
Proof. intros b. unfold disk0. by destruct (b =? 1). Qed.

Lemma disk0_ok : disk_ok 2 30 (disk0 ROOTDEV).
Proof. constructor; [done|apply disk0_sized|done|done|by vm_compute]. Qed.

(** A freshly booted cache over a disk with an empty log. *)
Lemma log_boot_inv d ops :
  sized (d ROOTDEV) -> s32 (get32 (d ROOTDEV 2) 0) = 0 -> 0 <= ops ->
  log_inv (mkLst (log0 ops) (booted d 1)) (bview0 (d ROOTDEV)) [].
Proof.
  intros Hd Hh Ho. constructor; simpl; try done.
  - apply booted_rep.
  - constructor.
  - intros b. split; intros Hb; exfalso; [by apply not_elem_of_empty in Hb|by apply not_elem_of_nil in Hb].
Qed.

Lemma st0_inv ops : 0 <= ops -> log_inv (st0 ops) (bview0 (disk0 ROOTDEV)) [].
Proof. intros Ho. apply log_boot_inv; [apply disk0_sized|done|done]. Qed.

Lemma home_data b : 60 <= b < 1000 -> home 2 30 b.
Proof. intros Hb. split; [unfold fssize; lia|lia]. Qed.

(** One operation has changed block 100. *)
Lemma dirty_state : exists s, log_inv s (v_pin 100 ones (bview0 (disk0 ROOTDEV))) [100] /\
  l_start (lg s) = 2 /\ l_size (lg s) = 30 /\ l_outstanding (lg s) = 1.
Proof.
  assert (wp (put_block 100 (fun _ => ones)) (st0 1) (fun _ s =>
    log_inv s (v_pin 100 ones (bview0 (disk0 ROOTDEV))) [100] /\
    l_start (lg s) = 2 /\ l_size (lg s) = 30 /\ l_outstanding (lg s) = 1)) as ([] & s & _ & H); [|by exists s].
  apply (wp_put_block _ (bview0 (disk0 ROOTDEV)) []); try done.
  - by apply st0_inv.
  - by apply home_data.
  - right. vm_compute. lia.
  - intros s HI Hlg. split; [done|]. by rewrite Hlg.
Qed.

End Demo.

Lemma transaction_atomic_witness :
  exists s s' ws, end_op s = Ok (tt, s') /\ lh_n (lg s') = 0 /\
    forall k, exists r', recover_from_log (mkLst (Demo.log0 0) (booted (fun _ => disk_after (Demo.disk0 ROOTDEV) (take k ws)) 1))
        = Ok (tt, r') /\
      disk (low r') ROOTDEV 100 = if decide (k <= 1)%nat then Demo.zeros else Demo.ones.
Proof.
  destruct Demo.dirty_state as (s & HI & Hst & Hsi & Ho).
  destruct (transaction_atomic s _ [100] HI eq_refl Ho) as (s' & ws & Hrun & HI' & _ & Hcr).
  exists s, s', ws. split; [done|]. split; [apply (wf_n _ _ (li_wf _ _ _ HI'))|]. intros k.
  destruct (Hcr k _ (rtc_refl _ _) (mkLst (Demo.log0 0) (booted (fun _ => disk_after (Demo.disk0 ROOTDEV) (take k ws)) 1)))
    as (r' & H1 & _ & H2 & H3).
  - apply (booted_rep (fun _ => disk_after (Demo.disk0 ROOTDEV) (take k ws)) 1).
  - done.
  - by rewrite Hst.
  - by rewrite Hsi.
  - done.
  - exists r'. split; [exact H1|]. rewrite (r_disk _ _ H2), vwrites_disk.
    etransitivity; [apply (H3 100); rewrite Hst, Hsi; by apply Demo.home_data|].
    cbn [length]. destruct (decide (k <= 1)%nat); [done|]. apply fupd_eq.
Defined.

Lemma initlog_recovers_witness :
  exists s' v', initlog ROOTDEV (mkLst (mkLog 0 0 0 0 0 0 (replicate 30 0) 0) (booted Demo.disk0 1)) = Ok (tt, s') /\
    l_start (lg s') = 2 /\ vdisk v' 700 = Demo.zeros /\ rep (low s') v'.
Proof.
  destruct (initlog_recovers (mkLst (mkLog 0 0 0 0 0 0 (replicate 30 0) 0) (booted Demo.disk0 1)) (Demo.disk0 ROOTDEV) 2 30)
    as (s' & v' & H1 & _ & H3 & H4 & _ & _ & _ & _ & H8).
  - apply booted_rep.
  - done.
  - by vm_compute.
  - by vm_compute.
  - apply Demo.disk0_ok.
  - exists s', v'. split_and!; [exact H1|done| |done]. destruct (H8 700) as [-> _]; [by apply Demo.home_data|].
    by vm_compute.
Defined.

(** The reservation of begin_op is one block too generous for the log mkfs
    lays out: begin_op admits three operations of ten blocks, but the log has
    room for 29, so the thirtieth block they write within their reservation
    panics the kernel. *)
Lemma reservation_overruns_log :
  begin_op (Demo.st0 2) = Ok (tt, Demo.st0 3) /\
  Demo.three_ops (Demo.st0 0) = Panic "too big a transaction".
Proof. split; [reflexivity|]. vm_compute. reflexivity. Qed.
