(* ===== verification/Fs.v ===== *)
(** fs.c: blocks, inodes, directories and path names, over the log.

    The state is the inode cache, the super block copy [sb], the running
    process's pid and current directory, and the state of the log below.  An
    inode pointer is its index in icache.inode; a null pointer is [None].
    What icache.lock protects happens in one step.  User memory is passed as
    the list of bytes copied from or to it. *)

From S2P Require Import Prelude StringC Codec Sleeplock Blocks Layout Log.

Definition NINODE : nat := 50.
Definition NDEV : Z := 10.
Definition I_VALID : Z := 2.
Definition T_DIR : Z := 1.
Definition T_FILE : Z := 2.
Definition T_DEV : Z := 3.

Record inode := mkInode {
  i_dev : Z;
  i_inum : Z;
  i_ref : Z;
  i_lock : sleeplock;
  i_flags : Z;
  i_type : Z;
  i_major : Z;
  i_minor : Z;
  i_nlink : Z;
  i_size : Z;
  i_addrs : list Z }.

Definition i_set_ref (r : Z) (i : inode) : inode :=
  mkInode (i_dev i) (i_inum i) r (i_lock i) (i_flags i) (i_type i) (i_major i) (i_minor i) (i_nlink i)
    (i_size i) (i_addrs i).

Definition i_set_lock (l : sleeplock) (i : inode) : inode :=
  mkInode (i_dev i) (i_inum i) (i_ref i) l (i_flags i) (i_type i) (i_major i) (i_minor i) (i_nlink i)
    (i_size i) (i_addrs i).

Definition i_set_flags (f : Z) (i : inode) : inode :=
  mkInode (i_dev i) (i_inum i) (i_ref i) (i_lock i) f (i_type i) (i_major i) (i_minor i) (i_nlink i)
    (i_size i) (i_addrs i).

Definition i_set_type (t : Z) (i : inode) : inode :=
  mkInode (i_dev i) (i_inum i) (i_ref i) (i_lock i) (i_flags i) t (i_major i) (i_minor i) (i_nlink i)
    (i_size i) (i_addrs i).

Definition i_set_dev (ma mi : Z) (i : inode) : inode :=
  mkInode (i_dev i) (i_inum i) (i_ref i) (i_lock i) (i_flags i) (i_type i) ma mi (i_nlink i)
    (i_size i) (i_addrs i).

Definition i_set_nlink (n : Z) (i : inode) : inode :=
  mkInode (i_dev i) (i_inum i) (i_ref i) (i_lock i) (i_flags i) (i_type i) (i_major i) (i_minor i) n
    (i_size i) (i_addrs i).

Definition i_set_size (n : Z) (i : inode) : inode :=
  mkInode (i_dev i) (i_inum i) (i_ref i) (i_lock i) (i_flags i) (i_type i) (i_major i) (i_minor i)
    (i_nlink i) n (i_addrs i).

Definition i_set_addr (k : nat) (a : Z) (i : inode) : inode :=
  mkInode (i_dev i) (i_inum i) (i_ref i) (i_lock i) (i_flags i) (i_type i) (i_major i) (i_minor i)
    (i_nlink i) (i_size i) (<[k := a]> (i_addrs i)).

(** The part of an inode that is on disk. *)
Definition i_dinode (i : inode) : dinode :=
  mkDinode (i_type i) (i_major i) (i_minor i) (i_nlink i) (i_size i) (i_addrs i).

Definition i_load (d : dinode) (i : inode) : inode :=
  mkInode (i_dev i) (i_inum i) (i_ref i) (i_lock i) (i_flags i) (di_type d) (di_major d) (di_minor d)
    (di_nlink d) (di_size d) (di_addrs d).

Record stat := mkStat { st_type : Z; st_dev : Z; st_ino : Z; st_nlink : Z; st_size : Z }.

Record fss (S : Type) := mkFss {
  icache : list inode;
  fsb : superblock;
  fpid : Z;
  fcwd : nat;
  fl : lst S }.
Arguments mkFss {S} _ _ _ _ _.
Arguments icache {S} _.
Arguments fsb {S} _.
Arguments fpid {S} _.
Arguments fcwd {S} _.
Arguments fl {S} _.

Definition with_icache {S} (l : list inode) (s : fss S) : fss S := mkFss l (fsb s) (fpid s) (fcwd s) (fl s).
Definition with_sb {S} (x : superblock) (s : fss S) : fss S := mkFss (icache s) x (fpid s) (fcwd s) (fl s).
Definition with_cwd {S} (c : nat) (s : fss S) : fss S := mkFss (icache s) (fsb s) (fpid s) c (fl s).
Definition with_fl {S} (x : lst S) (s : fss S) : fss S := mkFss (icache s) (fsb s) (fpid s) (fcwd s) x.

(** * Paths

    A path is the bytes of its string before the NUL. *)

Definition SLASH : Z := 47.

Fixpoint skip_slashes (path : list Z) : list Z :=
  match path with
  | c :: rest => if c =? SLASH then skip_slashes rest else path
  | [] => []
  end.

(** The bytes up to the next slash, and what follows them. *)
Fixpoint take_elem (path : list Z) : list Z * list Z :=
  match path with
  | [] => ([], [])
  | c :: rest =>
      if c =? SLASH then ([], path)
      else let (e, r) := take_elem rest in (c :: e, r)
  end.

(** [name] is the old contents of the buffer; the rest of the path and the new
    contents, or the null pointer. *)
Definition skipelem (path name : list Z) : option (list Z * list Z) :=
  match skip_slashes path with
  | [] => None
  | p =>
      let (s, r) := take_elem p in
      let len := length s in
      let name :=
        if (DIRSIZ <=? len)%nat then splice 0 (take DIRSIZ s) name
        else splice 0 (s ++ [0]) name in
      Some (skip_slashes r, name)
  end.

Section fs.
Context {T : Type} `{BufLayer T}.

Abbreviation F := (M (fss T)).

(** A call of the log, and of the buffer cache. *)
Definition liftl {A} (m : M (lst T) A) : F A := fun s =>
  match m (fl s) with
  | Ok (a, t) => Ok (a, with_fl t s)
  | Panic e => Panic e
  | Fault e => Fault e
  | Blocks e => Blocks e
  end.

Definition liftb {A} (m : M T A) : F A := liftl (lift m).

Definition geti (ip : nat) : F inode := deref "struct inode" (fun s => icache s !! ip).

Definition updi (ip : nat) (f : inode -> inode) : F unit :=
  modify (fun s => with_icache (alter f ip (icache s)) s).

(** * Blocks *)

Definition bzero (dev bno : Z) : F unit :=
  bp ← liftb (bl_read dev (u32 bno));
  d ← liftb (bl_data bp);
  liftb (bl_set bp (splice 0 (replicate (Z.to_nat BSIZE) 0) d));;
  liftl (log_write bp);;
  liftb (bl_release bp).

(** m = 1 << (bi % 8) and bp->data[bi/8] *)
Definition bit_mask (bi : Z) : Z := Z.shiftl 1 (bi mod 8).
Definition bit_byte (d : list Z) (bi : Z) : Z := nth (Z.to_nat (bi / 8)) d 0.
Definition bit_free (d : list Z) (bi : Z) : bool := Z.land (bit_byte d bi) (bit_mask bi) =? 0.
Definition bit_set (d : list Z) (bi : Z) : list Z :=
  <[Z.to_nat (bi / 8) := u8 (Z.lor (bit_byte d bi) (bit_mask bi))]> d.
Definition bit_clear (d : list Z) (bi : Z) : list Z :=
  <[Z.to_nat (bi / 8) := u8 (Z.land (bit_byte d bi) (Z.lnot (bit_mask bi)))]> d.

(** The inner loop of balloc: [k] more bits from [bi]. *)
Fixpoint scan_bits (k : nat) (d : list Z) (b size bi : Z) : option Z :=
  match k with
  | O => None
  | S k =>
      if b + bi <? size then
        if bit_free d bi then Some bi else scan_bits k d b size (bi + 1)
      else None
  end.

(** The outer loop, [k] bitmap blocks from block [b] on. *)
Fixpoint balloc_loop (k : nat) (dev b : Z) : F Z :=
  match k with
  | O => panic "balloc: out of blocks"
  | S k =>
      sb ← gets fsb;
      bp ← liftb (bl_read dev (BBLOCK b sb));
      d ← liftb (bl_data bp);
      match scan_bits (Z.to_nat BPB) d b (sb_size sb) 0 with
      | Some bi =>
          liftb (bl_set bp (bit_set d bi));;
          liftl (log_write bp);;
          liftb (bl_release bp);;
          bzero dev (b + bi);;
          mret (b + bi)
      | None =>
          liftb (bl_release bp);;
          balloc_loop k dev (b + BPB)
      end
  end.

Definition balloc (dev : Z) : F Z :=
  sb ← gets fsb;
  balloc_loop (Z.to_nat ((sb_size sb + BPB - 1) / BPB)) dev 0.

Definition bfree (dev b : Z) : F unit :=
  sb ← liftb (readsb dev);
  modify (with_sb sb);;
  bp ← liftb (bl_read dev (BBLOCK b sb));
  d ← liftb (bl_data bp);
  let bi := b mod BPB in
  if bit_free d bi then panic "freeing free block"
  else
    liftb (bl_set bp (bit_clear d bi));;
    liftl (log_write bp);;
    liftb (bl_release bp).

(** * Inodes *)

Definition iinit (dev : Z) : F unit :=
  modify (fun s => with_icache (i_set_lock (initsleeplock "inode") <$> icache s) s);;
  sb ← liftb (readsb dev);
  modify (with_sb sb).

(** The loop of iget: the entry that has the inode, or the first free one. *)
Fixpoint iget_scan (l : list inode) (i : nat) (dev inum : Z) (empty : option nat) : nat + option nat :=
  match l with
  | [] => inr empty
  | ip :: l =>
      if (0 <? i_ref ip) && (i_dev ip =? dev) && (i_inum ip =? inum) then inl i
      else iget_scan l (i + 1) dev inum
             (match empty with
              | None => if i_ref ip =? 0 then Some i else None
              | Some e => Some e
              end)
  end.

Definition iget (dev inum : Z) : F nat :=
  l ← gets icache;
  match iget_scan l 0 dev inum None with
  | inl i =>
      updi i (fun ip => i_set_ref (i_ref ip + 1) ip);;
      mret i
  | inr None => panic "iget: no inodes"
  | inr (Some e) =>
      updi e (fun ip => mkInode dev inum 1 (i_lock ip) 0 (i_type ip) (i_major ip) (i_minor ip)
                          (i_nlink ip) (i_size ip) (i_addrs ip));;
      mret e
  end.

(** (struct dinode* )bp->data + inum%IPB, in bytes. *)
Definition di_off (inum : Z) : nat := Z.to_nat (inum mod IPB) * dinode_size.

Fixpoint ialloc_loop (k : nat) (dev inum type : Z) : F nat :=
  match k with
  | O => panic "ialloc: no inodes"
  | S k =>
      sb ← gets fsb;
      bp ← liftb (bl_read dev (IBLOCK inum sb));
      d ← liftb (bl_data bp);
      if di_type (di_decode d (di_off inum)) =? 0 then
        liftb (bl_set bp (splice (di_off inum) (di_encode (mkDinode type 0 0 0 0 (replicate 13 0))) d));;
        liftl (log_write bp);;
        liftb (bl_release bp);;
        iget dev inum
      else
        liftb (bl_release bp);;
        ialloc_loop k dev (inum + 1) type
  end.

Definition ialloc (dev type : Z) : F nat :=
  sb ← gets fsb;
  ialloc_loop (Z.to_nat (sb_ninodes sb - 1)) dev 1 type.

Definition iupdate (ip : nat) : F unit :=
  i ← geti ip;
  sb ← gets fsb;
  bp ← liftb (bl_read (i_dev i) (IBLOCK (i_inum i) sb));
  d ← liftb (bl_data bp);
  liftb (bl_set bp (splice (di_off (i_inum i)) (di_encode (i_dinode i)) d));;
  liftl (log_write bp);;
  liftb (bl_release bp).

Definition idup (ip : nat) : F nat :=
  geti ip;;
  updi ip (fun i => i_set_ref (i_ref i + 1) i);;
  mret ip.

Definition ilock (ip : nat) : F unit :=
  i ← geti ip;
  if i_ref i <? 1 then panic "ilock"
  else
    l ← act (fun s => obind (acquiresleep (fpid s) (i_lock i)) (fun l => Ok (l, s)));
    updi ip (i_set_lock l);;
    i ← geti ip;
    when (Z.land (i_flags i) I_VALID =? 0)
      (sb ← gets fsb;
       bp ← liftb (bl_read (i_dev i) (IBLOCK (i_inum i) sb));
       d ← liftb (bl_data bp);
       updi ip (i_load (di_decode d (di_off (i_inum i))));;
       liftb (bl_release bp);;
       updi ip (fun i => i_set_flags (Z.lor (i_flags i) I_VALID) i);;
       i ← geti ip;
       when (i_type i =? 0) (panic "ilock: no type")).

Definition iunlock (ip : nat) : F unit :=
  i ← geti ip;
  if (holdingsleep (i_lock i) =? 0) || (i_ref i <? 1) then panic "iunlock"
  else updi ip (fun i => i_set_lock (fst (releasesleep (i_lock i))) i).

(** * Contents *)

Definition NDIR : nat := Z.to_nat NDIRECT.

Definition bmap (ip : nat) (bn : Z) : F Z :=
  i ← geti ip;
  if bn <? NDIRECT then
    let addr := nth (Z.to_nat bn) (i_addrs i) 0 in
    if addr =? 0 then
      a ← balloc (i_dev i);
      updi ip (i_set_addr (Z.to_nat bn) a);;
      mret a
    else mret addr
  else
    let bn := bn - NDIRECT in
    if bn <? NINDIRECT then
      let addr := nth NDIR (i_addrs i) 0 in
      addr ←
        (if addr =? 0 then
           a ← balloc (i_dev i);
           updi ip (i_set_addr NDIR a);;
           mret a
         else mret addr);
      bp ← liftb (bl_read (i_dev i) addr);
      d ← liftb (bl_data bp);
      let addr := get32 d (4 * Z.to_nat bn) in
      addr ←
        (if addr =? 0 then
           a ← balloc (i_dev i);
           d ← liftb (bl_data bp);
           liftb (bl_set bp (put32 d (4 * Z.to_nat bn) a));;
           liftl (log_write bp);;
           mret a
         else mret addr);
      liftb (bl_release bp);;
      mret addr
    else panic "bmap: out of range".

(** The two loops of itrunc. *)
Definition trunc_direct (ip k : nat) : F unit :=
  i ← geti ip;
  let a := nth k (i_addrs i) 0 in
  when (negb (a =? 0))
    (bfree (i_dev i) a;;
     updi ip (i_set_addr k 0)).

Definition trunc_indirect (dev : Z) (d : list Z) (j : nat) : F unit :=
  let a := get32 d (4 * j) in
  when (negb (a =? 0)) (bfree dev a).

Definition itrunc (ip : nat) : F unit :=
  for_n NDIR 0 (trunc_direct ip);;
  i ← geti ip;
  let ind := nth NDIR (i_addrs i) 0 in
  when (negb (ind =? 0))
    (bp ← liftb (bl_read (i_dev i) ind);
     d ← liftb (bl_data bp);
     for_n (Z.to_nat NINDIRECT) 0 (trunc_indirect (i_dev i) d);;
     liftb (bl_release bp);;
     bfree (i_dev i) ind;;
     updi ip (i_set_addr NDIR 0));;
  updi ip (i_set_size 0);;
  iupdate ip.

Definition iput (ip : nat) : F unit :=
  i ← geti ip;
  when ((i_ref i =? 1) && negb (Z.land (i_flags i) I_VALID =? 0) && (i_nlink i =? 0))
    (itrunc ip;;
     updi ip (i_set_type 0);;
     iupdate ip;;
     updi ip (i_set_flags 0));;
  updi ip (fun i => i_set_ref (i_ref i - 1) i).

Definition iunlockput (ip : nat) : F unit := iunlock ip;; iput ip.

Definition stati (ip : nat) : F stat :=
  i ← geti ip;
  mret (mkStat (i_type i) (i_dev i) (i_inum i) (i_nlink i) (i_size i)).

(** devsw[major].read and .write: null, or the driver's function.  What a
    driver reads is the value it returns and the bytes it stored. *)
Context (devread : Z -> option (nat -> Z -> F (Z * list Z))).
Context (devwrite : Z -> option (nat -> list Z -> Z -> F Z)).

(** The loop of readi: [n] bytes left from [off] on. *)
Fixpoint readi_loop (fuel ip : nat) (off n : Z) : F (list Z) :=
  match fuel with
  | O => mret []
  | S fuel =>
      if 0 <? n then
        i ← geti ip;
        b ← bmap ip (off / BSIZE);
        bp ← liftb (bl_read (i_dev i) b);
        let m := Z.min n (BSIZE - off mod BSIZE) in
        d ← liftb (bl_data bp);
        liftb (bl_release bp);;
        rest ← readi_loop fuel ip (off + m) (n - m);
        mret (slice (Z.to_nat (off mod BSIZE)) (Z.to_nat m) d ++ rest)
      else mret []
  end.

(** Blocks [n] bytes can touch. *)
Definition blocks_of (n : Z) : nat := Z.to_nat (n / BSIZE + 2).

(** The value returned and the bytes stored at dst. *)
Definition readi (ip : nat) (off n : Z) : F (Z * list Z) :=
  i ← geti ip;
  if i_type i =? T_DEV then
    if (i_major i <? 0) || (NDEV <=? i_major i) then mret (-1, [])
    else match devread (i_major i) with
         | None => mret (-1, [])
         | Some f => f ip (s32 n)
         end
  else if (i_size i <? off) || (u32 (off + n) <? off) then mret (-1, [])
  else
    let n := if i_size i <? off + n then i_size i - off else n in
    bs ← readi_loop (blocks_of n) ip off n;
    mret (s32 n, bs).

Fixpoint writei_loop (fuel ip : nat) (src : list Z) (off n : Z) : F unit :=
  match fuel with
  | O => mret tt
  | S fuel =>
      if 0 <? n then
        i ← geti ip;
        b ← bmap ip (off / BSIZE);
        bp ← liftb (bl_read (i_dev i) b);
        let m := Z.min n (BSIZE - off mod BSIZE) in
        d ← liftb (bl_data bp);
        liftb (bl_set bp (splice (Z.to_nat (off mod BSIZE)) (take (Z.to_nat m) src) d));;
        liftl (log_write bp);;
        liftb (bl_release bp);;
        writei_loop fuel ip (drop (Z.to_nat m) src) (off + m) (n - m)
      else mret tt
  end.

Definition writei (ip : nat) (src : list Z) (off n : Z) : F Z :=
  i ← geti ip;
  if i_type i =? T_DEV then
    if (i_major i <? 0) || (NDEV <=? i_major i) then mret (-1)
    else match devwrite (i_major i) with
         | None => mret (-1)
         | Some f => f ip src (s32 n)
         end
  else if (i_size i <? off) || (u32 (off + n) <? off) then mret (-1)
  else if MAXFILE * BSIZE <? off + n then mret (-1)
  else
    writei_loop (blocks_of n) ip src off n;;
    i ← geti ip;
    when ((0 <? n) && (i_size i <? off + n))
      (updi ip (i_set_size (off + n));;
       iupdate ip);;
    mret (s32 n).

(** * Directories *)

Definition namecmp (s t : list Z) : Z := strncmp_buf DIRSIZ s t.

Definition DE : Z := Z.of_nat dirent_size.

(** The dirent at [off], or the panic of its callers. *)
Definition read_dirent (dp : nat) (off : Z) : F dirent :=
  r ← readi dp off DE;
  if negb (fst r =? DE) then panic "dirlink read" else mret (de_decode (snd r) 0).

(** The inode and the offset of the entry. *)
Fixpoint dirlookup_loop (k dp : nat) (name : list Z) (off : Z) : F (option (nat * Z)) :=
  match k with
  | O => mret None
  | S k =>
      i ← geti dp;
      if off <? i_size i then
        de ← read_dirent dp off;
        if de_inum de =? 0 then dirlookup_loop k dp name (off + DE)
        else if namecmp name (de_name de) =? 0 then
          ip ← iget (i_dev i) (de_inum de);
          mret (Some (ip, off))
        else dirlookup_loop k dp name (off + DE)
      else mret None
  end.

(** Entries a directory of [size] bytes can have. *)
Definition entries_of (size : Z) : nat := Z.to_nat (size / DE + 1).

Definition dirlookup (dp : nat) (name : list Z) : F (option (nat * Z)) :=
  i ← geti dp;
  if negb (i_type i =? T_DIR) then panic "dirlookup not DIR"
  else dirlookup_loop (entries_of (i_size i)) dp name 0.

Fixpoint dirlink_loop (k dp : nat) (off : Z) : F Z :=
  match k with
  | O => mret off
  | S k =>
      i ← geti dp;
      if off <? i_size i then
        de ← read_dirent dp off;
        if de_inum de =? 0 then mret off else dirlink_loop k dp (off + DE)
      else mret off
  end.

Definition dirlink (dp : nat) (name : list Z) (inum : Z) : F Z :=
  found ← dirlookup dp name;
  match found with
  | Some (ip, _) => iput ip;; mret (-1)
  | None =>
      i ← geti dp;
      off ← dirlink_loop (entries_of (i_size i)) dp 0;
      r ← writei dp (de_encode (mkDirent (u16 inum) (strncpy_buf DIRSIZ name))) off DE;
      if negb (r =? DE) then panic "dirlink" else mret 0
  end.

(** * Path lookup *)

Fixpoint namex_loop (fuel : nat) (ip : nat) (path : list Z) (nameiparent : bool) (name : list Z)
    : F (option nat * list Z) :=
  match fuel with
  | O => fault "namex"
  | S fuel =>
      match skipelem path name with
      | None =>
          if nameiparent then iput ip;; mret (None, name)
          else mret (Some ip, name)
      | Some (path, name) =>
          ilock ip;;
          i ← geti ip;
          if negb (i_type i =? T_DIR) then iunlockput ip;; mret (None, name)
          else if nameiparent && bool_decide (path = []) then
            iunlock ip;; mret (Some ip, name)
          else
            next ← dirlookup ip name;
            match next with
            | None => iunlockput ip;; mret (None, name)
            | Some (next, _) =>
                iunlockput ip;;
                namex_loop fuel next path nameiparent name
            end
      end
  end.

Definition namex (path : list Z) (nameiparent : bool) (name : list Z) : F (option nat * list Z) :=
  ip ← (if bool_decide (head path = Some SLASH) then iget ROOTDEV ROOTINO
        else cwd ← gets fcwd; idup cwd);
  namex_loop (1 + length path) ip path nameiparent name.

(** [name]: what the caller's buffer holds. *)
Definition namei (path name : list Z) : F (option nat) :=
  r ← namex path false name;
  mret (fst r).

Definition nameiparent (path name : list Z) : F (option nat * list Z) := namex path true name.

End fs.
