(* ===== verification/FsPath.v ===== *)
(** Path names (fs.c): skipelem against the reference splitting of a path at
    its slashes. *)

From S2P Require Import Prelude StringC Codec Layout Fs.

(** The non-empty pieces between slashes; [acc] is the current piece, last
    byte first. *)
Fixpoint pieces (acc path : list Z) : list (list Z) :=
  match path with
  | [] => match acc with [] => [] | _ => [rev acc] end
  | c :: path =>
      if c =? SLASH then (match acc with [] => pieces [] path | _ => rev acc :: pieces [] path end)
      else pieces (c :: acc) path
  end.

Definition components (path : list Z) : list (list Z) := pieces [] path.

Lemma pieces_skip path : components (skip_slashes path) = components path.
Proof.
  unfold components. induction path as [|c path IH]; [done|]. cbn [skip_slashes pieces].
  destruct (c =? SLASH) eqn:E; [done|]. cbn [pieces]. by rewrite E.
Qed.

Lemma skip_slashes_head path : head (skip_slashes path) <> Some SLASH.
Proof.
  induction path as [|c path IH]; [done|]. cbn [skip_slashes]. destruct (c =? SLASH) eqn:E; [done|].
  simpl. intros [= ->]. by rewrite Z.eqb_refl in E.
Qed.

Lemma length_skip_slashes path : (length (skip_slashes path) <= length path)%nat.
Proof.
  induction path as [|c path IH]; [done|]. cbn [skip_slashes]. destruct (c =? SLASH); simpl; lia.
Qed.

Lemma pieces_take path acc s r :
  take_elem path = (s, r) -> pieces acc path =
    match rev acc ++ s with [] => pieces [] r | e => e :: pieces [] r end.
Proof.
  revert acc s r. induction path as [|c path IH]; intros acc s r; cbn [take_elem pieces].
  - intros [= <- <-]. rewrite app_nil_r. destruct acc as [|a acc]; [done|]. simpl.
    by destruct (rev acc ++ [a]) eqn:E; [apply app_eq_nil in E as [_ [=]]|].
  - destruct (c =? SLASH) eqn:E.
    + intros [= <- <-]. rewrite app_nil_r. cbn [pieces]. rewrite E. destruct acc as [|a acc]; [done|]. simpl.
      by destruct (rev acc ++ [a]) eqn:E'; [apply app_eq_nil in E' as [_ [=]]|].
    + destruct (take_elem path) as [e q] eqn:Et. intros [= <- <-]. rewrite (IH (c :: acc) e q eq_refl). simpl.
      by rewrite <- app_assoc.
Qed.

Lemma take_elem_app path s r : take_elem path = (s, r) -> path = s ++ r.
Proof.
  revert s r. induction path as [|c path IH]; intros s r; cbn [take_elem]; [by intros [= <- <-]|].
  destruct (c =? SLASH); [by intros [= <- <-]|]. destruct (take_elem path) as [e q]. intros [= <- <-].
  simpl. f_equal. by apply IH.
Qed.

Lemma cstr_app s t : Forall (fun c => c <> 0) s -> cstr (s ++ t) = s ++ cstr t.
Proof.
  induction 1 as [|c s Hc _ IH]; [done|]. cbn [app cstr].
  destruct (c =? 0) eqn:E; [by apply Z.eqb_eq in E|]. by rewrite IH.
Qed.

Lemma cstr_all s : Forall (fun c => c <> 0) s -> cstr s = s.
Proof. intros Hs. rewrite <- (app_nil_r s) at 1. by rewrite cstr_app, app_nil_r. Qed.

(** skipelem takes a path apart as splitting it at its slashes does: it
    returns the null pointer exactly when no element is left; otherwise it
    leaves in the name buffer the first element, cut to DIRSIZ bytes and
    terminated when shorter, and returns a strictly shorter path that does
    not start with a slash and whose elements are the remaining ones. *)
Lemma skipelem_splits path name :
  Forall (fun c => c <> 0) path -> length name = DIRSIZ ->
  match skipelem path name with
  | None => components path = []
  | Some (rest, name') => exists e, components path = e :: components rest /\
      cstr name' = take DIRSIZ e /\ length name' = DIRSIZ /\ (length rest < length path)%nat /\
      head rest <> Some SLASH
  end.
Proof.
  intros Hp Hn. unfold skipelem. rewrite <- (pieces_skip path).
  pose proof (length_skip_slashes path) as Hl. pose proof (skip_slashes_head path) as Hh.
  assert (Forall (fun c => c <> 0) (skip_slashes path)) as Hp'.
  { clear -Hp. induction Hp as [|c l Hc Hl IH]; [done|]. cbn [skip_slashes].
    destruct (c =? SLASH); [done|by constructor]. }
  destruct (skip_slashes path) as [|c p] eqn:Ep; [done|].
  destruct (take_elem (c :: p)) as [s r] eqn:Et. exists s.
  pose proof (take_elem_app _ _ _ Et) as Happ.
  assert (s <> []) as Hs.
  { intros ->. cbn [take_elem] in Et. destruct (c =? SLASH) eqn:E.
    - apply Z.eqb_eq in E as ->. by apply Hh.
    - by destruct (take_elem p). }
  assert (Forall (fun c => c <> 0) s) as Hs0 by (rewrite Happ in Hp'; by apply Forall_app in Hp' as [? _]).
  assert (length (c :: p) = length s + length r)%nat as Hlen by (rewrite Happ; apply length_app).
  assert (0 < length s)%nat as Hs1 by (destruct s; [done|simpl; lia]).
  pose proof (length_skip_slashes r). split_and!.
  - rewrite pieces_skip. unfold components. rewrite (pieces_take _ [] s r Et). simpl. by destruct s.
  - destruct (DIRSIZ <=? length s)%nat eqn:E.
    + apply Nat.leb_le in E. unfold splice. rewrite take_0, app_nil_l, length_take, Nat.min_l by done.
      rewrite drop_ge by (unfold DIRSIZ in *; lia). rewrite app_nil_r. apply cstr_all. by apply Forall_take.
    + apply Nat.leb_gt in E. unfold splice. rewrite take_0, app_nil_l, <- app_assoc. rewrite cstr_app by done.
      simpl. rewrite app_nil_r. by rewrite take_ge by lia.
  - destruct (DIRSIZ <=? length s)%nat eqn:E.
    + apply Nat.leb_le in E. rewrite length_splice; [done|]. rewrite length_take. lia.
    + apply Nat.leb_gt in E. rewrite length_splice; [done|]. rewrite length_app. simpl. lia.
  - lia.
  - apply skip_slashes_head.
Qed.

