(* ===== verification/FsSpec.v ===== *)
(** What the block and inode routines of fs.c do to the disk as the log sees
    it: exact specifications, for the theorems of FsProps.v. *)

From stdpp Require Import gmap.
From S2P Require Import Prelude Codec Sleeplock Blocks Layout Log LogProps Fs.

(** A layout as mkfs makes it: log, inodes, one bitmap block, data. *)
Record geo (sb : superblock) (g : log) : Prop := {
  g_start : l_start g = sb_logstart sb;
  g_size : l_size g = sb_nlog sb;
  g_log : 2 <= sb_logstart sb;
  g_nlog : 1 <= sb_nlog sb;
  g_ino : sb_logstart sb + sb_nlog sb <= sb_inodestart sb;
  g_map : sb_inodestart sb + sb_ninodes sb / IPB + 1 <= sb_bmapstart sb;
  g_nino : 0 <= sb_ninodes sb;
  g_data : sb_bmapstart sb + 1 <= sb_size sb;
  g_fs : sb_size sb <= fssize }.

(** An operation is open, with the blocks [bl] logged. *)
Record fsrep {T} `{BufLaws T} (s : fss T) (v : bview) (bl : list Z) : Prop := {
  fr_inv : log_inv (fl s) v bl;
  fr_out : 1 <= l_outstanding (lg (fl s));
  fr_geo : geo (fsb s) (lg (fl s));
  fr_sb : sb_decode (vcache v 1) = fsb s }.

(** Room for another block in the transaction. *)
Definition room (sb : superblock) (bl : list Z) : Prop := Z.of_nat (length bl) < sb_nlog sb - 1.

(** Only the state of the log has moved from [s] to [s']. *)
Definition same_above {T} (s s' : fss T) : Prop :=
  icache s' = icache s /\ fsb s' = fsb s /\ fpid s' = fpid s /\ fcwd s' = fcwd s.

#[global] Instance same_above_trans {T} : Transitive (@same_above T).
Proof. intros a b c (? & ? & ? & ?) (? & ? & ? & ?). split_and!; congruence. Qed.

#[global] Instance same_above_refl {T} : Reflexive (@same_above T).
Proof. done. Qed.

(** Inode, bitmap and data blocks are outside the log. *)
Definition meta_home (sb : superblock) (b : Z) : Prop := sb_inodestart sb <= b < fssize.

Lemma geo_home sb g b : geo sb g -> meta_home sb b -> home (l_start g) (l_size g) b.
Proof.
  intros [H1 H2 H3 H3' H4 _ _ _ _] [Hb1 Hb2]. unfold home. rewrite H1, H2. lia.
Qed.

Lemma geo_bmap sb g : geo sb g -> meta_home sb (sb_bmapstart sb).
Proof.
  intros [H1 H2 H3 H3' H4 H5 H6 H7 H8]. unfold meta_home. change IPB with 8 in *.
  pose proof (Z.div_pos (sb_ninodes sb) 8 H6 ltac:(lia)). lia.
Qed.

Lemma geo_inode sb g i : geo sb g -> 0 <= i < sb_ninodes sb -> meta_home sb (sb_inodestart sb + i / IPB).
Proof.
  intros [H1 H2 H3 H3' H4 H5 H6 H7 H8] Hi. unfold meta_home. change IPB with 8 in *.
  pose proof (Z.div_pos i 8 ltac:(lia) ltac:(lia)). pose proof (Z.div_le_mono i (sb_ninodes sb) 8 ltac:(lia) ltac:(lia)). lia.
Qed.

(** * The free map *)

Lemma bit_free_testbit d bi : bit_free d bi = negb (Z.testbit (bit_byte d bi) (bi mod 8)).
Proof.
  unfold bit_free, bit_mask. pose proof (Z.mod_pos_bound bi 8 ltac:(lia)) as Hm.
  destruct (Z.testbit (bit_byte d bi) (bi mod 8)) eqn:E; simpl.
  - apply Z.eqb_neq. intros H0. apply (f_equal (fun z => Z.testbit z (bi mod 8))) in H0.
    rewrite Z.land_spec, E, Z.bits_0 in H0. rewrite Z.shiftl_spec, Z.sub_diag in H0 by lia. discriminate H0.
  - apply Z.eqb_eq, Z.bits_inj'. intros k Hk. rewrite Z.land_spec, Z.bits_0.
    destruct (decide (k = bi mod 8)) as [->|Hne]; [by rewrite E|].
    rewrite Z.shiftl_spec by lia. destruct (decide (k < bi mod 8)).
    + rewrite (Z.testbit_neg_r 1) by lia. apply andb_false_r.
    + change 1 with (2 ^ 0). rewrite Z.pow2_bits_false by lia. apply andb_false_r.
Qed.

Lemma testbit_u8 z k : 0 <= k < 8 -> Z.testbit (u8 z) k = Z.testbit z k.
Proof. intros Hk. unfold u8. apply Z.mod_pow2_bits_low. lia. Qed.

Lemma mask_testbit bi k : 0 <= k -> Z.testbit (bit_mask bi) k = (k =? bi mod 8).
Proof.
  intros Hk. pose proof (Z.mod_pos_bound bi 8 ltac:(lia)) as Hm. unfold bit_mask.
  rewrite Z.shiftl_spec by lia. destruct (k =? bi mod 8) eqn:E.
  - apply Z.eqb_eq in E as ->. by rewrite Z.sub_diag.
  - apply Z.eqb_neq in E. destruct (decide (k < bi mod 8)); [apply Z.testbit_neg_r; lia|].
    change 1 with (2 ^ 0). apply Z.pow2_bits_false. lia.
Qed.

Lemma nth_insert (l : list Z) i j x :
  (i < length l)%nat -> nth j (<[i := x]> l) 0 = if decide (i = j) then x else nth j l 0.
Proof.
  intros Hi. rewrite !nth_lookup, list_lookup_insert_dec. case_decide as D; case_decide; try done.
  - by destruct D.
  - destruct D. by split.
Qed.

Lemma bit_change_other d bi bj x :
  0 <= bi -> 0 <= bj -> (Z.to_nat (bi / 8) < length d)%nat ->
  (forall k, 0 <= k < 8 -> k <> bi mod 8 -> Z.testbit x k = Z.testbit (bit_byte d bi) k) ->
  bi <> bj -> bit_free (<[Z.to_nat (bi / 8) := u8 x]> d) bj = bit_free d bj.
Proof.
  intros H0 H1 Hl Hx Hne. rewrite !bit_free_testbit. f_equal. unfold bit_byte. rewrite nth_insert by done.
  pose proof (Z.mod_pos_bound bj 8 ltac:(lia)).
  case_decide as D; [|done]. assert (bi / 8 = bj / 8) as HD.
  { apply Z2Nat.inj in D; [done|apply Z.div_pos; lia|apply Z.div_pos; lia]. }
  rewrite testbit_u8 by done. rewrite Hx.
  - unfold bit_byte. by rewrite D.
  - done.
  - intros Hm. apply Hne. rewrite (Z.div_mod bi 8), (Z.div_mod bj 8) by lia. congruence.
Qed.

Lemma bit_change_here d bi x :
  (Z.to_nat (bi / 8) < length d)%nat ->
  bit_free (<[Z.to_nat (bi / 8) := u8 x]> d) bi = negb (Z.testbit x (bi mod 8)).
Proof.
  intros Hl. rewrite bit_free_testbit. f_equal. unfold bit_byte. rewrite nth_insert by done.
  case_decide; [|done]. apply testbit_u8. apply Z.mod_pos_bound. lia.
Qed.

Lemma bit_set_spec d bi bj :
  0 <= bi -> 0 <= bj -> (Z.to_nat (bi / 8) < length d)%nat ->
  bit_free (bit_set d bi) bj = if decide (bi = bj) then false else bit_free d bj.
Proof.
  intros H0 H1 Hl. unfold bit_set. case_decide as D.
  - subst bj. rewrite bit_change_here by done. rewrite Z.lor_spec, (mask_testbit bi) by (apply Z.mod_pos_bound; lia).
    rewrite Z.eqb_refl. by rewrite orb_true_r.
  - apply bit_change_other; try done. intros k Hk Hne. rewrite Z.lor_spec, mask_testbit by lia.
    replace (k =? bi mod 8) with false by lia. apply orb_false_r.
Qed.

Lemma bit_clear_spec d bi bj :
  0 <= bi -> 0 <= bj -> (Z.to_nat (bi / 8) < length d)%nat ->
  bit_free (bit_clear d bi) bj = if decide (bi = bj) then true else bit_free d bj.
Proof.
  intros H0 H1 Hl. pose proof (Z.mod_pos_bound bi 8 ltac:(lia)). unfold bit_clear. case_decide as D.
  - subst bj. rewrite bit_change_here by done. rewrite Z.land_spec, Z.lnot_spec, mask_testbit by lia.
    rewrite Z.eqb_refl. by rewrite andb_false_r.
  - apply bit_change_other; try done. intros k Hk Hne. rewrite Z.land_spec, Z.lnot_spec, mask_testbit by lia.
    replace (k =? bi mod 8) with false by lia. apply andb_true_r.
Qed.

(** The inner loop of balloc finds the first free bit. *)
Lemma scan_bits_spec k : forall d b size bi,
  match scan_bits k d b size bi with
  | Some a => bi <= a < bi + Z.of_nat k /\ b + a < size /\ bit_free d a = true /\
      forall x, bi <= x < a -> bit_free d x = false
  | None => forall x, bi <= x < bi + Z.of_nat k -> b + x < size -> bit_free d x = false
  end.
Proof.
  induction k as [|k IH]; intros d b size bi; cbn [scan_bits]; [lia|].
  destruct (b + bi <? size) eqn:E1; [|intros x Hx Hs; lia].
  destruct (bit_free d bi) eqn:E2; [split_and!; [lia|lia|lia|done|lia]|].
  specialize (IH d b size (bi + 1)). destruct (scan_bits k d b size (bi + 1)) as [a|].
  - destruct IH as (Ha & Hs & Hf & Hlt). split_and!; [lia|lia|done|done|]. intros x Hx.
    destruct (decide (x = bi)) as [->|]; [done|]. apply Hlt. lia.
  - intros x Hx Hs. destruct (decide (x = bi)) as [->|]; [done|]. apply IH; [lia|done].
Qed.

(** A block is in use when its bit is set. *)
Definition used (sb : superblock) (c : Z -> list Z) (b : Z) : Prop :=
  bit_free (c (sb_bmapstart sb)) b = false.

(** The block balloc chooses. *)
Definition first_free (sb : superblock) (c : Z -> list Z) : option Z :=
  scan_bits (Z.to_nat BPB) (c (sb_bmapstart sb)) 0 (sb_size sb) 0.

Lemma first_free_cases sb c :
  match first_free sb c with
  | Some a => 0 <= a < 4096 /\ a < sb_size sb /\ bit_free (c (sb_bmapstart sb)) a = true /\
      forall x, 0 <= x < a -> used sb c x
  | None => forall x, 0 <= x < 4096 -> x < sb_size sb -> used sb c x
  end.
Proof.
  unfold first_free, used. pose proof (scan_bits_spec (Z.to_nat BPB) (c (sb_bmapstart sb)) 0 (sb_size sb) 0) as Hs.
  rewrite Z2Nat.id in Hs by done. change BPB with 4096 in Hs at 2 3. by destruct (scan_bits _ _ _ _ _).
Qed.

Lemma first_free_Some sb c a :
  first_free sb c = Some a -> scan_bits (Z.to_nat BPB) (c (sb_bmapstart sb)) 0 (sb_size sb) 0 = Some a.
Proof. exact id. Qed.

Lemma first_free_None sb c :
  first_free sb c = None -> scan_bits (Z.to_nat BPB) (c (sb_bmapstart sb)) 0 (sb_size sb) 0 = None.
Proof. exact id. Qed.

(** Boot, super, log, inode and map blocks are marked in use. *)
Definition meta_used (sb : superblock) (c : Z -> list Z) : Prop :=
  forall b, 0 <= b <= sb_bmapstart sb -> used sb c b.

Definition zero_block : list Z := replicate (Z.to_nat BSIZE) 0.

Section specs.
Context {T : Type} `{BL : BufLaws T}.
Implicit Types (s : fss T) (v : bview).

Lemma wp_liftl {A} (m : M (lst T) A) s (Q : A -> fss T -> Prop) :
  wp m (fl s) (fun a t => Q a (with_fl t s)) -> wp (liftl m) s Q.
Proof. intros (a & t & Hm & HQ). exists a, (with_fl t s). split; [|done]. unfold liftl. by rewrite Hm. Qed.

Lemma wp_liftb {A} (m : M T A) s (Q : A -> fss T -> Prop) :
  wp m (low (fl s)) (fun a t => Q a (with_fl (with_low t (fl s)) s)) -> wp (liftb m) s Q.
Proof. intros. by apply wp_liftl, wp_lift. Qed.

Lemma wp_geti s ip i (Q : inode -> fss T -> Prop) : icache s !! ip = Some i -> Q i s -> wp (geti ip) s Q.
Proof. intros. by eapply wp_deref. Qed.

Lemma wp_updi s ip i f (Q : unit -> fss T -> Prop) :
  icache s !! ip = Some i -> Q tt (with_icache (<[ip := f i]> (icache s)) s) -> wp (updi ip f) s Q.
Proof. intros Hi HQ. apply wp_modify. by rewrite (Bio.alter_at f _ _ i Hi). Qed.

(** A view that differs only in what is held. *)
Lemma fsrep_view s v v' bl t :
  fsrep s v bl -> rep t v' -> vdirty v' = vdirty v -> vcache v' = vcache v -> vdisk v' = vdisk v ->
  fsrep (with_fl (with_low t (fl s)) s) v' bl.
Proof.
  intros [HI Ho Hg Hs] Ht H1 H2 H3. constructor; simpl; try done.
  - by apply (log_inv_view _ v).
  - by rewrite H2.
Qed.

(** bread and a look at the data. *)
Lemma wp_fread {A} s v bl b (k : nat -> list Z -> M (fss T) A) (Q : A -> fss T -> Prop) :
  fsrep s v bl -> 0 <= b < fssize -> (forall h x, vheld v !! h <> Some (b, x)) ->
  (b ∈ bl \/ (size (vheld v) + length bl < nbuf)%nat) ->
  (forall h s', vheld v !! h = None -> fsrep s' (v_hold h b (vcache v b) v) bl -> same_above s s' ->
     wp (k h (vcache v b)) s' Q) ->
  wp (bp ← liftb (bl_read ROOTDEV b); d ← liftb (bl_data bp); k bp d) s Q.
Proof.
  intros HR Hb Hn Hroom HQ. pose proof (fr_inv _ _ _ HR) as HI.
  apply wp_bind, wp_liftb, (law_read _ _ b _ (li_rep _ _ _ HI)); [done|done| |].
  { destruct Hroom as [?|Hroom]; [left; by apply HI|right].
    assert (vdirty v = list_to_set bl) as ->.
    { apply set_eq. intros x. rewrite (li_dirty _ _ _ HI). by rewrite elem_of_list_to_set. }
    rewrite size_list_to_set by apply HI. done. }
  intros h t Hh Ht. apply wp_bind, wp_liftb. simpl.
  apply (law_data _ _ h b (vcache v b) _ Ht); [apply lookup_insert_eq|].
  apply HQ; [done| |done]. by apply (fsrep_view s v).
Qed.

(** Release of an unchanged buffer. *)
Lemma wp_frelease s v bl h b x (Q : unit -> fss T -> Prop) :
  fsrep s (v_hold h b x v) bl -> vheld v !! h = None -> vcache v b = x ->
  (forall s', fsrep s' v bl -> same_above s s' -> Q tt s') ->
  wp (liftb (bl_release h)) s Q.
Proof.
  intros HR Hh Hx HQ. apply wp_liftb, (law_release _ _ h b x _ (li_rep _ _ _ (fr_inv _ _ _ HR))).
  - apply lookup_insert_eq.
  - done.
  - intros t Ht. rewrite v_drop_hold in Ht by done. apply HQ; [|done]. by eapply (fsrep_view s _ v).
Qed.

Lemma fsrep_put s v b x bl s' :
  fsrep s v bl -> log_inv (fl s') (v_pin b x v) (logs bl b) -> same_above s s' -> b <> 1 ->
  lg (fl s') = set_lh (lh_n (lg (fl s'))) (lh_block (lg (fl s'))) (lg (fl s)) ->
  fsrep s' (v_pin b x v) (logs bl b).
Proof.
  intros [HI Ho Hg Hs] HI' (H1 & H2 & H3 & H4) Hb Hlg. constructor; [done| | |].
  - by rewrite Hlg.
  - rewrite Hlg, H2. constructor; apply Hg.
  - simpl. by rewrite fupd_ne, H2 by done.
Qed.

(** New data, log_write, brelse. *)
Lemma wp_fput s v bl h b y x (Q : unit -> fss T -> Prop) :
  fsrep s (v_hold h b y v) bl -> vheld v !! h = None -> meta_home (fsb s) b -> length x = Z.to_nat BSIZE ->
  room (fsb s) bl ->
  (forall s', fsrep s' (v_pin b x v) (logs bl b) -> same_above s s' -> Q tt s') ->
  wp (liftb (bl_set h x);; liftl (log_write h);; liftb (bl_release h)) s Q.
Proof.
  intros HR Hh Hb Hx Hroom HQ. pose proof (fr_inv _ _ _ HR) as HI. pose proof (fr_geo _ _ _ HR) as Hg.
  assert (b <> 1) as Hb1 by (destruct Hb, Hg; lia).
  apply wp_bind, wp_liftb, (law_set _ _ h b y x _ (li_rep _ _ _ HI)); [apply lookup_insert_eq|].
  intros t Ht. pose proof (fsrep_view s _ (v_hold h b x (v_hold h b y v)) bl t HR Ht eq_refl eq_refl eq_refl) as HR1.
  pose proof (fr_inv _ _ _ HR1) as HI1.
  apply wp_bind, wp_liftl, (wp_log_write _ _ bl h b x _ HI1); simpl.
  - apply lookup_insert_eq.
  - by apply (geo_home (fsb s)).
  - done.
  - apply HR.
  - rewrite (wf_n _ _ (li_wf _ _ _ HI)), (g_size _ _ Hg). done.
  - intros s1 HI2 Hlg. apply wp_liftb. simpl.
    apply (law_release _ _ h b x _ (li_rep _ _ _ HI2)); [apply lookup_insert_eq|apply fupd_eq|].
    intros t2 Ht2. rewrite v_put in Ht2 by done. apply HQ; [|done].
    assert (fsrep (with_fl s1 s) (v_pin b x (v_hold h b x (v_hold h b y v))) (logs bl b)) as HR2.
    { apply (fsrep_put _ _ _ _ _ (with_fl s1 s) HR1); done. }
    by apply (fsrep_view (with_fl s1 s) _ (v_pin b x v) _ t2 HR2).
Qed.

Lemma wp_seq3 {A} (a b c : M (fss T) unit) (k : M (fss T) A) s (Q : A -> fss T -> Prop) :
  wp (a;; b;; c) s (fun _ s' => wp k s' Q) -> wp (a;; b;; c;; k) s Q.
Proof.
  intros ([] & s' & Hr & HQ). apply bind_Ok_inv in Hr as ([] & s1 & H1 & Hr).
  apply bind_Ok_inv in Hr as ([] & s2 & H2 & H3).
  apply wp_bind. eapply wp_run; [exact H1|]. apply wp_bind. eapply wp_run; [exact H2|].
  apply wp_bind. by eapply wp_run; [exact H3|].
Qed.

Lemma wp_fput_then {A} s v bl h b y x (k : M (fss T) A) (Q : A -> fss T -> Prop) :
  fsrep s (v_hold h b y v) bl -> vheld v !! h = None -> meta_home (fsb s) b -> length x = Z.to_nat BSIZE ->
  room (fsb s) bl ->
  (forall s', fsrep s' (v_pin b x v) (logs bl b) -> same_above s s' -> wp k s' Q) ->
  wp (liftb (bl_set h x);; liftl (log_write h);; liftb (bl_release h);; k) s Q.
Proof. intros. apply wp_seq3. by eapply wp_fput. Qed.

(** New data and log_write, the buffer still held. *)
Lemma wp_flog_then {A} s v bl h b y x (k : M (fss T) A) (Q : A -> fss T -> Prop) :
  fsrep s (v_hold h b y v) bl -> meta_home (fsb s) b -> length x = Z.to_nat BSIZE -> room (fsb s) bl ->
  (forall s', fsrep s' (v_hold h b x (v_pin b x v)) (logs bl b) -> same_above s s' -> wp k s' Q) ->
  wp (liftb (bl_set h x);; liftl (log_write h);; k) s Q.
Proof.
  intros HR Hb Hx Hroom HQ. pose proof (fr_inv _ _ _ HR) as HI. pose proof (fr_geo _ _ _ HR) as Hg.
  assert (b <> 1) as Hb1 by (destruct Hb, Hg; lia).
  apply wp_bind, wp_liftb, (law_set _ _ h b y x _ (li_rep _ _ _ HI)); [apply lookup_insert_eq|].
  intros t Ht. pose proof (fsrep_view s _ (v_hold h b x (v_hold h b y v)) bl t HR Ht eq_refl eq_refl eq_refl) as HR1.
  pose proof (fr_inv _ _ _ HR1) as HI1.
  apply wp_bind, wp_liftl, (wp_log_write _ _ bl h b x _ HI1); simpl.
  - apply lookup_insert_eq.
  - by apply (geo_home (fsb s)).
  - done.
  - apply HR.
  - rewrite (wf_n _ _ (li_wf _ _ _ HI)), (g_size _ _ Hg). done.
  - intros s1 HI2 Hlg. apply HQ; [|done].
    assert (v_hold h b x (v_pin b x v) = v_pin b x (v_hold h b x (v_hold h b y v))) as ->.
    { unfold v_hold, v_pin. simpl. by rewrite insert_insert_eq. }
    by apply (fsrep_put _ _ _ _ _ (with_fl s1 s) HR1).
Qed.

Lemma fsrep_len s v bl b : fsrep s v bl -> length (vcache v b) = Z.to_nat BSIZE.
Proof. intros HR. apply (li_cache _ _ _ (fr_inv _ _ _ HR)). Qed.

(** Buffers a caller may hold across an allocation: of blocks in use. *)
Definition hold_ok (sb : superblock) (v : bview) : Prop :=
  forall h b x, vheld v !! h = Some (b, x) -> used sb (vcache v) b /\ sb_bmapstart sb < b.

(** Buffers left for another bread. *)
Definition bufs_left (v : bview) (bl : list Z) (k : nat) : Prop := (size (vheld v) + length bl + k <= nbuf)%nat.

Lemma wp_bzero s v bl b (Q : unit -> fss T -> Prop) :
  fsrep s v bl -> meta_home (fsb s) b -> (forall h x, vheld v !! h <> Some (b, x)) ->
  bufs_left v bl 1 -> room (fsb s) bl ->
  (forall s', fsrep s' (v_pin b zero_block v) (logs bl b) -> same_above s s' -> Q tt s') ->
  wp (bzero ROOTDEV b) s Q.
Proof.
  intros HR Hb Hn Hbuf Hroom HQ. pose proof (fr_geo _ _ _ HR) as Hg. pose proof Hb as [Hb1 Hb2].
  pose proof (g_log _ _ Hg). pose proof (g_ino _ _ Hg). pose proof (g_nlog _ _ Hg). unfold bzero, fssize in *. rewrite u32_small by lia.
  apply (wp_fread s v bl b); [done|unfold fssize; lia|done|right; unfold bufs_left in Hbuf; lia|].
  intros h s' Hh HR' Hsa. rewrite splice_all by (rewrite length_replicate; symmetry; by eapply fsrep_len).
  apply (wp_fput s' v bl h b (vcache v b)); [done|done|by destruct Hsa as (_ & -> & _)|apply length_replicate|
    by destruct Hsa as (_ & -> & _)|].
  intros s2 HR2 Hsa2. apply HQ; [done|]. by etransitivity.
Qed.

Lemma room_logs sb bl b : Z.of_nat (length bl) < sb_nlog sb - 2 -> room sb (logs bl b).
Proof. intros Hr. unfold room, logs. case_decide; [lia|]. rewrite length_app. simpl. lia. Qed.

Lemma length_logs bl b : (length bl <= length (logs bl b) <= length bl + 1)%nat.
Proof. unfold logs. case_decide; [lia|]. rewrite length_app. simpl. lia. Qed.

Lemma geo_bblock sb g b : geo sb g -> 0 <= b < fssize -> BBLOCK b sb = sb_bmapstart sb.
Proof.
  intros Hg Hb. pose proof (geo_bmap sb g Hg) as [? ?]. pose proof (g_log _ _ Hg). pose proof (g_ino _ _ Hg). pose proof (g_nlog _ _ Hg).
  unfold BBLOCK, fssize in *. change BPB with 4096. rewrite Z.div_small, u32_small by lia. lia.
Qed.

Lemma geo_one_map sb g : geo sb g -> Z.to_nat ((sb_size sb + BPB - 1) / BPB) = 1%nat.
Proof.
  intros Hg. pose proof (geo_bmap sb g Hg) as [? ?]. pose proof (g_log _ _ Hg). pose proof (g_ino _ _ Hg).
  pose proof (g_nlog _ _ Hg). pose proof (g_data _ _ Hg). pose proof (g_fs _ _ Hg).
  unfold fssize in *. change BPB with 4096. assert ((sb_size sb + 4096 - 1) / 4096 = 1) as ->; [|done].
  symmetry. apply (Z.div_unique _ _ 1 (sb_size sb - 1)); lia.
Qed.

Lemma first_free_spec s v bl a :
  fsrep s v bl -> meta_used (fsb s) (vcache v) -> first_free (fsb s) (vcache v) = Some a ->
  sb_bmapstart (fsb s) < a < sb_size (fsb s) /\ ~ used (fsb s) (vcache v) a /\
  (Z.to_nat (a / 8) < length (vcache v (sb_bmapstart (fsb s))))%nat.
Proof.
  intros HR Hm Hf. pose proof (first_free_cases (fsb s) (vcache v)) as Hs. rewrite Hf in Hs.
  destruct Hs as (Ha & Hsz & Hfr & _).
  assert (~ used (fsb s) (vcache v) a) as Hnu by (unfold used; by rewrite Hfr).
  assert (sb_bmapstart (fsb s) < a).
  { destruct (decide (sb_bmapstart (fsb s) < a)); [done|]. exfalso. apply Hnu, Hm. lia. }
  split; [lia|]. split; [done|]. rewrite (fsrep_len _ _ _ _ HR). change (Z.to_nat BSIZE) with 512%nat.
  assert (a / 8 < 512) by (apply Z.div_lt_upper_bound; lia).
  pose proof (Z.div_pos a 8 ltac:(lia) ltac:(lia)). lia.
Qed.

(** The disk after balloc took block [a]. *)
Definition alloc_view (sb : superblock) (a : Z) (v : bview) : bview :=
  v_pin a zero_block (v_pin (sb_bmapstart sb) (bit_set (vcache v (sb_bmapstart sb)) a) v).

Lemma wp_balloc s v bl a (Q : Z -> fss T -> Prop) :
  fsrep s v bl -> meta_used (fsb s) (vcache v) -> hold_ok (fsb s) v -> first_free (fsb s) (vcache v) = Some a ->
  bufs_left v bl 2 -> Z.of_nat (length bl) < sb_nlog (fsb s) - 2 ->
  (forall s', fsrep s' (alloc_view (fsb s) a v) (logs (logs bl (sb_bmapstart (fsb s))) a) -> same_above s s' -> Q a s') ->
  wp (balloc ROOTDEV) s Q.
Proof.
  intros HR Hm Hh Hf Hbuf Hroom HQ. pose proof (fr_geo _ _ _ HR) as Hg. pose proof (geo_bmap _ _ Hg) as Hbm.
  pose proof (g_log _ _ Hg). pose proof (g_ino _ _ Hg). pose proof (g_nlog _ _ Hg). pose proof (g_fs _ _ Hg).
  destruct (first_free_spec s v bl a HR Hm Hf) as (Ha & Hnu & Hlt).
  unfold balloc. apply wp_bind, wp_gets. rewrite (geo_one_map (fsb s) _ Hg). cbn [balloc_loop].
  apply wp_bind, wp_gets. rewrite (geo_bblock (fsb s) _ 0 Hg) by done.
  apply (wp_fread s v bl (sb_bmapstart (fsb s))); [done|unfold meta_home in Hbm; lia| | |].
  { intros h x Hx. destruct (Hh h _ x Hx). lia. }
  { right. unfold bufs_left in Hbuf. lia. }
  intros h s1 Hn HR1 Hsa1. rewrite (first_free_Some _ _ _ Hf).
  assert (fsb s1 = (fsb s)) as Hsb1 by apply Hsa1.
  assert (length (bit_set (vcache v (sb_bmapstart (fsb s))) a) = Z.to_nat BSIZE).
  { unfold bit_set. rewrite length_insert. by eapply fsrep_len. }
  apply (wp_fput_then s1 v bl h (sb_bmapstart (fsb s)) (vcache v (sb_bmapstart (fsb s)))); rewrite ?Hsb1; try done.
  { unfold room. lia. }
  intros s2 HR2 Hsa2. assert (fsb s2 = (fsb s)) as Hsb2 by (etransitivity; [apply Hsa2|done]).
  rewrite Z.add_0_l. pose proof (length_logs bl (sb_bmapstart (fsb s))).
  apply wp_bind, (wp_bzero s2 _ _ a _ HR2); rewrite ?Hsb2.
  { unfold meta_home in *. lia. }
  { simpl. intros k x Hk. destruct (Hh k a x Hk) as [Hu _]. done. }
  { unfold bufs_left in *. simpl. lia. }
  { by apply room_logs. }
  intros s3 HR3 Hsa3. apply wp_ret, HQ; [done|]. etransitivity; [exact Hsa1|]. by etransitivity.
Qed.

(** bfree clears the bit of a block in use. *)
Lemma wp_bfree s v bl b (Q : unit -> fss T -> Prop) :
  fsrep s v bl -> 0 <= b < fssize -> used (fsb s) (vcache v) b -> hold_ok (fsb s) v ->
  bufs_left v bl 1 -> room (fsb s) bl ->
  let bm := sb_bmapstart (fsb s) in
  (forall s', fsrep s' (v_pin bm (bit_clear (vcache v bm) b) v) (logs bl bm) -> same_above s s' -> Q tt s') ->
  wp (bfree ROOTDEV b) s Q.
Proof.
  intros HR Hb Hu Hh Hbuf Hroom bm HQ. pose proof (fr_geo _ _ _ HR) as Hg. pose proof (geo_bmap _ _ Hg) as Hbm.
  pose proof (g_log _ _ Hg). pose proof (g_ino _ _ Hg). pose proof (g_nlog _ _ Hg). pose proof (fr_inv _ _ _ HR) as HI.
  assert (forall x, (exists h y, vheld v !! h = Some (x, y)) -> sb_bmapstart (fsb s) < x) as Hhb.
  { intros x (h & y & Hy). by destruct (Hh h x y Hy). }
  unfold bfree, readsb. apply wp_bind, wp_liftb. apply wp_bind, (law_read _ _ 1 _ (li_rep _ _ _ HI)); [done| | |].
  { intros h x Hx. specialize (Hhb 1 (ex_intro _ h (ex_intro _ x Hx))). unfold meta_home in Hbm. lia. }
  { right. assert (vdirty v = list_to_set bl) as ->.
    { apply set_eq. intros x. rewrite (li_dirty _ _ _ HI). by rewrite elem_of_list_to_set. }
    rewrite size_list_to_set by apply HI. unfold bufs_left in Hbuf. lia. }
  intros h t Hn Ht. apply wp_bind, (law_data _ _ h 1 (vcache v 1) _ Ht); [apply lookup_insert_eq|].
  apply wp_bind, (law_release _ _ h 1 (vcache v 1) _ Ht); [apply lookup_insert_eq|done|]. intros t1 Ht1.
  rewrite v_drop_hold in Ht1 by done. apply wp_ret. rewrite (fr_sb _ _ _ HR).
  apply wp_bind, wp_modify. rewrite (geo_bblock _ _ b Hg) by done.
  assert (fsrep (with_sb (fsb s) (with_fl (with_low t1 (fl s)) s)) v bl) as HR1.
  { pose proof (fsrep_view s v v bl t1 HR Ht1 eq_refl eq_refl eq_refl) as [? ? ? ?]. by constructor. }
  apply (wp_fread _ v bl bm _ _ HR1); [unfold meta_home in Hbm; unfold bm; lia| | |].
  { intros k x Hx. specialize (Hhb bm (ex_intro _ k (ex_intro _ x Hx))). unfold bm in Hhb. lia. }
  { right. unfold bufs_left in Hbuf. lia. }
  intros h2 s2 Hn2 HR2 Hsa2. cbn zeta. rewrite Z.mod_small by (change BPB with 4096; unfold fssize in *; lia).
  unfold used in Hu. fold bm in Hu. rewrite Hu.
  assert (fsb s2 = fsb s) as Hsb2 by apply Hsa2.
  apply (wp_fput s2 v bl h2 bm (vcache v bm)); rewrite ?Hsb2; try done.
  - unfold bit_clear. rewrite length_insert. by eapply fsrep_len.
  - intros s3 HR3 Hsa3. apply HQ; [done|]. etransitivity; [|exact Hsa3]. destruct Hsa2 as (? & ? & ? & ?). by split_and!.
Qed.

End specs.
