(* ===== verification/FsFile.v ===== *)
(** The contents of files: bmap, readi and writei (fs.c) against the bytes of
    a file as a function of its offsets. *)

From stdpp Require Import gmap.
From S2P Require Import Prelude Codec Sleeplock Blocks Layout Log LogProps Fs FsSpec.

(** The address of block [bn] of a file, 0 if it has none, and of the block
    of indirect addresses. *)
Definition ind (i : inode) : Z := nth NDIR (i_addrs i) 0.

Definition faddr (c : Z -> list Z) (i : inode) (bn : Z) : Z :=
  if bn <? NDIRECT then nth (Z.to_nat bn) (i_addrs i) 0
  else if ind i =? 0 then 0 else get32 (c (ind i)) (4 * Z.to_nat (bn - NDIRECT)).

(** Its contents; a block that is not there reads as zeros. *)
Definition fblock (c : Z -> list Z) (i : inode) (bn : Z) : list Z :=
  if faddr c i bn =? 0 then zero_block else c (faddr c i bn).

Definition fbyte (c : Z -> list Z) (i : inode) (off : Z) : Z :=
  nth (Z.to_nat (off mod BSIZE)) (fblock c i (off / BSIZE)) 0.

(** The bytes [off], [off+1], ..., [off+n-1]. *)
Definition fbytes (c : Z -> list Z) (i : inode) (off : Z) (n : nat) : list Z :=
  (fun k => fbyte c i (off + Z.of_nat k)) <$> seq 0 n.

Definition data_block (sb : superblock) (a : Z) : Prop :=
  0 < sb_bmapstart sb /\ sb_bmapstart sb < a < sb_size sb.

(** The blocks of a file are data blocks in use, each used once. *)
Record finv (sb : superblock) (c : Z -> list Z) (i : inode) : Prop := {
  fi_len : length (i_addrs i) = 13%nat;
  fi_uint : Forall uint (i_addrs i);
  fi_dev : i_dev i = ROOTDEV;
  fi_ind : ind i <> 0 -> data_block sb (ind i) /\ used sb c (ind i);
  fi_addr bn : 0 <= bn < MAXFILE -> faddr c i bn <> 0 ->
    data_block sb (faddr c i bn) /\ used sb c (faddr c i bn) /\ faddr c i bn <> ind i;
  fi_inj bn bn' : 0 <= bn < MAXFILE -> 0 <= bn' < MAXFILE -> faddr c i bn <> 0 ->
    faddr c i bn = faddr c i bn' -> bn = bn' }.

Lemma data_pos sb a : data_block sb a -> 0 < a.
Proof. unfold data_block. lia. Qed.

Lemma data_home sb g a : geo sb g -> data_block sb a -> meta_home sb a.
Proof.
  intros Hg (_ & Ha & Hs). pose proof (geo_bmap _ _ Hg) as [? _]. pose proof (g_fs _ _ Hg). unfold meta_home. lia.
Qed.

Lemma get32_zero off : (off + 4 <= Z.to_nat BSIZE)%nat -> get32 zero_block off = 0.
Proof.
  intros Ho. unfold get32, slice, zero_block. rewrite drop_replicate, take_replicate, Nat.min_l by lia. done.
Qed.

(** What balloc does to the map and to the blocks. *)
Record alloced (sb : superblock) (c : Z -> list Z) (a : Z) (c' : Z -> list Z) : Prop := {
  al_data : data_block sb a;
  al_new : ~ used sb c a;
  al_zero : c' a = zero_block;
  al_same b : b <> a -> b <> sb_bmapstart sb -> c' b = c b;
  al_used b : 0 <= b -> used sb c' b <-> used sb c b \/ b = a;
  al_meta : meta_used sb c' }.

Lemma al_ne sb c a c' b : alloced sb c a c' -> used sb c b -> b <> a.
Proof. intros Ha Hu ->. by apply (al_new _ _ _ _ Ha). Qed.

Lemma alloc_facts {T} `{BufLaws T} (s : fss T) v bl a :
  fsrep s v bl -> meta_used (fsb s) (vcache v) -> first_free (fsb s) (vcache v) = Some a ->
  alloced (fsb s) (vcache v) a (vcache (alloc_view (fsb s) a v)).
Proof.
  intros HR Hm Hf. destruct (first_free_spec s v bl a HR Hm Hf) as (Ha & Hnu & Hlt).
  pose proof (geo_bmap _ _ (fr_geo _ _ _ HR)) as [? _]. pose proof (g_log _ _ (fr_geo _ _ _ HR)).
  pose proof (g_ino _ _ (fr_geo _ _ _ HR)). pose proof (g_nlog _ _ (fr_geo _ _ _ HR)).
  set (c := vcache v). set (c' := vcache (alloc_view (fsb s) a v)). set (sb := fsb s) in *.
  assert (forall b, 0 <= b -> used sb c' b <-> used sb c b \/ b = a) as Hu.
  { intros b Hb. unfold used, c', alloc_view. simpl. rewrite fupd_ne by lia. rewrite fupd_eq.
    rewrite bit_set_spec; [|lia|done|done]. case_decide as D.
    - subst b. split; [by right|done].
    - unfold c. split; [by left|]. intros [?|?]; [done|congruence]. }
  constructor; try done.
  - unfold data_block. lia.
  - apply fupd_eq.
  - intros b Hb Hbm. unfold c', alloc_view. simpl. by rewrite !fupd_ne.
  - intros b Hb. apply Hu; [lia|]. left. by apply Hm.
Qed.

(** A file that may have got blocks, with the same contents. *)
Record ext (sb : superblock) (c : Z -> list Z) (i : inode) (c' : Z -> list Z) (i' : inode) : Prop := {
  x_inv : finv sb c' i';
  x_meta : meta_used sb c';
  x_addr bn : 0 <= bn < MAXFILE -> faddr c i bn <> 0 -> faddr c' i' bn = faddr c i bn;
  x_block bn : 0 <= bn < MAXFILE -> fblock c' i' bn = fblock c i bn;
  x_used b : 0 <= b -> used sb c b -> used sb c' b;
  x_frame b : 0 <= b -> used sb c b -> b <> sb_bmapstart sb -> b <> ind i -> c' b = c b;
  x_new bn : 0 <= bn < MAXFILE -> faddr c i bn = 0 -> faddr c' i' bn = 0 \/ ~ used sb c (faddr c' i' bn);
  x_ind : ind i' = ind i \/ ind i = 0 /\ ~ used sb c (ind i');
  x_rest : i' = i_load (mkDinode (i_type i) (i_major i) (i_minor i) (i_nlink i) (i_size i) (i_addrs i')) i }.

Lemma ext_refl sb c i : finv sb c i -> meta_used sb c -> ext sb c i c i.
Proof. intros Hi Hm. constructor; try done; [by left|by left|]. by destruct i. Qed.

Lemma ext_trans sb c i c1 i1 c2 i2 : ext sb c i c1 i1 -> ext sb c1 i1 c2 i2 -> ext sb c i c2 i2.
Proof.
  intros [A1 A2 A3 A4 A5 A6 A0 A7 A8] [B1 B2 B3 B4 B5 B6 B0 B7 B8]. constructor; try done.
  - intros bn Hbn H0. rewrite B3; [by apply A3|done|]. by rewrite A3.
  - intros bn Hbn. rewrite B4 by done. by apply A4.
  - auto.
  - intros b Hb Hu Hbm Hi. rewrite B6; [by apply A6|done|by apply A5|done|].
    destruct A7 as [->|[_ Hn]]; [done|]. by intros ->.
  - intros bn Hbn H0. destruct (decide (faddr c1 i1 bn = 0)) as [E|E].
    + destruct (B0 bn Hbn E) as [?|Hn]; [by left|]. right. intros Hu. apply Hn, A5; [|done].
      destruct (decide (faddr c2 i2 bn = 0)); [lia|].
      destruct (fi_addr _ _ _ B1 bn Hbn) as [Hd%data_pos _]; [done|lia].
    + rewrite (B3 bn Hbn E). by apply A0.
  - destruct B7 as [->|[H0 Hn]]; [done|]. right. split.
    + destruct A7 as [<-|[? _]]; done.
    + intros Hu. apply Hn. apply A5; [|done].
      destruct (decide (ind i2 = 0)) as [->|Hne]; [lia|].
      destruct (fi_ind _ _ _ B1 Hne) as [Hd%data_pos _]. lia.
  - rewrite B8. rewrite A8 at 1 2 3 4 5 6. done.
Qed.

Lemma nth_set_addr i k a j :
  length (i_addrs i) = 13%nat -> (k < 13)%nat ->
  nth j (i_addrs (i_set_addr k a i)) 0 = if decide (k = j) then a else nth j (i_addrs i) 0.
Proof. intros Hl Hk. apply nth_insert. lia. Qed.

Lemma finv_set_addr sb c i k a :
  finv sb c i -> (k < 13)%nat -> data_block sb a -> sb_size sb <= fssize ->
  length (i_addrs (i_set_addr k a i)) = 13%nat /\ Forall uint (i_addrs (i_set_addr k a i)).
Proof.
  intros Hi Hk (Hb & Ha) Hs. simpl. split; [rewrite length_insert; apply Hi|].
  apply Forall_insert; [apply Hi|]. unfold uint, fssize in *. lia.
Qed.

(** Case 1: a direct block. *)
Lemma ext_direct sb c i bn a c' :
  finv sb c i -> alloced sb c a c' -> sb_size sb <= fssize -> 0 <= bn < NDIRECT -> faddr c i bn = 0 ->
  let i' := i_set_addr (Z.to_nat bn) a i in
  ext sb c i c' i' /\ faddr c' i' bn = a.
Proof.
  intros Hi Ha Hs Hbn H0 i'. unfold NDIRECT in Hbn.
  pose proof (fi_len _ _ _ Hi) as Hl. pose proof (data_pos _ _ (al_data _ _ _ _ Ha)) as Hap.
  destruct (finv_set_addr sb c i (Z.to_nat bn) a Hi ltac:(lia) (al_data _ _ _ _ Ha) Hs) as [Hl' Hu'].
  assert (ind i' = ind i) as Hind.
  { unfold ind, i'. rewrite nth_set_addr by (done || lia). rewrite decide_False; [done|]. unfold NDIR, NDIRECT. lia. }
  assert (ind i <> 0 -> c' (ind i) = c (ind i)) as Hci.
  { intros Hne. destruct (fi_ind _ _ _ Hi Hne) as [Hd Hu]. apply (al_same _ _ _ _ Ha); [by eapply al_ne|].
    destruct Hd. lia. }
  assert (forall bn', 0 <= bn' < MAXFILE -> faddr c' i' bn' = if decide (bn' = bn) then a else faddr c i bn') as Hfa.
  { intros bn' Hbn'. unfold faddr. rewrite Hind. destruct (bn' <? NDIRECT) eqn:E.
    - unfold i'. rewrite nth_set_addr by (done || lia). case_decide as D; case_decide as D'; try done; lia.
    - unfold NDIRECT in E. rewrite decide_False by lia. destruct (ind i =? 0) eqn:E'; [done|]. rewrite Hci by lia. done. }
  assert (0 <= bn < MAXFILE) as HbM by (change MAXFILE with 140; lia).
  split; [|by rewrite Hfa, decide_True by done].
  assert (forall x, 0 <= x -> used sb c x -> used sb c' x) as Hus by (intros x Hx Hu; apply (al_used _ _ _ _ Ha); auto).
  constructor; [constructor| | | | | | | |]; try done.
  - apply Hi.
  - rewrite Hind. intros Hne. destruct (fi_ind _ _ _ Hi Hne) as [Hd Hu]. split; [done|]. apply Hus; [|done].
    pose proof (data_pos _ _ Hd). lia.
  - intros x Hx. rewrite Hfa by done. rewrite Hind. case_decide as D.
    + intros _. split; [apply Ha|]. split; [apply (al_used _ _ _ _ Ha); [lia|by right]|].
      intros E. destruct (fi_ind _ _ _ Hi ltac:(lia)) as [_ Hu]. by apply (al_ne _ _ _ _ _ Ha Hu).
    + intros Hne. destruct (fi_addr _ _ _ Hi x Hx Hne) as (Hd & Hu & Hn). split_and!; try done. apply Hus; [|done].
      pose proof (data_pos _ _ Hd). lia.
  - intros x y Hx Hy. rewrite !Hfa by done. case_decide as D; case_decide as D'; try congruence.
    + intros _ E. exfalso. destruct (fi_addr _ _ _ Hi y Hy ltac:(lia)) as (_ & Hu & _). rewrite <- E in Hu.
      by apply (al_new _ _ _ _ Ha).
    + intros Hne E. exfalso. destruct (fi_addr _ _ _ Hi x Hx Hne) as (_ & Hu & _). rewrite E in Hu.
      by apply (al_new _ _ _ _ Ha).
    + by apply Hi.
  - apply Ha.
  - intros x Hx Hne. rewrite Hfa by done. rewrite decide_False; [done|]. by intros ->.
  - intros x Hx. unfold fblock. rewrite Hfa by done. case_decide as D.
    + subst x. rewrite H0. replace (a =? 0) with false by lia. apply Ha.
    + destruct (faddr c i x =? 0) eqn:E; [done|]. destruct (fi_addr _ _ _ Hi x Hx ltac:(lia)) as (Hd & Hu & _).
      apply (al_same _ _ _ _ Ha); [|destruct Hd; lia]. by eapply al_ne.
  - intros b Hb Hu Hbm _. apply (al_same _ _ _ _ Ha); [by eapply al_ne|done].
  - intros x Hx E. rewrite Hfa by done. case_decide; [right; apply Ha|by left].
  - by left.
Qed.

(** Case 2: the block of indirect addresses. *)
Lemma ext_indirect sb c i a c' :
  finv sb c i -> alloced sb c a c' -> sb_size sb <= fssize -> ind i = 0 ->
  let i' := i_set_addr NDIR a i in
  ext sb c i c' i' /\ ind i' = a.
Proof.
  intros Hi Ha Hs H0 i'.
  pose proof (fi_len _ _ _ Hi) as Hl. pose proof (data_pos _ _ (al_data _ _ _ _ Ha)) as Hap.
  destruct (finv_set_addr sb c i NDIR a Hi ltac:(unfold NDIR, NDIRECT; lia) (al_data _ _ _ _ Ha) Hs) as [Hl' Hu'].
  assert (ind i' = a) as Hind.
  { unfold ind, i'. rewrite nth_set_addr by (done || (unfold NDIR, NDIRECT; lia)). by rewrite decide_True. }
  assert (forall bn', 0 <= bn' < MAXFILE -> faddr c' i' bn' = faddr c i bn') as Hfa.
  { intros bn' Hbn'. change MAXFILE with 140 in Hbn'. unfold faddr. rewrite Hind, H0. cbn [Z.eqb]. destruct (bn' <? NDIRECT) eqn:E.
    - unfold NDIRECT in E. unfold i'. rewrite nth_set_addr by (done || (unfold NDIR, NDIRECT; lia)).
      rewrite decide_False; [done|]. unfold NDIR, NDIRECT. lia.
    - replace (a =? 0) with false by lia. rewrite (al_zero _ _ _ _ Ha). apply get32_zero.
      unfold NDIRECT in *. change (Z.to_nat BSIZE) with 512%nat. lia. }
  split; [|done].
  assert (forall x, 0 <= x -> used sb c x -> used sb c' x) as Hus by (intros x Hx Hu; apply (al_used _ _ _ _ Ha); auto).
  assert (forall x, 0 <= x < MAXFILE -> faddr c i x <> 0 -> faddr c i x <> a) as Hna.
  { intros x Hx Hne. destruct (fi_addr _ _ _ Hi x Hx Hne) as (_ & Hu & _). by eapply al_ne. }
  constructor; [constructor| | | | | | | |]; try done.
  - apply Hi.
  - rewrite Hind. intros _. split; [apply Ha|]. apply (al_used _ _ _ _ Ha); [lia|by right].
  - intros x Hx. rewrite Hfa, Hind by done. intros Hne. destruct (fi_addr _ _ _ Hi x Hx Hne) as (Hd & Hu & _).
    split_and!; [done|apply Hus; [|done]|by apply Hna]. pose proof (data_pos _ _ Hd). lia.
  - intros x y Hx Hy. rewrite !Hfa by done. by apply Hi.
  - apply Ha.
  - intros x Hx Hne. by apply Hfa.
  - intros x Hx. unfold fblock. rewrite Hfa by done. destruct (faddr c i x =? 0) eqn:E; [done|].
    destruct (fi_addr _ _ _ Hi x Hx ltac:(lia)) as (Hd & Hu & _).
    apply (al_same _ _ _ _ Ha); [|destruct Hd; lia]. apply Hna; [done|lia].
  - intros b Hb Hu Hbm _. apply (al_same _ _ _ _ Ha); [by eapply al_ne|done].
  - intros x Hx E. left. by rewrite Hfa.
  - right. rewrite Hind. split; [done|apply Ha].
Qed.

(** Case 3: a block entered in the block of indirect addresses. *)
Lemma ext_entry sb c i bn a c1 :
  finv sb c i -> alloced sb c a c1 -> sb_size sb <= fssize -> sized c -> ind i <> 0 ->
  NDIRECT <= bn < MAXFILE -> faddr c i bn = 0 ->
  let c' := fupd c1 (ind i) (put32 (c (ind i)) (4 * Z.to_nat (bn - NDIRECT)) a) in
  ext sb c i c' i /\ faddr c' i bn = a.
Proof.
  intros Hi Ha Hs Hsz Hind Hbn H0 c'. change MAXFILE with 140 in Hbn. unfold NDIRECT in Hbn.
  pose proof (data_pos _ _ (al_data _ _ _ _ Ha)) as Hap.
  destruct (fi_ind _ _ _ Hi Hind) as [Hdi Hui]. pose proof (al_ne _ _ _ _ _ Ha Hui) as Hia.
  assert (ind i <> sb_bmapstart sb) as Hib by (destruct Hdi; lia).
  assert (sb_bmapstart sb <> a) as Hab by (destruct (al_data _ _ _ _ Ha); lia).
  assert (length (c (ind i)) = 512%nat) as Hli by apply Hsz.
  assert (forall bn', 0 <= bn' < MAXFILE -> faddr c' i bn' = if decide (bn' = bn) then a else faddr c i bn') as Hfa.
  { intros bn' Hbn'. change MAXFILE with 140 in Hbn'. unfold faddr. destruct (bn' <? NDIRECT) eqn:E.
    - unfold NDIRECT in E. by rewrite decide_False by lia.
    - unfold NDIRECT in *. replace (ind i =? 0) with false by lia. unfold c'. rewrite fupd_eq. case_decide as D.
      + subst bn'. rewrite get32_put32_eq by lia. apply u32_small.
        pose proof (al_data _ _ _ _ Ha) as (_ & _ & ?). unfold fssize in *. lia.
      + apply get32_put32_ne; lia. }
  assert (forall x, 0 <= x -> used sb c' x <-> used sb c1 x) as Hu1.
  { intros x Hx. unfold used, c'. by rewrite fupd_ne by done. }
  assert (forall x, 0 <= x -> used sb c x -> used sb c' x) as Hus.
  { intros x Hx Hu. apply Hu1; [done|]. apply (al_used _ _ _ _ Ha); auto. }
  assert (forall x, 0 <= x -> used sb c x -> x <> sb_bmapstart sb -> x <> ind i -> c' x = c x) as Hfr.
  { intros x Hx Hu Hb Hn. unfold c'. rewrite fupd_ne by done. apply (al_same _ _ _ _ Ha); [by eapply al_ne|done]. }
  assert (0 <= bn < MAXFILE) as HbM by (change MAXFILE with 140; lia).
  split; [|by rewrite Hfa, decide_True by done].
  constructor; [constructor| | | | | | | |]; try done; try apply Hi.
  - intros _. split; [done|]. apply Hus; [|done]. pose proof (data_pos _ _ Hdi). lia.
  - intros x Hx. rewrite Hfa by done. case_decide as D.
    + intros _. split_and!; [apply Ha| |congruence]. apply Hu1; [lia|]. apply (al_used _ _ _ _ Ha); [lia|by right].
    + intros Hne. destruct (fi_addr _ _ _ Hi x Hx Hne) as (Hd & Hu & Hn). split_and!; try done. apply Hus; [|done].
      pose proof (data_pos _ _ Hd). lia.
  - intros x y Hx Hy. rewrite !Hfa by done. case_decide as D; case_decide as D'; try congruence.
    + intros _ E. exfalso. destruct (fi_addr _ _ _ Hi y Hy ltac:(lia)) as (_ & Hu & _).
      by apply (al_ne _ _ _ _ _ Ha Hu).
    + intros Hne E. exfalso. destruct (fi_addr _ _ _ Hi x Hx Hne) as (_ & Hu & _). by apply (al_ne _ _ _ _ _ Ha Hu).
    + by apply Hi.
  - intros x Hx. apply Hu1; [lia|]. by apply (al_meta _ _ _ _ Ha).
  - intros x Hx Hne. rewrite Hfa by done. rewrite decide_False; [done|]. by intros ->.
  - intros x Hx. unfold fblock. rewrite Hfa by done. case_decide as D.
    + subst x. rewrite H0. replace (a =? 0) with false by lia. unfold c'. rewrite fupd_ne by congruence. apply Ha.
    + destruct (faddr c i x =? 0) eqn:E; [done|]. destruct (fi_addr _ _ _ Hi x Hx ltac:(lia)) as (Hd & Hu & Hn).
      apply Hfr; [|done|destruct Hd; lia|done]. pose proof (data_pos _ _ Hd). lia.
  - intros x Hx E. rewrite Hfa by done. case_decide; [right; apply Ha|by left].
  - by left.
  - by destruct i.
Qed.

(** * Free blocks *)

Definition nfree (sb : superblock) (c : Z -> list Z) : nat :=
  length (filter (fun b => bit_free (c (sb_bmapstart sb)) (Z.of_nat b) = true) (seq 0 (Z.to_nat (sb_size sb)))).

Lemma filter_same {A} (P Q : A -> Prop) `{!forall x, Decision (P x), !forall x, Decision (Q x)} (l : list A) :
  (forall x, x ∈ l -> P x <-> Q x) -> filter P l = filter Q l.
Proof.
  induction l as [|x l IH]; intros Hl; [done|].
  assert (filter P l = filter Q l) as IH' by (apply IH; intros y Hy; apply Hl; by right).
  pose proof (Hl x ltac:(left)) as Hx. destruct (decide (P x)).
  - rewrite !filter_cons_True by tauto. by rewrite IH'.
  - rewrite !filter_cons_False by tauto. done.
Qed.

Lemma filter_one `{EqDecision A} (P Q : A -> Prop) `{!forall x, Decision (P x), !forall x, Decision (Q x)} (l : list A) a :
  NoDup l -> a ∈ l -> P a -> ~ Q a -> (forall b, b <> a -> P b <-> Q b) ->
  length (filter P l) = S (length (filter Q l)).
Proof.
  intros Hnd Ha HP HQ Hrest. induction l as [|x l IH]; [by apply not_elem_of_nil in Ha|].
  apply NoDup_cons in Hnd as [Hx Hnd]. destruct (decide (x = a)) as [->|Hne].
  - rewrite filter_cons_True, filter_cons_False by done. simpl. f_equal. f_equal.
    apply filter_same. intros y Hy. apply Hrest. by intros ->.
  - apply elem_of_cons in Ha as [?|Ha]; [congruence|]. destruct (decide (P x)).
    + rewrite !filter_cons_True by (done || by apply Hrest). simpl. f_equal. by apply IH.
    + rewrite !filter_cons_False by (done || by rewrite <- Hrest). by apply IH.
Qed.

Lemma nfree_alloced sb c a c' : 0 <= sb_bmapstart sb -> alloced sb c a c' -> nfree sb c = S (nfree sb c').
Proof.
  intros Hbm Ha. pose proof (al_data _ _ _ _ Ha) as (_ & Hd). unfold nfree.
  apply (filter_one _ _ _ (Z.to_nat a)).
  - apply NoDup_ListNoDup, seq_NoDup.
  - apply elem_of_seq. lia.
  - rewrite Z2Nat.id by lia. apply not_false_iff_true. apply Ha.
  - rewrite Z2Nat.id by lia. intros Hf.
    assert (used sb c' a) as Hu by (apply (al_used _ _ _ _ Ha); [lia|by right]). unfold used in Hu. congruence.
  - intros b Hb. assert (used sb c' (Z.of_nat b) <-> used sb c (Z.of_nat b)) as Hu.
    { rewrite (al_used _ _ _ _ Ha) by lia. split; [|by left]. intros [?|?]; [done|]. lia. }
    unfold used in Hu. rewrite <- !not_false_iff_true. by rewrite Hu.
Qed.

Lemma nfree_ext sb c c' : c' (sb_bmapstart sb) = c (sb_bmapstart sb) -> nfree sb c' = nfree sb c.
Proof. intros E. unfold nfree. by rewrite E. Qed.

Lemma nfree_first {T} `{BufLaws T} (s : fss T) v bl :
  fsrep s v bl -> (0 < nfree (fsb s) (vcache v))%nat -> exists a, first_free (fsb s) (vcache v) = Some a.
Proof.
  intros HR Hn. pose proof (fr_geo _ _ _ HR) as Hg. pose proof (g_fs _ _ Hg) as Hfs.
  pose proof (first_free_cases (fsb s) (vcache v)) as Hs.
  destruct (first_free (fsb s) (vcache v)) as [a|]; [by exists a|]. exfalso.
  unfold nfree in Hn. rewrite filter_none in Hn; [simpl in Hn; lia|].
  intros b Hb Hf. apply elem_of_seq in Hb. unfold fssize in Hfs. unfold used in Hs.
  rewrite Hs in Hf; [done|lia|lia].
Qed.

(** Every block below the size is there. *)
Definition mapped (c : Z -> list Z) (i : inode) : Prop :=
  0 <= i_size i <= MAXFILE * BSIZE /\
  forall bn, 0 <= bn -> bn * BSIZE < i_size i -> faddr c i bn <> 0.

Lemma length_fbytes c i off n : length (fbytes c i off n) = n.
Proof. unfold fbytes. by rewrite length_fmap, length_seq. Qed.

Lemma lookup_fbytes c i off n k : (k < n)%nat -> fbytes c i off n !! k = Some (fbyte c i (off + Z.of_nat k)).
Proof. intros Hk. unfold fbytes. by rewrite list_lookup_fmap, lookup_seq_lt. Qed.

Lemma fbytes_app c i off m n : fbytes c i off (m + n) = fbytes c i off m ++ fbytes c i (off + Z.of_nat m) n.
Proof.
  apply list_eq. intros k. destruct (decide (k < m)%nat).
  - rewrite lookup_app_l by (rewrite length_fbytes; lia). by rewrite !lookup_fbytes by lia.
  - rewrite lookup_app_r by (rewrite length_fbytes; lia). rewrite length_fbytes.
    destruct (decide (k < m + n)%nat).
    + rewrite !lookup_fbytes by lia. do 2 f_equal. lia.
    + rewrite !lookup_ge_None_2 by (rewrite length_fbytes; lia). done.
Qed.

(** Offsets [off + k] inside the block of [off]. *)
Lemma same_block off k : 0 <= off -> 0 <= k -> off mod BSIZE + k < BSIZE ->
  (off + k) / BSIZE = off / BSIZE /\ (off + k) mod BSIZE = off mod BSIZE + k.
Proof.
  unfold BSIZE. intros Ho Hk Hlt. pose proof (Z.mod_pos_bound off 512 ltac:(lia)).
  split.
  - symmetry. apply (Z.div_unique _ _ _ (off mod 512 + k)); [lia|]. pose proof (Z.div_mod off 512 ltac:(lia)). lia.
  - symmetry. apply (Z.mod_unique _ _ (off / 512)); [lia|]. pose proof (Z.div_mod off 512 ltac:(lia)). lia.
Qed.

(** The part of a block that readi copies is the bytes of the file there. *)
Lemma slice_fblock c i off m :
  0 <= off -> 0 <= m -> off mod BSIZE + m <= BSIZE -> length (fblock c i (off / BSIZE)) = Z.to_nat BSIZE ->
  slice (Z.to_nat (off mod BSIZE)) (Z.to_nat m) (fblock c i (off / BSIZE)) = fbytes c i off (Z.to_nat m).
Proof.
  intros Ho Hm Hle Hl. pose proof (Z.mod_pos_bound off BSIZE ltac:(done)). apply list_eq. intros k.
  destruct (decide (k < Z.to_nat m)%nat).
  - rewrite lookup_slice, lookup_fbytes by done. unfold fbyte.
    destruct (same_block off (Z.of_nat k)) as [-> ->]; [done|lia|lia|].
    rewrite Z2Nat.inj_add, Nat2Z.id by lia. rewrite nth_lookup.
    destruct (lookup_lt_is_Some_2 (fblock c i (off / BSIZE)) (Z.to_nat (off mod BSIZE) + k)) as [x ->]; [lia|done].
  - unfold slice. rewrite lookup_take_ge by lia. symmetry. apply lookup_ge_None. rewrite length_fbytes. lia.
Qed.

Lemma length_fblock c i bn : sized c -> length (fblock c i bn) = Z.to_nat BSIZE.
Proof. intros Hc. unfold fblock. destruct (_ =? 0); [apply length_replicate|apply Hc]. Qed.

(** One turn of the loops of readi and writei. *)
Lemma turn off n : 0 <= off -> 0 < n ->
  forall m, m = Z.min n (BSIZE - off mod BSIZE) ->
  0 < m <= n /\ off mod BSIZE + m <= BSIZE /\ 0 <= off mod BSIZE < BSIZE /\
  forall fuel, n + off mod BSIZE <= BSIZE * (fuel + 1) -> n - m <= 0 \/ (n - m) + (off + m) mod BSIZE <= BSIZE * fuel.
Proof.
  unfold BSIZE. intros Ho Hn m E. pose proof (Z.mod_pos_bound off 512 ltac:(lia)) as Hm.
  split; [lia|]. split; [lia|]. split; [lia|]. intros fuel Hf. destruct (decide (n <= 512 - off mod 512)); [left; lia|right].
  assert ((off + m) mod 512 = 0) as ->.
  { symmetry. apply (Z.mod_unique _ _ (off / 512 + 1)); [lia|]. pose proof (Z.div_mod off 512 ltac:(lia)). lia. }
  lia.
Qed.

(** [src] has been written at [off]: the bytes there are [src], all others are
    as before, blocks of other files are untouched. *)
Record wrote (sb : superblock) (c : Z -> list Z) (i : inode) (off : Z) (src : list Z)
    (c' : Z -> list Z) (i' : inode) : Prop := {
  w_inv : finv sb c' i';
  w_meta : meta_used sb c';
  w_addr bn : 0 <= bn < MAXFILE -> faddr c i bn <> 0 -> faddr c' i' bn = faddr c i bn;
  w_new bn : 0 <= bn < MAXFILE -> faddr c i bn = 0 -> faddr c' i' bn = 0 \/ ~ used sb c (faddr c' i' bn);
  w_bytes x : 0 <= x < MAXFILE * BSIZE -> fbyte c' i' x =
    if decide (off <= x < off + Z.of_nat (length src)) then nth (Z.to_nat (x - off)) src 0 else fbyte c i x;
  w_there x : off <= x < off + Z.of_nat (length src) -> faddr c' i' (x / BSIZE) <> 0;
  w_used b : 0 <= b -> used sb c b -> used sb c' b;
  w_frame b : 0 <= b -> used sb c b -> b <> sb_bmapstart sb -> b <> ind i ->
    (forall bn, 0 <= bn < MAXFILE -> faddr c i bn <> b) -> c' b = c b;
  w_ind : ind i' = ind i \/ ind i = 0 /\ ~ used sb c (ind i');
  w_rest : i' = i_load (mkDinode (i_type i) (i_major i) (i_minor i) (i_nlink i) (i_size i) (i_addrs i')) i }.

Lemma block_range x : 0 <= x < MAXFILE * BSIZE -> 0 <= x / BSIZE < MAXFILE.
Proof.
  intros Hx. split; [apply Z.div_pos; [lia|done]|]. apply Z.div_lt_upper_bound; [done|]. lia.
Qed.

Lemma ext_wrote sb c i off c' i' : ext sb c i c' i' -> wrote sb c i off [] c' i'.
Proof.
  intros [A1 A2 A3 A4 A5 A6 A0 A7 A8]. constructor; try done.
  - intros x Hx. rewrite decide_False by (simpl; lia). unfold fbyte. by rewrite A4 by by apply block_range.
  - simpl. lia.
  - intros b Hb Hu Hbm Hi _. by apply A6.
Qed.

Lemma wrote_trans sb c i off src c1 i1 src1 c2 i2 :
  wrote sb c i off src c1 i1 -> wrote sb c1 i1 (off + Z.of_nat (length src)) src1 c2 i2 ->
  0 <= off -> off + Z.of_nat (length src) <= MAXFILE * BSIZE ->
  wrote sb c i off (src ++ src1) c2 i2.
Proof.
  intros [A1 A2 A3 A4 A5 A6 A7 A8 A9 A10] [B1 B2 B3 B4 B5 B6 B7 B8 B9 B10] Ho Hmax. constructor; try done.
  - intros bn Hbn H0. rewrite B3; [by apply A3|done|]. by rewrite A3.
  - intros bn Hbn H0. destruct (decide (faddr c1 i1 bn = 0)) as [E|E].
    + destruct (B4 bn Hbn E) as [?|Hn]; [by left|]. right. intros Hu. apply Hn, A7; [|done].
      destruct (decide (faddr c2 i2 bn = 0)); [lia|].
      destruct (fi_addr _ _ _ B1 bn Hbn) as [Hd%data_pos _]; [done|lia].
    + rewrite (B3 bn Hbn E). by apply A4.
  - intros x Hx. rewrite B5, A5 by done. rewrite length_app, Nat2Z.inj_add.
    repeat case_decide; try lia; try done.
    + rewrite app_nth2 by lia. f_equal. lia.
    + rewrite app_nth1 by lia. done.
  - intros x Hx. rewrite length_app, Nat2Z.inj_add in Hx.
    destruct (decide (x < off + Z.of_nat (length src))); [|apply B6; lia].
    pose proof (A6 x ltac:(lia)) as Hne. rewrite B3; [done| |done]. apply block_range. lia.
  - auto.
  - intros b Hb Hu Hbm Hi Hf. rewrite B8; [by apply A8|done|by apply A7|done| |].
    + destruct A9 as [->|[_ Hn]]; [done|]. by intros ->.
    + intros bn Hbn E. destruct (decide (faddr c i bn = 0)) as [E0|E0].
      * destruct (A4 bn Hbn E0) as [E1|Hn]; [|apply Hn; by rewrite E]. apply (Hf bn Hbn). congruence.
      * apply (Hf bn Hbn). rewrite <- E. symmetry. by apply A3.
  - destruct B9 as [->|[H0 Hn]]; [done|]. right. split.
    + destruct A9 as [<-|[? _]]; done.
    + intros Hu. apply Hn, A7; [|done]. destruct (decide (ind i2 = 0)) as [->|Hne]; [lia|].
      destruct (fi_ind _ _ _ B1 Hne) as [Hd%data_pos _]. lia.
  - rewrite B10. rewrite A10 at 1 2 3 4 5 6. done.
Qed.

(** One block of the file is overwritten in part. *)
Lemma wrote_block sb c i off src :
  finv sb c i -> meta_used sb c -> sized c -> 0 <= off -> src <> [] ->
  off mod BSIZE + Z.of_nat (length src) <= BSIZE -> 0 <= off / BSIZE < MAXFILE ->
  faddr c i (off / BSIZE) <> 0 ->
  let a := faddr c i (off / BSIZE) in
  wrote sb c i off src (fupd c a (splice (Z.to_nat (off mod BSIZE)) src (c a))) i.
Proof.
  intros Hi Hm Hsz Ho Hsrc Hle Hbn Hne a. set (bn := off / BSIZE) in *.
  destruct (fi_addr _ _ _ Hi bn Hbn Hne) as (Hd & Hu & Hni). fold a in Hd, Hu, Hni, Hne.
  assert (sb_bmapstart sb <> a) as Hbm by (destruct Hd; lia). set (x := splice _ _ _).
  pose proof (Z.mod_pos_bound off BSIZE ltac:(done)) as Hmod.
  assert (length (c a) = Z.to_nat BSIZE) as Hla by apply Hsz.
  assert (Z.to_nat (off mod BSIZE) + length src <= length (c a))%nat as Hfit by (rewrite Hla; unfold BSIZE in *; lia).
  assert (forall b, used sb (fupd c a x) b <-> used sb c b) as Huse by (intros b; unfold used; by rewrite fupd_ne).
  assert (forall bn', 0 <= bn' < MAXFILE -> faddr (fupd c a x) i bn' = faddr c i bn') as Hfa.
  { intros bn' Hbn'. unfold faddr. destruct (bn' <? NDIRECT); [done|]. destruct (ind i =? 0); [done|].
    by rewrite fupd_ne by done. }
  assert (forall bn', 0 <= bn' < MAXFILE -> fblock (fupd c a x) i bn' = if decide (bn' = bn) then x else fblock c i bn') as Hfb.
  { intros bn' Hbn'. unfold fblock. rewrite Hfa by done. case_decide as D.
    - subst bn'. fold a. replace (a =? 0) with false by lia. apply fupd_eq.
    - destruct (faddr c i bn' =? 0) eqn:E; [done|]. apply fupd_ne. intros E'. apply D.
      apply (fi_inj _ _ _ Hi); [done|done|lia|done]. }
  constructor; try done.
  - constructor; try apply Hi.
    + intros H0. rewrite Huse. by apply Hi.
    + intros bn' Hbn'. rewrite Hfa by done. rewrite Huse. by apply Hi.
    + intros b1 b2 H1 H2. rewrite !Hfa by done. by apply Hi.
  - intros b Hb. rewrite Huse. by apply Hm.
  - intros bn' Hbn' _. by apply Hfa.
  - intros bn' Hbn' E. left. by rewrite Hfa.
  - intros y Hy. unfold fbyte. rewrite Hfb by by apply block_range. case_decide as D; case_decide as D'.
    + destruct (same_block off (y - off)) as [_ E]; [done|lia|lia|]. replace (off + (y - off)) with y in E by lia. rewrite E.
      unfold x. rewrite Z2Nat.inj_add by lia. rewrite !nth_lookup, lookup_splice by done.
      rewrite decide_True by lia. do 2 f_equal. lia.
    + unfold fblock. rewrite D. fold a. replace (a =? 0) with false by lia.
      pose proof (Z.mod_pos_bound y BSIZE ltac:(done)). unfold x. rewrite !nth_lookup, lookup_splice by done.
      rewrite decide_False; [done|]. intros Hin. apply D'. unfold bn in D.
      pose proof (Z.div_mod off BSIZE ltac:(done)). pose proof (Z.div_mod y BSIZE ltac:(done)). rewrite D in *. lia.
    + exfalso. apply D. destruct (same_block off (y - off)) as [E _]; [done|lia|lia|].
      replace (off + (y - off)) with y in E by lia. done.
    + done.
  - intros y Hy. destruct (same_block off (y - off)) as [E _]; [done|lia|lia|]. replace (off + (y - off)) with y in E by lia.
    rewrite E. fold bn. rewrite Hfa by done. done.
  - intros b Hb. by rewrite Huse.
  - intros b Hb Hub Hbb Hbi Hf. apply fupd_ne. intros ->. by apply (Hf bn).
  - by left.
  - by destruct i.
Qed.

Section file.
Context {T : Type} `{BL : BufLaws T}.
Implicit Types (s : fss T) (v : bview).

Lemma fsrep_bufs s v bl : fsrep s v bl -> (length bl < nbuf)%nat.
Proof.
  intros HR. pose proof (fr_inv _ _ _ HR) as HI. pose proof (wf_fits _ _ (li_wf _ _ _ HI)). pose proof (li_size _ _ _ HI).
  unfold LOGSIZE, MAXOPBLOCKS, nbuf in *. lia.
Qed.

Lemma fsrep_sized s v bl : fsrep s v bl -> sized (vcache v).
Proof. intros HR. apply (li_cache _ _ _ (fr_inv _ _ _ HR)). Qed.

Lemma held_none v h : vheld v = ∅ -> vheld v !! h = None.
Proof. intros ->. apply lookup_empty. Qed.

Lemma not_held v (b : Z) : vheld v = ∅ -> forall h x, vheld v !! h <> Some (b, x).
Proof. intros Hv h x. by rewrite held_none. Qed.

Lemma size_held_nil v : vheld v = ∅ -> size (vheld v) = 0%nat.
Proof. intros ->. apply map_size_empty. Qed.

(** bmap of a block that is there. *)
Lemma wp_bmap_hit s v bl ip i bn (Q : Z -> fss T -> Prop) :
  fsrep s v bl -> vheld v = ∅ -> icache s !! ip = Some i -> finv (fsb s) (vcache v) i ->
  0 <= bn < MAXFILE -> faddr (vcache v) i bn <> 0 ->
  (forall s', fsrep s' v bl -> same_above s s' -> Q (faddr (vcache v) i bn) s') ->
  wp (bmap ip bn) s Q.
Proof.
  intros HR Hv Hip Hi Hbn Hne HQ. unfold bmap. apply wp_bind, (wp_geti s ip i); [done|].
  unfold faddr in *. destruct (bn <? NDIRECT) eqn:E.
  - cbn zeta. replace (nth (Z.to_nat bn) (i_addrs i) 0 =? 0) with false by lia. apply wp_ret, HQ; done.
  - cbn zeta. fold (ind i). destruct (ind i =? 0) eqn:E0; [done|].
    destruct (fi_ind _ _ _ Hi ltac:(lia)) as [Hd Hu].
    replace (bn - NDIRECT <? NINDIRECT) with true by (change MAXFILE with (NDIRECT + NINDIRECT) in Hbn; lia).
    apply wp_bind, wp_ret. rewrite (fi_dev _ _ _ Hi).
    pose proof (data_home _ _ _ (fr_geo _ _ _ HR) Hd) as [? ?]. pose proof (data_pos _ _ Hd).
    apply (wp_fread s v bl (ind i)); [done|lia|by apply not_held|right; rewrite size_held_nil by done; by eapply fsrep_bufs|].
    intros h s1 Hh HR1 Hsa1. replace (get32 (vcache v (ind i)) (4 * Z.to_nat (bn - NDIRECT)) =? 0) with false by lia.
    apply wp_bind, wp_ret. apply wp_bind, (wp_frelease s1 v bl h (ind i) (vcache v (ind i)) _ HR1); [done|done|].
    intros s2 HR2 Hsa2. apply wp_ret, HQ; [done|]. by etransitivity.
Qed.

(** What bmap leaves. *)
Record bmapped s v (bl : list Z) ip i bn s' v' (bl' : list Z) i' (a : Z) : Prop := {
  bp_rep : fsrep s' v' bl';
  bp_held : vheld v' = ∅;
  bp_ic : icache s' = <[ip := i']> (icache s);
  bp_sb : fsb s' = fsb s;
  bp_pid : fpid s' = fpid s;
  bp_cwd : fcwd s' = fcwd s;
  bp_ext : ext (fsb s) (vcache v) i (vcache v') i';
  bp_addr : faddr (vcache v') i' bn = a;
  bp_ne : a <> 0;
  bp_bl x : x ∈ bl' -> x ∈ bl \/ x = sb_bmapstart (fsb s) \/ (x = ind i' /\ x <> 0) \/ x = a;
  bp_sub x : x ∈ bl -> x ∈ bl';
  bp_free : (nfree (fsb s) (vcache v) <= nfree (fsb s) (vcache v') + 2)%nat }.

Lemma elem_of_logs bl b x : x ∈ logs bl b <-> x ∈ bl \/ x = b.
Proof.
  unfold logs. case_decide as D.
  - split; [by left|]. by intros [?| ->].
  - by rewrite elem_of_app, list_elem_of_singleton.
Qed.

Lemma logs_in bl b : b ∈ bl -> logs bl b = bl.
Proof. intros Hb. unfold logs. by rewrite decide_True. Qed.

Lemma geo_bm_pos sb g : geo sb g -> 0 < sb_bmapstart sb.
Proof.
  intros Hg. pose proof (geo_bmap _ _ Hg) as [? _]. pose proof (g_log _ _ Hg). pose proof (g_ino _ _ Hg).
  pose proof (g_nlog _ _ Hg). lia.
Qed.

(** balloc with enough free blocks. *)
Lemma wp_balloc' s v bl (Q : Z -> fss T -> Prop) :
  fsrep s v bl -> meta_used (fsb s) (vcache v) -> hold_ok (fsb s) v -> (0 < nfree (fsb s) (vcache v))%nat ->
  bufs_left v bl 2 -> Z.of_nat (length bl) < sb_nlog (fsb s) - 2 ->
  (forall a s', fsrep s' (alloc_view (fsb s) a v) (logs (logs bl (sb_bmapstart (fsb s))) a) -> same_above s s' ->
     alloced (fsb s) (vcache v) a (vcache (alloc_view (fsb s) a v)) ->
     nfree (fsb s) (vcache v) = S (nfree (fsb s) (vcache (alloc_view (fsb s) a v))) -> Q a s') ->
  wp (balloc ROOTDEV) s Q.
Proof.
  intros HR Hm Hh Hn Hb Hr HQ. destruct (nfree_first s v bl HR Hn) as [a Ha].
  pose proof (alloc_facts s v bl a HR Hm Ha) as Hal. pose proof (geo_bm_pos _ _ (fr_geo _ _ _ HR)).
  apply (wp_balloc s v bl a); try done. intros s' HR' Hsa. apply HQ; try done. eapply nfree_alloced; [lia|done].
Qed.

(** The entry of the block of indirect addresses, allocated if it is missing. *)
Lemma wp_bmap_entry s v bl ip i bn (Q : Z -> fss T -> Prop) :
  fsrep s v bl -> vheld v = ∅ -> icache s !! ip = Some i -> finv (fsb s) (vcache v) i ->
  meta_used (fsb s) (vcache v) -> NDIRECT <= bn < MAXFILE -> ind i <> 0 -> (0 < nfree (fsb s) (vcache v))%nat ->
  Z.of_nat (length bl) + 3 < sb_nlog (fsb s) ->
  (forall a s' v' bl', fsrep s' v' bl' -> vheld v' = ∅ -> same_above s s' ->
     ext (fsb s) (vcache v) i (vcache v') i -> faddr (vcache v') i bn = a -> a <> 0 ->
     (forall x, x ∈ bl' -> x ∈ bl \/ x = sb_bmapstart (fsb s) \/ x = ind i \/ x = a) -> (forall x, x ∈ bl -> x ∈ bl') ->
     (nfree (fsb s) (vcache v) <= nfree (fsb s) (vcache v') + 1)%nat -> Q a s') ->
  wp (bp ← liftb (bl_read ROOTDEV (ind i));
      d ← liftb (bl_data bp);
      addr ← (if get32 d (4 * Z.to_nat (bn - NDIRECT)) =? 0 then
           a ← balloc ROOTDEV;
           d ← liftb (bl_data bp);
           liftb (bl_set bp (put32 d (4 * Z.to_nat (bn - NDIRECT)) a));;
           liftl (log_write bp);;
           mret a
         else mret (get32 d (4 * Z.to_nat (bn - NDIRECT))));
      liftb (bl_release bp);;
      mret addr) s Q.
Proof.
  intros HR Hv Hip Hi Hm Hbn Hind Hfree Hroom HQ. pose proof (fr_geo _ _ _ HR) as Hg.
  destruct (fi_ind _ _ _ Hi Hind) as [Hd Hu]. pose proof (data_home _ _ _ Hg Hd) as Hdh. pose proof (data_pos _ _ Hd).
  pose proof (li_size _ _ _ (fr_inv _ _ _ HR)) as Hsi. rewrite (g_size _ _ Hg) in Hsi. unfold LOGSIZE, MAXOPBLOCKS in Hsi.
  set (off := (4 * Z.to_nat (bn - NDIRECT))%nat).
  assert (faddr (vcache v) i bn = get32 (vcache v (ind i)) off) as Hfa.
  { unfold faddr. replace (bn <? NDIRECT) with false by lia. by replace (ind i =? 0) with false by lia. }
  change (NDIRECT <= bn < 140) in Hbn. unfold NDIRECT in Hbn.
  assert (0 <= bn < MAXFILE) as HbM by (change MAXFILE with 140; lia).
  apply (wp_fread s v bl (ind i)); [done|unfold meta_home in Hdh; lia|by apply not_held|right; rewrite size_held_nil by done; by eapply fsrep_bufs|].
  intros h s1 Hh HR1 Hsa1. assert (fsb s1 = fsb s) as Hsb1 by apply Hsa1.
  destruct (get32 (vcache v (ind i)) off =? 0) eqn:E0.
  - apply wp_bind. apply wp_bind. apply (wp_balloc' s1 _ bl _ HR1); rewrite ?Hsb1; try done.
    { intros k b x. simpl. rewrite Hv, lookup_insert. case_decide; [|done]. intros [= <- <-]. split; [done|].
      destruct Hd. lia. }
    { unfold bufs_left. simpl. rewrite Hv, map_size_insert_None, map_size_empty by done. unfold nbuf. lia. }
    { lia. }
    intros a s2 HR2 Hsa2 Hal Hnf. simpl in Hal, Hnf. assert (fsb s2 = fsb s) as Hsb2 by (etransitivity; [apply Hsa2|done]).
    destruct (ext_entry (fsb s) (vcache v) i bn a _ Hi Hal (g_fs _ _ Hg)) as [Hext Hfa'].
    { by eapply fsrep_sized. } { done. } { change MAXFILE with 140. unfold NDIRECT. lia. } { rewrite Hfa. lia. }
    fold off in Hext, Hfa'.
    apply wp_bind, wp_liftb, (law_data _ _ h (ind i) (vcache v (ind i)) _ (li_rep _ _ _ (fr_inv _ _ _ HR2))); [simpl; apply lookup_insert_eq|].
    assert (with_fl (with_low (low (fl s2)) (fl s2)) s2 = s2) as -> by (destruct s2 as [? ? ? ? []]; done).
    pose proof (length_logs bl (sb_bmapstart (fsb s))). pose proof (length_logs (logs bl (sb_bmapstart (fsb s))) a).
    apply (wp_flog_then s2 (alloc_view (fsb s) a v) (logs (logs bl (sb_bmapstart (fsb s))) a) h (ind i) (vcache v (ind i))); rewrite ?Hsb2; try done.
    { rewrite length_put32; [by eapply fsrep_len|]. rewrite (fsrep_len s v bl _ HR). change (Z.to_nat BSIZE) with 512%nat.
      unfold off, NDIRECT. lia. }
    { unfold room. lia. }
    intros s3 HR3 Hsa3. apply wp_ret. set (x := put32 (vcache v (ind i)) off a) in *.
    apply wp_bind, (wp_frelease s3 _ _ h (ind i) x _ HR3); [simpl; by apply held_none|simpl; apply fupd_eq|].
    intros s4 HR4 Hsa4. apply wp_ret.
    eapply (HQ a s4 _ _ HR4); simpl; try done.
    + etransitivity; [exact Hsa1|]. etransitivity; [exact Hsa2|]. by etransitivity.
    + pose proof (data_pos _ _ (al_data _ _ _ _ Hal)). lia.
    + intros y. rewrite !elem_of_logs. tauto.
    + intros y Hy. rewrite !elem_of_logs. auto.
    + pose proof (nfree_ext (fsb s) (vcache (alloc_view (fsb s) a v)) (vcache (v_pin (ind i) x (alloc_view (fsb s) a v)))) as Hnx.
      simpl in Hnx. rewrite Hnx; [lia|]. rewrite fupd_ne; [done|]. destruct Hd. lia.
  - apply wp_bind, wp_ret. apply wp_bind, (wp_frelease s1 v bl h (ind i) (vcache v (ind i)) _ HR1); [done|done|].
    intros s2 HR2 Hsa2. apply wp_ret. apply (HQ _ s2 v bl); try done.
    + by etransitivity.
    + by apply ext_refl.
    + lia.
    + auto.
    + lia.
Qed.

Lemma fsrep_icache s v bl l : fsrep s v bl -> fsrep (with_icache l s) v bl.
Proof. intros [? ? ? ?]. by constructor. Qed.

Lemma bmapped_same s v bl ip i bn a s' :
  fsrep s' v bl -> vheld v = ∅ -> icache s !! ip = Some i -> same_above s s' -> finv (fsb s) (vcache v) i ->
  meta_used (fsb s) (vcache v) -> faddr (vcache v) i bn = a -> a <> 0 ->
  bmapped s v bl ip i bn s' v bl i a.
Proof.
  intros HR Hv Hip (H1 & H2 & H3 & H4) Hi Hm Ha Hne. constructor; try done.
  - rewrite H1. symmetry. by apply list_insert_id.
  - by apply ext_refl.
  - by left.
  - lia.
Qed.

(** A direct block that balloc has just given. *)
Lemma bmapped_direct s v bl ip i bn a s1 :
  let v1 := alloc_view (fsb s) a v in
  let bl1 := logs (logs bl (sb_bmapstart (fsb s))) a in
  let i1 := i_set_addr (Z.to_nat bn) a i in
  geo (fsb s) (lg (fl s)) -> vheld v = ∅ -> finv (fsb s) (vcache v) i -> 0 <= bn < NDIRECT -> nth (Z.to_nat bn) (i_addrs i) 0 = 0 ->
  fsrep s1 v1 bl1 -> same_above s s1 -> alloced (fsb s) (vcache v) a (vcache v1) ->
  nfree (fsb s) (vcache v) = S (nfree (fsb s) (vcache v1)) ->
  bmapped s v bl ip i bn (with_icache (<[ip := i1]> (icache s1)) s1) v1 bl1 i1 a.
Proof.
  intros v1 bl1 i1 Hg Hv Hi Hbn H0 HR1 Hsa1 Hal Hnf.
  assert (faddr (vcache v) i bn = 0) as Hfa by (unfold faddr; by replace (bn <? NDIRECT) with true by lia).
  destruct (ext_direct (fsb s) (vcache v) i bn a _ Hi Hal (g_fs _ _ Hg)) as [Hx Hfa']; [lia|lia|].
  constructor; try apply Hsa1; try done.
  - by apply fsrep_icache.
  - simpl. by rewrite (proj1 Hsa1).
  - pose proof (data_pos _ _ (al_data _ _ _ _ Hal)). lia.
  - intros x. unfold bl1. rewrite !elem_of_logs. tauto.
  - intros x Hx'. unfold bl1. rewrite !elem_of_logs. auto.
  - lia.
Qed.

(** A block found through the block of addresses, which was there or was allocated first. *)
Lemma bmapped_entry s v bl ip i bn s2 v2 (bl2 : list Z) i2 s3 v3 (bl3 : list Z) a :
  ext (fsb s) (vcache v) i (vcache v2) i2 -> ind i2 <> 0 -> icache s2 = <[ip := i2]> (icache s) ->
  fsb s2 = fsb s -> fpid s2 = fpid s -> fcwd s2 = fcwd s ->
  (forall x, x ∈ bl2 -> x ∈ bl \/ x = sb_bmapstart (fsb s) \/ x = ind i2) -> (forall x, x ∈ bl -> x ∈ bl2) ->
  (nfree (fsb s) (vcache v) <= nfree (fsb s) (vcache v2) + 1)%nat ->
  fsrep s3 v3 bl3 -> vheld v3 = ∅ -> same_above s2 s3 -> ext (fsb s) (vcache v2) i2 (vcache v3) i2 ->
  faddr (vcache v3) i2 bn = a -> a <> 0 ->
  (forall x, x ∈ bl3 -> x ∈ bl2 \/ x = sb_bmapstart (fsb s) \/ x = ind i2 \/ x = a) -> (forall x, x ∈ bl2 -> x ∈ bl3) ->
  (nfree (fsb s) (vcache v2) <= nfree (fsb s) (vcache v3) + 1)%nat ->
  bmapped s v bl ip i bn s3 v3 bl3 i2 a.
Proof.
  intros Hx Hne Hic Hsb Hpid Hcwd Hbl Hsub Hnf HR3 Hv3 (Hc1 & Hc2 & Hc3 & Hc4) Hx3 Hfa Ha Hbl3 Hsub3 Hnf3.
  constructor; try done; try congruence.
  - by eapply ext_trans.
  - intros x Hxx. assert (x = ind i2 -> x <> 0) by congruence. apply Hbl3 in Hxx as [Hxx|Hxx]; [apply Hbl in Hxx|]; tauto.
  - intros x Hxx. by apply Hsub3, Hsub.
  - lia.
Qed.

(** bmap: the block is there, or is allocated, zeroed and entered. *)
Lemma wp_bmap s v bl ip i bn (Q : Z -> fss T -> Prop) :
  fsrep s v bl -> vheld v = ∅ -> icache s !! ip = Some i -> finv (fsb s) (vcache v) i ->
  meta_used (fsb s) (vcache v) -> 0 <= bn < MAXFILE -> (2 <= nfree (fsb s) (vcache v))%nat ->
  Z.of_nat (length bl) + 5 < sb_nlog (fsb s) ->
  (forall s' v' bl' i' a, bmapped s v bl ip i bn s' v' bl' i' a -> Q a s') ->
  wp (bmap ip bn) s Q.
Proof.
  intros HR Hv Hip Hi Hm Hbn Hfree Hroom HQ. pose proof (fr_geo _ _ _ HR) as Hg.
  pose proof (li_size _ _ _ (fr_inv _ _ _ HR)) as Hsi. rewrite (g_size _ _ Hg) in Hsi. unfold LOGSIZE, MAXOPBLOCKS in Hsi.
  assert (bufs_left v bl 2) as Hbuf by (unfold bufs_left, nbuf; rewrite size_held_nil by done; lia).
  assert (hold_ok (fsb s) v) as Hho by (intros k b x Hx; by apply not_held in Hx).
  pose proof (length_logs bl (sb_bmapstart (fsb s))).
  unfold bmap. apply wp_bind, (wp_geti s ip i); [done|]. rewrite (fi_dev _ _ _ Hi). destruct (bn <? NDIRECT) eqn:E.
  - cbn zeta. assert (faddr (vcache v) i bn = nth (Z.to_nat bn) (i_addrs i) 0) as Hfa by (unfold faddr; by rewrite E).
    destruct (nth (Z.to_nat bn) (i_addrs i) 0 =? 0) eqn:E0.
    2:{ apply wp_ret. eapply HQ. apply bmapped_same; try done. lia. }
    apply wp_bind, (wp_balloc' s v bl _ HR); try done; [lia|lia|].
    intros a s1 HR1 Hsa1 Hal Hnf. apply wp_bind, (wp_updi s1 ip i).
    { by rewrite (proj1 Hsa1). }
    apply wp_ret. eapply HQ, bmapped_direct; try done; [lia|lia].
  - cbn zeta. fold (ind i).
    replace (bn - NDIRECT <? NINDIRECT) with true by (change MAXFILE with (NDIRECT + NINDIRECT) in Hbn; lia).
    apply wp_bind. destruct (ind i =? 0) eqn:E0.
    + apply wp_bind, (wp_balloc' s v bl _ HR); try done; [lia|lia|].
      intros a s1 HR1 Hsa1 Hal Hnf. apply wp_bind, (wp_updi s1 ip i); [by rewrite (proj1 Hsa1)|]. apply wp_ret.
      destruct (ext_indirect (fsb s) (vcache v) i a _ Hi Hal (g_fs _ _ Hg) ltac:(lia)) as [Hx Hind].
      set (i1 := i_set_addr NDIR a i) in *. pose proof (data_pos _ _ (al_data _ _ _ _ Hal)).
      destruct Hsa1 as (Hs1 & Hs2 & Hs3 & Hs4).
      set (s2 := with_icache (<[ip:=i1]> (icache s1)) s1) in *.
      assert (fsb s2 = fsb s) as Hsb by done.
      assert (icache s2 !! ip = Some i1) as Hip2.
      { simpl. rewrite Hs1. apply list_lookup_insert_eq. by eapply lookup_lt_Some. }
      rewrite <- Hind.
      pose proof (length_logs (logs bl (sb_bmapstart (fsb s))) (ind i1)) as Hll.
      apply (wp_bmap_entry s2 (alloc_view (fsb s) (ind i1) v) (logs (logs bl (sb_bmapstart (fsb s))) (ind i1)) ip i1 bn);
        rewrite ?Hsb, ?Hind; try done.
      * by apply fsrep_icache.
      * apply Hx.
      * apply Hx.
      * unfold NDIRECT in *. lia.
      * lia.
      * lia.
      * rewrite Hind in Hll. lia.
      * intros a2 s3 v3 bl3. intros. eapply (HQ s3 v3 bl3 i1 a2).
        eapply (bmapped_entry _ _ _ _ _ _ s2 (alloc_view (fsb s) a v) (logs (logs bl (sb_bmapstart (fsb s))) a)); rewrite ?Hind in *; try done; try lia.
        -- simpl. by rewrite Hs1.
        -- intros x Hxx. rewrite !elem_of_logs in Hxx. tauto.
        -- intros x Hxx. rewrite !elem_of_logs. auto.
    + apply wp_ret. apply (wp_bmap_entry s v bl ip i bn); try done; try lia.
      intros a2 s3 v3 bl3. intros. eapply (HQ s3 v3 bl3 i a2), (bmapped_entry _ _ _ _ _ _ s v bl); try done; try lia.
      * by apply ext_refl.
      * symmetry. by apply list_insert_id.
      * auto.
Qed.

Lemma wp_readi_loop fuel : forall s v bl ip i off n (Q : list Z -> fss T -> Prop),
  fsrep s v bl -> vheld v = ∅ -> icache s !! ip = Some i -> finv (fsb s) (vcache v) i -> mapped (vcache v) i ->
  0 <= off -> 0 <= n -> off + n <= i_size i -> (n <= 0 \/ n + off mod BSIZE <= BSIZE * Z.of_nat fuel) ->
  (forall s', fsrep s' v bl -> same_above s s' -> Q (fbytes (vcache v) i off (Z.to_nat n)) s') ->
  wp (readi_loop fuel ip off n) s Q.
Proof.
  induction fuel as [|fuel IH]; intros s v bl ip i off n Q HR Hv Hip Hi Hmap Ho Hn Hle Hfuel HQ.
  - assert (n = 0) as ->. { pose proof (Z.mod_pos_bound off BSIZE ltac:(done)). lia. } apply wp_ret, HQ; done.
  - cbn [readi_loop]. destruct (0 <? n) eqn:E.
    2:{ assert (n = 0) as -> by lia. apply wp_ret, HQ; done. }
    destruct (turn off n Ho ltac:(lia) _ eq_refl) as (Hm & Hmle & Hmod & Hnext).
    set (m := Z.min n (BSIZE - off mod BSIZE)) in *. clearbody m.
    destruct Hmap as [Hsz Hmap].
    assert (0 <= off / BSIZE) as Hq by (apply Z.div_pos; [done|done]).
    assert (off / BSIZE * BSIZE <= off) as Hq2 by (rewrite Z.mul_comm; by apply Z.mul_div_le).
    assert (0 <= off / BSIZE < MAXFILE) as Hbn by (unfold BSIZE in *; lia).
    pose proof (Hmap (off / BSIZE) Hq ltac:(lia)) as Hne.
    destruct (fi_addr _ _ _ Hi _ Hbn Hne) as (Hd & _ & _). pose proof (data_home _ _ _ (fr_geo _ _ _ HR) Hd) as [? ?].
    pose proof (data_pos _ _ Hd).
    apply wp_bind, (wp_geti s ip i); [done|]. rewrite (fi_dev _ _ _ Hi).
    apply wp_bind, (wp_bmap_hit s v bl ip i); try done. intros s1 HR1 Hsa1.
    assert (icache s1 !! ip = Some i) as Hip1 by by rewrite (proj1 Hsa1).
    apply (wp_fread s1 v bl (faddr (vcache v) i (off / BSIZE))); [done|lia|by apply not_held|right; rewrite size_held_nil by done; by eapply fsrep_bufs|].
    intros h s2 Hh HR2 Hsa2. apply wp_bind, (wp_frelease s2 v bl h _ _ _ HR2); [done|done|]. intros s3 HR3 Hsa3.
    assert (fsb s3 = fsb s /\ icache s3 = icache s) as [Hsb3 Hic3].
    { destruct Hsa1 as (? & ? & _), Hsa2 as (? & ? & _), Hsa3 as (? & ? & _). split; congruence. }
    apply wp_bind. apply (IH s3 v bl ip i); rewrite ?Hsb3, ?Hic3; try done; try lia.
    { destruct (Hnext (Z.of_nat fuel)) as [?|?]; [lia|by left|by right]. }
    intros s4 HR4 Hsa4. apply wp_ret.
    replace (vcache v (faddr (vcache v) i (off / BSIZE))) with (fblock (vcache v) i (off / BSIZE)).
    2:{ unfold fblock. by replace (faddr (vcache v) i (off / BSIZE) =? 0) with false by lia. }
    rewrite slice_fblock; [|done|lia|lia|apply length_fblock; by eapply fsrep_sized].
    replace (off + m) with (off + Z.of_nat (Z.to_nat m)) by lia. rewrite <- fbytes_app.
    replace (Z.to_nat m + Z.to_nat (n - m))%nat with (Z.to_nat n) by lia. apply HQ; [done|].
    etransitivity; [exact Hsa1|]. etransitivity; [exact Hsa2|]. by etransitivity.
Qed.

(** The logged blocks are [B], the map, the indirect block, and [D]. *)
Definition cover (B D : list Z) (bm nd : Z) (bl : list Z) : Prop :=
  forall x, x ∈ bl -> x ∈ B \/ x = bm \/ (x = nd /\ x <> 0) \/ x ∈ D.

Lemma cover_length B D bm nd bl : NoDup bl -> cover B D bm nd bl -> (length bl <= length B + length D + 2)%nat.
Proof.
  intros Hnd Hc. transitivity (length (B ++ D ++ [bm; nd])); [|rewrite !length_app; simpl; lia].
  apply NoDup_ListNoDup in Hnd. apply (NoDup_incl_length Hnd). intros x Hx.
  rewrite !in_app_iff, <- !list_elem_of_In. apply list_elem_of_In in Hx.
  destruct (Hc x Hx) as [?|[->|[[-> _]|?]]]; [by left| | |by right; left].
  - right. right. rewrite !elem_of_cons. auto.
  - right. right. rewrite !elem_of_cons. auto.
Qed.

(** What the loop of writei leaves. *)
Record wrote_st s v ip i off src s' v' (bl' : list Z) i' : Prop := {
  ws_rep : fsrep s' v' bl';
  ws_held : vheld v' = ∅;
  ws_ic : icache s' = <[ip := i']> (icache s);
  ws_sb : fsb s' = fsb s;
  ws_pid : fpid s' = fpid s;
  ws_cwd : fcwd s' = fcwd s;
  ws_wrote : wrote (fsb s) (vcache v) i off src (vcache v') i' }.

Lemma wrote_st_trans s v ip i off src s1 v1 bl1 i1 src1 s2 v2 bl2 i2 :
  0 <= off -> off + Z.of_nat (length src) <= MAXFILE * BSIZE ->
  wrote_st s v ip i off src s1 v1 bl1 i1 ->
  wrote_st s1 v1 ip i1 (off + Z.of_nat (length src)) src1 s2 v2 bl2 i2 ->
  wrote_st s v ip i off (src ++ src1) s2 v2 bl2 i2.
Proof.
  intros Ho Hmax [A1 A2 A3 A4 A5 A6 A7] [B1 B2 B3 B4 B5 B6 B7]. constructor; try congruence.
  - rewrite B3, A3. apply list_insert_insert_eq.
  - rewrite A4 in B7. by eapply wrote_trans.
Qed.

(** One turn: bmap, bread, memmove, log_write, brelse. *)
Lemma wp_writei_turn {A} s v bl ip i off m (src : list Z) B D (k : M (fss T) A) (Q : A -> fss T -> Prop) :
  fsrep s v bl -> vheld v = ∅ -> icache s !! ip = Some i -> finv (fsb s) (vcache v) i ->
  meta_used (fsb s) (vcache v) -> 0 <= off -> 0 < m -> off mod BSIZE + m <= BSIZE -> off + m <= MAXFILE * BSIZE ->
  m <= Z.of_nat (length src) -> (2 <= nfree (fsb s) (vcache v))%nat ->
  cover B D (sb_bmapstart (fsb s)) (ind i) bl -> Z.of_nat (length B + length D) + 8 < sb_nlog (fsb s) ->
  (forall s' v' bl' i' D', wrote_st s v ip i off (take (Z.to_nat m) src) s' v' bl' i' ->
     cover B D' (sb_bmapstart (fsb s)) (ind i') bl' -> length D' = S (length D) ->
     (nfree (fsb s) (vcache v) <= nfree (fsb s) (vcache v') + 2)%nat -> wp k s' Q) ->
  wp (b ← bmap ip (off / BSIZE);
      bp ← liftb (bl_read ROOTDEV b);
      d ← liftb (bl_data bp);
      liftb (bl_set bp (splice (Z.to_nat (off mod BSIZE)) (take (Z.to_nat m) src) d));;
      liftl (log_write bp);;
      liftb (bl_release bp);;
      k) s Q.
Proof.
  intros HR Hv Hip Hi Hm Ho Hmp Hle Hmax Hms Hfree Hcov Hbud HQ.
  pose proof (cover_length _ _ _ _ _ (li_nodup _ _ _ (fr_inv _ _ _ HR)) Hcov) as Hlen.
  assert (0 <= off / BSIZE < MAXFILE) as Hbn by (apply block_range; lia).
  assert (length (take (Z.to_nat m) src) = Z.to_nat m) as Htl by (rewrite length_take; lia).
  apply wp_bind, (wp_bmap s v bl ip i); try done; [lia|].
  intros s1 v1 bl1 i1 a Hb. pose proof (bp_ext _ _ _ _ _ _ _ _ _ _ _ Hb) as Hx.
  pose proof (x_inv _ _ _ _ _ Hx) as Hi1. pose proof (bp_rep _ _ _ _ _ _ _ _ _ _ _ Hb) as HR1.
  pose proof (bp_sb _ _ _ _ _ _ _ _ _ _ _ Hb) as Hsb1. pose proof (bp_held _ _ _ _ _ _ _ _ _ _ _ Hb) as Hv1.
  pose proof (bp_addr _ _ _ _ _ _ _ _ _ _ _ Hb) as Ha. pose proof (bp_ne _ _ _ _ _ _ _ _ _ _ _ Hb) as Hne.
  destruct (fi_addr _ _ _ Hi1 (off / BSIZE) Hbn) as (Hd & Hu & Hni); [by rewrite Ha|]. rewrite Ha in *.
  pose proof (fr_geo _ _ _ HR1) as Hg. rewrite Hsb1 in Hg. pose proof (data_home _ _ _ Hg Hd) as Hdh.
  pose proof (data_pos _ _ Hd).
  assert (cover B (a :: D) (sb_bmapstart (fsb s)) (ind i1) bl1) as Hcov1.
  { intros x Hxx. apply (bp_bl _ _ _ _ _ _ _ _ _ _ _ Hb) in Hxx as [Hxx|[->|[?| ->]]].
    - destruct (Hcov x Hxx) as [?|[?|[[-> Hn0]|?]]]; [by left|by right; left| |by right; right; right; right].
      right. right. left. split; [|done]. by destruct (x_ind _ _ _ _ _ Hx) as [->|[? _]].
    - auto.
    - auto.
    - right. right. right. left. }
  pose proof (cover_length _ _ _ _ _ (li_nodup _ _ _ (fr_inv _ _ _ HR1)) Hcov1) as Hlen1. simpl in Hlen1.
  apply (wp_fread s1 v1 bl1 a); [done|unfold meta_home in Hdh; lia|by apply not_held| |].
  { right. rewrite size_held_nil by done. by eapply fsrep_bufs. }
  intros h s2 Hh HR2 Hsa2. assert (fsb s2 = fsb s) as Hsb2 by (etransitivity; [apply Hsa2|done]).
  set (x := splice _ _ _).
  assert (length x = Z.to_nat BSIZE) as Hxl.
  { unfold x. rewrite length_splice; [by eapply fsrep_len|]. rewrite (fsrep_len s1 v1 bl1 _ HR1), Htl.
    pose proof (Z.mod_pos_bound off BSIZE ltac:(done)). unfold BSIZE in *. lia. }
  apply (wp_fput_then s2 v1 bl1 h a (vcache v1 a)); rewrite ?Hsb2; try done.
  { unfold room. lia. }
  intros s3 HR3 Hsa3. destruct Hsa2 as (Ha1 & Ha2 & Ha3 & Ha4), Hsa3 as (Hb1 & Hb2 & Hb3 & Hb4).
  eapply (HQ s3 (v_pin a x v1) (logs bl1 a) i1 (a :: D)).
  - constructor; try done.
    + rewrite Hb1, Ha1. apply Hb.
    + congruence.
    + rewrite Hb3, Ha3. apply Hb.
    + rewrite Hb4, Ha4. apply Hb.
    + change (take (Z.to_nat m) src) with ([] ++ take (Z.to_nat m) src). eapply wrote_trans; [by eapply ext_wrote| |done|simpl; lia].
      simpl. rewrite Z.add_0_r. unfold x. rewrite <- Ha. apply wrote_block; try done; rewrite ?Htl; try lia.
      * apply Hx.
      * by eapply fsrep_sized.
      * intros E. rewrite E in Htl. simpl in Htl. lia.
  - intros y Hy. apply elem_of_logs in Hy as [Hy| ->]; [by apply Hcov1|]. right. right. right. left.
  - done.
  - simpl. rewrite (nfree_ext (fsb s) (vcache v1) (fupd (vcache v1) a x)); [apply Hb|].
    apply fupd_ne. destruct Hd. lia.
Qed.

Lemma wp_writei_loop fuel : forall s v bl ip i off n (src : list Z) B D (Q : unit -> fss T -> Prop),
  fsrep s v bl -> vheld v = ∅ -> icache s !! ip = Some i -> finv (fsb s) (vcache v) i ->
  meta_used (fsb s) (vcache v) -> 0 <= off -> n = Z.of_nat (length src) -> off + n <= MAXFILE * BSIZE ->
  (n <= 0 \/ n + off mod BSIZE <= BSIZE * Z.of_nat fuel) -> (2 * fuel <= nfree (fsb s) (vcache v))%nat ->
  cover B D (sb_bmapstart (fsb s)) (ind i) bl -> Z.of_nat (length B + length D + fuel) + 8 < sb_nlog (fsb s) ->
  (forall s' v' bl' i' D', wrote_st s v ip i off src s' v' bl' i' ->
     cover B D' (sb_bmapstart (fsb s)) (ind i') bl' -> (length D' <= length D + fuel)%nat -> Q tt s') ->
  wp (writei_loop fuel ip src off n) s Q.
Proof.
  induction fuel as [|fuel IH]; intros s v bl ip i off n src B D Q HR Hv Hip Hi Hm Ho Hn Hmax Hfuel Hfree Hcov Hbud HQ.
  - assert (src = []) as ->.
    { pose proof (Z.mod_pos_bound off BSIZE ltac:(done)). destruct src; [done|]. simpl in Hn. lia. }
    apply wp_ret. apply (HQ s v bl i D); [|done|lia]. constructor; try done; [symmetry; by apply list_insert_id|].
    by apply ext_wrote, ext_refl.
  - cbn [writei_loop]. destruct (0 <? n) eqn:E.
    2:{ assert (src = []) as -> by (destruct src; [done|simpl in Hn; lia]). apply wp_ret.
        apply (HQ s v bl i D); [|done|lia]. constructor; try done; [symmetry; by apply list_insert_id|].
        by apply ext_wrote, ext_refl. }
    destruct (turn off n Ho ltac:(lia) _ eq_refl) as (Hmr & Hmle & Hmod & Hnext).
    set (m := Z.min n (BSIZE - off mod BSIZE)) in *. clearbody m.
    apply wp_bind, (wp_geti s ip i); [done|]. rewrite (fi_dev _ _ _ Hi).
    apply (wp_writei_turn s v bl ip i off m src B D); try done; try lia.
    intros s1 v1 bl1 i1 D1 Hw Hcov1 HD1 Hfree1. pose proof (ws_sb _ _ _ _ _ _ _ _ _ _ Hw) as Hsb1.
    pose proof (ws_wrote _ _ _ _ _ _ _ _ _ _ Hw) as Hwr.
    assert (length (take (Z.to_nat m) src) = Z.to_nat m) as Htl by (rewrite length_take; lia).
    apply (IH s1 v1 bl1 ip i1 (off + m) (n - m) (drop (Z.to_nat m) src) B D1); rewrite ?Hsb1; try done; try lia.
    + apply Hw.
    + apply Hw.
    + rewrite (ws_ic _ _ _ _ _ _ _ _ _ _ Hw). apply list_lookup_insert_eq. by eapply lookup_lt_Some.
    + apply Hwr.
    + apply Hwr.
    + rewrite length_drop. lia.
    + destruct (Hnext (Z.of_nat fuel)) as [?|?]; [lia|by left|by right].
    + intros s2 v2 bl2 i2 D2 Hw2 Hcov2 HD2. apply (HQ s2 v2 bl2 i2 D2); [|done|lia].
      rewrite <- (take_drop (Z.to_nat m) src). eapply wrote_st_trans; [done|rewrite Htl; lia|exact Hw|].
      rewrite Htl. rewrite Z2Nat.id by lia. exact Hw2.
Qed.

End file.
