(* ===== verification/FsProps.v ===== *)
(** Properties of the file system: allocation of blocks, inodes on disk, and
    the contents of files under readi and writei. *)

From stdpp Require Import gmap.
From S2P Require Import Prelude Codec Sleeplock Blocks Bio Layout Log LogProps Fs FsSpec FsFile.

(** The block an inode is in. *)
Definition iblock (sb : superblock) (inum : Z) : Z := sb_inodestart sb + inum / IPB.

Lemma geo_iblock sb g i : geo sb g -> 0 <= i < sb_ninodes sb -> IBLOCK i sb = iblock sb i /\ meta_home sb (iblock sb i).
Proof.
  intros Hg Hi. pose proof (geo_inode sb g i Hg Hi) as [H1 H2].
  pose proof (g_log _ _ Hg). pose proof (g_ino _ _ Hg). pose proof (g_nlog _ _ Hg).
  split; [|done]. unfold IBLOCK, iblock, fssize in *. rewrite u32_small by lia. lia.
Qed.

Lemma iblock_meta sb g i : geo sb g -> 0 <= i < sb_ninodes sb -> 1 < iblock sb i < sb_bmapstart sb.
Proof.
  intros Hg Hi. pose proof (g_log _ _ Hg). pose proof (g_ino _ _ Hg). pose proof (g_nlog _ _ Hg). pose proof (g_map _ _ Hg).
  unfold iblock. change IPB with 8 in *. pose proof (Z.div_pos i 8 ltac:(lia) ltac:(lia)).
  pose proof (Z.div_le_mono i (sb_ninodes sb) 8 ltac:(lia) ltac:(lia)). lia.
Qed.

Lemma di_off_fits i : (di_off i + dinode_size <= Z.to_nat BSIZE)%nat.
Proof.
  unfold di_off, dinode_size. change IPB with 8. change (Z.to_nat BSIZE) with 512%nat.
  pose proof (Z.mod_pos_bound i 8 ltac:(lia)). lia.
Qed.

(** A change to an inode block does not touch files or the map. *)
Lemma meta_write sb c i b x :
  0 < b < sb_bmapstart sb -> finv sb c i ->
  let c' := fupd c b x in
  finv sb c' i /\ (forall y, used sb c' y <-> used sb c y) /\
  (forall bn, 0 <= bn < MAXFILE -> faddr c' i bn = faddr c i bn) /\
  (forall bn, 0 <= bn < MAXFILE -> fblock c' i bn = fblock c i bn).
Proof.
  intros Hb Hi c'. assert (forall y, used sb c' y <-> used sb c y) as Hu.
  { intros y. unfold used, c'. by rewrite fupd_ne by lia. }
  assert (forall bn, 0 <= bn < MAXFILE -> faddr c' i bn = faddr c i bn) as Hfa.
  { intros bn Hbn. unfold faddr. destruct (bn <? NDIRECT); [done|]. destruct (ind i =? 0) eqn:E; [done|].
    unfold c'. rewrite fupd_ne; [done|]. destruct (fi_ind _ _ _ Hi ltac:(lia)) as [Hd _]. destruct Hd. lia. }
  split_and!; try done.
  - constructor; try apply Hi.
    + intros H0. rewrite Hu. by apply Hi.
    + intros bn Hbn. rewrite Hfa by done. rewrite Hu. by apply Hi.
    + intros b1 b2 H1 H2. rewrite !Hfa by done. by apply Hi.
  - intros bn Hbn. unfold fblock. rewrite Hfa by done. destruct (faddr c i bn =? 0) eqn:E; [done|].
    apply fupd_ne. destruct (fi_addr _ _ _ Hi bn Hbn ltac:(lia)) as (Hd & _). destruct Hd. lia.
Qed.

Section props.
Context {T : Type} `{BL : BufLaws T}.
Implicit Types (s : fss T) (v : bview).

(** iupdate writes the inode to its place. *)
Definition iupdate_view (sb : superblock) (i : inode) (v : bview) : bview :=
  let b := iblock sb (i_inum i) in
  v_pin b (splice (di_off (i_inum i)) (di_encode (i_dinode i)) (vcache v b)) v.

Lemma wp_iupdate s v bl ip i (Q : unit -> fss T -> Prop) :
  fsrep s v bl -> vheld v = ∅ -> icache s !! ip = Some i -> i_dev i = ROOTDEV ->
  0 <= i_inum i < sb_ninodes (fsb s) -> length (i_addrs i) = 13%nat -> room (fsb s) bl ->
  (forall s', fsrep s' (iupdate_view (fsb s) i v) (logs bl (iblock (fsb s) (i_inum i))) -> same_above s s' -> Q tt s') ->
  wp (iupdate ip) s Q.
Proof.
  intros HR Hv Hip Hdev Hin Hl Hroom HQ. pose proof (fr_geo _ _ _ HR) as Hg.
  destruct (geo_iblock _ _ _ Hg Hin) as [HIB Hmh]. pose proof (iblock_meta _ _ _ Hg Hin).
  unfold iupdate. apply wp_bind, (wp_geti s ip i); [done|]. apply wp_bind, wp_gets. rewrite Hdev, HIB.
  apply (wp_fread s v bl (iblock (fsb s) (i_inum i))); [done|unfold meta_home in Hmh; lia|by apply not_held| |].
  { right. rewrite size_held_nil by done. by eapply fsrep_bufs. }
  intros h s1 Hh HR1 Hsa1. assert (fsb s1 = fsb s) as Hsb1 by apply Hsa1.
  apply (wp_fput s1 v bl h _ (vcache v (iblock (fsb s) (i_inum i))) _ _ HR1); rewrite ?Hsb1; try done.
  - rewrite length_splice; [by eapply fsrep_len|]. rewrite (fsrep_len _ _ _ _ HR).
    unfold di_encode. rewrite !length_app, length_le32s. simpl. rewrite Hl. apply di_off_fits.
  - intros s2 HR2 Hsa2. apply HQ; [done|]. by etransitivity.
Qed.

(** What iupdate writes is what a later ilock of the inode loads: the
    dinode decoded from the inode's place in its block is the one encoded,
    and every other inode of that block is as before. *)
Lemma iupdate_roundtrip s v bl ip i :
  fsrep s v bl -> vheld v = ∅ -> icache s !! ip = Some i -> i_dev i = ROOTDEV ->
  0 <= i_inum i < sb_ninodes (fsb s) -> dinode_ok (i_dinode i) -> room (fsb s) bl ->
  exists s' v' bl', iupdate ip s = Ok (tt, s') /\ fsrep s' v' bl' /\
    di_decode (vcache v' (iblock (fsb s) (i_inum i))) (di_off (i_inum i)) = i_dinode i /\
    (forall j, 0 <= j -> iblock (fsb s) j = iblock (fsb s) (i_inum i) -> j <> i_inum i ->
       di_decode (vcache v' (iblock (fsb s) j)) (di_off j) = di_decode (vcache v (iblock (fsb s) j)) (di_off j)) /\
    forall b, b <> iblock (fsb s) (i_inum i) -> vcache v' b = vcache v b.
Proof.
  intros HR Hv Hip Hdev Hin Hok Hroom.
  assert (length (i_addrs i) = 13%nat) as Hl by apply Hok.
  assert (wp (iupdate ip) s (fun _ s' => fsrep s' (iupdate_view (fsb s) i v) (logs bl (iblock (fsb s) (i_inum i)))))
    as ([] & s' & Hrun & HR').
  { apply (wp_iupdate s v bl ip i); try done. }
  pose proof (fsrep_len s v bl (iblock (fsb s) (i_inum i)) HR) as Hlen.
  pose proof (length_di_encode _ Hok) as Hle. pose proof (di_off_fits (i_inum i)) as Hfit.
  exists s', (iupdate_view (fsb s) i v), (logs bl (iblock (fsb s) (i_inum i))).
  split_and!; [done|done| | |].
  - simpl. rewrite fupd_eq. apply di_decode_splice; [done|]. by rewrite Hlen.
  - intros j Hj Hjb Hne. rewrite Hjb. simpl. rewrite fupd_eq. apply di_decode_other; rewrite Hle; [by rewrite Hlen|].
    unfold iblock in Hjb. unfold di_off, dinode_size. change IPB with 8 in *.
    pose proof (Z.mod_pos_bound j 8 ltac:(lia)). pose proof (Z.mod_pos_bound (i_inum i) 8 ltac:(lia)).
    pose proof (Z.div_mod j 8 ltac:(lia)). pose proof (Z.div_mod (i_inum i) 8 ltac:(lia)).
    destruct (decide (j mod 8 < i_inum i mod 8)); lia.
  - intros b Hb. simpl. by rewrite fupd_ne.
Qed.

Lemma read_then_panic {A} (m : M (fss T) nat) (f : nat -> M (fss T) (list Z)) (k : nat -> list Z -> M (fss T) A) s h d s1 e :
  (bp ← m; d ← f bp; mret (bp, d)) s = Ok ((h, d), s1) -> k h d s1 = Panic e ->
  (bp ← m; d ← f bp; k bp d) s = Panic e.
Proof.
  intros H1 H2. apply bind_Ok_inv in H1 as (h' & t & H1 & H3). apply bind_Ok_inv in H3 as (d' & t' & H3 & H4).
  injection H4 as -> -> ->. rewrite (bind_Ok _ _ _ _ _ H1). by rewrite (bind_Ok _ _ _ _ _ H3).
Qed.

(** balloc takes the lowest free block: it was free and is a data block, it
    is then in use and zeroed, and no other block or bit changes; with every
    block in use it panics. *)
Lemma balloc_lowest_free s v bl :
  fsrep s v bl -> vheld v = ∅ -> meta_used (fsb s) (vcache v) ->
  Z.of_nat (length bl) < sb_nlog (fsb s) - 2 ->
  (exists a s' v' bl', balloc ROOTDEV s = Ok (a, s') /\ fsrep s' v' bl' /\ data_block (fsb s) a /\
     ~ used (fsb s) (vcache v) a /\ (forall b, 0 <= b < a -> used (fsb s) (vcache v) b) /\
     vcache v' a = zero_block /\ (forall b, 0 <= b -> used (fsb s) (vcache v') b <-> used (fsb s) (vcache v) b \/ b = a) /\
     forall b, b <> a -> b <> sb_bmapstart (fsb s) -> vcache v' b = vcache v b) \/
  ((forall b, 0 <= b < sb_size (fsb s) -> used (fsb s) (vcache v) b) /\
   balloc ROOTDEV s = Panic "balloc: out of blocks").
Proof.
  intros HR Hv Hm Hroom. pose proof (fr_geo _ _ _ HR) as Hg.
  pose proof (li_size _ _ _ (fr_inv _ _ _ HR)) as Hsi. rewrite (g_size _ _ Hg) in Hsi. unfold LOGSIZE, MAXOPBLOCKS in Hsi.
  pose proof (first_free_cases (fsb s) (vcache v)) as Hs. destruct (first_free (fsb s) (vcache v)) as [a|] eqn:Ef.
  - left. destruct Hs as (_ & _ & _ & Hlow).
    assert (wp (balloc ROOTDEV) s (fun r s' => r = a /\
      fsrep s' (alloc_view (fsb s) a v) (logs (logs bl (sb_bmapstart (fsb s))) a))) as (r & s' & Hrun & -> & HR').
    { apply (wp_balloc s v bl a); try done.
      - intros k b x Hx. by apply not_held in Hx.
      - unfold bufs_left, nbuf. rewrite size_held_nil by done. lia. }
    destruct (alloc_facts s v bl a HR Hm Ef) as [A1 A2 A3 A4 A5 A6].
    exists a, s', (alloc_view (fsb s) a v), (logs (logs bl (sb_bmapstart (fsb s))) a).
    split_and!; try done.
  - right. pose proof (g_fs _ _ Hg) as Hfs. pose proof (geo_bmap _ _ Hg) as Hbm. pose proof (geo_bm_pos _ _ Hg).
    split; [intros b Hb; apply Hs; unfold fssize in *; lia|].
    unfold balloc. rewrite (bind_Ok _ _ s (fsb s) s) by done. rewrite (geo_one_map _ _ Hg). cbn [balloc_loop].
    rewrite (bind_Ok _ _ s (fsb s) s) by done. rewrite (geo_bblock _ _ 0 Hg) by done.
    assert (wp (bp ← liftb (bl_read ROOTDEV (sb_bmapstart (fsb s))); d ← liftb (bl_data bp); mret (bp, d)) s
      (fun r s1 => snd r = vcache v (sb_bmapstart (fsb s)) /\
         exists s2, liftb (bl_release (fst r)) s1 = Ok (tt, s2))) as ([h d] & s1 & H1 & Hd & s2 & H2).
    { apply (wp_fread s v bl (sb_bmapstart (fsb s))); [done|unfold meta_home in Hbm; lia|by apply not_held| |].
      { right. rewrite size_held_nil by done. by eapply fsrep_bufs. }
      intros h s1 Hh HR1 _. apply wp_ret. split; [done|].
      assert (wp (liftb (bl_release h)) s1 (fun _ _ => True)) as ([] & s2 & H2 & _); [|by exists s2].
      by apply (wp_frelease s1 v bl h _ _ _ HR1). }
    eapply read_then_panic; [exact H1|]. simpl in Hd, H2. rewrite Hd. rewrite (first_free_None _ _ Ef).
    by rewrite (bind_Ok _ _ _ _ _ H2).
Qed.

Lemma blocks_of_enough n off : 0 <= n -> n + off mod BSIZE <= BSIZE * Z.of_nat (blocks_of n).
Proof.
  intros Hn. unfold blocks_of, BSIZE. pose proof (Z.mod_pos_bound off 512 ltac:(lia)).
  pose proof (Z.div_pos n 512 ltac:(lia) ltac:(lia)). pose proof (Z.div_mod n 512 ltac:(lia)).
  pose proof (Z.mod_pos_bound n 512 ltac:(lia)). rewrite Z2Nat.id by lia. lia.
Qed.

(** A regular file or directory in the cache. *)
Record file_ok s v ip i : Prop := {
  fo_ip : icache s !! ip = Some i;
  fo_type : i_type i <> T_DEV;
  fo_inv : finv (fsb s) (vcache v) i;
  fo_map : mapped (vcache v) i }.

Context (devread : Z -> option (nat -> Z -> M (fss T) (Z * list Z))).

Lemma wp_readi s v bl ip i off n (Q : Z * list Z -> fss T -> Prop) :
  fsrep s v bl -> vheld v = ∅ -> file_ok s v ip i -> 0 <= off <= i_size i -> 0 <= n -> off + n < 2 ^ 32 ->
  let len := Z.min n (i_size i - off) in
  (forall s', fsrep s' v bl -> same_above s s' -> Q (len, fbytes (vcache v) i off (Z.to_nat len)) s') ->
  wp (readi devread ip off n) s Q.
Proof.
  intros HR Hv [Hip Hty Hi Hmap] Ho Hn Hov len HQ. unfold readi.
  apply wp_bind, (wp_geti s ip i); [done|]. replace (i_type i =? T_DEV) with false by lia.
  replace (i_size i <? off) with false by lia. rewrite u32_small by lia. replace (off + n <? off) with false by lia. cbn [orb].
  assert ((if i_size i <? off + n then i_size i - off else n) = len) as -> by (unfold len; destruct (_ <? _) eqn:E; lia).
  assert (0 <= len /\ off + len <= i_size i) as [Hl1 Hl2] by (unfold len; lia). clearbody len.
  cbn zeta. apply wp_bind, (wp_readi_loop (blocks_of len) s v bl ip i); try done; try lia.
  - right. by apply blocks_of_enough.
  - intros s' HR' Hsa. apply wp_ret. rewrite s32_small; [by apply HQ|].
    destruct Hmap as [Hsz _]. change (MAXFILE * BSIZE) with 71680 in Hsz. lia.
Qed.

(** C24. readi returns exactly the bytes of the file between [off] and
    [off + n], cut at its end, and changes nothing; an offset beyond the end
    or one that wraps around is rejected with -1. *)
Theorem readi_reads s v bl ip i off n :
  fsrep s v bl -> vheld v = ∅ -> file_ok s v ip i -> uint off -> uint n ->
  if decide (off <= i_size i /\ off + n < 2 ^ 32) then
    let len := Z.min n (i_size i - off) in
    exists s', readi devread ip off n s = Ok ((len, fbytes (vcache v) i off (Z.to_nat len)), s') /\
      fsrep s' v bl /\ same_above s s'
  else readi devread ip off n s = Ok ((-1, []), s).
Proof.
  unfold uint. intros HR Hv Hf Ho Hn. case_decide as D.
  - set (len := Z.min n (i_size i - off)). assert (wp (readi devread ip off n) s (fun r s' => r = (len, fbytes (vcache v) i off (Z.to_nat len)) /\
      fsrep s' v bl /\ same_above s s')) as (r & s' & Hrun & -> & HR' & Hsa).
    { apply (wp_readi s v bl ip i); try done; lia. }
    by exists s'.
  - unfold readi. rewrite (bind_Ok _ _ s i s) by (unfold geti; apply deref_Some; apply Hf).
    pose proof (fo_type _ _ _ _ Hf). replace (i_type i =? T_DEV) with false by lia.
    destruct (i_size i <? off) eqn:E; [done|]. cbn [orb].
    replace (u32 (off + n) <? off) with true; [done|]. symmetry. apply Z.ltb_lt. zdm.
Qed.

Lemma wrote_mapped sb c i off src c' i' :
  wrote sb c i off src c' i' -> mapped c i -> 0 <= off <= i_size i ->
  off + Z.of_nat (length src) <= MAXFILE * BSIZE ->
  mapped c' (i_set_size (Z.max (i_size i) (off + Z.of_nat (length src))) i').
Proof.
  clear devread.
  intros Hw [Hsz Hm] Ho Hmax. split; [simpl; lia|]. simpl. intros bn Hbn Hlt.
  assert (0 <= bn < MAXFILE) as HbM by (unfold BSIZE in *; lia).
  change (faddr c' i' bn <> 0). destruct (decide (bn * BSIZE < i_size i)) as [Hin|Hout].
  - rewrite (w_addr _ _ _ _ _ _ _ Hw) by auto. by apply Hm.
  - assert (bn * BSIZE / BSIZE = bn) as <- by by rewrite Z.div_mul. apply (w_there _ _ _ _ _ _ _ Hw).
    unfold BSIZE in *. lia.
Qed.

(** The state after a successful writei. *)
Record written s v ip i off (src : list Z) s' v' (bl' : list Z) i' : Prop := {
  wr_rep : fsrep s' v' bl';
  wr_held : vheld v' = ∅;
  wr_file : file_ok s' v' ip i';
  wr_size : i_size i' = Z.max (i_size i) (off + Z.of_nat (length src));
  wr_bytes x : 0 <= x < MAXFILE * BSIZE -> fbyte (vcache v') i' x =
    if decide (off <= x < off + Z.of_nat (length src)) then nth (Z.to_nat (x - off)) src 0 else fbyte (vcache v) i x;
  wr_meta : meta_used (fsb s) (vcache v');
  wr_used b : 0 <= b -> used (fsb s) (vcache v) b -> used (fsb s) (vcache v') b;
  wr_frame b : 0 <= b -> used (fsb s) (vcache v) b -> b <> sb_bmapstart (fsb s) -> b <> iblock (fsb s) (i_inum i) ->
    b <> ind i -> (forall bn, 0 <= bn < MAXFILE -> faddr (vcache v) i bn <> b) -> vcache v' b = vcache v b;
  wr_others j : j <> ip -> icache s' !! j = icache s !! j;
  wr_sb : fsb s' = fsb s }.

Context (devwrite : Z -> option (nat -> list Z -> Z -> M (fss T) Z)).

(** Room for a write of [n] bytes in the transaction and on the disk. *)
Definition write_room (sb : superblock) (c : Z -> list Z) (bl : list Z) (n : Z) : Prop :=
  (2 * blocks_of n <= nfree sb c)%nat /\ Z.of_nat (length bl + blocks_of n) + 8 < sb_nlog sb.

Lemma i_size_load i t ma mi nl sz ad : i_size (i_load (mkDinode t ma mi nl sz ad) i) = sz.
Proof. done. Qed.

Lemma wrote_st_file s v ip i off src s1 v1 bl1 i1 :
  wrote_st s v ip i off src s1 v1 bl1 i1 -> icache s !! ip = Some i ->
  icache s1 !! ip = Some i1 /\ i_size i1 = i_size i /\ i_type i1 = i_type i /\ i_inum i1 = i_inum i /\ i_dev i1 = i_dev i.
Proof.
  clear devread. intros Hw Hip. rewrite (ws_ic _ _ _ _ _ _ _ _ _ _ Hw).
  split; [by apply list_lookup_insert_eq; eapply lookup_lt_Some|].
  rewrite (w_rest _ _ _ _ _ _ _ (ws_wrote _ _ _ _ _ _ _ _ _ _ Hw)). done.
Qed.

(** A write inside the file: the blocks written are all there is to it. *)
Lemma written_inside s v ip i off src s1 v1 bl1 i1 :
  wrote_st s v ip i off src s1 v1 bl1 i1 -> file_ok s v ip i -> 0 <= off ->
  off + Z.of_nat (length src) <= i_size i -> written s v ip i off src s1 v1 bl1 i1.
Proof.
  clear devread. intros Hw [Hip Hty Hi Hmap] Ho Hin.
  destruct (wrote_st_file _ _ _ _ _ _ _ _ _ _ Hw Hip) as (Hip1 & Hs1 & Ht1 & _). destruct Hw as [Hrep Hheld Hic Hsb _ _ Hwr].
  pose proof Hmap as [Hsz _].
  pose proof (wrote_mapped _ _ _ _ _ _ _ Hwr Hmap ltac:(lia) ltac:(lia)) as Hmap1. rewrite Z.max_l in Hmap1 by done.
  constructor; try done; [|by rewrite Z.max_l| | | | |].
  - constructor; rewrite ?Hsb; try done; [by rewrite Ht1|apply Hwr|].
    destruct Hmap1 as [A1 A2]. split; [by rewrite Hs1|]. rewrite Hs1. done.
  - apply (w_bytes _ _ _ _ _ _ _ Hwr).
  - apply (w_meta _ _ _ _ _ _ _ Hwr).
  - apply (w_used _ _ _ _ _ _ _ Hwr).
  - intros b Hb Hu Hbm _ Hbi Hf. by apply (w_frame _ _ _ _ _ _ _ Hwr).
  - intros j Hj. rewrite Hic. by apply list_lookup_insert_ne.
Qed.

(** A write past the end: the new size is in the inode and, by iupdate, in its block. *)
Lemma written_past s v ip i off src s1 v1 bl1 i1 s3 bl3 :
  let i2 := i_set_size (off + Z.of_nat (length src)) i1 in
  wrote_st s v ip i off src s1 v1 bl1 i1 -> file_ok s v ip i -> 0 <= off <= i_size i ->
  i_size i <= off + Z.of_nat (length src) <= MAXFILE * BSIZE -> 0 < iblock (fsb s) (i_inum i) < sb_bmapstart (fsb s) ->
  fsrep s3 (iupdate_view (fsb s) i2 v1) bl3 -> same_above (with_icache (<[ip := i2]> (icache s1)) s1) s3 ->
  written s v ip i off src s3 (iupdate_view (fsb s) i2 v1) bl3 i2.
Proof.
  clear devread. intros i2 Hw [Hip Hty Hi Hmap] Ho Hmax Hib HR3 (Hic3 & Hsb3 & _).
  destruct (wrote_st_file _ _ _ _ _ _ _ _ _ _ Hw Hip) as (Hip1 & Hs1 & Ht1 & Hn1 & _). destruct Hw as [_ Hheld Hic Hsb _ _ Hwr].
  pose proof (wrote_mapped _ _ _ _ _ _ _ Hwr Hmap Ho ltac:(lia)) as Hmap1. rewrite Z.max_r in Hmap1 by lia. fold i2 in Hmap1.
  assert (finv (fsb s) (vcache v1) i2) as Hi2 by (pose proof (w_inv _ _ _ _ _ _ _ Hwr) as [? ? ? ? ? ?]; by constructor).
  simpl in Hic3, Hsb3. rewrite Hsb in Hsb3.
  set (b := iblock (fsb s) (i_inum i)) in *. set (x := splice (di_off (i_inum i2)) (di_encode (i_dinode i2)) (vcache v1 b)).
  destruct (meta_write (fsb s) (vcache v1) i2 b x) as (M1 & M2 & M3 & M4); [lia|done|].
  assert (vcache (iupdate_view (fsb s) i2 v1) = fupd (vcache v1) b x) as Hcv.
  { unfold iupdate_view, x, b. cbn [vcache v_pin]. change (i_inum i2) with (i_inum i1). by rewrite Hn1. }
  constructor; rewrite ?Hcv; try done; [|by rewrite Z.max_r by lia| | | | |].
  - constructor; rewrite ?Hcv, ?Hsb3; try done.
    + rewrite Hic3. apply list_lookup_insert_eq. by eapply lookup_lt_Some.
    + simpl. by rewrite Ht1.
    + destruct Hmap1 as [Hms Hmm]. split; [done|]. intros bn Hbn Hlt. rewrite M3; [by apply Hmm|].
      change (i_size i2) with (off + Z.of_nat (length src)) in Hlt. unfold BSIZE in *. change MAXFILE with 140 in *. lia.
  - intros y Hy. unfold fbyte. rewrite M4 by by apply block_range.
    etransitivity; [|apply (w_bytes _ _ _ _ _ _ _ Hwr y Hy)]. done.
  - intros y Hy. rewrite M2. by apply (w_meta _ _ _ _ _ _ _ Hwr).
  - intros y Hy Hu. rewrite M2. by apply (w_used _ _ _ _ _ _ _ Hwr).
  - intros y Hy Hu Hbm Hyb Hyi Hf. rewrite fupd_ne by done. by apply (w_frame _ _ _ _ _ _ _ Hwr).
  - intros j Hj. by rewrite Hic3, Hic, !list_lookup_insert_ne by done.
Qed.

Lemma wp_writei s v bl ip i off (src : list Z) (Q : Z -> fss T -> Prop) :
  let n := Z.of_nat (length src) in
  fsrep s v bl -> vheld v = ∅ -> file_ok s v ip i -> meta_used (fsb s) (vcache v) ->
  0 <= i_inum i < sb_ninodes (fsb s) -> 0 <= off <= i_size i -> off + n <= MAXFILE * BSIZE ->
  write_room (fsb s) (vcache v) bl n ->
  (forall s' v' bl' i', written s v ip i off src s' v' bl' i' -> Q n s') ->
  wp (writei devwrite ip src off n) s Q.
Proof.
  clear devread.
  intros n HR Hv Hfo Hm Hin Ho Hmax [Hfree Hbud] HQ. unfold writei. pose proof Hfo as [Hip Hty Hi Hmap].
  pose proof Hmap as [Hsz _]. change (MAXFILE * BSIZE) with 71680 in *.
  apply wp_bind, (wp_geti s ip i); [done|]. replace (i_type i =? T_DEV) with false by lia.
  replace (i_size i <? off) with false by lia. rewrite u32_small by lia. replace (off + n <? off) with false by lia. cbn [orb].
  replace (71680 <? off + n) with false by lia.
  apply wp_bind, (wp_writei_loop (blocks_of n) s v bl ip i off n src bl []); try done; try lia.
  { right. apply blocks_of_enough. lia. }
  { by left. }
  { simpl. lia. }
  intros s1 v1 bl1 i1 D1 Hw Hcov HD. destruct (wrote_st_file _ _ _ _ _ _ _ _ _ _ Hw Hip) as (Hip1 & Hs1 & Ht1 & Hn1 & Hd1).
  pose proof Hw as [HR1 Hv1 Hic1 Hsb1 _ _ Hwr].
  apply wp_bind, (wp_geti s1 ip i1); [done|]. rewrite Hs1. apply wp_bind, wp_when; intros E.
  - apply andb_true_iff in E as [E1 E2]. apply wp_bind, (wp_updi s1 ip i1); [done|].
    set (i2 := i_set_size (off + n) i1). set (s2 := with_icache _ s1).
    pose proof (cover_length _ _ _ _ _ (li_nodup _ _ _ (fr_inv _ _ _ HR1)) Hcov) as Hlen. simpl in HD.
    pose proof (iblock_meta _ _ (i_inum i) (fr_geo _ _ _ HR) Hin) as Hib.
    apply (wp_iupdate s2 v1 bl1 ip i2); change (fsb s2) with (fsb s1); rewrite ?Hsb1; try done.
    + by apply fsrep_icache.
    + simpl. apply list_lookup_insert_eq. by eapply lookup_lt_Some.
    + simpl. rewrite Hd1. apply Hi.
    + simpl. by rewrite Hn1.
    + apply (fi_len _ _ _ (w_inv _ _ _ _ _ _ _ Hwr)).
    + unfold room. lia.
    + intros s3 HR3 Hsa3. apply wp_ret. rewrite s32_small by lia. eapply HQ, (written_past _ _ _ _ _ _ s1); try done; try (change (MAXFILE * BSIZE) with 71680; fold n; lia).
  - apply wp_ret. rewrite s32_small by lia. eapply HQ, written_inside; [done|done|lia|].
    fold n. assert (0 <= n) by (unfold n; lia). apply andb_false_iff in E as [E|E]; lia.
Qed.


(** C15. What was written is read back: readi at the same place after a
    successful writei returns the bytes given to writei. *)
Theorem writei_readi_roundtrip s v bl ip i off (src : list Z) :
  let n := Z.of_nat (length src) in
  fsrep s v bl -> vheld v = ∅ -> file_ok s v ip i -> meta_used (fsb s) (vcache v) ->
  0 <= i_inum i < sb_ninodes (fsb s) -> 0 <= off <= i_size i -> off + n <= MAXFILE * BSIZE ->
  write_room (fsb s) (vcache v) bl n ->
  exists s' s'', writei devwrite ip src off n s = Ok (n, s') /\ readi devread ip off n s' = Ok ((n, src), s'').
Proof.
  intros n HR Hv Hf Hm Hin Ho Hmax Hroom.
  assert (wp (writei devwrite ip src off n) s (fun r s' => r = n /\ wp (readi devread ip off n) s' (fun r s'' => r = (n, src))))
    as (r & s' & Hrun & -> & r2 & s'' & Hrun2 & ->); [|by exists s', s''].
  apply (wp_writei s v bl ip i off src); try done. intros s' v' bl' i' Hw. split; [done|].
  pose proof (wr_size _ _ _ _ _ _ _ _ _ _ Hw) as Hsz. fold n in Hsz. assert (0 <= n) by (unfold n; lia).
  apply (wp_readi s' v' bl' ip i'); try apply Hw; try lia.
  { change (MAXFILE * BSIZE) with 71680 in Hmax. lia. }
  intros s'' _ _. replace (Z.min n (i_size i' - off)) with n by lia. f_equal. apply list_eq. intros k.
  destruct (decide (k < length src)%nat) as [Hk|Hk].
  - rewrite lookup_fbytes by (unfold n; lia). rewrite (wr_bytes _ _ _ _ _ _ _ _ _ _ Hw) by (unfold n in *; lia).
    rewrite decide_True by (unfold n in *; lia). replace (Z.to_nat (off + Z.of_nat k - off)) with k by lia.
    destruct (lookup_lt_is_Some_2 src k Hk) as [x Hx]. rewrite Hx. f_equal. by apply nth_lookup_Some.
  - rewrite !lookup_ge_None_2; [done|lia|]. rewrite length_fbytes. unfold n. lia.
Qed.

End props.

(** * A small file system *)

Module FsDemo.

(** Blocks 0 to 58 in use, the rest free. *)
Definition map0 : list Z := replicate 7 255 ++ [7] ++ replicate 504 0.

Definition disk1 (_ b : Z) : list Z :=
  if b =? 1 then sb_encode Demo.sb0 ++ replicate 484 0 else if b =? 58 then map0 else Demo.zeros.

Definition lk0 : sleeplock := mkSleeplock 1 "inode" 1.

(** An empty file, inode 2, locked by the running process. *)
Definition ino : inode := mkInode ROOTDEV 2 1 lk0 I_VALID T_FILE 0 0 1 0 (replicate 13 0).

Definition fs0 : fss bcache := mkFss [ino] Demo.sb0 1 0 (mkLst (Demo.log0 1) (booted disk1 1)).

Definition v0 : bview := bview0 (disk1 ROOTDEV).

Lemma fs0_rep : fsrep fs0 v0 [].
Proof.
  constructor; [|done|by constructor|by vm_compute].
  apply Demo.log_boot_inv; [|done|done]. intros b. unfold disk1. by destruct (b =? 1), (b =? 58).
Qed.

Lemma fs0_meta : meta_used Demo.sb0 (vcache v0).
Proof.
  assert (Forall (fun k => bit_free map0 (Z.of_nat k) = false) (seq 0 59)) as HF by (by repeat constructor).
  intros b Hb. unfold used. change (vcache v0 (sb_bmapstart Demo.sb0)) with map0.
  change (sb_bmapstart Demo.sb0) with 58 in Hb.
  rewrite Forall_forall in HF. rewrite <- (Z2Nat.id b) by lia. apply HF. apply elem_of_seq. lia.
Qed.

Lemma no_addr c bn : 0 <= bn < MAXFILE -> faddr c ino bn = 0.
Proof.
  intros Hbn. unfold faddr. destruct (bn <? NDIRECT); [|done]. unfold ino. cbn [i_addrs].
  rewrite nth_lookup. destruct (replicate 13 0 !! Z.to_nat bn) as [x|] eqn:E; [|done].
  apply lookup_replicate_1 in E as [-> _]. done.
Qed.

Lemma fs0_file : file_ok fs0 v0 0 ino.
Proof.
  constructor; [done|done| |].
  - constructor; try done.
    + repeat constructor; done.
    + intros bn Hbn Hne. by rewrite no_addr in Hne.
    + intros bn bn' Hbn _ Hne. by rewrite no_addr in Hne.
  - split; [done|]. simpl. unfold BSIZE. lia.
Qed.

Lemma fs0_room n : 0 <= n <= 1024 -> write_room Demo.sb0 (vcache v0) [] n.
Proof.
  intros Hn. assert (nfree Demo.sb0 (vcache v0) = 941%nat) as Hf by by vm_compute.
  unfold write_room. rewrite Hf. unfold blocks_of, BSIZE. simpl.
  assert (n / 512 <= 2) by (apply Z.div_le_upper_bound; lia). pose proof (Z.div_pos n 512 ltac:(lia) ltac:(lia)). lia.
Qed.

End FsDemo.

Lemma readi_reads_witness : exists s', readi (fun _ => None) 0 0 100 FsDemo.fs0 = Ok ((0, []), s').
Proof.
  pose proof (readi_reads (fun _ => None) FsDemo.fs0 FsDemo.v0 [] 0 FsDemo.ino 0 100 FsDemo.fs0_rep eq_refl FsDemo.fs0_file) as H.
  destruct H as (s' & H & _); [done|done|]. by exists s'.
Defined.


Lemma writei_readi_roundtrip_witness : exists s' s'',
  writei (fun _ => None) 0 [104; 105] 0 2 FsDemo.fs0 = Ok (2, s') /\
  readi (fun _ => None) 0 0 2 s' = Ok ((2, [104; 105]), s'').
Proof.
  apply (writei_readi_roundtrip (fun _ => None) (fun _ => None) FsDemo.fs0 FsDemo.v0 [] 0 FsDemo.ino 0 [104; 105]
    FsDemo.fs0_rep eq_refl FsDemo.fs0_file FsDemo.fs0_meta); [done|done|done|by apply FsDemo.fs0_room].
Defined.
