(* ===== verification/Mkfs.v ===== *)
(** mkfs.c: the program that builds the file system image.

    The image is its blocks; the host is little-endian, so that the bytes of a
    struct in memory are those of the encodings of Layout.v.  Failures of the
    host's open, lseek, read and write end the program; of these only the read
    beyond the end of the image is modelled. *)

From S2P Require Import Prelude StringC Codec Sleeplock Blocks Bio Layout Fs FsSpec FsFile.

Definition NINODES : Z := 200.
Definition nbitmap : Z := FSSIZE / (BSIZE * 8) + 1.
Definition ninodeblocks : Z := NINODES / IPB + 1.
Definition nlog : Z := LOGSIZE.
Definition nmeta : Z := 2 + nlog + ninodeblocks + nbitmap.
Definition nblocks : Z := FSSIZE - nmeta.

(** The value whose bytes in memory are the little-endian ones of [x]. *)
Definition xshort (x : Z) : Z := le_val [u8 x; u8 (Z.shiftr x 8)].
Definition xint (x : Z) : Z := le_val [u8 x; u8 (Z.shiftr x 8); u8 (Z.shiftr x 16); u8 (Z.shiftr x 24)].

Definition sb : superblock :=
  mkSuper (xint FSSIZE) (xint nblocks) (xint NINODES) (xint nlog) (xint 2) (xint (2 + nlog)) (xint (2 + nlog + ninodeblocks)).

Record mkst := mkMk { img : Z -> list Z; freeinode : Z; freeblock : Z }.

Abbreviation K := (M mkst).

Definition wsect (sec : Z) (buf : list Z) : K unit :=
  modify (fun s => mkMk (fun b => if b =? sec then buf else img s b) (freeinode s) (freeblock s)).
(** The image has FSSIZE blocks: a read beyond its end returns no bytes. *)
Definition rsect (sec : Z) : K (list Z) := if FSSIZE <=? sec then panic "read" else gets (fun s => img s sec).

Definition winode (inum : Z) (ip : dinode) : K unit :=
  let bn := IBLOCK inum sb in
  buf ← rsect bn;
  wsect bn (splice (di_off inum) (di_encode ip) buf).

Definition rinode (inum : Z) : K dinode :=
  buf ← rsect (IBLOCK inum sb);
  mret (di_decode buf (di_off inum)).

(** freeblock++ *)
Definition next_block : K Z := act (fun s => Ok (freeblock s, mkMk (img s) (freeinode s) (u32 (freeblock s + 1)))).

Definition ialloc (type : Z) : K Z :=
  inum ← act (fun s => Ok (freeinode s, mkMk (img s) (u32 (freeinode s + 1)) (freeblock s)));
  winode inum (mkDinode (s16 (xshort type)) 0 0 (s16 (xshort 1)) (xint 0) (replicate 13 0));;
  mret inum.

Definition set_addr (i : nat) (a : Z) (d : dinode) : dinode :=
  mkDinode (di_type d) (di_major d) (di_minor d) (di_nlink d) (di_size d) (<[i := a]> (di_addrs d)).
Definition set_dsize (n : Z) (d : dinode) : dinode :=
  mkDinode (di_type d) (di_major d) (di_minor d) (di_nlink d) n (di_addrs d).

(** if(xint(din.addrs[i]) == 0) din.addrs[i] = xint(freeblock++); *)
Definition fill (i : nat) (din : dinode) : K dinode :=
  if xint (nth i (di_addrs din) 0) =? 0 then b ← next_block; mret (set_addr i (xint b) din) else mret din.

(** The block of file block [fbn], and the inode with it. *)
Definition block_of (fbn : Z) (din : dinode) : K (Z * dinode) :=
  if fbn <? NDIRECT then
    din ← fill (Z.to_nat fbn) din;
    mret (xint (nth (Z.to_nat fbn) (di_addrs din) 0), din)
  else
    din ← fill NDIR din;
    let a := xint (nth NDIR (di_addrs din) 0) in
    indirect ← rsect a;
    let o := (4 * Z.to_nat (fbn - NDIRECT))%nat in
    indirect ← (if get32 indirect o =? 0 then
                  b ← next_block;
                  wsect a (put32 indirect o (xint b));;
                  mret (put32 indirect o (xint b))
                else mret indirect);
    mret (xint (get32 indirect o), din).

(** The loop of iappend; each round takes at least one byte of [p]. *)
Fixpoint iappend_loop (fuel : nat) (din : dinode) (off : Z) (p : list Z) : K (dinode * Z) :=
  match fuel with
  | O => mret (din, off)
  | S fuel =>
      if 0 <? Z.of_nat (length p) then
        let fbn := off / BSIZE in
        if MAXFILE <=? fbn then panic "assertion fbn < MAXFILE"
        else
          r ← block_of fbn din;
          let n1 := Z.to_nat (Z.min (Z.of_nat (length p)) ((fbn + 1) * BSIZE - off)) in
          buf ← rsect (fst r);
          wsect (fst r) (splice (Z.to_nat (off - fbn * BSIZE)) (take n1 p) buf);;
          iappend_loop fuel (snd r) (u32 (off + Z.of_nat n1)) (drop n1 p)
      else mret (din, off)
  end.

Definition iappend (inum : Z) (p : list Z) : K unit :=
  din ← rinode inum;
  r ← iappend_loop (length p) din (xint (di_size din)) p;
  winode inum (set_dsize (xint (snd r)) (fst r)).

(** The loop of balloc over the bits. *)
Fixpoint mark (n : nat) (i : Z) (buf : list Z) : list Z :=
  match n with
  | O => buf
  | S n =>
      let k := Z.to_nat (i / 8) in
      mark n (i + 1) (<[k := u8 (Z.lor (nth k buf 0) (Z.shiftl 1 (i mod 8)))]> buf)
  end.

Definition balloc (used : Z) : K unit :=
  if BSIZE * 8 <=? used then panic "assertion used < BSIZE*8"
  else wsect (sb_bmapstart sb) (mark (Z.to_nat used) 0 zero_block).

(** struct dirent with the inode number and strncpy of the name. *)
Definition mkdirent (inum : Z) (name : list Z) : list Z :=
  de_encode (mkDirent (xshort inum) (take DIRSIZ (name ++ replicate DIRSIZ 0))).

Definition DOT : Z := 46.
Definition BIN : list Z := [98; 105; 110].
Definition PATH : list Z := [112; 97; 116; 104].
Definition README : list Z := [82; 69; 65; 68; 77; 69].

(** Read the host file block by block and append. *)
Fixpoint copy_file (fuel : nat) (inum : Z) (bytes : list Z) : K unit :=
  match fuel with
  | O => mret tt
  | S fuel =>
      match bytes with
      | [] => mret tt
      | _ =>
          iappend inum (take (Z.to_nat BSIZE) bytes);;
          copy_file fuel inum (drop (Z.to_nat BSIZE) bytes)
      end
  end.

(** One argument: a host file, its name and its bytes. *)
Definition add_file (rootino binino : Z) (name bytes : list Z) : K unit :=
  if bool_decide (47 ∈ name) then panic "assertion index(argv[i], '/') == 0"
  else
    let name := match name with c :: rest => if c =? 95 then rest else name | [] => [] end in
    inum ← ialloc T_FILE;
    let de := mkdirent inum name in
    let short := cstr (take DIRSIZ name) in
    (if bool_decide (short = PATH) || bool_decide (short = README) then iappend rootino de else iappend binino de);;
    copy_file (length bytes) inum bytes.

Fixpoint add_files (rootino binino : Z) (files : list (list Z * list Z)) : K unit :=
  match files with
  | [] => mret tt
  | (name, bytes) :: files => add_file rootino binino name bytes;; add_files rootino binino files
  end.

(** Zero every block. *)
Fixpoint zero_all (n : nat) (i : Z) : K unit :=
  match n with
  | O => mret tt
  | S n => wsect i zero_block;; zero_all n (i + 1)
  end.

Definition main (files : list (list Z * list Z)) : K unit :=
  modify (fun s => mkMk (img s) (freeinode s) nmeta);;
  zero_all (Z.to_nat FSSIZE) 0;;
  wsect 1 (splice 0 (sb_encode sb) zero_block);;
  rootino ← ialloc T_DIR;
  if negb (rootino =? ROOTINO) then panic "assertion rootino == ROOTINO"
  else
    iappend rootino (mkdirent rootino [DOT]);;
    iappend rootino (mkdirent rootino [DOT; DOT]);;
    binino ← ialloc T_DIR;
    iappend binino (mkdirent binino [DOT]);;
    iappend binino (mkdirent rootino [DOT; DOT]);;
    iappend rootino (mkdirent binino BIN);;
    add_files rootino binino files;;
    din ← rinode rootino;
    let off := xint (di_size din) in
    winode rootino (set_dsize (xint (u32 ((off / BSIZE + 1) * BSIZE))) din);;
    b ← gets freeblock;
    balloc b.
