(* ===== verification/MkfsProps.v ===== *)
(** mkfs.c: the image it builds is one the kernel's file system reads: every
    file is there with its bytes, each block belongs to one file, and the bitmap
    marks exactly the blocks in use. *)

From S2P Require Import Prelude StringC Codec Sleeplock Blocks Bio Layout Fs FsSpec FsFile Mkfs.

(** The constants of the file system as numbers. *)
Ltac fsz :=
  change MAXFILE with 140 in *; change NINDIRECT with 128 in *; change NDIRECT with 12 in *; change NDIR with 12%nat in *;
  change BSIZE with 512 in *.

(** * The files of an image *)

(** The inode as the kernel's ilock would read it. *)
Definition ino_of (inum : Z) (d : dinode) : inode :=
  mkInode ROOTDEV inum 1 (initsleeplock "inode") I_VALID (di_type d) (di_major d) (di_minor d) (di_nlink d) (di_size d) (di_addrs d).

(** A file while it is built: type, bytes, how many blocks it has, and whether
    it has the block of addresses. *)
Record gfile := mkF { f_type : Z; f_data : list Z; f_blocks : Z; f_ind : bool }.

Definition padded (l : list Z) : list Z := l ++ replicate (Z.to_nat BSIZE - length l) 0.

Record fok (im : Z -> list Z) (f : gfile) (d : dinode) : Prop := {
  fk_head : di_type d = f_type f /\ di_major d = 0 /\ di_minor d = 0 /\ di_nlink d = 1;
  fk_len : length (di_addrs d) = 13%nat;
  fk_uint : Forall uint (di_addrs d);
  fk_blocks : 0 <= f_blocks f <= MAXFILE /\ Z.of_nat (length (f_data f)) <= BSIZE * f_blocks f;
  fk_ind : ind (ino_of 0 d) <> 0 <-> f_ind f = true;
  fk_ind' : NDIRECT < f_blocks f -> f_ind f = true;
  fk_map bn : 0 <= bn < MAXFILE -> faddr im (ino_of 0 d) bn <> 0 <-> bn < f_blocks f;
  fk_data bn : 0 <= bn < f_blocks f ->
    im (faddr im (ino_of 0 d) bn) = padded (slice (Z.to_nat (BSIZE * bn)) (Z.to_nat BSIZE) (f_data f)) }.

(** The places of an inode that name blocks. *)
Inductive slot := Data (bn : Z) | Ind.

Definition slot_ok (sl : slot) : Prop := match sl with Data bn => 0 <= bn < MAXFILE | Ind => True end.

Definition addr (im : Z -> list Z) (d : dinode) (sl : slot) : Z :=
  match sl with Data bn => faddr im (ino_of 0 d) bn | Ind => ind (ino_of 0 d) end.

(** All files: each block belongs to one place of one inode, the blocks from
    [fb] on are still zero. *)
Record linv (fs : list gfile) (dn : list dinode) (im : Z -> list Z) (fb : Z) : Prop := {
  li_len : length dn = length fs;
  li_fb : nmeta <= fb <= FSSIZE;
  li_blen b : 0 <= b < FSSIZE -> length (im b) = Z.to_nat BSIZE;
  li_zero b : fb <= b < FSSIZE -> im b = zero_block;
  li_ok k f d : fs !! k = Some f -> dn !! k = Some d -> fok im f d;
  li_range k d sl : dn !! k = Some d -> slot_ok sl -> addr im d sl <> 0 -> nmeta <= addr im d sl < fb;
  li_inj k k' d d' sl sl' : dn !! k = Some d -> dn !! k' = Some d' -> slot_ok sl -> slot_ok sl' ->
    addr im d sl <> 0 -> addr im d sl = addr im d' sl' -> k = k' /\ sl = sl' }.

(** The file at [k] owns the block. *)
Definition owns (im : Z -> list Z) (d : dinode) (b : Z) : Prop := exists sl, slot_ok sl /\ addr im d sl <> 0 /\ addr im d sl = b.

Lemma addr_frame im im' d sl : (ind (ino_of 0 d) <> 0 -> im' (ind (ino_of 0 d)) = im (ind (ino_of 0 d))) -> addr im' d sl = addr im d sl.
Proof.
  intros He. destruct sl as [bn|]; [|done]. unfold addr, faddr. destruct (bn <? NDIRECT); [done|].
  destruct (Z.eqb_spec (ind (ino_of 0 d)) 0) as [|Hne]; [done|]. by rewrite (He Hne).
Qed.

Lemma fok_frame im im' f d :
  (forall b, owns im d b -> im' b = im b) -> fok im f d -> fok im' f d.
Proof.
  intros Hb [F1 F2 F3 F4 F5 F5' F6 F7]. assert (forall sl, addr im' d sl = addr im d sl) as Ha.
  { intros sl. apply addr_frame. intros Hne. apply Hb. by exists Ind. }
  split; try done.
  - intros bn Hbn. rewrite (Ha (Data bn) : faddr im' (ino_of 0 d) bn = faddr im (ino_of 0 d) bn). by apply F6.
  - intros bn Hbn. rewrite (Ha (Data bn) : faddr im' (ino_of 0 d) bn = faddr im (ino_of 0 d) bn). rewrite Hb; [by apply F7|].
    exists (Data bn). assert (0 <= bn < MAXFILE) as Hm by lia. split; [done|]. split; [apply (F6 bn Hm); lia|done].
Qed.

(** A change that touches one file, its own blocks and new ones. *)
Lemma linv_upd fs dn im fb k f' d d' im' fb' :
  linv fs dn im fb -> (k < length fs)%nat -> dn !! k = Some d -> fb <= fb' <= FSSIZE ->
  (forall b, b < fb -> ~ owns im d b -> im' b = im b) -> (forall b, fb' <= b < FSSIZE -> im' b = zero_block) ->
  (forall b, 0 <= b < FSSIZE -> length (im' b) = Z.to_nat BSIZE) -> fok im' f' d' ->
  (forall sl, slot_ok sl -> addr im' d' sl <> 0 -> addr im d sl = addr im' d' sl \/ fb <= addr im' d' sl < fb') ->
  (forall sl sl', slot_ok sl -> slot_ok sl' -> addr im' d' sl <> 0 -> addr im' d' sl = addr im' d' sl' -> sl = sl') ->
  linv (<[k := f']> fs) (<[k := d']> dn) im' fb'.
Proof.
  intros [L1 L2 L3 L4 L5 L6 L7] Hk Hd Hfb Hsame Hz Hlen Hok Hnew Hinj.
  assert (forall j e, j <> k -> dn !! j = Some e -> forall b, owns im e b -> im' b = im b) as Hother.
  { intros j e Hj He b (sl & Hsl & Hne & <-). apply Hsame; [by apply (L6 j)|]. intros (sl' & Hsl' & Hne' & E).
    destruct (L7 k j d e sl' sl Hd He Hsl' Hsl Hne' E) as [-> _]. done. }
  assert (forall j e sl, j <> k -> dn !! j = Some e -> addr im' e sl = addr im e sl) as Haddr.
  { intros j e sl Hj He. apply addr_frame. intros Hne. apply (Hother j e Hj He). by exists Ind. }
  assert (forall j e, <[k := d']> dn !! j = Some e -> j = k /\ e = d' \/ j <> k /\ dn !! j = Some e) as Hcase.
  { intros j e Hj. destruct (decide (j = k)) as [->|Hne].
    - rewrite list_lookup_insert_eq in Hj by (by eapply lookup_lt_Some). left. by injection Hj.
    - rewrite list_lookup_insert_ne in Hj by done. by right. }
  assert (forall sl, slot_ok sl -> addr im' d' sl <> 0 -> nmeta <= addr im' d' sl < fb') as Hrange.
  { intros sl Hsl Hne. destruct (Hnew sl Hsl Hne) as [E|]; [|lia]. rewrite <- E in *. pose proof (L6 k d sl Hd Hsl Hne). lia. }
  assert (forall j e sl sl', j <> k -> dn !! j = Some e -> slot_ok sl -> slot_ok sl' -> addr im' d' sl <> 0 -> addr im' d' sl <> addr im' e sl') as Hdiff.
  { intros j e sl sl' Hj He Hsl Hsl' Hne E. rewrite (Haddr j e sl' Hj He) in E. destruct (Hnew sl Hsl Hne) as [E'|Hge].
    - rewrite <- E' in E, Hne. destruct (L7 k j d e sl sl' Hd He Hsl Hsl' Hne E) as [E0 _]. by apply Hj.
    - rewrite E in Hge, Hne. pose proof (L6 j e sl' He Hsl' Hne). lia. }
  split; try done.
  - by rewrite !length_insert.
  - lia.
  - intros j f e Hf He. destruct (Hcase j e He) as [[-> ->]|[Hj He']].
    + rewrite list_lookup_insert_eq in Hf by done. by injection Hf as <-.
    + rewrite list_lookup_insert_ne in Hf by done. apply (fok_frame im); [by apply (Hother j)|by apply (L5 j)].
  - intros j e sl He Hsl Hne. destruct (Hcase j e He) as [[-> ->]|[Hj He']]; [by apply Hrange|].
    rewrite (Haddr j e sl Hj He') in *. pose proof (L6 j e sl He' Hsl Hne). lia.
  - intros j j' e e' sl sl' He He' Hsl Hsl' Hne E.
    destruct (Hcase j e He) as [[-> ->]|[Hj Hje]], (Hcase j' e' He') as [[-> ->]|[Hj' Hje']].
    + split; [done|by apply Hinj].
    + by destruct (Hdiff j' e' sl sl').
    + rewrite E in Hne. by destruct (Hdiff j e sl' sl).
    + rewrite (Haddr j e sl Hj Hje), ?(Haddr j' e' sl' Hj' Hje') in *. by apply (L7 j j' e e').
Qed.

#[global] Instance slot_eq_dec : EqDecision slot.
Proof. solve_decision. Defined.

Lemma nmeta_val : nmeta = 59.
Proof. reflexivity. Qed.

(** The file gets the next block of the image at a place that had none. *)
Lemma linv_new fs dn im fb k f' d d' im' new :
  linv fs dn im fb -> (k < length fs)%nat -> dn !! k = Some d -> fb < FSSIZE ->
  (forall sl, slot_ok sl -> addr im' d' sl = if decide (sl = new) then fb else addr im d sl) ->
  (forall b, b < fb -> ~ owns im d b -> im' b = im b) -> (forall b, fb + 1 <= b < FSSIZE -> im' b = zero_block) ->
  (forall b, 0 <= b < FSSIZE -> length (im' b) = Z.to_nat BSIZE) -> fok im' f' d' ->
  linv (<[k := f']> fs) (<[k := d']> dn) im' (fb + 1).
Proof.
  intros L Hk Hd Hfb Ha Hs Hz Hlen Hok. eapply linv_upd; eauto; [lia|..].
  - intros sl Hsl _. rewrite Ha by done. case_decide; [right; lia|by left].
  - intros sl sl' Hsl Hsl'. rewrite !Ha by done. repeat case_decide; subst; try done.
    + intros _ E. assert (addr im d sl' <> 0) as Hne by (rewrite <- E; pose proof (li_fb _ _ _ _ L); rewrite nmeta_val in *; lia).
      pose proof (li_range _ _ _ _ L k d sl' Hd Hsl' Hne). lia.
    + intros Hne E. pose proof (li_range _ _ _ _ L k d sl Hd Hsl Hne). lia.
    + intros Hne E. by apply (li_inj _ _ _ _ L k k d d sl sl').
Qed.

Lemma xint_u32 x : xint x = u32 x.
Proof. apply le_val_le32. Qed.

Lemma xint_small x : uint x -> xint x = x.
Proof. intros. by rewrite xint_u32, u32_small. Qed.

Lemma set_addr_uint i a d : uint a -> Forall uint (di_addrs d) -> Forall uint (di_addrs (set_addr i a d)).
Proof. intros Ha Hd. cbn. by apply Forall_insert. Qed.

Lemma ind_set_addr i a d : (i < length (di_addrs d))%nat -> ind (ino_of 0 (set_addr i a d)) = if decide (NDIR = i) then a else ind (ino_of 0 d).
Proof. intros. unfold ind. cbn [ino_of i_addrs set_addr di_addrs]. rewrite nth_insert by done. by repeat case_decide. Qed.

Lemma padded_nil : padded [] = zero_block.
Proof. reflexivity. Qed.

Lemma slice_beyond (l : list Z) off n : (length l <= off)%nat -> slice off n l = [].
Proof. intros. unfold slice. rewrite drop_ge by done. by rewrite take_nil. Qed.

Section steps.
Context (fs : list gfile) (dn : list dinode) (im : Z -> list Z) (fb : Z) (k : nat) (f : gfile) (d : dinode).
Hypothesis L : linv fs dn im fb.
Hypothesis Hf : fs !! k = Some f.
Hypothesis Hd : dn !! k = Some d.
Hypothesis Hfull : fb < FSSIZE.

#[local] Set Default Proof Using "Type*".

Lemma k_lt : (k < length fs)%nat.
Proof. by eapply lookup_lt_Some. Qed.

Lemma fb_pos : uint fb /\ fb <> 0.
Proof. pose proof (li_fb _ _ _ _ L). unfold uint, FSSIZE in *. rewrite nmeta_val in *. lia. Qed.

(** The next data block of the file reads as zeros before its bytes are there. *)
Lemma new_block_zero bn : f_blocks f = bn -> padded (slice (Z.to_nat (BSIZE * bn)) (Z.to_nat BSIZE) (f_data f)) = zero_block.
Proof.
  intros <-. pose proof (li_ok _ _ _ _ L k f d Hf Hd) as [_ _ _ [? ?] _ _ _ _].
  rewrite slice_beyond; [done|]. fsz. lia.
Qed.

Lemma step_direct :
  f_blocks f < NDIRECT ->
  linv (<[k := mkF (f_type f) (f_data f) (f_blocks f + 1) (f_ind f)]> fs)
       (<[k := set_addr (Z.to_nat (f_blocks f)) fb d]> dn) im (fb + 1).
Proof.
  intros Hm. destruct fb_pos as [Hu Hpos]. pose proof (new_block_zero _ eq_refl) as Hnb. pose proof L as [L1 L2 L3 L4 L5 L6 L7].
  pose proof (L5 k f d Hf Hd) as [F1 F2 F3 [F4 F4'] F5 F5' F6 F7]. set (m := f_blocks f) in *.
  assert (ind (ino_of 0 (set_addr (Z.to_nat m) fb d)) = ind (ino_of 0 d)) as Hind.
  { rewrite ind_set_addr by (fsz; lia). case_decide as D; [|done]. fsz. lia. }
  assert (forall bn, 0 <= bn -> faddr im (ino_of 0 (set_addr (Z.to_nat m) fb d)) bn = if decide (bn = m) then fb else faddr im (ino_of 0 d) bn) as Ha.
  { intros bn Hbn. unfold faddr. rewrite Hind. destruct (Z.ltb_spec bn NDIRECT); [|by rewrite decide_False by lia].
    cbn [ino_of i_addrs set_addr di_addrs]. rewrite nth_insert by (fsz; lia). repeat case_decide; try done; lia. }
  apply (linv_new fs dn im fb k _ d _ im (Data m)); try done; [apply k_lt|..].
  - intros [bn|] Hsl; cbn [addr]; [|by rewrite decide_False by done]. cbn in Hsl. rewrite Ha by lia. repeat case_decide; try done; congruence.
  - intros b Hb. apply L4. lia.
  - split; cbn [f_type f_data f_blocks f_ind]; try done.
    + cbn. by rewrite length_insert.
    + by apply set_addr_uint.
    + fsz. lia.
    + by rewrite Hind.
    + intros. lia.
    + intros bn Hbn. rewrite Ha by lia. case_decide; [lia|]. rewrite F6 by lia. lia.
    + intros bn Hbn. rewrite Ha by lia. case_decide; [|apply F7; lia]. subst bn. rewrite Hnb. apply L4. lia.
Qed.

Lemma step_ind :
  f_blocks f <= NDIRECT -> f_ind f = false ->
  linv (<[k := mkF (f_type f) (f_data f) (f_blocks f) true]> fs) (<[k := set_addr NDIR fb d]> dn) im (fb + 1).
Proof.
  intros Hm Hi. destruct fb_pos as [Hu Hpos]. pose proof L as [L1 L2 L3 L4 L5 L6 L7].
  pose proof (L5 k f d Hf Hd) as [F1 F2 F3 [F4 F4'] F5 F5' F6 F7]. set (m := f_blocks f) in *.
  assert (ind (ino_of 0 d) = 0) as Hz by (destruct (Z.eq_dec (ind (ino_of 0 d)) 0); [done|]; rewrite F5 in *; congruence).
  assert (ind (ino_of 0 (set_addr NDIR fb d)) = fb) as Hind by (rewrite ind_set_addr by (rewrite F2; fsz; lia); by case_decide).
  assert (forall bn, 0 <= bn < MAXFILE -> faddr im (ino_of 0 (set_addr NDIR fb d)) bn = faddr im (ino_of 0 d) bn) as Ha.
  { intros bn Hbn. unfold faddr. rewrite Hind, Hz. destruct (Z.ltb_spec bn NDIRECT) as [Hlt|Hge].
    - cbn [ino_of i_addrs set_addr di_addrs]. rewrite nth_insert by (rewrite F2; fsz; lia). rewrite decide_False; [done|]. fsz. lia.
    - replace (fb =? 0) with false by lia. cbn [Z.eqb]. rewrite L4 by lia. apply get32_zero. fsz. lia. }
  apply (linv_new fs dn im fb k _ d _ im Ind); try done; [apply k_lt|..].
  - intros [bn|] Hsl; cbn [addr]; [|by rewrite decide_True]. rewrite decide_False by done. by apply Ha.
  - intros b Hb. apply L4. lia.
  - split; cbn [f_type f_data f_blocks f_ind]; try done.
    + cbn. by rewrite length_insert.
    + by apply set_addr_uint.
    + by rewrite Hind.
    + intros bn Hbn. rewrite Ha by done. by apply F6.
    + intros bn Hbn. rewrite Ha by lia. by apply F7.
Qed.

Definition im_set (a : Z) (x : list Z) (b : Z) : list Z := if b =? a then x else im b.

Lemma step_entry :
  NDIRECT <= f_blocks f < MAXFILE -> f_ind f = true ->
  linv (<[k := mkF (f_type f) (f_data f) (f_blocks f + 1) true]> fs) (<[k := d]> dn)
    (im_set (ind (ino_of 0 d)) (put32 (im (ind (ino_of 0 d))) (4 * Z.to_nat (f_blocks f - NDIRECT)) fb)) (fb + 1).
Proof.
  intros Hm Hi. destruct fb_pos as [Hu Hpos]. pose proof (new_block_zero _ eq_refl) as Hnb. pose proof L as [L1 L2 L3 L4 L5 L6 L7].
  pose proof (L5 k f d Hf Hd) as [F1 F2 F3 [F4 F4'] F5 F5' F6 F7]. set (m := f_blocks f) in *. set (a := ind (ino_of 0 d)) in *.
  assert (a <> 0) as Hne by (by apply F5). pose proof (L6 k d Ind Hd Logic.I Hne) as Hra. cbn [addr] in Hra. fold a in Hra.
  set (im' := im_set a _). assert (length (im a) = Z.to_nat BSIZE) as Hla by (apply L3; rewrite nmeta_val in *; lia).
  assert (forall o, (4 * Z.to_nat o + 4 <= Z.to_nat BSIZE)%nat <-> o < NINDIRECT) as Hroom by (intros o; fsz; lia).
  assert (forall b, b <> a -> im' b = im b) as Hs by (intros b Hb; unfold im', im_set; by replace (b =? a) with false by lia).
  assert (forall b, 0 <= b < FSSIZE -> length (im' b) = Z.to_nat BSIZE) as Hlen.
  { intros b Hb. unfold im', im_set. destruct (b =? a); [|by apply L3]. rewrite length_put32; [done|]. rewrite Hla. apply Hroom. fsz. lia. }
  assert (forall bn, 0 <= bn < MAXFILE -> faddr im' (ino_of 0 d) bn = if decide (bn = m) then fb else faddr im (ino_of 0 d) bn) as Ha.
  { intros bn Hbn. unfold faddr. fold a. destruct (Z.ltb_spec bn NDIRECT); [rewrite decide_False by lia; done|].
    replace (a =? 0) with false by lia. unfold im' at 1, im_set. rewrite Z.eqb_refl. case_decide as D.
    - rewrite <- D, get32_put32_eq; [by apply u32_small|]. rewrite Hla. apply Hroom. fsz. lia.
    - apply get32_put32_ne; [rewrite Hla; apply Hroom; fsz; lia|lia]. }
  apply (linv_new fs dn im fb k _ d _ im' (Data m)); try done; [apply k_lt|..].
  - intros [bn|] Hsl; cbn [addr]; [|by rewrite decide_False by done]. cbn in Hsl. rewrite Ha by lia. repeat case_decide; try done; congruence.
  - intros b Hb Hno. apply Hs. intros ->. apply Hno. by exists Ind.
  - intros b Hb. rewrite Hs by lia. apply L4. lia.
  - split; cbn [f_type f_data f_blocks f_ind]; try done.
    + fsz. lia.
    + intros bn Hbn. rewrite Ha by lia. case_decide; [lia|]. rewrite F6 by lia. lia.
    + intros bn Hbn. rewrite Ha by lia. case_decide.
      * subst bn. rewrite Hnb, Hs by lia. apply L4. lia.
      * assert (faddr im (ino_of 0 d) bn <> 0) as Hb0 by (apply F6; lia). rewrite Hs; [apply F7; lia|]. intros E.
        destruct (L7 k k d d (Data bn) Ind Hd Hd) as [_ ?]; try done. cbn. lia.
Qed.
End steps.

(** ** Appending bytes *)

Lemma take_drop_app (c q : list Z) a n : (a <= length c)%nat -> take n (drop a (c ++ q)) = take n (drop a c ++ q).
Proof. intros. by rewrite drop_app_le. Qed.

Lemma splice_padded (u q : list Z) :
  (length u + length q <= Z.to_nat BSIZE)%nat -> splice (length u) q (padded u) = padded (u ++ q).
Proof.
  intros Hl. unfold splice, padded. rewrite take_app_length, length_app, <- app_assoc, drop_app_ge by lia.
  rewrite drop_replicate. do 3 f_equal. lia.
Qed.

Section append.
Context (fs : list gfile) (dn : list dinode) (im : Z -> list Z) (fb : Z) (k : nat) (f : gfile) (d : dinode).
Hypothesis L : linv fs dn im fb.
Hypothesis Hf : fs !! k = Some f.
Hypothesis Hd : dn !! k = Some d.

#[local] Set Default Proof Using "Type*".

Lemma step_write bn q :
  let x := faddr im (ino_of 0 d) bn in let n := Z.of_nat (length (f_data f)) in
  0 <= bn < f_blocks f -> BSIZE * bn <= n -> n + Z.of_nat (length q) <= BSIZE * (bn + 1) ->
  linv (<[k := mkF (f_type f) (f_data f ++ q) (f_blocks f) (f_ind f)]> fs) (<[k := d]> dn)
    (im_set im x (splice (Z.to_nat (n - bn * BSIZE)) q (im x))) fb.
Proof.
  intros x n Hbn Hlo Hhi. pose proof L as [L1 L2 L3 L4 L5 L6 L7]. pose proof (L5 k f d Hf Hd) as [F1 F2 F3 [F4 F4'] F5 F5' F6 F7].
  assert (slot_ok (Data bn)) as Hsl by (cbn; lia). assert (x <> 0) as Hx by (apply F6; [done|lia]).
  pose proof (L6 k d (Data bn) Hd Hsl Hx) as Hr. cbn [addr] in Hr. fold x in Hr.
  set (im' := im_set im x _). set (c := f_data f) in *. set (u := drop (Z.to_nat (BSIZE * bn)) c).
  assert (length u = Z.to_nat (n - bn * BSIZE)) as Hu by (unfold u; rewrite length_drop; fsz; lia).
  assert (slice (Z.to_nat (BSIZE * bn)) (Z.to_nat BSIZE) c = u) as Hsc by (apply take_ge; fold u; fsz; lia).
  assert (slice (Z.to_nat (BSIZE * bn)) (Z.to_nat BSIZE) (c ++ q) = u ++ q) as Hscq.
  { unfold slice. rewrite take_drop_app by (fsz; lia). apply take_ge. fold u. rewrite length_app. fsz. lia. }
  assert (im' x = padded (u ++ q)) as Hnew.
  { unfold im', im_set. rewrite Z.eqb_refl. unfold x at 1. rewrite (F7 bn Hbn), Hsc, <- Hu. apply splice_padded. fsz. lia. }
  assert (forall b, b <> x -> im' b = im b) as Hs by (intros b Hb; unfold im', im_set; by replace (b =? x) with false by lia).
  assert (forall sl, addr im' d sl = addr im d sl) as Ha.
  { intros sl. apply addr_frame. intros Hne. apply Hs. intros E. by destruct (L7 k k d d Ind (Data bn) Hd Hd) as [_ ?]. }
  assert (forall bn', faddr im' (ino_of 0 d) bn' = faddr im (ino_of 0 d) bn') as Ha' by (intros bn'; apply (Ha (Data bn'))).
  apply (linv_upd fs dn im fb k _ d); try done; [by eapply lookup_lt_Some|lia|..].
  - intros b Hb Hno. apply Hs. intros ->. apply Hno. by exists (Data bn).
  - intros b Hb. rewrite Hs by lia. by apply L4.
  - intros b Hb. destruct (Z.eq_dec b x) as [->|]; [|rewrite Hs by done; by apply L3]. rewrite Hnew. unfold padded. rewrite !length_app, length_replicate. fsz. lia.
  - split; cbn [f_type f_data f_blocks f_ind]; try done.
    + rewrite length_app. split; [done|]. fsz. lia.
    + intros bn' Hbn'. rewrite Ha'. by apply F6.
    + intros bn' Hbn'. rewrite Ha'. destruct (Z.eq_dec bn' bn) as [->|Hne].
      * fold x. by rewrite Hnew, Hscq.
      * rewrite Hs; [|intros E; destruct (L7 k k d d (Data bn') (Data bn) Hd Hd) as [_ ?]; try done; [cbn; lia|apply F6; lia|congruence]].
        rewrite F7 by done. f_equal. destruct (Z.lt_ge_cases bn' bn).
        -- unfold slice. rewrite take_drop_app by (fsz; lia). rewrite take_app_le; [done|]. rewrite length_drop. fsz. lia.
        -- rewrite !slice_beyond; [done|rewrite ?length_app; fsz; lia..].
  - intros sl Hsl' _. left. by rewrite Ha.
  - intros sl sl' Hs1 Hs2. rewrite !Ha. intros Hne E. by apply (L7 k k d d).
Qed.
End append.

(** ** iappend *)

Definition has_ind (m : Z) : bool := NDIRECT <? m.

(** The blocks a file of [m] data blocks takes. *)
Definition cost (m : Z) : Z := m + (if has_ind m then 1 else 0).

(** Nothing but data blocks changed. *)
Definition meta_same (s t : mkst) : Prop := freeinode t = freeinode s /\ forall b, b < nmeta -> img t b = img s b.

Lemma meta_same_refl s : meta_same s s.
Proof. done. Qed.

Lemma meta_same_trans s t u : meta_same s t -> meta_same t u -> meta_same s u.
Proof. intros [H1 H2] [H3 H4]. split; [congruence|]. intros b Hb. by rewrite H4, H2. Qed.

Lemma wp_rsect x s Q : x < FSSIZE -> Q (img s x) s -> wp (rsect x) s Q.
Proof. intros Hx HQ. unfold rsect. replace (FSSIZE <=? x) with false by lia. by apply wp_gets. Qed.

Lemma wp_next_block s Q : 0 <= freeblock s < FSSIZE -> Q (freeblock s) (mkMk (img s) (freeinode s) (freeblock s + 1)) -> wp next_block s Q.
Proof. intros Hb HQ. unfold next_block. eapply wp_run; [reflexivity|]. rewrite u32_small; [done|]. unfold uint, FSSIZE in *. lia. Qed.

Lemma wp_fill_old i din s Q : uint (nth i (di_addrs din) 0) -> nth i (di_addrs din) 0 <> 0 -> Q din s -> wp (fill i din) s Q.
Proof. intros Hu Hne HQ. unfold fill. rewrite xint_small by done. replace (_ =? 0) with false by lia. by apply wp_ret. Qed.

Lemma wp_fill_new i din s Q :
  nth i (di_addrs din) 0 = 0 -> 0 <= freeblock s < FSSIZE ->
  Q (set_addr i (freeblock s) din) (mkMk (img s) (freeinode s) (freeblock s + 1)) -> wp (fill i din) s Q.
Proof.
  intros Hz Hb HQ. unfold fill. rewrite Hz. change (xint 0 =? 0) with true. cbn iota. apply wp_bind, wp_next_block; [done|].
  apply wp_ret. rewrite xint_small; [done|]. unfold uint, FSSIZE in *. lia.
Qed.

Lemma nth_uint l i : Forall uint l -> uint (nth i l 0).
Proof.
  intros Hl. rewrite nth_lookup. destruct (l !! i) eqn:E; [|done]. by apply (Forall_lookup_1 _ _ _ _ Hl E).
Qed.

Section block_of.
Context (fs : list gfile) (dn : list dinode) (s : mkst) (k : nat) (ty : Z) (c : list Z) (m : Z) (din : dinode).

Definition alloc_post (m0 m' : Z) (Q : Z * dinode -> mkst -> Prop) : Prop :=
  forall din' t, linv (<[k := mkF ty c m' (has_ind m')]> fs) (<[k := din']> dn) (img t) (freeblock t) ->
    freeblock t = freeblock s + cost m' - cost m0 -> meta_same s t ->
    Q (faddr (img t) (ino_of 0 din') (m' - 1), din') t.

Lemma addr_bounds j d sl :
  linv fs dn (img s) (freeblock s) -> dn !! j = Some d -> slot_ok sl -> addr (img s) d sl <> 0 ->
  nmeta <= addr (img s) d sl < FSSIZE /\ uint (addr (img s) d sl).
Proof.
  intros L Hd Hsl Hne. pose proof (li_range _ _ _ _ L j d sl Hd Hsl Hne). pose proof (li_fb _ _ _ _ L).
  rewrite nmeta_val in *. unfold uint, FSSIZE in *. lia.
Qed.

Lemma wp_block_direct fbn Q :
  linv fs dn (img s) (freeblock s) -> fs !! k = Some (mkF ty c m (has_ind m)) -> dn !! k = Some din ->
  0 <= fbn < NDIRECT -> m = fbn \/ m = fbn + 1 -> freeblock s + cost (fbn + 1) - cost m <= FSSIZE ->
  alloc_post m (fbn + 1) Q -> wp (block_of fbn din) s Q.
Proof.
  intros L Hf Hd Hbn Hm Hroom HQ. pose proof (li_ok _ _ _ _ L k _ _ Hf Hd) as [F1 F2 F3 [F4 F4'] F5 F5' F6 F7].
  pose proof (li_fb _ _ _ _ L) as Hfb. cbn [f_type f_data f_blocks f_ind] in *.
  assert (has_ind m = false /\ has_ind (fbn + 1) = false) as [Hi Hi'] by (unfold has_ind; lia).
  assert (faddr (img s) (ino_of 0 din) fbn = nth (Z.to_nat fbn) (di_addrs din) 0) as Ha by (unfold faddr; by replace (fbn <? NDIRECT) with true by lia).
  pose proof (F6 fbn ltac:(fsz; lia)) as Hmap. rewrite Ha in Hmap.
  unfold block_of. replace (fbn <? NDIRECT) with true by lia. apply wp_bind. unfold alloc_post, cost in *. rewrite Hi, Hi' in *.
  replace (fbn + 1 - 1) with fbn in * by lia. destruct Hm as [E|E].
  - apply wp_fill_new; [lia|rewrite nmeta_val in *; lia|]. apply wp_ret.
    pose proof (step_direct fs dn (img s) (freeblock s) k _ din L Hf Hd) as Hstep. cbn [f_type f_data f_blocks f_ind] in Hstep.
    rewrite E in Hstep. specialize (Hstep ltac:(lia) ltac:(lia)). set (din' := set_addr _ _ din) in *.
    assert (xint (nth (Z.to_nat fbn) (di_addrs din') 0) = faddr (img s) (ino_of 0 din') fbn) as ->.
    { unfold faddr. replace (fbn <? NDIRECT) with true by lia. apply xint_small, nth_uint, set_addr_uint; [|done].
      rewrite nmeta_val in *. unfold uint, FSSIZE in *. lia. }
    by apply (HQ din' (mkMk (img s) (freeinode s) (freeblock s + 1))); [|cbn; lia|].
  - apply wp_fill_old; [by apply nth_uint|lia|]. apply wp_ret. rewrite xint_small by (by apply nth_uint). rewrite <- Ha.
    apply (HQ din s); [|lia|done]. rewrite !list_insert_id by (subst m; by rewrite ?Hf). done.
Qed.
End block_of.

(** The part of block_of that reads the block of addresses. *)
Lemma wp_entry fs dn s k ty c m din fbn Q :
  let a := ind (ino_of 0 din) in let o := (4 * Z.to_nat (fbn - NDIRECT))%nat in
  linv fs dn (img s) (freeblock s) -> fs !! k = Some (mkF ty c m true) -> dn !! k = Some din ->
  NDIRECT <= fbn < MAXFILE -> m = fbn \/ m = fbn + 1 -> freeblock s + (fbn + 1 - m) <= FSSIZE ->
  (forall t, linv (<[k := mkF ty c (fbn + 1) true]> fs) (<[k := din]> dn) (img t) (freeblock t) ->
     freeblock t = freeblock s + (fbn + 1 - m) -> meta_same s t -> Q (faddr (img t) (ino_of 0 din) fbn, din) t) ->
  wp (indirect ← rsect (xint (nth NDIR (di_addrs din) 0));
      indirect ← (if get32 indirect o =? 0 then
                    b ← next_block;
                    wsect (xint (nth NDIR (di_addrs din) 0)) (put32 indirect o (xint b));;
                    mret (put32 indirect o (xint b))
                  else mret indirect);
      mret (xint (get32 indirect o), din)) s Q.
Proof.
  intros a o L Hf Hd Hbn Hm Hroom HQ. pose proof (li_ok _ _ _ _ L k _ _ Hf Hd) as [F1 F2 F3 [F4 F4'] F5 F5' F6 F7].
  pose proof (li_fb _ _ _ _ L) as Hfb. cbn [f_type f_data f_blocks f_ind] in *.
  assert (a <> 0) as Hne by (by apply F5). destruct (addr_bounds fs dn s k din Ind L Hd Logic.I Hne) as [Ha Hua]. cbn [addr] in Ha, Hua. fold a in Ha, Hua.
  rewrite xint_small by done. change (nth NDIR (di_addrs din) 0) with a.
  assert (faddr (img s) (ino_of 0 din) fbn = get32 (img s a) o) as Hfa.
  { unfold faddr. fold a. replace (fbn <? NDIRECT) with false by lia. by replace (a =? 0) with false by lia. }
  pose proof (F6 fbn ltac:(fsz; lia)) as Hmap. rewrite Hfa in Hmap.
  apply wp_bind, wp_rsect; [lia|]. apply wp_bind. destruct Hm as [E|E].
  - replace (get32 (img s a) o =? 0) with true by lia. apply wp_bind, wp_next_block; [rewrite nmeta_val in *; lia|].
    assert (uint (freeblock s)) as Hu by (rewrite nmeta_val in *; unfold uint, FSSIZE in *; lia). rewrite xint_small by done.
    apply wp_bind. unfold wsect. apply wp_modify, wp_ret, wp_ret. cbn [img freeinode freeblock].
    pose proof (step_entry fs dn (img s) (freeblock s) k _ din L Hf Hd ltac:(lia)) as Hstep. cbn [f_type f_data f_blocks f_ind] in Hstep.
    fold a in Hstep. rewrite E in Hstep. fold o in Hstep. specialize (Hstep ltac:(lia) eq_refl).
    assert (o + 4 <= length (img s a))%nat as Ho by (rewrite (li_blen _ _ _ _ L) by (rewrite nmeta_val in *; lia); unfold o; fsz; lia).
    set (t := mkMk (im_set (img s) a (put32 (img s a) o (freeblock s))) (freeinode s) (freeblock s + 1)).
    assert (xint (get32 (put32 (img s a) o (freeblock s)) o) = faddr (img t) (ino_of 0 din) fbn) as ->.
    { unfold faddr. fold a. replace (fbn <? NDIRECT) with false by lia. replace (a =? 0) with false by lia.
      unfold t, im_set. cbn [img]. rewrite Z.eqb_refl. fold o. rewrite get32_put32_eq, u32_small by done. by apply xint_small. }
    apply (HQ t); [exact Hstep|cbn; lia|]. split; [done|]. intros b Hb. unfold t, im_set. cbn [img]. by replace (b =? a) with false by lia.
  - replace (get32 (img s a) o =? 0) with false by lia. apply wp_ret, wp_ret.
    destruct (addr_bounds fs dn s k din (Data fbn) L Hd) as [_ Hu]; [cbn; fsz; lia|cbn [addr]; rewrite Hfa; lia|].
    cbn [addr] in Hu. rewrite Hfa in Hu. rewrite xint_small by done. rewrite <- Hfa.
    apply (HQ s); [|lia|done]. rewrite !list_insert_id by (subst m; by rewrite ?Hf). done.
Qed.

(** block_of gives the file the block it asks for. *)
Lemma wp_block_of fs dn s k ty c m din fbn Q :
  linv fs dn (img s) (freeblock s) -> fs !! k = Some (mkF ty c m (has_ind m)) -> dn !! k = Some din ->
  0 <= fbn < MAXFILE -> m = fbn \/ m = fbn + 1 -> freeblock s + cost (fbn + 1) - cost m <= FSSIZE ->
  alloc_post fs dn s k ty c m (fbn + 1) Q -> wp (block_of fbn din) s Q.
Proof.
  intros L Hf Hd Hbn Hm Hroom HQ. destruct (Z.lt_ge_cases fbn NDIRECT) as [Hlt|Hge]; [apply (wp_block_direct fs dn s k ty c m); try done; lia|].
  pose proof (li_ok _ _ _ _ L k _ _ Hf Hd) as [F1 F2 F3 [F4 F4'] F5 F5' F6 F7]. pose proof (li_fb _ _ _ _ L) as Hfb.
  cbn [f_type f_data f_blocks f_ind] in *. unfold block_of. replace (fbn <? NDIRECT) with false by lia. apply wp_bind.
  assert (has_ind (fbn + 1) = true) as Hi' by (unfold has_ind; lia). unfold alloc_post, cost in *. rewrite Hi' in *.
  replace (fbn + 1 - 1) with fbn in * by lia. destruct (has_ind m) eqn:Hi.
  - apply wp_fill_old; [by apply nth_uint|by apply F5|]. apply (wp_entry fs dn s k ty c m din fbn); try done; [lia|lia|].
    intros t Ht Hfbt Hmt. apply HQ; [done|lia|done].
  - assert (ind (ino_of 0 din) = 0) as Hz by (destruct (Z.eq_dec (ind (ino_of 0 din)) 0) as [|Hne]; [done|by apply F5 in Hne]).
    unfold has_ind in Hi. apply wp_fill_new; [done|rewrite nmeta_val in *; lia|].
    pose proof (step_ind fs dn (img s) (freeblock s) k _ din L Hf Hd ltac:(lia)) as Hstep. cbn [f_type f_data f_blocks f_ind] in Hstep.
    specialize (Hstep ltac:(lia) eq_refl). set (din' := set_addr _ _ din) in *.
    pose proof (lookup_lt_Some _ _ _ Hf). pose proof (lookup_lt_Some _ _ _ Hd).
    eapply (wp_entry _ _ (mkMk (img s) (freeinode s) (freeblock s + 1)) k ty c m din' fbn); try done;
      [by apply list_lookup_insert_eq|by apply list_lookup_insert_eq|lia|cbn [freeblock]; lia|].
    intros t Ht Hfbt Hmt. rewrite !list_insert_insert_eq in Ht. apply HQ; [done|cbn in *; lia|done].
Qed.

(** Files of the image by type and bytes, with the blocks their length needs. *)
Definition nblk (n : nat) : Z := (Z.of_nat n + 511) / 512.
Definition gf (x : Z * list Z) : gfile := mkF (fst x) (snd x) (nblk (length (snd x))) (has_ind (nblk (length (snd x)))).
Definition fcost (c : list Z) : Z := cost (nblk (length c)).

Lemma nblk_spec n : 512 * (nblk n - 1) < Z.of_nat n <= 512 * nblk n.
Proof. unfold nblk. pose proof (Z.div_mod (Z.of_nat n + 511) 512). pose proof (Z.mod_pos_bound (Z.of_nat n + 511) 512). lia. Qed.

Lemma cost_mono m m' : m <= m' -> cost m <= cost m'.
Proof. intros. unfold cost, has_ind. destruct (Z.ltb_spec NDIRECT m), (Z.ltb_spec NDIRECT m'); lia. Qed.

Lemma fcost_app c p : fcost c <= fcost (c ++ p).
Proof. apply cost_mono. unfold nblk. rewrite length_app. apply Z.div_le_mono; lia. Qed.

Lemma fcost_nonneg c : 0 <= fcost c.
Proof. unfold fcost, cost, nblk. pose proof (Z.div_pos (Z.of_nat (length c) + 511) 512). destruct (has_ind _); lia. Qed.

(** The first pass of the loop: the bytes up to the next block boundary, which leave the file with [fbn + 1] blocks. *)
Lemma chunk_bounds (c p : list Z) (fbn : Z) (n1 : nat) :
  0 < Z.of_nat (length p) -> Z.of_nat (length c + length p) <= MAXFILE * BSIZE -> fbn = Z.of_nat (length c) / BSIZE ->
  n1 = Z.to_nat (Z.min (Z.of_nat (length p)) ((fbn + 1) * BSIZE - Z.of_nat (length c))) ->
  0 <= fbn < MAXFILE /\ BSIZE * fbn <= Z.of_nat (length c) /\ (0 < n1 <= length p)%nat /\
  Z.of_nat (length c) + Z.of_nat n1 <= BSIZE * (fbn + 1) /\ (nblk (length c) = fbn \/ nblk (length c) = fbn + 1) /\
  length (take n1 p) = n1 /\ nblk (length (c ++ take n1 p)) = fbn + 1.
Proof.
  intros Hp Hmax Hfbn Hn1. set (n := Z.of_nat (length c)) in *.
  assert (BSIZE * fbn <= n < BSIZE * (fbn + 1)) as Hn.
  { subst fbn. pose proof (Z.div_mod n BSIZE ltac:(done)). pose proof (Z.mod_pos_bound n BSIZE ltac:(done)). lia. }
  assert (0 < n1 <= length p)%nat as Hb by lia. assert (n + Z.of_nat n1 <= BSIZE * (fbn + 1)) as Hb' by lia.
  assert (length (take n1 p) = n1) as Htk by (rewrite length_take; lia).
  pose proof (nblk_spec (length c)). pose proof (nblk_spec (length (c ++ take n1 p))) as Hns. rewrite length_app, Htk in *.
  clear Hn1 Hfbn. repeat split; try (fsz; lia).
Qed.

Lemma wp_iappend_loop fuel p : forall fs dn s k ty c din Q,
  linv fs dn (img s) (freeblock s) -> fs !! k = Some (gf (ty, c)) -> dn !! k = Some din ->
  (length p <= fuel)%nat -> Z.of_nat (length (c ++ p)) <= MAXFILE * BSIZE ->
  freeblock s + fcost (c ++ p) - fcost c <= FSSIZE ->
  (forall din' t, linv (<[k := gf (ty, c ++ p)]> fs) (<[k := din']> dn) (img t) (freeblock t) ->
     freeblock t = freeblock s + fcost (c ++ p) - fcost c -> meta_same s t -> Q (din', Z.of_nat (length (c ++ p))) t) ->
  wp (iappend_loop fuel din (Z.of_nat (length c)) p) s Q.
Proof.
  revert p. induction fuel as [|fuel IH]; intros p fs dn s k ty c din Q L Hf Hd Hfuel Hmax Hroom HQ.
  { destruct p; [|cbn in Hfuel; lia]. rewrite app_nil_r in *. apply wp_ret, HQ; [by rewrite !list_insert_id|lia|done]. }
  cbn [iappend_loop]. destruct (Z.ltb_spec 0 (Z.of_nat (length p))) as [Hp|Hp]; cycle 1.
  { destruct p; [|cbn in Hp; lia]. rewrite app_nil_r in *. apply wp_ret, HQ; [by rewrite !list_insert_id|lia|done]. }
  rewrite length_app in Hmax. set (n := Z.of_nat (length c)) in *. set (fbn := n / BSIZE). set (n1 := Z.to_nat _).
  destruct (chunk_bounds c p fbn n1) as (Hbn & Hn & Hn1 & Hn1' & Hm & Htk & Hm'); try done. replace (MAXFILE <=? fbn) with false by lia.
  assert ((c ++ take n1 p) ++ drop n1 p = c ++ p) as Heq by (by rewrite <- app_assoc, take_drop).
  pose proof (fcost_app (c ++ take n1 p) (drop n1 p)) as Hc1. rewrite Heq in Hc1.
  apply wp_bind. apply (wp_block_of fs dn s k ty c (nblk (length c)) din fbn); try done.
  { unfold fcost in *. rewrite Hm' in Hc1. lia. }
  intros din1 t1 L1 Hfb1 Hms1. pose proof (lookup_lt_Some _ _ _ Hf) as Hk. pose proof (lookup_lt_Some _ _ _ Hd) as Hk'.
  replace (fbn + 1 - 1) with fbn by lia. cbn [fst snd]. set (x := faddr (img t1) (ino_of 0 din1) fbn).
  assert (x <> 0) as Hx by (apply (fk_map _ _ _ (li_ok _ _ _ _ L1 k _ _ (list_lookup_insert_eq _ _ _ Hk) (list_lookup_insert_eq _ _ _ Hk'))); [done|cbn; lia]).
  destruct (addr_bounds _ _ t1 k din1 (Data fbn) L1 (list_lookup_insert_eq _ _ _ Hk') Hbn Hx) as [Hrx _]. cbn [addr] in Hrx. fold x in Hrx.
  apply wp_bind, wp_rsect; [lia|]. apply wp_bind, wp_modify.
  pose proof (step_write _ _ (img t1) (freeblock t1) k _ din1 L1 (list_lookup_insert_eq _ _ _ Hk) (list_lookup_insert_eq _ _ _ Hk') fbn (take n1 p)) as Hstep.
  cbn [f_type f_data f_blocks f_ind] in Hstep. fold x n in Hstep. rewrite !list_insert_insert_eq, Htk in Hstep.
  specialize (Hstep ltac:(lia) ltac:(lia) ltac:(lia)).
  replace (u32 (n + Z.of_nat n1)) with (Z.of_nat (length (c ++ take n1 p))); cycle 1.
  { rewrite length_app, Htk, u32_small; [lia|]. fsz. unfold uint. lia. }
  eapply (IH (drop n1 p) _ _ _ k ty (c ++ take n1 p)).
  - cbn [img freeblock]. exact Hstep.
  - rewrite list_lookup_insert_eq by done. unfold gf. cbn [fst snd]. by rewrite Hm'.
  - by apply list_lookup_insert_eq.
  - rewrite length_drop. lia.
  - rewrite Heq, length_app. lia.
  - rewrite Heq. cbn [freeblock]. rewrite Hfb1. unfold fcost in *. rewrite Hm' in *. lia.
  - intros din' t Lt Hfbt Hmst. rewrite Heq, !list_insert_insert_eq in *. apply HQ; [done| |].
    + rewrite Hfbt. cbn [freeblock]. rewrite Hfb1. unfold fcost in *. rewrite Hm' in *. lia.
    + eapply meta_same_trans; [exact Hms1|]. eapply meta_same_trans; [|exact Hmst]. split; [done|]. intros b Hb. cbn [img].
      by replace (b =? x) with false by lia.
Qed.

(** ** The inodes on the image *)

Definition inode_at (im : Z -> list Z) (inum : Z) : dinode := di_decode (im (IBLOCK inum sb)) (di_off inum).

Lemma iblock_val inum : 0 <= inum < NINODES -> IBLOCK inum sb = inum / 8 + 32 /\ 0 <= inum / 8 < 25.
Proof.
  intros Hi. unfold NINODES in *. assert (0 <= inum / 8 < 25) by (pose proof (Z.div_mod inum 8); pose proof (Z.mod_pos_bound inum 8); lia).
  split; [|done]. unfold IBLOCK. change (sb_inodestart sb) with 32. change IPB with 8. apply u32_small. unfold uint. lia.
Qed.

Lemma linv_meta fs dn im im' fb :
  linv fs dn im fb -> (forall b, nmeta <= b -> im' b = im b) -> (forall b, 0 <= b < FSSIZE -> length (im' b) = Z.to_nat BSIZE) -> linv fs dn im' fb.
Proof.
  intros [L1 L2 L3 L4 L5 L6 L7] Hs Hlen.
  assert (forall j d sl, dn !! j = Some d -> addr im' d sl = addr im d sl) as Ha.
  { intros j d sl Hd. apply addr_frame. intros Hne. apply Hs. by apply (L6 j d Ind). }
  split; try done.
  - intros b Hb. rewrite Hs by lia. by apply L4.
  - intros j f d Hf Hd. apply (fok_frame im); [|by apply (L5 j)]. intros b (sl & Hsl & Hne & <-). apply Hs. by apply (L6 j d).
  - intros j d sl Hd. rewrite (Ha j) by done. by apply (L6 j).
  - intros j j' d d' sl sl' Hd Hd' Hsl Hsl'. rewrite (Ha j d), (Ha j' d') by done. by apply L7.
Qed.

(** What writing one inode changes. *)
Record wrote_inode (inum : Z) (ip : dinode) (s t : mkst) : Prop := {
  wr_free : freeinode t = freeinode s /\ freeblock t = freeblock s;
  wr_at : inode_at (img t) inum = ip;
  wr_other j : 0 <= j < NINODES -> j <> inum -> inode_at (img t) j = inode_at (img s) j;
  wr_block b : b < 32 \/ 57 <= b -> img t b = img s b;
  wr_len b : 0 <= b < FSSIZE -> length (img t b) = Z.to_nat BSIZE }.

Lemma wp_winode inum ip s Q :
  0 <= inum < NINODES -> dinode_ok ip -> (forall b, 0 <= b < FSSIZE -> length (img s b) = Z.to_nat BSIZE) ->
  (forall t, wrote_inode inum ip s t -> Q tt t) -> wp (winode inum ip) s Q.
Proof.
  intros Hi Hok Hlen HQ. destruct (iblock_val inum Hi) as [Hb Hb']. unfold winode. apply wp_bind, wp_rsect; [rewrite Hb; unfold FSSIZE; lia|].
  apply wp_modify, HQ. pose proof (length_di_encode ip Hok) as Hle. pose proof (Z.mod_pos_bound inum 8 ltac:(lia)) as Hm.
  assert (di_off inum + dinode_size <= length (img s (IBLOCK inum sb)))%nat as Hoff.
  { rewrite Hlen by (rewrite Hb; unfold FSSIZE; lia). unfold di_off, dinode_size. change IPB with 8. fsz. lia. }
  split; cbn [img freeinode freeblock]; [done|..].
  - unfold inode_at. rewrite Z.eqb_refl. by apply di_decode_splice.
  - intros j Hj Hne. unfold inode_at. destruct (iblock_val j Hj) as [Hbj _]. destruct (Z.eqb_spec (IBLOCK j sb) (IBLOCK inum sb)) as [E|]; [|done].
    rewrite E. apply di_decode_other; rewrite Hle; [done|]. rewrite Hbj, Hb in E. unfold di_off, dinode_size in *. change IPB with 8 in *.
    pose proof (Z.mod_pos_bound j 8 ltac:(lia)). pose proof (Z.div_mod j 8 ltac:(lia)). pose proof (Z.div_mod inum 8 ltac:(lia)).
    destruct (decide (j mod 8 < inum mod 8)); lia.
  - intros b Hbb. by replace (b =? IBLOCK inum sb) with false by lia.
  - intros b Hbb. destruct (b =? IBLOCK inum sb); [|by apply Hlen]. rewrite length_splice by (by rewrite Hle). apply Hlen. rewrite Hb. unfold FSSIZE. lia.
Qed.

Record minv (fs : list (Z * list Z)) (dn : list dinode) (s : mkst) : Prop := {
  mi_linv : linv (gf <$> fs) dn (img s) (freeblock s);
  mi_type : Forall (fun x => i16 (fst x)) fs;
  mi_disk k d : dn !! k = Some d -> inode_at (img s) (Z.of_nat (S k)) = d;
  mi_size k x d : fs !! k = Some x -> dn !! k = Some d -> di_size d = Z.of_nat (length (snd x));
  mi_inum : freeinode s = Z.of_nat (S (length fs)) /\ Z.of_nat (S (length fs)) <= NINODES }.

Lemma fok_size im f d n : fok im f d -> fok im f (set_dsize n d).
Proof. intros []. by split. Qed.

Lemma linv_size fs dn im fb k f d n :
  linv fs dn im fb -> fs !! k = Some f -> dn !! k = Some d -> linv fs (<[k := set_dsize n d]> dn) im fb.
Proof.
  intros L Hf Hd. rewrite <- (list_insert_id fs k f Hf). pose proof (li_fb _ _ _ _ L).
  apply (linv_upd fs dn im fb k f d (set_dsize n d)); try done; [by eapply lookup_lt_Some|lia|apply (li_zero _ _ _ _ L)|apply (li_blen _ _ _ _ L)|..].
  - by apply fok_size, (li_ok _ _ _ _ L k f d Hf Hd).
  - intros sl Hsl Hne. by left.
  - intros sl sl' Hs Hs' Hne E. by apply (li_inj _ _ _ _ L k k d d).
Qed.

Lemma fok_dinode_ok im f d : fok im f d -> i16 (f_type f) -> uint (di_size d) -> dinode_ok d.
Proof. intros [(F1 & F1a & F1b & F1c) F2 F3 _ _ _ _ _] Ht Hs. unfold dinode_ok. rewrite F1, F1a, F1b, F1c. by unfold i16 in *. Qed.

(** A file of the image as a whole: its bytes, after its inode is written. *)
Lemma minv_write fs dn s t k ty c d :
  linv (<[k := gf (ty, c)]> (gf <$> fs)) (<[k := d]> dn) (img s) (freeblock s) ->
  Forall (fun x => i16 (fst x)) fs -> i16 ty -> (k < length fs)%nat -> length dn = length fs ->
  (forall j e, j <> k -> dn !! j = Some e -> inode_at (img s) (Z.of_nat (S j)) = e) ->
  (forall j x e, fs !! j = Some x -> dn !! j = Some e -> j <> k -> di_size e = Z.of_nat (length (snd x))) ->
  freeinode s = Z.of_nat (S (length fs)) -> Z.of_nat (S (length fs)) <= NINODES ->
  wrote_inode (Z.of_nat (S k)) (set_dsize (Z.of_nat (length c)) d) s t ->
  minv (<[k := (ty, c)]> fs) (<[k := set_dsize (Z.of_nat (length c)) d]> dn) t.
Proof.
  intros L Hty Ht Hk Hdn Hdisk Hsize Hfi Hni [[W1 W1'] W2 W3 W4 W5]. assert (k < length dn)%nat as Hk' by lia.
  assert (k < length (gf <$> fs))%nat as Hkg by (by rewrite length_fmap).
  split.
  - rewrite list_fmap_insert, W1'. apply (linv_meta _ _ (img s)); [|intros b Hb; apply W4; rewrite nmeta_val in *; lia|done].
    rewrite <- (list_insert_insert_eq dn k (set_dsize _ d) d). eapply linv_size; [done|by apply list_lookup_insert_eq..].
  - by apply Forall_insert.
  - intros j e He. destruct (decide (j = k)) as [->|Hne].
    + rewrite list_lookup_insert_eq in He by done. by injection He as <-.
    + rewrite list_lookup_insert_ne in He by done. rewrite W3; [by apply Hdisk| |lia]. apply lookup_lt_Some in He. lia.
  - intros j x e Hx He. destruct (decide (j = k)) as [->|Hne].
    + rewrite list_lookup_insert_eq in Hx by done. rewrite list_lookup_insert_eq in He by done. injection Hx as <-. by injection He as <-.
    + rewrite list_lookup_insert_ne in Hx by done. rewrite list_lookup_insert_ne in He by done. by apply (Hsize j).
  - rewrite length_insert, W1. done.
Qed.

(** iappend puts the bytes at the end of the file and leaves the others. *)
Lemma wp_iappend fs dn s k ty c p Q :
  minv fs dn s -> fs !! k = Some (ty, c) -> Z.of_nat (length (c ++ p)) <= MAXFILE * BSIZE ->
  freeblock s + fcost (c ++ p) - fcost c <= FSSIZE ->
  (forall dn' t, minv (<[k := (ty, c ++ p)]> fs) dn' t -> freeblock t = freeblock s + fcost (c ++ p) - fcost c ->
     (forall b, b < 32 -> img t b = img s b) -> Q tt t) ->
  wp (iappend (Z.of_nat (S k)) p) s Q.
Proof.
  intros [I1 I2 I3 I4 [I5 I6]] Hf Hmax Hroom HQ. pose proof (lookup_lt_Some _ _ _ Hf) as Hk.
  assert ((gf <$> fs) !! k = Some (gf (ty, c))) as Hg by (by rewrite list_lookup_fmap, Hf).
  pose proof (li_len _ _ _ _ I1) as Hdn. rewrite length_fmap in Hdn.
  destruct (lookup_lt_is_Some_2 dn k ltac:(lia)) as [d Hd]. destruct (iblock_val (Z.of_nat (S k)) ltac:(unfold NINODES in *; lia)) as [Hib Hib'].
  unfold iappend, rinode. apply wp_bind, wp_bind, wp_rsect; [rewrite Hib; unfold FSSIZE; lia|]. apply wp_ret. fold (inode_at (img s) (Z.of_nat (S k))).
  rewrite (I3 k d Hd), (I4 k _ d Hf Hd). cbn [snd]. rewrite length_app in Hmax.
  assert (forall n, 0 <= n <= MAXFILE * BSIZE -> uint n) as Hsmall by (intros n Hn; fsz; unfold uint; lia).
  rewrite xint_small by (apply Hsmall; lia). apply wp_bind. apply (wp_iappend_loop _ p (gf <$> fs) dn s k ty c d); try done; [rewrite length_app; lia|].
  intros d' t L Hfb [Hfi Hms]. cbn [fst snd]. rewrite xint_small by (apply Hsmall; rewrite length_app; lia).
  assert (i16 ty) as Hty by (by apply (Forall_lookup_1 _ _ _ _ I2 Hf)).
  assert (Z.of_nat (S k) < NINODES) as Hki by lia.
  apply wp_winode; [lia| |apply (li_blen _ _ _ _ L)|].
  - apply (fok_dinode_ok (img t) (gf (ty, c ++ p))); [|exact Hty|cbn; apply Hsmall; rewrite length_app; lia].
    apply fok_size, (li_ok _ _ _ _ L k); apply list_lookup_insert_eq; rewrite ?length_fmap; lia.
  - intros u W. eapply (HQ _ u).
    + eapply minv_write; [exact L|done|done|done|done| | | |done|exact W].
      * intros j e Hj He. rewrite <- (I3 j e He). apply lookup_lt_Some in He. unfold inode_at. rewrite Hms; [done|].
        destruct (iblock_val (Z.of_nat (S j)) ltac:(unfold NINODES in *; lia)) as [-> ?]. rewrite nmeta_val. lia.
      * intros j x e Hx He _. by apply (I4 j).
      * by rewrite Hfi.
    + by rewrite (proj2 (wr_free _ _ _ _ W)), Hfb.
    + intros b Hb. rewrite (wr_block _ _ _ _ W) by lia. apply Hms. rewrite nmeta_val. lia.
Qed.

(** ** New files *)

Lemma new_dinode_addr im ty n sl : slot_ok sl -> addr im (mkDinode ty 0 0 1 n (replicate 13 0)) sl = 0.
Proof.
  assert (forall i, nth i (replicate 13 0) 0 = 0) as Hz.
  { intros i. rewrite nth_lookup. destruct (replicate 13 0 !! i) eqn:E; [|done]. by apply lookup_replicate in E as [-> _]. }
  destruct sl as [bn|]; intros _; [|apply Hz]. cbn [addr]. unfold faddr, ind. cbn [ino_of i_addrs di_addrs]. rewrite !Hz. by destruct (bn <? NDIRECT).
Qed.

Lemma lookup_snoc_case {A} (l : list A) x j y : (l ++ [x]) !! j = Some y -> l !! j = Some y \/ j = length l /\ y = x.
Proof.
  intros H. apply lookup_app_Some in H as [H|[Hj H]]; [by left|right]. apply list_lookup_singleton_Some in H as [? ->]. split; [lia|done].
Qed.

Lemma linv_snoc fs dn im fb ty :
  linv fs dn im fb -> linv (fs ++ [gf (ty, [])]) (dn ++ [mkDinode ty 0 0 1 0 (replicate 13 0)]) im fb.
Proof.
  intros [L1 L2 L3 L4 L5 L6 L7]. set (d0 := mkDinode ty 0 0 1 0 (replicate 13 0)).
  assert (forall sl, slot_ok sl -> addr im d0 sl = 0) as Hz by (intros; by apply new_dinode_addr).
  split; try done.
  - rewrite !length_app. cbn. lia.
  - intros j f d Hf Hd. apply lookup_snoc_case in Hf as [Hf|[-> ->]], Hd as [Hd|[Hj ->]].
    + by apply (L5 j).
    + apply lookup_lt_Some in Hf. lia.
    + apply lookup_lt_Some in Hd. lia.
    + split; cbn [gf f_type f_data f_blocks f_ind fst snd]; try done.
      * apply Forall_replicate. done.
      * intros bn Hbn. rewrite (Hz (Data bn) Hbn : faddr im (ino_of 0 d0) bn = 0). change (nblk (length [])) with 0. lia.
      * intros bn Hbn. change (nblk (length [])) with 0 in Hbn. lia.
  - intros j d sl Hd Hsl Hne. apply lookup_snoc_case in Hd as [Hd|[_ ->]]; [by apply (L6 j)|by rewrite Hz in Hne].
  - intros j j' d d' sl sl' Hd Hd' Hsl Hsl' Hne E.
    apply lookup_snoc_case in Hd as [Hd|[_ ->]], Hd' as [Hd'|[_ ->]]; try (by rewrite Hz in Hne).
    + by apply (L7 j j' d d').
    + by rewrite E, Hz in Hne.
Qed.

Lemma wp_ialloc fs dn s ty Q :
  minv fs dn s -> i16 ty -> s16 (xshort ty) = ty -> Z.of_nat (S (S (length fs))) <= NINODES ->
  (forall dn' t, minv (fs ++ [(ty, [])]) dn' t -> freeblock t = freeblock s -> (forall b, b < 32 -> img t b = img s b) ->
     Q (Z.of_nat (S (length fs))) t) ->
  wp (ialloc ty) s Q.
Proof.
  intros [I1 I2 I3 I4 [I5 I6]] Hty Hs16 Hroom HQ. pose proof (li_len _ _ _ _ I1) as Hdn. rewrite length_fmap in Hdn.
  unfold ialloc. apply wp_bind. eapply wp_run; [reflexivity|]. rewrite I5, Hs16. change (s16 (xshort 1)) with 1. change (xint 0) with 0.
  set (d0 := mkDinode ty 0 0 1 0 (replicate 13 0)).
  apply wp_bind, wp_winode; [lia| |apply (li_blen _ _ _ _ I1)|].
  { split; [done|]. do 3 (split; [done|]). split; [done|]. split; [done|]. apply Forall_replicate. done. }
  intros t [[W1 W1'] W2 W3 W4 W5]. apply wp_ret. apply (HQ (dn ++ [d0]) t); [|done|intros b Hb; apply W4; lia]. split.
  - rewrite fmap_app, W1'. apply (linv_meta _ _ (img s)); [|intros b Hb; apply W4; rewrite nmeta_val in *; lia|done]. by apply linv_snoc.
  - apply Forall_app. split; [done|]. by apply Forall_singleton.
  - intros j d Hd. apply lookup_snoc_case in Hd as [Hd|[-> ->]].
    + rewrite W3; [by apply I3| |]; apply lookup_lt_Some in Hd; unfold NINODES in *; lia.
    + by rewrite Hdn.
  - intros j x d Hx Hd. apply lookup_snoc_case in Hx as [Hx|[-> ->]], Hd as [Hd|[Hj ->]]; try done.
    + by apply (I4 j).
    + apply lookup_lt_Some in Hx. lia.
    + apply lookup_lt_Some in Hd. lia.
  - rewrite length_app, W1. cbn [length freeinode]. rewrite u32_small; [lia|]. unfold uint, NINODES in *. lia.
Qed.

(** ** What the image holds, and how much of it there is *)

Definition total (fs : list (Z * list Z)) : Z := foldr (fun x n => fcost (snd x) + n) 0 fs.

Definition fits (fs : list (Z * list Z)) : Prop :=
  Z.of_nat (S (length fs)) <= NINODES /\ Forall (fun x => Z.of_nat (length (snd x)) <= MAXFILE * BSIZE) fs /\ nmeta + total fs <= FSSIZE.

(** The files of [fs] are there in [fs'], with more bytes at their ends. *)
Definition grown (fs fs' : list (Z * list Z)) : Prop :=
  forall k x, fs !! k = Some x -> exists y, fs' !! k = Some y /\ fst y = fst x /\ snd x `prefix_of` snd y.

Definition has_files (fs : list (Z * list Z)) (s : mkst) : Prop :=
  (exists dn, minv fs dn s) /\ freeblock s = nmeta + total fs.

Lemma grown_refl fs : grown fs fs.
Proof. intros k x Hx. by exists x. Qed.

Lemma files_grown_trans fs fs' fs'' : grown fs fs' -> grown fs' fs'' -> grown fs fs''.
Proof.
  intros H1 H2 k x Hx. destruct (H1 k x Hx) as (y & Hy & Ht & Hp). destruct (H2 k y Hy) as (z & Hz & Ht' & Hp').
  exists z. split; [done|]. split; [congruence|by etrans].
Qed.

Lemma grown_snoc fs x : grown fs (fs ++ [x]).
Proof. intros k y Hy. exists y. split; [by apply lookup_app_l_Some|done]. Qed.

Lemma grown_append fs k ty c p : fs !! k = Some (ty, c) -> grown fs (<[k := (ty, c ++ p)]> fs).
Proof.
  intros Hf j x Hx. pose proof (lookup_lt_Some _ _ _ Hf). destruct (decide (j = k)) as [->|Hne].
  - rewrite Hf in Hx. injection Hx as <-. exists (ty, c ++ p). rewrite list_lookup_insert_eq by done. split; [done|]. split; [done|by eexists].
  - exists x. by rewrite list_lookup_insert_ne.
Qed.

Lemma grown_tail x y fs fs' : grown (x :: fs) (y :: fs') -> grown fs fs'.
Proof. intros H k z Hz. by apply (H (S k)). Qed.

Lemma files_total_nonneg fs : 0 <= total fs.
Proof. induction fs as [|x fs IH]; cbn [total foldr]; [done|]. fold (total fs). pose proof (fcost_nonneg (snd x)). lia. Qed.

Lemma total_mono fs fs' : grown fs fs' -> total fs <= total fs'.
Proof.
  revert fs'. induction fs as [|x fs IH]; intros fs' H; [apply files_total_nonneg|].
  destruct (H 0%nat x eq_refl) as (y & Hy & _ & [p Hp]). destruct fs' as [|y' fs']; [done|]. injection Hy as ->.
  specialize (IH fs' (grown_tail _ _ _ _ H)). cbn [total foldr]. fold (total fs) (total fs'). rewrite Hp. pose proof (fcost_app (snd x) p). lia.
Qed.

Lemma fits_grown fs fs' : grown fs fs' -> fits fs' -> fits fs.
Proof.
  intros Hg (H1 & H2 & H3). pose proof (total_mono fs fs' Hg). split; [|split; [|lia]].
  - destruct (decide (length fs <= length fs')%nat); [lia|]. destruct (lookup_lt_is_Some_2 fs (length fs') ltac:(lia)) as [x Hx].
    destruct (Hg _ _ Hx) as (y & Hy & _). apply lookup_lt_Some in Hy. lia.
  - apply Forall_lookup. intros k x Hx. destruct (Hg k x Hx) as (y & Hy & _ & Hp). apply prefix_length in Hp.
    apply (Forall_lookup_1 _ _ _ _ H2) in Hy. cbn in Hy. lia.
Qed.

Lemma files_total_insert fs k x y : fs !! k = Some x -> total (<[k := y]> fs) = total fs - fcost (snd x) + fcost (snd y).
Proof.
  revert k. induction fs as [|z fs IH]; intros [|k] H; try done.
  - injection H as ->. cbn [total foldr insert list_insert]. lia.
  - cbn [total foldr insert list_insert]. fold (total fs). change (foldr _ 0 (list_insert k y fs)) with (total (<[k := y]> fs)). rewrite IH by done. lia.
Qed.

Lemma total_snoc fs x : total (fs ++ [x]) = total fs + fcost (snd x).
Proof. induction fs as [|z fs IH]; cbn [total foldr app]; [lia|]. fold (total fs). change (foldr _ 0 (fs ++ [x])) with (total (fs ++ [x])). lia. Qed.

(** ** The program *)

(** The blocks before the inodes stay. *)
Definition boot_same (s t : mkst) : Prop := forall b, b < 32 -> img t b = img s b.

Definition reaches (m : M mkst unit) (s : mkst) (fs : list (Z * list Z)) : Prop :=
  wp m s (fun _ t => has_files fs t /\ boot_same s t).

Lemma iappend_reaches fs s k ty c p :
  has_files fs s -> fs !! k = Some (ty, c) -> fits (<[k := (ty, c ++ p)]> fs) ->
  reaches (iappend (Z.of_nat (S k)) p) s (<[k := (ty, c ++ p)]> fs).
Proof.
  intros [[dn I] Hsp] Hf (_ & Hlen & Hroom). pose proof (lookup_lt_Some _ _ _ Hf) as Hk. rewrite (files_total_insert _ _ _ _ Hf) in Hroom. cbn [snd] in Hroom.
  eapply (wp_iappend fs dn s k ty c p); [done|done| |lia|].
  - by apply (Forall_lookup_1 _ _ k (ty, c ++ p) Hlen), list_lookup_insert_eq.
  - intros dn' t I' Hfb Hb. split; [|done]. split; [by eexists|]. rewrite (files_total_insert _ _ _ _ Hf). cbn [snd]. lia.
Qed.

Lemma ialloc_reaches {A} fs s ty (k : Z -> M mkst A) Q :
  has_files fs s -> i16 ty -> s16 (xshort ty) = ty -> fits (fs ++ [(ty, [])]) ->
  (forall t, has_files (fs ++ [(ty, [])]) t -> boot_same s t -> wp (k (Z.of_nat (S (length fs)))) t Q) ->
  wp (ialloc ty ≫= k) s Q.
Proof.
  intros [[dn I] Hsp] Hty Hs (Hn & _ & _) HQ. rewrite length_app in Hn. cbn [length] in Hn. apply wp_bind. eapply (wp_ialloc fs dn); [done..|lia|].
  intros dn' t I' Hfb Hb. apply HQ; [|done]. split; [by eexists|]. rewrite total_snoc. cbn [snd]. change (fcost []) with 0. lia.
Qed.

(** Two parts of the program, one after the other. *)
Lemma reaches_seq m m' s fs fs' :
  reaches m s fs -> (forall t, has_files fs t -> reaches m' t fs') -> reaches (m;; m') s fs'.
Proof.
  intros H H'. apply wp_bind. eapply wp_mono; [exact H|]. intros [] t [Hf Hb]. cbn beta. eapply wp_mono; [by apply H'|].
  intros [] u [Hu Hb']. split; [done|]. intros b Hlt. by rewrite Hb', Hb.
Qed.

Lemma copy_file_reaches fuel bytes : forall fs s k ty c,
  has_files fs s -> fs !! k = Some (ty, c) -> (length bytes <= fuel)%nat -> fits (<[k := (ty, c ++ bytes)]> fs) ->
  reaches (copy_file fuel (Z.of_nat (S k)) bytes) s (<[k := (ty, c ++ bytes)]> fs).
Proof.
  revert bytes. induction fuel as [|fuel IH]; intros bytes fs s k ty c Hh Hf Hl Hfit.
  { destruct bytes; [|cbn in Hl; lia]. apply wp_ret. rewrite app_nil_r, list_insert_id by done. done. }
  cbn [copy_file]. destruct bytes as [|x bytes].
  { apply wp_ret. rewrite app_nil_r, list_insert_id by done. done. }
  set (all := x :: bytes) in *. set (n := Z.to_nat BSIZE) in *. pose proof (lookup_lt_Some _ _ _ Hf) as Hk.
  assert (all = take n all ++ drop n all) as Hall by (by rewrite take_drop).
  assert (<[k := (ty, c ++ all)]> fs = <[k := (ty, (c ++ take n all) ++ drop n all)]> (<[k := (ty, c ++ take n all)]> fs)) as Heq.
  { by rewrite list_insert_insert_eq, <- app_assoc, <- Hall. }
  pose proof (list_lookup_insert_eq fs k (ty, c ++ take n all) Hk) as Hf'.
  rewrite Heq in *. eapply reaches_seq; [apply iappend_reaches; [done..|]|].
  - eapply fits_grown; [|exact Hfit]. by apply grown_append.
  - intros t Ht. apply IH; try done. rewrite length_drop. unfold all in *. cbn [length] in *. unfold n. fsz. lia.
Qed.

(** ** The tree the arguments ask for *)

Definition strip (name : list Z) : list Z := match name with c :: rest => if c =? 95 then rest else name | [] => [] end.

(** path and README go to the root, everything else to /bin. *)
Definition dest (name : list Z) : nat :=
  if bool_decide (cstr (take DIRSIZ name) = PATH) || bool_decide (cstr (take DIRSIZ name) = README) then 0 else 1.

Definition append_to (k : nat) (p : list Z) (fs : list (Z * list Z)) : list (Z * list Z) :=
  match fs !! k with Some (ty, c) => <[k := (ty, c ++ p)]> fs | None => fs end.

Definition place (fs : list (Z * list Z)) (file : list Z * list Z) : list (Z * list Z) :=
  let name := strip (fst file) in
  append_to (length fs) (snd file) (append_to (dest name) (mkdirent (Z.of_nat (S (length fs))) name) (fs ++ [(T_FILE, [])])).

Definition base : list (Z * list Z) :=
  [(T_DIR, mkdirent 1 [DOT] ++ mkdirent 1 [DOT; DOT] ++ mkdirent 2 BIN); (T_DIR, mkdirent 2 [DOT] ++ mkdirent 1 [DOT; DOT])].

Definition layout (files : list (list Z * list Z)) : list (Z * list Z) := foldl place base files.

Lemma append_to_length k p fs : length (append_to k p fs) = length fs.
Proof. unfold append_to. destruct (fs !! k) as [[]|]; [apply length_insert|done]. Qed.

Lemma append_to_grown k p fs : grown fs (append_to k p fs).
Proof. unfold append_to. destruct (fs !! k) as [[]|] eqn:E; [by apply grown_append|apply grown_refl]. Qed.

Lemma append_reaches fs s k p :
  has_files fs s -> (k < length fs)%nat -> fits (append_to k p fs) -> reaches (iappend (Z.of_nat (S k)) p) s (append_to k p fs).
Proof.
  intros Hh Hk Hfit. unfold append_to in *. destruct (lookup_lt_is_Some_2 fs k Hk) as [[ty c] Hf]. rewrite Hf in *. by apply iappend_reaches.
Qed.

Lemma copy_reaches fs s k p :
  has_files fs s -> (k < length fs)%nat -> fits (append_to k p fs) -> reaches (copy_file (length p) (Z.of_nat (S k)) p) s (append_to k p fs).
Proof.
  intros Hh Hk Hfit. unfold append_to in *. destruct (lookup_lt_is_Some_2 fs k Hk) as [[ty c] Hf]. rewrite Hf in *. by apply copy_file_reaches.
Qed.

Lemma place_grown fs file : grown fs (place fs file).
Proof. unfold place. eapply files_grown_trans; [apply grown_snoc|]. eapply files_grown_trans; apply append_to_grown. Qed.

Lemma place_length fs file : length (place fs file) = S (length fs).
Proof. unfold place. rewrite !append_to_length, length_app. cbn. lia. Qed.

Lemma foldl_grown files : forall fs, grown fs (foldl place fs files).
Proof. induction files as [|f files IH]; intros fs; [apply grown_refl|]. cbn. eapply files_grown_trans; [apply place_grown|apply IH]. Qed.

Lemma add_file_reaches fs s file :
  has_files fs s -> (2 <= length fs)%nat -> 47 ∉ fst file -> fits (place fs file) ->
  reaches (add_file 1 2 (fst file) (snd file)) s (place fs file).
Proof.
  intros Hh Hlen Hslash Hfit. unfold add_file. rewrite bool_decide_eq_false_2 by done. fold (strip (fst file)). set (name := strip (fst file)).
  set (fs0 := fs ++ [(T_FILE, [])]). set (fs1 := append_to (dest name) (mkdirent (Z.of_nat (S (length fs))) name) fs0).
  assert (length fs0 = S (length fs)) as Hl0 by (unfold fs0; rewrite length_app; cbn; lia).
  assert (length fs1 = S (length fs)) as Hl1 by (unfold fs1; by rewrite append_to_length).
  assert (fits fs1) as Hfit1 by (eapply fits_grown; [|exact Hfit]; apply append_to_grown).
  assert (fits fs0) as Hfit0 by (eapply fits_grown; [|exact Hfit1]; apply append_to_grown).
  apply (ialloc_reaches fs); try done. intros t Ht Hb. fold fs0 in Ht.
  assert (forall fs' (m : M mkst unit), reaches m t fs' -> wp m t (fun _ u => has_files fs' u /\ boot_same s u)) as Hback.
  { intros fs' m Hm. eapply wp_mono; [exact Hm|]. intros [] u [Hu Hbu]. split; [done|]. intros b Hlt. by rewrite Hbu, Hb. }
  apply Hback. eapply (reaches_seq _ _ t fs1).
  - unfold fs1, dest. unfold fs1, dest in Hfit1. destruct (_ || _).
    + apply (append_reaches fs0 t 0); [done|lia|done].
    + apply (append_reaches fs0 t 1); [done|lia|done].
  - intros u Hu. apply (copy_reaches fs1); [done|lia|done].
Qed.

Lemma add_files_reaches files : forall fs s,
  has_files fs s -> (2 <= length fs)%nat -> Forall (fun f => 47 ∉ fst f) files -> fits (foldl place fs files) ->
  reaches (add_files 1 2 files) s (foldl place fs files).
Proof.
  induction files as [|[name bytes] files IH]; intros fs s Hh Hlen Hs Hfit; [by apply wp_ret|].
  apply Forall_cons in Hs as [H1 H2]. cbn [add_files foldl]. eapply reaches_seq.
  - apply (add_file_reaches fs s (name, bytes)); try done. eapply fits_grown; [apply foldl_grown|exact Hfit].
  - intros t Ht. apply IH; try done. rewrite place_length. lia.
Qed.

(** ** The whole run *)

Lemma wp_zero_all n : forall i s Q,
  (forall t, freeinode t = freeinode s -> freeblock t = freeblock s ->
     (forall b, img t b = if decide (i <= b < i + Z.of_nat n) then zero_block else img s b) -> Q tt t) ->
  wp (zero_all n i) s Q.
Proof.
  induction n as [|n IH]; intros i s Q HQ; cbn [zero_all].
  - apply wp_ret, HQ; [done|done|]. intros b. by rewrite decide_False by lia.
  - apply wp_bind, wp_modify, IH. intros t H1 H2 H3. apply HQ; [done|done|]. intros b. rewrite H3. cbn [img].
    destruct (Z.eqb_spec b i) as [->|Hne]; repeat case_decide; try done; lia.
Qed.

(** Zeroing the image and writing the superblock leaves an image without files. *)
Lemma start_reaches {A} s (m : M mkst A) Q :
  freeinode s = 1 ->
  (forall t, has_files [] t -> sb_decode (img t 1) = sb -> img t 2 = zero_block -> wp m t Q) ->
  wp (modify (fun s => mkMk (img s) (freeinode s) nmeta);; zero_all (Z.to_nat FSSIZE) 0;;
      wsect 1 (splice 0 (sb_encode sb) zero_block);; m) s Q.
Proof.
  intros Hi HQ. apply wp_bind, wp_modify, wp_bind, wp_zero_all. intros t H1 H2 H3. cbn [freeinode freeblock] in *. rewrite Z2Nat.id in H3 by done.
  apply wp_bind, wp_modify. assert (length (splice 0 (sb_encode sb) zero_block) = Z.to_nat BSIZE) as Hl by reflexivity.
  assert (sb_decode (splice 0 (sb_encode sb) zero_block) = sb) as Hsb by reflexivity. set (x := splice 0 _ _) in *. clearbody x.
  assert (forall b, 0 <= b < FSSIZE -> img t b = zero_block) as Hz.
  { intros b Hb. rewrite H3. by rewrite decide_True by lia. }
  apply HQ; cbn [img]; [|done|by apply Hz]. split; [|cbn [freeblock]; rewrite H2; reflexivity]. exists []. split; cbn [img freeinode freeblock fmap list_fmap]; try done.
  - split; try done.
    + rewrite H2. done.
    + intros b Hb. destruct (b =? 1); [done|]. by rewrite Hz.
    + intros b Hb. rewrite H2, nmeta_val in *. replace (b =? 1) with false by lia. apply Hz. lia.
  - split; [|done]. by rewrite H1, Hi.
Qed.

Lemma T_DIR_ok : i16 T_DIR /\ s16 (xshort T_DIR) = T_DIR.
Proof. by split. Qed.

(** The bytes of the root directory after its size is rounded up. *)
Definition round_up (c : list Z) : list Z := c ++ replicate (Z.to_nat ((Z.of_nat (length c) / BSIZE + 1) * BSIZE) - length c) 0.

Definition round_root (fs : list (Z * list Z)) : list (Z * list Z) :=
  match fs with (ty, c) :: rest => (ty, round_up c) :: rest | [] => [] end.

Lemma wp_append_to {A} fs s k p (m : M mkst A) Q :
  has_files fs s -> (k < length fs)%nat -> fits (append_to k p fs) ->
  (forall t, has_files (append_to k p fs) t -> boot_same s t -> wp m t Q) -> wp (iappend (Z.of_nat (S k)) p;; m) s Q.
Proof.
  intros Hh Hk Hfit HQ. apply wp_bind. eapply wp_mono; [by apply append_reaches|]. intros [] t [Ht Hb]. by apply HQ.
Qed.

(** The directories and the files of the arguments. *)
Lemma wp_tree {A} files s (m : Z -> M mkst A) Q :
  has_files [] s -> Forall (fun f => 47 ∉ fst f) files -> fits (layout files) ->
  (forall t, has_files (layout files) t -> boot_same s t -> wp (m 1) t Q) ->
  wp (rootino ← ialloc T_DIR;
      if negb (rootino =? ROOTINO) then panic "assertion rootino == ROOTINO"
      else
        iappend rootino (mkdirent rootino [DOT]);;
        iappend rootino (mkdirent rootino [DOT; DOT]);;
        binino ← ialloc T_DIR;
        iappend binino (mkdirent binino [DOT]);;
        iappend binino (mkdirent rootino [DOT; DOT]);;
        iappend rootino (mkdirent binino BIN);;
        add_files rootino binino files;;
        m rootino) s Q.
Proof.
  intros Hh Hs Hfit HQ. assert (fits base) as Hb by (eapply fits_grown; [apply foldl_grown|exact Hfit]).
  set (f1 := [] ++ [(T_DIR, @nil Z)]). set (f2 := append_to 0 (mkdirent 1 [DOT]) f1). set (f3 := append_to 0 (mkdirent 1 [DOT; DOT]) f2).
  set (f4 := f3 ++ [(T_DIR, [])]). set (f5 := append_to 1 (mkdirent 2 [DOT]) f4). set (f6 := append_to 1 (mkdirent 1 [DOT; DOT]) f5).
  assert (append_to 0 (mkdirent 2 BIN) f6 = base) as H7 by reflexivity.
  assert (fits f6) as H6 by (eapply fits_grown; [|exact Hb]; rewrite <- H7; apply append_to_grown).
  assert (fits f5) as H5 by (eapply fits_grown; [|exact H6]; apply append_to_grown).
  assert (fits f4) as H4 by (eapply fits_grown; [|exact H5]; apply append_to_grown).
  assert (fits f3) as H3 by (eapply fits_grown; [|exact H4]; apply grown_snoc).
  assert (fits f2) as H2 by (eapply fits_grown; [|exact H3]; apply append_to_grown).
  assert (fits f1) as H1 by (eapply fits_grown; [|exact H2]; apply append_to_grown).
  apply (ialloc_reaches [] s T_DIR); try apply T_DIR_ok; [done|done|]. intros t1 T1 B1. change (Z.of_nat (S (length (@nil (Z * list Z))))) with 1.
  change (negb (1 =? ROOTINO)) with false. cbn iota. fold f1 in T1.
  apply (wp_append_to f1 t1 0); [done|cbn; lia|done|]. intros t2 T2 B2. apply (wp_append_to f2 t2 0); [done|cbn; lia|done|]. intros t3 T3 B3.
  apply (ialloc_reaches f3 t3 T_DIR); try apply T_DIR_ok; [done|done|]. intros t4 T4 B4. change (Z.of_nat (S (length f3))) with 2. fold f4 in T4.
  apply (wp_append_to f4 t4 1); [done|cbn; lia|done|]. intros t5 T5 B5. apply (wp_append_to f5 t5 1); [done|cbn; lia|done|]. intros t6 T6 B6.
  apply (wp_append_to f6 t6 0); [done|cbn; lia|by rewrite H7|]. rewrite H7. intros t7 T7 B7.
  apply wp_bind. eapply wp_mono; [apply (add_files_reaches files base t7); try done; cbn; lia|]. intros [] t8 [T8 B8]. cbn beta.
  apply HQ; [done|]. intros b Hlt. by rewrite B8, B7, B6, B5, B4, B3, B2, B1.
Qed.

Lemma bits_zero b : bit_free zero_block b = true.
Proof.
  unfold bit_free, bit_byte. rewrite nth_lookup. unfold zero_block. destruct (replicate _ 0 !! _) eqn:E; [|done].
  by apply lookup_replicate in E as [-> _].
Qed.

Lemma length_bit_set d i : length (bit_set d i) = length d.
Proof. unfold bit_set. apply length_insert. Qed.

(** balloc marks the first blocks and no other. *)
Lemma mark_spec n : forall i buf b,
  0 <= i -> 0 <= b -> i + Z.of_nat n <= BSIZE * 8 -> length buf = Z.to_nat BSIZE ->
  bit_free (mark n i buf) b = if decide (i <= b < i + Z.of_nat n) then false else bit_free buf b.
Proof.
  induction n as [|n IH]; intros i buf b Hi Hb Hn Hl; cbn [mark].
  - by rewrite decide_False by lia.
  - change (<[_ := _]> buf) with (bit_set buf i). rewrite IH; [|lia|lia|lia|by rewrite length_bit_set].
    rewrite bit_set_spec; [|done|done|]; [repeat case_decide; try done; lia|]. rewrite Hl. fsz.
    pose proof (Z.div_lt_upper_bound i 8 512). pose proof (Z.div_pos i 8). lia.
Qed.

Lemma round_len c : Z.of_nat (length c) mod BSIZE <> 0 -> Z.of_nat (length (round_up c)) = (Z.of_nat (length c) / BSIZE + 1) * BSIZE /\ nblk (length (round_up c)) = nblk (length c).
Proof.
  intros Hm. pose proof (nblk_spec (length c)). pose proof (nblk_spec (length (round_up c))) as Hr. unfold round_up in *.
  rewrite length_app, length_replicate in *. fsz. pose proof (Z.div_mod (Z.of_nat (length c)) 512). pose proof (Z.mod_pos_bound (Z.of_nat (length c)) 512). lia.
Qed.

(** Zeros at the end of the last block are there already. *)
Lemma padded_round c bn :
  0 <= bn < nblk (length c) -> Z.of_nat (length c) mod BSIZE <> 0 ->
  padded (slice (Z.to_nat (BSIZE * bn)) (Z.to_nat BSIZE) (round_up c)) = padded (slice (Z.to_nat (BSIZE * bn)) (Z.to_nat BSIZE) c).
Proof.
  intros Hbn Hm. destruct (round_len c Hm) as [Hl Hn]. pose proof (nblk_spec (length c)) as Hs. set (off := Z.to_nat (BSIZE * bn)).
  assert (off <= length c)%nat as Hoff by (unfold off; fsz; lia).
  unfold slice, round_up. rewrite drop_app_le by done. set (u := drop off c). set (z := (_ - length c)%nat).
  assert (length u = length c - off)%nat as Hu by apply length_drop.
  destruct (decide (length u < Z.to_nat BSIZE)%nat) as [Hlt|Hge].
  - assert (length u + z = Z.to_nat BSIZE)%nat as Hz.
    { unfold round_up in Hl. fold z in Hl. rewrite length_app, length_replicate in Hl. unfold off in *. fsz.
      pose proof (Z.div_mod (Z.of_nat (length c)) 512). pose proof (Z.mod_pos_bound (Z.of_nat (length c)) 512). lia. }
    rewrite take_ge by (rewrite length_app, length_replicate; lia). rewrite (take_ge u) by lia.
    unfold padded. rewrite length_app, length_replicate, Hz, Nat.sub_diag, app_nil_r. f_equal. f_equal. lia.
  - by rewrite take_app_le by lia.
Qed.

Lemma fok_round im ty c d : Z.of_nat (length c) mod BSIZE <> 0 -> fok im (gf (ty, c)) d -> fok im (gf (ty, round_up c)) d.
Proof.
  intros Hm [F1 F2 F3 [F4 F4'] F5 F5' F6 F7]. destruct (round_len c Hm) as [Hl Hn]. pose proof (nblk_spec (length (round_up c))).
  unfold gf in *. cbn [f_type f_data f_blocks f_ind fst snd] in *. split; cbn [f_type f_data f_blocks f_ind]; rewrite ?Hn in *; try done.
  - split; [done|]. fsz. lia.
  - intros bn Hbn. rewrite padded_round by done. by apply F7.
Qed.

(** Rounding the size of the root directory. *)
Lemma wp_round {A} ty c rest s (m : M mkst A) Q :
  has_files ((ty, c) :: rest) s -> Forall (fun x => Z.of_nat (length (snd x)) <= MAXFILE * BSIZE) ((ty, c) :: rest) ->
  Z.of_nat (length c) mod BSIZE <> 0 ->
  (forall t, has_files ((ty, round_up c) :: rest) t -> boot_same s t -> wp m t Q) ->
  wp (din ← rinode 1; winode 1 (set_dsize (xint (u32 ((xint (di_size din) / BSIZE + 1) * BSIZE))) din);; m) s Q.
Proof.
  intros [[dn [I1 I2 I3 I4 [I5 I6]]] Hsp] Hlen Hm HQ. apply Forall_cons in Hlen as [Hlen _]. cbn [snd] in Hlen.
  destruct (round_len c Hm) as [Hl Hn]. pose proof (nblk_spec (length (round_up c))) as Hns. pose proof (nblk_spec (length c)).
  pose proof (li_len _ _ _ _ I1) as Hdn. rewrite length_fmap in Hdn. cbn [length] in Hdn.
  destruct dn as [|d dn]; [done|]. pose proof (li_ok _ _ _ _ I1 0%nat _ _ eq_refl eq_refl) as Hok. pose proof (fok_round _ _ _ _ Hm Hok) as Hok'.
  unfold rinode. apply wp_bind, wp_bind, wp_rsect; [done|]. apply wp_ret. fold (inode_at (img s) 1).
  rewrite (I3 0%nat d eq_refl : inode_at (img s) 1 = d), (I4 0%nat _ d eq_refl eq_refl). cbn [snd].
  assert (forall n, 0 <= n <= MAXFILE * BSIZE -> uint n) as Hsmall by (intros n Hnn; fsz; unfold uint; lia).
  assert (0 <= Z.of_nat (length (round_up c)) <= MAXFILE * BSIZE) as Hr by (fsz; lia).
  rewrite (xint_small (Z.of_nat (length c))) by (apply Hsmall; lia). rewrite <- Hl, u32_small by (by apply Hsmall). rewrite xint_small by (by apply Hsmall).
  assert (i16 ty) as Hty by (by apply Forall_cons in I2 as [? _]).
  apply wp_bind, wp_winode; [done| |apply (li_blen _ _ _ _ I1)|].
  { apply (fok_dinode_ok (img s) (gf (ty, round_up c))); [by apply fok_size|done|by apply Hsmall]. }
  intros t W. pose proof (li_fb _ _ _ _ I1) as Hfb. apply HQ; [|intros b Hb; apply (wr_block _ _ _ _ W); lia]. split.
  - eexists. eapply (minv_write ((ty, c) :: rest) (d :: dn) s t 0 ty (round_up c) d); try done; [|cbn; lia|..].
    + apply (linv_upd _ (d :: dn) (img s) (freeblock s) 0 _ d); try done;
        [cbn; lia|lia|apply (li_zero _ _ _ _ I1)|apply (li_blen _ _ _ _ I1)|by left|].
      intros sl sl' Hs1 Hs2 Hne E. by apply (li_inj _ _ _ _ I1 0 0 d d).
    + intros j e Hj He. by apply I3.
    + intros j x e Hx He _. by apply (I4 j).
  - rewrite (proj2 (wr_free _ _ _ _ W)), Hsp. cbn [total foldr snd]. unfold fcost. by rewrite Hn.
Qed.

(** balloc changes the bitmap only. *)
Lemma wp_mkfs_balloc fs s Q :
  has_files fs s ->
  (forall t, has_files fs t -> boot_same s t -> freeblock t = freeblock s ->
     (forall b, 0 <= b -> used sb (img t) b <-> b < freeblock s) -> Q tt t) ->
  wp (b ← gets freeblock; balloc b) s Q.
Proof.
  intros [[dn [I1 I2 I3 I4 I5]] Hsp] HQ. pose proof (li_fb _ _ _ _ I1) as Hfb. rewrite nmeta_val in Hfb. unfold FSSIZE in Hfb.
  apply wp_bind, wp_gets. unfold balloc. change (BSIZE * 8) with 4096. replace (4096 <=? freeblock s) with false by lia.
  assert (forall b, 0 <= b -> bit_free (mark (Z.to_nat (freeblock s)) 0 zero_block) b = false <-> b < freeblock s) as Hmark.
  { intros b Hb. rewrite mark_spec; [|done|done|change (BSIZE * 8) with 4096; lia|done]. rewrite bits_zero. case_decide; split; try done; lia. }
  assert (forall n i buf, length (mark n i buf) = length buf) as Hlm.
  { intros n. induction n as [|n IH]; intros i buf; [done|]. cbn [mark]. by rewrite IH, length_insert. }
  pose proof (Hlm (Z.to_nat (freeblock s)) 0 zero_block) as Hlen. set (x := mark _ _ _) in *. clearbody x. clear Hlm.
  apply wp_modify, HQ; [|intros b Hb; cbn [img]; change (sb_bmapstart sb) with 58; by replace (b =? 58) with false by lia|done|].
  - split; [|done]. exists dn. split; cbn [img freeblock freeinode]; try done.
    + apply (linv_meta _ _ (img s)); [done| |].
      * intros b Hb. change (sb_bmapstart sb) with 58. rewrite nmeta_val in Hb. by replace (b =? 58) with false by lia.
      * intros b Hb. destruct (b =? _); [done|]. by apply (li_blen _ _ _ _ I1).
    + intros k d Hd. rewrite <- (I3 k d Hd). unfold inode_at. pose proof (lookup_lt_Some _ _ _ Hd). pose proof (li_len _ _ _ _ I1) as Hdn. rewrite length_fmap in Hdn.
      destruct (iblock_val (Z.of_nat (S k)) ltac:(lia)) as [-> ?]. change (sb_bmapstart sb) with 58. destruct (Z.eqb_spec (Z.of_nat (S k) / 8 + 32) 58); [lia|done].
  - intros b Hb. unfold used. cbn [img]. rewrite Z.eqb_refl. by apply Hmark.
Qed.

(** What the kernel finds at an inode number: the type, one link, the bytes. *)
Definition file_at (im : Z -> list Z) (inum : Z) (x : Z * list Z) : Prop :=
  let i := ino_of inum (inode_at im inum) in
  i_type i = fst x /\ i_nlink i = 1 /\ i_size i = Z.of_nat (length (snd x)) /\
  finv sb im i /\ mapped im i /\ fbytes im i 0 (length (snd x)) = snd x.

Lemma fok_bytes im x d inum : fok im (gf x) d -> fbytes im (ino_of inum d) 0 (length (snd x)) = snd x.
Proof.
  intros [F1 F2 F3 F4 F5 F5' F6 F7]. destruct x as [ty c]. unfold gf in *. cbn [f_type f_data f_blocks f_ind fst snd] in *.
  apply list_eq. intros j. unfold fbytes. rewrite list_lookup_fmap. pose proof (nblk_spec (length c)) as Hn.
  destruct (decide (j < length c)%nat) as [Hj|Hj]; cycle 1.
  { rewrite lookup_seq_ge by lia. rewrite (lookup_ge_None_2 c j) by lia. done. }
  rewrite lookup_seq_lt by done. cbn [fmap option_fmap option_map]. rewrite Z.add_0_l. cbn [Nat.add]. unfold fbyte, fblock.
  change (faddr im (ino_of inum d) _) with (faddr im (ino_of 0 d) (Z.of_nat j / BSIZE)).
  set (bn := Z.of_nat j / BSIZE). pose proof (Z.div_mod (Z.of_nat j) BSIZE ltac:(done)) as Hdm. pose proof (Z.mod_pos_bound (Z.of_nat j) BSIZE ltac:(done)).
  fold bn in Hdm. assert (0 <= bn < nblk (length c)) as Hbn by (fsz; lia).
  pose proof (proj2 (F6 bn ltac:(lia)) ltac:(lia)) as Hne. replace (_ =? 0) with false by lia. rewrite (F7 bn Hbn), nth_lookup. unfold padded.
  set (o := Z.to_nat (Z.of_nat j mod BSIZE)). assert (Z.to_nat (BSIZE * bn) + o = j)%nat as Ho by (unfold o; fsz; lia).
  destruct (lookup_lt_is_Some_2 c j Hj) as [y Hy]. rewrite lookup_app_l; cycle 1.
  - unfold slice. rewrite length_take, length_drop. unfold o in *. fsz. lia.
  - rewrite lookup_slice by (unfold o; fsz; lia). by rewrite Ho, Hy.
Qed.

Lemma has_files_at fs s k x :
  has_files fs s -> Forall (fun y => Z.of_nat (length (snd y)) <= MAXFILE * BSIZE) fs ->
  (forall b, 0 <= b -> used sb (img s) b <-> b < freeblock s) -> fs !! k = Some x -> file_at (img s) (Z.of_nat (S k)) x.
Proof.
  intros [[dn [I1 I2 I3 I4 I5]] Hsp] Hlen Hused Hx. pose proof (li_len _ _ _ _ I1) as Hdn. rewrite length_fmap in Hdn.
  pose proof (lookup_lt_Some _ _ _ Hx) as Hk. destruct (lookup_lt_is_Some_2 dn k ltac:(lia)) as [d Hd].
  assert (fok (img s) (gf x) d) as Hok by (by apply (li_ok _ _ _ _ I1 k); [rewrite list_lookup_fmap, Hx|]).
  pose proof (fok_bytes _ _ _ (Z.of_nat (S k)) Hok) as Hbytes. destruct Hok as [(F1 & _ & _ & F1') F2 F3 [F4 F4'] F5 F5' F6 F7].
  unfold file_at. rewrite (I3 k d Hd). pose proof (I4 k x d Hx Hd) as Hsz. pose proof (Forall_lookup_1 _ _ _ _ Hlen Hx) as Hl. cbn beta in Hl.
  pose proof (li_fb _ _ _ _ I1) as Hfb.
  assert (forall sl, slot_ok sl -> addr (img s) d sl <> 0 -> data_block sb (addr (img s) d sl) /\ used sb (img s) (addr (img s) d sl)) as Hdata.
  { intros sl Hsl Hne. pose proof (li_range _ _ _ _ I1 k d sl Hd Hsl Hne) as Hr. rewrite nmeta_val in Hr. split; [|apply Hused; lia].
    unfold data_block. change (sb_bmapstart sb) with 58. change (sb_size sb) with FSSIZE. lia. }
  split; [done|]. split; [done|]. split; [done|]. split; [|split; [|exact Hbytes]].
  - split; try done.
    + intros Hne. by apply (Hdata Ind).
    + intros bn Hbn Hne. destruct (Hdata (Data bn) Hbn Hne). split; [done|]. split; [done|]. intros E.
      by destruct (li_inj _ _ _ _ I1 k k d d (Data bn) Ind Hd Hd Hbn Logic.I Hne E) as [_ ?].
    + intros bn bn' Hbn Hbn' Hne E. destruct (li_inj _ _ _ _ I1 k k d d (Data bn) (Data bn') Hd Hd Hbn Hbn' Hne E) as [_ E']. by injection E'.
  - split; cbn [ino_of i_size]; rewrite Hsz; [lia|]. intros bn Hbn Hlt. pose proof (nblk_spec (length (snd x))) as Hn. cbn [gf f_blocks] in *.
    apply (F6 bn); fsz; lia.
Qed.

Lemma no_sharing fs s k k' b :
  has_files fs s -> (k < length fs)%nat -> (k' < length fs)%nat -> k <> k' ->
  owns (img s) (inode_at (img s) (Z.of_nat (S k))) b -> ~ owns (img s) (inode_at (img s) (Z.of_nat (S k'))) b.
Proof.
  intros [[dn [I1 I2 I3 I4 I5]] _] Hk Hk' Hne. pose proof (li_len _ _ _ _ I1) as Hdn. rewrite length_fmap in Hdn.
  destruct (lookup_lt_is_Some_2 dn k ltac:(lia)) as [d Hd], (lookup_lt_is_Some_2 dn k' ltac:(lia)) as [d' Hd'].
  rewrite (I3 k d Hd), (I3 k' d' Hd'). intros (sl & Hsl & H1 & <-) (sl' & Hsl' & H2 & E). apply Hne.
  symmetry. by destruct (li_inj _ _ _ _ I1 k' k d' d sl' sl Hd' Hd Hsl' Hsl H2 E).
Qed.

Lemma layout_cons files : exists c rest, layout files = (T_DIR, c) :: rest.
Proof.
  destruct (foldl_grown files base 0%nat _ eq_refl) as (y & Hy & Ht & _). fold (layout files) in Hy.
  destruct (layout files) as [|[ty c] rest]; [done|]. injection Hy as <-. cbn in Ht. subst ty. by eexists _, _.
Qed.

Lemma round_root_fits c rest :
  Z.of_nat (length c) mod BSIZE <> 0 -> Forall (fun x => Z.of_nat (length (snd x)) <= MAXFILE * BSIZE) ((T_DIR, c) :: rest) ->
  Forall (fun x => Z.of_nat (length (snd x)) <= MAXFILE * BSIZE) ((T_DIR, round_up c) :: rest).
Proof.
  intros Hm H. apply Forall_cons in H as [Hc Hr]. apply Forall_cons. split; [|done]. cbn [snd] in *. destruct (round_len c Hm) as [_ Hn].
  pose proof (nblk_spec (length c)). pose proof (nblk_spec (length (round_up c))). fsz. lia.
Qed.


Module MkfsDemo.
(** "_cat" with 700 bytes, and README. *)
Definition files : list (list Z * list Z) := [([95; 99; 97; 116], replicate 700 7); (README, [104; 105])].
Definition start : mkst := mkMk (fun _ => []) 1 0.
End MkfsDemo.

