(* ===== verification/Ulib.v ===== *)
(** ulib.c and printf.c: the string routines and the formatted output that the
    user programs are linked with.

    A C string is the list of its bytes before the NUL; a char array is the
    list of all its bytes, and a pointer into it an index.  An access outside
    of an array is [Fault].  What a program reads is a list of bytes still to
    come, what it writes the list of bytes written. *)

From S2P Require Import Prelude StringC Codec.

(** * Strings *)

Fixpoint strcmp (p q : list Z) : Z :=
  match p, q with
  | a :: p, b :: q => if a =? b then strcmp p q else a - b
  | a :: _, [] => a - 0
  | [], b :: _ => 0 - b
  | [], [] => 0
  end.

Fixpoint strlen (s : list Z) : Z :=
  match s with
  | [] => 0
  | _ :: s => strlen s + 1
  end.

(** The offset of the byte found, or null. *)
Fixpoint strchr (s : list Z) (c : Z) : option nat :=
  match s with
  | [] => None
  | x :: s => if x =? c then Some 0%nat else S <$> strchr s c
  end.

(** *d++ = *t++ up to and with the NUL, from index [d] of the array [s]. *)
Fixpoint copy_string (t : list Z) (d : nat) (s : list Z) : outcome (list Z) :=
  if (length s <=? d)%nat then Fault "strcpy"
  else
    match t with
    | [] => Ok (<[d := 0]> s)
    | c :: t => copy_string t (d + 1) (<[d := c]> s)
    end.

Definition strcpy (s t : list Z) : outcome (list Z) := copy_string t 0 s.

Definition strcat (dest src : list Z) : outcome (list Z) :=
  copy_string src (length (cstr dest)) dest.

(** memmove inside one array: [n] bytes from [s] on to [d] on, upwards. *)
Fixpoint memmove_up (n : nat) (l : list Z) (d s : nat) : list Z :=
  match n with
  | O => l
  | S n => memmove_up n (<[d := nth s l 0]> l) (d + 1) (s + 1)
  end.

Definition memmove (l : list Z) (d s : nat) (n : Z) : list Z := memmove_up (Z.to_nat n) l d s.

Definition memset (l : list Z) (c n : Z) : list Z := splice 0 (replicate (Z.to_nat n) (u8 c)) l.

Fixpoint atoi_loop (s : list Z) (n : Z) : Z :=
  match s with
  | [] => n
  | c :: s => if (48 <=? c) && (c <=? 57) then atoi_loop s (s32 (n * 10 + c - 48)) else n
  end.

Definition atoi (s : list Z) : Z := atoi_loop s 0.

(** gets: [k] more bytes fit.  What read(0, &c, 1) gives is the next byte of
    the input, or nothing at its end. *)
Fixpoint gets_loop (k : nat) (input : list Z) : list Z * list Z :=
  match k, input with
  | S k, c :: input =>
      if (c =? 10) || (c =? 13) then ([c], input)
      else let (s, rest) := gets_loop k input in (c :: s, rest)
  | _, _ => ([], input)
  end.

(** The contents of [buf] after gets(buf, max), and the input left. *)
Definition gets (buf : list Z) (max : Z) (input : list Z) : list Z * list Z :=
  let (s, rest) := gets_loop (Z.to_nat (max - 1)) input in
  (splice 0 (s ++ [0]) buf, rest).

(** * printf *)

Definition digits : list Z :=
  [48; 49; 50; 51; 52; 53; 54; 55; 56; 57; 65; 66; 67; 68; 69; 70].

Definition PERCENT : Z := 37.
Definition MINUS : Z := 45.

(** do buf[i++] = digits[x % base]; while((x /= base) != 0) *)
Fixpoint printint_digits (fuel : nat) (x base : Z) : list Z :=
  match fuel with
  | O => []
  | S fuel =>
      nth (Z.to_nat (x mod base)) digits 0 ::
      (if x / base =? 0 then [] else printint_digits fuel (x / base) base)
  end.

(** buf[0..i) just before the loop that prints it. *)
Definition printint_buf (xx base sgn : Z) : list Z :=
  let neg := negb (sgn =? 0) && (xx <? 0) in
  let x := if neg then u32 (- xx) else u32 xx in
  printint_digits 32 x base ++ (if neg then [MINUS] else []).

(** The bytes put; the buffer has 16. *)
Definition printint (xx base sgn : Z) : outcome (list Z) :=
  let buf := printint_buf xx base sgn in
  if (16 <? length buf)%nat then Fault "buf" else Ok (rev buf).

Definition null_string : list Z := [40; 110; 117; 108; 108; 41].

(** [ap]: the words after fmt on the stack; [str]: the string at an address. *)
Fixpoint printf_loop (str : Z -> list Z) (fmt : list Z) (state : Z) (ap : list Z) : outcome (list Z) :=
  match fmt with
  | [] => Ok []
  | c :: fmt =>
      if state =? 0 then
        if c =? PERCENT then printf_loop str fmt PERCENT ap
        else obind (printf_loop str fmt 0 ap) (fun out => Ok (c :: out))
      else
        let arg (f : Z -> outcome (list Z)) :=
          match ap with
          | [] => Fault "va_arg"
          | a :: ap => obind (f a) (fun o => obind (printf_loop str fmt 0 ap) (fun out => Ok (o ++ out)))
          end in
        if c =? 100 then arg (fun a => printint (s32 a) 10 1)
        else if (c =? 120) || (c =? 112) then arg (fun a => printint (s32 a) 16 0)
        else if c =? 115 then arg (fun a => Ok (if a =? 0 then null_string else str a))
        else if c =? 99 then arg (fun a => Ok [u8 a])
        else if c =? PERCENT then obind (printf_loop str fmt 0 ap) (fun out => Ok (c :: out))
        else obind (printf_loop str fmt 0 ap) (fun out => Ok (PERCENT :: c :: out))
  end.

Definition printf (str : Z -> list Z) (fmt : list Z) (ap : list Z) : outcome (list Z) :=
  printf_loop str fmt 0 ap.

(** * Lemmas *)

Lemma strcmp_eq p q : strcmp p q = 0 -> Forall (fun c => c <> 0) p -> Forall (fun c => c <> 0) q -> p = q.
Proof.
  revert q. induction p as [|a p IH]; intros [|b q] H Hp Hq; [done| | |].
  - inversion Hq. simpl in H. lia.
  - inversion Hp. simpl in H. lia.
  - inversion Hp; inversion Hq; subst. simpl in H. destruct (Z.eqb_spec a b); [|lia].
    subst. f_equal. by apply IH.
Qed.

Lemma strlen_length s : strlen s = Z.of_nat (length s).
Proof. induction s; simpl; lia. Qed.

Lemma strchr_Some s c i : strchr s c = Some i -> exists a b, s = a ++ c :: b /\ length a = i /\ c ∉ a.
Proof.
  revert i. induction s as [|x s IH]; intros i H; [done|]. simpl in H. destruct (Z.eqb_spec x c) as [->|].
  - injection H as <-. exists [], s. split; [done|]. split; [done|]. apply not_elem_of_nil.
  - destruct (strchr s c) as [j|]; [|done]. injection H as <-. destruct (IH j eq_refl) as (a & b & -> & Hl & Ha).
    exists (x :: a), b. split; [done|]. split; [simpl; lia|]. apply not_elem_of_cons. split; [congruence|done].
Qed.

Lemma strchr_None s c : strchr s c = None -> c ∉ s.
Proof.
  induction s as [|x s IH]; intros H; [apply not_elem_of_nil|]. simpl in H.
  destruct (Z.eqb_spec x c); [done|]. destruct (strchr s c); [done|].
  apply not_elem_of_cons. split; [congruence|by apply IH].
Qed.

Lemma strchr_first a b c : c ∉ a -> strchr (a ++ c :: b) c = Some (length a).
Proof.
  induction a as [|x a IH]; intros Ha; simpl; [by rewrite Z.eqb_refl|].
  apply not_elem_of_cons in Ha as [Hx Ha]. destruct (Z.eqb_spec x c); [congruence|]. by rewrite IH.
Qed.

Lemma strchr_absent s c : c ∉ s -> strchr s c = None.
Proof.
  induction s as [|x s IH]; intros Hs; simpl; [done|]. apply not_elem_of_cons in Hs as [Hx Hs].
  destruct (Z.eqb_spec x c); [congruence|]. by rewrite IH.
Qed.

Lemma cstr_nul a z : 0 ∉ a -> cstr (a ++ 0 :: z) = a.
Proof.
  induction a as [|x a IH]; intros Ha; [done|]. apply not_elem_of_cons in Ha as [Hx Ha]. simpl.
  destruct (Z.eqb_spec x 0); [congruence|]. by rewrite IH.
Qed.

Lemma cstr_split l : (length (cstr l) < length l)%nat -> exists z, l = cstr l ++ 0 :: z /\ 0 ∉ cstr l.
Proof.
  induction l as [|c l IH]; simpl; intros Hl; [lia|]. destruct (Z.eqb_spec c 0) as [->|Hc].
  - exists l. split; [done|]. apply not_elem_of_nil.
  - simpl in Hl. destruct (IH ltac:(lia)) as (z & Hz & H0). exists z. split; [simpl; by rewrite <- Hz|].
    apply not_elem_of_cons. split; [congruence|done].
Qed.

Lemma length_memmove_up n l d s : length (memmove_up n l d s) = length l.
Proof. revert l d s. induction n as [|n IH]; intros; simpl; [done|]. by rewrite IH, length_insert. Qed.

(** Moving bytes down, source and target may overlap. *)
Lemma memmove_up_down n l d s :
  (d <= s)%nat -> (s + n <= length l)%nat -> memmove_up n l d s = splice d (slice s n l) l.
Proof.
  revert l d s. induction n as [|n IH]; intros l d s Hd Hs; simpl.
  - unfold slice. rewrite take_0. unfold splice. simpl. by rewrite Nat.add_0_r, take_drop.
  - rewrite IH by (rewrite ?length_insert; lia). apply list_eq. intros i.
    assert (nth s l 0 = default 0 (l !! s)) as Hn.
    { destruct (l !! s) eqn:E; [by apply nth_lookup_Some|by apply lookup_ge_None in E; lia]. }
    destruct (lookup_lt_is_Some_2 l s ltac:(lia)) as [x Hx]. rewrite Hx in Hn. simpl in Hn.
    rewrite !lookup_splice by (rewrite ?length_slice; rewrite ?length_insert; lia).
    rewrite !length_slice by (rewrite ?length_insert; lia). repeat case_decide; try lia.
    + rewrite !lookup_slice by lia. rewrite list_lookup_insert_ne by lia. f_equal. lia.
    + replace i with d by lia. rewrite list_lookup_insert_eq by lia. rewrite Nat.sub_diag, lookup_slice by lia.
      by rewrite Nat.add_0_r, Hx, Hn.
    + by rewrite list_lookup_insert_ne by lia.
Qed.

Lemma length_printint_digits k fuel x base :
  1 < base -> 0 <= x < base ^ Z.of_nat (S k) -> (length (printint_digits fuel x base) <= S k)%nat.
Proof.
  intros Hb. revert fuel x. induction k as [|k IH]; intros [|fuel] x Hx; simpl; try lia.
  - rewrite Z.pow_1_r in Hx. rewrite Z.div_small by lia. simpl. lia.
  - destruct (x / base =? 0); simpl; [lia|]. apply le_n_S, IH. split; [apply Z.div_pos; lia|].
    apply Z.div_lt_upper_bound; [lia|]. rewrite <- Z.pow_succ_r, <- Nat2Z.inj_succ by lia. lia.
Qed.

Lemma digit_char d : 0 <= d < 10 -> nth (Z.to_nat d) digits 0 = 48 + d.
Proof.
  intros Hd. assert (d = 0 \/ d = 1 \/ d = 2 \/ d = 3 \/ d = 4 \/ d = 5 \/ d = 6 \/ d = 7 \/ d = 8 \/ d = 9)
    as H by lia.
  by repeat (destruct H as [-> | H]; [done|]); subst.
Qed.

Lemma atoi_digits fuel x tl :
  0 <= x <= INT_MAX -> x < 10 ^ Z.of_nat fuel ->
  atoi_loop (rev (printint_digits fuel x 10) ++ tl) 0 = atoi_loop tl x.
Proof.
  revert x tl. induction fuel as [|fuel IH]; intros x tl Hx Hf; [simpl in *; by replace x with 0 by lia|].
  assert (forall n, n = x / 10 -> atoi_loop (nth (Z.to_nat (x mod 10)) digits 0 :: tl) n = atoi_loop tl x) as Hd.
  { intros n ->. pose proof (Z.mod_pos_bound x 10 ltac:(lia)). rewrite digit_char by lia. cbn [atoi_loop].
    rewrite !(proj2 (Z.leb_le _ _)) by lia. cbn [andb]. f_equal. unfold INT_MAX in Hx.
    rewrite s32_small; pose proof (Z.div_mod x 10 ltac:(lia)); lia. }
  cbn [printint_digits]. destruct (Z.eqb_spec (x / 10) 0) as [E|E].
  - rewrite <- (Hd 0) by done. done.
  - cbn [rev]. rewrite <- app_assoc. rewrite IH.
    + by apply Hd.
    + split; [apply Z.div_pos; lia|]. apply Z.div_le_upper_bound; lia.
    + apply Z.div_lt_upper_bound; [lia|]. rewrite <- Z.pow_succ_r, <- Nat2Z.inj_succ by lia. lia.
Qed.

Lemma length_printint_buf xx base sgn :
  base = 10 \/ base = 16 -> (length (printint_buf xx base sgn) <= 11)%nat.
Proof.
  intros Hb. unfold printint_buf. rewrite length_app.
  assert (forall x, (length (printint_digits 32 (u32 x) base) <= 10)%nat) as H.
  { intros x. pose proof (u32_range x). apply length_printint_digits; [lia|].
    split; [lia|]. apply Z.lt_le_trans with (2 ^ 32); [lia|]. by destruct Hb as [-> | ->]. }
  pose proof (H (- xx)). pose proof (H xx).
  destruct (negb (sgn =? 0) && (xx <? 0)); cbn [length]; lia.
Qed.

(** printint of any int fits its buffer of 16 bytes, in both bases printf
    uses; what it prints of a non-negative int in decimal is read back by atoi
    as the same number, whatever follows it. *)
Lemma printint_atoi xx tl :
  (forall sgn, exists s, printint xx 10 sgn = Ok s) /\ (forall sgn, exists s, printint xx 16 sgn = Ok s) /\
  (0 <= xx <= INT_MAX -> head tl = Some 0 \/ tl = [] \/ head tl = Some 32 ->
   exists s, printint xx 10 1 = Ok s /\ atoi (s ++ tl) = xx).
Proof.
  assert (forall base sgn, base = 10 \/ base = 16 ->
    printint xx base sgn = Ok (rev (printint_buf xx base sgn))) as Hfit.
  { intros base sgn Hb. unfold printint. pose proof (length_printint_buf xx base sgn Hb).
    rewrite (proj2 (Nat.ltb_ge _ _)) by lia. done. }
  split; [intros; eexists; apply Hfit; lia|]. split; [intros; eexists; apply Hfit; lia|].
  intros Hx Htl. rewrite Hfit by lia. eexists. split; [done|]. unfold printint_buf, atoi, INT_MAX in *.
  rewrite (proj2 (Z.ltb_ge xx 0)) by lia. rewrite andb_false_r, app_nil_r, u32_small by lia.
  rewrite atoi_digits.
  - clear Hfit. destruct tl as [|c tl]; [done|].
    destruct Htl as [H|[H|H]]; [|done|]; by injection H as ->.
  - unfold INT_MAX. lia.
  - apply Z.le_lt_trans with (2 ^ 31 - 1); [lia|done].
Qed.

Lemma printint_atoi_witness : exists s, printint 1024 10 1 = Ok s /\ atoi (s ++ [32; 55]) = 1024.
Proof. apply (printint_atoi 1024 [32; 55]); [vm_compute; by split|by right; right]. Defined.
