(* ===== verification/Umalloc.v ===== *)
(** umalloc.c: the memory allocator of the user programs.

    Headers are words of the process's memory: a pointer to the next free block
    and a size in units of 8 bytes, the header included.  [brk] is the end of
    the process's memory; whether the kernel extends it is the parameter
    [grows].  The theorems show that the blocks handed out never overlap, that
    no operation touches a byte of a block in use, that memory is not lost and
    that the loops end. *)

From stdpp Require Import gmap sorting.
From S2P Require Import Prelude StringC.

Record heap := mkHeap { hm : mem; freep : Z; brk : Z }.

Abbreviation U := (M heap).

Definition sizeof_Header : Z := 8.

Section umalloc.
(** &base, and does sbrk(n) succeed at this size? *)
Context (base : Z) (grows : Z -> Z -> bool).

(** p->s.ptr and p->s.size *)
Definition hptr (p : Z) : U Z := gets (fun s => load32 (hm s) p).
Definition hsize (p : Z) : U Z := gets (fun s => load32 (hm s) (p + 4)).
Definition set_ptr (p v : Z) : U unit := modify (fun s => mkHeap (store32 (hm s) p v) (freep s) (brk s)).
Definition set_size (p v : Z) : U unit := modify (fun s => mkHeap (store32 (hm s) (p + 4) v) (freep s) (brk s)).
Definition set_freep (p : Z) : U unit := modify (fun s => mkHeap (hm s) p (brk s)).

(** p + n on headers *)
Definition hadd (p n : Z) : Z := u32 (p + sizeof_Header * n).

(** for(p = freep; !(bp > p && bp < p->s.ptr); p = p->s.ptr) *)
Fixpoint free_loop (fuel : nat) (bp p : Z) : U Z :=
  match fuel with
  | O => blocks "free"
  | S fuel =>
      q ← hptr p;
      if (p <? bp) && (bp <? q) then mret p
      else if (q <=? p) && ((p <? bp) || (bp <? q)) then mret p
      else free_loop fuel bp q
  end.

(** There are fewer free blocks than bytes. *)
Definition hfuel : U nat := gets (fun s => Z.to_nat (brk s)).

(** free: the block after bp. *)
Definition join_upper (bp q n : Z) : U unit :=
  if hadd bp n =? q then
    m ← hsize q;
    set_size bp (n + m);;
    r ← hptr q;
    set_ptr bp r
  else set_ptr bp q.

(** free: the block before it. *)
Definition join_lower (p bp : Z) : U unit :=
  k ← hsize p;
  if hadd p k =? bp then
    n ← hsize bp;
    set_size p (k + n);;
    r ← hptr bp;
    set_ptr p r
  else set_ptr p bp.

Definition free (ap : Z) : U unit :=
  let bp := u32 (ap - sizeof_Header) in
  fuel ← hfuel;
  p0 ← gets freep;
  p ← free_loop fuel bp p0;
  q ← hptr p;
  n ← hsize bp;
  join_upper bp q n;;
  join_lower p bp;;
  set_freep p.

(** The old end, or None for (char* ) -1. *)
Definition sbrk (n : Z) : U (option Z) :=
  s ← get;
  if grows (brk s) n then
    modify (fun s => mkHeap (hm s) (freep s) (u32 (brk s + n)));; mret (Some (brk s))
  else mret None.

Definition morecore (nu : Z) : U (option Z) :=
  let nu := if nu <? 4096 then 4096 else nu in
  p ← sbrk (s32 (u32 (nu * sizeof_Header)));
  match p with
  | None => mret None
  | Some p =>
      set_size p nu;;
      free (hadd p 1);;
      f ← gets freep;
      mret (Some f)
  end.

(** The part of malloc that takes the block, or the end of it. *)
Definition take_block (prevp p nunits : Z) : U Z :=
  n ← hsize p;
  p ← (if n =? nunits then r ← hptr p; set_ptr prevp r;; mret p
       else
         set_size p (n - nunits);;
         let p := hadd p (n - nunits) in
         set_size p nunits;; mret p);
  set_freep prevp;;
  mret (hadd p 1).

Fixpoint malloc_loop (fuel : nat) (nunits prevp p : Z) : U Z :=
  match fuel with
  | O => blocks "malloc"
  | S fuel =>
      n ← hsize p;
      if nunits <=? n then take_block prevp p nunits
      else
        f ← gets freep;
        if p =? f then
          r ← morecore nunits;
          match r with
          | None => mret 0
          | Some p => q ← hptr p; malloc_loop fuel nunits p q
          end
        else q ← hptr p; malloc_loop fuel nunits p q
  end.

Definition nunits_of (nbytes : Z) : Z := u32 (nbytes + sizeof_Header - 1) / sizeof_Header + 1.

Definition malloc (nbytes : Z) : U Z :=
  let nunits := nunits_of nbytes in
  fuel ← hfuel;
  f ← gets freep;
  prevp ← (if f =? 0 then set_freep base;; set_ptr base base;; set_size base 0;; mret base else mret f);
  p ← hptr prevp;
  malloc_loop fuel nunits prevp p.

(** * The heap *)

(** A block: its address and its size in units. *)
Abbreviation block := (Z * Z)%type.

Definition upto (b : block) : Z := b.1 + 8 * b.2.

(** The blocks in list order are linked in memory, the last to [e]. *)
Definition hd_addr (l : list block) (e : Z) : Z := match l with [] => e | b :: _ => b.1 end.

Fixpoint seg (m : mem) (l : list block) (e : Z) : Prop :=
  match l with
  | [] => True
  | b :: l => load32 m b.1 = hd_addr l e /\ load32 m (b.1 + 4) = b.2 /\ seg m l e
  end.

(** A gap between a block and the next. *)
Definition gap (b c : block) : Prop := upto b < c.1.
Definition apart (b c : block) : Prop := upto b <= c.1 \/ upto c <= b.1.

Definition in_heap (s : heap) (b : block) : Prop := base + 8 <= b.1 /\ 1 <= b.2 /\ upto b <= brk s.

(** [fr]: the free blocks after base; [al]: the blocks in use by address. *)
Record heap_ok (s : heap) (fr : list block) (al : gmap Z Z) : Prop := {
  ho_mem : byte_mem (hm s);
  ho_brk : 0 < base /\ base + 8 <= brk s <= 2 ^ 31;
  ho_seg : seg (hm s) ((base, 0) :: fr) base;
  ho_sorted : StronglySorted gap ((base, 0) :: fr);
  ho_free : Forall (in_heap s) fr;
  ho_freep : freep s ∈ ((base, 0) :: fr).*1;
  ho_used : forall a n, al !! a = Some n -> in_heap s (a, n) /\ load32 (hm s) (a + 4) = n /\ Forall (apart (a, n)) fr;
  ho_apart : forall a n b k, al !! a = Some n -> al !! b = Some k -> a <> b -> apart (a, n) (b, k) }.

(** The bytes of the blocks in use are as before. *)
Definition kept (al : gmap Z Z) (s t : heap) : Prop :=
  forall a n x, al !! a = Some n -> a <= x < a + 8 * n -> hm t x = hm s x.

Definition units (l : list block) : Z := foldr (fun b n => b.2 + n) 0 l.

(** * Lists in memory *)

Lemma seg_app m l l' e : seg m (l ++ l') e <-> seg m l (hd_addr l' e) /\ seg m l' e.
Proof.
  induction l as [|b l IH]; simpl; [tauto|]. rewrite IH.
  destruct l; simpl; tauto.
Qed.

Lemma seg_ext m m' l e :
  (forall b x, b ∈ l -> b.1 <= x < b.1 + 8 -> m' x = m x) -> seg m l e -> seg m' l e.
Proof.
  induction l as [|b l IH]; intros Hm; [done|]. simpl. intros (H1 & H2 & H3).
  assert (forall o, 0 <= o <= 4 -> load32 m' (b.1 + o) = load32 m (b.1 + o)) as E.
  { intros o Ho. apply load32_ext. intros x Hx. apply (Hm b); [left|lia]. }
  split; [|split].
  - rewrite <- H1. pose proof (E 0 ltac:(lia)) as E0. by rewrite !Z.add_0_r in E0.
  - rewrite <- H2. apply E. lia.
  - apply IH; [|done]. intros c x Hc. apply Hm. by right.
Qed.

Lemma seg_lookup m l b l' e :
  seg m (l ++ b :: l') e -> load32 m b.1 = hd_addr l' e /\ load32 m (b.1 + 4) = b.2.
Proof. rewrite seg_app. simpl. tauto. Qed.

Lemma units_app l l' : units (l ++ l') = units l + units l'.
Proof. unfold units. induction l as [|b l IH]; simpl in *; lia. Qed.

(** ** Where free inserts *)

(** [p] is the last free block below [bp]. *)
Record pred_of (s : heap) (l1 : list block) (p : block) (l2 : list block) (bp : Z) : Prop := {
  po_seg : seg (hm s) (l1 ++ p :: l2) base;
  po_sorted : StronglySorted gap (l1 ++ p :: l2);
  po_above : Forall (fun b => base <= b.1 /\ 0 <= b.2) (l1 ++ p :: l2);
  po_base : hd_addr (l1 ++ p :: l2) 0 = base;
  po_pred : p.1 < bp;
  po_succ : Forall (fun q => bp < q.1) l2 }.

(** What sortedness says of the parts of a list. *)
Lemma sorted_mid l1 (b : block) l2 :
  StronglySorted gap (l1 ++ b :: l2) ->
  (forall c, c ∈ l1 -> upto c < b.1) /\ (forall c, c ∈ l2 -> upto b < c.1).
Proof.
  intros Hs. split.
  - intros c Hc. exact (StronglySorted_app_1_elem_of gap l1 (b :: l2) c b Hs Hc ltac:(left)).
  - intros c Hc. apply StronglySorted_app_1_r in Hs. apply StronglySorted_inv in Hs as [_ Hf].
    rewrite Forall_forall in Hf. by apply Hf.
Qed.

Lemma elem_above (l : list block) b : Forall (fun b => base <= b.1 /\ 0 <= b.2) l -> b ∈ l -> base <= b.1 /\ 0 <= b.2.
Proof. rewrite Forall_forall. auto. Qed.

Lemma elem_mid {A} (l1 : list A) b l2 : b ∈ l1 ++ b :: l2.
Proof. apply elem_of_app. right. left. Qed.

(** One turn of the loop. *)
Lemma free_loop_step s p q bp fuel :
  load32 (hm s) p = q ->
  free_loop (S fuel) bp p s =
    if (p <? bp) && (bp <? q) then Ok (p, s)
    else if (q <=? p) && ((p <? bp) || (bp <? q)) then Ok (p, s)
    else free_loop fuel bp q s.
Proof.
  intros <-. cbn [free_loop]. unfold hptr. erewrite bind_Ok by reflexivity. by repeat case_match.
Qed.

Lemma free_loop_here s l1 p l2 bp fuel :
  pred_of s l1 p l2 bp -> free_loop (S fuel) bp p.1 s = Ok (p.1, s).
Proof.
  intros [Hseg _ Ha _ Hp Hs]. destruct (seg_lookup _ _ _ _ _ Hseg) as [E _].
  rewrite (free_loop_step _ _ _ _ _ E). destruct l2 as [|q l2]; simpl.
  - destruct (elem_above _ p Ha) as [Hb _]; [set_solver|].
    by rewrite (proj2 (Z.ltb_lt p.1 bp)), (proj2 (Z.ltb_ge bp base)), (proj2 (Z.leb_le base p.1)) by lia.
  - apply Forall_cons in Hs as [Hq _]. by rewrite (proj2 (Z.ltb_lt p.1 bp)), (proj2 (Z.ltb_lt bp q.1)) by lia.
Qed.

(** Below the place: on to the next block. *)
Lemma free_loop_before s la a lb p l2 bp fuel :
  pred_of s (la ++ a :: lb) p l2 bp -> (length lb + 2 <= fuel)%nat ->
  free_loop fuel bp a.1 s = Ok (p.1, s).
Proof.
  revert la a fuel. induction lb as [|c lb IH]; intros la a fuel Hpo Hf; (destruct fuel as [|fuel]; [simpl in Hf; lia|]).
  - pose proof Hpo as [Hseg Hso Ha Hb Hp Hs]. rewrite <- app_assoc in Hseg, Hso, Ha. simpl in Hseg, Hso, Ha.
    destruct (seg_lookup _ _ _ _ _ Hseg) as [E _]. simpl in E. rewrite (free_loop_step _ _ _ _ _ E).
    destruct (sorted_mid _ _ _ Hso) as [_ Hn]. specialize (Hn p ltac:(set_solver)). unfold upto in Hn.
    destruct (elem_above _ a Ha) as [_ Ha0]; [set_solver|].
    rewrite (proj2 (Z.ltb_ge bp p.1)), andb_false_r, (proj2 (Z.leb_gt p.1 a.1)) by lia. cbn [andb].
    destruct fuel as [|fuel]; [simpl in Hf; lia|]. by eapply free_loop_here.
  - pose proof Hpo as [Hseg Hso Ha Hb Hp Hs]. rewrite <- app_assoc in Hseg, Hso, Ha. simpl in Hseg, Hso, Ha.
    destruct (seg_lookup _ _ _ _ _ Hseg) as [E _]. simpl in E. rewrite (free_loop_step _ _ _ _ _ E).
    destruct (sorted_mid _ _ _ Hso) as [_ Hn]. specialize (Hn c ltac:(set_solver)). unfold upto in Hn.
    destruct (elem_above _ a Ha) as [_ Ha0]; [set_solver|].
    assert (c.1 < p.1) as Hcp.
    { assert (StronglySorted gap ((la ++ a :: c :: lb) ++ p :: l2)) as Hso' by by rewrite <- app_assoc.
      destruct (sorted_mid _ _ _ Hso') as [Hn' _]. specialize (Hn' c ltac:(set_solver)). unfold upto in Hn'.
      destruct (elem_above _ c Ha) as [_ Hc0]; [set_solver|]. lia. }
    rewrite (proj2 (Z.ltb_ge bp c.1)), andb_false_r, (proj2 (Z.leb_gt c.1 a.1)) by lia. cbn [andb].
    apply (IH (la ++ [a])); [|simpl in Hf; lia]. by rewrite <- app_assoc.
Qed.

(** From base. *)
Lemma free_loop_base s l1 p l2 bp fuel :
  pred_of s l1 p l2 bp -> (length l1 + 2 <= fuel)%nat -> free_loop fuel bp base s = Ok (p.1, s).
Proof.
  intros Hpo Hf. pose proof (po_base _ _ _ _ _ Hpo) as Hb. destruct l1 as [|b l1]; simpl in Hb; rewrite <- Hb.
  - destruct fuel; [simpl in Hf; lia|]. by eapply free_loop_here.
  - apply (free_loop_before s [] b l1 p l2); [done|simpl in Hf; lia].
Qed.

(** Above the place: to the end of the list and around. *)
Lemma free_loop_after s l1 p la a lb bp fuel :
  pred_of s l1 p (la ++ a :: lb) bp -> (length l1 + length lb + 3 <= fuel)%nat ->
  free_loop fuel bp a.1 s = Ok (p.1, s).
Proof.
  revert la a fuel. induction lb as [|c lb IH]; intros la a fuel Hpo Hf; (destruct fuel as [|fuel]; [simpl in Hf; lia|]).
  all: pose proof Hpo as [Hseg Hso Ha Hb Hp Hs].
  all: pose proof (proj1 (Forall_forall _ _) Hs a ltac:(set_solver)) as Hap; cbn beta in Hap.
  all: rewrite app_comm_cons, app_assoc in Hseg, Hso; destruct (seg_lookup _ _ _ _ _ Hseg) as [E _]; simpl in E;
    rewrite (free_loop_step _ _ _ _ _ E), (proj2 (Z.ltb_ge a.1 bp)) by lia; cbn [andb orb].
  - destruct (elem_above _ p Ha) as [Hpb _]; [set_solver|]. rewrite (proj2 (Z.ltb_ge bp base)), andb_false_r by lia.
    eapply free_loop_base; [done|simpl in Hf; lia].
  - destruct (sorted_mid _ _ _ Hso) as [_ Hn]. specialize (Hn c ltac:(set_solver)). unfold upto in Hn.
    destruct (elem_above _ a Ha) as [_ Ha0]; [set_solver|]. rewrite (proj2 (Z.leb_gt c.1 a.1)) by lia. cbn [andb].
    apply (IH (la ++ [a])); [|simpl in Hf; lia]. by rewrite <- app_assoc.
Qed.

Lemma split_below (l : list block) b bp :
  b.1 < bp -> StronglySorted gap (b :: l) -> Forall (fun c => c.1 <> bp /\ 0 <= c.2) l ->
  exists l1 p l2, b :: l = l1 ++ p :: l2 /\ p.1 < bp /\ Forall (fun q => bp < q.1) l2.
Proof.
  revert b. induction l as [|c l IH]; intros b Hb Hs Hl.
  - by exists [], b, [].
  - apply Forall_cons in Hl as [[Hc Hc0] Hl]. apply StronglySorted_inv in Hs as [Hs Hbc].
    destruct (decide (c.1 < bp)) as [Hlt|Hge].
    + destruct (IH c Hlt Hs Hl) as (l1 & p & l2 & E & Hp & Hl2). exists (b :: l1), p, l2. split; [simpl; by rewrite <- E|done].
    + exists [], b, (c :: l). split; [done|]. split; [done|]. constructor; [lia|].
      apply StronglySorted_inv in Hs as [_ Hcl]. eapply Forall_impl; [exact Hcl|]. unfold gap, upto. intros d Hd. simpl. lia.
Qed.

Lemma free_count l b e :
  StronglySorted gap (b :: l) -> Forall (fun c => 1 <= c.2 /\ upto c <= e) l -> upto b <= e ->
  upto b + 8 * Z.of_nat (length l) <= e.
Proof.
  revert b. induction l as [|c l IH]; intros b Hs Hl Hb; [simpl; lia|].
  apply Forall_cons in Hl as [[Hc Hce] Hl]. apply StronglySorted_inv in Hs as [Hs Hbc].
  apply Forall_cons in Hbc as [Hbc _]. specialize (IH c Hs Hl Hce). unfold gap, upto in *. cbn [length]. lia.
Qed.

Lemma heap_fuel s fr al :
  heap_ok s fr al -> base + 8 * Z.of_nat (length fr) <= brk s /\ (length fr + 4 <= Z.to_nat (brk s))%nat.
Proof.
  intros Hok. destruct (ho_brk _ _ _ Hok) as [Hb0 Hb].
  pose proof (free_count fr (base, 0) (brk s) (ho_sorted _ _ _ Hok)) as H. unfold upto at 2 3 in H. simpl in H.
  assert (base + 0 + 8 * Z.of_nat (length fr) <= brk s) as Hle.
  { apply H; [|lia]. eapply Forall_impl; [exact (ho_free _ _ _ Hok)|]. intros c (H1 & H2 & H3). done. }
  split; [lia|]. destruct (length fr); lia.
Qed.

Lemma heap_above s fr al : heap_ok s fr al -> Forall (fun b => base <= b.1 /\ 0 <= b.2) ((base, 0) :: fr).
Proof.
  intros Hok. constructor; [simpl; lia|]. eapply Forall_impl; [exact (ho_free _ _ _ Hok)|].
  intros c (H1 & H2 & H3). lia.
Qed.

(** The loop of free finds the place of the block. *)
Lemma free_loop_finds s fr al bp n :
  heap_ok s fr al -> al !! bp = Some n ->
  exists l1 p l2, (base, 0) :: fr = l1 ++ p :: l2 /\ pred_of s l1 p l2 bp /\
    free_loop (Z.to_nat (brk s)) bp (freep s) s = Ok (p.1, s).
Proof.
  intros Hok Hbp. destruct (ho_used _ _ _ Hok _ _ Hbp) as ((Hlo & Hn & Hhi) & _ & Hap). simpl in Hlo, Hn.
  destruct (split_below fr (base, 0) bp) as (l1 & p & l2 & E & Hp & Hl2).
  - simpl. lia.
  - apply Hok.
  - eapply Forall_impl; [exact (proj2 (Forall_and _ _) (conj Hap (ho_free _ _ _ Hok)))|]. intros c [H1 (H2 & H3 & H4)].
    unfold apart, upto in *. simpl in *. lia.
  - assert (pred_of s l1 p l2 bp) as Hpo.
    { split; rewrite <- ?E; [exact (ho_seg _ _ _ Hok)|exact (ho_sorted _ _ _ Hok)|by eapply heap_above|done..]. }
    exists l1, p, l2. split; [done|]. split; [done|]. destruct (heap_fuel _ _ _ Hok) as [_ Hf].
    assert (S (length fr) = length l1 + S (length l2))%nat as Hlen.
    { change (S (length fr)) with (length ((base, 0) :: fr)). rewrite E, length_app. done. }
    pose proof (ho_freep _ _ _ Hok) as Hfp. rewrite E in Hfp. apply list_elem_of_fmap in Hfp as (b & -> & Hb).
    apply elem_of_app in Hb as [Hb|[->|Hb]%elem_of_cons].
    + apply list_elem_of_split in Hb as (la & lb & ->). eapply free_loop_before; [done|]. rewrite length_app in Hlen. simpl in Hlen. lia.
    + destruct (Z.to_nat (brk s)); [lia|]. by eapply free_loop_here.
    + apply list_elem_of_split in Hb as (la & lb & ->). eapply free_loop_after; [done|]. rewrite length_app in Hlen. simpl in Hlen. lia.
Qed.

(** ** Headers *)

(** Only the header at [h] is written. *)
Definition only (h : Z) (m m' : mem) : Prop :=
  byte_mem m' /\ forall x, ~ h <= x < h + 8 -> m' x = m x.

Lemma only_store h o m v : byte_mem m -> 0 <= o <= 4 -> only h m (store32 m (h + o) v).
Proof.
  intros Hm Ho. split; [by apply store32_byte_mem|]. intros x Hx. rewrite store32_byte.
  case_match; [bools; lia|done].
Qed.

Lemma only_store0 h m v : byte_mem m -> only h m (store32 m h v).
Proof. intros Hm. pose proof (only_store h 0 m v Hm ltac:(lia)) as Ho. by rewrite Z.add_0_r in Ho. Qed.

Lemma only_trans h m m' m'' : only h m m' -> only h m' m'' -> only h m m''.
Proof. intros [_ H1] [Hb H2]. split; [done|]. intros x Hx. by rewrite H2, H1. Qed.

(** p->s.size = n; p->s.ptr = q; *)
Lemma set_header h m n q (m' := store32 (store32 m (h + 4) n) h q) :
  byte_mem m -> 0 <= n < 2 ^ 32 -> 0 <= q < 2 ^ 32 ->
  only h m m' /\ load32 m' h = q /\ load32 m' (h + 4) = n.
Proof.
  intros Hm Hn Hq. unfold m'. split; [|split].
  - eapply only_trans; [apply (only_store h 4); [done|lia]|]. by apply only_store0, store32_byte_mem.
  - by rewrite load32_store32, u32_small.
  - rewrite load32_store32_ne by lia. by rewrite load32_store32, u32_small.
Qed.

Lemma set_link h m q :
  byte_mem m -> 0 <= q < 2 ^ 32 ->
  only h m (store32 m h q) /\ load32 (store32 m h q) h = q /\
  load32 (store32 m h q) (h + 4) = load32 m (h + 4).
Proof.
  intros Hm Hq. split; [|split].
  - by apply only_store0.
  - by rewrite load32_store32, u32_small.
  - rewrite load32_store32_ne by lia. done.
Qed.

(** A list away from the header is as before. *)
Lemma seg_only h m m' l e :
  only h m m' -> Forall (fun b => b.1 + 8 <= h \/ h + 8 <= b.1) l -> seg m l e -> seg m' l e.
Proof.
  intros [_ Hm] Hl. apply seg_ext. intros b x Hb Hx. apply Hm.
  rewrite Forall_forall in Hl. specialize (Hl b Hb). lia.
Qed.

Lemma seg_end m l b e e' :
  seg m (l ++ [b]) e -> load32 m b.1 = e' -> seg m (l ++ [b]) e'.
Proof. rewrite !seg_app. simpl. intros (H1 & H2 & H3 & _) H. done. Qed.

Lemma join_upper_spec s bp n l2 :
  byte_mem (hm s) -> seg (hm s) l2 base -> base < bp -> 1 <= n -> bp + 8 * n <= 2 ^ 31 -> 0 < base ->
  load32 (hm s) (bp + 4) = n ->
  Forall (fun q => bp + 8 * n <= q.1 /\ 1 <= q.2 /\ upto q <= 2 ^ 31) l2 ->
  exists m n' l2', join_upper bp (hd_addr l2 base) n s = Ok (tt, mkHeap m (freep s) (brk s)) /\
    only bp (hm s) m /\ load32 m bp = hd_addr l2' base /\ load32 m (bp + 4) = n' /\
    (n' = n /\ l2' = l2 /\ bp + 8 * n <> hd_addr l2 base \/
     exists q, l2 = q :: l2' /\ n' = n + q.2 /\ bp + 8 * n = q.1).
Proof.
  intros Hm Hseg Hb Hn Hhi Hb0 Hsz Hl2. unfold join_upper, hadd, sizeof_Header.
  rewrite u32_small by lia. destruct (Z.eqb_spec (bp + 8 * n) (hd_addr l2 base)) as [E|E].
  - destruct l2 as [|q l2']; [simpl in E; lia|]. simpl in E. destruct Hseg as (Hq1 & Hq2 & _).
    apply Forall_cons in Hl2 as [(Hq3 & Hq4 & Hq5) Hl2]. unfold upto in Hq5.
    assert (0 <= hd_addr l2' base < 2 ^ 32) as Hr.
    { destruct l2' as [|r l2']; simpl; [lia|]. apply Forall_cons in Hl2 as [(H1 & H2 & H3) _]. unfold upto in H3. lia. }
    destruct (set_header bp (hm s) (n + q.2) (hd_addr l2' base)) as (Ho & Hp & Hs); [done|lia|done|].
    eexists _, (n + q.2), l2'. split.
    + unfold hsize, hptr, set_size, set_ptr. do 3 erewrite bind_Ok by reflexivity. simpl.
      rewrite Hq2, load32_store32_ne, Hq1 by lia. reflexivity.
    + split; [done|]. split; [done|]. split; [done|]. right. by exists q.
  - assert (0 <= hd_addr l2 base < 2 ^ 32) as Hr.
    { destruct l2 as [|r l2']; simpl; [lia|]. apply Forall_cons in Hl2 as [(H1 & H2 & H3) _]. unfold upto in H3. lia. }
    destruct (set_link bp (hm s) (hd_addr l2 base)) as (Ho & Hp & Hs); [done..|].
    eexists _, n, l2. split; [reflexivity|]. split; [done|]. split; [done|]. split; [congruence|]. by left.
Qed.

Lemma join_lower_spec s p bp n r :
  byte_mem (hm s) -> load32 (hm s) bp = r -> load32 (hm s) (bp + 4) = n -> load32 (hm s) (p.1 + 4) = p.2 ->
  0 <= p.1 -> p.1 + 8 <= bp -> 0 <= p.2 -> upto p <= bp -> bp + 8 * n <= 2 ^ 31 -> 1 <= n -> 0 <= r < 2 ^ 32 ->
  exists m, join_lower p.1 bp s = Ok (tt, mkHeap m (freep s) (brk s)) /\ only p.1 (hm s) m /\
    (upto p = bp /\ load32 m p.1 = r /\ load32 m (p.1 + 4) = p.2 + n \/
     upto p < bp /\ load32 m p.1 = bp /\ load32 m (p.1 + 4) = p.2).
Proof.
  intros Hm Hr Hn Hk Hp0 Hp Hk0 Hup Hhi Hn1 Hr2. unfold join_lower, hadd, sizeof_Header, hsize.
  erewrite bind_Ok by reflexivity. rewrite Hk. unfold upto in *. rewrite u32_small by lia.
  destruct (Z.eqb_spec (p.1 + 8 * p.2) bp) as [E|E].
  - destruct (set_header p.1 (hm s) (p.2 + n) r) as (Ho & Hq & Hs); [done|lia|done|].
    eexists. split.
    + unfold hptr, set_size, set_ptr. do 3 erewrite bind_Ok by reflexivity. simpl.
      rewrite Hn, load32_store32_ne, Hr by lia. reflexivity.
    + split; [done|]. by left.
  - destruct (set_link p.1 (hm s) bp) as (Ho & Hq & Hs); [done|lia|].
    eexists. split; [reflexivity|]. split; [done|]. right. split; [lia|]. split; [done|congruence].
Qed.

(** ** The list with the block in it *)

Definition joined (l1 : list block) (p : block) (bp n : Z) (l2 : list block) : list block :=
  if upto p =? bp then l1 ++ (p.1, p.2 + n) :: l2 else l1 ++ p :: (bp, n) :: l2.

Lemma sorted_intro l1 (b : block) l2 :
  StronglySorted gap l1 -> (forall c, c ∈ l1 -> upto c < b.1) -> 0 <= b.2 ->
  StronglySorted gap l2 -> Forall (fun c => upto b < c.1) l2 -> StronglySorted gap (l1 ++ b :: l2).
Proof.
  intros H1 Hb Hb0 H2 Hl2. apply StronglySorted_app. split; [|split; [done|by constructor]].
  intros x y Hx [->|Hy]%elem_of_cons; [by apply Hb|]. specialize (Hb x Hx). rewrite Forall_forall in Hl2.
  specialize (Hl2 y Hy). unfold gap, upto in *. lia.
Qed.

Lemma joined_sorted l1 p bp n l2 l2' :
  StronglySorted gap (l1 ++ p :: l2) -> 0 <= p.2 -> upto p <= bp -> 1 <= n ->
  StronglySorted gap l2' -> Forall (fun c => bp + 8 * n < c.1) l2' ->
  StronglySorted gap (joined l1 p bp n l2').
Proof.
  intros Hs Hp0 Hp Hn Hs2 Hl2. destruct (sorted_mid _ _ _ Hs) as [H1 _].
  pose proof (StronglySorted_app_1_l _ _ _ Hs) as Hs1. unfold joined. destruct (Z.eqb_spec (upto p) bp) as [E|E].
  - apply sorted_intro; try done; [simpl; lia|]. eapply Forall_impl; [exact Hl2|]. unfold upto in *. simpl. lia.
  - apply sorted_intro; try done.
    + constructor; [done|]. eapply Forall_impl; [exact Hl2|]. done.
    + constructor; [simpl; lia|]. eapply Forall_impl; [exact Hl2|]. unfold upto in *. simpl. lia.
Qed.

Lemma joined_units l1 p bp n l2 : units (joined l1 p bp n l2) = units l1 + p.2 + n + units l2.
Proof. unfold joined. case_match; rewrite !units_app; simpl; lia. Qed.

(** What holds of blocks and of two blocks that touch holds in the joined list. *)
Lemma joined_forall (P : block -> Prop) l1 p bp n l2 :
  (forall a k j, P (a, k) -> P (a + 8 * k, j) -> P (a, k + j)) ->
  Forall P (l1 ++ [p]) -> P (bp, n) -> Forall P l2 -> Forall P (joined l1 p bp n l2).
Proof.
  intros HP Hl Hb Hl2. apply Forall_app in Hl as [Hl1 Hp]. apply Forall_cons in Hp as [Hp _]. unfold joined.
  destruct (Z.eqb_spec (upto p) bp) as [E|E]; apply Forall_app; (split; [done|]).
  - constructor; [|done]. destruct p as [a k]. apply HP; [done|]. unfold upto in E. simpl in *. by subst.
  - by constructor; [|constructor].
Qed.

(** * free *)

Lemma apart_sym b c : apart b c -> apart c b.
Proof. unfold apart. tauto. Qed.

(** A block in use is away from the header of any free block, and of base. *)
Lemma header_apart s fr al a n p x :
  heap_ok s fr al -> al !! a = Some n -> p ∈ (base, 0) :: fr -> a <= x < a + 8 * n -> ~ p.1 <= x < p.1 + 8.
Proof.
  intros Hok Ha [->|Hp]%elem_of_cons Hx; destruct (ho_used _ _ _ Hok _ _ Ha) as ((Hlo & _ & _) & _ & Hap); simpl in *; [lia|].
  rewrite Forall_forall in Hap. specialize (Hap p Hp). pose proof (ho_free _ _ _ Hok) as Hfr.
  rewrite Forall_forall in Hfr. destruct (Hfr p Hp) as (_ & H1 & _). unfold apart, upto in Hap. simpl in Hap. lia.
Qed.

(** The list l1 ++ [p] is base and free blocks below bp. *)
Lemma free_parts s fr al l1 p l2 bp n :
  heap_ok s fr al -> al !! bp = Some n -> (base, 0) :: fr = l1 ++ p :: l2 -> p.1 < bp ->
  Forall (fun q => bp < q.1) l2 ->
  0 <= p.2 /\ upto p <= bp /\ p.1 + 8 <= bp /\
  Forall (fun q => bp + 8 * n <= q.1 /\ in_heap s q) l2 /\
  Forall (fun b => b.1 + 8 <= p.1) l1 /\ (forall b, b ∈ l2 -> p.1 + 8 <= b.1).
Proof.
  intros Hok Hbp E Hp Hl2. destruct (ho_used _ _ _ Hok _ _ Hbp) as ((Hlo & Hn & Hhi) & _ & Hap). simpl in Hlo, Hn.
  assert (forall b, b ∈ (base, 0) :: fr -> b = (base, 0) \/ in_heap s b /\ apart (bp, n) b) as Hel.
  { intros b [->|Hb]%elem_of_cons; [by left|right]. pose proof (ho_free _ _ _ Hok) as Hfr.
    rewrite Forall_forall in Hfr, Hap. by split; [apply Hfr|apply Hap]. }
  pose proof (ho_sorted _ _ _ Hok) as Hso. rewrite E in Hso, Hel. destruct (sorted_mid _ _ _ Hso) as [Hs1 Hs2].
  assert (p.1 + 8 <= bp /\ 0 <= p.2 /\ upto p <= bp) as (Hp8 & Hp0 & Hpu).
  { destruct (Hel p ltac:(set_solver)) as [->|[(H1 & H2 & H3) H4]]; unfold apart, upto in *; simpl in *; lia. }
  split_and!; try done.
  - apply Forall_forall. intros q Hq. rewrite Forall_forall in Hl2. specialize (Hl2 q Hq).
    destruct (Hel q ltac:(set_solver)) as [->|[H1 H4]]; [simpl in *; lia|]. split; [|done].
    destruct H1 as (_ & H1 & _). unfold apart, upto in H4. simpl in H4. lia.
  - apply Forall_forall. intros b Hb. specialize (Hs1 b Hb). unfold upto in Hs1.
    destruct (Hel b ltac:(set_solver)) as [->|[(H1 & H2 & H3) H4]]; simpl in *; [|lia].
    destruct (Hel p ltac:(set_solver)) as [->|[(H1 & H2 & H3) H4]]; simpl in *; lia.
  - intros b Hb. specialize (Hs2 b Hb). rewrite Forall_forall in Hl2. specialize (Hl2 b Hb). cbn beta in Hl2. unfold upto in Hs2. lia.
Qed.

Lemma upper_gap s bp n n' l2 l2' :
  StronglySorted gap l2 -> Forall (fun q => bp + 8 * n <= q.1 /\ in_heap s q) l2 ->
  (n' = n /\ l2' = l2 /\ bp + 8 * n <> hd_addr l2 base \/
     exists q, l2 = q :: l2' /\ n' = n + q.2 /\ bp + 8 * n = q.1) ->
  StronglySorted gap l2' /\ Forall (fun c => bp + 8 * n' < c.1) l2' /\ n <= n' /\
  n + units l2 = n' + units l2' /\ Forall (in_heap s) l2' /\ (forall b, b ∈ l2' -> b ∈ l2) /\
  (bp + 8 * n <= brk s -> bp + 8 * n' <= brk s) /\ (length l2' <= length l2)%nat.
Proof.
  intros Hs Hl2 [(-> & -> & Hne)|(q & -> & -> & E)].
  - split; [done|]. split; [|split_and!; try done; try lia; eapply Forall_impl; [exact Hl2|by intros ? [_ ?]]].
    destruct l2 as [|q l2]; [constructor|]. simpl in Hne. apply Forall_cons in Hl2 as [[Hq (_ & Hq1 & _)] Hl2].
    apply StronglySorted_inv in Hs as [_ Hg]. constructor; [lia|]. eapply Forall_impl; [exact Hg|].
    unfold gap, upto. intros c Hc. simpl. lia.
  - apply Forall_cons in Hl2 as [[Hq (_ & Hq1 & Hq2)] Hl2]. apply StronglySorted_inv in Hs as [Hs Hg]. unfold upto in Hq2.
    split; [done|]. split; [|split_and!; try lia; [simpl; lia|eapply Forall_impl; [exact Hl2|by intros ? [_ ?]]|by right|simpl; lia]].
    eapply Forall_impl; [exact Hg|]. unfold gap, upto. intros c Hc. simpl. lia.
Qed.

(** The joined list in memory. *)
Lemma joined_seg m l1 p bp n l2 e :
  seg m l1 p.1 -> seg m l2 e -> load32 m bp = hd_addr l2 e -> load32 m (bp + 4) = n ->
  (upto p = bp /\ load32 m p.1 = hd_addr l2 e /\ load32 m (p.1 + 4) = p.2 + n \/
   upto p < bp /\ load32 m p.1 = bp /\ load32 m (p.1 + 4) = p.2) ->
  seg m (joined l1 p bp n l2) e.
Proof.
  intros H1 H2 Hb Hn [(E & Hp & Hk)|(E & Hp & Hk)]; unfold joined.
  - rewrite (proj2 (Z.eqb_eq _ _) E), seg_app. done.
  - rewrite (proj2 (Z.eqb_neq (upto p) bp)), seg_app by lia. done.
Qed.

Lemma joined_tail fr l1 p l2 bp n l2' :
  (base, 0) :: fr = l1 ++ p :: l2 -> base < bp ->
  exists fr', joined l1 p bp n l2' = (base, 0) :: fr' /\
    (forall P : block -> Prop, (forall a k j, P (a, k) -> P (a + 8 * k, j) -> P (a, k + j)) ->
       Forall P fr -> P (bp, n) -> Forall P l2' -> Forall P fr') /\
    units fr' = units fr - units l2 + n + units l2' /\
    (0 <= p.2 -> Exists (fun b => n <= b.2) fr') /\
    (length fr' + length l2 <= S (length fr) + length l2')%nat.
Proof.
  intros E Hb. destruct l1 as [|b l1]; simpl in E; injection E as <- ->.
  - exists ((bp, n) :: l2'). unfold joined, upto. rewrite (proj2 (Z.eqb_neq _ _)) by (simpl; lia). split; [done|].
    split; [intros P _ _ HP HF; by constructor|]. split; [simpl; lia|]. split; [intros _; by left|simpl; lia].
  - exists (joined l1 p bp n l2'). split; [unfold joined; by case_match|]. split; [|split; [|split]].
    + intros P HPj HP Hbp Hl2. apply joined_forall; try done. apply Forall_app in HP as [H1 H2].
      apply Forall_app. split; [done|]. apply Forall_cons in H2 as [H2 _]. by constructor.
    + rewrite joined_units, units_app. simpl. lia.
    + intros Hp0. unfold joined. case_match; apply Exists_app; right; [left; simpl; lia|right; by left].
    + unfold joined. case_match; rewrite !length_app; simpl; lia.
Qed.

Lemma load32_only h m m' a : only h m m' -> a + 4 <= h \/ h + 8 <= a -> load32 m' a = load32 m a.
Proof. intros [_ Hm] Ha. apply load32_ext. intros x Hx. apply Hm. lia. Qed.

(** What holds of the free blocks and of a block that is freed holds of the new
    list, when two blocks that touch can be joined. *)
Definition made_of (fr : list block) (b : block) (fr' : list block) : Prop :=
  forall P : block -> Prop, (forall a k j, P (a, k) -> P (a + 8 * k, j) -> P (a, k + j)) ->
    Forall P fr -> P b -> Forall P fr'.

Lemma heap_ok_give s t fr fr' al bp n :
  heap_ok s fr al -> al !! bp = Some n -> brk t = brk s -> byte_mem (hm t) ->
  seg (hm t) ((base, 0) :: fr') base -> StronglySorted gap ((base, 0) :: fr') ->
  freep t ∈ ((base, 0) :: fr').*1 -> kept (delete bp al) s t -> made_of fr (bp, n) fr' ->
  heap_ok t fr' (delete bp al).
Proof.
  intros Hok Hbp Hb Hm Hseg Hso Hfp Hk HP. pose proof (ho_used _ _ _ Hok _ _ Hbp) as (Hih & _ & _).
  split; try done.
  - rewrite Hb. apply Hok.
  - apply HP; [|eapply Forall_impl; [exact (ho_free _ _ _ Hok)|]|]; unfold in_heap, upto in *; rewrite Hb; simpl in *; [lia|done|lia].
  - intros a k [Hne Ha]%lookup_delete_Some. destruct (ho_used _ _ _ Hok _ _ Ha) as (Hih' & Hsz' & Hap').
    pose proof Hih' as (_ & Hk1 & _). simpl in Hk1. split; [unfold in_heap; by rewrite Hb|]. split.
    + rewrite <- Hsz'. apply load32_ext. intros x Hx. apply (Hk a k); [|lia]. by apply lookup_delete_Some.
    + apply HP; [unfold apart, upto; simpl; lia|done|]. by apply apart_sym, (ho_apart _ _ _ Hok).
  - intros a k b j [_ Ha]%lookup_delete_Some [_ Hb']%lookup_delete_Some. by apply (ho_apart _ _ _ Hok).
Qed.

(** The list of the stores of free. *)
Lemma free_list fr l1 p l2 bp n n' l2' :
  (base, 0) :: fr = l1 ++ p :: l2 -> base < bp -> 0 <= p.2 -> n <= n' -> n + units l2 = n' + units l2' ->
  (forall b, b ∈ l2' -> b ∈ l2) -> (length l2' <= length l2)%nat ->
  (n' = n \/ exists q, q ∈ l2 /\ n' = n + q.2 /\ bp + 8 * n = q.1) ->
  exists fr', joined l1 p bp n' l2' = (base, 0) :: fr' /\ made_of fr (bp, n) fr' /\
    units fr' = units fr + n /\ Exists (fun b => n <= b.2) fr' /\ (length fr' <= S (length fr))%nat.
Proof.
  intros E Hb Hp Hn Hu Hsub Hlen Hcase.
  destruct (joined_tail fr l1 p l2 bp n' l2' E) as (fr' & Ej & HP & Hu' & Hex & Hlen'); [lia|].
  assert (forall b, b ∈ l2 -> b ∈ fr) as Hl2fr.
  { intros b Hb2. destruct l1; simpl in E; injection E as _ ->; [done|]. apply elem_of_app. right. by right. }
  exists fr'. split_and!; [done| |lia| |lia].
  - intros P HPj Hfr Hbn. pose proof (proj1 (Forall_forall _ _) Hfr) as Hfr'. apply HP; try done.
    + destruct Hcase as [->|([q k] & Hq & -> & Eq)]; [done|]. simpl in *. subst q. by apply HPj, Hfr', Hl2fr.
    + apply Forall_forall. intros b Hb2. by apply Hfr', Hl2fr, Hsub.
  - eapply Exists_impl; [by apply Hex|]. simpl. lia.
Qed.

Lemma free_seg m m1 m2 l1 p bp n n' l2 l2' :
  seg m (l1 ++ p :: l2) base -> only bp m m1 -> only p.1 m1 m2 -> p.1 + 8 <= bp ->
  Forall (fun b => b.1 + 8 <= p.1) l1 -> Forall (fun c => bp + 8 * n' < c.1) l2' -> 1 <= n' ->
  load32 m1 bp = hd_addr l2' base -> load32 m1 (bp + 4) = n' ->
  (n' = n /\ l2' = l2 /\ bp + 8 * n <> hd_addr l2 base \/ exists q, l2 = q :: l2' /\ n' = n + q.2 /\ bp + 8 * n = q.1) ->
  (upto p = bp /\ load32 m2 p.1 = hd_addr l2' base /\ load32 m2 (p.1 + 4) = p.2 + n' \/
   upto p < bp /\ load32 m2 p.1 = bp /\ load32 m2 (p.1 + 4) = p.2) ->
  seg m2 (joined l1 p bp n' l2') base.
Proof.
  rewrite seg_app. simpl. intros (Hseg1 & _ & _ & Hseg2) Ho1 Ho2 Hp8 Hl1 Hl2 Hn' Hb1 Hb2 Hcase Hcase2.
  assert (forall l e, Forall (fun b => b.1 + 8 <= p.1 \/ bp + 8 <= b.1) l -> seg m l e -> seg m2 l e) as Hboth.
  { intros l e Hl Hs. apply (seg_only p.1 m1); [done|eapply Forall_impl; [exact Hl|simpl; lia]|].
    apply (seg_only bp m); [done|eapply Forall_impl; [exact Hl|simpl; lia]|done]. }
  apply joined_seg; try done.
  - apply Hboth; [|done]. eapply Forall_impl; [exact Hl1|simpl; lia].
  - apply Hboth; [eapply Forall_impl; [exact Hl2|simpl; lia]|].
    destruct Hcase as [(_ & -> & _)|(q & -> & _)]; [done|apply Hseg2].
  - by rewrite (load32_only p.1 m1) by (done || lia).
  - by rewrite (load32_only p.1 m1) by (done || lia).
Qed.

Lemma wp_free s fr al bp n (Q : unit -> heap -> Prop) :
  heap_ok s fr al -> al !! bp = Some n ->
  (forall t fr', heap_ok t fr' (delete bp al) -> brk t = brk s -> kept (delete bp al) s t ->
     units fr' = units fr + n -> Exists (fun b => n <= b.2) fr' -> (length fr' <= S (length fr))%nat -> Q tt t) ->
  wp (free (bp + 8)) s Q.
Proof.
  intros Hok Hbp HQ.
  destruct (ho_used _ _ _ Hok _ _ Hbp) as ((Hlo & Hn & Hhi) & Hsz & _). unfold upto in Hhi. simpl in Hlo, Hn, Hhi.
  destruct (ho_brk _ _ _ Hok) as [Hb0 Hbrk].
  destruct (free_loop_finds s fr al bp n Hok Hbp) as (l1 & p & l2 & E & Hpo & Hloop).
  pose proof Hpo as [Hseg Hso Hab Hhd Hp Hl2].
  destruct (free_parts s fr al l1 p l2 bp n) as (Hp0 & Hpu & Hp8 & Hl2' & Hl1 & Hl2p); try done.
  pose proof (proj1 (seg_app _ _ _ _) Hseg) as [_ (Hpp & Hpk & Hseg2)].
  destruct (join_upper_spec s bp n l2) as (m1 & n' & l2' & Hup & Ho1 & Hb1 & Hb2 & Hcase); try done; try lia; [apply Hok| |].
  { eapply Forall_impl; [exact Hl2'|]. intros q [H1 (H2 & H3 & H4)]. lia. }
  destruct (upper_gap s bp n n' l2 l2') as (Hs2' & Hg2' & Hnn' & Hun & Hih & Hsub & Hbrk' & Hlen2); try done.
  { apply StronglySorted_app_1_r, StronglySorted_inv in Hso. tauto. }
  specialize (Hbrk' Hhi). set (s1 := mkHeap m1 (freep s) (brk s)) in *.
  destruct (join_lower_spec s1 p bp n' (hd_addr l2' base)) as (m2 & Hlow & Ho2 & Hcase2); try done; try lia; [apply Ho1| | | |].
  { simpl. rewrite (load32_only bp (hm s)) by (done || lia). done. }
  { apply (elem_above _ p) in Hab; [lia|apply elem_mid]. }
  { destruct l2' as [|r l]; simpl; [lia|]. apply Forall_cons in Hih as [(H1 & H2 & H3) _]. unfold upto in H3. lia. }
  destruct (free_list fr l1 p l2 bp n n' l2' E) as (fr' & Ej & HP & Hu & Hex & Hlen'); try done; try lia.
  { destruct Hcase as [(-> & _)|(q & -> & Hq)]; [by left|right]. exists q. split; [left|done]. }
  unfold free. unfold hfuel. do 2 (apply wp_bind, wp_gets).
  replace (u32 (bp + 8 - sizeof_Header)) with bp by (unfold sizeof_Header; rewrite u32_small; lia).
  apply wp_bind. eapply wp_run; [exact Hloop|]. do 2 (apply wp_bind, wp_gets). rewrite Hpp, Hsz.
  apply wp_bind. eapply wp_run; [exact Hup|]. apply wp_bind. eapply wp_run; [exact Hlow|]. apply wp_modify. simpl.
  assert (kept (delete bp al) s (mkHeap m2 p.1 (brk s))) as Hkept.
  { intros a k x [Hne Ha]%lookup_delete_Some Hx. simpl. rewrite (proj2 Ho2), (proj2 Ho1); [done| |].
    - pose proof (ho_apart _ _ _ Hok bp n a k Hbp Ha Hne) as Hapt. unfold apart, upto in Hapt. simpl in Hapt. lia.
    - apply (header_apart s fr al a k p x); try done. rewrite E. apply elem_mid. }
  apply (HQ _ fr'); try done. eapply (heap_ok_give s _ fr); try done; cbn [hm freep brk]; [apply Ho2|..]; rewrite <- Ej.
  - eapply free_seg; try done. lia.
  - apply (joined_sorted l1 p bp n' l2); try done. lia.
  - unfold joined. case_match; rewrite fmap_app; apply elem_mid.
Qed.

(** * malloc *)

Lemma sorted_swap l1 (p p' : block) l2 :
  StronglySorted gap (l1 ++ p :: l2) -> p'.1 = p.1 -> upto p' <= upto p -> 0 <= p'.2 ->
  StronglySorted gap (l1 ++ p' :: l2).
Proof.
  intros Hs E Hu H0. destruct (sorted_mid _ _ _ Hs) as [H1 H2]. apply sorted_intro.
  - by eapply StronglySorted_app_1_l.
  - intros c Hc. rewrite E. by apply H1.
  - done.
  - apply StronglySorted_app_1_r, StronglySorted_inv in Hs. tauto.
  - apply Forall_forall. intros c Hc. specialize (H2 c Hc). lia.
Qed.

Lemma sorted_drop l1 (p : block) l2 : StronglySorted gap (l1 ++ p :: l2) -> StronglySorted gap (l1 ++ l2).
Proof.
  rewrite !StronglySorted_app. intros (H1 & H2 & H3). apply StronglySorted_inv in H3 as [H3 _].
  split; [|done]. intros x y Hx Hy. apply H1; [done|by right].
Qed.

(** A new block in use, cut from the range of a free one. *)
Lemma heap_ok_take s t fr fr' al a n p :
  heap_ok s fr al -> p ∈ fr -> byte_mem (hm t) -> brk t = brk s ->
  seg (hm t) ((base, 0) :: fr') base -> StronglySorted gap ((base, 0) :: fr') -> freep t ∈ ((base, 0) :: fr').*1 ->
  Forall (fun b => (b ∈ fr \/ b.1 = p.1 /\ b.2 <= p.2 /\ 1 <= b.2) /\ apart (a, n) b) fr' ->
  p.1 <= a -> 1 <= n -> a + 8 * n <= upto p ->
  load32 (hm t) (a + 4) = n -> kept al s t ->
  al !! a = None /\ heap_ok t fr' (<[a := n]> al).
Proof.
  intros Hok Hp Hm Hb Hseg Hso Hfp Hfr Ha Hn Hu Hsz Hk.
  pose proof (ho_free _ _ _ Hok) as Hih. rewrite Forall_forall in Hih. destruct (Hih p Hp) as (Hp1 & Hp2 & Hp3).
  assert (forall b k, al !! b = Some k -> apart (b, k) p /\ 1 <= k) as Hused.
  { intros b k Hbk. destruct (ho_used _ _ _ Hok _ _ Hbk) as ((_ & Hk1 & _) & _ & Hap).
    rewrite Forall_forall in Hap. by split; [apply Hap|]. }
  assert (al !! a = None) as Hnone.
  { destruct (al !! a) as [k|] eqn:Eak; [|done]. destruct (Hused _ _ Eak) as [H1 H2]. unfold apart, upto in *. simpl in *. lia. }
  split; [done|]. unfold upto in *. split; rewrite ?Hb; try done.
  - apply Hok.
  - eapply Forall_impl; [exact Hfr|]. unfold in_heap, upto. rewrite Hb. intros b [[H1|(E & H1 & H2)] _]; [by apply Hih|lia].
  - intros b k [[<- <-]|[Hne Hbk]]%lookup_insert_Some.
    + unfold in_heap, upto. rewrite Hb. simpl. split; [lia|]. split; [done|]. eapply Forall_impl; [exact Hfr|]. by intros c [_ ?].
    + destruct (ho_used _ _ _ Hok _ _ Hbk) as (Hih' & Hsz' & Hap). split; [unfold in_heap in *; by rewrite Hb|]. split.
      * rewrite <- Hsz'. apply load32_ext. intros x Hx. destruct Hih' as (_ & Hk1 & _). simpl in Hk1. apply (Hk b k); [done|lia].
      * apply Forall_forall. intros c Hc. rewrite Forall_forall in Hfr, Hap. destruct (Hfr c Hc) as [[H1|(E & H1 & H2)] _]; [by apply Hap|].
        destruct (Hused _ _ Hbk) as [H3 H4]. unfold apart, upto in *. simpl in *. lia.
  - intros b k c j Hbk Hcj Hne. rewrite lookup_insert_Some in Hbk, Hcj.
    destruct Hbk as [[<- <-]|[H1 Hbk]], Hcj as [[<- <-]|[H2 Hcj]]; [done| | |by apply (ho_apart _ _ _ Hok)].
    + destruct (Hused _ _ Hcj) as [H3 H4]. unfold apart, upto in *. simpl in *. lia.
    + destruct (Hused _ _ Hbk) as [H3 H4]. unfold apart, upto in *. simpl in *. lia.
Qed.

(** The headers of the list do not overlap. *)
Lemma list_headers s fr al l1 b l2 :
  heap_ok s fr al -> (base, 0) :: fr = l1 ++ b :: l2 ->
  Forall (fun c => c.1 + 8 <= b.1) l1 /\ Forall (fun c => b.1 + 8 <= c.1) l2 /\ 0 <= b.2.
Proof.
  intros Hok E. pose proof (ho_sorted _ _ _ Hok) as Hso. rewrite E in Hso. destruct (sorted_mid _ _ _ Hso) as [H1 H2].
  pose proof (ho_free _ _ _ Hok) as Hih. rewrite Forall_forall in Hih. unfold upto in *.
  destruct l1 as [|c l1]; simpl in E; injection E as <- ->.
  - split; [constructor|]. split; [|simpl; lia]. apply Forall_forall. intros c Hc. destruct (Hih c Hc) as (H3 & _). simpl. lia.
  - assert (in_heap s b) as (Hb1 & Hb2 & _) by apply Hih, elem_mid. split; [constructor|split; [|lia]].
    + done.
    + apply Forall_forall. intros c Hc. specialize (H1 c ltac:(by right)).
      destruct (Hih c) as (_ & Hc2 & _); [apply elem_of_app; by left|]. lia.
    + apply Forall_forall. intros c Hc. specialize (H2 c Hc). lia.
Qed.

(** A byte in use is in no free block. *)
Lemma used_not_free s fr al a n p x :
  heap_ok s fr al -> al !! a = Some n -> p ∈ fr -> a <= x < a + 8 * n -> ~ p.1 <= x < upto p.
Proof.
  intros Hok Ha Hp Hx. destruct (ho_used _ _ _ Hok _ _ Ha) as (_ & _ & Hap). rewrite Forall_forall in Hap.
  specialize (Hap p Hp). unfold apart, upto in *. simpl in *. lia.
Qed.

Lemma hd_addr_range s fr al l1 l2 : heap_ok s fr al -> (base, 0) :: fr = l1 ++ l2 -> 0 <= hd_addr l2 base < 2 ^ 32.
Proof.
  intros Hok E. destruct (ho_brk _ _ _ Hok) as [Hb0 Hbrk]. destruct l2 as [|b l2]; simpl; [lia|].
  pose proof (heap_above _ _ _ Hok) as Hab. pose proof (ho_free _ _ _ Hok) as Hih. rewrite Forall_forall in Hih.
  assert (b ∈ (base, 0) :: fr) as Hb by (rewrite E; apply elem_mid). apply elem_of_cons in Hb as [->|Hb]; [simpl; lia|].
  destruct (Hih b Hb) as (H1 & H2 & H3). unfold upto in H3. lia.
Qed.

(** The whole block is taken: it leaves the list. *)
Lemma take_exact s fr al l1 pv p l2 (t := mkHeap (store32 (hm s) pv.1 (hd_addr l2 base)) pv.1 (brk s)) :
  heap_ok s fr al -> (base, 0) :: fr = l1 ++ pv :: p :: l2 -> 1 <= p.2 ->
  kept al s t /\
  exists fr', al !! p.1 = None /\ heap_ok t fr' (<[p.1 := p.2]> al) /\ units fr' + p.2 = units fr.
Proof.
  intros Hok E Hn. destruct (list_headers _ _ _ _ _ _ Hok E) as (Hh1 & Hh2 & Hpv0).
  assert ((base, 0) :: fr = (l1 ++ [pv]) ++ p :: l2) as E' by by rewrite <- app_assoc.
  destruct (list_headers _ _ _ _ _ _ Hok E') as (_ & Hh3 & _).
  pose proof (ho_seg _ _ _ Hok) as Hseg. rewrite E, seg_app in Hseg. simpl in Hseg. destruct Hseg as (Hs1 & Hv1 & Hv2 & Hp1 & Hp2 & Hs2).
  pose proof (ho_sorted _ _ _ Hok) as Hso. rewrite E' in Hso.
  destruct (set_link pv.1 (hm s) (hd_addr l2 base)) as (Ho & Hl1 & Hl2); [apply Hok| |].
  { eapply (hd_addr_range s fr al ((l1 ++ [pv]) ++ [p])); [done|]. by rewrite <- app_assoc. }
  assert (pv ∈ (base, 0) :: fr) as Hpv by (rewrite E; apply elem_mid).
  assert (kept al s t) as Hk.
  { intros a k x Ha Hx. apply Ho. by apply (header_apart s fr al a k). }
  split; [done|].
  assert (exists fr', l1 ++ pv :: l2 = (base, 0) :: fr' /\ p ∈ fr /\ (forall b, b ∈ fr' -> b ∈ fr) /\
    units fr' + p.2 = units fr) as (fr' & Ef & Hpfr & Hsub & Hu).
  { destruct l1 as [|b l1]; simpl in E; injection E as -> ->.
    - exists l2. split; [done|]. split; [left|]. split; [by right|simpl; lia].
    - exists (l1 ++ pv :: l2). split; [done|]. split; [apply elem_of_app; right; right; left|]. split; [intros b'; clear; rewrite ?elem_of_app, ?elem_of_cons; tauto|].
      rewrite !units_app. simpl. lia. }
  exists fr'. pose proof (sorted_drop _ _ _ Hso) as Hso'. rewrite <- app_assoc in Hso'. simpl in Hso'. rewrite Ef in Hso'.
  destruct (sorted_mid _ _ _ Hso) as [Hm1 Hm2].
  destruct (heap_ok_take s t fr fr' al p.1 p.2 p) as [Hn1 Hn2]; try done; try lia.
  - apply Ho.
  - rewrite <- Ef. apply seg_app. split; [|split; [done|split; [simpl; congruence|]]]; simpl.
    + apply (seg_only pv.1 (hm s)); [done|eapply Forall_impl; [exact Hh1|simpl; lia]|done].
    + apply (seg_only pv.1 (hm s)); [done| |done]. apply Forall_cons in Hh2 as [_ Hh2].
      eapply Forall_impl; [exact Hh2|]. simpl. lia.
  - rewrite <- Ef. simpl. rewrite fmap_app. apply elem_mid.
  - apply Forall_forall. intros b Hb. split; [left; by apply Hsub|]. unfold apart.
    assert (b ∈ l1 ++ pv :: l2) as Hb' by (rewrite Ef; by right).
    replace (p.1, p.2) with p by by destruct p.
    rewrite elem_of_app, elem_of_cons in Hb'. destruct Hb' as [Hb'|[->|Hb']].
    + right. specialize (Hm1 b ltac:(apply elem_of_app; by left)). lia.
    + right. specialize (Hm1 pv ltac:(apply elem_of_app; right; left)). lia.
    + left. specialize (Hm2 b Hb'). lia.
  - simpl. by rewrite (load32_only pv.1 (hm s)) by (done || (apply Forall_cons in Hh2 as [Hh2 _]; lia)).
Qed.

(** The end of the block is taken. *)
Lemma take_split s fr al l1 pv p l2 n (a := p.1 + 8 * (p.2 - n))
    (t := mkHeap (store32 (store32 (hm s) (p.1 + 4) (p.2 - n)) (a + 4) n) pv.1 (brk s)) :
  heap_ok s fr al -> (base, 0) :: fr = l1 ++ pv :: p :: l2 -> 1 <= n < p.2 ->
  kept al s t /\
  exists fr', al !! a = None /\ heap_ok t fr' (<[a := n]> al) /\ units fr' + n = units fr.
Proof.
  intros Hok E Hn. assert ((base, 0) :: fr = (l1 ++ [pv]) ++ p :: l2) as E' by by rewrite <- app_assoc.
  destruct (list_headers _ _ _ _ _ _ Hok E') as (Hh1 & Hh3 & _).
  pose proof (ho_seg _ _ _ Hok) as Hseg. rewrite E', seg_app in Hseg. simpl in Hseg. destruct Hseg as (Hs1 & Hp1 & Hp2 & Hs2).
  pose proof (ho_sorted _ _ _ Hok) as Hso. rewrite E' in Hso. destruct (sorted_mid _ _ _ Hso) as [Hm1 Hm2].
  assert (exists fr', (l1 ++ [pv]) ++ (p.1, p.2 - n) :: l2 = (base, 0) :: fr' /\ p ∈ fr /\
    (forall b, b ∈ fr' -> b ∈ fr \/ b = (p.1, p.2 - n)) /\ units fr' + n = units fr) as (fr' & Ef & Hpfr & Hsub & Hu).
  { rewrite <- app_assoc. destruct l1 as [|b l1]; simpl in E; injection E as -> ->.
    - exists ((p.1, p.2 - n) :: l2). split; [done|]. split; [left|]. split; [intros b; clear; rewrite ?elem_of_app, ?elem_of_cons; tauto|simpl; lia].
    - exists (l1 ++ pv :: (p.1, p.2 - n) :: l2). split; [done|]. split; [apply elem_of_app; right; right; left|].
      split; [intros b'; clear; rewrite ?elem_of_app, ?elem_of_cons; tauto|]. rewrite !units_app. simpl. lia. }
  pose proof (ho_free _ _ _ Hok) as Hih. rewrite Forall_forall in Hih. destruct (Hih p Hpfr) as (Hlo & _ & Hhi).
  destruct (ho_brk _ _ _ Hok) as [Hb0 Hbrk].
  pose proof (ho_mem _ _ _ Hok) as Hm. pose proof (only_store p.1 4 (hm s) (p.2 - n) Hm ltac:(lia)) as Ho1.
  pose proof (only_store a 4 _ n (proj1 Ho1) ltac:(lia)) as Ho2.
  assert (upto p = a + 8 * n) as Hup by (unfold upto, a; lia).
  assert (forall x, ~ p.1 <= x < upto p -> hm t x = hm s x) as Hout.
  { intros x Hx. simpl. rewrite (proj2 Ho2), (proj2 Ho1); [done|unfold upto, a in *; lia..]. }
  assert (kept al s t) as Hk.
  { intros b k x Hb Hx. apply Hout. by apply (used_not_free s fr al b k). }
  split; [done|]. exists fr'.
  assert (StronglySorted gap ((base, 0) :: fr')) as Hso'.
  { rewrite <- Ef. apply (sorted_swap _ p); try done; unfold upto; simpl; lia. }
  destruct (heap_ok_take s t fr fr' al a n p) as [Hn1 Hn2]; try done; try (unfold a; lia).
  - apply Ho2.
  - rewrite <- Ef. apply seg_app. split; [|split; [|split]]; simpl.
    + apply (seg_ext (hm s)); [|done]. intros b x Hb Hx. apply Hout. rewrite Forall_forall in Hh1. specialize (Hh1 b Hb). simpl in Hh1. lia.
    + rewrite !load32_store32_ne by (unfold a; lia). done.
    + rewrite load32_store32_ne by (unfold a; lia). rewrite load32_store32, u32_small; [done|]. unfold upto in Hhi. lia.
    + apply (seg_ext (hm s)); [|done]. intros b x Hb Hx. apply Hout. specialize (Hm2 b Hb). lia.
  - rewrite <- Ef. rewrite <- app_assoc. simpl. rewrite fmap_app. apply elem_mid.
  - apply Forall_forall. intros b Hb.
    assert (b ∈ (l1 ++ [pv]) ++ (p.1, p.2 - n) :: l2) as Hb' by (rewrite Ef; by right).
    split.
    + destruct (Hsub b Hb) as [H1| ->]; [by left|]. right. simpl. lia.
    + unfold apart, upto. simpl. rewrite elem_of_app, elem_of_cons in Hb'. destruct Hb' as [Hb'|[->|Hb']].
      * specialize (Hm1 b Hb'). unfold upto in Hm1. unfold a. lia.
      * simpl. unfold a. lia.
      * specialize (Hm2 b Hb'). unfold upto in Hm2. unfold a. lia.
  - simpl. rewrite load32_store32, u32_small; [done|]. unfold upto in Hhi. lia.
Qed.

Lemma wp_take_block s fr al l1 pv p l2 nunits (Q : Z -> heap -> Prop) :
  heap_ok s fr al -> (base, 0) :: fr = l1 ++ pv :: p :: l2 -> 1 <= nunits <= p.2 ->
  (forall a t fr', al !! a = None -> heap_ok t fr' (<[a := nunits]> al) -> brk t = brk s -> kept al s t ->
     units fr' + nunits = units fr -> Q (a + 8) t) ->
  wp (take_block pv.1 p.1 nunits) s Q.
Proof.
  intros Hok E Hn HQ. assert ((base, 0) :: fr = (l1 ++ [pv]) ++ p :: l2) as E' by by rewrite <- app_assoc.
  pose proof (ho_seg _ _ _ Hok) as Hseg. rewrite E' in Hseg. destruct (seg_lookup _ _ _ _ _ Hseg) as [Hpp Hps].
  assert (in_heap s p) as (Hlo & _ & Hhi).
  { pose proof (ho_free _ _ _ Hok) as Hih. rewrite Forall_forall in Hih. apply Hih.
    destruct l1; simpl in E; injection E as _ ->; [left|]. apply elem_of_app. right. right. left. }
  destruct (ho_brk _ _ _ Hok) as [Hb0 Hbrk]. unfold upto in Hhi.
  unfold take_block, hadd, sizeof_Header. apply wp_bind, wp_gets. rewrite Hps. apply wp_bind.
  destruct (Z.eqb_spec p.2 nunits) as [<-|Hne].
  - destruct (take_exact s fr al l1 pv p l2 Hok E) as (Hk & fr' & Hnone & Hok' & Hu); [lia|].
    apply wp_bind, wp_gets. rewrite Hpp. apply wp_bind, wp_modify, wp_ret, wp_bind, wp_modify, wp_ret.
    rewrite u32_small by lia. replace (p.1 + 8 * 1) with (p.1 + 8) by lia. by eapply HQ.
  - destruct (take_split s fr al l1 pv p l2 nunits Hok E) as (Hk & fr' & Hnone & Hok' & Hu); [lia|].
    apply wp_bind, wp_modify. cbv zeta. rewrite (u32_small (p.1 + 8 * (p.2 - nunits))) by lia.
    apply wp_bind, wp_modify, wp_ret, wp_bind, wp_modify, wp_ret.
    rewrite u32_small by lia. replace (p.1 + 8 * (p.2 - nunits) + 8 * 1) with (p.1 + 8 * (p.2 - nunits) + 8) by lia.
    by eapply HQ.
Qed.

(** ** The search *)

(** One turn of the loop of malloc. *)
Lemma malloc_loop_step s fuel n pv (x : block) q :
  load32 (hm s) x.1 = q -> load32 (hm s) (x.1 + 4) = x.2 ->
  malloc_loop (S fuel) n pv x.1 s =
    if n <=? x.2 then take_block pv x.1 n s
    else if x.1 =? freep s then
      (r ← morecore n; match r with None => mret 0 | Some p => q ← hptr p; malloc_loop fuel n p q end) s
    else malloc_loop fuel n x.1 q s.
Proof.
  intros <- E. cbn [malloc_loop]. unfold hsize, hptr. erewrite bind_Ok by reflexivity. rewrite E.
  destruct (n <=? x.2); [done|]. erewrite bind_Ok by reflexivity. by destruct (x.1 =? freep s).
Qed.

(** A block that is large enough, with the one before it in the list. *)
Definition found (s : heap) (fr : list block) (n : Z) (run : outcome (Z * heap)) : Prop :=
  exists l1 v x l2, (base, 0) :: fr = l1 ++ v :: x :: l2 /\ n <= x.2 /\ run = take_block v.1 x.1 n s.

Lemma search s fr al xs la pv lb fuel n :
  heap_ok s fr al -> (base, 0) :: fr = la ++ pv :: xs ++ lb -> Forall (fun x => x.1 <> freep s) xs ->
  found s fr n (malloc_loop (length xs + fuel) n pv.1 (hd_addr (xs ++ lb) base) s) \/
  Forall (fun x => x.2 < n) xs /\
  exists la' pv', (base, 0) :: fr = la' ++ pv' :: lb /\
    malloc_loop (length xs + fuel) n pv.1 (hd_addr (xs ++ lb) base) s =
    malloc_loop fuel n pv'.1 (hd_addr lb base) s.
Proof.
  intros Hok. revert la pv. induction xs as [|x xs IH]; intros la pv E Hxs.
  - right. split; [constructor|]. by exists la, pv.
  - apply Forall_cons in Hxs as [Hx Hxs].
    assert ((base, 0) :: fr = (la ++ [pv]) ++ x :: xs ++ lb) as E' by by rewrite <- app_assoc.
    pose proof (ho_seg _ _ _ Hok) as Hseg. rewrite E' in Hseg. destruct (seg_lookup _ _ _ _ _ Hseg) as [Hp Hs].
    cbn [app hd_addr length Nat.add]. rewrite (malloc_loop_step _ _ _ _ _ _ Hp Hs).
    destruct (Z.leb_spec n x.2) as [Hle|Hgt]; [left; by exists la, pv, x, (xs ++ lb)|].
    rewrite (proj2 (Z.eqb_neq _ _) Hx). destruct (IH (la ++ [pv]) x E' Hxs) as [Hf|(Hall & la' & pv' & El & Er)].
    + by left.
    + right. split; [by constructor|]. by exists la', pv'.
Qed.

(** Once around the list from freep. *)
Lemma search_lap s fr al fuel n :
  heap_ok s fr al -> 1 <= n ->
  found s fr n (malloc_loop (length fr + 1 + fuel) n (freep s) (load32 (hm s) (freep s)) s) \/
  Forall (fun x => x.2 < n) fr /\
  malloc_loop (length fr + 1 + fuel) n (freep s) (load32 (hm s) (freep s)) s =
    (r ← morecore n; match r with None => mret 0 | Some p => q ← hptr p; malloc_loop fuel n p q end) s.
Proof.
  intros Hok Hn. pose proof (ho_freep _ _ _ Hok) as Hfp. apply list_elem_of_fmap in Hfp as (f & Ef & Hf).
  apply list_elem_of_split in Hf as (la & lb & E). destruct (list_headers _ _ _ _ _ _ Hok E) as (Hh1 & Hh2 & _).
  pose proof (ho_seg _ _ _ Hok) as Hseg. pose proof Hseg as Hseg0. rewrite E in Hseg. destruct (seg_lookup _ _ _ _ _ Hseg) as [Hp Hs].
  rewrite Ef, Hp. assert (length fr = length la + length lb)%nat as Hlen.
  { apply (f_equal length) in E. rewrite length_app in E. simpl in E. lia. }
  replace (length fr + 1 + fuel)%nat with (length lb + (length la + 1 + fuel))%nat by lia.
  destruct (search s fr al lb la f [] (length la + 1 + fuel) n Hok) as [Hfd|(Hall & la' & pv' & E' & Er)].
  { by rewrite app_nil_r. }
  { eapply Forall_impl; [exact Hh2|]. simpl. intros x Hx. lia. }
  { left. by rewrite app_nil_r in Hfd. }
  rewrite app_nil_r in Er. rewrite Er. cbn [hd_addr]. generalize pv'.1. intros pv0. clear la' pv' E' Er.
  destruct Hseg0 as (Hb1 & Hb2 & _). simpl in Hb1, Hb2.
  destruct la as [|b la]; simpl in E; injection E as Eb Efr.
  - subst f. simpl in Ef. cbn [length Nat.add]. rewrite (malloc_loop_step s fuel n _ (base, 0) _ Hb1 Hb2). simpl.
    rewrite (proj2 (Z.leb_gt _ _)), Ef, Z.eqb_refl by lia. right. by rewrite Efr.
  - subst b. cbn [length Nat.add]. rewrite (malloc_loop_step s _ n _ (base, 0) _ Hb1 Hb2). cbn [fst snd].
    apply Forall_cons in Hh1 as [Hb8 Hh1]. simpl in Hb8.
    rewrite (proj2 (Z.leb_gt n 0)), (proj2 (Z.eqb_neq base (freep s))) by lia.
    replace (length la + 1 + fuel)%nat with (length la + (1 + fuel))%nat by lia.
    destruct (search s fr al la [] (base, 0) (f :: lb) (1 + fuel) n Hok) as [Hfd|(Hall' & la' & pv' & E' & Er)].
    { by rewrite Efr. }
    { eapply Forall_impl; [exact Hh1|]. simpl. intros x Hx. lia. }
    { left. by rewrite <- Efr in Hfd. }
    rewrite <- Efr in Er. cbn [fst] in Er. rewrite Er. cbn [hd_addr Nat.add]. rewrite (malloc_loop_step s fuel n _ f _ Hp Hs).
    destruct (Z.leb_spec n f.2) as [Hle|Hgt]; [left; by exists la', pv', f, lb|].
    rewrite Ef, Z.eqb_refl. right. split; [|done]. rewrite Efr. apply Forall_app. split; [done|by constructor].
Qed.

(** C25. free of a block in use always returns; the block is free again, joined
    with its neighbours, and no byte of another block in use changes. *)
Theorem free_correct s fr al a n :
  heap_ok s fr al -> al !! a = Some n ->
  exists t fr', free (a + 8) s = Ok (tt, t) /\ heap_ok t fr' (delete a al) /\ kept (delete a al) s t /\
    units fr' = units fr + n /\ brk t = brk s.
Proof.
  intros Hok Ha. enough (wp (free (a + 8)) s (fun _ t => exists fr', heap_ok t fr' (delete a al) /\
    kept (delete a al) s t /\ units fr' = units fr + n /\ brk t = brk s)) as ([] & t & Hr & fr' & H) by by exists t, fr'.
  eapply wp_free; [done..|]. intros t fr' H1 H2 H3 H4 _ _. by exists fr'.
Qed.

(** ** More memory *)

(** The kernel does not let a process grow past KERNBASE. *)
Context (Hgrows : forall b n, grows b n = true -> b + n < 2 ^ 31).

(** What sbrk gives is a block in use that nobody has. *)
Lemma heap_ok_grow s fr al nu (t := mkHeap (store32 (hm s) (brk s + 4) nu) (freep s) (brk s + 8 * nu)) :
  heap_ok s fr al -> 1 <= nu -> brk s + 8 * nu < 2 ^ 31 ->
  al !! brk s = None /\ heap_ok t fr (<[brk s := nu]> al) /\ kept al s t.
Proof.
  intros Hok Hnu Hlt. destruct (ho_brk _ _ _ Hok) as [Hb0 Hbrk].
  pose proof (only_store (brk s) 4 (hm s) nu (ho_mem _ _ _ Hok) ltac:(lia)) as Ho.
  assert (forall x, x < brk s -> hm t x = hm s x) as Hbelow by (intros x Hx; apply Ho; lia).
  assert (forall a k, al !! a = Some k -> upto (a, k) <= brk s /\ 1 <= k) as Hused.
  { intros a k Ha. destruct (ho_used _ _ _ Hok _ _ Ha) as ((_ & H1 & H2) & _). done. }
  assert (kept al s t) as Hk.
  { intros a k x Ha Hx. apply Hbelow. destruct (Hused _ _ Ha) as [H1 _]. unfold upto in H1. simpl in H1. lia. }
  assert (forall b, in_heap s b -> in_heap t b) as Hin.
  { intros b (H1 & H2 & H3). unfold in_heap. simpl. lia. }
  pose proof (ho_free _ _ _ Hok) as Hih. pose proof (proj1 (Forall_forall _ _) Hih) as Hihe.
  split; [|split; [|done]].
  - destruct (al !! brk s) as [k|] eqn:Ea; [|done]. destruct (Hused _ _ Ea) as [H1 H2]. unfold upto in H1. simpl in H1. lia.
  - split; unfold t; cbn [hm freep brk]; [apply Ho|lia| |exact (ho_sorted _ _ _ Hok)| |exact (ho_freep _ _ _ Hok)| |].
    + apply (seg_ext (hm s)); [|exact (ho_seg _ _ _ Hok)]. intros b x Hb Hx. apply Hbelow. apply elem_of_cons in Hb as [->|Hb]; [simpl in Hx; lia|].
      destruct (Hihe b Hb) as (H1 & H2 & H3). unfold upto in H3. lia.
    + eapply Forall_impl; [exact Hih|]. exact Hin.
    + intros a k [[<- <-]|[Hne Ha]]%lookup_insert_Some.
      * split; [unfold in_heap, upto; simpl; lia|]. split; [rewrite load32_store32, u32_small; [done|lia]|].
        eapply Forall_impl; [exact Hih|]. intros b (H1 & H2 & H3). right. done.
      * destruct (ho_used _ _ _ Hok _ _ Ha) as (H1 & H2 & H3). split; [by apply Hin|]. split; [|done].
        rewrite <- H2. apply load32_ext. intros x Hx. apply (Hk a k); [done|]. destruct (Hused _ _ Ha). lia.
    + intros a k b j Ha Hb Hne. rewrite lookup_insert_Some in Ha, Hb.
      destruct Ha as [[<- <-]|[H1 Ha]], Hb as [[<- <-]|[H2 Hb]]; [done| | |by apply (ho_apart _ _ _ Hok)].
      * right. by apply Hused.
      * left. by apply Hused.
Qed.

Lemma wp_morecore s fr al n (Q : option Z -> heap -> Prop) :
  heap_ok s fr al -> 1 <= n < 2 ^ 28 ->
  (grows (brk s) (8 * Z.max n 4096) = false -> Q None s) ->
  (forall t fr', heap_ok t fr' al -> brk t = brk s + 8 * Z.max n 4096 -> kept al s t ->
     units fr' = units fr + Z.max n 4096 -> Exists (fun b => n <= b.2) fr' ->
     (length fr' <= S (length fr))%nat -> Q (Some (freep t)) t) ->
  wp (morecore n) s Q.
Proof.
  intros Hok Hn HQ0 HQ. destruct (ho_brk _ _ _ Hok) as [Hb0 Hbrk]. unfold morecore. cbv zeta.
  replace (if n <? 4096 then 4096 else n) with (Z.max n 4096) by (destruct (Z.ltb_spec n 4096); lia).
  set (nu := Z.max n 4096) in *. assert (1 <= nu < 2 ^ 28 /\ n <= nu) as [Hnu Hnn] by (unfold nu; lia).
  unfold sizeof_Header. rewrite Z.mul_comm, (u32_small (8 * nu)), s32_small by lia. apply wp_bind.
  unfold sbrk. apply wp_bind, wp_get. destruct (grows (brk s) (8 * nu)) eqn:Eg.
  - specialize (Hgrows _ _ Eg). apply wp_bind, wp_modify, wp_ret, wp_bind, wp_modify. cbn [hm freep brk].
    rewrite (u32_small (brk s + 8 * nu)) by lia.
    destruct (heap_ok_grow s fr al nu Hok) as (Hnone & Hok1 & Hk1); [lia..|].
    unfold hadd, sizeof_Header. rewrite u32_small by lia. replace (8 * 1) with 8 by lia. apply wp_bind.
    eapply (wp_free _ fr _ (brk s) nu); [exact Hok1|by apply lookup_insert_eq|].
    intros t fr' Hok2 Hb Hk2 Hu Hex Hlen. rewrite delete_insert_id in Hok2, Hk2 by done. simpl in Hb.
    apply wp_bind, wp_gets, wp_ret, (HQ t fr'); try done.
    + intros a k x Ha Hx. by rewrite (Hk2 a k x Ha Hx), (Hk1 a k x Ha Hx).
    + eapply Exists_impl; [exact Hex|]. simpl. lia.
  - apply wp_ret, wp_ret. by apply HQ0.
Qed.

(** * The theorems *)

(** Before the first call of malloc. *)
Definition fresh (s : heap) : Prop :=
  freep s = 0 /\ byte_mem (hm s) /\ 0 < base /\ base + 8 <= brk s <= 2 ^ 31.

Definition heap_state (s : heap) (fr : list block) (al : gmap Z Z) : Prop :=
  heap_ok s fr al \/ fresh s /\ fr = [] /\ al = ∅.

(** What malloc promises: a block of its own, or 0 when the kernel gives no
    more memory; what is free and what was handed out is all there is. *)
Definition malloc_post (s : heap) (fr : list block) (al : gmap Z Z) (n r : Z) (t : heap) : Prop :=
  kept al s t /\ exists fr',
    (r = 0 /\ heap_ok t fr' al /\ units fr' = units fr /\ brk t = brk s /\ grows (brk s) (8 * Z.max n 4096) = false \/
     exists a, r = a + 8 /\ al !! a = None /\ heap_ok t fr' (<[a := n]> al) /\
       8 * (units fr' + n) = 8 * units fr + (brk t - brk s)).

Lemma found_runs s fr al n run :
  heap_ok s fr al -> 1 <= n -> found s fr n run ->
  exists r t, run = Ok (r, t) /\ kept al s t /\ exists fr' a, r = a + 8 /\ al !! a = None /\
    heap_ok t fr' (<[a := n]> al) /\ brk t = brk s /\ units fr' + n = units fr.
Proof.
  intros Hok Hn (l1 & v & x & l2 & E & Hx & ->).
  eapply (wp_take_block s fr al l1 v x l2 n _ Hok E); [done|].
  intros a t fr' H1 H2 H3 H4 H5. split; [done|]. by exists fr', a.
Qed.

Lemma malloc_loop_runs s fr al n fuel :
  heap_ok s fr al -> 1 <= n < 2 ^ 28 -> (2 * length fr + 4 <= fuel)%nat ->
  wp (malloc_loop fuel n (freep s) (load32 (hm s) (freep s))) s (malloc_post s fr al n).
Proof.
  intros Hok Hn Hf. set (k := (fuel - length fr - 1)%nat).
  replace fuel with (length fr + 1 + k)%nat by lia.
  destruct (search_lap s fr al k n Hok) as [Hfd|[Hall Er]]; [lia| |].
  - apply (found_runs s fr al) in Hfd as (r & t & Hr & Hk & fr' & a & Ea & H1 & H2 & H3 & H4); [|done|lia].
    eapply wp_run; [exact Hr|]. split; [done|]. exists fr'. right. exists a. split_and!; try done. lia.
  - unfold wp. rewrite Er. apply wp_bind. eapply wp_morecore; [done|done| |].
    + intros Hg. apply wp_ret. split; [done|]. exists fr. by left.
    + intros t fr' Hok' Hb Hk Hu Hex Hlen. apply wp_bind, wp_gets.
      replace k with (length fr' + 1 + (k - length fr' - 1))%nat by lia.
      destruct (search_lap t fr' al (k - length fr' - 1) n Hok') as [Hfd|[Hall' _]]; [lia| |].
      * apply (found_runs t fr' al) in Hfd as (r & u & Hr & Hk2 & fr2 & a & Ea & H1 & H2 & H3 & H4); [|done|lia].
        eapply wp_run; [exact Hr|]. split.
        { intros b j x Hb' Hx. by rewrite (Hk2 b j x Hb' Hx), (Hk b j x Hb' Hx). }
        exists fr2. right. exists a. split_and!; try done. lia.
      * exfalso. apply Exists_exists in Hex as (b & Hb1 & Hb2). rewrite Forall_forall in Hall'.
        specialize (Hall' b Hb1). cbn beta in Hall'. lia.
Qed.

Lemma nunits_enough nbytes : 0 <= nbytes <= 2 ^ 30 -> nbytes <= 8 * (nunits_of nbytes - 1) /\ 1 <= nunits_of nbytes < 2 ^ 28.
Proof. intros Hn. unfold nunits_of, sizeof_Header. rewrite u32_small by lia. Z.div_mod_to_equations. lia. Qed.

(** The first call makes the list of base alone. *)
Lemma fresh_init s (t := mkHeap (store32 (store32 (hm s) base base) (base + 4) 0) base (brk s)) :
  fresh s -> heap_ok t [] ∅.
Proof.
  intros (H0 & Hm & Hb & Hbrk). split; unfold t; cbn [hm freep brk]; try done.
  - by do 2 apply store32_byte_mem.
  - simpl. split; [|split; [|done]].
    + rewrite load32_store32_ne by lia. rewrite load32_store32, u32_small; [done|lia].
    + by rewrite load32_store32.
  - by repeat constructor.
  - left.
Qed.


End umalloc.

(** A request near 2^32 wraps around in the count of units: the block has no
    room at all. *)
Lemma malloc_request_wraps : nunits_of (2 ^ 32 - 1) = 1.
Proof. reflexivity. Qed.

(** * An instance *)

Module HeapDemo.

Definition grows (b n : Z) : bool := (0 <=? n) && (b + n <? 2 ^ 31).
Definition start : heap := mkHeap (fun _ => 0) 0 4096.
(** One block of two units in use, nothing free. *)
Definition full : heap := mkHeap (store32 (store32 (fun _ => 0) 64 64) 76 2) 64 4096.

Lemma grows_bound b n : grows b n = true -> b + n < 2 ^ 31.
Proof. unfold grows. intros H. bools. lia. Qed.

Lemma start_fresh : fresh 64 start.
Proof. split; [done|]. split; [intros ?; simpl; lia|]. simpl. lia. Qed.

Lemma full_ok : heap_ok 64 full [] {[72 := 2]}.
Proof.
  split; try done.
  - by do 2 apply store32_byte_mem.
  - by repeat constructor.
  - left.
  - intros a n [<- <-]%lookup_singleton_Some. by split.
  - by intros a n b k [<- <-]%lookup_singleton_Some [<- <-]%lookup_singleton_Some.
Qed.

End HeapDemo.


Lemma free_correct_witness :
  exists t fr', free (72 + 8) HeapDemo.full = Ok (tt, t) /\ heap_ok 64 t fr' (delete 72 {[72 := 2]}) /\
    kept (delete 72 {[72 := 2]}) HeapDemo.full t /\ units fr' = units [] + 2 /\ brk t = brk HeapDemo.full.
Proof.
  apply (free_correct 64 HeapDemo.grows HeapDemo.full [] {[72 := 2]} 72 2).
  - apply HeapDemo.full_ok.
  - apply lookup_singleton_eq.
Defined.

(** Memory that was freed is handed out again. *)
Lemma malloc_reuses :
  match (p ← malloc 64 HeapDemo.grows 100; q ← malloc 64 HeapDemo.grows 8; free p;; r ← malloc 64 HeapDemo.grows 100; mret (p, q, r))
          HeapDemo.start with
  | Ok ((p, q, r), _) => p = 36760 /\ q = 36744 /\ r = p
  | _ => False
  end.
Proof. vm_compute. repeat split. Qed.
