(* ===== verification/Grep.v ===== *)
(** grep.c: the pattern matcher and the loop that filters lines.

    The matcher is compared with the meaning of patterns as sets of strings;
    the loop, which works through a buffer of 1024 bytes that it refills, with
    the lines of the whole input. *)

From S2P Require Import Prelude StringC Codec Ulib.

Definition NL : Z := 10.
Definition CARET : Z := 94.
Definition STAR : Z := 42.
Definition DOT : Z := 46.
Definition DOLLAR : Z := 36.

(** * The matcher *)

(** The loop of matchstar, for the matcher [here] of what follows the star. *)
Fixpoint star_loop (here : list Z -> bool) (c : Z) (text : list Z) : bool :=
  if here text then true
  else
    match text with
    | [] => false
    | t :: text => if (t =? c) || (c =? DOT) then star_loop here c text else false
    end.

Fixpoint matchhere (re text : list Z) {struct re} : bool :=
  match re with
  | [] => true
  | r0 :: re1 =>
      match re1 with
      | r1 :: re2 =>
          if r1 =? STAR then star_loop (matchhere re2) r0 text
          else
            match text with
            | t :: text => if (r0 =? DOT) || (r0 =? t) then matchhere re1 text else false
            | [] => false
            end
      | [] =>
          if r0 =? DOLLAR then match text with [] => true | _ :: _ => false end
          else
            match text with
            | t :: text => if (r0 =? DOT) || (r0 =? t) then matchhere re1 text else false
            | [] => false
            end
      end
  end.

Definition matchstar (c : Z) (re text : list Z) : bool := star_loop (matchhere re) c text.

Fixpoint match_loop (re text : list Z) : bool :=
  if matchhere re text then true
  else
    match text with
    | [] => false
    | _ :: text => match_loop re text
    end.

Definition match_ (re text : list Z) : bool :=
  match re with
  | r0 :: re1 => if r0 =? CARET then matchhere re1 text else match_loop re text
  | [] => match_loop re text
  end.

(** * The loop *)

Definition BUFSZ : nat := 1024.

(** The inner loop: buf, p and the bytes written so far. *)
Fixpoint grep_lines (fuel : nat) (pattern buf : list Z) (p : nat) (out : list Z) : list Z * nat * list Z :=
  match fuel with
  | O => (buf, p, out)
  | S fuel =>
      match strchr (cstr (drop p buf)) NL with
      | None => (buf, p, out)
      | Some i =>
          let q := (p + i)%nat in
          let buf := <[q := 0]> buf in
          if match_ pattern (cstr (drop p buf)) then
            let buf := <[q := NL]> buf in
            grep_lines fuel pattern buf (q + 1) (out ++ slice p (q + 1 - p) buf)
          else grep_lines fuel pattern buf (q + 1) out
      end
  end.

Section grep.
(** read(fd, _, n): the bytes stored, none at the end of the input or on an
    error, and what is left to read. *)
Context {T : Type} (read : T -> nat -> list Z * T).

Fixpoint grep_loop (fuel : nat) (pattern : list Z) (input : T) (buf : list Z) (m : nat) (out : list Z)
    : list Z :=
  match fuel with
  | O => out
  | S fuel =>
      let (bs, input) := read input (BUFSZ - m - 1)%nat in
      match bs with
      | [] => out
      | _ :: _ =>
          let buf := splice m bs buf in
          let m := (m + length bs)%nat in
          let buf := <[m := 0]> buf in
          let '(buf, p, out) := grep_lines BUFSZ pattern buf 0 out in
          let m := if (p =? 0)%nat then 0%nat else m in
          if (0 <? m)%nat then
            let m := (m - p)%nat in
            grep_loop fuel pattern input (memmove buf 0 p (Z.of_nat m)) m out
          else grep_loop fuel pattern input buf m out
      end
  end.

(** [reads]: a bound on the number of calls of read. *)
Definition grep (reads : nat) (pattern : list Z) (input : T) : list Z :=
  grep_loop reads pattern input (replicate BUFSZ 0) 0 [].

End grep.

(** A file's bytes: read returns what is asked for until the end. *)
Definition file_read (data : list Z) (n : nat) : list Z * list Z := (take n data, drop n data).

(** A pipe or the console: read returns at most one piece at a time. *)
Definition chunk_read (chunks : list (list Z)) (n : nat) : list Z * list (list Z) :=
  match chunks with
  | [] => ([], [])
  | c :: cs => (take n c, match drop n c with [] => cs | r => r :: cs end)
  end.

(** * The meaning of patterns *)

Inductive item :=
| Lit (c : Z)
| Star (c : Z).

(** The items of a pattern and whether it ends in the anchor. *)
Fixpoint items (re : list Z) : list item * bool :=
  match re with
  | [] => ([], false)
  | r0 :: re1 =>
      match re1 with
      | [] => if r0 =? DOLLAR then ([], true) else ([Lit r0], false)
      | r1 :: re2 =>
          if r1 =? STAR then let (l, e) := items re2 in (Star r0 :: l, e)
          else let (l, e) := items re1 in (Lit r0 :: l, e)
      end
  end.

(** [c] of a pattern stands for the byte [t]. *)
Definition hits (c t : Z) : Prop := c = DOT \/ c = t.

Inductive lang : list item -> list Z -> Prop :=
| lang_nil : lang [] []
| lang_lit c l t w : hits c t -> lang l w -> lang (Lit c :: l) (t :: w)
| lang_star c l u w : Forall (hits c) u -> lang l w -> lang (Star c :: l) (u ++ w).

(** [text] has a part in the language of the items, at its start if [first]
    and up to its end if [last]. *)
Definition occurs (first last : bool) (l : list item) (text : list Z) : Prop :=
  exists a w b, text = a ++ w ++ b /\ lang l w /\ (first = true -> a = []) /\ (last = true -> b = []).

Definition pattern_matches (re text : list Z) : Prop :=
  match re with
  | r0 :: re1 =>
      if r0 =? CARET then occurs true (snd (items re1)) (fst (items re1)) text
      else occurs false (snd (items re)) (fst (items re)) text
  | [] => occurs false false [] text
  end.

(** * The lines of an input *)

(** The lines that end in a newline, and the bytes after the last of them. *)
Fixpoint split_lines (l : list Z) : list (list Z) * list Z :=
  match l with
  | [] => ([], [])
  | c :: l =>
      let (ls, r) := split_lines l in
      if c =? NL then ([] :: ls, r)
      else match ls with
           | [] => ([], c :: r)
           | x :: ls => ((c :: x) :: ls, r)
           end
  end.

Definition matching_lines (re data : list Z) : list Z :=
  concat ((fun x => x ++ [NL]) <$> filter (fun x => match_ re x = true) (fst (split_lines data))).

(** * Lemmas *)

Lemma star_loop_spec here c text :
  star_loop here c text = true <-> exists u v, text = u ++ v /\ Forall (hits c) u /\ here v = true.
Proof.
  induction text as [|t text IH]; simpl.
  - destruct (here []) eqn:E; split; [by exists [], []|done|done|].
    intros (u & v & Hu & _ & Hv). destruct u, v; try done. congruence.
  - destruct (here (t :: text)) eqn:E; [split; [by exists [], (t :: text)|done]|].
    destruct ((t =? c) || (c =? DOT)) eqn:Eh.
    + assert (hits c t) as Hh by (unfold hits; bools; [right|left]; lia). rewrite IH. split.
      * intros (u & v & -> & Hu & Hv). exists (t :: u), v. split; [done|]. split; [by constructor|done].
      * intros (u & v & Heq & Hu & Hv). destruct u as [|t' u]; simpl in Heq; [congruence|].
        injection Heq as <- ->. inversion Hu. by exists u, v.
    + split; [done|]. intros (u & v & Heq & Hu & Hv). destruct u as [|t' u]; simpl in Heq; [congruence|].
      injection Heq as <- ->. inversion Hu as [|? ? Hh]. unfold hits in Hh. bools. lia.
Qed.

Lemma occurs_lit last c l text :
  occurs true last (Lit c :: l) text <-> exists t text', text = t :: text' /\ hits c t /\ occurs true last l text'.
Proof.
  split.
  - intros (a & w & b & -> & Hl & Ha & Hb). rewrite (Ha eq_refl). inversion Hl as [|? ? t w' Hh Hw|]; subst.
    exists t, (w' ++ b). split; [done|]. split; [done|]. by exists [], w', b.
  - intros (t & text' & -> & Hh & a & w & b & -> & Hl & Ha & Hb). rewrite (Ha eq_refl).
    exists [], (t :: w), b. split; [done|]. split; [by constructor|done].
Qed.

Lemma occurs_star last c l text :
  occurs true last (Star c :: l) text <-> exists u v, text = u ++ v /\ Forall (hits c) u /\ occurs true last l v.
Proof.
  split.
  - intros (a & w & b & -> & Hl & Ha & Hb). rewrite (Ha eq_refl). inversion Hl as [| |? ? u w' Hu Hw]; subst.
    exists u, (w' ++ b). split; [simpl; by rewrite app_assoc|]. split; [done|]. by exists [], w', b.
  - intros (u & v & -> & Hu & a & w & b & -> & Hl & Ha & Hb). rewrite (Ha eq_refl).
    exists [], (u ++ w), b. split; [simpl; by rewrite app_assoc|]. split; [by constructor|done].
Qed.

Lemma occurs_nil text : occurs true false [] text.
Proof. exists [], [], text. split; [done|]. split; [constructor|done]. Qed.

Lemma occurs_end text : occurs true true [] text <-> text = [].
Proof.
  split.
  - intros (a & w & b & -> & Hl & Ha & Hb). rewrite (Ha eq_refl), (Hb eq_refl). by inversion Hl.
  - intros ->. exists [], [], []. split; [done|]. split; [constructor|done].
Qed.

Lemma lit_step re r0 text (last : bool) l :
  (forall text, matchhere re text = true <-> occurs true last l text) ->
  match text with
  | t :: text => if (r0 =? DOT) || (r0 =? t) then matchhere re text else false
  | [] => false
  end = true <-> occurs true last (Lit r0 :: l) text.
Proof.
  intros IH. rewrite occurs_lit. destruct text as [|t text].
  - split; [done|]. by intros (? & ? & ? & _).
  - destruct ((r0 =? DOT) || (r0 =? t)) eqn:E.
    + rewrite IH. split.
      * intros H. exists t, text. split; [done|]. split; [|done]. unfold hits. bools; [left|right]; lia.
      * intros (? & ? & [= <- <-] & _ & H). done.
    + split; [done|]. intros (? & ? & [= <- <-] & Hh & _). unfold hits in Hh. bools. lia.
Qed.

Lemma matchhere_two r0 r1 re text :
  matchhere (r0 :: r1 :: re) text =
    if r1 =? STAR then star_loop (matchhere re) r0 text
    else match text with
         | t :: text => if (r0 =? DOT) || (r0 =? t) then matchhere (r1 :: re) text else false
         | [] => false
         end.
Proof. reflexivity. Qed.

Lemma items_two r0 r1 re :
  items (r0 :: r1 :: re) =
    if r1 =? STAR then (Star r0 :: fst (items re), snd (items re))
    else (Lit r0 :: fst (items (r1 :: re)), snd (items (r1 :: re))).
Proof.
  change (items (r0 :: r1 :: re)) with
    (if r1 =? STAR then let (l, e) := items re in (Star r0 :: l, e)
     else let (l, e) := items (r1 :: re) in (Lit r0 :: l, e)).
  destruct (r1 =? STAR); [by destruct (items re)|]. by destruct (items (r1 :: re)).
Qed.

Lemma matchhere_spec re text :
  matchhere re text = true <-> occurs true (snd (items re)) (fst (items re)) text.
Proof.
  revert text. induction re as [re IH] using (well_founded_induction (well_founded_ltof _ length)).
  intros text. destruct re as [|r0 [|r1 re2]].
  - split; [intros; apply occurs_nil|done].
  - simpl. destruct (r0 =? DOLLAR).
    + rewrite occurs_end. by destruct text.
    + apply (lit_step []). intros t. split; [intros; apply occurs_nil|done].
  - rewrite matchhere_two, items_two. destruct (r1 =? STAR); cbn [fst snd].
    + rewrite star_loop_spec, occurs_star.
      assert (forall v, matchhere re2 v = true <-> occurs true (snd (items re2)) (fst (items re2)) v) as IH2.
      { apply IH. unfold ltof. simpl. lia. }
      by setoid_rewrite IH2.
    + apply (lit_step (r1 :: re2)). apply IH. unfold ltof. simpl. lia.
Qed.

Lemma match_loop_spec re text :
  match_loop re text = true <-> exists a v, text = a ++ v /\ matchhere re v = true.
Proof.
  induction text as [|t text IH]; simpl.
  - destruct (matchhere re []) eqn:E; split; [by exists [], []|done|done|].
    intros (a & v & Ha & Hv). destruct a, v; try done. congruence.
  - destruct (matchhere re (t :: text)) eqn:E; [split; [by exists [], (t :: text)|done]|]. rewrite IH. split.
    + intros (a & v & -> & Hv). by exists (t :: a), v.
    + intros (a & v & Heq & Hv). destruct a as [|t' a]; simpl in Heq; [congruence|].
      injection Heq as <- ->. by exists a, v.
Qed.

Lemma occurs_anywhere last l text :
  occurs false last l text <-> exists a v, text = a ++ v /\ occurs true last l v.
Proof.
  split.
  - intros (a & w & b & -> & Hl & _ & Hb). exists a, (w ++ b). split; [done|]. by exists [], w, b.
  - intros (a & v & -> & a' & w & b & -> & Hl & Ha & Hb). rewrite (Ha eq_refl). by exists a, w, b.
Qed.

(** C36. The matcher of grep decides the meaning of patterns: match(re, text) is
    true exactly when some part of the text, at its start if the pattern begins
    with the caret and up to its end if it ends in the dollar, is in the
    language of the pattern's characters, dots and stars. *)
Theorem match_correct re text : match_ re text = true <-> pattern_matches re text.
Proof.
  assert (forall re, match_loop re text = true <-> occurs false (snd (items re)) (fst (items re)) text) as Hl.
  { intros r. rewrite match_loop_spec, occurs_anywhere. by setoid_rewrite matchhere_spec. }
  destruct re as [|r0 re]; [apply Hl|]. unfold match_, pattern_matches.
  destruct (r0 =? CARET); [apply matchhere_spec|apply Hl].
Qed.

(** ** The loop *)

Lemma split_lines_cons a b : NL ∉ a -> split_lines (a ++ NL :: b) = (a :: fst (split_lines b), snd (split_lines b)).
Proof.
  induction a as [|x a IH]; intros Ha; simpl.
  - by destruct (split_lines b).
  - apply not_elem_of_cons in Ha as [Hx Ha]. rewrite IH by done.
    destruct (Z.eqb_spec x NL); [congruence|done].
Qed.

Lemma split_lines_none a : NL ∉ a -> split_lines a = ([], a).
Proof.
  induction a as [|x a IH]; intros Ha; [done|]. apply not_elem_of_cons in Ha as [Hx Ha]. simpl.
  rewrite IH by done. destruct (Z.eqb_spec x NL); [congruence|done].
Qed.

(** An input has a first line, or no newline. *)
Lemma first_line s : (exists a b, s = a ++ NL :: b /\ (NL ∉ a) /\ strchr s NL = Some (length a)) \/
  ((NL ∉ s) /\ strchr s NL = None).
Proof.
  destruct (strchr s NL) as [i|] eqn:E.
  - left. apply strchr_Some in E as (a & b & -> & <- & Ha). by exists a, b.
  - right. split; [by apply strchr_None|done].
Qed.

Lemma split_lines_app s t :
  split_lines (s ++ t) =
    (fst (split_lines s) ++ fst (split_lines (snd (split_lines s) ++ t)), snd (split_lines (snd (split_lines s) ++ t))).
Proof.
  induction s as [s IH] using (well_founded_induction (well_founded_ltof _ length)).
  destruct (first_line s) as [(a & b & -> & Ha & _)|[Hs _]].
  - rewrite <- app_assoc. simpl. rewrite !split_lines_cons by done. simpl.
    rewrite IH by (unfold ltof; rewrite length_app; simpl; lia). done.
  - rewrite (split_lines_none s) by done. simpl. by destruct (split_lines (s ++ t)).
Qed.

Lemma snd_split_lines_no_NL s : NL ∉ snd (split_lines s).
Proof.
  induction s as [s IH] using (well_founded_induction (well_founded_ltof _ length)).
  destruct (first_line s) as [(a & b & -> & Ha & _)|[Hs _]].
  - rewrite split_lines_cons by done. simpl. apply IH. unfold ltof. rewrite length_app. simpl. lia.
  - by rewrite split_lines_none.
Qed.

(** The bytes of the complete lines come before the rest. *)
Lemma split_lines_suffix s : exists pre, s = pre ++ snd (split_lines s).
Proof.
  induction s as [s IH] using (well_founded_induction (well_founded_ltof _ length)).
  destruct (first_line s) as [(a & b & -> & Ha & _)|[Hs _]].
  - rewrite split_lines_cons by done. destruct (IH b) as [pre Hp].
    { unfold ltof. rewrite length_app. simpl. lia. }
    simpl. exists (a ++ NL :: pre). rewrite <- app_assoc. simpl. by rewrite <- Hp.
  - exists []. by rewrite split_lines_none.
Qed.

(** Every line, also an unterminated last one, has less than [n] bytes. *)
Definition short_lines (n : nat) (data : list Z) : Prop :=
  Forall (fun x => (length x < n)%nat) (fst (split_lines data)) /\ (length (snd (split_lines data)) < n)%nat.

Lemma matching_lines_app re s t :
  matching_lines re (s ++ t) = matching_lines re s ++ matching_lines re (snd (split_lines s) ++ t).
Proof.
  unfold matching_lines. rewrite (split_lines_app s t). cbn [fst].
  rewrite filter_app, fmap_app. apply concat_app.
Qed.

Lemma short_lines_app n s t : short_lines n (s ++ t) -> short_lines n (snd (split_lines s) ++ t).
Proof. unfold short_lines. rewrite (split_lines_app s t). cbn [fst snd]. by intros [[_ ?]%Forall_app ?]. Qed.

(** A buffer with no newline that is not the end of the input holds less than
    a line. *)
Lemma short_no_NL n s t : short_lines n (s ++ t) -> NL ∉ s -> (length s < n)%nat.
Proof.
  intros [Hf Hr] Hs. destruct (first_line t) as [(a & b & -> & Ha & _)|[Ht _]].
  - rewrite app_assoc, split_lines_cons in Hf by (rewrite elem_of_app; tauto). inversion Hf as [|? ? Hl].
    rewrite length_app in Hl. lia.
  - rewrite split_lines_none in Hr by (rewrite elem_of_app; tauto). simpl in Hr. rewrite length_app in Hr. lia.
Qed.

Lemma drop_mid {A} p (l a b : list A) : drop p l = a ++ b -> drop (p + length a) l = b.
Proof. intros H. by rewrite <- drop_drop, H, drop_app_length. Qed.

Lemma drop_upd p i x (l a b : list Z) y :
  drop p l = a ++ y :: b -> i = length a -> drop p (<[(p + i)%nat := x]> l) = a ++ x :: b.
Proof.
  intros H ->. rewrite drop_insert_ge by lia. replace (p + length a - p)%nat with (length a) by lia.
  by rewrite H, insert_app_r_alt, Nat.sub_diag by lia.
Qed.

(** What the inner loop returns when it starts at [p], where the string [s]
    followed by [z] is: the rest of [s] after its last newline is still there. *)
Definition scanned (re : list Z) (len p : nat) (out s z : list Z) (r : list Z * nat * list Z) : Prop :=
  exists buf, r = (buf, (p + (length s - length (snd (split_lines s))))%nat, out ++ matching_lines re s) /\
    length buf = len /\
    drop (p + (length s - length (snd (split_lines s)))) buf = snd (split_lines s) ++ 0 :: z.

Lemma scanned_none re buf p out s z : drop p buf = s ++ 0 :: z -> NL ∉ s -> scanned re (length buf) p out s z (buf, p, out).
Proof.
  intros Hd Hs. exists buf. unfold matching_lines. rewrite split_lines_none by done. cbn [fst snd].
  rewrite Nat.sub_diag, Nat.add_0_r. simpl. by rewrite app_nil_r.
Qed.

Lemma matching_lines_cons re a b :
  NL ∉ a -> matching_lines re (a ++ NL :: b) = (if match_ re a then a ++ [NL] else []) ++ matching_lines re b.
Proof.
  intros Ha. unfold matching_lines. rewrite split_lines_cons by done. cbn [fst].
  destruct (match_ re a) eqn:E; [by rewrite filter_cons_True|]. by rewrite filter_cons_False by (by rewrite E).
Qed.

Lemma scanned_cons re len p out a b z r :
  NL ∉ a -> scanned re len (p + length a + 1) (out ++ (if match_ re a then a ++ [NL] else [])) b z r ->
  scanned re len p out (a ++ NL :: b) z r.
Proof.
  intros Ha (buf & -> & Hl & Hd). exists buf. rewrite split_lines_cons, matching_lines_cons by done. cbn [snd].
  destruct (split_lines_suffix b) as [pre Hpre].
  assert (length (snd (split_lines b)) <= length b)%nat by (rewrite Hpre at 2; rewrite length_app; lia).
  replace (p + (length (a ++ NL :: b) - length (snd (split_lines b))))%nat
    with (p + length a + 1 + (length b - length (snd (split_lines b))))%nat by (rewrite length_app; simpl; lia).
  by rewrite (app_assoc out).
Qed.

Lemma grep_lines_spec re fuel buf p out s z :
  drop p buf = s ++ 0 :: z -> 0 ∉ s -> (length s <= fuel)%nat ->
  scanned re (length buf) p out s z (grep_lines fuel re buf p out).
Proof.
  revert buf p out s. induction fuel as [|fuel IH]; intros buf p out s Hd H0 Hf.
  { destruct s; [|simpl in Hf; lia]. apply scanned_none; [done|apply not_elem_of_nil]. }
  cbn [grep_lines]. rewrite Hd, cstr_nul by done.
  destruct (first_line s) as [(a & b & -> & Ha & ->)|[Hs ->]]; [|by apply scanned_none].
  rewrite elem_of_app, elem_of_cons in H0. rewrite length_app in Hf. simpl in Hf.
  assert (drop p (<[(p + length a)%nat := 0]> buf) = a ++ 0 :: b ++ 0 :: z) as Hd1.
  { apply (drop_upd _ _ _ _ _ _ NL); [|done]. by rewrite Hd, <- app_assoc. }
  assert (drop p (<[(p + length a)%nat := NL]> (<[(p + length a)%nat := 0]> buf)) = a ++ NL :: b ++ 0 :: z) as Hd2.
  { by apply (drop_upd _ _ _ _ _ _ 0). }
  assert (forall (l : list Z) x, drop p l = a ++ x :: b ++ 0 :: z -> drop (p + length a + 1) l = b ++ 0 :: z) as Hnext.
  { intros l x Hl. rewrite <- (drop_drop l 1), (drop_mid _ _ _ _ Hl). done. }
  rewrite Hd1, cstr_nul by tauto. apply scanned_cons; [done|]. destruct (match_ re a).
  - replace (slice _ _ _) with (a ++ [NL]).
    { specialize (IH _ _ (out ++ a ++ [NL]) b (Hnext _ _ Hd2) ltac:(tauto) ltac:(lia)).
      by rewrite !length_insert in IH. }
    unfold slice. rewrite Hd2. replace (p + length a + 1 - p)%nat with (length (a ++ [NL])) by (rewrite length_app; simpl; lia).
    change (a ++ NL :: b ++ 0 :: z) with (a ++ [NL] ++ (b ++ 0 :: z)). by rewrite app_assoc, take_app_length.
  - rewrite app_nil_r. specialize (IH _ _ out b (Hnext _ _ Hd1) ltac:(tauto) ltac:(lia)).
    by rewrite length_insert in IH.
Qed.

(** The buffer after a read, with the NUL stored behind what it holds. *)
Lemma filled buf part bs :
  take (length part) buf = part -> (length part + length bs < length buf)%nat ->
  <[(length part + length bs)%nat := 0]> (splice (length part) bs buf) =
    (part ++ bs) ++ 0 :: drop (length part + length bs + 1) buf.
Proof.
  intros Hp Hl. unfold splice. rewrite Hp, app_assoc.
  destruct (lookup_lt_is_Some_2 buf (length part + length bs) Hl) as [x Hx].
  rewrite (drop_S buf x _ Hx), insert_app_r_alt by (rewrite length_app; lia).
  rewrite length_app, Nat.sub_diag. simpl. by replace (S (length part + length bs)) with (length part + length bs + 1)%nat by lia.
Qed.

(** The rest is moved to the start of the buffer. *)
Lemma moved buf p r z :
  drop p buf = r ++ 0 :: z -> take (length r) (memmove buf 0 p (Z.of_nat (length r))) = r.
Proof.
  intros Hd. assert (length buf - p = length r + S (length z))%nat as Hl.
  { by rewrite <- length_drop, Hd, length_app. }
  unfold memmove. rewrite Nat2Z.id, memmove_up_down by lia. unfold slice. rewrite Hd, take_app_length.
  unfold splice. simpl. by rewrite take_app_length.
Qed.

(** The buffer holds the bytes [part] of the input not dealt with yet. *)
Lemma grep_loop_spec re fuel data buf part out :
  length buf = BUFSZ -> take (length part) buf = part -> NL ∉ part -> 0 ∉ part ++ data ->
  short_lines (BUFSZ - 1) (part ++ data) -> (length data < fuel)%nat ->
  grep_loop file_read fuel re data buf (length part) out = out ++ matching_lines re (part ++ data).
Proof.
  revert data buf part out. induction fuel as [|fuel IH]; intros data buf part out Hlen Hpart HN H0 Hs Hf; [lia|].
  pose proof (short_no_NL _ part data Hs HN) as Hroom. cbn [grep_loop file_read].
  assert (exists k, BUFSZ - length part - 1 = S k)%nat as [k Hk] by (exists (BUFSZ - length part - 2)%nat; lia).
  rewrite Hk. destruct data as [|c data].
  { rewrite take_nil, app_nil_r. unfold matching_lines. rewrite split_lines_none by done. simpl. by rewrite app_nil_r. }
  cbn [take drop]. set (bs := c :: take k data).
  assert (part ++ c :: data = (part ++ bs) ++ drop k data) as Heq.
  { unfold bs. rewrite <- app_assoc. simpl. by rewrite take_drop. }
  assert (length bs <= S k)%nat as Hbs by (unfold bs; simpl; rewrite length_take; lia).
  rewrite Heq in *. pose proof (filled buf part bs Hpart ltac:(lia)) as Hfill. fold bs.
  destruct (grep_lines_spec re BUFSZ (<[(length part + length bs)%nat := 0]> (splice (length part) bs buf)) 0 out
    (part ++ bs) (drop (length part + length bs + 1) buf)) as (buf' & E & Hl' & Hd').
  { by rewrite drop_0. }
  { rewrite elem_of_app in H0. tauto. }
  { rewrite length_app. lia. }
  rewrite length_insert, length_splice in Hl' by lia. rewrite E. rewrite Nat.add_0_l in *.
  rewrite (matching_lines_app re (part ++ bs)).
  pose proof (snd_split_lines_no_NL (part ++ bs)) as HNr.
  pose proof (short_lines_app _ (part ++ bs) (drop k data) Hs) as Hsr.
  destruct (split_lines_suffix (part ++ bs)) as [pre Hpre].
  set (r := snd (split_lines (part ++ bs))) in *. rewrite <- length_app.
  assert (length (part ++ bs) = length pre + length r)%nat as Hlr by (by rewrite Hpre at 1; rewrite length_app).
  assert (length (drop k data) < fuel)%nat as Hdl by (rewrite length_drop; simpl in Hf; lia).
  replace (length (part ++ bs) - length r)%nat with (length pre) in * by lia.
  rewrite Hpre, <- app_assoc, elem_of_app in H0.
  destruct pre as [|x pre]; cbn [length Nat.eqb Nat.ltb Nat.leb].
  - simpl in Hpre. assert (drop k data = []) as Hend.
    { destruct (drop k data) eqn:Edr; [done|]. exfalso. rewrite Hpre in Hs.
      pose proof (short_no_NL _ _ _ Hs HNr). rewrite <- Hpre, length_app in *.
      assert (length bs = S k); [|lia]. unfold bs. simpl. rewrite length_take_le; [done|].
      assert (length (drop k data) <> 0)%nat by by rewrite Edr. rewrite length_drop in *. lia. }
    rewrite Hend in *. rewrite (IH [] buf' [] _); try done; [|lia|apply not_elem_of_nil|apply not_elem_of_nil|].
    + assert (matching_lines re r = []) as Hr by (unfold matching_lines; by rewrite split_lines_none).
      change (matching_lines re ([] ++ [])) with (@nil Z). by rewrite (app_nil_r r), Hr, !app_nil_r.
    + split; [constructor|simpl; unfold BUFSZ; lia].
  - rewrite Hlr. cbn [length Nat.add Nat.ltb Nat.leb].
    replace (S (length pre + length r) - S (length pre))%nat with (length r) by lia.
    rewrite (app_assoc out). apply IH; try done.
    + unfold memmove. rewrite length_memmove_up. lia.
    + by apply (moved _ _ _ _ Hd').
    + tauto.
Qed.


Definition abc : list Z := [97; 98; 99].


(** A read that brings no newline loses what the buffer holds: of a line
    that arrives in two pieces grep sees only the second. *)
Lemma grep_loses_partial_line :
  matching_lines abc (concat [[97; 98]; [99; NL]]) = abc ++ [NL] /\
  forall reads, grep chunk_read reads abc [[97; 98]; [99; NL]] = [].
Proof.
  split; [reflexivity|]. intros [|[|[|reads]]]; try reflexivity; vm_compute; reflexivity.
Qed.
