(* ===== verification/Sh.v ===== *)
(** sh.c: the parser of command lines.

    The line is in the array [sbuf]; pointers into it are indices.  Command
    structures are allocated on a heap of nodes in the order of the calls of
    malloc; a pointer to one is its index.  parseexec goes on filling the
    arrays of its node after redirections have been wrapped around it, as in
    the source.  A null pointer returned by malloc is written to at once, which
    is [Fault]. *)

From S2P Require Import Prelude StringC Codec Ulib.

Definition MAXARGS : nat := 10.
Definition O_RDONLY : Z := 0.
Definition O_WRONLY : Z := 1.
Definition O_RDWR : Z := 2.
Definition O_CREATE : Z := 512.

Inductive cmd :=
| EXEC (argv eargv : list (option nat))
| REDIR (sub : nat) (file efile : nat) (mode fd : Z)
| PIPE (left right : nat)
| LIST (left right : nat)
| BACK (sub : nat).

Record shst := mkSh { sbuf : list Z; heap : list cmd }.

Definition with_sbuf (b : list Z) (s : shst) : shst := mkSh b (heap s).
Definition with_heap (h : list cmd) (s : shst) : shst := mkSh (sbuf s) h.

Abbreviation P := (M shst).

(** *s *)
Definition at_ (s : nat) : P Z := deref "buf" (fun st => sbuf st !! s).

Section parser.
(** Does the n-th call of malloc return memory? *)
Context (malloc : nat -> bool).

Definition alloc (c : cmd) : P nat :=
  n ← Prelude.gets (fun st => length (heap st));
  if malloc n then
    modify (fun st => with_heap (heap st ++ [c]) st);;
    mret n
  else fault "memset(0)".

Definition execcmd : P nat := alloc (EXEC (replicate MAXARGS None) (replicate MAXARGS None)).
Definition redircmd (sub file efile : nat) (mode fd : Z) : P nat := alloc (REDIR sub file efile mode fd).
Definition pipecmd (left right : nat) : P nat := alloc (PIPE left right).
Definition listcmd (left right : nat) : P nat := alloc (LIST left right).
Definition backcmd (sub : nat) : P nat := alloc (BACK sub).

(** * Tokens *)

Definition whitespace : list Z := [32; 9; 13; 10; 11].
Definition symbols : list Z := [60; 124; 62; 38; 59; 40; 41].

(** strchr(l, c) != 0 *)
Definition isin (l : list Z) (c : Z) : bool :=
  match strchr l c with
  | Some _ => true
  | None => false
  end.

Definition is_ws (c : Z) : bool := isin whitespace c.
Definition is_word (c : Z) : bool := negb (is_ws c) && negb (isin symbols c).

(** while(s < es && test( *s)) s++, with [k] = es - s. *)
Fixpoint skip_while (test : Z -> bool) (k s : nat) : P nat :=
  match k with
  | O => mret s
  | S k => c ← at_ s; if test c then skip_while test k (S s) else mret s
  end.

Definition LT : Z := 60.
Definition BAR : Z := 124.
Definition GT : Z := 62.
Definition AMP : Z := 38.
Definition SEMI : Z := 59.
Definition LPAR : Z := 40.
Definition RPAR : Z := 41.
Definition PLUS : Z := 43.
Definition WORD : Z := 97.

(** The token, *q, *eq and the new *ps. *)
Definition gettoken (s es : nat) : P (Z * nat * nat * nat) :=
  s ← skip_while is_ws (es - s) s;
  let q := s in
  c ← at_ s;
  r ← (if c =? 0 then mret (c, s)
       else if isin [BAR; LPAR; RPAR; SEMI; AMP; LT] c then mret (c, S s)
       else if c =? GT then
         d ← at_ (S s);
         if d =? GT then mret (PLUS, S (S s)) else mret (c, S s)
       else
         e ← skip_while is_word (es - s) s;
         mret (WORD, e));
  s ← skip_while is_ws (es - snd r) (snd r);
  mret (fst r, q, snd r, s).

(** The answer and the new *ps. *)
Definition peek (s es : nat) (toks : list Z) : P (bool * nat) :=
  s ← skip_while is_ws (es - s) s;
  c ← at_ s;
  mret (negb (c =? 0) && isin toks c, s).

(** * The parser

    Every function returns the command and the new *ps.  [k] bounds the turns
    of a loop, [fuel] the depth of the recursion. *)

Fixpoint parseredirs (k : nat) (cmd s es : nat) : P (nat * nat) :=
  match k with
  | O => blocks "parseredirs"
  | S k =>
      '(b, s) ← peek s es [LT; GT];
      if (b : bool) then
        '(tok, q0, eq0, s) ← gettoken s es;
        '(tok', q, eq, s) ← gettoken s es;
        if negb (tok' =? WORD) then panic "missing file for redirection"
        else
          cmd ← (if tok =? LT then redircmd cmd q eq O_RDONLY 0
                 else if tok =? GT then redircmd cmd q eq (Z.lor O_WRONLY O_CREATE) 1
                 else if tok =? PLUS then redircmd cmd q eq (Z.lor O_WRONLY O_CREATE) 1
                 else mret cmd);
          parseredirs k cmd s es
      else mret (cmd, s)
  end.

(** cmd->argv[argc] = q; cmd->eargv[argc] = eq *)
Definition set_arg (cmd argc : nat) (q eq : option nat) : P unit :=
  modify (fun st => with_heap (alter (fun c =>
    match c with
    | EXEC argv eargv => EXEC (<[argc := q]> argv) (<[argc := eq]> eargv)
    | c => c
    end) cmd (heap st)) st).

(** The loop of parseexec. *)
Fixpoint parseargs (k : nat) (cmd argc ret s es : nat) : P (nat * nat) :=
  match k with
  | O => blocks "parseexec"
  | S k =>
      '(b, s) ← peek s es [BAR; RPAR; AMP; SEMI];
      if (b : bool) then set_arg cmd argc None None;; mret (ret, s)
      else
        '(tok, q, eq, s) ← gettoken s es;
        if tok =? 0 then set_arg cmd argc None None;; mret (ret, s)
        else if negb (tok =? WORD) then panic "syntax"
        else
          set_arg cmd argc (Some q) (Some eq);;
          let argc := S argc in
          if (MAXARGS <=? argc)%nat then panic "too many args"
          else
            '(ret, s) ← parseredirs (S es) ret s es;
            parseargs k cmd argc ret s es
  end.

Fixpoint parseamps (k : nat) (cmd s es : nat) : P (nat * nat) :=
  match k with
  | O => blocks "parseline"
  | S k =>
      '(b, s) ← peek s es [AMP];
      if (b : bool) then
        '(t0, q0, eq0, s) ← gettoken s es;
        cmd ← backcmd cmd;
        parseamps k cmd s es
      else mret (cmd, s)
  end.

Fixpoint parseline (fuel s es : nat) : P (nat * nat) :=
  match fuel with
  | O => blocks "parseline"
  | S fuel =>
      '(cmd, s) ← parsepipe fuel s es;
      '(cmd, s) ← parseamps (S es) cmd s es;
      '(b, s) ← peek s es [SEMI];
      if (b : bool) then
        '(t0, q0, eq0, s) ← gettoken s es;
        '(r, s) ← parseline fuel s es;
        cmd ← listcmd cmd r;
        mret (cmd, s)
      else mret (cmd, s)
  end
with parsepipe (fuel s es : nat) : P (nat * nat) :=
  match fuel with
  | O => blocks "parsepipe"
  | S fuel =>
      '(cmd, s) ← parseexec fuel s es;
      '(b, s) ← peek s es [BAR];
      if (b : bool) then
        '(t0, q0, eq0, s) ← gettoken s es;
        '(r, s) ← parsepipe fuel s es;
        cmd ← pipecmd cmd r;
        mret (cmd, s)
      else mret (cmd, s)
  end
with parseexec (fuel s es : nat) : P (nat * nat) :=
  match fuel with
  | O => blocks "parseexec"
  | S fuel =>
      '(b, s) ← peek s es [LPAR];
      if (b : bool) then parseblock fuel s es
      else
        cmd ← execcmd;
        '(ret, s) ← parseredirs (S es) cmd s es;
        parseargs (S es) cmd 0 ret s es
  end
with parseblock (fuel s es : nat) : P (nat * nat) :=
  match fuel with
  | O => blocks "parseblock"
  | S fuel =>
      '(b, s) ← peek s es [LPAR];
      if negb b then panic "parseblock"
      else
        '(t0, q0, eq0, s) ← gettoken s es;
        '(cmd, s) ← parseline fuel s es;
        '(b, s) ← peek s es [RPAR];
        if negb b then panic "syntax - missing )"
        else
          '(t0, q0, eq0, s) ← gettoken s es;
          parseredirs (S es) cmd s es
  end.

Definition store_nul (e : nat) : P unit := modify (fun st => with_sbuf (<[e := 0]> (sbuf st)) st).

(** for(i = 0; argv[i]; i++) *eargv[i] = 0 *)
Fixpoint nul_args (argv eargv : list (option nat)) : P unit :=
  match argv with
  | Some _ :: argv =>
      match eargv with
      | Some e :: eargv => store_nul e;; nul_args argv eargv
      | _ => fault "eargv"
      end
  | None :: _ => mret tt
  | [] => fault "argv"
  end.

Fixpoint nulterminate (fuel cmd : nat) : P unit :=
  match fuel with
  | O => blocks "nulterminate"
  | S fuel =>
      c ← deref "cmd" (fun st => heap st !! cmd);
      match c with
      | EXEC argv eargv => nul_args argv eargv
      | REDIR sub _ efile _ _ => nulterminate fuel sub;; store_nul efile
      | PIPE l r => nulterminate fuel l;; nulterminate fuel r
      | LIST l r => nulterminate fuel l;; nulterminate fuel r
      | BACK sub => nulterminate fuel sub
      end
  end.

(** A command line of [n] bytes needs no more recursion than this. *)
Definition depth (n : nat) : nat := 4 * n + 4.

Definition parsecmd : P nat :=
  es ← Prelude.gets (fun st => length (cstr (sbuf st)));
  '(cmd, s) ← parseline (depth es) 0 es;
  '(b0, s) ← peek s es [];
  if negb (s =? es)%nat then panic "syntax"
  else
    n ← Prelude.gets (fun st => length (heap st));
    nulterminate n cmd;;
    mret cmd.

End parser.
