(* ===== verification/ShProps.v ===== *)
(** The parser of sh.c against a grammar of command lines.

    A line is cut into words and symbols; a grammar over these tokens gives
    the command tree.  The theorem is that parsecmd builds the tree of the line,
    with every word a NUL-terminated string of the buffer, or reports an error
    when the line has no tree. *)

From S2P Require Import Prelude StringC Codec Ulib Sh.

(** * Lexical structure *)

Inductive token :=
| TWord (w : list Z)
| TSym (c : Z).

Fixpoint lex (l : list Z) : list token :=
  match l with
  | [] => []
  | c :: r =>
      if is_ws c then lex r
      else if c =? GT then
        match r with
        | d :: r' => if d =? GT then TSym PLUS :: lex r' else TSym GT :: lex r
        | [] => [TSym GT]
        end
      else if isin symbols c then TSym c :: lex r
      else
        match r with
        | [] => [TWord [c]]
        | d :: _ =>
            if is_word d then
              match lex r with
              | TWord w :: ts => TWord (c :: w) :: ts
              | ts => TWord [c] :: ts
              end
            else TWord [c] :: lex r
        end
  end.

(** * The grammar *)

(** A redirection: the file, the mode it is opened with and the descriptor. *)
Definition redir : Type := list Z * Z * Z.

Inductive tree :=
| TExec (argv : list (list Z))
| TRedir (t : tree) (r : redir)
| TPipe (t u : tree)
| TList (t u : tree)
| TBack (t : tree).

Definition redir_of (c : Z) (w : list Z) : option redir :=
  if c =? LT then Some (w, O_RDONLY, 0)
  else if (c =? GT) || (c =? PLUS) then Some (w, Z.lor O_WRONLY O_CREATE, 1)
  else None.

Definition is_redir (c : Z) : bool := (c =? LT) || (c =? GT) || (c =? PLUS).

(** The redirections a token list starts with; none if a file is missing. *)
Fixpoint redirs (ts : list token) : option (list redir * list token) :=
  match ts with
  | TSym c :: ts' =>
      if is_redir c then
        match ts' with
        | TWord w :: ts'' =>
            '(rs, r) ← redirs ts'';
            x ← redir_of c w;
            Some (x :: rs, r)
        | _ => None
        end
      else Some ([], ts)
  | _ => Some ([], ts)
  end.

(** A simple command: words and redirections in any order, up to an operator
    or the end. *)
Fixpoint simple (ts : list token) : option (list (list Z) * list redir * list token) :=
  match ts with
  | [] => Some ([], [], [])
  | TWord w :: ts => '(ws, rs, r) ← simple ts; Some (w :: ws, rs, r)
  | TSym c :: ts' =>
      if is_redir c then
        match ts' with
        | TWord w :: ts'' =>
            '(ws, rs, r) ← simple ts'';
            x ← redir_of c w;
            Some (ws, x :: rs, r)
        | _ => None
        end
      else if c =? LPAR then None
      else Some ([], [], ts)
  end.

Definition wrap (t : tree) (rs : list redir) : tree := fold_left TRedir rs t.

(** The ampersands a token list starts with. *)
Fixpoint amps (ts : list token) : nat * list token :=
  match ts with
  | TSym c :: ts' => if c =? AMP then let (k, r) := amps ts' in (S k, r) else (0%nat, ts)
  | _ => (0%nat, ts)
  end.

Definition backs (k : nat) (t : tree) : tree := Nat.iter k TBack t.

Definition starts (c : Z) (ts : list token) : Prop := head ts = Some (TSym c).

(** [gline ts t ts']: the tokens before [ts'] are a line that means [t]. *)
Inductive gline : list token -> tree -> list token -> Prop :=
| g_line ts t ts1 k ts2 :
    gpipe ts t ts1 -> amps ts1 = (k, ts2) -> ~ starts SEMI ts2 -> gline ts (backs k t) ts2
| g_list ts t ts1 k ts2 u ts3 :
    gpipe ts t ts1 -> amps ts1 = (k, TSym SEMI :: ts2) -> gline ts2 u ts3 ->
    gline ts (TList (backs k t) u) ts3
with gpipe : list token -> tree -> list token -> Prop :=
| g_one ts t ts1 : gexec ts t ts1 -> ~ starts BAR ts1 -> gpipe ts t ts1
| g_pipe ts t ts1 u ts2 :
    gexec ts t (TSym BAR :: ts1) -> gpipe ts1 u ts2 -> gpipe ts (TPipe t u) ts2
with gexec : list token -> tree -> list token -> Prop :=
| g_block ts t ts1 rs ts2 :
    gline ts t (TSym RPAR :: ts1) -> redirs ts1 = Some (rs, ts2) -> gexec (TSym LPAR :: ts) (wrap t rs) ts2
| g_simple ts ws rs ts1 :
    simple ts = Some (ws, rs, ts1) -> (length ws < MAXARGS)%nat -> gexec ts (wrap (TExec ws) rs) ts1.

Scheme gline_ind2 := Induction for gline Sort Prop
with gpipe_ind2 := Induction for gpipe Sort Prop
with gexec_ind2 := Induction for gexec Sort Prop.
Combined Scheme grammar_ind from gline_ind2, gpipe_ind2, gexec_ind2.

(** A line has at most one meaning. *)
Lemma grammar_det :
  (forall ts t r, gline ts t r -> forall t' r', gline ts t' r' -> t = t' /\ r = r') /\
  (forall ts t r, gpipe ts t r -> forall t' r', gpipe ts t' r' -> t = t' /\ r = r') /\
  (forall ts t r, gexec ts t r -> forall t' r', gexec ts t' r' -> t = t' /\ r = r').
Proof.
  apply grammar_ind.
  - intros ts t ts1 k ts2 _ IH Ha Hs t' r' H. inversion H as [? ? ? ? ? H1 H2 H3|? ? ? ? ? ? ? H1 H2 H3]; subst;
      apply IH in H1 as [<- <-]; rewrite Ha in H2; injection H2; intros; subst; [done|]. by destruct Hs.
  - intros ts t ts1 k ts2 u ts3 _ IH Ha _ IHu t' r' H.
    inversion H as [? ? ? ? ? H1 H2 H3|? ? ? ? ? ? ? H1 H2 H3]; subst;
      apply IH in H1 as [<- <-]; rewrite Ha in H2; injection H2; intros; subst; [by destruct H3|].
    by apply IHu in H3 as [-> ->].
  - intros ts t ts1 _ IH Hs t' r' H. inversion H as [? ? ? H1 H2|? ? ? ? ? H1 H2]; subst.
    + by apply IH.
    + apply IH in H1 as [_ ->]. by destruct Hs.
  - intros ts t ts1 u ts2 _ IH _ IHu t' r' H. inversion H as [? ? ? H1 H2|? ? ? ? ? H1 H2]; subst.
    + apply IH in H1 as [_ <-]. by destruct H2.
    + apply IH in H1 as [<- Hr]. injection Hr as <-. by apply IHu in H2 as [-> ->].
  - intros ts t ts1 rs ts2 _ IH Hr t' r' H. inversion H as [? ? ? ? ? H1 H2|? ? ? ? H1 H2]; subst; [|done].
    apply IH in H1 as [<- Heq]. injection Heq as <-. rewrite Hr in H2. by injection H2 as <- <-.
  - intros ts ws rs ts1 Hs Hl t' r' H. inversion H as [? ? ? ? ? H1 H2|? ? ? ? H1 H2]; subst; [done|].
    rewrite Hs in H1. by injection H1 as <- <- <-.
Qed.

(** * Tokens of the buffer *)

Lemma isin_spec l c : isin l c = true <-> c ∈ l.
Proof.
  unfold isin. destruct (strchr l c) eqn:E.
  - apply strchr_Some in E as (a & b & -> & _ & _). split; [|done]. intros _. apply elem_of_app. right. left.
  - apply strchr_None in E. split; [done|]. intros H. by destruct E.
Qed.

Lemma isin_false l c : isin l c = false <-> c ∉ l.
Proof. rewrite <- isin_spec. symmetry. apply not_true_iff_false. Qed.

Lemma is_word_spec c : is_word c = true <-> is_ws c = false /\ isin symbols c = false.
Proof. unfold is_word. by rewrite andb_true_iff, !negb_true_iff. Qed.

Lemma symbols_split c : isin symbols c = isin [BAR; LPAR; RPAR; SEMI; AMP; LT] c || (c =? GT).
Proof.
  apply eq_true_iff_eq. rewrite orb_true_iff, !isin_spec, Z.eqb_eq.
  unfold symbols. rewrite !elem_of_cons, elem_of_nil. unfold BAR, LPAR, RPAR, SEMI, AMP, LT, GT. lia.
Qed.

Lemma lex_ws u l : Forall (fun c => is_ws c = true) u -> lex (u ++ l) = lex l.
Proof. induction 1 as [|c u Hc _ IH]; simpl; [done|]. by rewrite Hc. Qed.

(** The first byte is not one [test] accepts. *)
Definition stops (test : Z -> bool) (l : list Z) : Prop :=
  match l with
  | [] => True
  | c :: _ => test c = false
  end.

Lemma lex_word_char c r :
  is_word c = true ->
  lex (c :: r) =
    match r with
    | [] => [TWord [c]]
    | d :: _ =>
        if is_word d then
          match lex r with
          | TWord w :: ts => TWord (c :: w) :: ts
          | ts => TWord [c] :: ts
          end
        else TWord [c] :: lex r
    end.
Proof.
  intros [Hw Hs]%is_word_spec. pose proof Hs as Hs'. rewrite symbols_split in Hs'. apply orb_false_iff in Hs' as [_ Hg].
  cbn [lex]. by rewrite Hw, Hg, Hs.
Qed.

Lemma lex_word u l :
  u <> [] -> Forall (fun c => is_word c = true) u -> stops is_word l -> lex (u ++ l) = TWord u :: lex l.
Proof.
  intros Hu HF Hl. induction HF as [|c u Hc HF IH]; [done|]. destruct u as [|d u].
  - cbn [app]. rewrite lex_word_char by done. destruct l as [|d l]; [done|]. by rewrite Hl.
  - rewrite <- app_comm_cons, lex_word_char by done. rewrite IH by done. cbn [app]. inversion HF as [|? ? Hd]. by rewrite Hd.
Qed.

Lemma lex_sym c r : isin symbols c = true -> c <> GT -> lex (c :: r) = TSym c :: lex r.
Proof.
  intros Hs Hg. cbn [lex]. destruct (is_ws c) eqn:Ew.
  - apply isin_spec in Ew, Hs. unfold whitespace, symbols in *. rewrite !elem_of_cons, elem_of_nil in *. lia.
  - by rewrite (proj2 (Z.eqb_neq _ _) Hg), Hs.
Qed.

Lemma lex_gt r :
  lex (GT :: r) =
    match r with
    | d :: r' => if d =? GT then TSym PLUS :: lex r' else TSym GT :: lex r
    | [] => [TSym GT]
    end.
Proof. reflexivity. Qed.

(** The character a token starts with. *)
Definition first_char (t : token) : option Z :=
  match t with
  | TSym c => Some (if c =? PLUS then GT else c)
  | TWord _ => None
  end.

Section tokens.
Context (line z : list Z).
Hypothesis no_nul : 0 ∉ line.

Abbreviation es := (length line).
Abbreviation toks s := (lex (drop s line)).

Definition loaded (st : shst) : Prop := sbuf st = line ++ 0 :: z.

Lemma at_spec st s : loaded st -> (s <= es)%nat -> at_ s st = Ok (hd 0 (drop s line), st).
Proof.
  intros Hb Hs. unfold at_, deref. rewrite Hb. destruct (drop s line) as [|c r] eqn:E.
  - assert (s = es) as -> by (apply (f_equal length) in E; rewrite length_drop in E; simpl in E; lia).
    by rewrite list_lookup_middle.
  - assert (line !! s = Some c) as Hc by (rewrite <- (Nat.add_0_r s), <- lookup_drop, E; done).
    by rewrite lookup_app_l, Hc by (by eapply lookup_lt_Some).
Qed.

Lemma drop_hd s c r : drop s line = c :: r -> (s < es)%nat /\ drop (S s) line = r /\ c <> 0.
Proof.
  intros E. assert (line !! s = Some c) as Hc by (rewrite <- (Nat.add_0_r s), <- lookup_drop, E; done).
  split; [by eapply lookup_lt_Some|]. split.
  - rewrite (drop_S line c s Hc) in E. by injection E.
  - intros ->. apply no_nul. by eapply list_elem_of_lookup_2.
Qed.

Lemma skip_while_spec test st s :
  loaded st -> (s <= es)%nat -> exists u r, drop s line = u ++ r /\ Forall (fun c => test c = true) u /\
    stops test r /\ skip_while test (es - s) s st = Ok ((s + length u)%nat, st).
Proof.
  intros Hb. remember (es - s)%nat as k eqn:Hk. revert s Hk. induction k as [|k IH]; intros s Hk Hs.
  - exists [], []. rewrite drop_ge by lia. simpl. by rewrite Nat.add_0_r.
  - cbn [skip_while]. rewrite (bind_Ok _ _ _ _ _ (at_spec st s Hb Hs)).
    destruct (drop s line) as [|c r] eqn:E; [apply (f_equal length) in E; rewrite length_drop in E; simpl in E; lia|].
    destruct (drop_hd _ _ _ E) as (_ & Hr & _). cbn [hd]. destruct (test c) eqn:Et.
    + destruct (IH (S s) ltac:(lia) ltac:(lia)) as (u & r' & Hd & Hu & Hst & Hsk).
      exists (c :: u), r'. split; [by rewrite <- Hr, Hd|]. split; [by constructor|]. split; [done|].
      rewrite Hsk. do 2 f_equal. simpl. lia.
    + exists [], (c :: r). simpl. by rewrite Nat.add_0_r.
Qed.

Lemma skip_ws st s :
  loaded st -> (s <= es)%nat -> exists s', skip_while is_ws (es - s) s st = Ok (s', st) /\ (s <= s' <= es)%nat /\
    toks s' = toks s /\ stops is_ws (drop s' line).
Proof.
  intros Hb Hs. destruct (skip_while_spec is_ws st s Hb Hs) as (u & r & Hd & Hu & Hr & Hsk).
  assert (drop (s + length u) line = r) as Hd' by (by rewrite <- drop_drop, Hd, drop_app_length).
  assert (es - s = length u + length r)%nat by (by rewrite <- length_drop, Hd, length_app).
  exists (s + length u)%nat. rewrite Hd', Hd, lex_ws by done. split; [done|]. split; [lia|]. by split.
Qed.

(** A word of the line: its bytes are word characters and it cannot be longer. *)
Definition word_at (q eq : nat) (w : list Z) : Prop :=
  eq = (q + length w)%nat /\ w <> [] /\ Forall (fun c => is_word c = true) w /\
  (exists r, drop q line = w ++ r /\ stops is_word r).

Definition token_read (tok : Z) (q eq : nat) (t : option token) : Prop :=
  match t with
  | None => tok = 0
  | Some (TSym c) => tok = c /\ isin (PLUS :: symbols) c = true
  | Some (TWord w) => tok = WORD /\ word_at q eq w
  end.

Lemma gettoken_spec st s :
  loaded st -> (s <= es)%nat -> exists tok q eq s',
    gettoken s es st = Ok ((tok, q, eq, s'), st) /\ (s <= s' <= es)%nat /\
    token_read tok q eq (head (toks s)) /\ toks s' = tail (toks s) /\ (toks s <> [] -> (s < s')%nat).
Proof.
  intros Hb Hs. destruct (skip_ws st s Hb Hs) as (q & Hq & Hqs & Htq & Hst).
  unfold gettoken. rewrite (bind_Ok _ _ _ _ _ Hq). rewrite (bind_Ok _ _ _ _ _ (at_spec st q Hb ltac:(lia))).
  assert (forall tok eq, (q <= eq <= es)%nat -> token_read tok q eq (head (toks s)) -> lex (drop eq line) = tail (toks s) ->
    (toks s <> [] -> (q < eq)%nat) -> exists tok' q' eq' s',
    (s ← skip_while is_ws (es - snd (tok, eq)) (snd (tok, eq)); mret (fst (tok, eq), q, snd (tok, eq), s)) st =
      Ok ((tok', q', eq', s'), st) /\ (s <= s' <= es)%nat /\ token_read tok' q' eq' (head (toks s)) /\
      toks s' = tail (toks s) /\ (toks s <> [] -> (s < s')%nat)) as Hfin.
  { intros tok eq He Ht Hl Hp. destruct (skip_ws st eq Hb ltac:(lia)) as (s' & H1 & H2 & H3 & _).
    exists tok, q, eq, s'. cbn [fst snd]. rewrite (bind_Ok _ _ _ _ _ H1). split; [done|]. split; [lia|]. split; [done|].
    split; [congruence|]. intros Hne. apply Hp in Hne. lia. }
  rewrite <- Htq in Hfin |- *. clear Htq Hq.
  destruct (drop q line) as [|c r] eqn:E; cbn [hd].
  { rewrite Z.eqb_refl, bind_ret. apply Hfin; [lia|done|by rewrite E|done]. }
  destruct (drop_hd _ _ _ E) as (Hlt & Hr & Hc0). rewrite (proj2 (Z.eqb_neq c 0)) by done.
  destruct (isin _ c) eqn:Esym.
  { assert (c <> GT) as Hg by (intros ->; discriminate Esym).
    rewrite bind_ret. rewrite lex_sym in Hfin |- * by (rewrite ?symbols_split, ?Esym; done).
    apply Hfin; [lia| |by rewrite Hr|lia]. split; [done|]. apply isin_spec. right. apply isin_spec.
    by rewrite symbols_split, Esym. }
  destruct (Z.eqb_spec c GT) as [->|Hg].
  { assert ((d ← at_ (S q); if d =? GT then mret (PLUS, S (S q)) else mret (GT, S q)) st =
      Ok (if hd 0 r =? GT then (PLUS, S (S q)) else (GT, S q), st)) as Hm.
    { rewrite (bind_Ok _ _ _ _ _ (at_spec st (S q) Hb ltac:(lia))), Hr. by destruct (_ =? GT). }
    rewrite (bind_Ok _ _ _ _ _ Hm). rewrite lex_gt in Hfin |- *. destruct r as [|d r']; cbn [hd].
    - apply Hfin; [lia|done|by rewrite Hr|simpl; lia].
    - destruct (drop_hd _ _ _ Hr) as (Hlt' & Hr' & _). destruct (d =? GT).
      + apply Hfin; [lia|done|by rewrite Hr'|lia].
      + apply Hfin; [lia|done|by rewrite Hr|lia]. }
  assert (is_word c = true) as Hw.
  { apply is_word_spec. split; [done|]. rewrite symbols_split, Esym. by apply Z.eqb_neq. }
  destruct (skip_while_spec is_word st q Hb ltac:(lia)) as (u & r' & Hd & Hu & Hst' & Hsk).
  assert (u <> []) as Hne by (intros ->; rewrite E in Hd; simpl in Hd; subst r'; simpl in Hst'; congruence).
  assert (es - q = length u + length r')%nat by (by rewrite <- length_drop, Hd, length_app).
  assert (length u <> 0)%nat by (by destruct u).
  assert ((e ← skip_while is_word (es - q) q; mret (WORD, e)) st = Ok ((WORD, q + length u)%nat, st)) as Hm
    by (by rewrite (bind_Ok _ _ _ _ _ Hsk)).
  rewrite (bind_Ok _ _ _ _ _ Hm). rewrite <- E, Hd, lex_word in Hfin |- * by done. apply Hfin.
  - lia.
  - split; [done|]. split; [done|]. split; [done|]. split; [done|]. by exists r'.
  - by rewrite <- drop_drop, Hd, drop_app_length.
  - lia.
Qed.

Lemma peek_spec st s l :
  loaded st -> (s <= es)%nat -> (forall c, c ∈ l -> isin symbols c = true) ->
  exists s', peek s es l st = Ok ((match head (toks s) ≫= first_char with Some c => isin l c | None => false end, s'), st) /\
    (s <= s' <= es)%nat /\ toks s' = toks s /\ (toks s = [] <-> s' = es).
Proof.
  intros Hb Hs Hl. destruct (skip_ws st s Hb Hs) as (q & Hq & Hqs & Htq & Hst).
  exists q. split; [|split; [done|]; split; [done|]].
  - unfold peek. rewrite (bind_Ok _ _ _ _ _ Hq), (bind_Ok _ _ _ _ _ (at_spec st q Hb ltac:(lia))). rewrite <- Htq.
    unfold mret, M_ret. do 3 f_equal. destruct (drop q line) as [|c r] eqn:E; cbn [hd]; [done|].
    destruct (drop_hd _ _ _ E) as (_ & _ & Hc0). rewrite (proj2 (Z.eqb_neq c 0)) by done. cbn [negb andb].
    destruct (decide (c = GT)) as [->|Hg].
    + rewrite lex_gt. destruct r as [|d r]; [done|]. by destruct (d =? GT).
    + destruct (isin symbols c) eqn:Es.
      * rewrite lex_sym by done. cbn. destruct (Z.eqb_spec c PLUS) as [->|]; [done|]. done.
      * rewrite lex_word_char by (by apply is_word_spec).
        assert (isin l c = false) as -> by (apply isin_false; intros Hc; apply Hl in Hc; congruence).
        destruct r as [|d r]; [done|]. destruct (is_word d); [|done]. by destruct (lex (d :: r)) as [|[] ?].
  - rewrite <- Htq. destruct (drop q line) as [|c r] eqn:E.
    + split; [|done]. intros _. apply (f_equal length) in E. rewrite length_drop in E. simpl in E. lia.
    + destruct (drop_hd _ _ _ E) as (Hlt & _). split; [|lia]. intros H. exfalso. revert H.
      destruct (decide (c = GT)) as [->|Hg]; [rewrite lex_gt; destruct r as [|d r]; [done|]; by destruct (d =? GT)|].
      destruct (isin symbols c) eqn:Es; [by rewrite lex_sym|]. rewrite lex_word_char by (by apply is_word_spec).
      destruct r as [|d r]; [done|]. destruct (is_word d); [|done]. by destruct (lex (d :: r)) as [|[] ?].
Qed.

(** * Commands on the heap *)

(** An array of arguments with [qs] stored in it. *)
Definition arr (qs : list nat) : list (option nat) := (Some <$> qs) ++ replicate (MAXARGS - length qs) None.

(** The node [p] of [h] is the command [t]; [W] relates the two pointers of a
    word to its bytes. *)
Inductive shown (W : nat -> nat -> list Z -> Prop) (h : list cmd) : nat -> tree -> Prop :=
| sh_exec p qs eqs ws :
    h !! p = Some (EXEC (arr qs) (arr eqs)) -> Forall3 W qs eqs ws -> (length ws < MAXARGS)%nat ->
    shown W h p (TExec ws)
| sh_redir p sub q eq w m f t :
    h !! p = Some (REDIR sub q eq m f) -> (sub < p)%nat -> W q eq w -> shown W h sub t ->
    shown W h p (TRedir t (w, m, f))
| sh_pipe p l r t u :
    h !! p = Some (PIPE l r) -> (l < p)%nat -> (r < p)%nat -> shown W h l t -> shown W h r u ->
    shown W h p (TPipe t u)
| sh_list p l r t u :
    h !! p = Some (LIST l r) -> (l < p)%nat -> (r < p)%nat -> shown W h l t -> shown W h r u ->
    shown W h p (TList t u)
| sh_back p sub t :
    h !! p = Some (BACK sub) -> (sub < p)%nat -> shown W h sub t -> shown W h p (TBack t).

(** The node [ret] is the node [p] inside of the redirections [rs]. *)
Inductive wrapped (h : list cmd) (p : nat) : nat -> list redir -> Prop :=
| wr_nil : wrapped h p p []
| wr_snoc c rs ret q eq w m f :
    wrapped h p c rs -> h !! ret = Some (REDIR c q eq m f) -> (c < ret)%nat -> word_at q eq w ->
    wrapped h p ret (rs ++ [(w, m, f)]).

(** The nodes of [h], but the node [p], are unchanged in [h']. *)
Definition keeps_but (p : nat) (h h' : list cmd) : Prop :=
  (length h <= length h')%nat /\ forall i, i <> p -> (i < length h)%nat -> h' !! i = h !! i.

Definition kept (h h' : list cmd) : Prop :=
  (length h <= length h')%nat /\ forall i, (i < length h)%nat -> h' !! i = h !! i.

Lemma kept_refl h : kept h h.
Proof. by split. Qed.

Lemma kept_trans h1 h2 h3 : kept h1 h2 -> kept h2 h3 -> kept h1 h3.
Proof. intros [L1 H1] [L2 H2]. split; [lia|]. intros i Hi. rewrite H2 by lia. by apply H1. Qed.

Lemma kept_snoc h c : kept h (h ++ [c]).
Proof. split; [rewrite length_app; lia|]. intros i Hi. by rewrite lookup_app_l. Qed.

Lemma kept_but p h h' : kept h h' -> keeps_but p h h'.
Proof. intros [L H]. split; [done|]. intros i _. apply H. Qed.

Lemma keeps_but_trans p h1 h2 h3 : keeps_but p h1 h2 -> keeps_but p h2 h3 -> keeps_but p h1 h3.
Proof. intros [L1 H1] [L2 H2]. split; [lia|]. intros i Hp Hi. rewrite H2 by lia. by apply H1. Qed.

Lemma keeps_but_alter p h f : keeps_but p h (alter f p h).
Proof. split; [by rewrite length_alter|]. intros i Hp _. by apply list_lookup_alter_ne. Qed.

Lemma keeps_but_last h c h' : keeps_but (length h) (h ++ [c]) h' -> kept h h'.
Proof.
  intros [L H]. rewrite length_app in *. simpl in *. split; [lia|]. intros i Hi. rewrite H by lia. by apply lookup_app_l.
Qed.

Lemma shown_kept W h h' p t : shown W h p t -> kept h h' -> shown W h' p t.
Proof.
  intros Hs [_ Hk]. induction Hs as [p ? ? ? H|? ? ? ? ? ? ? ? H|? ? ? ? ? H|? ? ? ? ? H|? ? ? H];
    assert (h' !! _ = _) as H' by (rewrite Hk by (by eapply lookup_lt_Some); exact H); by econstructor.
Qed.

Lemma wrapped_le h p ret rs : wrapped h p ret rs -> (p <= ret)%nat.
Proof. induction 1; lia. Qed.

Lemma wrapped_kept h h' p ret rs : wrapped h p ret rs -> keeps_but p h h' -> wrapped h' p ret rs.
Proof.
  intros Hw [_ Hk]. induction Hw as [|c rs ret q eq w m f Hw IH H Hc Hq]; [constructor|].
  apply wrapped_le in Hw. econstructor; [exact IH| |exact Hc|exact Hq].
  rewrite Hk; [done|lia|by eapply lookup_lt_Some].
Qed.

Lemma wrapped_app h p c ret rs rs' : wrapped h p c rs -> wrapped h c ret rs' -> wrapped h p ret (rs ++ rs').
Proof.
  intros H1 H2. induction H2 as [|d rs' ret q eq w m f Hw IH H Hc Hq]; [by rewrite app_nil_r|].
  rewrite app_assoc. by econstructor.
Qed.

Lemma shown_wrapped h p ret rs t :
  shown word_at h p t -> wrapped h p ret rs -> shown word_at h ret (wrap t rs).
Proof.
  intros Hs Hw. induction Hw as [|c rs ret q eq w m f Hw IH H Hc Hq]; [done|].
  unfold wrap. rewrite fold_left_app. simpl. by econstructor.
Qed.

Lemma arr_store qs q :
  (length qs < MAXARGS)%nat -> <[length qs := Some q]> (arr qs) = arr (qs ++ [q]).
Proof.
  intros H. unfold arr. rewrite insert_app_r_alt by (rewrite length_fmap; lia). rewrite length_fmap, Nat.sub_diag.
  rewrite fmap_app, length_app, <- app_assoc. simpl. f_equal.
  replace (MAXARGS - length qs)%nat with (S (MAXARGS - (length qs + 1))) by lia. done.
Qed.

Lemma arr_null qs : <[length qs := None]> (arr qs) = arr qs.
Proof.
  unfold arr. rewrite insert_app_r_alt by (rewrite length_fmap; lia). rewrite length_fmap, Nat.sub_diag.
  by destruct (MAXARGS - length qs)%nat.
Qed.

Context (malloc : nat -> bool).
Hypothesis malloc_ok : forall n, malloc n = true.

Lemma alloc_spec c st : alloc malloc c st = Ok (length (heap st), with_heap (heap st ++ [c]) st).
Proof. unfold alloc. munfold. by rewrite malloc_ok. Qed.

(** A parsing function returns from [st], where it is at [s], with a result
    the relation [R] on the tokens allows, or reports that there is none. *)
Definition parsed {A} (m : P (nat * nat)) (R : A -> list token -> Prop) (G : list cmd -> nat -> A -> Prop)
    (s : nat) (st : shst) : Prop :=
  (exists ret s' a h, m st = Ok ((ret, s'), with_heap h st) /\ R a (toks s') /\ (s <= s' <= es)%nat /\
     kept (heap st) h /\ G h ret a) \/
  ((exists e, m st = Panic e) /\ forall a ts, ~ R a ts).

Lemma redir_first ts :
  match head ts ≫= first_char with Some c => isin [LT; GT] c | None => false end =
  match ts with TSym c :: _ => is_redir c | _ => false end.
Proof.
  destruct ts as [|[w|c] ts]; [done|done|]. cbn [head mbind option_bind first_char].
  destruct (Z.eqb_spec c PLUS) as [->|]; [done|]. apply eq_true_iff_eq. unfold is_redir.
  rewrite isin_spec, !orb_true_iff, !Z.eqb_eq, !elem_of_cons, elem_of_nil. unfold PLUS in *. lia.
Qed.

Lemma symbols_of l : forallb (isin symbols) l = true -> forall c, c ∈ l -> isin symbols c = true.
Proof. rewrite forallb_forall. intros H c Hc. apply H. by apply list_elem_of_In. Qed.

(** The operator [c] is next. *)
Lemma sym_first c ts :
  isin symbols c = true -> c <> GT ->
  match head ts ≫= first_char with Some x => isin [c] x | None => false end = true <-> starts c ts.
Proof.
  intros Hc Hg. destruct ts as [|[w|x] ts]; cbn [head mbind option_bind first_char]; [by split|by split|].
  rewrite isin_spec, elem_of_cons, elem_of_nil. unfold starts. simpl.
  destruct (Z.eqb_spec x PLUS) as [->|]; [split; [intros [<-|[]]; done|by intros [= <-]]|].
  split; [by intros [->|[]]|]. intros [= <-]. by left.
Qed.

Lemma redirs_none ts :
  match ts with TSym c :: _ => is_redir c | _ => false end = false -> redirs ts = Some ([], ts).
Proof. destruct ts as [|[w|c] ts]; [done|done|]. cbn [redirs]. by intros ->. Qed.

(** The node a redirection makes. *)
Lemma redir_node c w q eq cmd st :
  is_redir c = true -> exists m f, redir_of c w = Some (w, m, f) /\
    (if c =? LT then redircmd malloc cmd q eq O_RDONLY 0
     else if c =? GT then redircmd malloc cmd q eq (Z.lor O_WRONLY O_CREATE) 1
     else if c =? PLUS then redircmd malloc cmd q eq (Z.lor O_WRONLY O_CREATE) 1
     else mret cmd) st = Ok (length (heap st), with_heap (heap st ++ [REDIR cmd q eq m f]) st).
Proof.
  unfold is_redir, redir_of, redircmd. intros H. destruct (c =? LT); [eexists _, _; split; [done|apply alloc_spec]|].
  destruct (c =? GT); [eexists _, _; split; [done|apply alloc_spec]|].
  destruct (c =? PLUS); [eexists _, _; split; [done|apply alloc_spec]|done].
Qed.

Lemma parseredirs_spec k cmd s st :
  loaded st -> (s <= es)%nat -> (es - s < k)%nat -> (cmd < length (heap st))%nat ->
  parsed (parseredirs malloc k cmd s es) (fun rs ts => redirs (toks s) = Some (rs, ts))
    (fun h ret rs => wrapped h cmd ret rs /\ (ret < length h)%nat) s st.
Proof.
  revert cmd s st. induction k as [|k IH]; intros cmd s st Hb Hs Hk Hc; [lia|]. cbn [parseredirs].
  destruct (peek_spec st s [LT; GT] Hb Hs) as (s1 & Hp & Hs1 & Ht1 & _); [by apply symbols_of|].
  unfold parsed. rewrite (bind_Ok _ _ _ _ _ Hp). rewrite redir_first.
  destruct (match toks s with TSym c :: _ => is_redir c | _ => false end) eqn:Er.
  2: { left. exists cmd, s1, [], (heap st). rewrite Ht1, redirs_none by done.
       split; [by destruct st|]. split; [done|]. split; [lia|]. split; [apply kept_refl|]. split; [constructor|done]. }
  destruct (gettoken_spec st s1 Hb ltac:(lia)) as (tok & q0 & eq0 & s2 & Hg & Hs2 & Hr & Ht2 & Hlt).
  rewrite (bind_Ok _ _ _ _ _ Hg). rewrite Ht1 in *. destruct (toks s) as [|[w|c] ts]; [done|done|].
  destruct Hr as [-> _]. simpl in Ht2. specialize (Hlt ltac:(done)).
  destruct (gettoken_spec st s2 Hb ltac:(lia)) as (tok & q & eq & s3 & Hg' & Hs3 & Hr & Ht3 & _).
  rewrite (bind_Ok _ _ _ _ _ Hg'). rewrite Ht2 in *. cbn [redirs]. rewrite Er.
  destruct ts as [|[w|d] ts]; simpl in Hr, Ht3.
  { subst tok. right. split; [by eexists|done]. }
  2: { destruct Hr as [-> Hd]. rewrite (proj2 (Z.eqb_neq d WORD)) by (intros ->; done). right. split; [by eexists|done]. }
  destruct Hr as [-> Hw]. cbn [negb]. rewrite Z.eqb_refl. cbn [negb].
  destruct (redir_node c w q eq cmd st Er) as (m & f & Hx & Ha). rewrite (bind_Ok _ _ _ _ _ Ha). rewrite Hx.
  set (h1 := heap st ++ [REDIR cmd q eq m f]).
  destruct (IH (length (heap st)) s3 (with_heap h1 st)) as [(ret & s' & rs & h & Hm & HR & Hs' & Hk' & Hwr & Hl)|[He Hno]].
  - done.
  - lia.
  - lia.
  - simpl. unfold h1. rewrite length_app. simpl. lia.
  - left. exists ret, s', ((w, m, f) :: rs), h. rewrite Ht3 in HR. rewrite HR. simpl in Hk'.
    split; [done|]. split; [done|]. split; [lia|]. split; [by eapply kept_trans; [apply kept_snoc|]|]. split; [|done].
    apply (wrapped_app h cmd (length (heap st)) ret [(w, m, f)] rs); [|done].
    apply (wr_snoc h cmd cmd [] _ q eq); [constructor| |done|done].
    rewrite (proj2 Hk'); unfold h1; [by rewrite list_lookup_middle|rewrite length_app; simpl; lia].
  - right. split; [done|]. intros a ts' H. rewrite Ht3 in Hno.
    destruct (redirs ts) as [[rs r]|]; [|done]. by apply (Hno rs r).
Qed.

(** No redirection is next. *)
Definition no_redir (ts : list token) : Prop :=
  match ts with
  | TSym c :: _ => is_redir c = false
  | _ => True
  end.

Lemma redirs_simple ts :
  match redirs ts with
  | None => simple ts = None
  | Some (rs, r) => no_redir r /\ simple ts = ('(ws, rs', x) ← simple r; Some (ws, rs ++ rs', x))
  end.
Proof.
  assert (forall ts, simple ts = ('(ws, rs', x) ← simple ts; Some (ws, [] ++ rs', x))) as Hid.
  { intros ts'. by destruct (simple ts') as [[[] ?]|]. }
  induction ts as [ts IH] using (well_founded_induction (well_founded_ltof _ length)).
  destruct ts as [|[w|c] ts]; [by split|split; [done|apply Hid]|]. cbn [redirs].
  destruct (is_redir c) eqn:Er; [|split; [done|apply Hid]]. cbn [simple]. rewrite Er.
  destruct ts as [|[w|d] ts]; [done| |done].
  specialize (IH ts ltac:(unfold ltof; simpl; lia)). destruct (redirs ts) as [[rs r]|]; cbn [mbind option_bind].
  - destruct IH as [Hn ->]. destruct (redir_of c w) as [x|] eqn:Ex; cbn [mbind option_bind].
    + split; [done|]. by destruct (simple r) as [[[] ?]|].
    + unfold redir_of, is_redir in *. by destruct (c =? LT), (c =? GT), (c =? PLUS).
  - by rewrite IH.
Qed.

Lemma stop_first ts :
  no_redir ts ->
  match head ts ≫= first_char with Some x => isin [BAR; RPAR; AMP; SEMI] x | None => false end = true ->
  simple ts = Some ([], [], ts).
Proof.
  intros Hn. destruct ts as [|[w|c] ts]; [done|done|]. cbn [head mbind option_bind first_char simple]. simpl in Hn.
  rewrite Hn. destruct (Z.eqb_spec c PLUS) as [->|]; [done|]. intros Hc.
  destruct (Z.eqb_spec c LPAR) as [->|]; done.
Qed.

(** What parseargs does, with the words [ws] and the redirections [rs] read. *)
Definition args_parsed (m : P (nat * nat)) (p : nat) (ws : list (list Z)) (rs : list redir) (s : nat) (st : shst) : Prop :=
  (exists ret s' ws' rs' h, m st = Ok ((ret, s'), with_heap h st) /\ simple (toks s) = Some (ws', rs', toks s') /\
     (length (ws ++ ws') < MAXARGS)%nat /\ (s <= s' <= es)%nat /\ keeps_but p (heap st) h /\
     shown word_at h ret (wrap (TExec (ws ++ ws')) (rs ++ rs')) /\ (ret < length h)%nat) \/
  ((exists e, m st = Panic e) /\ forall ws' rs' ts, simple (toks s) = Some (ws', rs', ts) ->
     (MAXARGS <= length (ws ++ ws'))%nat).

Definition exec_node (p : nat) (ws : list (list Z)) (h : list cmd) : Prop :=
  exists qs eqs, h !! p = Some (EXEC (arr qs) (arr eqs)) /\ Forall3 word_at qs eqs ws.

Lemma set_arg_null p ws st :
  exec_node p ws (heap st) ->
  exists h, set_arg p (length ws) None None st = Ok (tt, with_heap h st) /\ keeps_but p (heap st) h /\ exec_node p ws h.
Proof.
  intros (qs & eqs & Hp & HF). eexists. split; [done|]. split; [apply keeps_but_alter|].
  exists qs, eqs. split; [|done]. rewrite list_lookup_alter_eq, Hp. simpl.
  pose proof (Forall3_length_lm _ _ _ _ HF) as H1. pose proof (Forall3_length_lr _ _ _ _ HF) as H2.
  rewrite <- H2 at 1. rewrite arr_null. rewrite <- H2, H1. by rewrite arr_null.
Qed.

Lemma set_arg_word p ws st q eq w :
  exec_node p ws (heap st) -> (length ws < MAXARGS)%nat -> word_at q eq w ->
  exists h, set_arg p (length ws) (Some q) (Some eq) st = Ok (tt, with_heap h st) /\
    keeps_but p (heap st) h /\ exec_node p (ws ++ [w]) h.
Proof.
  intros (qs & eqs & Hp & HF) Hl Hw. eexists. split; [done|]. split; [apply keeps_but_alter|].
  exists (qs ++ [q]), (eqs ++ [eq]). split; [|apply Forall3_app; [done|constructor; [done|constructor]]].
  rewrite list_lookup_alter_eq, Hp. simpl.
  pose proof (Forall3_length_lm _ _ _ _ HF) as H1. pose proof (Forall3_length_lr _ _ _ _ HF) as H2.
  rewrite <- H2, arr_store by lia. rewrite H1, arr_store by lia. done.
Qed.

Lemma parseargs_end p ws rs ret s st m :
  exec_node p ws (heap st) -> (length ws < MAXARGS)%nat -> wrapped (heap st) p ret rs -> (ret < length (heap st))%nat ->
  forall s', m st = (set_arg p (length ws) None None;; mret (ret, s')) st -> simple (toks s) = Some ([], [], toks s') ->
  (s <= s' <= es)%nat -> args_parsed m p ws rs s st.
Proof.
  intros He Hl Hw Hr s' Hm Hsi Hs. destruct (set_arg_null p ws st He) as (h & Hset & Hk & (qs & eqs & Hp & HF)).
  left. exists ret, s', [], [], h. rewrite !app_nil_r. rewrite Hm, (bind_Ok _ _ _ _ _ Hset).
  split; [done|]. split; [done|]. split; [done|]. split; [done|]. split; [done|].
  split; [|destruct Hk; lia]. apply (shown_wrapped h p ret rs); [by econstructor|by eapply wrapped_kept].
Qed.

(** One argument and its redirections before the others. *)
Lemma parseargs_word m m' p ws w rs rs2 s s3 ts st h2 :
  toks s = TWord w :: ts -> (s <= s3)%nat -> m st = m' (with_heap h2 st) -> keeps_but p (heap st) h2 ->
  simple ts = ('(ws, rs', x) ← simple (toks s3); Some (ws, rs2 ++ rs', x)) ->
  args_parsed m' p (ws ++ [w]) (rs ++ rs2) s3 (with_heap h2 st) -> args_parsed m p ws rs s st.
Proof.
  intros Ets Hs Hm Hkb Hrs [(ret' & s' & ws' & rs' & h & Hma & Hsi & Hlen & Hs' & Hk' & Hsh & Hret)|[[e Hpa] Hno]].
  - left. exists ret', s', (w :: ws'), (rs2 ++ rs'), h. rewrite Ets. cbn [simple]. rewrite Hrs, Hsi.
    rewrite <- app_assoc in Hlen, Hsh. rewrite <- app_assoc in Hsh. simpl in Hlen, Hsh.
    split; [by rewrite Hm|]. split; [done|]. split; [done|]. split; [lia|].
    split; [by eapply keeps_but_trans|]. done.
  - right. split; [exists e; by rewrite Hm|]. intros ws' rs' ts'. rewrite Ets. cbn [simple]. rewrite Hrs.
    destruct (simple (toks s3)) as [[[ws1 rs1] x]|] eqn:Esi; [|done]. intros [= <- _ _].
    specialize (Hno _ _ _ eq_refl). by rewrite <- app_assoc in Hno.
Qed.

(** The only symbol that is neither a redirection nor the end of the arguments. *)
Lemma symbol_in_args c :
  isin (PLUS :: symbols) c = true -> is_redir c = false ->
  isin [BAR; RPAR; AMP; SEMI] (if c =? PLUS then GT else c) = false -> c <> 0 /\ c <> WORD /\ c = LPAR.
Proof.
  intros Hc Hn Hstop. apply isin_spec in Hc. unfold symbols in Hc. rewrite !elem_of_cons, elem_of_nil in Hc.
  unfold is_redir, isin, PLUS, LT, GT, LPAR, WORD in *.
  destruct Hc as [->|[->|[->|[->|[->|[->|[->|[->|[]]]]]]]]]; done.
Qed.

Lemma parseargs_spec k p ws rs ret s st :
  loaded st -> (s <= es)%nat -> (es - s < k)%nat -> exec_node p ws (heap st) -> (length ws < MAXARGS)%nat ->
  wrapped (heap st) p ret rs -> (ret < length (heap st))%nat -> no_redir (toks s) ->
  args_parsed (parseargs malloc k p (length ws) ret s es) p ws rs s st.
Proof.
  revert ws rs ret s st. induction k as [|k IH]; intros ws rs ret s st Hb Hs Hk He Hl Hw Hr Hn; [lia|].
  destruct (peek_spec st s [BAR; RPAR; AMP; SEMI] Hb Hs) as (s1 & Hp & Hs1 & Ht1 & _); [by apply symbols_of|].
  pose proof (bind_Ok _ (fun r : bool * nat => let '(b, s) := r in
    if b then set_arg p (length ws) None None;; mret (ret, s)
    else
      '(tok, q, eq, s) ← gettoken s es;
      if tok =? 0 then set_arg p (length ws) None None;; mret (ret, s)
      else if negb (tok =? WORD) then panic "syntax"
      else
        set_arg p (length ws) (Some q) (Some eq);;
        if (MAXARGS <=? S (length ws))%nat then panic "too many args"
        else '(ret, s) ← parseredirs malloc (S es) ret s es; parseargs malloc k p (S (length ws)) ret s es) _ _ _ Hp) as Hm.
  match type of Hm with _ = ?r => change (parseargs malloc (S k) p (length ws) ret s es st = r) in Hm end.
  cbn beta iota in Hm.
  destruct (match head (toks s) ≫= first_char with Some c => isin _ c | None => false end) eqn:Estop.
  { apply (parseargs_end p ws rs ret s st _ He Hl Hw Hr s1 Hm); [|lia]. rewrite Ht1. by apply stop_first. }
  destruct (gettoken_spec st s1 Hb ltac:(lia)) as (tok & q & eq & s2 & Hg & Hs2 & Ht & Ht2 & Hlt). rewrite Ht1 in *.
  rewrite (bind_Ok _ _ _ _ _ Hg) in Hm.
  destruct (toks s) as [|[w|c] ts] eqn:Ets; simpl in Ht, Ht2.
  - subst tok. apply (parseargs_end p ws rs ret s st _ He Hl Hw Hr s2 Hm); [|lia]. by rewrite Ets, Ht2.
  - destruct Ht as [-> Hwd]. destruct (set_arg_word p ws st q eq w He Hl Hwd) as (h1 & Hset & Hk1 & He1).
    cbn [Z.eqb WORD negb Pos.eqb] in Hm. rewrite (bind_Ok _ _ _ _ _ Hset) in Hm.
    destruct (Nat.leb_spec MAXARGS (S (length ws))) as [Hmax|Hmax].
    { right. split; [eexists; exact Hm|]. intros ws' rs' ts'. rewrite Ets. cbn [simple].
      destruct (simple ts) as [[[ws1 rs1] x]|]; [|done]. intros [= <- _ _]. rewrite length_app. simpl. lia. }
    destruct (parseredirs_spec (S es) ret s2 (with_heap h1 st)) as [(ret2 & s3 & rs2 & h2 & Hm2 & HR & Hs3 & Hk2 & Hw2 & Hr2)|[[e He2] Hno]];
      [done|lia|lia|destruct Hk1; simpl; lia| |].
    2: { right. rewrite (bind_Panic _ _ _ _ He2) in Hm. split; [eexists; exact Hm|]. intros ws' rs' ts'. rewrite Ets. cbn [simple].
         rewrite Ht2 in Hno. pose proof (redirs_simple ts) as Hrs. destruct (redirs ts) as [[rs1 x]|]; [by destruct (Hno rs1 x)|].
         by rewrite Hrs. }
    rewrite (bind_Ok _ _ _ _ _ Hm2) in Hm. rewrite Ht2 in HR. pose proof (redirs_simple ts) as Hrs. rewrite HR in Hrs.
    destruct Hrs as [Hn3 Hrs]. simpl in Hk2.
    assert (keeps_but p (heap st) h2) as Hkb by (eapply keeps_but_trans; [exact Hk1|by apply kept_but]).
    assert (exec_node p (ws ++ [w]) h2) as He3.
    { destruct He1 as (qs & eqs & Hp1 & HF). exists qs, eqs. split; [|done].
      rewrite (proj2 Hk2); [done|by eapply lookup_lt_Some]. }
    specialize (IH (ws ++ [w]) (rs ++ rs2) ret2 s3 (with_heap h2 st)). rewrite length_app in IH. simpl length in IH.
    rewrite Nat.add_1_r in IH. specialize (Hlt ltac:(done)).
    eapply parseargs_word; [done| |exact Hm|done|exact Hrs|apply IH; try done; try lia]; [lia|].
    eapply wrapped_app; [|exact Hw2]. by eapply wrapped_kept.
  - destruct Ht as [-> Hc]. destruct (symbol_in_args c Hc Hn Estop) as (Hc0 & Hcw & ->).
    right. split; [eexists; exact Hm|]. by rewrite Ets.
Qed.

Definition is_cmd (h : list cmd) (ret : nat) (t : tree) : Prop := shown word_at h ret t /\ (ret < length h)%nat.

Lemma is_cmd_kept h h' ret t : is_cmd h ret t -> kept h h' -> is_cmd h' ret t.
Proof. intros [Hs Hl] Hk. split; [by eapply shown_kept|destruct Hk; lia]. Qed.

Lemma is_cmd_new h c t :
  shown word_at (h ++ [c]) (length h) t -> is_cmd (h ++ [c]) (length h) t.
Proof. intros Hs. split; [done|]. rewrite length_app. simpl. lia. Qed.

Lemma parseamps_spec k cmd t s st :
  loaded st -> (s <= es)%nat -> (es - s < k)%nat -> is_cmd (heap st) cmd t ->
  exists ret s' a h, parseamps malloc k cmd s es st = Ok ((ret, s'), with_heap h st) /\ amps (toks s) = (a, toks s') /\
    (s <= s' <= es)%nat /\ kept (heap st) h /\ is_cmd h ret (backs a t).
Proof.
  revert cmd t s st. induction k as [|k IH]; intros cmd t s st Hb Hs Hk Hc; [lia|]. cbn [parseamps].
  destruct (peek_spec st s [AMP] Hb Hs) as (s1 & Hp & Hs1 & Ht1 & _); [by apply symbols_of|].
  rewrite (bind_Ok _ _ _ _ _ Hp). pose proof (sym_first AMP (toks s) eq_refl ltac:(done)) as Hst.
  destruct (match head (toks s) ≫= first_char with Some c => isin _ c | None => false end).
  - pose proof (proj1 Hst eq_refl) as Hs0. unfold starts in Hs0. destruct (toks s) as [|x ts] eqn:Ets; [done|]. injection Hs0 as ->.
    destruct (gettoken_spec st s1 Hb ltac:(lia)) as (tok & q & eq & s2 & Hg & Hs2 & _ & Ht2 & Hlt).
    rewrite Ht1 in *. simpl in Ht2. specialize (Hlt ltac:(done)).
    rewrite (bind_Ok _ _ _ _ _ Hg), (bind_Ok (backcmd malloc cmd) _ _ _ _ (alloc_spec _ st)).
    destruct (IH (length (heap st)) (TBack t) s2 (with_heap (heap st ++ [BACK cmd]) st))
      as (ret & s' & a & h & Hm & Ha & Hs' & Hk' & Hc'); [done|lia|lia| |].
    { apply is_cmd_new. apply (sh_back _ _ _ cmd); [by rewrite list_lookup_middle|apply Hc|].
      eapply shown_kept; [apply Hc|apply kept_snoc]. }
    exists ret, s', (S a), h. cbn [amps]. rewrite Z.eqb_refl. rewrite Ht2 in Ha. rewrite Ha. unfold backs in *.
    rewrite Nat.iter_succ_r. split; [done|]. split; [done|]. split; [lia|].
    split; [eapply kept_trans; [apply kept_snoc|exact Hk']|done].
  - exists cmd, s1, 0%nat, (heap st). rewrite Ht1. split; [by destruct st|]. split; [|split; [lia|split; [apply kept_refl|done]]].
    destruct (toks s) as [|[w|c] ts]; [done|done|]. cbn [amps]. destruct (Z.eqb_spec c AMP) as [->|]; [|done].
    by assert (false = true) by (by apply Hst).
Qed.

(** The four functions, with fuel for the rest of the line. *)
Definition line_ok (fuel : nat) : Prop := forall s st, loaded st -> (s <= es)%nat -> (4 * (es - s) + 4 <= fuel)%nat ->
  parsed (parseline malloc fuel s es) (gline (toks s)) is_cmd s st.
Definition pipe_ok (fuel : nat) : Prop := forall s st, loaded st -> (s <= es)%nat -> (4 * (es - s) + 3 <= fuel)%nat ->
  parsed (parsepipe malloc fuel s es) (gpipe (toks s)) is_cmd s st.
Definition exec_ok (fuel : nat) : Prop := forall s st, loaded st -> (s <= es)%nat -> (4 * (es - s) + 2 <= fuel)%nat ->
  parsed (parseexec malloc fuel s es) (gexec (toks s)) is_cmd s st.
Definition block_ok (fuel : nat) : Prop := forall s st, loaded st -> (s <= es)%nat -> (4 * (es - s) + 1 <= fuel)%nat ->
  starts LPAR (toks s) -> parsed (parseblock malloc fuel s es) (gexec (toks s)) is_cmd s st.

(** The operator [c] is looked for, and read if it is there. *)
Lemma op_spec c s st :
  loaded st -> (s <= es)%nat -> isin symbols c = true -> c <> GT ->
  exists b s1, peek s es [c] st = Ok ((b, s1), st) /\ (s <= s1 <= es)%nat /\ toks s1 = toks s /\
    (b = true <-> starts c (toks s)) /\
    (b = true -> exists t0 q0 eq0 s2 ts, gettoken s1 es st = Ok ((t0, q0, eq0, s2), st) /\ (s1 < s2 <= es)%nat /\
       toks s = TSym c :: ts /\ toks s2 = ts).
Proof.
  intros Hb Hs Hc Hg. destruct (peek_spec st s [c] Hb Hs) as (s1 & Hp & Hs1 & Ht1 & _).
  { intros x Hx. apply elem_of_cons in Hx as [->|Hx]; [done|]. by apply elem_of_nil in Hx. }
  pose proof (sym_first c (toks s) Hc Hg) as Hst. eexists _, s1. split; [exact Hp|]. split; [done|]. split; [done|].
  split; [done|]. rewrite Hst. intros Hb1.
  destruct (gettoken_spec st s1 Hb ltac:(lia)) as (tok & q & eq & s2 & Hgt & Hs2 & _ & Ht2 & Hlt).
  rewrite Ht1 in *. unfold starts in Hb1. destruct (toks s) as [|x ts]; [done|]. injection Hb1 as ->.
  exists tok, q, eq, s2, ts. specialize (Hlt ltac:(done)). split; [done|]. split; [lia|]. done.
Qed.

Lemma block_step fuel : line_ok fuel -> block_ok (S fuel).
Proof.
  intros IH s st Hb Hs Hf Hst. cbn [parseblock].
  destruct (op_spec LPAR s st Hb Hs eq_refl ltac:(done)) as (b & s1 & Hp & Hs1 & Ht1 & Hb1 & Hgo).
  pose proof (proj2 Hb1 Hst) as ->. destruct (Hgo eq_refl) as (t0 & q0 & eq0 & s2 & ts & Hg & Hs2 & Hts & Ht2).
  unfold parsed. rewrite (bind_Ok _ _ _ _ _ Hp). cbn [negb]. rewrite (bind_Ok _ _ _ _ _ Hg). rewrite Hts.
  destruct (IH s2 st Hb ltac:(lia) ltac:(lia)) as [(cmd & s3 & t & h & Hm & HR & Hs3 & Hk & Hc)|[[e He] Hno]].
  2: { right. split; [exists e; by apply bind_Panic|]. intros a ts' H. inversion H as [? ? ? ? ? H1|? ? ? ? H1]; [|done].
       subst. eapply Hno. exact H1. }
  rewrite (bind_Ok _ _ _ _ _ Hm). rewrite Ht2 in HR.
  destruct (op_spec RPAR s3 (with_heap h st) Hb ltac:(lia) eq_refl ltac:(done)) as (b & s4 & Hp4 & Hs4 & Ht4 & Hb4 & Hgo4).
  rewrite (bind_Ok _ _ _ _ _ Hp4). destruct b; cbn [negb].
  2: { right. split; [by eexists|]. intros a ts' H. inversion H as [? t' ts1 ? ? H1|? ? ? ? H1]; [|done]. subst.
       destruct (proj1 grammar_det _ _ _ HR _ _ H1) as [_ Heq]. by assert (false = true) by (apply Hb4; rewrite Heq; done). }
  destruct (Hgo4 eq_refl) as (t5 & q5 & eq5 & s5 & ts5 & Hg5 & Hs5 & Hts5 & Ht5). rewrite (bind_Ok _ _ _ _ _ Hg5).
  destruct (parseredirs_spec (S es) cmd s5 (with_heap h st)) as [(ret & s6 & rs & h6 & Hm6 & HR6 & Hs6 & Hk6 & Hw & Hl)|[[e He] Hno]];
    [done|lia|lia|apply Hc| |].
  - left. exists ret, s6, (wrap t rs), h6. split; [exact Hm6|]. rewrite Hts5 in HR.
    cbn beta in HR6. rewrite Ht5 in HR6. split; [by eapply g_block|]. split; [lia|]. split; [by eapply kept_trans|].
    split; [|done]. eapply shown_wrapped; [|exact Hw]. by eapply shown_kept; [apply Hc|].
  - right. split; [by exists e|]. intros a ts' H. inversion H as [? t' ts1 rs ? H1 H2|? ? ? ? H1]; [|done]. subst.
    destruct (proj1 grammar_det _ _ _ HR _ _ H1) as [_ Heq]. rewrite Hts5 in Heq. injection Heq as <-.
    by eapply Hno.
Qed.

Lemma gexec_simple ts t r :
  gexec ts t r -> ~ starts LPAR ts -> exists ws rs, simple ts = Some (ws, rs, r) /\ (length ws < MAXARGS)%nat.
Proof. intros H Hn. destruct H as [? ? ? ? ? H1 H2|ts ws rs r H1 H2]; [by destruct Hn|]. by exists ws, rs. Qed.

Lemma exec_step fuel : block_ok fuel -> exec_ok (S fuel).
Proof.
  intros IH s st Hb Hs Hf. cbn [parseexec].
  destruct (op_spec LPAR s st Hb Hs eq_refl ltac:(done)) as (b & s1 & Hp & Hs1 & Ht1 & Hb1 & _).
  unfold parsed. rewrite (bind_Ok _ _ _ _ _ Hp). destruct b.
  { destruct (IH s1 st Hb ltac:(lia) ltac:(lia)) as [(ret & s2 & t & h & Hm & HR & Hs2 & Hk & Hc)|H].
    - rewrite Ht1. by apply Hb1.
    - left. exists ret, s2, t, h. rewrite <- Ht1. split; [done|]. split; [done|]. split; [lia|done].
    - right. by rewrite <- Ht1. }
  assert (~ starts LPAR (toks s)) as Hnl by (intros H; by assert (false = true) by by apply Hb1).
  rewrite (bind_Ok (execcmd malloc) _ _ _ _ (alloc_spec _ st)). set (e := EXEC _ _). set (h0 := heap st ++ [e]).
  assert (length h0 = S (length (heap st))) as Hl0 by (unfold h0; rewrite length_app; simpl; lia).
  assert (h0 !! length (heap st) = Some e) as He0 by (unfold h0; by rewrite list_lookup_middle).
  pose proof (redirs_simple (toks s1)) as Hrs.
  destruct (parseredirs_spec (S es) (length (heap st)) s1 (with_heap h0 st))
    as [(ret & s2 & rs & h & Hm & HR & Hs2 & Hk & Hw & Hl)|[[x He] Hno]]; [done|lia|lia|simpl; lia| |].
  2: { right. split; [exists x; by apply bind_Panic|]. intros a ts H.
       destruct (gexec_simple _ _ _ H Hnl) as (ws & rs & H1 & H2). rewrite <- Ht1 in *.
       destruct (redirs (toks s1)) as [[rs' r]|]; [by destruct (Hno rs' r)|congruence]. }
  rewrite (bind_Ok _ _ _ _ _ Hm). cbn beta in HR. rewrite HR in Hrs. destruct Hrs as [Hn Hrs]. simpl in Hk.
  destruct (parseargs_spec (S es) (length (heap st)) [] rs ret s2 (with_heap h st))
    as [(ret' & s' & ws & rs' & h' & Hma & Hsi & Hlen & Hs' & Hk' & Hsh & Hret)|[[x He] Hno]]; try done; try lia.
  { exists [], []. split; [|constructor]. simpl. rewrite (proj2 Hk) by lia. done. }
  { simpl. unfold MAXARGS. lia. }
  - left. exists ret', s', (wrap (TExec ws) (rs ++ rs')), h'. split; [exact Hma|].
    split; [apply g_simple; [|done]; rewrite <- Ht1, Hrs, Hsi; done|]. split; [lia|]. split; [|by split].
    apply (keeps_but_last _ e). eapply keeps_but_trans; [apply kept_but; exact Hk|exact Hk'].
  - right. split; [by exists x|]. intros a ts H.
    destruct (gexec_simple _ _ _ H Hnl) as (ws & rs1 & H1 & H2). rewrite <- Ht1, Hrs in H1.
    destruct (simple (toks s2)) as [[[ws1 rs2] y]|] eqn:Esi; [|done]. injection H1 as <- _ _.
    specialize (Hno _ _ _ eq_refl). simpl in Hno. lia.
Qed.

Lemma pipe_step fuel : exec_ok fuel -> pipe_ok fuel -> pipe_ok (S fuel).
Proof.
  intros IHe IHp s st Hb Hs Hf. cbn [parsepipe]. unfold parsed.
  destruct (IHe s st Hb Hs ltac:(lia)) as [(cmd & s1 & t & h & Hm & HR & Hs1 & Hk & Hc)|[[x He] Hno]].
  2: { right. split; [exists x; by apply bind_Panic|]. intros a ts H. inversion H; subst; by eapply Hno. }
  rewrite (bind_Ok _ _ _ _ _ Hm).
  destruct (op_spec BAR s1 (with_heap h st) Hb ltac:(lia) eq_refl ltac:(done)) as (b & s2 & Hp & Hs2 & Ht2 & Hb2 & Hgo).
  rewrite (bind_Ok _ _ _ _ _ Hp). destruct b.
  2: { left. exists cmd, s2, t, h. split; [done|]. rewrite Ht2. split; [|split; [lia|done]].
       apply g_one; [done|]. intros H. by assert (false = true) by by apply Hb2. }
  destruct (Hgo eq_refl) as (t0 & q0 & eq0 & s3 & ts & Hg & Hs3 & Hts & Ht3). rewrite (bind_Ok _ _ _ _ _ Hg).
  rewrite Hts in HR. assert (forall a r, gpipe (toks s) a r -> exists u, gpipe ts u r) as Hinv.
  { intros a r H. inversion H as [? ? ? H1 H2|? ? ? u ? H1 H2]; subst;
      destruct (proj2 (proj2 grammar_det) _ _ _ HR _ _ H1) as [_ Heq].
    - destruct H2. by rewrite <- Heq.
    - injection Heq as <-. by exists u. }
  destruct (IHp s3 (with_heap h st) Hb ltac:(lia) ltac:(lia)) as [(r & s4 & u & h4 & Hm4 & HR4 & Hs4 & Hk4 & Hc4)|[[x He] Hno]].
  2: { right. split; [exists x; by apply bind_Panic|]. intros a r H. apply Hinv in H as [u H]. rewrite Ht3 in Hno. by eapply Hno. }
  rewrite (bind_Ok _ _ _ _ _ Hm4). rewrite (bind_Ok (pipecmd malloc cmd r) _ _ _ _ (alloc_spec _ _)). simpl in Hk4.
  left. exists (length h4), s4, (TPipe t u), (h4 ++ [PIPE cmd r]). split; [done|]. rewrite Ht3 in HR4.
  split; [by eapply g_pipe|]. split; [lia|].
  split; [eapply kept_trans; [exact Hk|]; eapply kept_trans; [exact Hk4|apply kept_snoc]|].
  pose proof (is_cmd_kept _ _ _ _ Hc Hk4) as [Hsh Hl]. destruct Hc4 as [Hsh4 Hl4]. apply is_cmd_new.
  apply (sh_pipe _ _ _ cmd r); [by rewrite list_lookup_middle|done|done| |]; by eapply shown_kept; [|apply kept_snoc].
Qed.

Lemma line_step fuel : pipe_ok fuel -> line_ok fuel -> line_ok (S fuel).
Proof.
  intros IHp IHl s st Hb Hs Hf. cbn [parseline]. unfold parsed.
  destruct (IHp s st Hb Hs ltac:(lia)) as [(cmd & s1 & t & h & Hm & HR & Hs1 & Hk & Hc)|[[x He] Hno]].
  2: { right. split; [exists x; by apply bind_Panic|]. intros a ts H. inversion H; subst; by eapply Hno. }
  rewrite (bind_Ok _ _ _ _ _ Hm).
  destruct (parseamps_spec (S es) cmd t s1 (with_heap h st)) as (cmd' & s1' & k & h' & Hma & Ha & Hs1' & Hk' & Hc');
    [done|lia|lia|done|]. simpl in Hk'. rewrite (bind_Ok _ _ _ _ _ Hma).
  destruct (op_spec SEMI s1' (with_heap h' st) Hb ltac:(lia) eq_refl ltac:(done)) as (b & s2 & Hp & Hs2 & Ht2 & Hb2 & Hgo).
  change (with_heap h' (with_heap h st)) with (with_heap h' st). rewrite (bind_Ok _ _ _ _ _ Hp).
  assert (kept (heap st) h') as Hkk by (by eapply kept_trans). destruct b.
  2: { left. exists cmd', s2, (backs k t), h'. split; [done|]. rewrite Ht2. split; [|split; [lia|done]].
       apply (g_line _ t (toks s1)); [done|done|]. intros H. by assert (false = true) by by apply Hb2. }
  destruct (Hgo eq_refl) as (t0 & q0 & eq0 & s3 & ts & Hg & Hs3 & Hts & Ht3). rewrite (bind_Ok _ _ _ _ _ Hg).
  rewrite Hts in Ha. assert (forall a r, gline (toks s) a r -> exists u, gline ts u r) as Hinv.
  { intros a r H. inversion H as [? ? ? ? ? H1 H2 H3|? ? ? ? ? u ? H1 H2 H3]; subst;
      destruct (proj1 (proj2 grammar_det) _ _ _ HR _ _ H1) as [_ Heq]; rewrite <- Heq, Ha in H2; injection H2; intros; subst.
    - by destruct H3.
    - by exists u. }
  destruct (IHl s3 (with_heap h' st) Hb ltac:(lia) ltac:(lia)) as [(r & s4 & u & h4 & Hm4 & HR4 & Hs4 & Hk4 & Hc4)|[[x He] Hno]].
  2: { right. split; [exists x; by apply bind_Panic|]. intros a r H. apply Hinv in H as [u H]. rewrite Ht3 in Hno. by eapply Hno. }
  rewrite (bind_Ok _ _ _ _ _ Hm4). rewrite (bind_Ok (listcmd malloc cmd' r) _ _ _ _ (alloc_spec _ _)). simpl in Hk4.
  left. exists (length h4), s4, (TList (backs k t) u), (h4 ++ [LIST cmd' r]). split; [done|]. rewrite Ht3 in HR4.
  split; [by eapply g_list|]. split; [lia|].
  split; [eapply kept_trans; [exact Hkk|]; eapply kept_trans; [exact Hk4|apply kept_snoc]|].
  pose proof (is_cmd_kept _ _ _ _ Hc' Hk4) as [Hsh Hl]. destruct Hc4 as [Hsh4 Hl4]. apply is_cmd_new.
  apply (sh_list _ _ _ cmd' r); [by rewrite list_lookup_middle|done|done| |]; by eapply shown_kept; [|apply kept_snoc].
Qed.

Lemma parser_ok fuel : line_ok fuel /\ pipe_ok fuel /\ exec_ok fuel /\ block_ok fuel.
Proof.
  induction fuel as [|fuel (IHl & IHp & IHe & IHb)].
  - split; [|split; [|split]]; intros s st _ _ H; lia.
  - split; [by apply line_step|]. split; [by apply pipe_step|]. split; [by apply exec_step|by apply block_step].
Qed.

(** * Termination of the words *)

(** The word characters of the line are still in [b]. *)
Definition agree (b : list Z) : Prop :=
  (es < length b)%nat /\ forall i c, line !! i = Some c -> is_word c = true -> b !! i = Some c.

Definition zeros (b b' : list Z) : Prop := forall i, b !! i = Some 0 -> b' !! i = Some 0.

Definition ended (b : list Z) (q eq : nat) (w : list Z) : Prop := word_at q eq w /\ b !! eq = Some 0.

Lemma word_end q eq w : word_at q eq w -> (eq <= es)%nat /\ forall c, line !! eq = Some c -> is_word c = false.
Proof.
  intros (-> & Hne & _ & r & Hd & Hst). assert (length w <> 0)%nat by by destruct w.
  assert (es - q = length w + length r)%nat by (by rewrite <- length_drop, Hd, length_app).
  split; [lia|]. intros c Hc. rewrite <- lookup_drop, Hd, lookup_app_r, Nat.sub_diag in Hc by lia.
  destruct r; [done|]. by injection Hc as ->.
Qed.

Lemma ended_zeros b b' q eq w : ended b q eq w -> zeros b b' -> ended b' q eq w.
Proof. intros [Hw H0] Hz. split; [done|by apply Hz]. Qed.

Lemma store_nul_spec b h q eq w :
  agree b -> word_at q eq w -> exists b', store_nul eq (mkSh b h) = Ok (tt, mkSh b' h) /\ agree b' /\ zeros b b' /\ ended b' q eq w.
Proof.
  intros [Hl Ha] Hw. destruct (word_end _ _ _ Hw) as [He Hn]. eexists. split; [done|]. cbn [sbuf].
  split; [|split; [|split; [done|]]].
  - split; [by rewrite length_insert|]. intros i c Hi Hc. rewrite list_lookup_insert_ne; [by apply Ha|].
    intros <-. apply Hn in Hi. congruence.
  - intros i Hi. destruct (decide (eq = i)) as [->|]; [apply list_lookup_insert_eq; by eapply lookup_lt_Some|].
    by rewrite list_lookup_insert_ne.
  - apply list_lookup_insert_eq. lia.
Qed.

Lemma nul_args_spec qs eqs ws x y b h :
  Forall3 word_at qs eqs ws -> agree b ->
  exists b', nul_args ((Some <$> qs) ++ None :: x) ((Some <$> eqs) ++ y) (mkSh b h) = Ok (tt, mkSh b' h) /\
    agree b' /\ zeros b b' /\ Forall3 (ended b') qs eqs ws.
Proof.
  intros HF. revert b. induction HF as [|q eq w qs eqs ws Hw HF IH]; intros b Ha.
  - exists b. split; [done|]. split; [done|]. split; [by intros i|constructor].
  - destruct (store_nul_spec b h q eq w Ha Hw) as (b1 & Hs & Ha1 & Hz1 & He1).
    destruct (IH b1 Ha1) as (b' & Hn & Ha' & Hz' & HF'). exists b'. cbn [fmap list_fmap app nul_args].
    rewrite (bind_Ok _ _ _ _ _ Hs). split; [done|]. split; [done|]. split; [by intros i Hi; apply Hz', Hz1|].
    constructor; [by eapply ended_zeros|done].
Qed.

Lemma shown_impl W W' h p t : (forall q eq w, W q eq w -> W' q eq w) -> shown W h p t -> shown W' h p t.
Proof. intros HW. induction 1; econstructor; eauto. eapply Forall3_impl; eauto. Qed.

Lemma nulterminate_spec h p t fuel b :
  shown word_at h p t -> (p < fuel)%nat -> agree b ->
  exists b', nulterminate fuel p (mkSh b h) = Ok (tt, mkSh b' h) /\ agree b' /\ zeros b b' /\ shown (ended b') h p t.
Proof.
  intros Hs. revert fuel b.
  assert (forall b b' p t, shown (ended b) h p t -> zeros b b' -> shown (ended b') h p t) as Hmono.
  { intros b b' p' t' H Hz. eapply shown_impl; [|exact H]. intros. by eapply ended_zeros. }
  induction Hs as [p qs eqs ws Hp HF Hl|p sub q eq w m f t Hp Hlt Hw Hs IH|p l r t u Hp Hl Hr Hs IH Hs' IH'
    |p l r t u Hp Hl Hr Hs IH Hs' IH'|p sub t Hp Hlt Hs IH]; intros [|fuel] b Hf Ha; try lia; cbn [nulterminate];
    rewrite (bind_Ok _ _ _ _ _ (deref_Some _ _ (mkSh b h) _ Hp)).
  - pose proof (Forall3_length_lm _ _ _ _ HF) as H1. pose proof (Forall3_length_lr _ _ _ _ HF) as H2.
    unfold arr. destruct (MAXARGS - length qs)%nat as [|k] eqn:Ek; [lia|].
    destruct (nul_args_spec qs eqs ws (replicate k None) (replicate (MAXARGS - length eqs) None) b h HF Ha) as (b' & Hn & Ha' & Hz' & HF').
    exists b'. split; [done|]. split; [done|]. split; [done|]. by econstructor.
  - destruct (IH fuel b ltac:(lia) Ha) as (b1 & Hn & Ha1 & Hz1 & Hs1).
    destruct (store_nul_spec b1 h q eq w Ha1 Hw) as (b2 & Hst & Ha2 & Hz2 & He2).
    exists b2. rewrite (bind_Ok _ _ _ _ _ Hn). split; [done|]. split; [done|]. split; [by intros i Hi; apply Hz2, Hz1|].
    econstructor; [done|done|done|by eapply Hmono].
  - destruct (IH fuel b ltac:(lia) Ha) as (b1 & Hn & Ha1 & Hz1 & Hs1).
    destruct (IH' fuel b1 ltac:(lia) Ha1) as (b2 & Hn2 & Ha2 & Hz2 & Hs2).
    exists b2. rewrite (bind_Ok _ _ _ _ _ Hn). split; [done|]. split; [done|]. split; [by intros i Hi; apply Hz2, Hz1|].
    eapply sh_pipe; try done. by eapply Hmono.
  - destruct (IH fuel b ltac:(lia) Ha) as (b1 & Hn & Ha1 & Hz1 & Hs1).
    destruct (IH' fuel b1 ltac:(lia) Ha1) as (b2 & Hn2 & Ha2 & Hz2 & Hs2).
    exists b2. rewrite (bind_Ok _ _ _ _ _ Hn). split; [done|]. split; [done|]. split; [by intros i Hi; apply Hz2, Hz1|].
    eapply sh_list; try done. by eapply Hmono.
  - destruct (IH fuel b ltac:(lia) Ha) as (b1 & Hn & Ha1 & Hz1 & Hs1). exists b1. split; [done|]. split; [done|].
    split; [done|]. by econstructor.
Qed.

Lemma ended_string b q eq w : agree b -> ended b q eq w -> cstr (drop q b) = w.
Proof.
  intros [Hl Ha] [(-> & Hne & HF & r & Hd & _) H0].
  assert (take (length w) (drop q b) = w) as Ht.
  { apply list_eq. intros i. destruct (decide (i < length w)%nat) as [Hi|].
    - rewrite lookup_take_lt, lookup_drop by done. destruct (lookup_lt_is_Some_2 w i Hi) as [c Hc]. rewrite Hc.
      apply Ha; [|exact (Forall_lookup_1 _ _ _ _ HF Hc)]. by rewrite <- lookup_drop, Hd, lookup_app_l.
    - rewrite (lookup_ge_None_2 w) by lia. apply lookup_ge_None. rewrite length_take. lia. }
  rewrite <- (take_drop (length w) (drop q b)), Ht, drop_drop. rewrite (drop_S b 0 _ H0). apply cstr_nul.
  intros H. apply no_nul. rewrite <- (take_drop q line), Hd. rewrite !elem_of_app. tauto.
Qed.

End tokens.

Lemma parsecmd_cases malloc buf :
  (forall n, malloc n = true) -> (length (cstr buf) < length buf)%nat ->
  (exists t p b h, parsecmd malloc (mkSh buf []) = Ok (p, mkSh b h) /\ gline (lex (cstr buf)) t [] /\
     shown (fun q _ w => cstr (drop q b) = w) h p t) \/
  ((exists e, parsecmd malloc (mkSh buf []) = Panic e) /\ forall t, ~ gline (lex (cstr buf)) t []).
Proof.
  intros Hm Hn. destruct (cstr_split buf Hn) as (z & Hbuf & H0). set (line := cstr buf) in *.
  assert (loaded line z (mkSh buf [])) as Hb by done. unfold parsecmd. rewrite (bind_Ok _ _ _ (length line) (mkSh buf [])) by done.
  destruct (proj1 (parser_ok line z H0 malloc Hm (depth (length line))) 0%nat _ Hb ltac:(lia) ltac:(unfold depth; lia))
    as [(cmd & s & t & h & Hp & HR & Hs & Hk & [Hsh Hl])|[[e He] Hno]].
  2: { right. split; [exists e; by apply bind_Panic|]. intros t. apply (Hno t []). }
  rewrite (bind_Ok _ _ _ _ _ Hp).
  destruct (peek_spec line z H0 (with_heap h (mkSh buf [])) s [] Hb ltac:(lia)) as (s' & Hpk & Hs' & Ht' & Hend).
  { intros c Hc. by apply elem_of_nil in Hc. }
  rewrite (bind_Ok _ _ _ _ _ Hpk). destruct (Nat.eqb_spec s' (length line)) as [->|Hne]; cbn [negb].
  - left. rewrite (bind_Ok _ _ _ (length h) (mkSh buf h)) by done. rewrite (proj2 Hend eq_refl) in HR.
    assert (agree line buf) as Ha.
    { split; [done|]. intros i c Hi _. rewrite Hbuf. by apply lookup_app_l_Some. }
    destruct (nulterminate_spec line h cmd t (length h) buf Hsh Hl Ha) as (b & Hnt & Hab & _ & Hsb).
    exists t, cmd, b, h. rewrite (bind_Ok _ _ _ _ _ Hnt). split; [done|]. split; [done|].
    eapply shown_impl; [|exact Hsb]. intros q eq w. by apply (ended_string line H0).
  - right. split; [by eexists|]. intros t' Ht. destruct (proj1 grammar_det _ _ _ HR _ _ Ht) as [_ Heq].
    by apply Hne, Hend.
Qed.

(** C23. On every line, and whenever malloc has memory, parsecmd terminates: it
    returns a command that is the tree the grammar gives to the line, all of
    whose words have become NUL-terminated strings of the buffer, or it
    panics, and then the line has no tree. *)
Theorem parsecmd_parses malloc buf :
  (forall n, malloc n = true) -> (length (cstr buf) < length buf)%nat ->
  (exists t p b h, parsecmd malloc (mkSh buf []) = Ok (p, mkSh b h) /\ gline (lex (cstr buf)) t [] /\
     shown (fun q _ w => cstr (drop q b) = w) h p t) \/
  ((exists e, parsecmd malloc (mkSh buf []) = Panic e) /\ forall t, ~ gline (lex (cstr buf)) t []).
Proof. apply parsecmd_cases. Qed.

(** "ls <a | (wc; b) &" *)
Definition demo_line : list Z :=
  [108; 115; 32; 60; 97; 32; 124; 32; 40; 119; 99; 59; 32; 98; 41; 32; 38; 10] ++ replicate 10 0.

Lemma parsecmd_parses_witness :
  exists t p b h, parsecmd (fun _ => true) (mkSh demo_line []) = Ok (p, mkSh b h) /\ gline (lex (cstr demo_line)) t [] /\
    shown (fun q _ w => cstr (drop q b) = w) h p t.
Proof.
  destruct (parsecmd_parses (fun _ => true) demo_line) as [H|[[e He] _]].
  - done.
  - vm_compute. lia.
  - exact H.
  - exfalso. revert He. vm_compute. discriminate.
Defined.
