(* ===== verification/ShRun.v ===== *)
(** sh.c: running the commands the parser builds.

    The shell is a program over system calls: a tree that makes a call and goes
    on with what the call returns.  A small semantics of the calls (descriptor
    tables with the lowest free slot, fork copying the table) runs such a
    program and collects the programs that are started, each with its
    arguments and its descriptors. *)

From S2P Require Import Prelude StringC Codec Ulib Sh ShProps.

(** * Programs *)

Inductive sys :=
| Fork
| Wait
| Close (fd : Z)
| Dup (fd : Z)
| Pipe
| Open (name : list Z) (mode : Z)
| Fstat (fd : Z)
| Read (fd n : Z)
| Exec (path : list Z) (argv : list (list Z))
| Print (msg : list Z).

(** What a call returns and what it stores for the caller. *)
Record reply := mkReply { ret : Z; stored : list Z }.

Inductive prog :=
| Exit
| Stray                                  (* a store through a null pointer *)
| Call (s : sys) (k : reply -> prog).

Definition bytes_of (s : string) : list Z := (fun c => Z.of_N (Ascii.N_of_ascii c)) <$> String.list_ascii_of_string s.

(** panic(s): print and exit(0) *)
Definition sh_panic (s : string) : prog := Call (Print (bytes_of s ++ [10])) (fun _ => Exit).

Definition fork1 (k : Z -> prog) : prog :=
  Call Fork (fun r => if ret r =? -1 then sh_panic "fork" else k (ret r)).

Definition COLON : Z := 58.
Definition SLASH : Z := 47.

(** The loop of execute_with_path, on the string at path. *)
Fixpoint path_loop (fuel : nat) (path cmd : list Z) (argv : list (list Z)) (fail : prog) : prog :=
  match fuel with
  | O => fail
  | S fuel =>
      match path with
      | [] => fail
      | _ :: _ =>
          match strchr path COLON with
          | None => Stray
          | Some i =>
              Call (Exec (take i path ++ cmd) argv) (fun _ =>
                path_loop fuel (drop (i + 1) path) cmd argv fail)
          end
      end
  end.

Definition execute_with_path (cmd : list Z) (argv : list (list Z)) (k : prog) : prog :=
  let fail := Call (Print (bytes_of "exec " ++ cmd ++ bytes_of " failed" ++ [10])) (fun _ => k) in
  if negb (bool_decide (head cmd = Some SLASH)) then
    Call (Open (bytes_of "/path") O_RDONLY) (fun r =>
      let fd := ret r in
      if fd <? 0 then Call (Print (bytes_of "Error: can't open 'path' file!" ++ [10])) (fun _ => Exit)
      else
        Call (Fstat fd) (fun st =>
          let file_size := s32 (nth 0 (stored st) 0) in
          Call (Read fd file_size) (fun r =>
            if ret r <? 0 then Call (Print (bytes_of "Error: can't read '/path' file!" ++ [10])) (fun _ => Exit)
            else if file_size <=? 0 then Stray
            else
              let path_buf := take (Z.to_nat (file_size - 1)) (stored r) ++ [0] in
              path_loop (length path_buf) (cstr path_buf) cmd argv fail)))
  else Call (Exec cmd argv) (fun _ => fail).

(** The strings argv points to, up to the null pointer. *)
Fixpoint strings (b : list Z) (argv : list (option nat)) : list (list Z) :=
  match argv with
  | Some q :: argv => cstr (drop q b) :: strings b argv
  | _ => []
  end.

(** [b]: the line's buffer; [h]: the heap. *)
Fixpoint runcmd (fuel : nat) (b : list Z) (h : list cmd) (p : nat) : prog :=
  match fuel with
  | O => Stray
  | S fuel =>
      match h !! p with
      | None => Stray
      | Some (EXEC argv _) =>
          match head argv with
          | Some (Some q) => execute_with_path (cstr (drop q b)) (strings b argv) Exit
          | _ => Exit
          end
      | Some (REDIR sub file _ mode fd) =>
          Call (Close fd) (fun _ =>
          Call (Open (cstr (drop file b)) mode) (fun r =>
            if ret r <? 0 then Call (Print (bytes_of "open " ++ cstr (drop file b) ++ bytes_of " failed" ++ [10])) (fun _ => Exit)
            else runcmd fuel b h sub))
      | Some (LIST l r) =>
          fork1 (fun pid =>
            if pid =? 0 then runcmd fuel b h l
            else Call Wait (fun _ => runcmd fuel b h r))
      | Some (PIPE l r) =>
          Call Pipe (fun x =>
            let p0 := nth 0 (stored x) 0 in
            let p1 := nth 1 (stored x) 0 in
            if ret x <? 0 then sh_panic "pipe"
            else
              fork1 (fun pid =>
                if pid =? 0 then
                  Call (Close 1) (fun _ =>
                  Call (Dup p1) (fun _ =>
                  Call (Close p0) (fun _ =>
                  Call (Close p1) (fun _ => runcmd fuel b h l))))
                else
                  fork1 (fun pid =>
                    if pid =? 0 then
                      Call (Close 0) (fun _ =>
                      Call (Dup p0) (fun _ =>
                      Call (Close p0) (fun _ =>
                      Call (Close p1) (fun _ => runcmd fuel b h r))))
                    else
                      Call (Close p0) (fun _ =>
                      Call (Close p1) (fun _ =>
                      Call Wait (fun _ =>
                      Call Wait (fun _ => Exit)))))))
      | Some (BACK sub) =>
          fork1 (fun pid => if pid =? 0 then runcmd fuel b h sub else Exit)
      end
  end.

(** * The loop that reads commands *)

Definition CMDBUF : Z := 100.

(** The value returned, the buffer and the input left. *)
Definition getcmd (buf input : list Z) : Z * list Z * list Z :=
  let buf := memset buf 0 CMDBUF in
  let (buf, input) := gets buf CMDBUF input in
  (if nth 0 buf 0 =? 0 then -1 else 0, buf, input).

(** What the shell does with a line: change its directory, or start a child
    that parses and runs the buffer. *)
Inductive action :=
| Chdir (dir : list Z)
| RunLine (buf : list Z).

Definition line_action (buf : list Z) : action :=
  if (nth 0 buf 0 =? 99) && (nth 1 buf 0 =? 100) && (nth 2 buf 0 =? 32) then
    let buf := <[Z.to_nat (strlen (cstr buf) - 1) := 0]> buf in
    Chdir (cstr (drop 3 buf))
  else RunLine buf.

Fixpoint main_loop (fuel : nat) (buf input : list Z) : list action :=
  match fuel with
  | O => []
  | S fuel =>
      let '(r, buf, input) := getcmd buf input in
      if r <? 0 then [] else line_action buf :: main_loop fuel buf input
  end.

(** Ensure that three descriptors are open, then go on with [k]; there are
    sixteen descriptors at most. *)
Fixpoint open_console (fuel : nat) (k : prog) : prog :=
  match fuel with
  | O => k
  | S fuel =>
      Call (Open (bytes_of "console") O_RDWR) (fun r =>
        if ret r <? 0 then k
        else if 3 <=? ret r then Call (Close (ret r)) (fun _ => k)
        else open_console fuel k)
  end.

(** * The system calls *)

Inductive desc :=
| DFile (name : list Z) (mode : Z)
| DRead (pipe : nat)
| DWrite (pipe : nat)
| DOther (what : Z).

(** A process's open files, NOFILE slots. *)
Abbreviation fdtable := (list (option desc)).

(** The lowest free slot. *)
Fixpoint lowest (t : fdtable) : option nat :=
  match t with
  | [] => None
  | None :: _ => Some 0%nat
  | Some _ :: t => S <$> lowest t
  end.

Definition fd_get (t : fdtable) (fd : Z) : option desc :=
  if fd <? 0 then None else mjoin (t !! Z.to_nat fd).

Definition fd_close (t : fdtable) (fd : Z) : fdtable := if fd <? 0 then t else <[Z.to_nat fd := None]> t.

(** What a process does that others see: it becomes a program (path,
    arguments, descriptors), forks a child, or waits for one. *)
Inductive event :=
| Started (path : list Z) (argv : list (list Z)) (fds : fdtable)
| Forked (child : list event)
| Waited.

Section world.
(** Which paths are programs, which files can be opened and what they hold. *)
Context (found : list Z -> bool) (opens : list Z -> Z -> bool) (contents : list Z -> list Z).

Definition sys_open (t : fdtable) (d : desc) : Z * fdtable :=
  match lowest t with
  | Some fd => (Z.of_nat fd, <[fd := Some d]> t)
  | None => (-1, t)
  end.

(** What a process does, with what its children do.  [n] numbers the pipes. *)
Fixpoint run (p : prog) (t : fdtable) (n : nat) : list event * nat :=
  match p with
  | Exit => ([], n)
  | Stray => ([], n)
  | Call s k =>
      match s with
      | Fork =>
          let (e1, n1) := run (k (mkReply 0 [])) t n in
          let (e2, n2) := run (k (mkReply 2 [])) t n1 in
          (Forked e1 :: e2, n2)
      | Wait => let (e, n) := run (k (mkReply 2 [])) t n in (Waited :: e, n)
      | Close fd => run (k (mkReply 0 [])) (fd_close t fd) n
      | Dup fd =>
          match fd_get t fd with
          | Some d => let (r, t') := sys_open t d in run (k (mkReply r [])) t' n
          | None => run (k (mkReply (-1) [])) t n
          end
      | Pipe =>
          let (r0, t0) := sys_open t (DRead n) in
          let (r1, t1) := sys_open t0 (DWrite n) in
          if (r0 <? 0) || (r1 <? 0) then run (k (mkReply (-1) [])) t n
          else run (k (mkReply 0 [r0; r1])) t1 (S n)
      | Open name mode =>
          if opens name mode then
            let (r, t') := sys_open t (DFile name mode) in run (k (mkReply r [])) t' n
          else run (k (mkReply (-1) [])) t n
      | Fstat fd =>
          match fd_get t fd with
          | Some (DFile name _) => run (k (mkReply 0 [Z.of_nat (length (contents name))])) t n
          | _ => run (k (mkReply (-1) [])) t n
          end
      | Read fd len =>
          match fd_get t fd with
          | Some (DFile name _) =>
              let bs := take (Z.to_nat len) (contents name) in
              run (k (mkReply (Z.of_nat (length bs)) bs)) t n
          | _ => run (k (mkReply (-1) [])) t n
          end
      | Exec path argv =>
          if found path then ([Started path argv t], n) else run (k (mkReply (-1) [])) t n
      | Print _ => run (k (mkReply 0 [])) t n
      end
  end.

(** * The meaning of a command tree *)

(** The directories of /path: each ends in a colon; one byte follows them. *)
Definition path_holds (dirs : list (list Z)) : Prop :=
  (exists x, contents (bytes_of "/path") = concat ((fun d => d ++ [COLON]) <$> dirs) ++ [x]) /\
  Forall (fun d => (COLON ∉ d) /\ (0 ∉ d)) dirs /\ Z.of_nat (length (contents (bytes_of "/path"))) < 2 ^ 31.

Context (dirs : list (list Z)).

(** The program a command word names, in a process with descriptors [t]. *)
Definition launch (argv : list (list Z)) (t : fdtable) : list event :=
  match argv with
  | [] => []
  | c :: _ =>
      if bool_decide (head c = Some SLASH) then
        if found c then [Started c argv t] else []
      else if opens (bytes_of "/path") O_RDONLY then
        match filter (fun p => found p = true) ((fun d => d ++ c) <$> dirs) with
        | p :: _ => [Started p argv (<[3%nat := Some (DFile (bytes_of "/path") O_RDONLY)]> t)]
        | [] => []
        end
      else []
  end.

Fixpoint meaning (c : tree) (t : fdtable) (n : nat) : list event * nat :=
  match c with
  | TExec argv => (launch argv t, n)
  | TRedir c (w, m, f) =>
      if opens w m then meaning c (<[Z.to_nat f := Some (DFile w m)]> t) n else ([], n)
  | TPipe c d =>
      let (e1, n1) := meaning c (<[1%nat := Some (DWrite n)]> t) (S n) in
      let (e2, n2) := meaning d (<[0%nat := Some (DRead n)]> t) n1 in
      ([Forked e1; Forked e2; Waited; Waited], n2)
  | TList c d =>
      let (e1, n1) := meaning c t n in
      let (e2, n2) := meaning d t n1 in
      (Forked e1 :: Waited :: e2, n2)
  | TBack c => let (e, n) := meaning c t n in ([Forked e], n)
  end.

(** Standard input, output and error open, nothing else. *)
Definition std (a b c : desc) : fdtable := Some a :: Some b :: Some c :: replicate 13 None.

(** Redirections are of the standard input or output. *)
Fixpoint std_redirs (c : tree) : Prop :=
  match c with
  | TExec _ => True
  | TRedir c (_, _, f) => (f = 0 \/ f = 1) /\ std_redirs c
  | TPipe c d | TList c d => std_redirs c /\ std_redirs d
  | TBack c => std_redirs c
  end.

(** * Lemmas *)

Lemma path_loop_spec ds fuel cmd argv fail t n :
  Forall (fun d => (COLON ∉ d) /\ (0 ∉ d)) ds -> (length (concat ((fun d => d ++ [COLON]) <$> ds)) < fuel)%nat ->
  run (path_loop fuel (concat ((fun d => d ++ [COLON]) <$> ds)) cmd argv fail) t n =
    match filter (fun p => found p = true) ((fun d => d ++ cmd) <$> ds) with
    | p :: _ => ([Started p argv t], n)
    | [] => run fail t n
    end.
Proof.
  intros HF. revert fuel. induction HF as [|d ds [Hd _] HF IH]; intros fuel Hf; (destruct fuel as [|fuel]; [lia|]); [done|].
  cbn [fmap list_fmap concat]. rewrite <- app_assoc. cbn [app].
  assert (strchr (d ++ COLON :: concat ((fun d => d ++ [COLON]) <$> ds)) COLON = Some (length d)) as Hs by by apply strchr_first.
  cbn [path_loop]. destruct (d ++ COLON :: _) as [|x y] eqn:E; [by destruct d|]. rewrite Hs. cbn [run].
  rewrite <- E. rewrite take_app_length. rewrite filter_cons.
  assert (forall X : list Z, drop (length d + 1) (d ++ COLON :: X) = X) as Hdr by (intros X; rewrite <- (drop_drop _ 1), drop_app_length; done).
  rewrite Hdr. destruct (found (d ++ cmd)) eqn:Ef.
  - rewrite decide_True by done. done.
  - rewrite decide_False by done. apply IH. cbn [fmap list_fmap concat] in Hf. rewrite !length_app in Hf. simpl in Hf. lia.
Qed.

Lemma cstr_path ds y :
  Forall (fun d => (COLON ∉ d) /\ (0 ∉ d)) ds ->
  cstr (concat ((fun d => d ++ [COLON]) <$> ds) ++ 0 :: y) = concat ((fun d => d ++ [COLON]) <$> ds).
Proof.
  intros HF. apply cstr_nul. induction HF as [|d ds [_ Hd] HF IH]; cbn [fmap list_fmap concat]; [apply not_elem_of_nil|].
  rewrite !elem_of_app, elem_of_cons, elem_of_nil. unfold COLON. intros [[H|[H|[]]]|H]; [by apply Hd|done|by apply IH].
Qed.

Lemma execute_spec c args a b d n :
  path_holds dirs -> run (execute_with_path c (c :: args) Exit) (std a b d) n = (launch (c :: args) (std a b d), n).
Proof.
  intros ((x & Hc) & HF & Hlen). unfold execute_with_path, launch. destruct (bool_decide (head c = Some SLASH)); cbn [negb].
  { cbn [run]. by destruct (found c). }
  cbn [run]. destruct (opens (bytes_of "/path") O_RDONLY); [|done].
  change (sys_open (std a b d) (DFile (bytes_of "/path") O_RDONLY))
    with (3, <[3%nat := Some (DFile (bytes_of "/path") O_RDONLY)]> (std a b d)).
  set (t := <[3%nat := _]> _). cbn [ret]. change (3 <? 0) with false. cbn iota. cbn [run].
  change (fd_get t 3) with (Some (DFile (bytes_of "/path") O_RDONLY)). cbn iota. cbn [stored nth run].
  change (fd_get t 3) with (Some (DFile (bytes_of "/path") O_RDONLY)). cbn iota. cbn [ret stored].
  set (P := concat ((fun d => d ++ [COLON]) <$> dirs)) in *.
  assert (length (contents (bytes_of "/path")) = S (length P)) as Hl by (rewrite Hc, length_app; simpl; lia).
  rewrite s32_small by lia. rewrite Nat2Z.id, take_ge by lia.
  rewrite (proj2 (Z.ltb_ge _ _)) by lia. rewrite (proj2 (Z.leb_gt _ _)) by lia.
  replace (Z.to_nat (Z.of_nat (length (contents (bytes_of "/path"))) - 1)) with (length P) by lia.
  rewrite Hc, take_app_length. unfold P. rewrite cstr_path by done.
  rewrite path_loop_spec; [|done|rewrite !length_app; simpl; lia]. by destruct (filter _ _).
Qed.

Lemma strings_arr buf qs eqs ws :
  Forall3 (fun q (_ : nat) w => cstr (drop q buf) = w) qs eqs ws -> (length ws < MAXARGS)%nat -> strings buf (arr qs) = ws.
Proof.
  intros HF Hl. pose proof (Forall3_length_lr _ _ _ _ HF) as H2. unfold arr.
  destruct (MAXARGS - length qs)%nat eqn:E; [lia|]. clear E Hl H2. induction HF as [|q e w qs eqs ws Hw HF IH]; [done|].
  cbn. by rewrite Hw, <- IH.
Qed.

Lemma std_0 a b c x : <[0%nat := Some x]> (std a b c) = std x b c.
Proof. done. Qed.

Lemma std_1 a b c x : <[1%nat := Some x]> (std a b c) = std a x c.
Proof. done. Qed.

Lemma fork1_spec k t n :
  run (fork1 k) t n = let (e1, n1) := run (k 0) t n in let (e2, n2) := run (k 2) t n1 in (Forked e1 :: e2, n2).
Proof. done. Qed.

(** The two children of a pipe command. *)
Lemma pipe_spec fuel buf h l r a b c n :
  run (Call Pipe (fun x =>
    let p0 := nth 0 (stored x) 0 in
    let p1 := nth 1 (stored x) 0 in
    if ret x <? 0 then sh_panic "pipe"
    else
      fork1 (fun pid =>
        if pid =? 0 then
          Call (Close 1) (fun _ => Call (Dup p1) (fun _ => Call (Close p0) (fun _ => Call (Close p1) (fun _ =>
            runcmd fuel buf h l))))
        else
          fork1 (fun pid =>
            if pid =? 0 then
              Call (Close 0) (fun _ => Call (Dup p0) (fun _ => Call (Close p0) (fun _ => Call (Close p1) (fun _ =>
                runcmd fuel buf h r))))
            else
              Call (Close p0) (fun _ => Call (Close p1) (fun _ => Call Wait (fun _ => Call Wait (fun _ => Exit)))))))) (std a b c) n =
  let (e1, n1) := run (runcmd fuel buf h l) (std a (DWrite n) c) (S n) in
  let (e2, n2) := run (runcmd fuel buf h r) (std (DRead n) b c) n1 in
  ([Forked e1; Forked e2; Waited; Waited], n2).
Proof.
  generalize (runcmd fuel buf h l) as pl. generalize (runcmd fuel buf h r) as pr. intros pr pl.
  transitivity (let (e1, n1) := run pl (std a (DWrite n) c) (S n) in
    let (e, m) := (let (e2, n2) := run pr (std (DRead n) b c) n1 in ([Forked e2; Waited; Waited], n2)) in (Forked e1 :: e, m)); [reflexivity|].
  destruct (run pl _ _) as [e1 n1]. by destruct (run pr _ _) as [e2 n2].
Qed.

Lemma runcmd_spec buf h p t fuel a b c n :
  path_holds dirs -> shown (fun q _ w => cstr (drop q buf) = w) h p t -> std_redirs t -> (p < fuel)%nat ->
  run (runcmd fuel buf h p) (std a b c) n = meaning t (std a b c) n.
Proof.
  intros HP Hs. revert fuel a b c n.
  induction Hs as [p qs eqs ws Hp HF Hl|p sub q eq w m f t Hp Hlt Hw Hs IH|p l r t u Hp Hl Hr Hs IH Hs' IH'
    |p l r t u Hp Hl Hr Hs IH Hs' IH'|p sub t Hp Hlt Hs IH]; intros [|fuel] a b c n Hr1 Hf; try lia; cbn [runcmd]; rewrite Hp.
  - pose proof (strings_arr _ _ _ _ HF Hl) as Hst. destruct HF as [|q e w qs eqs ws Hw HF]; [done|].
    cbn [arr fmap list_fmap app head]. change (Some q :: (Some <$> qs) ++ _) with (arr (q :: qs)). rewrite Hst, Hw. by apply execute_spec.
  - cbn [std_redirs] in Hr1. destruct Hr1 as [Hf01 Hr1]. cbn [run meaning]. rewrite Hw. destruct (opens w m); [|done].
    destruct Hf01 as [-> | ->].
    + change (sys_open (fd_close (std a b c) 0) (DFile w m)) with (0, std (DFile w m) b c). cbn iota beta. cbn [ret].
      change (0 <? 0) with false. cbn iota. change (Z.to_nat 0) with 0%nat. rewrite std_0. apply IH; [done|lia].
    + change (sys_open (fd_close (std a b c) 1) (DFile w m)) with (1, std a (DFile w m) c). cbn iota beta. cbn [ret].
      change (1 <? 0) with false. cbn iota. change (Z.to_nat 1) with 1%nat. rewrite std_1. apply IH; [done|lia].
  - destruct Hr1 as [Hr1 Hr2]. rewrite pipe_spec. cbn [meaning]. rewrite std_1, std_0, IH by (done || lia).
    destruct (meaning t _ _) as [e1 n1]. by rewrite IH' by (done || lia).
  - destruct Hr1 as [Hr1 Hr2]. rewrite fork1_spec. cbn [meaning run]. change (0 =? 0) with true. change (2 =? 0) with false.
    cbn iota. rewrite IH by (done || lia). destruct (meaning t _ _) as [e1 n1]. cbn [run]. rewrite IH' by (done || lia). by destruct (meaning u _ _).
  - rewrite fork1_spec. cbn [meaning]. change (0 =? 0) with true. change (2 =? 0) with false. cbn iota.
    rewrite IH by (done || lia). by destruct (meaning t _ _) as [e1 n1].
Qed.

End world.

Lemma wrap_std t rs : std_redirs t -> Forall (fun r : redir => snd r = 0 \/ snd r = 1) rs -> std_redirs (wrap t rs).
Proof.
  intros Ht HF. revert t Ht. induction HF as [|[[w m] f] rs Hr HF IH]; intros t Ht; [done|]. by apply IH.
Qed.

Lemma redir_of_std c w r : redir_of c w = Some r -> snd r = 0 \/ snd r = 1.
Proof.
  unfold redir_of. destruct (c =? LT); [intros [= <-]; by left|].
  destruct ((c =? GT) || (c =? PLUS)); [intros [= <-]; by right|done].
Qed.

Lemma redirs_std ts rs r : redirs ts = Some (rs, r) -> Forall (fun r : redir => snd r = 0 \/ snd r = 1) rs.
Proof.
  revert rs r. induction ts as [ts IH] using (well_founded_induction (well_founded_ltof _ length)). intros rs r.
  destruct ts as [|[w|c] ts]; cbn [redirs]; [by intros [= <- _]|by intros [= <- _]|].
  destruct (is_redir c); [|by intros [= <- _]]. destruct ts as [|[w|d] ts]; [done| |done].
  destruct (redirs ts) as [[rs' r']|] eqn:E; [|done]. cbn. destruct (redir_of c w) eqn:Ex; [|done]. intros [= <- _].
  constructor; [by eapply redir_of_std|]. apply (IH ts ltac:(unfold ltof; simpl; lia) _ _ E).
Qed.

Lemma simple_std ts ws rs r : simple ts = Some (ws, rs, r) -> Forall (fun r : redir => snd r = 0 \/ snd r = 1) rs.
Proof.
  revert ws rs r. induction ts as [ts IH] using (well_founded_induction (well_founded_ltof _ length)). intros ws rs r.
  destruct ts as [|[w|c] ts]; cbn [simple]; [by intros [= _ <- _]| |].
  - destruct (simple ts) as [[[ws' rs'] r']|] eqn:E; [|done]. intros [= _ <- _].
    apply (IH ts ltac:(unfold ltof; simpl; lia) _ _ _ E).
  - destruct (is_redir c); [|destruct (c =? LPAR); [done|by intros [= _ <- _]]]. destruct ts as [|[w|d] ts]; [done| |done].
    destruct (simple ts) as [[[ws' rs'] r']|] eqn:E; [|done]. cbn. destruct (redir_of c w) eqn:Ex; [|done]. intros [= _ <- _].
    constructor; [by eapply redir_of_std|]. apply (IH ts ltac:(unfold ltof; simpl; lia) _ _ _ E).
Qed.

Lemma backs_std k t : std_redirs t -> std_redirs (backs k t).
Proof. unfold backs. induction k; [done|]. done. Qed.

Lemma grammar_std :
  (forall ts t r, gline ts t r -> std_redirs t) /\ (forall ts t r, gpipe ts t r -> std_redirs t) /\
  (forall ts t r, gexec ts t r -> std_redirs t).
Proof.
  apply grammar_ind; intros; subst; try done.
  - by apply backs_std.
  - split; [by apply backs_std|done].
  - apply wrap_std; [done|by eapply redirs_std].
  - apply wrap_std; [done|by eapply simple_std].
Qed.


(** "ls|wc" *)
Definition pipe_line : list Z := [108; 115; 124; 119; 99; 10; 0].

Definition demo_contents (name : list Z) : list Z := [SLASH; COLON; 10].

