(* ===== verification/Utils.v ===== *)
(** The small user programs: cat, echo, grep's main, kill, ln, ls, mkdir, policy,
    rm and wc, with stat of ulib.c.

    A program runs over the system calls of a class; it returns or exits.  The
    laws of a second class say what reading and writing do, and the programs that
    filter their input are proved against them. *)

From S2P Require Import Prelude StringC Codec Ulib Grep Layout Fs Sh ShRun.

(** The system calls, with what they return and store. *)
Class UserOS (W : Type) := {
  u_open : list Z -> Z -> W -> Z * W;
  u_close : Z -> W -> Z * W;
  u_read : Z -> nat -> W -> Z * list Z * W;
  u_write : Z -> list Z -> W -> Z * W;
  u_fstat : Z -> W -> Z * stat * W;
  u_link : list Z -> list Z -> W -> Z * W;
  u_unlink : list Z -> W -> Z * W;
  u_mkdir : list Z -> W -> Z * W;
  u_kill : Z -> W -> Z * W;
  u_policy : Z -> W -> Z * W }.

(** How a piece of a program ends. *)
Inductive pres (A : Type) := PRet (a : A) | PExit (status : Z).
Arguments PRet {A} a.
Arguments PExit {A} status.

Definition pbind {W A B} (m : M W (pres A)) (k : A -> M W (pres B)) : M W (pres B) :=
  r ← m; match r with PRet a => k a | PExit n => mret (PExit n) end.

Notation "x ⇐ m ; k" := (pbind m (fun x => k)) (at level 20, m at level 100, k at level 200, right associativity).
Notation "m ;;; k" := (pbind m (fun _ => k)) (at level 100, k at level 200, right associativity).

Definition nl (s : string) : list Z := bytes_of s ++ [10].

Section programs.
Context {W : Type} `{UserOS W}.

Abbreviation P A := (M W (pres A)).

Definition pret {A} (a : A) : P A := mret (PRet a).
Definition pexit {A} (status : Z) : P A := mret (PExit status).
Definition pcall (f : W -> Z * W) : P Z := act (fun w => let (r, w) := f w in Ok (PRet r, w)).
Definition pwhen (b : bool) (m : P unit) : P unit := if b then m else pret tt.

Definition pread (fd : Z) (n : nat) : P (Z * list Z) := act (fun w => let '(r, bs, w) := u_read fd n w in Ok (PRet (r, bs), w)).
Definition pfstat (fd : Z) : P (Z * stat) := act (fun w => let '(r, st, w) := u_fstat fd w in Ok (PRet (r, st), w)).

(** putc of printf.c, for each byte of the output. *)
Definition put (fd : Z) (bs : list Z) (w : W) : W := foldl (fun w c => snd (u_write fd [c] w)) w bs.

(** printf; the arguments are words, the strings are those at addresses 1, 2, ... *)
Definition uprintf (fd : Z) (strs : list (list Z)) (fmt ap : list Z) : P unit := fun w =>
  obind (Ulib.printf (fun a => nth (Z.to_nat (a - 1)) strs []) fmt ap) (fun bs => Ok (PRet tt, put fd bs w)).

(** * ulib.c *)

Definition stat_ (n : list Z) : P (Z * option stat) :=
  fd ⇐ pcall (u_open n O_RDONLY);
  if fd <? 0 then pret (-1, None)
  else
    r ⇐ pfstat fd;
    pcall (u_close fd);;;
    pret (fst r, Some (snd r)).

(** * cat.c *)

Definition CATBUF : nat := 512.

Fixpoint cat (fuel : nat) (fd : Z) : P unit :=
  match fuel with
  | O => blocks "read"
  | S fuel =>
      r ⇐ pread fd CATBUF;
      if 0 <? fst r then
        n ⇐ pcall (u_write 1 (snd r));
        if negb (n =? fst r) then uprintf 1 [] (nl "cat: write error") [];;; pexit 0
        else cat fuel fd
      else if fst r <? 0 then uprintf 1 [] (nl "cat: read error") [];;; pexit 0
      else pret tt
  end.

(** The loop of main over the names, for cat, wc and grep. *)
Fixpoint each_file (prog : string) (f : Z -> list Z -> P unit) (names : list (list Z)) : P unit :=
  match names with
  | [] => pexit 0
  | name :: names =>
      fd ⇐ pcall (u_open name 0);
      if fd <? 0 then uprintf 1 [name] (bytes_of prog ++ nl ": cannot open %s") [1];;; pexit 0
      else
        f fd name;;;
        pcall (u_close fd);;;
        each_file prog f names
  end.

Definition cat_main (fuel : nat) (argv : list (list Z)) : P unit :=
  if (length argv <=? 1)%nat then cat fuel 0;;; pexit 0
  else each_file "cat" (fun fd _ => cat fuel fd) (drop 1 argv).

(** * wc.c *)

(** l, w, c and inword *)
Record counts := mkCounts { c_l : Z; c_w : Z; c_c : Z; c_in : bool }.

Definition is_blank (b : Z) : bool := match strchr [32; 13; 9; 10; 11] b with Some _ => true | None => false end.

Definition wc_byte (k : counts) (b : Z) : counts :=
  let c := s32 (c_c k + 1) in
  let l := if b =? 10 then s32 (c_l k + 1) else c_l k in
  if is_blank b then mkCounts l (c_w k) c false
  else if c_in k then mkCounts l (c_w k) c true
  else mkCounts l (s32 (c_w k + 1)) c true.

Fixpoint wc_loop (fuel : nat) (fd : Z) (k : counts) : P counts :=
  match fuel with
  | O => blocks "read"
  | S fuel =>
      r ⇐ pread fd 512;
      if 0 <? fst r then wc_loop fuel fd (foldl wc_byte k (take (Z.to_nat (fst r)) (snd r)))
      else if fst r <? 0 then uprintf 1 [] (nl "wc: read error") [];;; pexit 0
      else pret k
  end.

Definition wc (fuel : nat) (fd : Z) (name : list Z) : P unit :=
  k ⇐ wc_loop fuel fd (mkCounts 0 0 0 false);
  uprintf 1 [name] (nl "%d %d %d %s") [c_l k; c_w k; c_c k; 1].

Definition wc_main (fuel : nat) (argv : list (list Z)) : P unit :=
  if (length argv <=? 1)%nat then wc fuel 0 [];;; pexit 0
  else each_file "wc" (wc fuel) (drop 1 argv).

(** * grep.c *)

(** The inner loop of grep, which writes each matching line. *)
Fixpoint grep_lines_w (fuel : nat) (pattern buf : list Z) (p : nat) : P (list Z * nat) :=
  match fuel with
  | O => pret (buf, p)
  | S fuel =>
      match strchr (cstr (drop p buf)) NL with
      | None => pret (buf, p)
      | Some i =>
          let q := (p + i)%nat in
          let buf := <[q := 0]> buf in
          if match_ pattern (cstr (drop p buf)) then
            let buf := <[q := NL]> buf in
            pcall (u_write 1 (slice p (q + 1 - p) buf));;;
            grep_lines_w fuel pattern buf (q + 1)
          else grep_lines_w fuel pattern buf (q + 1)
      end
  end.

Fixpoint grep_loop_w (fuel : nat) (pattern : list Z) (fd : Z) (buf : list Z) (m : nat) : P (list Z) :=
  match fuel with
  | O => blocks "read"
  | S fuel =>
      r ⇐ pread fd (BUFSZ - m - 1);
      if 0 <? fst r then
        let bs := take (Z.to_nat (fst r)) (snd r) in
        let buf := splice m bs buf in
        let m := (m + length bs)%nat in
        let buf := <[m := 0]> buf in
        bp ⇐ grep_lines_w BUFSZ pattern buf 0;
        let (buf, p) := (bp : list Z * nat) in
        let m := if (p =? 0)%nat then 0%nat else m in
        if (0 <? m)%nat then
          let m := (m - p)%nat in
          grep_loop_w fuel pattern fd (memmove buf 0 p (Z.of_nat m)) m
        else grep_loop_w fuel pattern fd buf m
      else pret buf
  end.

(** buf is static: each file finds what the last one left there. *)
Fixpoint grep_files (fuel : nat) (pattern : list Z) (names : list (list Z)) (buf : list Z) : P unit :=
  match names with
  | [] => pexit 0
  | name :: names =>
      fd ⇐ pcall (u_open name 0);
      if fd <? 0 then uprintf 1 [name] (nl "grep: cannot open %s") [1];;; pexit 0
      else
        buf ⇐ grep_loop_w fuel pattern fd buf 0;
        pcall (u_close fd);;;
        grep_files fuel pattern names buf
  end.

Definition grep_main (fuel : nat) (argv : list (list Z)) : P unit :=
  if (length argv <=? 1)%nat then uprintf 2 [] (nl "usage: grep pattern [file ...]") [];;; pexit 0
  else
    let pattern := nth 1 argv [] in
    if (length argv <=? 2)%nat then grep_loop_w fuel pattern 0 (replicate BUFSZ 0) 0;;; pexit 0
    else grep_files fuel pattern (drop 2 argv) (replicate BUFSZ 0).

(** * echo.c, kill.c, ln.c, mkdir.c, rm.c, policy.c *)

Fixpoint echo_loop (args : list (list Z)) : P unit :=
  match args with
  | [] => pexit 0
  | a :: args => uprintf 1 [a; match args with [] => [10] | _ :: _ => [32] end] (bytes_of "%s%s") [1; 2];;; echo_loop args
  end.

Definition echo_main (argv : list (list Z)) : P unit := echo_loop (drop 1 argv).

Fixpoint kill_loop (args : list (list Z)) : P unit :=
  match args with
  | [] => pexit 0
  | a :: args => pcall (u_kill (atoi a));;; kill_loop args
  end.

Definition kill_main (argv : list (list Z)) : P unit :=
  if (length argv <? 2)%nat then uprintf 2 [] (nl "usage: kill pid...") [];;; pexit 0 else kill_loop (drop 1 argv).

Definition ln_main (argv : list (list Z)) : P unit :=
  if negb (length argv =? 3)%nat then uprintf 2 [] (nl "Usage: ln old new") [];;; pexit 0
  else
    let old := nth 1 argv [] in
    let new := nth 2 argv [] in
    r ⇐ pcall (u_link old new);
    pwhen (r <? 0) (uprintf 2 [old; new] (nl "link %s %s: failed") [1; 2]);;;
    pexit 0.

(** mkdir and rm stop at the first name that fails. *)
Fixpoint name_loop (f : list Z -> W -> Z * W) (fmt : list Z) (args : list (list Z)) : P unit :=
  match args with
  | [] => pexit 0
  | a :: args =>
      r ⇐ pcall (f a);
      if r <? 0 then uprintf 2 [a] fmt [1];;; pexit 0 else name_loop f fmt args
  end.

Definition mkdir_main (argv : list (list Z)) : P unit :=
  if (length argv <? 2)%nat then uprintf 2 [] (nl "Usage: mkdir files...") [];;; pexit 0
  else name_loop u_mkdir (nl "mkdir: %s failed to create") (drop 1 argv).

Definition rm_main (argv : list (list Z)) : P unit :=
  if (length argv <? 2)%nat then uprintf 2 [] (nl "Usage: rm files...") [];;; pexit 0
  else name_loop u_unlink (nl "rm: %s failed to delete") (drop 1 argv).

Definition policy_main (argv : list (list Z)) : P unit :=
  if negb (length argv =? 2)%nat then
    uprintf 2 [] (nl "incorrect number of arguments: %d") [Z.of_nat (length argv)];;; pexit 1
  else
    let pl := atoi (nth 1 argv []) in
    if (pl <? 0) || (2 <? pl) then uprintf 2 [] (nl "invalid number of policy: %d") [pl];;; pexit 1
    else
      pcall (u_policy pl);;;
      uprintf 1 [] (nl "policy changed successfully to %d") [pl].

(** * ls.c *)

(** The index after the last slash; [n]: the place of p. *)
Fixpoint last_slash (n : nat) (path : list Z) : nat :=
  if nth n path 0 =? 47 then S n else match n with O => O | S n => last_slash n path end.

Definition fmtname (path : list Z) : list Z :=
  let p := drop (last_slash (length path) path) path in
  if (DIRSIZ <=? length p)%nat then p else p ++ replicate (DIRSIZ - length p) 32.

Definition ls_line (path : list Z) (st : stat) : P unit :=
  uprintf 1 [fmtname path] (nl "%s %d %d %d") [1; st_type st; st_ino st; st_size st].

Fixpoint ls_entries (fuel : nat) (fd : Z) (path : list Z) : P unit :=
  match fuel with
  | O => blocks "read"
  | S fuel =>
      r ⇐ pread fd dirent_size;
      if fst r =? Z.of_nat dirent_size then
        let de := de_decode (snd r) 0 in
        if de_inum de =? 0 then ls_entries fuel fd path
        else
          let buf := path ++ [47] ++ cstr (de_name de) in
          x ⇐ stat_ buf;
          match x with
          | (r, Some st) =>
              (if r <? 0 then uprintf 1 [buf] (nl "ls: cannot stat %s") [1] else ls_line buf st);;;
              ls_entries fuel fd path
          | (_, None) => uprintf 1 [buf] (nl "ls: cannot stat %s") [1];;; ls_entries fuel fd path
          end
      else pret tt
  end.

Definition ls (fuel : nat) (path : list Z) : P unit :=
  fd ⇐ pcall (u_open path 0);
  if fd <? 0 then uprintf 2 [path] (nl "ls: cannot open %s") [1]
  else
    x ⇐ pfstat fd;
    if fst x <? 0 then uprintf 2 [path] (nl "ls: cannot stat %s") [1];;; pcall (u_close fd);;; pret tt
    else
      let st := snd x in
      (if st_type st =? T_FILE then ls_line path st
       else if st_type st =? T_DIR then
         if (512 <? length path + 1 + DIRSIZ + 1)%nat then uprintf 1 [] (nl "ls: path too long") []
         else ls_entries fuel fd path
       else pret tt);;;
      pcall (u_close fd);;;
      pret tt.

Fixpoint ls_loop (fuel : nat) (args : list (list Z)) : P unit :=
  match args with
  | [] => pexit 0
  | a :: args => ls fuel a;;; ls_loop fuel args
  end.

Definition ls_main (fuel : nat) (argv : list (list Z)) : P unit :=
  if (length argv <? 2)%nat then ls fuel [46];;; pexit 0 else ls_loop fuel (drop 1 argv).
End programs.

(** * What the filters do *)

(** Input comes in pieces, as a file, a pipe or the console hands it out, and a
    read takes at most one piece; what is written is appended to what was written
    before. *)
Class UserFiles (W : Type) `{UserOS W} := {
  us_in : W -> Z -> list (list Z);
  us_out : W -> Z -> list Z;
  us_read_end fd n w : us_in w fd = [] ->
    exists w', u_read fd n w = (0, [], w') /\ (forall g, us_in w' g = us_in w g) /\ forall g, us_out w' g = us_out w g;
  us_read fd n w c cs : us_in w fd = c :: cs -> c <> [] -> (0 < n)%nat ->
    exists w', u_read fd n w = (Z.of_nat (length (take n c)), take n c, w') /\ us_in w' fd = snd (chunk_read (c :: cs) n) /\
      forall g, us_out w' g = us_out w g;
  us_write fd bs w :
    exists w', u_write fd bs w = (Z.of_nat (length bs), w') /\ us_out w' fd = us_out w fd ++ bs /\
      (forall g, g <> fd -> us_out w' g = us_out w g) /\ forall g, us_in w' g = us_in w g }.

(** The places where a word starts. *)
Definition word_start (bs : list Z) (i : nat) : bool :=
  match bs !! i with
  | Some b => negb (is_blank b) && match i with O => true | S j => match bs !! j with Some a => is_blank a | None => true end end
  | None => false
  end.

Definition count (f : nat -> bool) (n : nat) : Z := foldr (fun i k => (if f i then 1 else 0) + k) 0 (seq 0 n).

Definition newline (bs : list Z) (i : nat) : bool := bool_decide (bs !! i = Some 10).

Definition in_word (bs : list Z) : bool := match last bs with Some b => negb (is_blank b) | None => false end.

(** Lines, words and bytes of the whole input. *)
Definition counts_of (bs : list Z) : counts :=
  mkCounts (count (newline bs) (length bs)) (count (word_start bs) (length bs)) (Z.of_nat (length bs)) (in_word bs).

Lemma count_snoc f n : count f (S n) = count f n + (if f n then 1 else 0).
Proof.
  unfold count. rewrite seq_S, foldr_app. cbn [foldr]. generalize (seq 0 n). intros l. rewrite Z.add_0_r. cbn [Nat.add].
  induction l as [|i l IH]; cbn [foldr]; lia.
Qed.

Lemma count_ext f g n : (forall i, (i < n)%nat -> f i = g i) -> count f n = count g n.
Proof. induction n as [|n IH]; intros Hfg; [done|]. rewrite !count_snoc, IH by (intros; apply Hfg; lia). by rewrite Hfg by lia. Qed.

Lemma count_bound f n : 0 <= count f n <= Z.of_nat n.
Proof. induction n as [|n IH]; [done|]. rewrite count_snoc. destruct (f n); lia. Qed.

Lemma count_step (f : list Z -> nat -> bool) bs b :
  (forall i, (i < length bs)%nat -> f (bs ++ [b]) i = f bs i) ->
  count (f (bs ++ [b])) (length (bs ++ [b])) = count (f bs) (length bs) + (if f (bs ++ [b]) (length bs) then 1 else 0).
Proof. intros Hf. rewrite length_app, Nat.add_1_r, count_snoc. f_equal. by apply count_ext. Qed.

Lemma word_start_last bs b : word_start (bs ++ [b]) (length bs) = negb (is_blank b) && negb (in_word bs).
Proof.
  unfold word_start, in_word. rewrite lookup_app_r, Nat.sub_diag by lia. cbn [list_lookup lookup]. f_equal.
  destruct bs as [|a bs] using rev_ind; [done|]. clear IHbs. rewrite last_snoc.
  rewrite (length_app bs [a]). cbn [length]. rewrite Nat.add_1_r. rewrite lookup_app_l by (rewrite length_app; cbn; lia).
  rewrite lookup_app_r, Nat.sub_diag by lia. cbn. by destruct (is_blank a).
Qed.

Lemma newline_last bs b : newline (bs ++ [b]) (length bs) = (b =? 10).
Proof.
  unfold newline. rewrite lookup_app_r, Nat.sub_diag by lia. cbn [list_lookup lookup].
  case_bool_decide as E; symmetry; [injection E as ->; done|apply Z.eqb_neq; congruence].
Qed.

(** One pass over the bytes counts them. *)
Lemma wc_fold bs : Z.of_nat (length bs) < 2 ^ 31 -> foldl wc_byte (mkCounts 0 0 0 false) bs = counts_of bs.
Proof.
  induction bs as [|b bs IH] using rev_ind; intros Hl; [done|]. rewrite length_app in Hl. cbn [length] in Hl.
  rewrite foldl_app, IH by lia. cbn [foldl]. unfold counts_of.
  rewrite (count_step newline), (count_step word_start); cycle 1.
  - intros i Hi. unfold word_start. rewrite !lookup_app_l by lia. destruct i as [|j]; [done|]. by rewrite lookup_app_l by lia.
  - intros i Hi. unfold newline. by rewrite lookup_app_l by lia.
  - rewrite word_start_last, newline_last.
    pose proof (count_bound (newline bs) (length bs)). pose proof (count_bound (word_start bs) (length bs)).
    unfold wc_byte. cbn [c_l c_w c_c c_in]. rewrite length_app. cbn [length].
    assert (forall x, - 2 ^ 31 <= x < 2 ^ 31 -> s32 x = x) as Hs by (intros x Hx; unfold s32; zdm).
    assert (in_word (bs ++ [b]) = negb (is_blank b)) as -> by (unfold in_word; by rewrite last_snoc).
    rewrite !Hs by lia. destruct (is_blank b), (in_word bs), (b =? 10); cbn [negb andb]; f_equal; lia.
Qed.

Section filters.
Context {W : Type} `{UserFiles W}.
Implicit Types w : W.

(** Only output 1 has grown, by [bs]. *)
Definition wrote (bs : list Z) (w w' : W) : Prop :=
  us_out w' 1 = us_out w 1 ++ bs /\ forall g, g <> 1 -> us_out w' g = us_out w g.

Lemma put_wrote bs : forall w, wrote bs w (put 1 bs w) /\ forall g, us_in (put 1 bs w) g = us_in w g.
Proof.
  unfold put, wrote. induction bs as [|c bs IH]; intros w; cbn [foldl]; [by rewrite app_nil_r|].
  destruct (us_write 1 [c] w) as (w1 & E & H1 & H2 & H3). rewrite E. cbn [snd]. destruct (IH w1) as [[I1 I2] I3].
  split; [split|].
  - by rewrite I1, H1, <- app_assoc.
  - intros g Hg. by rewrite I2, H2.
  - intros g. by rewrite I3.
Qed.

Lemma wp_pcall {A} (f : W -> Z * W) (k : Z -> M W (pres A)) w Q : wp (k (fst (f w))) (snd (f w)) Q -> wp (pbind (pcall f) k) w Q.
Proof. intros Hk. unfold pbind, pcall. apply wp_bind. destruct (f w) as [r w'] eqn:E. eapply wp_run; [unfold act; rewrite E; reflexivity|]. done. Qed.

(** A read at the end of the input, and one that gets a piece. *)
Lemma wp_pread_end {A} fd n (k : Z * list Z -> M W (pres A)) w Q :
  us_in w fd = [] -> (forall w', (forall g, us_out w' g = us_out w g) -> wp (k (0, [])) w' Q) -> wp (pbind (pread fd n) k) w Q.
Proof.
  intros Hin Hk. destruct (us_read_end fd n w Hin) as (w' & E & _ & Ho). unfold pbind, pread. apply wp_bind.
  eapply wp_run; [unfold act; rewrite E; reflexivity|]. by apply Hk.
Qed.

Lemma wp_pread {A} fd n c cs (k : Z * list Z -> M W (pres A)) w Q :
  us_in w fd = c :: cs -> c <> [] -> (0 < n)%nat ->
  (forall w', us_in w' fd = snd (chunk_read (c :: cs) n) -> (forall g, us_out w' g = us_out w g) -> wp (k (Z.of_nat (length (take n c)), take n c)) w' Q) ->
  wp (pbind (pread fd n) k) w Q.
Proof.
  intros Hin Hc Hn Hk. destruct (us_read fd n w c cs Hin Hc Hn) as (w' & E & Hi & Ho). unfold pbind, pread. apply wp_bind.
  eapply wp_run; [unfold act; rewrite E; reflexivity|]. by apply Hk.
Qed.

(** What a read leaves. *)
Lemma chunk_rest c cs n :
  c <> [] -> (0 < n)%nat -> Forall (fun c => c <> []) cs ->
  let rest := snd (chunk_read (c :: cs) n) in
  concat (c :: cs) = take n c ++ concat rest /\ Forall (fun c => c <> []) rest /\ (0 < length (take n c))%nat.
Proof.
  intros Hc Hn Hcs. cbn [chunk_read snd]. split; [|split].
  - cbn [concat]. rewrite <- (take_drop n c) at 1. rewrite <- app_assoc. f_equal. by destruct (drop n c).
  - destruct (drop n c) eqn:E; [done|]. by constructor.
  - rewrite length_take. destruct c; [done|]. cbn [length]. lia.
Qed.

(** Each round of a loop over read takes some bytes off the front of the input. *)
Lemma wp_next {A} fd n pieces (k : Z * list Z -> M W (pres A)) w Q :
  us_in w fd = pieces -> pieces <> [] -> Forall (fun c => c <> []) pieces -> (0 < n)%nat ->
  (forall w' x, x = fst (chunk_read pieces n) -> us_in w' fd = snd (chunk_read pieces n) -> concat pieces = x ++ concat (us_in w' fd) ->
     Forall (fun c => c <> []) (us_in w' fd) -> (0 < length x)%nat -> (forall g, us_out w' g = us_out w g) ->
     wp (k (Z.of_nat (length x), x)) w' Q) ->
  wp (pbind (pread fd n) k) w Q.
Proof.
  intros Hin Hne Hp Hn Hk. destruct pieces as [|c cs]; [done|]. apply Forall_cons in Hp as [Hc Hp]. eapply wp_pread; [exact Hin|done|done|].
  intros w' Hi Ho. destruct (chunk_rest c cs n Hc Hn Hp) as (H1 & H2 & H3). rewrite <- Hi in H1, H2. by apply Hk.
Qed.

Lemma wp_cat fuel : forall pieces fd w,
  us_in w fd = pieces -> Forall (fun c => c <> []) pieces -> (length (concat pieces) < fuel)%nat ->
  wp (cat fuel fd) w (fun r w' => r = PRet tt /\ wrote (concat pieces) w w').
Proof.
  induction fuel as [|fuel IH]; intros pieces fd w Hin Hp Hf; [lia|]. cbn [cat]. unfold CATBUF. destruct pieces as [|c pieces].
  - apply wp_pread_end; [done|]. intros w' Ho. cbn [fst Z.ltb Z.compare]. apply wp_ret. split; [done|]. unfold wrote. cbn [concat].
    rewrite app_nil_r, Ho. split; [done|]. intros g _. apply Ho.
  - eapply wp_next; [exact Hin|done|done|lia|]. intros w1 x _ _ Hcat Hrest Hpos Ho1. cbn [fst snd]. rewrite Hcat, length_app in *.
    replace (0 <? Z.of_nat (length x)) with true by lia. apply wp_pcall. destruct (us_write 1 x w1) as (w2 & E & H1 & H2 & H3). rewrite E. cbn [fst snd].
    rewrite Z.eqb_refl. cbn [negb]. eapply wp_mono; [apply (IH _ fd w2 (H3 fd) Hrest); lia|]. intros r w' (-> & Hw1 & Hw2).
    split; [done|]. unfold wrote. rewrite Hw1, H1, Ho1, <- app_assoc. split; [done|]. intros g Hg. by rewrite Hw2, H2, Ho1.
Qed.

Lemma wp_wc_loop fuel : forall pieces fd k w,
  us_in w fd = pieces -> Forall (fun c => c <> []) pieces -> (length (concat pieces) < fuel)%nat ->
  wp (wc_loop fuel fd k) w (fun r w' => r = PRet (foldl wc_byte k (concat pieces)) /\ forall g, us_out w' g = us_out w g).
Proof.
  induction fuel as [|fuel IH]; intros pieces fd k w Hin Hp Hf; [lia|]. cbn [wc_loop]. destruct pieces as [|c pieces].
  - apply wp_pread_end; [done|]. intros w' Ho. cbn [fst Z.ltb Z.compare]. by apply wp_ret.
  - eapply wp_next; [exact Hin|done|done|lia|]. intros w1 x _ _ Hcat Hrest Hpos Ho1. cbn [fst snd]. rewrite Hcat, length_app in *.
    replace (0 <? Z.of_nat (length x)) with true by lia. rewrite Nat2Z.id, (take_ge x) by lia.
    eapply wp_mono; [apply (IH _ fd _ w1 eq_refl Hrest); lia|]. intros r w' [-> Ho]. rewrite foldl_app. split; [done|]. intros g. by rewrite Ho.
Qed.

(** ** grep *)

Lemma wp_pcall_write {A} bs (k : Z -> M W (pres A)) w Q :
  (forall w', wrote bs w w' -> (forall g, us_in w' g = us_in w g) -> wp (k (Z.of_nat (length bs))) w' Q) -> wp (pbind (pcall (u_write 1 bs)) k) w Q.
Proof.
  intros Hk. apply wp_pcall. destruct (us_write 1 bs w) as (w' & E & H1 & H2 & H3). rewrite E. by apply Hk.
Qed.

Lemma grep_lines_out fuel pattern : forall buf p out,
  grep_lines fuel pattern buf p out = (fst (grep_lines fuel pattern buf p []), out ++ snd (grep_lines fuel pattern buf p [])).
Proof.
  induction fuel as [|fuel IH]; intros buf p out; cbn [grep_lines]; [by rewrite app_nil_r|].
  destruct (strchr _ NL) as [i|]; [|by rewrite app_nil_r]. destruct (match_ _ _); [|apply IH].
  rewrite IH, (IH _ _ ([] ++ _)). cbn [fst snd app]. by rewrite app_assoc.
Qed.

Lemma wp_grep_lines fuel pattern : forall buf p w,
  wp (grep_lines_w fuel pattern buf p) w (fun r w' => r = PRet (fst (grep_lines fuel pattern buf p [])) /\
    wrote (snd (grep_lines fuel pattern buf p [])) w w' /\ forall g, us_in w' g = us_in w g).
Proof.
  assert (forall w, wrote [] w w) as Hnil by (intros w; split; [by rewrite app_nil_r|done]).
  induction fuel as [|fuel IH]; intros buf p w; cbn [grep_lines grep_lines_w]; [by apply wp_ret|].
  destruct (strchr _ NL) as [i|]; [|by apply wp_ret]. destruct (match_ _ _); [|apply IH].
  apply wp_pcall_write. intros w1 [H1 H2] H3. rewrite grep_lines_out. cbn [fst snd app].
  eapply wp_mono; [apply IH|]. intros r w' (-> & [I1 I2] & I3). split; [done|]. split; [split|].
  - by rewrite I1, H1, <- app_assoc.
  - intros g Hg. by rewrite I2, H2.
  - intros g. by rewrite I3, H3.
Qed.

Lemma grep_loop_out fuel pattern : forall pieces buf m out,
  grep_loop chunk_read fuel pattern pieces buf m out = out ++ grep_loop chunk_read fuel pattern pieces buf m [].
Proof.
  induction fuel as [|fuel IH]; intros pieces buf m out; cbn [grep_loop]; [by rewrite app_nil_r|].
  destruct (chunk_read pieces (BUFSZ - m - 1)) as [bs rest]. destruct bs as [|b bs]; [by rewrite app_nil_r|].
  rewrite (grep_lines_out _ _ _ _ out). destruct (grep_lines BUFSZ pattern _ 0 []) as [[buf' p] o]. cbn [fst snd].
  destruct (0 <? _)%nat; rewrite IH, (IH _ _ _ o); by rewrite app_assoc.
Qed.

(** The program that writes line by line writes what Grep.v says. *)
Lemma wp_grep_loop fuel pattern : forall pieces fd buf m w,
  us_in w fd = pieces -> Forall (fun c => c <> []) pieces -> (length (concat pieces) < fuel)%nat -> (m + 1 < BUFSZ)%nat ->
  wp (grep_loop_w fuel pattern fd buf m) w (fun r w' => (exists buf', r = PRet buf') /\ wrote (grep_loop chunk_read fuel pattern pieces buf m []) w w').
Proof.
  induction fuel as [|fuel IH]; intros pieces fd buf m w Hin Hp Hf Hm; [lia|]. cbn [grep_loop_w grep_loop].
  destruct (decide (pieces = [])) as [->|Hne].
  { apply wp_pread_end; [done|]. intros w' Ho. cbn [fst Z.ltb Z.compare chunk_read]. apply wp_ret. split; [by eexists|].
    split; [by rewrite app_nil_r, Ho|]. intros g _. apply Ho. }
  eapply wp_next; [exact Hin|done|done|lia|]. intros w1 x Hx Hi Hcat Hrest Hpos Ho1. cbn [fst snd]. rewrite Hcat, length_app in Hf.
  replace (0 <? Z.of_nat (length x)) with true by lia. rewrite Nat2Z.id, (take_ge x) by lia.
  assert (length x <= BUFSZ - m - 1)%nat as Hxl. { rewrite Hx. destruct pieces; [done|]. cbn [chunk_read fst]. rewrite length_take. lia. }
  destruct (chunk_read pieces (BUFSZ - m - 1)) as [bs rest]. cbn [fst snd] in Hx, Hi. subst bs. destruct x as [|b x]; [cbn in Hpos; lia|].
  set (all := b :: x) in *. unfold pbind at 1. apply wp_bind. eapply wp_mono; [apply wp_grep_lines|]. intros r w2 (-> & [W1 W2] & W3). cbn beta iota.
  destruct (grep_lines BUFSZ pattern _ 0 []) as [[buf' p] o]. cbn [fst snd] in *.
  assert (forall buf'' m', (m' + 1 < BUFSZ)%nat -> wp (grep_loop_w fuel pattern fd buf'' m') w2 (fun r w' => (exists buf', r = PRet buf') /\
    wrote (grep_loop chunk_read fuel pattern rest buf'' m' o) w w')) as Hgo.
  { intros buf'' m' Hm'. eapply wp_mono; [apply (IH rest fd buf'' m' w2); [by rewrite W3|by rewrite <- Hi|rewrite <- Hi; lia|done]|].
    intros r w' [Hr [G1 G2]]. split; [done|]. rewrite grep_loop_out. split; [by rewrite G1, W1, Ho1, <- app_assoc|]. intros g Hg. by rewrite G2, W2, Ho1. }
  destruct (Nat.eqb_spec p 0) as [->|Hp0]; [apply Hgo; unfold BUFSZ; lia|]. destruct (Nat.ltb_spec 0 (m + length all)); apply Hgo; lia.
Qed.
End filters.

(** C38. wc counts.  However the input is cut into pieces, wc writes one line that
    says how many newlines, words and bytes the whole input has, a word being a
    maximal run of bytes other than blanks, and nothing else. *)
Theorem wc_counts {W} `{UserFiles W} fuel fd name pieces (w : W) :
  us_in w fd = pieces -> Forall (fun c => c <> []) pieces -> (length (concat pieces) < fuel)%nat ->
  Z.of_nat (length (concat pieces)) < 2 ^ 31 ->
  exists w' l n c, wc fuel fd name w = Ok (PRet tt, w') /\
    wrote (l ++ [32] ++ n ++ [32] ++ c ++ [32] ++ name ++ [10]) w w' /\
    atoi l = count (newline (concat pieces)) (length (concat pieces)) /\
    atoi n = count (word_start (concat pieces)) (length (concat pieces)) /\
    atoi c = Z.of_nat (length (concat pieces)).
Proof.
  intros Hin Hp Hf Hl. set (all := concat pieces) in *.
  assert (forall x, 0 <= x <= Z.of_nat (length all) -> s32 x = x /\ exists s, printint x 10 1 = Ok s /\ atoi s = x) as Hnum.
  { intros x Hx. split; [unfold s32; zdm|]. destruct (printint_atoi x []) as (_ & _ & Hr). destruct Hr as (s & Hs & Ha); [unfold INT_MAX; lia|by right; left|].
    rewrite app_nil_r in Ha. by exists s. }
  destruct (Hnum (count (newline all) (length all))) as [S1 (l & P1 & A1)]; [apply count_bound|].
  destruct (Hnum (count (word_start all) (length all))) as [S2 (n & P2 & A2)]; [apply count_bound|].
  destruct (Hnum (Z.of_nat (length all))) as [S3 (c & P3 & A3)]; [lia|].
  destruct (wp_wc_loop fuel pieces fd (mkCounts 0 0 0 false) w Hin Hp Hf) as (r & w1 & E & -> & Ho). rewrite wc_fold in E by done.
  destruct (put_wrote (l ++ [32] ++ n ++ [32] ++ c ++ [32] ++ name ++ [10]) w1) as [[W1 W2] _].
  exists (put 1 (l ++ [32] ++ n ++ [32] ++ c ++ [32] ++ name ++ [10]) w1), l, n, c. split; [|split; [|done]].
  - unfold wc, pbind. erewrite bind_Ok by exact E. unfold uprintf, Ulib.printf. change (nl "%d %d %d %s") with [37; 100; 32; 37; 100; 32; 37; 100; 32; 37; 115; 10].
    cbn [counts_of c_l c_w c_c]. cbn -[printint s32 put count word_start newline]. fold all. rewrite S1, P1, S2, P2, S3, P3. reflexivity.
  - unfold wrote in *. rewrite W1, Ho. split; [done|]. intros g Hg. by rewrite W2, Ho.
Qed.

(** cat copies.  However the input is cut into pieces, cat writes exactly its
    bytes to the standard output, and nothing anywhere else. *)
Lemma cat_copies {W} `{UserFiles W} fuel fd pieces (w : W) :
  us_in w fd = pieces -> Forall (fun c => c <> []) pieces -> (length (concat pieces) < fuel)%nat ->
  exists w', cat fuel fd w = Ok (PRet tt, w') /\ wrote (concat pieces) w w'.
Proof. intros Hin Hp Hf. destruct (wp_cat fuel pieces fd w Hin Hp Hf) as (r & w' & E & -> & Hw). by exists w'. Qed.

Module UtilsDemo.
(** The standard input is cut in pieces; everything that is written is kept. *)
Record world := mkWorld { ins : list (list Z); outs : list (Z * list Z) }.

Definition read (fd : Z) (n : nat) (w : world) : Z * list Z * world :=
  if fd =? 0 then
    match ins w with
    | [] => (0, [], w)
    | c :: cs => (Z.of_nat (length (take n c)), take n c, mkWorld (snd (chunk_read (c :: cs) n)) (outs w))
    end
  else (0, [], w).

#[global] Instance world_os : UserOS world := {
  u_open _ _ w := (-1, w); u_close _ w := (0, w); u_read := read;
  u_write fd bs w := (Z.of_nat (length bs), mkWorld (ins w) (outs w ++ [(fd, bs)]));
  u_fstat _ w := (-1, mkStat 0 0 0 0 0, w); u_link _ _ w := (-1, w); u_unlink _ w := (-1, w); u_mkdir _ w := (-1, w);
  u_kill _ w := (-1, w); u_policy _ w := (-1, w) }.

Definition out (w : world) (fd : Z) : list Z := concat ((fun x => if fst x =? fd then snd x else []) <$> outs w).

#[global] Program Instance world_files : UserFiles world := {
  us_in w fd := if fd =? 0 then ins w else []; us_out := out }.
Next Obligation.
  intros fd n w Hin. cbn in *. unfold read. exists w. split; [|done]. destruct (fd =? 0); [by rewrite Hin|done].
Qed.
Next Obligation.
  intros fd n w c cs Hin Hc Hn. cbn in *. unfold read. destruct (fd =? 0) eqn:E; [|done]. rewrite Hin. eexists. split; [reflexivity|]. done.
Qed.
Next Obligation.
  intros fd bs w. cbn in *. eexists. split; [reflexivity|]. unfold out. cbn [outs ins]. rewrite fmap_app, concat_app. cbn [fmap list_fmap concat fst snd].
  rewrite Z.eqb_refl, app_nil_r. split; [done|]. split; [|done]. intros g Hg. rewrite fmap_app, concat_app. cbn [fmap list_fmap concat fst snd].
  replace (fd =? g) with false by lia. by rewrite !app_nil_r.
Qed.

(** "a b" and "c\n" *)
Definition start : world := mkWorld [[97; 32; 98]; [99; 10]] [].
End UtilsDemo.

Lemma wc_counts_witness :
  exists w' l n c, wc 6 0 [120] UtilsDemo.start = Ok (PRet tt, w') /\ atoi l = 1 /\ atoi n = 2 /\ atoi c = 5 /\
    wrote (l ++ [32] ++ n ++ [32] ++ c ++ [32] ++ [120] ++ [10]) UtilsDemo.start w'.
Proof.
  destruct (wc_counts 6 0 [120] [[97; 32; 98]; [99; 10]] UtilsDemo.start) as (w' & l & n & c & H & Hw & Hl & Hn & Hc).
  - reflexivity.
  - repeat (constructor; [discriminate|]). constructor.
  - cbn. lia.
  - vm_compute. reflexivity.
  - exists w', l, n, c. split; [exact H|]. split; [exact Hl|]. split; [exact Hn|]. split; [exact Hc|exact Hw].
Defined.

