(* ===== verification/Console.v ===== *)
(** console.c: output to the screen and the serial line, and the line editor
    between the keyboard interrupt and the programs that read the console.

    The screen is the CGA memory, 25 rows of 80 cells, with the cursor in two
    8-bit registers of the CRT controller; the serial line is what was sent to
    it.  cons.lock makes each routine one step; the reader stops at its sleep
    and is the loop entered again. *)

From S2P Require Import Prelude Codec.

Definition BACKSPACE : Z := 256.
Definition INPUT_BUF : Z := 128.
Definition NL : Z := 10.
Definition CR : Z := 13.

(** C(x) *)
Definition ctrl (x : Z) : Z := x - 64.

Record inbuf := mkIn {
  ib : list Z;   (* buf *)
  ir : Z;        (* read index *)
  iw : Z;        (* write index *)
  ie : Z }.      (* edit index *)

Record cons := mkCons {
  panicked : bool;
  crt : list Z;
  cur_hi : Z;
  cur_lo : Z;
  uart : Z;          (* is there a uart? *)
  serial : list Z;   (* what was sent to it *)
  input : inbuf;
  ckilled : Z;       (* proc->killed of the reader *)
  wakeups : nat }.   (* wakeup(&input.r) so far *)

Definition with_screen (l : list Z) (s : cons) : cons :=
  mkCons (panicked s) l (cur_hi s) (cur_lo s) (uart s) (serial s) (input s) (ckilled s) (wakeups s).
Definition with_cursor (pos : Z) (s : cons) : cons :=
  mkCons (panicked s) (crt s) (u8 (Z.shiftr pos 8)) (u8 pos) (uart s) (serial s) (input s) (ckilled s) (wakeups s).
Definition with_uart (u : Z) (s : cons) : cons :=
  mkCons (panicked s) (crt s) (cur_hi s) (cur_lo s) u (serial s) (input s) (ckilled s) (wakeups s).
Definition with_serial (l : list Z) (s : cons) : cons :=
  mkCons (panicked s) (crt s) (cur_hi s) (cur_lo s) (uart s) l (input s) (ckilled s) (wakeups s).
Definition with_input (i : inbuf) (s : cons) : cons :=
  mkCons (panicked s) (crt s) (cur_hi s) (cur_lo s) (uart s) (serial s) i (ckilled s) (wakeups s).

Definition set_e (e : Z) (i : inbuf) : inbuf := mkIn (ib i) (ir i) (iw i) e.
Definition set_r (r : Z) (i : inbuf) : inbuf := mkIn (ib i) r (iw i) (ie i).
Definition set_w (w : Z) (i : inbuf) : inbuf := mkIn (ib i) (ir i) w (ie i).

Abbreviation N := (M cons).

(** * The screen *)

(** crt[i] = v *)
Definition crt_set (i v : Z) : N unit := fun s =>
  if (0 <=? i) && (i <? Z.of_nat (length (crt s))) then Ok (tt, with_screen (<[Z.to_nat i := v]> (crt s)) s)
  else Fault "crt".

Definition cell (c : Z) : Z := Z.lor (Z.land c 255) 0x0700.

(** memmove(crt, crt+80, 23 rows); the cells from [pos] to the end of row 23
    cleared. *)
Definition scroll (pos : Z) (l : list Z) : list Z :=
  let moved := splice 0 (slice 80 (23 * 80) l) l in
  splice (Z.to_nat pos) (replicate (Z.to_nat (24 * 80 - pos)) 0) moved.

Definition cgaputc (c : Z) : N unit :=
  s ← get;
  let pos := Z.lor (Z.shiftl (cur_hi s) 8) (cur_lo s) in
  pos ← (if c =? NL then mret (pos + (80 - pos mod 80))
         else if c =? BACKSPACE then mret (if 0 <? pos then pos - 1 else pos)
         else crt_set pos (cell c);; mret (pos + 1));
  if (pos <? 0) || (25 * 80 <? pos) then panic "pos under/overflow"
  else
    pos ← (if 24 <=? pos / 80 then
             modify (fun s => with_screen (scroll (pos - 80) (crt s)) s);; mret (pos - 80)
           else mret pos);
    modify (with_cursor pos);;
    crt_set pos (cell 32).

(** The wait for the transmitter, at most 128 turns, changes nothing. *)
Definition uartputc (c : Z) : N unit :=
  s ← get;
  if uart s =? 0 then mret tt
  else modify (fun s => with_serial (serial s ++ [u8 c]) s).

(** uartinit; [status]: what inb(COM1+5) reads, 0xFF without a serial port. *)
Definition uartinit (status : Z) : N unit :=
  if status =? 255 then mret tt
  else
    modify (with_uart 1);;
    uartputc 120;; uartputc 118;; uartputc 54;; uartputc 46;; uartputc 46;; uartputc 46;; uartputc NL.

Definition consputc (c : Z) : N unit :=
  s ← get;
  if panicked s then blocks "panicked"
  else
    (if c =? BACKSPACE then uartputc 8;; uartputc 32;; uartputc 8 else uartputc c);;
    cgaputc c.

(** consputc of every byte. *)
Fixpoint consputs (l : list Z) : N unit :=
  match l with
  | [] => mret tt
  | c :: l => consputc c;; consputs l
  end.

(** * Formatted output *)

Definition kdigits : list Z :=
  [48; 49; 50; 51; 52; 53; 54; 55; 56; 57; 97; 98; 99; 100; 101; 102].

(** do buf[i++] = digits[x % base]; while((x /= base) != 0) *)
Fixpoint kprint_digits (fuel : nat) (x base : Z) : list Z :=
  match fuel with
  | O => []
  | S fuel =>
      nth (Z.to_nat (x mod base)) kdigits 0 ::
      (if x / base =? 0 then [] else kprint_digits fuel (x / base) base)
  end.

Definition kprintint (xx base sgn : Z) : N unit :=
  let neg := negb (sgn =? 0) && (xx <? 0) in
  let x := if neg then u32 (- xx) else u32 xx in
  let buf := kprint_digits 32 x base ++ (if neg then [45] else []) in
  if (16 <? length buf)%nat then fault "buf" else consputs (rev buf).

(** [str]: the string at an address; [argp]: the words after fmt. *)
Fixpoint cprintf_loop (str : Z -> list Z) (fmt argp : list Z) : N unit :=
  match fmt with
  | [] => mret tt
  | c :: fmt =>
      if negb (c =? 37) then consputc c;; cprintf_loop str fmt argp
      else
        match fmt with
        | [] => mret tt
        | c :: fmt =>
            let arg (f : Z -> N unit) :=
              match argp with
              | [] => fault "argp"
              | a :: argp => f a;; cprintf_loop str fmt argp
              end in
            if c =? 100 then arg (fun a => kprintint (s32 a) 10 1)
            else if (c =? 120) || (c =? 112) then arg (fun a => kprintint (s32 a) 16 0)
            else if c =? 115 then
              arg (fun a => consputs (if a =? 0 then [40; 110; 117; 108; 108; 41] else str a))
            else if c =? 37 then consputc 37;; cprintf_loop str fmt argp
            else consputc 37;; consputc c;; cprintf_loop str fmt argp
        end
  end.

Definition cprintf (str : Z -> list Z) (fmt argp : list Z) : N unit := cprintf_loop str fmt argp.

(** * Input *)

(** input.buf[i % INPUT_BUF] *)
Definition slot (i : Z) : nat := Z.to_nat (i mod INPUT_BUF).
Definition buf_at (i : Z) (b : inbuf) : option Z := ib b !! slot i.

(** while(input.e != input.w && input.buf[(input.e-1) % INPUT_BUF] != '\n') *)
Fixpoint kill_line (fuel : nat) : N unit :=
  match fuel with
  | O => mret tt
  | S fuel =>
      i ← gets input;
      if ie i =? iw i then mret tt
      else
        c ← deref "input.buf" (fun s => buf_at (u32 (ie (input s) - 1)) (input s));
        if c =? NL then mret tt
        else
          modify (fun s => with_input (set_e (u32 (ie (input s) - 1)) (input s)) s);;
          consputc BACKSPACE;;
          kill_line fuel
  end.

Definition wakeup_readers : N unit :=
  modify (fun s => mkCons (panicked s) (crt s) (cur_hi s) (cur_lo s) (uart s) (serial s) (input s) (ckilled s)
    (S (wakeups s))).

(** One turn of the loop of consoleintr; is a process listing wanted? *)
Definition key (c : Z) : N bool :=
  i ← gets input;
  if c =? ctrl 80 then mret true
  else if c =? ctrl 85 then kill_line (Z.to_nat INPUT_BUF);; mret false
  else if (c =? ctrl 72) || (c =? 127) then
    when (negb (ie i =? iw i))
      (modify (fun s => with_input (set_e (u32 (ie i - 1)) i) s);; consputc BACKSPACE);;
    mret false
  else
    when (negb (c =? 0) && (u32 (ie i - ir i) <? INPUT_BUF))
      (let c := if c =? CR then NL else c in
       modify (fun s => with_input (mkIn (<[slot (ie i) := u8 c]> (ib i)) (ir i) (iw i) (u32 (ie i + 1))) s);;
       consputc c;;
       when ((c =? NL) || (c =? ctrl 68) || (u32 (ie i + 1) =? u32 (ir i + INPUT_BUF)))
         (modify (fun s => with_input (set_w (ie (input s)) (input s)) s);; wakeup_readers));;
    mret false.

(** The characters getc() returns before it returns a negative number. *)
Fixpoint keys (cs : list Z) (doprocdump : bool) : N bool :=
  match cs with
  | [] => mret doprocdump
  | c :: cs => d ← key c; keys cs (doprocdump || d)
  end.

(** True: procdump() is to be called, now that the lock is released. *)
Definition consoleintr (cs : list Z) : N bool := keys cs false.

(** uartgetc; [rx]: the bytes the serial line has received. *)
Definition uartgetc (rx : list Z) : N (Z * list Z) :=
  s ← get;
  if uart s =? 0 then mret (-1, rx)
  else match rx with [] => mret (-1, []) | c :: rx => mret (c, rx) end.

(** What uartgetc returns before its first -1. *)
Fixpoint uart_chars (k : nat) (rx : list Z) : N (list Z) :=
  match k with
  | O => mret []
  | S k => r ← uartgetc rx; if r.1 <? 0 then mret [] else cs ← uart_chars k r.2; mret (r.1 :: cs)
  end.

Definition uartintr (rx : list Z) : N bool := cs ← uart_chars (S (length rx)) rx; consoleintr cs.

(** How consoleread ends: with what it copied, or asleep with [n] to go. *)
Inductive cres := CDone (bs : list Z) | CKilled | CSleep (got : list Z) (n : Z).

(** The loop of consoleread; [got]: the bytes at dst so far. *)
Fixpoint consoleread_loop (k : nat) (target : Z) (got : list Z) : N cres :=
  match k with
  | O => mret (CDone got)
  | S k' =>
      s ← get;
      let i := input s in
      if ir i =? iw i then
        if negb (ckilled s =? 0) then mret CKilled
        else mret (CSleep got (Z.of_nat k))
      else
        c ← deref "input.buf" (fun s => buf_at (ir (input s)) (input s));
        modify (fun s => with_input (set_r (u32 (ir (input s) + 1)) (input s)) s);;
        if c =? ctrl 68 then
          when (Z.of_nat k <? target)
            (modify (fun s => with_input (set_r (u32 (ir (input s) - 1)) (input s)) s));;
          mret (CDone got)
        else if c =? NL then mret (CDone (got ++ [c]))
        else consoleread_loop k' target (got ++ [c])
  end.

(** The inode is unlocked meanwhile: readi of a device calls this. *)
Definition consoleread (n : Z) : N cres := consoleread_loop (Z.to_nat n) n [].

Definition consolewrite (buf : list Z) (n : Z) : N Z :=
  consputs (take (Z.to_nat n) buf);; mret n.

(** * The screen as a terminal *)

Definition COLS : nat := 80.
Definition CELLS : nat := 1920.   (* 24 rows *)

Definition cursor (s : cons) : Z := Z.lor (Z.shiftl (cur_hi s) 8) (cur_lo s).

(** The 24 rows that text is written to. *)
Definition display (s : cons) : list Z := take CELLS (crt s).

(** A terminal of 24 rows: a character goes to the cursor, a newline to the
    next row, a backspace one cell back; past the last row the text moves up;
    the cell at the cursor is blank. *)
Definition terminal (c : Z) (t : nat * list Z) : nat * list Z :=
  let (pos, d) := t in
  let (pos, d) :=
    if c =? NL then ((pos / COLS + 1) * COLS, d)%nat
    else if c =? BACKSPACE then (pred pos, d)
    else (S pos, <[pos := cell c]> d) in
  if (pos <? CELLS)%nat then (pos, <[pos := cell 32]> d)
  else
    let pos := (pos - COLS)%nat in
    (pos, <[pos := cell 32]> (drop COLS d ++ replicate COLS 0)).

Record screen_ok (s : cons) : Prop := {
  so_len : (25 * 80 <= length (crt s))%nat;
  so_cur : 0 <= cursor s < Z.of_nat CELLS }.

Lemma lor_shift a b : 0 <= b < 256 -> Z.lor (Z.shiftl a 8) b = a * 256 + b.
Proof.
  intros Hb. assert (Z.land (Z.shiftl a 8) b = 0) as H0.
  { apply Z.bits_inj'. intros n Hn. rewrite Z.land_spec, Z.bits_0, Z.shiftl_spec by done.
    destruct (decide (n < 8)); [by rewrite Z.testbit_neg_r by lia|].
    rewrite (Z.bits_above_log2 b), andb_false_r; [done|lia|].
    destruct (decide (b = 0)) as [->|]; [simpl; lia|]. apply Z.lt_le_trans with 8; [|lia].
    by apply Z.log2_lt_pow2; lia. }
  rewrite <- Z.lxor_lor, <- Z.add_nocarry_lxor by done. by rewrite Z.shiftl_mul_pow2.
Qed.

(** What outb stores in the two registers is read back. *)
Lemma cursor_with pos s : 0 <= pos < 65536 -> cursor (with_cursor pos s) = pos.
Proof.
  intros Hp. unfold cursor. simpl. rewrite lor_shift by apply u8_range.
  rewrite Z.shiftr_div_pow2 by lia. zdm.
Qed.

Lemma length_scroll l : (25 * 80 <= length l)%nat -> length (scroll 1840 l) = length l.
Proof.
  intros Hl. unfold scroll. change (Z.to_nat 1840) with 1840%nat. change (Z.to_nat (24 * 80 - 1840)) with 80%nat.
  assert (length (splice 0 (slice 80 (23 * 80) l) l) = length l) as E
    by (apply length_splice; rewrite length_slice by lia; lia).
  rewrite length_splice; [done|]. rewrite E, length_replicate. lia.
Qed.

Lemma take_scroll l :
  (25 * 80 <= length l)%nat -> take CELLS (scroll 1840 l) = drop COLS (take CELLS l) ++ replicate COLS 0.
Proof.
  intros Hl. unfold scroll, CELLS, COLS. change (Z.to_nat 1840) with 1840%nat. change (Z.to_nat (24 * 80 - 1840)) with 80%nat.
  assert (length (slice 80 (23 * 80) l) = 1840%nat) as E1 by (rewrite length_slice; lia).
  assert (length (splice 0 (slice 80 (23 * 80) l) l) = length l) as E2 by (apply length_splice; lia).
  apply list_eq. intros i. destruct (decide (i < 1920)%nat).
  - rewrite lookup_take_lt, lookup_splice by (rewrite ?length_replicate; lia). rewrite length_replicate.
    case_decide as D.
    + rewrite lookup_app_r; rewrite length_drop, length_take, Nat.min_l by lia. all: try lia. done.
    + rewrite lookup_splice, decide_True, Nat.sub_0_r, lookup_slice by lia.
      rewrite lookup_app_l by (rewrite length_drop, length_take; lia). by rewrite lookup_drop, lookup_take_lt by lia.
  - rewrite lookup_take_ge by lia. symmetry. apply lookup_ge_None.
    rewrite length_app, length_drop, length_take, length_replicate. lia.
Qed.

Definition elsewhere (s t : cons) : Prop :=
  panicked t = panicked s /\ (uart t = uart s /\ serial t = serial s) /\ input t = input s /\ ckilled t = ckilled s /\
  wakeups t = wakeups s.

(** The second half of cgaputc: the cursor has moved to [pos]. *)
Lemma cga_place s pos (d := display s) :
  (25 * 80 <= length (crt s))%nat -> 0 <= pos <= 1920 ->
  wp (if (pos <? 0) || (25 * 80 <? pos) then panic "pos under/overflow"
      else
        pos ← (if 24 <=? pos / 80 then
                 modify (fun s => with_screen (scroll (pos - 80) (crt s)) s);; mret (pos - 80)
               else mret pos);
        modify (with_cursor pos);;
        crt_set pos (cell 32)) s
    (fun _ t => screen_ok t /\ elsewhere s t /\ (Z.to_nat (cursor t), display t) =
       let p := Z.to_nat pos in
       if (p <? CELLS)%nat then (p, <[p := cell 32]> d)
       else let p := (p - COLS)%nat in (p, <[p := cell 32]> (drop COLS d ++ replicate COLS 0))).
Proof.
  intros Hl Hp. rewrite (proj2 (orb_false_iff _ _)) by (split; [apply Z.ltb_ge|apply Z.ltb_ge]; lia).
  assert (forall p s0, (25 * 80 <= length (crt s0))%nat -> 0 <= p < 1920 ->
    wp (modify (with_cursor p);; crt_set p (cell 32)) s0 (fun _ t => screen_ok t /\ elsewhere s0 t /\
      (Z.to_nat (cursor t), display t) = (Z.to_nat p, <[Z.to_nat p := cell 32]> (display s0)))) as Hend.
  { intros p s0 Hl0 Hp0. apply wp_bind, wp_modify. eapply wp_run.
    - unfold crt_set. simpl. rewrite (proj2 (andb_true_iff _ _)); [reflexivity|].
      split; [apply Z.leb_le|apply Z.ltb_lt]; lia.
    - assert (cursor (with_screen (<[Z.to_nat p := cell 32]> (crt s0)) (with_cursor p s0)) = p) as E
        by (apply (cursor_with p s0); lia).
      split; [split; [simpl; by rewrite length_insert|simpl; rewrite E; unfold CELLS; lia]|]. split; [done|].
      rewrite E. f_equal. unfold display. simpl. apply take_insert_lt. unfold CELLS. lia. }
  apply wp_bind. destruct (Z.leb_spec 24 (pos / 80)) as [H24|H24].
  - assert (pos = 1920) as -> by (Z.div_mod_to_equations; lia).
    apply wp_bind, wp_modify, wp_ret. change (1920 - 80) with 1840. eapply wp_mono.
    { apply Hend; [simpl; by rewrite length_scroll|lia]. }
    intros _ t (Hok & He & E). split; [done|]. split; [exact He|]. rewrite E. cbv zeta.
    change (Z.to_nat 1840) with (1920 - 80)%nat. change (Z.to_nat 1920) with 1920%nat.
    change (1920 <? CELLS)%nat with false. cbv iota. unfold display at 1. simpl crt. by rewrite take_scroll.
  - apply wp_ret. eapply wp_mono; [apply Hend; [done|Z.div_mod_to_equations; lia]|].
    intros _ t (Hok & He & E). split; [done|]. split; [done|]. rewrite E.
    cbv zeta. rewrite (proj2 (Nat.ltb_lt (Z.to_nat pos) CELLS)); [done|]. unfold CELLS. Z.div_mod_to_equations. lia.
Qed.

Lemma wp_cgaputc c s (Q : unit -> cons -> Prop) :
  screen_ok s ->
  (forall t, screen_ok t -> elsewhere s t ->
     (Z.to_nat (cursor t), display t) = terminal c (Z.to_nat (cursor s), display s) -> Q tt t) ->
  wp (cgaputc c) s Q.
Proof.
  intros [Hl Hc] HQ. assert (0 <= cursor s < 1920) as Hc' by exact Hc. unfold cgaputc. apply wp_bind, wp_get. fold (cursor s).
  enough (wp (if c =? NL then mret (cursor s + (80 - cursor s mod 80))
    else if c =? BACKSPACE then mret (if 0 <? cursor s then cursor s - 1 else cursor s)
    else crt_set (cursor s) (cell c);; mret (cursor s + 1)) s (fun pos t =>
      (25 * 80 <= length (crt t))%nat /\ 0 <= pos <= 1920 /\ elsewhere s t /\
      (Z.to_nat pos, display t) =
        if c =? NL then ((Z.to_nat (cursor s) / COLS + 1) * COLS, display s)%nat
        else if c =? BACKSPACE then (pred (Z.to_nat (cursor s)), display s)
        else (S (Z.to_nat (cursor s)), <[Z.to_nat (cursor s) := cell c]> (display s)))) as H.
  { apply wp_bind. eapply wp_mono; [exact H|]. intros pos t (Hlt & Hp & He & E). eapply wp_mono; [by apply cga_place|].
    intros [] u (Hok & He' & E'). apply HQ; [done| |].
    - unfold elsewhere in *. intuition congruence.
    - rewrite E'. unfold terminal. rewrite <- E. done. }
  destruct (c =? NL); [|destruct (c =? BACKSPACE)].
  - apply wp_ret. split_and!; try done; [Z.div_mod_to_equations; lia..|]. f_equal. unfold COLS.
    assert (cursor s mod 80 = Z.of_nat (Z.to_nat (cursor s) mod 80)) as ->
      by (rewrite Nat2Z.inj_mod, Z2Nat.id by lia; done).
    pose proof (Nat.div_mod_eq (Z.to_nat (cursor s)) 80).
    pose proof (Nat.mod_upper_bound (Z.to_nat (cursor s)) 80). lia.
  - apply wp_ret. destruct (Z.ltb_spec 0 (cursor s)); split_and!; try done; try lia; f_equal; lia.
  - apply wp_bind. eapply wp_run.
    + unfold crt_set. rewrite (proj2 (andb_true_iff _ _)); [reflexivity|].
      split; [apply Z.leb_le|apply Z.ltb_lt]; lia.
    + apply wp_ret. split_and!; try done; try lia.
      * simpl. by rewrite length_insert.
      * f_equal; [lia|]. unfold display. simpl. apply take_insert_lt. unfold CELLS. lia.
Qed.

(** What the serial line gets, if there is one, and for a character. *)
Definition sent (s : cons) (l : list Z) : list Z := if uart s =? 0 then [] else l.
Definition echo (c : Z) : list Z := if c =? BACKSPACE then [8; 32; 8] else [u8 c].

(** Ready to print. *)
Definition prints (s : cons) : Prop := screen_ok s /\ panicked s = false.

Definition printed (c : Z) (s t : cons) : Prop :=
  serial t = serial s ++ sent s (echo c) /\ uart t = uart s /\
  (Z.to_nat (cursor t), display t) = terminal c (Z.to_nat (cursor s), display s).

Definition same_in (s t : cons) : Prop :=
  input t = input s /\ ckilled t = ckilled s /\ wakeups t = wakeups s.

Lemma wp_uartputc c s (Q : unit -> cons -> Prop) :
  Q tt (if uart s =? 0 then s else with_serial (serial s ++ [u8 c]) s) -> wp (uartputc c) s Q.
Proof. intros HQ. apply wp_bind, wp_get. destruct (uart s =? 0); [by apply wp_ret|by apply wp_modify]. Qed.

Lemma wp_consputc c s (Q : unit -> cons -> Prop) :
  prints s -> (forall t, prints t -> printed c s t -> same_in s t -> Q tt t) -> wp (consputc c) s Q.
Proof.
  intros [Hs Hp] HQ. unfold consputc. apply wp_bind, wp_get. rewrite Hp. apply wp_bind.
  assert (forall l, screen_ok (with_serial l s)) as Hl by (intros l; by destruct Hs).
  assert (wp (cgaputc c) (with_serial (serial s ++ sent s (echo c)) s) Q) as Hcga.
  { apply wp_cgaputc; [done|]. intros t Ht (E1 & (E2 & E3) & E4 & E5 & E6) E. simpl in *.
    apply HQ; [split; [done|congruence]|done|done]. }
  unfold sent, echo in Hcga. destruct (uart s =? 0) eqn:Eu, (c =? BACKSPACE).
  - do 2 (apply wp_bind; apply wp_uartputc; rewrite Eu). apply wp_uartputc. rewrite Eu.
    rewrite app_nil_r in Hcga. by destruct s.
  - apply wp_uartputc. rewrite Eu. rewrite app_nil_r in Hcga. by destruct s.
  - apply wp_bind, wp_uartputc. rewrite Eu. apply wp_bind, wp_uartputc. cbn [uart with_serial]. rewrite Eu.
    apply wp_uartputc. cbn [uart with_serial serial]. rewrite Eu. by rewrite <- !app_assoc.
  - apply wp_uartputc. rewrite Eu. exact Hcga.
Qed.

(** * The line editor

    [ready]: bytes of finished lines that nobody has read yet; [edit]: the line
    being typed. *)

Record rep (i : inbuf) (ready edit : list Z) : Prop := {
  rp_len : length (ib i) = 128%nat;
  rp_r : 0 <= ir i < 2 ^ 32;
  rp_w : iw i = u32 (ir i + Z.of_nat (length ready));
  rp_e : ie i = u32 (ir i + Z.of_nat (length ready + length edit));
  rp_room : (length ready + length edit <= 128)%nat;
  rp_ring : forall k c, (ready ++ edit) !! k = Some c -> ib i !! slot (ir i + Z.of_nat k) = Some c }.

Definition type_key (c : Z) (l : list Z * list Z) : list Z * list Z :=
  let (ready, edit) := l in
  if c =? ctrl 80 then l
  else if c =? ctrl 85 then (ready, [])
  else if (c =? ctrl 72) || (c =? 127) then (ready, take (pred (length edit)) edit)
  else if negb (c =? 0) && (length ready + length edit <? 128)%nat then
    let c := if c =? CR then NL else c in
    let edit := edit ++ [c] in
    if (c =? NL) || (c =? ctrl 68) || (length ready + length edit =? 128)%nat then (ready ++ edit, [])
    else (ready, edit)
  else l.

(** What a reader that has [got] and wants n more bytes gets, and what stays:
    the rest of the line or n bytes of it; nothing more after an end of file,
    which is kept for the next reader unless this one got nothing. *)
Definition plain (c : Z) : bool := negb (c =? NL) && negb (c =? ctrl 68).

Fixpoint plain_prefix (l : list Z) : list Z :=
  match l with
  | [] => []
  | c :: l => if plain c then c :: plain_prefix l else []
  end.

Definition read_line (killed : Z) (got : list Z) (n : nat) (ready : list Z) : cres * list Z :=
  let p := plain_prefix ready in
  if (n <=? length p)%nat then (CDone (got ++ take n p), drop n ready)
  else
    match drop (length p) ready with
    | [] => ((if killed =? 0 then CSleep (got ++ p) (Z.of_nat (n - length p)) else CKilled), [])
    | c :: rest =>
        if c =? NL then (CDone (got ++ p ++ [NL]), rest)
        else (CDone (got ++ p), match got ++ p with [] => rest | _ => c :: rest end)
    end.

Lemma slot_lt a : (slot a < 128)%nat.
Proof. unfold slot, INPUT_BUF. pose proof (Z.mod_pos_bound a 128 ltac:(lia)). lia. Qed.

Lemma slot_u32 a : slot (u32 a) = slot a.
Proof. unfold slot, INPUT_BUF, u32. f_equal. Z.div_mod_to_equations. lia. Qed.

Lemma slot_inj a i j : 0 <= i < 128 -> 0 <= j < 128 -> slot (a + i) = slot (a + j) -> i = j.
Proof. unfold slot, INPUT_BUF. intros. Z.div_mod_to_equations. lia. Qed.

Lemma slot_u32_add a b : slot (u32 a + b) = slot (a + b).
Proof. unfold slot, INPUT_BUF, u32. f_equal. Z.div_mod_to_equations. lia. Qed.

(** The tests of the code on the lists. *)
Lemma rep_edit_empty i ready edit : rep i ready edit -> (ie i =? iw i) = (length edit =? 0)%nat.
Proof.
  intros [Hl Hr Hw He Hroom _]. apply eq_true_iff_eq. rewrite Z.eqb_eq, Nat.eqb_eq, Hw, He. unfold u32.
  Z.div_mod_to_equations. lia.
Qed.

Lemma rep_ready_empty i ready edit : rep i ready edit -> (ir i =? iw i) = (length ready =? 0)%nat.
Proof.
  intros [Hl Hr Hw He Hroom _]. apply eq_true_iff_eq. rewrite Z.eqb_eq, Nat.eqb_eq, Hw. unfold u32.
  Z.div_mod_to_equations. lia.
Qed.

Lemma rep_has_room i ready edit :
  rep i ready edit -> (u32 (ie i - ir i) <? INPUT_BUF) = (length ready + length edit <? 128)%nat.
Proof.
  intros [Hl Hr Hw He Hroom _]. apply eq_true_iff_eq. rewrite Z.ltb_lt, Nat.ltb_lt, He. unfold u32, INPUT_BUF.
  Z.div_mod_to_equations. lia.
Qed.

Lemma rep_full i ready edit :
  rep i ready edit ->
  (u32 (ie i + 1) =? u32 (ir i + INPUT_BUF)) = (length ready + (length edit + 1) =? 128)%nat.
Proof.
  intros [Hl Hr Hw He Hroom _]. apply eq_true_iff_eq. rewrite Z.eqb_eq, Nat.eqb_eq, He. unfold u32, INPUT_BUF.
  Z.div_mod_to_equations. lia.
Qed.

Lemma rep_push i ready edit c :
  rep i ready edit -> (length ready + length edit < 128)%nat ->
  rep (mkIn (<[slot (ie i) := c]> (ib i)) (ir i) (iw i) (u32 (ie i + 1))) ready (edit ++ [c]).
Proof.
  intros [Hl Hr Hw He Hroom Hring] Hlt. split; simpl; rewrite ?length_insert, ?length_app; simpl; try done; try lia.
  - rewrite He. unfold u32. Z.div_mod_to_equations. lia.
  - intros k x. rewrite app_assoc. rewrite He, slot_u32. intros [[Hk Hx]|[-> <-]]%lookup_snoc_Some.
    + rewrite list_lookup_insert_ne; [by apply Hring|]. rewrite length_app in Hk.
      intros E. apply slot_inj in E; lia.
    + rewrite length_app. apply list_lookup_insert_eq. rewrite Hl. apply slot_lt.
Qed.

Lemma rep_commit i ready edit : rep i ready edit -> rep (set_w (ie i) i) (ready ++ edit) [].
Proof.
  intros [Hl Hr Hw He Hroom Hring]. split; simpl; rewrite ?length_app, ?app_nil_r; simpl; try done; try lia.
  rewrite He. f_equal. lia.
Qed.

Lemma rep_pop i ready edit c : rep i ready (edit ++ [c]) -> rep (set_e (u32 (ie i - 1)) i) ready edit.
Proof.
  intros [Hl Hr Hw He Hroom Hring]. rewrite length_app in *. simpl in *. split; simpl; try done; try lia.
  - rewrite He. unfold u32. Z.div_mod_to_equations. lia.
  - intros k x Hx. apply Hring. rewrite app_assoc. by apply lookup_app_l_Some.
Qed.

Lemma rep_last i ready edit c : rep i ready (edit ++ [c]) -> buf_at (u32 (ie i - 1)) i = Some c.
Proof.
  intros [Hl Hr Hw He Hroom Hring]. unfold buf_at. rewrite length_app in *. simpl in *.
  rewrite <- (Hring (length ready + length edit)%nat c).
  - rewrite He, u32_sub_l, slot_u32. do 2 f_equal. lia.
  - rewrite app_assoc. apply lookup_snoc_Some. right. by rewrite length_app.
Qed.

Lemma rep_front i c ready edit : rep i (c :: ready) edit -> buf_at (ir i) i = Some c.
Proof.
  intros [Hl Hr Hw He Hroom Hring]. unfold buf_at. rewrite <- (Z.add_0_r (ir i)). by apply (Hring 0%nat).
Qed.

Lemma rep_take i c ready edit : rep i (c :: ready) edit -> rep (set_r (u32 (ir i + 1)) i) ready edit.
Proof.
  intros [Hl Hr Hw He Hroom Hring]. simpl in *. split; simpl; try done; try lia.
  - apply u32_range.
  - rewrite Hw. unfold u32. Z.div_mod_to_equations. lia.
  - rewrite He. unfold u32. Z.div_mod_to_equations. lia.
  - intros k x Hx. rewrite slot_u32_add, <- (Hring (S k) x Hx). f_equal. f_equal. lia.
Qed.

(** ** Typing *)

Definition editing (s : cons) (ready edit : list Z) : Prop :=
  prints s /\ rep (input s) ready edit /\ NL ∉ edit.

Lemma prints_input i s : prints s -> prints (with_input i s).
Proof. by intros [[H1 H2] H3]. Qed.

Lemma wp_kill_line fuel s ready edit (Q : unit -> cons -> Prop) :
  editing s ready edit -> (length edit <= fuel)%nat ->
  (forall t, editing t ready [] -> ckilled t = ckilled s -> wakeups t = wakeups s -> Q tt t) ->
  wp (kill_line fuel) s Q.
Proof.
  revert s edit. induction fuel as [|fuel IH]; intros s edit (Hp & Hr & Hn) Hf HQ.
  - destruct edit; [|simpl in Hf; lia]. by apply wp_ret, HQ.
  - cbn [kill_line]. apply wp_bind, wp_gets. rewrite (rep_edit_empty _ _ _ Hr).
    destruct edit as [|c edit _] using rev_ind; [by apply wp_ret, HQ|].
    rewrite length_app in *. rewrite Nat.add_comm. simpl. apply wp_bind. eapply wp_deref; [by eapply rep_last|].
    rewrite not_elem_of_app, list_elem_of_singleton in Hn. destruct Hn as [Hn Hc].
    rewrite (proj2 (Z.eqb_neq c NL)) by congruence. apply wp_bind, wp_modify, wp_bind.
    apply wp_consputc; [by apply prints_input|]. intros t Ht _ (E1 & E2 & E3). simpl in *. apply (IH t edit); [|lia|].
    + split; [done|]. split; [|done]. rewrite E1. by eapply rep_pop.
    + intros u Hu Ek Ew. apply HQ; [done|congruence..].
Qed.

Lemma wp_key c s ready edit (Q : bool -> cons -> Prop) :
  editing s ready edit -> 0 <= c < 256 ->
  (forall t, editing t (type_key c (ready, edit)).1 (type_key c (ready, edit)).2 -> ckilled t = ckilled s ->
     Q (c =? ctrl 80) t) ->
  wp (key c) s Q.
Proof.
  intros (Hp & Hr & Hn) Hc HQ. unfold key. apply wp_bind, wp_gets. unfold type_key in HQ.
  destruct (c =? ctrl 80) eqn:E1; [by apply wp_ret, HQ|]. destruct (c =? ctrl 85).
  { apply wp_bind. eapply wp_kill_line; [by split|pose proof (rp_room _ _ _ Hr); change (Z.to_nat INPUT_BUF) with 128%nat; lia|].
    intros t Ht Ek _. by apply wp_ret, HQ. }
  destruct ((c =? ctrl 72) || (c =? 127)).
  { rewrite (rep_edit_empty _ _ _ Hr). apply wp_bind. destruct edit as [|x edit _] using rev_ind.
    - by apply wp_ret, wp_ret, HQ.
    - rewrite length_app, Nat.add_comm in *. simpl in *. rewrite take_app_length in HQ. apply wp_bind, wp_modify.
      apply wp_consputc; [by apply prints_input|]. intros t Ht _ (E2 & E3 & E4). simpl in *. apply wp_ret, HQ; [|done].
      split; [done|]. rewrite E2. split; [by eapply rep_pop|]. rewrite not_elem_of_app in Hn. tauto. }
  rewrite (rep_has_room _ _ _ Hr). apply wp_bind. destruct (negb (c =? 0) && _) eqn:Eroom; [|by apply wp_ret, wp_ret, HQ].
  apply andb_true_iff in Eroom as [_ Hlt%Nat.ltb_lt]. cbv zeta in HQ.
  set (c' := if c =? CR then NL else c) in *.
  assert (u8 c' = c') as Hu8 by (apply u8_small; unfold c', NL, CR; destruct (c =? 13); lia).
  apply wp_bind, wp_modify. rewrite Hu8. pose proof (rep_push _ _ _ c' Hr Hlt) as Hpush. rewrite length_app in HQ.
  apply wp_bind, wp_consputc; [by apply prints_input|]. intros t Ht _ (E2 & E3 & E4). simpl in E2, E3.
  rewrite (rep_full _ _ _ Hr). simpl in HQ.
  destruct ((c' =? NL) || (c' =? ctrl 68) || (length ready + (length edit + 1) =? 128)%nat) eqn:Ec.
  - apply wp_bind, wp_modify, wp_modify, wp_ret, HQ; [|done]. split; [by destruct Ht as [[? ?] ?]|]. simpl. rewrite E2.
    split; [by apply rep_commit|]. apply not_elem_of_nil.
  - apply wp_ret, wp_ret, HQ; [|done]. split; [done|]. rewrite E2. split; [done|].
    simpl. rewrite not_elem_of_app, list_elem_of_singleton. bools. split; [done|]. congruence.
Qed.

(** ** Reading *)

Lemma read_line_plain killed got n c ready :
  plain c = true -> read_line killed got (S n) (c :: ready) = read_line killed (got ++ [c]) n ready.
Proof.
  intros Hc. unfold read_line. cbn [plain_prefix]. rewrite Hc. cbn [length Nat.leb take drop Nat.sub].
  rewrite <- !app_assoc. destruct (n <=? length (plain_prefix ready))%nat; [done|].
  destruct (drop (length (plain_prefix ready)) ready); [done|]. case_match; [done|].
  by destruct got.
Qed.

Lemma wp_consoleread_loop k got s ready edit (Q : cres -> cons -> Prop) :
  editing s ready edit ->
  (forall t, editing t (read_line (ckilled s) got k ready).2 edit -> ckilled t = ckilled s ->
     Q (read_line (ckilled s) got k ready).1 t) ->
  wp (consoleread_loop k (Z.of_nat (k + length got)) got) s Q.
Proof.
  revert got s ready. induction k as [|k IH]; intros got s ready Hed HQ.
  - apply wp_ret. unfold read_line in HQ. simpl in HQ. rewrite app_nil_r in HQ. by apply HQ.
  - destruct Hed as (Hp & Hr & Hn). cbn [consoleread_loop]. apply wp_bind, wp_get.
    rewrite (rep_ready_empty _ _ _ Hr). destruct ready as [|c ready]; cbn [length Nat.eqb].
    + unfold read_line in HQ. simpl in HQ. rewrite app_nil_r in HQ.
      destruct (ckilled s =? 0); simpl; by apply wp_ret, HQ.
    + apply wp_bind. eapply wp_deref; [by eapply rep_front|]. apply wp_bind, wp_modify.
      pose proof (rep_take _ _ _ _ Hr) as Ht. set (s1 := with_input _ s).
      assert (editing s1 ready edit) as Hs1 by (split; [by apply prints_input|done]).
      destruct (c =? ctrl 68) eqn:Ed; [|destruct (c =? NL) eqn:En].
      * apply Z.eqb_eq in Ed as ->. unfold read_line in HQ. simpl in HQ. rewrite app_nil_r in HQ. apply wp_bind.
        destruct got as [|g got]; simpl length.
        -- rewrite (proj2 (Z.ltb_ge _ _)) by lia. by apply wp_ret, wp_ret, HQ.
        -- rewrite (proj2 (Z.ltb_lt _ _)) by lia. apply wp_modify, wp_ret, HQ; [|done].
           split; [apply prints_input, Hs1|]. split; [|done]. simpl.
           assert (u32 (u32 (ir (input s) + 1) - 1) = ir (input s)) as ->
             by (pose proof (rp_r _ _ _ Hr); unfold u32; Z.div_mod_to_equations; lia).
           by destruct (input s).
      * apply Z.eqb_eq in En as ->. apply wp_ret. unfold read_line in HQ. simpl in HQ. by apply HQ.
      * rewrite read_line_plain in HQ by (unfold plain; by rewrite Ed, En).
        replace (S k + length got)%nat with (k + length (got ++ [c]))%nat by (rewrite length_app; simpl; lia).
        by apply (IH (got ++ [c]) s1 ready).
Qed.

Fixpoint type_keys (cs : list Z) (l : list Z * list Z) : list Z * list Z :=
  match cs with
  | [] => l
  | c :: cs => type_keys cs (type_key c l)
  end.

Lemma wp_keys cs d s ready edit (Q : bool -> cons -> Prop) :
  editing s ready edit -> Forall (fun c => 0 <= c < 256) cs ->
  (forall d t, editing t (type_keys cs (ready, edit)).1 (type_keys cs (ready, edit)).2 ->
     ckilled t = ckilled s -> Q d t) ->
  wp (keys cs d) s Q.
Proof.
  intros Hed Hcs. revert d s ready edit Hed. induction Hcs as [|c cs Hc _ IH]; intros d s ready edit Hed HQ.
  - by apply wp_ret, HQ.
  - cbn [keys]. apply wp_bind. eapply wp_key; [done|done|]. intros t Ht Ek. cbn [type_keys] in HQ.
    destruct (type_key c (ready, edit)) as [ready' edit']. eapply IH; [exact Ht|]. intros d' u Hu Eu.
    apply HQ; [done|congruence].
Qed.

Fixpoint terminals (cs : list Z) (t : nat * list Z) : nat * list Z :=
  match cs with
  | [] => t
  | c :: cs => terminals cs (terminal c t)
  end.

Lemma wp_consputs cs s (Q : unit -> cons -> Prop) :
  prints s -> bytes cs ->
  (forall t, prints t -> serial t = serial s ++ sent s cs ->
     (Z.to_nat (cursor t), display t) = terminals cs (Z.to_nat (cursor s), display s) -> same_in s t -> Q tt t) ->
  wp (consputs cs) s Q.
Proof.
  intros Hp Hcs. revert s Hp. induction Hcs as [|c cs Hc _ IH]; intros s Hp HQ.
  - apply wp_ret, HQ; try done. unfold sent. case_match; by rewrite app_nil_r.
  - cbn [consputs]. apply wp_bind. apply wp_consputc; [done|]. intros t Ht (Es & Eu & Ed) (E1 & E2 & E3).
    apply IH; [done|]. intros u Hu Es' Ed' (F1 & F2 & F3). apply HQ; [done| | |].
    + rewrite Es', Es, <- app_assoc. unfold sent, echo. rewrite Eu, (proj2 (Z.eqb_neq c _)) by (unfold BACKSPACE; lia).
      rewrite u8_small by done. by case_match.
    + cbn [terminals]. by rewrite <- Ed.
    + split_and!; congruence.
Qed.

(** Writing to the console always returns the number of bytes, sends exactly
    them down the serial line, if there is one, and moves the 24 rows of text as a terminal
    does: no write goes outside of the screen and the cursor stays on it. *)
Lemma consolewrite_shows buf n s :
  prints s -> bytes buf ->
  exists t, consolewrite buf n s = Ok (n, t) /\ prints t /\ input t = input s /\
    serial t = serial s ++ sent s (take (Z.to_nat n) buf) /\
    (Z.to_nat (cursor t), display t) = terminals (take (Z.to_nat n) buf) (Z.to_nat (cursor s), display s).
Proof.
  intros Hp Hb. enough (wp (consolewrite buf n) s (fun r t => r = n /\ prints t /\ input t = input s /\
    serial t = serial s ++ sent s (take (Z.to_nat n) buf) /\
    (Z.to_nat (cursor t), display t) = terminals (take (Z.to_nat n) buf) (Z.to_nat (cursor s), display s)))
    as (r & t & Hr & -> & Ht) by eauto.
  apply wp_bind. apply wp_consputs; [done|by apply Forall_take|]. intros t Ht Es Ed (E1 & _). by apply wp_ret.
Qed.

(** C20. The line editor: whatever was typed, in a ring whose indices wrap at
    2^32, is what an unbounded editor of two lists makes of it: backspace and
    kill-line reach back to the end of the last line and no further, a line is
    handed over when it ends or the buffer is full, and a reader gets the rest
    of the line, or as much of it as it asked for, or sleeps. *)
Theorem console_lines s ready edit cs got n :
  editing s ready edit -> bytes cs ->
  exists d t r u,
    consoleintr cs s = Ok (d, t) /\
    consoleread_loop n (Z.of_nat (n + length got)) got t = Ok (r, u) /\
    let (ready', edit') := type_keys cs (ready, edit) in
    let (res, rest) := read_line (ckilled s) got n ready' in
    r = res /\ editing t ready' edit' /\ editing u rest edit'.
Proof.
  intros Hed Hcs. destruct (type_keys cs (ready, edit)) as [ready' edit'] eqn:Ety.
  destruct (wp_keys cs false s ready edit (fun _ t => editing t ready' edit' /\ ckilled t = ckilled s))
    as (d & t & Hk & Ht & Ek); [done..|by rewrite Ety|].
  destruct (wp_consoleread_loop n got t ready' edit' (fun r u =>
    r = (read_line (ckilled s) got n ready').1 /\ editing u (read_line (ckilled s) got n ready').2 edit'))
    as (r & u & Hr & Er & Hu); [done|by rewrite <- Ek|].
  exists d, t, r, u. split; [done|]. split; [done|]. by destruct (read_line _ _ _ _).
Qed.

(** Bytes from the serial line are typed like those of the keyboard. *)
Lemma uartintr_types s rx : uart s <> 0 -> bytes rx -> uartintr rx s = consoleintr rx s.
Proof.
  intros Hu Hrx. unfold uartintr.
  enough (uart_chars (S (length rx)) rx s = Ok (rx, s)) as H by by erewrite bind_Ok.
  apply Z.eqb_neq in Hu. induction Hrx as [|c rx Hc _ IH]; cbn [uart_chars length]; unfold uartgetc.
  - erewrite bind_Ok; [|erewrite bind_Ok by reflexivity; rewrite Hu; reflexivity]. done.
  - erewrite bind_Ok; [|erewrite bind_Ok by reflexivity; rewrite Hu; reflexivity]. cbn [fst snd].
    rewrite (proj2 (Z.ltb_ge c 0)) by lia. by erewrite bind_Ok by exact IH.
Qed.

(** * A fresh console *)

Definition demo_cons : cons :=
  mkCons false (replicate 2000 0) 0 0 1 [] (mkIn (replicate 128 0) (2 ^ 32 - 2) (2 ^ 32 - 2) (2 ^ 32 - 2)) 0 0.

Lemma demo_prints : prints demo_cons.
Proof. split; [|done]. split; [unfold demo_cons; cbn [crt]; rewrite length_replicate; lia|done]. Qed.

Lemma demo_editing : editing demo_cons [] [].
Proof.
  split; [exact demo_prints|]. split; [|apply not_elem_of_nil].
  split; [reflexivity|vm_compute; split; congruence|reflexivity|reflexivity|simpl; lia|by intros [|k]].
Qed.

(** "lx", backspace, "s", return: the reader gets "ls" and the newline. *)
Lemma console_lines_witness :
  exists d t u, consoleintr [108; 120; 8; 115; 13] demo_cons = Ok (d, t) /\
    consoleread_loop 100 100 [] t = Ok (CDone [108; 115; 10], u).
Proof.
  destruct (console_lines demo_cons [] [] [108; 120; 8; 115; 13] [] 100) as (d & t & r & u & Hd & Hr & H).
  - exact demo_editing.
  - repeat constructor; done.
  - destruct H as [-> _]. exists d, t, u. split; [exact Hd|exact Hr].
Defined.
