(* ===== verification/Kbd.v ===== *)
(** kbd.c and kbd.h: from the scan codes of the keyboard to characters.

    The modifier word [shift] is kept as the code keeps it, a word of bits; the
    theorem compares it with a keyboard whose modifiers are flags.  [pending]
    is what the controller has to deliver. *)

From S2P Require Import Prelude Codec Console.

Definition SHIFT : Z := Z.shiftl 1 0.
Definition CTL : Z := Z.shiftl 1 1.
Definition ALT : Z := Z.shiftl 1 2.
Definition CAPSLOCK : Z := Z.shiftl 1 3.
Definition NUMLOCK : Z := Z.shiftl 1 4.
Definition SCROLLLOCK : Z := Z.shiftl 1 5.
Definition E0ESC : Z := Z.shiftl 1 6.

(** A table of 256 bytes from its initialiser: the first entries, then the
    designated ones. *)
Definition table (first : list Z) (designated : list (Z * Z)) : list Z :=
  foldl (fun t e => <[Z.to_nat e.1 := e.2]> t) (first ++ replicate (256 - length first) 0) designated.

Definition shiftcode : list Z :=
  table [] [(0x1D, CTL); (0x2A, SHIFT); (0x36, SHIFT); (0x38, ALT); (0x9D, CTL); (0xB8, ALT)].

Definition togglecode : list Z := table [] [(0x3A, CAPSLOCK); (0x45, NUMLOCK); (0x46, SCROLLLOCK)].

Definition normalmap : list Z := table
  [0; 27; 49; 50; 51; 52; 53; 54;
   55; 56; 57; 48; 45; 61; 8; 9;
   113; 119; 101; 114; 116; 121; 117; 105;
   111; 112; 91; 93; 10; 0; 97; 115;
   100; 102; 103; 104; 106; 107; 108; 59;
   39; 96; 0; 92; 122; 120; 99; 118;
   98; 110; 109; 44; 46; 47; 0; 42;
   0; 32; 0; 0; 0; 0; 0; 0;
   0; 0; 0; 0; 0; 0; 0; 55;
   56; 57; 45; 52; 53; 54; 43; 49;
   50; 51; 48; 46; 0; 0; 0; 0]
  [(0x9C, 10); (0xB5, 47); (0xC8, 226); (0xD0, 227); (0xC9, 230); (0xD1, 231); (0xCB, 228); (0xCD, 229); (0x97, 224); (0xCF, 225); (0xD2, 232); (0xD3, 233)].

Definition shiftmap : list Z := table
  [0; 27; 33; 64; 35; 36; 37; 94;
   38; 42; 40; 41; 95; 43; 8; 9;
   81; 87; 69; 82; 84; 89; 85; 73;
   79; 80; 123; 125; 10; 0; 65; 83;
   68; 70; 71; 72; 74; 75; 76; 58;
   34; 126; 0; 124; 90; 88; 67; 86;
   66; 78; 77; 60; 62; 63; 0; 42;
   0; 32; 0; 0; 0; 0; 0; 0;
   0; 0; 0; 0; 0; 0; 0; 55;
   56; 57; 45; 52; 53; 54; 43; 49;
   50; 51; 48; 46; 0; 0; 0; 0]
  [(0x9C, 10); (0xB5, 47); (0xC8, 226); (0xD0, 227); (0xC9, 230); (0xD1, 231); (0xCB, 228); (0xCD, 229); (0x97, 224); (0xCF, 225); (0xD2, 232); (0xD3, 233)].

Definition ctlmap : list Z := table
  [0; 0; 0; 0; 0; 0; 0; 0;
   0; 0; 0; 0; 0; 0; 0; 0;
   17; 23; 5; 18; 20; 25; 21; 9;
   15; 16; 0; 0; 13; 0; 1; 19;
   4; 6; 7; 8; 10; 11; 12; 0;
   0; 0; 0; 28; 26; 24; 3; 22;
   2; 14; 13; 0; 0; 239; 0; 0]
  [(0x9C, 13); (0xB5, 239); (0xC8, 226); (0xD0, 227); (0xC9, 230); (0xD1, 231); (0xCB, 228); (0xCD, 229); (0x97, 224); (0xCF, 225); (0xD2, 232); (0xD3, 233)].

Definition charcode : list (list Z) := [normalmap; shiftmap; ctlmap; ctlmap].

Record kbd := mkKbd { shift : Z; pending : list Z }.

Abbreviation K := (M kbd).

(** t[i]; outside of the table the access is stray. *)
Definition at_ {A} (t : list A) (i : Z) : K A := deref "kbd table" (fun _ => t !! Z.to_nat i).

Definition set_shift (v : Z) : K unit := modify (fun k => mkKbd v (pending k)).

(** kbdgetc once it has the byte. *)
Definition kbd_byte (data : Z) : K Z :=
  sh ← gets shift;
  if data =? 0xE0 then set_shift (Z.lor sh E0ESC);; mret 0
  else if negb (Z.land data 0x80 =? 0) then
    let data := if negb (Z.land sh E0ESC =? 0) then data else Z.land data 0x7F in
    m ← at_ shiftcode data;
    set_shift (Z.land sh (Z.lnot (Z.lor m E0ESC)));;
    mret 0
  else
    let esc := negb (Z.land sh E0ESC =? 0) in
    let data := if esc then Z.lor data 0x80 else data in
    let sh := if esc then Z.land sh (Z.lnot E0ESC) else sh in
    m ← at_ shiftcode data;
    t ← at_ togglecode data;
    let sh := Z.lxor (Z.lor sh m) t in
    set_shift sh;;
    map ← at_ charcode (Z.land sh (Z.lor CTL SHIFT));
    c ← at_ map data;
    mret (if negb (Z.land sh CAPSLOCK =? 0) then
            if (97 <=? c) && (c <=? 122) then c + (65 - 97)
            else if (65 <=? c) && (c <=? 90) then c + (97 - 65)
            else c
          else c).

Definition kbdgetc : K Z :=
  k ← get;
  match pending k with
  | [] => mret (-1)                     (* KBS_DIB is clear *)
  | data :: rest => modify (fun k => mkKbd (shift k) rest);; kbd_byte data
  end.

(** The characters kbdgetc returns before its first -1, as consoleintr takes
    them; [k]: how many bytes there can be. *)
Fixpoint kbd_chars (k : nat) : K (list Z) :=
  match k with
  | O => mret []
  | S k =>
      c ← kbdgetc;
      if c <? 0 then mret []
      else cs ← kbd_chars k; mret (c :: cs)
  end.

(** kbdintr: the keyboard's bytes go through the line editor. *)
Definition kbdintr (k : kbd) (s : cons) : outcome (kbd * (bool * cons)) :=
  obind (kbd_chars (S (length (pending k))) k) (fun '(cs, k) =>
    obind (consoleintr cs s) (fun r => Ok (k, r))).

(** * The keyboard with flags *)

Record mods := mkMods {
  m_shift : bool; m_ctl : bool; m_alt : bool;
  m_caps : bool; m_num : bool; m_scroll : bool;
  m_e0 : bool }.

#[global] Instance mods_eq_dec : EqDecision mods.
Proof. solve_decision. Defined.

(** The modifier keys, left and right, and the locks. *)
Inductive modkey := KShift | KCtl | KAlt | KCaps | KNum | KScroll.

Definition modkey_of (code : Z) : option modkey :=
  if (code =? 0x2A) || (code =? 0x36) then Some KShift
  else if (code =? 0x1D) || (code =? 0x9D) then Some KCtl
  else if (code =? 0x38) || (code =? 0xB8) then Some KAlt
  else if code =? 0x3A then Some KCaps
  else if code =? 0x45 then Some KNum
  else if code =? 0x46 then Some KScroll
  else None.

Definition hold (down : bool) (k : option modkey) (m : mods) : mods :=
  let (s, c, a, cl, nl, sl, e) := m in
  match k with
  | Some KShift => mkMods down c a cl nl sl e
  | Some KCtl => mkMods s down a cl nl sl e
  | Some KAlt => mkMods s c down cl nl sl e
  | _ => m
  end.

Definition toggle (k : option modkey) (m : mods) : mods :=
  let (s, c, a, cl, nl, sl, e) := m in
  match k with
  | Some KCaps => mkMods s c a (negb cl) nl sl e
  | Some KNum => mkMods s c a cl (negb nl) sl e
  | Some KScroll => mkMods s c a cl nl (negb sl) e
  | _ => m
  end.

Definition set_e0 (b : bool) (m : mods) : mods :=
  let (s, c, a, cl, nl, sl, _) := m in mkMods s c a cl nl sl b.

Definition is_lower (c : Z) : bool := (97 <=? c) && (c <=? 122).
Definition is_upper (c : Z) : bool := (65 <=? c) && (c <=? 90).

(** The character on a key under the modifiers, 0 if there is none. *)
Definition keychar (m : mods) (code : Z) : Z :=
  let map := if m_ctl m then ctlmap else if m_shift m then shiftmap else normalmap in
  let c := nth (Z.to_nat code) map 0 in
  if m_caps m then if is_lower c then c - 32 else if is_upper c then c + 32 else c else c.

(** One byte from the keyboard. *)
Definition scan (m : mods) (data : Z) : Z * mods :=
  if data =? 0xE0 then (0, set_e0 true m)
  else if 128 <=? data then
    (0, set_e0 false (hold false (modkey_of (if m_e0 m then data else data - 128)) m))
  else
    let code := if m_e0 m then data + 128 else data in
    let m := toggle (modkey_of code) (hold true (modkey_of code) (set_e0 false m)) in
    (keychar m code, m).

Fixpoint scans (m : mods) (l : list Z) : list Z * mods :=
  match l with
  | [] => ([], m)
  | d :: l =>
      let (c, m) := scan m d in
      let (cs, m) := scans m l in
      (c :: cs, m)
  end.

(** The flags in the word. *)
Definition flags (w : Z) : mods :=
  mkMods (Z.testbit w 0) (Z.testbit w 1) (Z.testbit w 2) (Z.testbit w 3) (Z.testbit w 4)
    (Z.testbit w 5) (Z.testbit w 6).

(** Checked on every word and byte. *)
Definition scan_agrees (w d : Z) : bool :=
  match kbd_byte d (mkKbd w []) with
  | Ok (c, k) =>
      bool_decide ((c, flags (shift k)) = scan (flags w) d) && (0 <=? c) && (c <? 256) &&
      (0 <=? shift k) && (shift k <? 128)
  | _ => false
  end.

Definition below (n : nat) : list Z := Z.of_nat <$> seq 0 n.

Lemma elem_of_below n z : 0 <= z < Z.of_nat n -> z ∈ below n.
Proof.
  intros Hz. unfold below. apply list_elem_of_fmap. exists (Z.to_nat z). split; [lia|]. apply elem_of_seq. lia.
Qed.

Lemma scan_agrees_all : forallb (fun w => forallb (scan_agrees w) (below 256)) (below 128) = true.
Proof. vm_compute. reflexivity. Qed.

(** What is in the queue plays no part. *)
Definition queue_free {A} (m : K A) : Prop :=
  forall w l, m (mkKbd w l) =
    match m (mkKbd w []) with
    | Ok (a, k) => Ok (a, mkKbd (shift k) l)
    | o => o
    end.

Lemma queue_free_bind {A B} (m : K A) (f : A -> K B) :
  queue_free m -> (forall a, queue_free (f a)) -> queue_free (m ≫= f).
Proof.
  intros Hm Hf w l. unfold mbind, M_bind. rewrite (Hm w l), (Hm w []).
  destruct (m (mkKbd w [])) as [[a k]| | |]; try done. by rewrite (Hf a).
Qed.

Lemma queue_free_at {A} (t : list A) i : queue_free (at_ t i).
Proof. intros w l. unfold at_, deref. by destruct (t !! Z.to_nat i). Qed.

Lemma kbd_byte_queue_free d : queue_free (kbd_byte d).
Proof.
  unfold kbd_byte. apply queue_free_bind; [done|]. intros sh.
  repeat (intros; lazymatch goal with
    | |- queue_free (at_ _ _) => apply queue_free_at
    | |- queue_free (set_shift _) => done
    | |- queue_free (mret _) => done
    | |- queue_free (mbind _ _) => apply queue_free_bind
    | |- queue_free (if ?b then _ else _) => destruct b
    | |- queue_free (let _ := _ in _) => cbv zeta
    end).
Qed.

Lemma kbdgetc_scan w d l :
  0 <= w < 128 -> 0 <= d < 256 ->
  exists c w', kbdgetc (mkKbd w (d :: l)) = Ok (c, mkKbd w' l) /\ scan (flags w) d = (c, flags w') /\
    0 <= c < 256 /\ 0 <= w' < 128.
Proof.
  intros Hw Hd. pose proof scan_agrees_all as H. rewrite forallb_forall in H.
  specialize (H w (proj1 (list_elem_of_In _ _) (elem_of_below 128 w Hw))). rewrite forallb_forall in H.
  specialize (H d (proj1 (list_elem_of_In _ _) (elem_of_below 256 d Hd))).
  change (kbdgetc (mkKbd w (d :: l))) with (kbd_byte d (mkKbd w l)). rewrite kbd_byte_queue_free.
  unfold scan_agrees in H. destruct (kbd_byte d (mkKbd w [])) as [[c k]| | |]; [|done..]. bools.
  exists c, (shift k). split; [done|]. split; [congruence|lia].
Qed.

Lemma kbd_chars_scans l k w :
  0 <= w < 128 -> bytes l -> (length l < k)%nat ->
  exists cs w', kbd_chars k (mkKbd w l) = Ok (cs, mkKbd w' []) /\ scans (flags w) l = (cs, flags w') /\
    bytes cs /\ 0 <= w' < 128.
Proof.
  revert k w. induction l as [|d l IH]; intros [|k] w Hw Hl Hk; simpl in Hk; try lia.
  - exists [], w. split; [done|]. split; [done|]. split; [constructor|done].
  - apply Forall_cons in Hl as [Hd Hl]. destruct (kbdgetc_scan w d l Hw Hd) as (c & w' & Hg & Hs & Hc & Hw').
    destruct (IH k w' Hw' Hl) as (cs & w2 & Hcs & Hss & Hb & Hw2); [lia|].
    exists (c :: cs), w2. cbn [kbd_chars scans]. rewrite (bind_Ok _ _ _ _ _ Hg), Hs, Hss.
    rewrite (proj2 (Z.ltb_ge c 0)), (bind_Ok _ _ _ _ _ Hcs) by lia. split; [done|]. split; [done|].
    split; [by constructor|done].
Qed.

(** From key presses to lines: on any bytes from the keyboard the interrupt
    returns with the queue drained and every table lookup in range; the
    characters are those of a keyboard with one flag per modifier, and the line
    being typed and the finished lines are what an editor on lists makes of
    them. *)
Lemma kbdintr_types w l s ready edit :
  0 <= w < 128 -> bytes l -> editing s ready edit ->
  exists w' d t, kbdintr (mkKbd w l) s = Ok (mkKbd w' [], (d, t)) /\ 0 <= w' < 128 /\
    let (cs, m) := scans (flags w) l in
    let (ready', edit') := type_keys cs (ready, edit) in
    flags w' = m /\ editing t ready' edit'.
Proof.
  intros Hw Hl Hed. destruct (kbd_chars_scans l (S (length l)) w Hw Hl) as (cs & w' & Hcs & Hs & Hb & Hw'); [lia|].
  destruct (wp_keys cs false s ready edit (fun _ t => editing t (type_keys cs (ready, edit)).1 (type_keys cs (ready, edit)).2))
    as (d & t & Hk & Ht); [done..|by intros|].
  exists w', d, t. unfold kbdintr. cbn [pending]. rewrite Hcs. cbn [obind]. unfold consoleintr. rewrite Hk.
  split; [done|]. split; [done|]. rewrite Hs. by destruct (type_keys cs (ready, edit)).
Qed.

