(* ===== verification/Syscall.v ===== *)
(** syscall.c: fetching the arguments of a system call from user memory, and
    the table of calls.

    While a call runs, the page table is that of the process: a user address
    below proc->sz is read directly.  [u_mem] is the memory as the process sees
    it. *)

From S2P Require Import Prelude StringC Spinlock Proc.

Record uproc := mkU { u_sz : Z; u_esp : Z; u_mem : mem }.

Definition fetchint (u : uproc) (addr : Z) : option Z :=
  if (u_sz u <=? addr) || (u_sz u <? u32 (addr + 4)) then None
  else Some (s32 (load32 (u_mem u) addr)).

(** for(s = *pp; s < ep; s++), [k] = ep - s: the bytes before the NUL. *)
Fixpoint fetchstr_loop (k : nat) (m : mem) (s : Z) : option (list Z) :=
  match k with
  | O => None
  | S k => if m s =? 0 then Some [] else (m s ::.) <$> fetchstr_loop k m (s + 1)
  end.

(** The string at addr; its length is what the code returns. *)
Definition fetchstr (u : uproc) (addr : Z) : option (list Z) :=
  if u_sz u <=? addr then None
  else fetchstr_loop (Z.to_nat (u_sz u - addr)) (u_mem u) addr.

Definition argint (u : uproc) (n : Z) : option Z := fetchint u (u32 (u_esp u + 4 + 4 * n)).

Definition argptr (u : uproc) (n size : Z) : option Z :=
  match argint u n with
  | None => None
  | Some i =>
      if (size <? 0) || (u_sz u <=? u32 i) || (u_sz u <? u32 (u32 i + size)) then None
      else Some (u32 i)
  end.

Definition argstr (u : uproc) (n : Z) : option (list Z) :=
  match argint u n with
  | None => None
  | Some addr => fetchstr u (u32 addr)
  end.

(** * The table *)

Inductive sysno :=
| SYS_fork | SYS_exit | SYS_wait | SYS_pipe | SYS_read | SYS_kill | SYS_exec | SYS_fstat
| SYS_chdir | SYS_dup | SYS_getpid | SYS_sbrk | SYS_sleep | SYS_uptime | SYS_open | SYS_write
| SYS_mknod | SYS_unlink | SYS_link | SYS_mkdir | SYS_close | SYS_priority | SYS_policy
| SYS_wait_stat.

(** syscalls[], from index 1 on. *)
Definition syscalls : list sysno :=
  [SYS_fork; SYS_exit; SYS_wait; SYS_pipe; SYS_read; SYS_kill; SYS_exec; SYS_fstat;
   SYS_chdir; SYS_dup; SYS_getpid; SYS_sbrk; SYS_sleep; SYS_uptime; SYS_open; SYS_write;
   SYS_mknod; SYS_unlink; SYS_link; SYS_mkdir; SYS_close; SYS_priority; SYS_policy; SYS_wait_stat].

(** The call that num = proc->tf->eax selects. *)
Definition dispatch (eax : Z) : option sysno :=
  let num := s32 eax in
  if (0 <? num) && (num <? 1 + Z.of_nat (length syscalls)) then syscalls !! Z.to_nat (num - 1) else None.

(** * Bounds *)

Lemma fetchstr_loop_spec k m s str :
  fetchstr_loop k m s = Some str ->
  (length str < k)%nat /\ m (s + Z.of_nat (length str)) = 0 /\ bytes_at m s (length str) = str /\ 0 ∉ str.
Proof.
  revert s str. induction k as [|k IH]; intros s str H; [done|]. cbn [fetchstr_loop] in H.
  destruct (Z.eqb_spec (m s) 0) as [E|E].
  - injection H as <-. split; [simpl; lia|]. split; [by rewrite Z.add_0_r|]. split; [done|apply not_elem_of_nil].
  - destruct (fetchstr_loop k m (s + 1)) as [r|] eqn:Er; [|done]. injection H as <-.
    destruct (IH _ _ Er) as (H1 & H2 & H3 & H4). split; [simpl; lia|].
    split; [|split; [cbn; by rewrite H3|apply not_elem_of_cons; split; [congruence|done]]].
    rewrite <- H2. f_equal. simpl length. lia.
Qed.

(** C27. The kernel follows no user pointer out of the process: an argument
    block that argptr accepts lies below sz, and so does every byte that
    fetchint, argint and argstr read, with the NUL of the string; nothing wraps
    around, whatever words the process put on its stack. *)
Theorem args_in_bounds u n size :
  0 <= u_sz u <= KERNBASE -> byte_mem (u_mem u) -> - 2 ^ 31 <= size < 2 ^ 31 ->
  (forall p, argptr u n size = Some p -> 0 <= size /\ 0 <= p /\ p + size <= u_sz u) /\
  (forall v, argint u n = Some v ->
     let a := u32 (u_esp u + 4 + 4 * n) in
     0 <= a /\ a + 4 <= u_sz u /\ u32 v = load32 (u_mem u) a) /\
  (forall s, argstr u n = Some s -> exists a, 0 <= a /\ a + Z.of_nat (length s) < u_sz u /\
     bytes_at (u_mem u) a (length s) = s /\ u_mem u (a + Z.of_nat (length s)) = 0 /\ (0 ∉ s)).
Proof.
  intros Hsz Hb Hs. unfold KERNBASE in Hsz. split; [|split].
  - intros p. unfold argptr. destruct (argint u n) as [i|]; [|done].
    destruct ((size <? 0) || (u_sz u <=? u32 i) || (u_sz u <? u32 (u32 i + size))) eqn:E; [done|]. intros [= <-]. bools.
    pose proof (u32_range i). rewrite u32_small in * by lia. lia.
  - intros v. unfold argint, fetchint. set (a := u32 (u_esp u + 4 + 4 * n)).
    destruct ((u_sz u <=? a) || (u_sz u <? u32 (a + 4))) eqn:E; [done|]. intros [= <-]. bools.
    pose proof (u32_range (u_esp u + 4 + 4 * n)) as Ha. fold a in Ha. rewrite u32_small in * by lia.
    split; [lia|]. split; [lia|]. rewrite u32_s32. by apply u32_small, load32_range.
  - intros s. unfold argstr. destruct (argint u n) as [i|]; [|done]. unfold fetchstr.
    destruct (Z.leb_spec (u_sz u) (u32 i)) as [|Hlt]; [done|]. intros H.
    apply fetchstr_loop_spec in H as (H1 & H2 & H3 & H4). pose proof (u32_range i). exists (u32 i).
    split; [lia|]. split; [lia|]. done.
Qed.

Definition demo_u : uproc := mkU 8192 8000 (store32 (fun _ => 0) 8004 4096).

Lemma args_in_bounds_witness : argptr demo_u 0 4096 = Some 4096 /\ 4096 + 4096 <= u_sz demo_u.
Proof.
  split; [reflexivity|]. apply (args_in_bounds demo_u 0 4096).
  - unfold demo_u, KERNBASE. simpl. lia.
  - apply store32_byte_mem. intros x. lia.
  - lia.
  - reflexivity.
Defined.
