(* ===== verification/Seg.v ===== *)
(** The descriptor tables of the processor: struct segdesc, struct gatedesc and
    struct taskstate of mmu.h, seginit and the task switch of switchuvm (vm.c),
    tvinit and idtinit (trap.c).

    A bit field holds its value modulo its width.  The processor's reading of a
    descriptor puts base, limit and offset together again. *)

From S2P Require Import Prelude Spinlock Proc Kalloc Irq.

Definition SEG_KCODE : Z := 1.
Definition SEG_KDATA : Z := 2.
Definition SEG_KCPU : Z := 3.
Definition SEG_TSS : Z := 6.
Definition NSEGS : nat := 7.

Definition STA_X : Z := 8.
Definition STA_W : Z := 2.
Definition STA_R : Z := 2.
Definition STS_T32A : Z := 9.
Definition STS_IG32 : Z := 0xE.
Definition STS_TG32 : Z := 0xF.

(** A value in a bit field of [w] bits. *)
Definition field (w v : Z) : Z := v mod 2 ^ w.

Record segdesc := mkSeg {
  lim_15_0 : Z; base_15_0 : Z; base_23_16 : Z; sd_type : Z; sd_s : Z; sd_dpl : Z; sd_p : Z;
  lim_19_16 : Z; sd_avl : Z; sd_rsv1 : Z; sd_db : Z; sd_g : Z; base_31_24 : Z }.

Definition SEG (type base lim dpl : Z) : segdesc :=
  mkSeg (field 16 (Z.land (Z.shiftr lim 12) 0xffff)) (field 16 (Z.land (u32 base) 0xffff))
    (field 8 (Z.land (Z.shiftr (u32 base) 16) 0xff)) (field 4 type) 1 (field 2 dpl) 1
    (field 4 (Z.shiftr (u32 lim) 28)) 0 0 1 1 (field 8 (Z.shiftr (u32 base) 24)).

Definition SEG16 (type base lim dpl : Z) : segdesc :=
  mkSeg (field 16 (Z.land lim 0xffff)) (field 16 (Z.land (u32 base) 0xffff))
    (field 8 (Z.land (Z.shiftr (u32 base) 16) 0xff)) (field 4 type) 1 (field 2 dpl) 1
    (field 4 (Z.shiftr (u32 lim) 16)) 0 0 1 0 (field 8 (Z.shiftr (u32 base) 24)).

Record gatedesc := mkGate {
  off_15_0 : Z; gd_cs : Z; gd_args : Z; gd_rsv1 : Z; gd_type : Z; gd_s : Z; gd_dpl : Z; gd_p : Z; off_31_16 : Z }.

Definition SETGATE (istrap sel off d : Z) : gatedesc :=
  mkGate (field 16 (Z.land (u32 off) 0xffff)) (field 16 sel) 0 0
    (field 4 (if negb (istrap =? 0) then STS_TG32 else STS_IG32)) 0 (field 2 d) 1 (field 16 (Z.shiftr (u32 off) 16)).

(** The fields of struct taskstate that are used. *)
Record taskstate := mkTs { ts_esp0 : Z; ts_ss0 : Z; ts_iomb : Z }.

Definition sizeof_taskstate : Z := 104.

(** The tables of one processor, and the registers that point to them: the
    address of struct cpu, the fields of it, idt, and gdtr, idtr, %gs, tr and
    cr3. *)
Record segs := mkSegs {
  c_addr : Z;
  gdt : list segdesc;
  ts : taskstate;
  idt : list gatedesc;
  gdtr : option (Z * Z);
  idtr : option (Z * Z);
  gs : Z;
  tr : Z;
  s_cr3 : Z;
  c_cpu : Z;
  c_proc : Z }.

Definition with_gdt (l : list segdesc) (s : segs) : segs :=
  mkSegs (c_addr s) l (ts s) (idt s) (gdtr s) (idtr s) (gs s) (tr s) (s_cr3 s) (c_cpu s) (c_proc s).
Definition with_idt (l : list gatedesc) (s : segs) : segs :=
  mkSegs (c_addr s) (gdt s) (ts s) l (gdtr s) (idtr s) (gs s) (tr s) (s_cr3 s) (c_cpu s) (c_proc s).

(** c->gdt[i] = d *)
Definition setgdt (i : Z) (d : segdesc) : M segs unit := modify (fun s => with_gdt (<[Z.to_nat i := d]> (gdt s)) s).

(** Offsets of ts, gdt and cpu in struct cpu. *)
Definition off_ts : Z := 8.
Definition off_gdt : Z := 112.
Definition off_cpu : Z := 180.

Definition seginit : M segs unit :=
  setgdt SEG_KCODE (SEG (Z.lor STA_X STA_R) 0 0xffffffff 0);;
  setgdt SEG_KDATA (SEG STA_W 0 0xffffffff 0);;
  setgdt SEG_UCODE (SEG (Z.lor STA_X STA_R) 0 0xffffffff DPL_USER);;
  setgdt SEG_UDATA (SEG STA_W 0 0xffffffff DPL_USER);;
  c ← gets c_addr;
  setgdt SEG_KCPU (SEG STA_W (c + off_cpu) 8 0);;
  modify (fun s => mkSegs (c_addr s) (gdt s) (ts s) (idt s) (Some (c + off_gdt, 8 * Z.of_nat NSEGS - 1)) (idtr s)
    (Z.shiftl SEG_KCPU 3) (tr s) (s_cr3 s) c 0).

(** The part of switchuvm between pushcli and popcli. *)
Definition load_task (kstack pgdir : Z) : M segs unit :=
  c ← gets c_addr;
  setgdt SEG_TSS (SEG16 STS_T32A (c + off_ts) (sizeof_taskstate - 1) 0);;
  modify (fun s => with_gdt (alter (fun d =>
    mkSeg (lim_15_0 d) (base_15_0 d) (base_23_16 d) (sd_type d) 0 (sd_dpl d) (sd_p d) (lim_19_16 d) (sd_avl d) (sd_rsv1 d)
      (sd_db d) (sd_g d) (base_31_24 d)) (Z.to_nat SEG_TSS) (gdt s)) s);;
  modify (fun s => mkSegs (c_addr s) (gdt s) (mkTs (u32 (kstack + KSTACKSIZE)) (Z.shiftl SEG_KDATA 3) 0xFFFF)
    (idt s) (gdtr s) (idtr s) (gs s) (Z.shiftl SEG_TSS 3) (u32 (V2P pgdir)) (c_cpu s) (c_proc s)).

Section idt.
(** The entry points of vectors.S, and the address of idt. *)
Context (vectors : nat -> Z) (idt_addr : Z).

(** The loop of tvinit: [n] more gates, from [i] on. *)
Fixpoint tvinit_loop (n i : nat) : M segs unit :=
  match n with
  | O => mret tt
  | S n =>
      modify (fun s => with_idt (<[i := SETGATE 0 (Z.shiftl SEG_KCODE 3) (vectors i) 0]> (idt s)) s);;
      tvinit_loop n (S i)
  end.

Definition tvinit : M segs unit :=
  tvinit_loop 256 0;;
  modify (fun s => with_idt (<[Z.to_nat T_SYSCALL := SETGATE 1 (Z.shiftl SEG_KCODE 3) (vectors (Z.to_nat T_SYSCALL)) DPL_USER]> (idt s)) s).

Definition idtinit : M segs unit :=
  modify (fun s => mkSegs (c_addr s) (gdt s) (ts s) (idt s) (gdtr s) (Some (idt_addr, 8 * 256 - 1)) (gs s) (tr s) (s_cr3 s)
    (c_cpu s) (c_proc s)).

(** * What the processor sees *)

Definition seg_base (d : segdesc) : Z := base_15_0 d + 2 ^ 16 * base_23_16 d + 2 ^ 24 * base_31_24 d.
Definition seg_limit (d : segdesc) : Z :=
  let l := lim_15_0 d + 2 ^ 16 * lim_19_16 d in if sd_g d =? 1 then l * 4096 + 4095 else l.
Definition gate_offset (g : gatedesc) : Z := off_15_0 g + 2 ^ 16 * off_31_16 g.

(** Every field fits its width. *)
Definition seg_ok (d : segdesc) : Prop :=
  0 <= lim_15_0 d < 2 ^ 16 /\ 0 <= base_15_0 d < 2 ^ 16 /\ 0 <= base_23_16 d < 2 ^ 8 /\ 0 <= sd_type d < 2 ^ 4 /\
  0 <= sd_s d < 2 /\ 0 <= sd_dpl d < 4 /\ 0 <= sd_p d < 2 /\ 0 <= lim_19_16 d < 2 ^ 4 /\ 0 <= sd_avl d < 2 /\
  0 <= sd_rsv1 d < 2 /\ 0 <= sd_db d < 2 /\ 0 <= sd_g d < 2 /\ 0 <= base_31_24 d < 2 ^ 8.
Definition gate_ok (g : gatedesc) : Prop :=
  0 <= off_15_0 g < 2 ^ 16 /\ 0 <= gd_cs g < 2 ^ 16 /\ 0 <= gd_args g < 2 ^ 5 /\ 0 <= gd_rsv1 g < 2 ^ 3 /\
  0 <= gd_type g < 2 ^ 4 /\ 0 <= gd_s g < 2 /\ 0 <= gd_dpl g < 4 /\ 0 <= gd_p g < 2 /\ 0 <= off_31_16 g < 2 ^ 16.

(** A program at privilege level [cpl] may use the gate with an int
    instruction. *)
Definition may_int (cpl : Z) (g : gatedesc) : Prop := gd_p g = 1 /\ cpl <= gd_dpl g.

Lemma field_range w v : 0 <= w -> 0 <= field w v < 2 ^ w.
Proof. intros. apply Z.mod_pos_bound. lia. Qed.

(** Base and offset come back. *)
Lemma split_word b : 0 <= b < 2 ^ 32 ->
  field 16 (Z.land (u32 b) 0xffff) + 2 ^ 16 * field 16 (Z.shiftr (u32 b) 16) = b /\
  field 16 (Z.land (u32 b) 0xffff) + 2 ^ 16 * field 8 (Z.land (Z.shiftr (u32 b) 16) 0xff) + 2 ^ 24 * field 8 (Z.shiftr (u32 b) 24) = b.
Proof.
  intros Hb. rewrite (u32_small b) by done. unfold field. change 0xffff with (Z.ones 16). change 0xff with (Z.ones 8).
  rewrite !Z.land_ones, !Z.shiftr_div_pow2 by lia. rewrite !Z.mod_mod by lia.
  rewrite (Z.mod_small (b / 2 ^ 16) (2 ^ 16)) by zdm. rewrite (Z.mod_small (b / 2 ^ 24)) by zdm. split; [zdm|].
  assert (b / 2 ^ 24 = b / 2 ^ 16 / 2 ^ 8) as -> by by rewrite Z.div_div. 
  pose proof (Z.div_mod b (2 ^ 16) ltac:(lia)). pose proof (Z.div_mod (b / 2 ^ 16) (2 ^ 8) ltac:(lia)). lia.
Qed.

Lemma SEG_ok t b l d : seg_ok (SEG t b l d).
Proof. unfold seg_ok, SEG. cbn -[Z.pow]. repeat split; try lia; apply field_range; lia. Qed.

Lemma SETGATE_ok i sel o d : gate_ok (SETGATE i sel o d).
Proof. unfold gate_ok, SETGATE. cbn -[Z.pow]. repeat split; try lia; apply field_range; lia. Qed.

Lemma tvinit_loop_spec n i s :
  (i + n <= length (idt s))%nat ->
  exists t, tvinit_loop n i s = Ok (tt, t) /\ length (idt t) = length (idt s) /\ gdt t = gdt s /\ c_addr t = c_addr s /\
    forall k, idt t !! k = if decide (i <= k < i + n)%nat then Some (SETGATE 0 8 (vectors k) 0) else idt s !! k.
Proof.
  revert i s. induction n as [|n IH]; intros i s Hl; cbn [tvinit_loop].
  { exists s. split_and!; try done. intros k. by rewrite decide_False by lia. }
  set (s1 := with_idt (<[i := SETGATE 0 (Z.shiftl SEG_KCODE 3) (vectors i) 0]> (idt s)) s).
  assert (idt s1 = <[i := SETGATE 0 8 (vectors i) 0]> (idt s)) as E1 by done.
  destruct (IH (S i) s1) as (t & Hrun & T1 & T2 & T2' & T3); [rewrite E1, length_insert; lia|].
  exists t. split; [exact Hrun|]. rewrite T1, T2, T2', E1, length_insert. split_and!; try done.
  intros k. rewrite T3, E1. destruct (decide (k = i)) as [->|Hne].
  - rewrite decide_False, decide_True by lia. apply list_lookup_insert_eq. lia.
  - rewrite list_lookup_insert_ne by done. destruct (decide (S i <= k < S i + n)%nat); [by rewrite decide_True by lia|by rewrite decide_False by lia].
Qed.

Lemma gate_of i sel o d : 0 <= o < 2 ^ 32 -> gate_offset (SETGATE i sel o d) = o.
Proof. intros Ho. unfold gate_offset, SETGATE. cbn -[Z.pow Z.mul field]. apply split_word, Ho. Qed.

Lemma tvinit_gates s :
  length (idt s) = 256%nat ->
  exists t, tvinit s = Ok (tt, t) /\ gdt t = gdt s /\ c_addr t = c_addr s /\
    forall i, (i < 256)%nat -> idt t !! i = Some (if decide (i = Z.to_nat T_SYSCALL) then SETGATE 1 8 (vectors i) DPL_USER else SETGATE 0 8 (vectors i) 0).
Proof.
  intros Hi. destruct (tvinit_loop_spec 256 0 s) as (s1 & Hrun & T1 & T2 & T2' & T3); [lia|].
  eexists. split; [unfold tvinit; rewrite (bind_Ok _ _ _ _ _ Hrun); reflexivity|]. split; [done|]. split; [done|]. intros i Hlt. cbn [idt with_idt].
  destruct (decide (i = Z.to_nat T_SYSCALL)) as [->|Hne]; [apply list_lookup_insert_eq; rewrite T1, Hi; change (Z.to_nat T_SYSCALL) with 64%nat; lia|].
  rewrite list_lookup_insert_ne, T3 by done. by rewrite decide_True by lia.
Qed.

Lemma SEG_flat t d : seg_base (SEG t 0 0xffffffff d) = 0 /\ seg_limit (SEG t 0 0xffffffff d) = 2 ^ 32 - 1.
Proof. done. Qed.

(** C34. The tables are well formed and keep user programs out: every field of
    every descriptor fits its bits, gate i leads to vectors[i] in the kernel's
    code segment, with interrupts off except for system calls, the kernel's and
    the user's segments span the whole address space at their own privilege
    levels, and the only gate a program at level 3 may use is T_SYSCALL. *)
Theorem tables_protect s :
  length (idt s) = 256%nat -> length (gdt s) = NSEGS -> (forall i, 0 <= vectors i < 2 ^ 32) ->
  exists t, (tvinit;; seginit) s = Ok (tt, t) /\
    (forall i, (i < 256)%nat -> exists g, idt t !! i = Some g /\ gate_ok g /\ gate_offset g = vectors i /\
       gd_cs g = Z.shiftl SEG_KCODE 3 /\
       gd_type g = (if decide (i = Z.to_nat T_SYSCALL) then STS_TG32 else STS_IG32) /\ (may_int 3 g <-> i = Z.to_nat T_SYSCALL)) /\
    (forall i, i ∈ [SEG_KCODE; SEG_KDATA; SEG_UCODE; SEG_UDATA] -> exists d, gdt t !! Z.to_nat i = Some d /\ seg_ok d /\
       seg_base d = 0 /\ seg_limit d = 2 ^ 32 - 1 /\ sd_dpl d = (if decide (SEG_UCODE <= i) then DPL_USER else 0)) /\
    exists d, gdt t !! Z.to_nat SEG_KCPU = Some d /\ seg_ok d /\ seg_base d = u32 (c_addr s + off_cpu) /\ sd_dpl d = 0.
Proof.
  intros Hi Hg Hv. destruct (tvinit_gates s Hi) as (s2 & Htv & G1 & G2 & G3). rewrite <- G1 in Hg. rewrite <- G2.
  eexists. split; [rewrite (bind_Ok _ _ _ _ _ Htv); reflexivity|]. cbn [idt gdt with_gdt]. split; [|split].
  - intros i Hlt. rewrite (G3 i Hlt). eexists. split; [done|].
    destruct (decide (i = Z.to_nat T_SYSCALL)) as [->|Hne]; (split; [apply SETGATE_ok|]); rewrite gate_of by apply Hv; split_and!; try done.
    split; [|done]. intros [_ Hd]. change (3 <= 0) in Hd. lia.
  - intros i Hin. destruct (gdt s2) as [|x0 [|x1 [|x2 [|x3 [|x4 [|x5 [|x6 [|]]]]]]]]; try discriminate Hg.
    repeat (apply elem_of_cons in Hin as [->|Hin]; [eexists; split; [reflexivity|]; split; [apply SEG_ok|done]|]). by apply not_elem_of_nil in Hin.
  - destruct (gdt s2) as [|x0 [|x1 [|x2 [|x3 [|x4 [|x5 [|x6 [|]]]]]]]]; try discriminate Hg.
    eexists. split; [reflexivity|]. split; [apply SEG_ok|]. split; [|done]. unfold seg_base. cbn -[Z.pow Z.mul field u32].
    set (x := c_addr s2 + off_cpu). replace (u32 x) with (u32 (u32 x)) by (apply u32_small, u32_range). 
    rewrite (proj2 (split_word (u32 x) (u32_range x))). symmetry. apply u32_small, u32_range.
Qed.

End idt.

Lemma tables_protect_witness :
  exists t g, (tvinit (fun i => 0x80105000 + 10 * Z.of_nat i mod 2560);; seginit)
    (mkSegs 0x80112780 (replicate 7 (SEG 0 0 0 0)) (mkTs 0 0 0) (replicate 256 (SETGATE 0 0 0 0)) None None 0 0 0 0 0) = Ok (tt, t) /\
    idt t !! 14%nat = Some g /\ ~ may_int 3 g.
Proof.
  destruct (tables_protect (fun i => 0x80105000 + 10 * Z.of_nat i mod 2560)
    (mkSegs 0x80112780 (replicate 7 (SEG 0 0 0 0)) (mkTs 0 0 0) (replicate 256 (SETGATE 0 0 0 0)) None None 0 0 0 0 0)) as (t & Hr & Hg & _).
  - reflexivity.
  - reflexivity.
  - intros i. pose proof (Z.mod_pos_bound (10 * Z.of_nat i) 2560 ltac:(lia)). lia.
  - destruct (Hg 14%nat ltac:(lia)) as (g & H1 & _ & _ & _ & _ & H2). exists t, g. split; [exact Hr|]. split; [exact H1|].
    rewrite H2. discriminate.
Defined.
