(* ===== verification/Trap.v ===== *)
(** trap.c, sysproc.c and the dispatch of syscall.c: how a process enters the
    kernel and how it leaves it.

    As in ProcOps.v a run ends where the process gives up the processor: trap
    returns to the interrupted code, or the process has exited, has yielded, or
    sleeps in a system call; the rest of the handler is then a definition of
    its own ([trap_yielded], [trap_woken]). *)

From S2P Require Import Prelude Hoare StringC Spinlock Proc Sched ProcOps ProcFacts ProcSpec Irq Syscall.

(** The state around the process table: tickslock, what cprintf was asked to
    print, and how often the local APIC was told that an interrupt is done. *)
Record tst (E : Type) := mkTst {
  tk : pt E;
  tickslock : spinlock;
  said : list string;
  eois : nat }.
Arguments mkTst {E} _ _ _ _.
Arguments tk {E} _.
Arguments tickslock {E} _.
Arguments said {E} _.
Arguments eois {E} _.

(** How a system call ends: with the value for eax, with the process gone, or
    asleep: in wait or wait_stat, in sys_sleep, or in a call of sysfile.c. *)
Inductive sres :=
| SRet (v : Z)
| SGone
| SWait (status : Z) (perf : option Z) (ie : Z)
| STicks (n ticks0 ie : Z)
| SAsleep.

(** How trap ends. *)
Inductive tres := TBack | TGone | TYield (ie : Z) | TSleep (why : sres).

(** What trap.c calls besides proc.c: memory through the page directory of
    the process, the interrupt handlers of the devices, which may wake
    processes, and the calls of sysfile.c. *)
Class TrapEnv (E : Type) `{KernelEnv E} := {
  umem : E -> Z -> mem;
  ustore : Z -> Z -> Z -> M E unit;
  ide_intr : M E (list channel);
  kbd_intr : M E (list channel);
  uart_intr : M E (list channel);
  sysfile : sysno -> M (pt E) sres }.

Section trap.
Context {E : Type} `{TrapEnv E}.
Context (forkret_addr trapret_addr : Z) (stk : list Z).

Abbreviation T := (M (tst E)).

Definition onpt {A} (m : M (pt E) A) : T A := fun s =>
  obind (m (tk s)) (fun '(a, k) => Ok (a, mkTst k (tickslock s) (said s) (eois s))).

(** A call that works on tickslock. *)
Definition onlock (m : spinlock -> M (pt E) spinlock) : T unit := fun s =>
  obind (m (tickslock s) (tk s)) (fun '(l, k) => Ok (tt, mkTst k l (said s) (eois s))).

Definition say (msg : string) : T unit := modify (fun s => mkTst (tk s) (tickslock s) (msg :: said s) (eois s)).
Definition lapiceoi : T unit := modify (fun s => mkTst (tk s) (tickslock s) (said s) (S (eois s))).

(** The process as the argument functions see it. *)
Definition uproc_of : T uproc :=
  i ← onpt cur; p ← onpt (getp i); e ← gets (fun s => env (tk s));
  mret (mkU (sz p) (tf_esp (tf p)) (umem e (pgdir p))).

Definition arg (n : Z) : T (option Z) := u ← uproc_of; mret (argint u n).

(** * sysproc.c *)

Definition sys_fork : T sres := v ← onpt (fork forkret_addr trapret_addr stk); mret (SRet v).

Definition sys_exit : T sres :=
  a ← arg 0;
  match a with
  | None => mret (SRet (-1))
  | Some status => onpt (exit stk status);; mret SGone
  end.

(** *p = v through a pointer of the process. *)
Definition store (p v : Z) : T unit :=
  onpt (i ← cur; q ← getp i; liftE (ustore (pgdir q) p v)).

(** performance->ctime, ttime, stime, retime, rutime *)
Definition store_perf (p : Z) (pf : perf) : T unit :=
  store p (p_ctime pf);; store (p + 4) (p_ttime pf);; store (p + 8) (p_stime pf);;
  store (p + 12) (p_retime pf);; store (p + 16) (p_rutime pf).

(** What wait does with its pass: [status] and [performance] are addresses. *)
Definition wait_end (status : Z) (performance : option Z) (r : wait_result) : T sres :=
  match r with
  | WaitDone v st pf =>
      match st with Some x => store status x | None => mret tt end;;
      match performance, pf with Some p, Some pf => store_perf p pf | _, _ => mret tt end;;
      mret (SRet v)
  | WaitSleeping ie => mret (SWait status performance ie)
  end.

Definition sys_wait : T sres :=
  a ← arg 0;
  match a with
  | None => mret (SRet (-1))
  | Some status => r ← onpt (wait stk (u32 status)); wait_end (u32 status) None r
  end.

Definition sys_kill : T sres :=
  a ← arg 0;
  match a with
  | None => mret (SRet (-1))
  | Some pid => v ← onpt (kill stk pid); mret (SRet v)
  end.

Definition sys_getpid : T sres := i ← onpt cur; p ← onpt (getp i); mret (SRet (pid p)).

Definition sys_sbrk : T sres :=
  a ← arg 0;
  match a with
  | None => mret (SRet (-1))
  | Some n =>
      i ← onpt cur; p ← onpt (getp i);
      let addr := s32 (sz p) in
      r ← onpt (growproc n);
      if r <? 0 then mret (SRet (-1)) else mret (SRet addr)
  end.

(** The loop of sys_sleep, with tickslock held. *)
Definition sleep_loop (n ticks0 : Z) : T sres :=
  t ← gets (fun s => ticks (tk s));
  if u32 (t - ticks0) <? u32 n then
    i ← onpt cur; p ← onpt (getp i);
    if negb (killed p =? 0) then onlock release_lk;; mret (SRet (-1))
    else fun s =>
      obind (sleep_out stk ChTicks (LkOther (tickslock s)) (tk s)) (fun '((lk, ie), k) =>
        let l := match lk with LkOther l => l | _ => tickslock s end in
        Ok (STicks n ticks0 ie, mkTst k l (said s) (eois s)))
  else onlock release_lk;; mret (SRet 0).

Definition sys_sleep : T sres :=
  a ← arg 0;
  match a with
  | None => mret (SRet (-1))
  | Some n =>
      onlock (acquire_lk stk);;
      ticks0 ← gets (fun s => ticks (tk s));
      sleep_loop n ticks0
  end.

(** ... and after the process was woken. *)
Definition sleep_woken (n ticks0 ie : Z) : T sres :=
  onlock (fun l => lk ← sleep_in stk (LkOther l) ie; mret (match lk with LkOther l => l | _ => l end));;
  sleep_loop n ticks0.

Definition sys_uptime : T sres :=
  onlock (acquire_lk stk);;
  xticks ← gets (fun s => ticks (tk s));
  onlock release_lk;;
  mret (SRet (s32 xticks)).

Definition sys_priority : T sres :=
  a ← arg 0;
  match a with
  | None => mret (SRet (-1))
  | Some pr => onpt (set_my_priority pr);; mret (SRet 0)
  end.

Definition sys_policy : T sres :=
  a ← arg 0;
  match a with
  | None => mret (SRet (-1))
  | Some pl => onpt (policy pl);; mret (SRet 0)
  end.

Definition sys_wait_stat : T sres :=
  a ← arg 0;
  match a with
  | None => mret (SRet (-1))
  | Some status =>
      b ← arg 1;
      match b with
      | None => mret (SRet (-1))
      | Some performance =>
          r ← onpt (wait_stat stk (u32 status)); wait_end (u32 status) (Some (u32 performance)) r
      end
  end.

(** * syscall.c *)

Definition handler (f : sysno) : T sres :=
  match f with
  | SYS_fork => sys_fork
  | SYS_exit => sys_exit
  | SYS_wait => sys_wait
  | SYS_kill => sys_kill
  | SYS_getpid => sys_getpid
  | SYS_sbrk => sys_sbrk
  | SYS_sleep => sys_sleep
  | SYS_uptime => sys_uptime
  | SYS_priority => sys_priority
  | SYS_policy => sys_policy
  | SYS_wait_stat => sys_wait_stat
  | f => onpt (sysfile f)
  end.

(** proc->tf->eax = v *)
Definition set_eax (v : Z) : T unit :=
  onpt (i ← cur; updp i (fun p => set_tf (set_tf_eax (u32 v) (tf p)) p)).

Definition syscall : T sres :=
  i ← onpt cur; p ← onpt (getp i);
  match dispatch (tf_eax (tf p)) with
  | Some f =>
      r ← handler f;
      match r with
      | SRet v => set_eax v;; mret (SRet v)
      | r => mret r
      end
  | None => say "unknown sys call";; set_eax (-1);; mret (SRet (-1))
  end.

(** * trap.c *)

(** tvinit, after the gates (Seg.v). *)
Definition tickslock_init : T unit := modify (fun s => mkTst (tk s) (initlock "time" (tickslock s)) (said s) (eois s)).

(** if(proc->killed) exit(0); return; *)
Definition killed_exit : T tres :=
  i ← onpt cur; p ← onpt (getp i);
  if negb (killed p =? 0) then onpt (exit stk 0);; mret TGone else mret TBack.

(** proc && proc->killed && (tf->cs&3) == DPL_USER *)
Definition dying (f : trapframe) : T bool :=
  c ← gets (fun s => curproc (tk s));
  match c with
  | None => mret false
  | Some i => p ← onpt (getp i); mret (negb (killed p =? 0) && (Z.land (tf_cs f) 3 =? DPL_USER))
  end.

(** The last test of trap. *)
Definition trap_end (f : trapframe) : T tres :=
  d ← dying f;
  if (d : bool) then onpt (exit stk 0);; mret TGone else mret TBack.

(** The switch; [cpunum] is the processor's number. *)
Definition irq (cpunum : Z) (f : trapframe) : T unit :=
  let n := tf_trapno f in
  if n =? T_IRQ0 + IRQ_TIMER then
    when (cpunum =? 0) (onlock (timer_tick stk));;
    lapiceoi
  else if n =? T_IRQ0 + IRQ_IDE then onpt (call_ stk ide_intr);; lapiceoi
  else if n =? T_IRQ0 + IRQ_IDE + 1 then mret tt
  else if n =? T_IRQ0 + IRQ_KBD then onpt (call_ stk kbd_intr);; lapiceoi
  else if n =? T_IRQ0 + IRQ_COM1 then onpt (call_ stk uart_intr);; lapiceoi
  else if (n =? T_IRQ0 + 7) || (n =? T_IRQ0 + IRQ_SPURIOUS) then say "spurious interrupt";; lapiceoi
  else
    c ← gets (fun s => curproc (tk s));
    match c with
    | None => say "unexpected trap";; panic "trap"
    | Some i =>
        if Z.land (tf_cs f) 3 =? 0 then say "unexpected trap";; panic "trap"
        else say "kill proc";; onpt (updp i (set_killed 1))
    end.

Definition trap (cpunum : Z) (f : trapframe) : T tres :=
  if tf_trapno f =? T_SYSCALL then
    i ← onpt cur; p ← onpt (getp i);
    if negb (killed p =? 0) then onpt (exit stk 0);; mret TGone
    else
      onpt (updp i (set_tf f));;
      r ← syscall;
      match r with
      | SRet _ => killed_exit
      | SGone => mret TGone
      | r => mret (TSleep r)
      end
  else
    irq cpunum f;;
    d ← dying f;
    if (d : bool) then onpt (exit stk 0);; mret TGone
    else
      c ← gets (fun s => curproc (tk s));
      match c with
      | None => trap_end f
      | Some i =>
          p ← onpt (getp i);
          if bool_decide (state p = RUNNING) && (tf_trapno f =? T_IRQ0 + IRQ_TIMER) then
            ie ← onpt (yield_out stk); mret (TYield ie)
          else trap_end f
      end.

(** After the yield. *)
Definition trap_yielded (f : trapframe) (ie : Z) : T tres := onpt (yield_in ie);; trap_end f.

(** A system call goes on after its process was woken. *)
Definition trap_woken (why : sres) : T tres :=
  r ← match why with
      | SWait status None ie => r ← onpt (wait_resume stk status ie); wait_end status None r
      | SWait status (Some p) ie => r ← onpt (wait_stat_resume stk status ie); wait_end status (Some p) r
      | STicks n ticks0 ie => sleep_woken n ticks0 ie
      | r => mret r
      end;
  match r with
  | SRet v => set_eax v;; killed_exit
  | SGone => mret TGone
  | r => mret (TSleep r)
  end.

End trap.

Section facts.
Context {E : Type} `{TrapEnv E}.
Context (forkret_addr trapret_addr : Z) (stk : list Z).
Implicit Types (s t : tst E) (f : trapframe).

(** * A killed process does not go back to its program *)

Definition spared t : Prop := forall i p, curproc (tk t) = Some i -> procs (tk t) !! i = Some p -> killed p = 0.

Lemma onpt_run {A} (m : M (pt E) A) s a t : onpt m s = Ok (a, t) -> m (tk s) = Ok (a, tk t).
Proof. unfold onpt. destruct (m (tk s)) as [[b k]| | |]; simpl; intros Hr; try discriminate. by injection Hr as <- <-. Qed.

Lemma post_onpt_read {A} (m : M (pt E) A) s (Q : A -> tst E -> Prop) :
  (forall a k, m (tk s) = Ok (a, k) -> k = tk s) -> (forall a, m (tk s) = Ok (a, tk s) -> Q a s) -> post (onpt m) s Q.
Proof.
  intros Hk HQ a t Hr. pose proof (onpt_run m s a t Hr) as Hm. unfold onpt in Hr. rewrite Hm in Hr. simpl in Hr.
  injection Hr as <-. specialize (Hk a _ Hm). rewrite Hk in *. specialize (HQ a Hm). by destruct s.
Qed.

Lemma cur_reads (k k' : pt E) i : cur k = Ok (i, k') -> k' = k /\ curproc k = Some i.
Proof. unfold cur, deref. destruct (curproc k); [|done]. by intros [= <- <-]. Qed.

Lemma getp_reads i (k k' : pt E) p : getp i k = Ok (p, k') -> k' = k /\ procs k !! i = Some p.
Proof. unfold getp, deref. destruct (procs k !! i); [|done]. by intros [= <- <-]. Qed.

Lemma killed_exit_spares s : post (killed_exit stk) s (fun r t => r = TBack -> spared t).
Proof.
  unfold killed_exit. apply post_bind, post_onpt_read; [intros i k Hi; by apply cur_reads in Hi as [-> _]|].
  intros i Hi. apply cur_reads in Hi as [_ Hi].
  apply post_bind, post_onpt_read; [intros p k Hp; by apply getp_reads in Hp as [-> _]|]. intros p Hp. apply getp_reads in Hp as [_ Hp].
  destruct (Z.eqb_spec (killed p) 0) as [E0|E0]; cbn [negb].
  - apply post_ret. intros _ j q Hj Hq. congruence.
  - apply post_bind. intros a t _. by apply post_ret.
Qed.

Lemma trap_end_spares f s : Z.land (tf_cs f) 3 = DPL_USER -> post (trap_end stk f) s (fun r t => r = TBack -> spared t).
Proof.
  intros Hcs. unfold trap_end, dying. apply post_bind, post_bind, post_gets. destruct (curproc (tk s)) as [i|] eqn:Ei.
  - apply post_bind, post_onpt_read; [intros p k Hp; by apply getp_reads in Hp as [-> _]|]. intros p Hp. apply getp_reads in Hp as [_ Hp].
    apply post_ret. rewrite Hcs, Z.eqb_refl, andb_true_r. destruct (Z.eqb_spec (killed p) 0) as [E0|E0]; cbn [negb].
    + apply post_ret. intros _ j q Hj Hq. congruence.
    + apply post_bind. intros a t _. by apply post_ret.
  - apply post_ret, post_ret. intros _ j q Hj. congruence.
Qed.


(** * The timer *)

Lemma popped_inner c : 0 <= ncli c -> popped (pushcli c) = pushcli c.
Proof. intros Hn. unfold popped. destruct (SMP.pushcli_fields c) as (_ & -> & _). by rewrite (proj2 (Z.eqb_neq _ 0)) by lia. Qed.

Lemma update_times_run (k : pt E) :
  lock_free k -> update_times stk k = Ok (tt, settle stk (with_procs (tick1 <$> procs k) k)).
Proof.
  intros Hk. unfold update_times. rewrite (bind_Ok _ _ _ _ _ (acquire_run stk k Hk)).
  rewrite (bind_Ok (modify _) _ _ tt (with_procs (tick1 <$> procs k) (acq stk k))) by done. by rewrite (release_run stk k).
Qed.

(** The table after a tick: accounting, then the sleepers of sys_sleep. *)
Definition ticked (ps : list proc) : list proc := wake (Some ChTicks) <$> (tick1 <$> ps).

Lemma wp_timer_tick l (k : pt E) (Q : spinlock -> pt E -> Prop) :
  lock_free k -> locked l = 0 ->
  (forall l' k', locked l' = 0 -> quiet (with_procs (ticked (procs k)) (with_ticks (u32 (ticks k + 1)) k)) k' -> Q l' k') ->
  wp (timer_tick stk l) k Q.
Proof.
  intros [Hl Hc] Hlk HQ. destruct (SMP.pushcli_fields (mycpu k)) as (P1 & P2 & P3). unfold timer_tick. apply wp_bind.
  eapply wp_run; [unfold acquire_lk; rewrite acquire_free by done; reflexivity|]. apply wp_bind, wp_modify.
  set (k1 := with_ticks _ _). assert (lock_free k1) as Hf1.
  { split; [done|]. change (cli_ok (pushcli (mycpu k))). unfold cli_ok in *. rewrite P2, P3. split; [lia|done]. }
  apply wp_bind. eapply wp_run; [by apply update_times_run|]. set (k2 := settle _ _).
  assert (lock_free k2) as Hf2 by exact (settle_free stk (with_procs _ k1) Hf1).
  apply wp_bind. eapply wp_run; [by apply wakeup_run|]. set (k3 := settle _ _).
  assert (mycpu k3 = pushcli (mycpu k)) as Hm.
  { change (popped (popped (pushcli (mycpu k))) = pushcli (mycpu k)). rewrite !popped_inner by apply Hc. done. }
  eapply wp_run; [unfold release_lk; rewrite Hm, release_held by done; reflexivity|]. apply HQ; [done|].
  destruct (popped_fields (mycpu k)) as (Q1 & Q2 & Q3). split; try done. split; [done|]. by apply popped_ok.
Qed.

(** yield up to its swtch. *)
Definition yielded (np : Z) (p : proc) : proc :=
  let p := set_state RUNNABLE p in if (np =? 2) && (1 <? ntickets p) then set_ntickets (ntickets p - 1) p else p.

Lemma wp_yield_out (k : pt E) i p (Q : Z -> pt E -> Prop) :
  lock_free k -> ncli (mycpu k) = 0 -> curproc k = Some i -> procs k !! i = Some p ->
  (forall ie k', held k' -> core k' = core (with_procs (<[i := yielded (npolicy k) p]> (procs k)) k) -> Q ie k') ->
  wp (yield_out stk) k Q.
Proof.
  intros Hk Hn Hi Hp HQ. pose proof (lookup_lt_Some _ _ _ Hp) as Hlt. pose proof (acq_held stk k Hk Hn) as Hheld.
  unfold yield_out. apply wp_bind, wp_acquire; [done|]. apply wp_bind. eapply wp_cur; [exact Hi|]. apply wp_bind. eapply wp_updp; [exact Hp|].
  apply wp_bind. eapply wp_getp; [by apply list_lookup_insert_eq|]. apply wp_bind, wp_gets, wp_bind.
  assert (forall q, yielded (npolicy k) p = q -> wp sched_out (with_procs (<[i := q]> (procs k)) (acq stk k)) Q) as Hs.
  { intros q <-. destruct Hheld as (H1 & H2 & H3). eapply (wp_sched_out _ i (yielded (npolicy k) p)); try done.
    - by apply list_lookup_insert_eq.
    - unfold yielded. by destruct (_ && _).
    - by apply HQ. }
  cbn [npolicy with_procs]. change (npolicy (acq stk k)) with (npolicy k). unfold yielded in Hs.
  destruct ((npolicy k =? 2) && (1 <? ntickets (set_state RUNNABLE p))); cbn [when].
  - eapply wp_updp; [by apply list_lookup_insert_eq|]. cbn [procs with_procs]. rewrite list_insert_insert_eq. by apply Hs.
  - by apply wp_ret, Hs.
Qed.

(** C22. The clock interrupt takes the processor away from a running process:
    CPU 0 counts the tick, adds it to the times of every process, makes the
    sleepers of sys_sleep runnable, and the process that ran becomes RUNNABLE
    (with one ticket less under the dynamic policy) and switches to the
    scheduler, holding ptable.lock and nothing else. *)
Theorem timer_preempts f i p s :
  tf_trapno f = T_IRQ0 + IRQ_TIMER -> lock_free (tk s) -> ncli (mycpu (tk s)) = 0 -> locked (tickslock s) = 0 ->
  curproc (tk s) = Some i -> procs (tk s) !! i = Some p -> state p = RUNNING -> killed p = 0 ->
  exists ie t, trap forkret_addr trapret_addr stk 0 f s = Ok (TYield ie, t) /\
    procs (tk t) = <[i := yielded (npolicy (tk s)) (tick1 p)]> (ticked (procs (tk s))) /\
    ticks (tk t) = u32 (ticks (tk s) + 1) /\ curproc (tk t) = Some i /\ eois t = S (eois s) /\
    locked (tickslock t) = 0 /\ held (tk t).
Proof.
  intros Hno Hk Hn Hl Hi Hp Hst Hkl.
  enough (wp (trap forkret_addr trapret_addr stk 0 f) s (fun r t => exists ie, r = TYield ie /\
    procs (tk t) = <[i := yielded (npolicy (tk s)) (tick1 p)]> (ticked (procs (tk s))) /\
    ticks (tk t) = u32 (ticks (tk s) + 1) /\ curproc (tk t) = Some i /\ eois t = S (eois s) /\
    locked (tickslock t) = 0 /\ held (tk t))) as (r & t & Hr & ie & -> & Ht) by by exists ie, t.
  assert (wake (Some ChTicks) (tick1 p) = tick1 p) as Ew.
  { unfold wake, tick1. rewrite Hst. cbn [state set_rutime]. by rewrite Hst. }
  unfold trap, irq. rewrite Hno. cbn [Z.eqb Z.add Pos.eqb T_IRQ0 IRQ_TIMER T_SYSCALL when]. apply wp_bind, wp_bind.
  destruct (wp_timer_tick (tickslock s) (tk s) (fun l' k' => locked l' = 0 /\
    quiet (with_procs (ticked (procs (tk s))) (with_ticks (u32 (ticks (tk s) + 1)) (tk s))) k') Hk Hl) as (l & k & Hrun & Hl' & Hq); [done|].
  destruct (quiet_fields _ _ Hq) as (K1 & _ & _ & K4 & K5 & K6 & _). cbn in K1, K4, K5, K6.
  eapply wp_run; [unfold onlock; rewrite Hrun; reflexivity|]. apply wp_modify. cbn [tk tickslock said eois].
  assert (procs k !! i = Some (tick1 p)) as Hp'.
  { rewrite K1. unfold ticked. rewrite !list_lookup_fmap, Hp. cbn. by rewrite Ew. }
  assert (killed (tick1 p) = 0 /\ state (tick1 p) = RUNNING) as [Hkl' Hst'] by (unfold tick1; by rewrite Hst).
  apply wp_bind. unfold dying. apply wp_bind, wp_gets. cbn [tk]. rewrite K6, Hi. apply wp_bind.
  eapply wp_run; [unfold onpt; cbn [tk]; unfold getp, deref; rewrite Hp'; reflexivity|]. apply wp_ret. rewrite Hkl'. cbn [negb andb Z.eqb].
  apply wp_bind, wp_gets. cbn [tk]. rewrite K6, Hi. apply wp_bind.
  eapply wp_run; [unfold onpt; cbn [tk]; unfold getp, deref; rewrite Hp'; reflexivity|]. rewrite bool_decide_true by done. cbn [andb].
  apply wp_bind. destruct (wp_yield_out k i (tick1 p) (fun ie k' => held k' /\
    core k' = core (with_procs (<[i := yielded (npolicy k) (tick1 p)]> (procs k)) k))) as (ie & k' & Hy & Hh & Hc); try done.
  { apply Hq. } { rewrite (quiet_ncli _ _ Hq). done. } { congruence. }
  eapply wp_run; [unfold onpt; cbn [tk]; rewrite Hy; reflexivity|]. apply wp_ret. exists ie. cbn [tk tickslock eois].
  split; [done|]. rewrite K1, K4 in Hc. rewrite (core_eq procs _ _ (fun _ => eq_refl) Hc), (core_eq ticks _ _ (fun _ => eq_refl) Hc),
    (core_eq curproc _ _ (fun _ => eq_refl) Hc). cbn. by rewrite K5, K6.
Qed.

End facts.

(** sys_sleep does not return 0 before its time. *)
Lemma sleep_waits {E} `{TrapEnv E} (stk : list Z) n ticks0 (s : tst E) :
  post (sleep_loop stk n ticks0) s (fun r _ => r = SRet 0 -> u32 n <= u32 (ticks (tk s) - ticks0)).
Proof.
  unfold sleep_loop. apply post_bind, post_gets. destruct (Z.ltb_spec (u32 (ticks (tk s) - ticks0)) (u32 n)) as [Hlt|Hge].
  - apply post_bind. intros i s1 _. apply post_bind. intros p s2 _. destruct (negb _).
    + apply post_bind. intros a s3 _. by apply post_ret.
    + intros r t Hr. destruct (sleep_out _ _ _ _) as [[[lk ie] k]| | |]; simpl in Hr; try discriminate Hr. by injection Hr as <- <-.
  - apply post_bind. intros a s1 _. by apply post_ret.
Qed.

(** Once the ticks are there, the process that is woken returns 0. *)
Lemma sleep_ends {E} `{TrapEnv E} (stk : list Z) n ticks0 (s : tst E) c :
  u32 n <= u32 (ticks (tk s) - ticks0) -> mycpu (tk s) = pushcli c -> cli_ok c ->
  tickslock s = mkSpinlock 1 (lname (tickslock s)) (Some (cpu_id c)) stk ->
  exists t, sleep_loop stk n ticks0 s = Ok (SRet 0, t) /\ locked (tickslock t) = 0.
Proof.
  intros Hn Hc Hok Hl. enough (wp (sleep_loop stk n ticks0) s (fun r t => r = SRet 0 /\ locked (tickslock t) = 0)) as (r & t & Hr & -> & Ht) by by exists t.
  unfold sleep_loop. apply wp_bind, wp_gets. rewrite (proj2 (Z.ltb_ge _ _)) by done. apply wp_bind.
  eapply wp_run; [unfold onlock, release_lk; rewrite Hc, Hl, release_held by done; reflexivity|]. by apply wp_ret.
Qed.

Module TrapDemo.

#[global] Instance kernel : KernelEnv unit := {
  kalloc := mret None; kfree _ := mret tt; setupkvm := mret None; inituvm _ := mret tt; copyuvm _ _ := mret None;
  freevm _ := mret tt; allocuvm _ _ n := mret n; deallocuvm _ _ n := mret n; filedup _ := mret tt; fileclose _ := mret [];
  idup _ := mret tt; iput _ := mret []; namei_root := mret (None, []); begin_op := mret tt; end_op := mret [] }.

#[global] Instance trap_kernel : TrapEnv unit := {
  umem _ _ _ := 0; ustore _ _ _ := mret tt; ide_intr := mret []; kbd_intr := mret []; uart_intr := mret []; sysfile _ := mret (SRet 0) }.

Definition frame (n : Z) : trapframe := mkTf 0 0 0 0 0 0 0 0 0 0 0 0 n 0 0 0x1b 0 0 0.

(** One process, running in user mode; another sleeps for a tick. *)
Definition running : proc := set_state RUNNING (set_ntickets 5 proc_zero).
Definition asleep : proc := set_chan (Some ChTicks) (set_state SLEEPING proc_zero).
Definition state0 : tst unit :=
  mkTst (mkPt [running; asleep] None 3 2 10 41 (mkSpinlock 0 "ptable" None []) (mkCpu 0 0 0 true) (Some 0%nat) 0 0 tt)
    (mkSpinlock 0 "time" None []) [] 0.

End TrapDemo.

Lemma timer_preempts_witness :
  exists ie t, trap 100 200 [] 0 (TrapDemo.frame 32) TrapDemo.state0 = Ok (TYield ie, t) /\
    state <$> procs (tk t) = [RUNNABLE; RUNNABLE] /\ ticks (tk t) = 42.
Proof.
  destruct (timer_preempts 100 200 [] (TrapDemo.frame 32) 0%nat TrapDemo.running TrapDemo.state0) as (ie & t & Hr & Hp & Ht & _).
  - reflexivity.
  - split; [reflexivity|]. split; [vm_compute; discriminate|]. intros Hn. vm_compute in Hn. discriminate Hn.
  - reflexivity.
  - reflexivity.
  - reflexivity.
  - reflexivity.
  - reflexivity.
  - reflexivity.
  - exists ie, t. split; [exact Hr|]. rewrite Hp, Ht. split; vm_compute; reflexivity.
Defined.

