(* ===== verification/File.v ===== *)
(** file.c, pipealloc of pipe.c, and the file system calls of sysfile.c.

    The state is the table of open files, the pipes, the file system of Fs.v,
    the descriptor tables of all processes, and what the running process, whose
    table is [tables !! scur], sees of its own memory.  What ftable.lock
    protects happens in one step.  A call that has to sleep is [Blocks]. *)

From S2P Require Import Prelude StringC Codec Spinlock Proc Vm Pipe Sleeplock Blocks Layout Log Fs Sh Syscall.

Definition NFILE : nat := 100.

Inductive ftype := FD_NONE | FD_PIPE | FD_INODE.

Record file := mkFile {
  f_type : ftype;
  f_ref : Z;
  f_readable : Z;
  f_writable : Z;
  f_pipe : nat;
  f_ip : nat;
  f_off : Z }.

Definition f_set_type (t : ftype) (f : file) : file :=
  mkFile t (f_ref f) (f_readable f) (f_writable f) (f_pipe f) (f_ip f) (f_off f).
Definition f_set_ref (r : Z) (f : file) : file :=
  mkFile (f_type f) r (f_readable f) (f_writable f) (f_pipe f) (f_ip f) (f_off f).
Definition f_set_off (o : Z) (f : file) : file :=
  mkFile (f_type f) (f_ref f) (f_readable f) (f_writable f) (f_pipe f) (f_ip f) o.
Definition f_set_pipe (r w : Z) (k : nat) (f : file) : file :=
  mkFile FD_PIPE (f_ref f) r w k (f_ip f) (f_off f).

Record sst (T : Type) := mkSst {
  ftable : list file;
  fpipes : list pst;
  spages : nat;                       (* pages kalloc can still give *)
  sfs : fss T;
  tables : list (list (option nat));  (* the ofile array of every process *)
  scur : nat;
  suser : uproc }.
Arguments mkSst {T} _ _ _ _ _ _ _.
Arguments ftable {T} _.
Arguments fpipes {T} _.
Arguments spages {T} _.
Arguments sfs {T} _.
Arguments tables {T} _.
Arguments scur {T} _.
Arguments suser {T} _.

Definition with_ftable {T} (l : list file) (s : sst T) : sst T :=
  mkSst l (fpipes s) (spages s) (sfs s) (tables s) (scur s) (suser s).
Definition with_pipes {T} (l : list pst) (n : nat) (s : sst T) : sst T :=
  mkSst (ftable s) l n (sfs s) (tables s) (scur s) (suser s).
Definition with_sfs {T} (x : fss T) (s : sst T) : sst T :=
  mkSst (ftable s) (fpipes s) (spages s) x (tables s) (scur s) (suser s).
Definition with_tables {T} (l : list (list (option nat))) (s : sst T) : sst T :=
  mkSst (ftable s) (fpipes s) (spages s) (sfs s) l (scur s) (suser s).
Definition with_umem {T} (m : mem) (s : sst T) : sst T :=
  mkSst (ftable s) (fpipes s) (spages s) (sfs s) (tables s) (scur s)
    (mkU (u_sz (suser s)) (u_esp (suser s)) m).

(** * Lists of files and descriptors *)

(** The index of the first entry that satisfies the test. *)
Fixpoint first_such {A} (test : A -> bool) (l : list A) : option nat :=
  match l with
  | [] => None
  | x :: l => if test x then Some 0%nat else S <$> first_such test l
  end.

Section files.
Context {T : Type} `{BufLayer T}.
(** Drivers, what getcallerpcs records, what the stack holds in name[]. *)
Context (devread : Z -> option (nat -> Z -> M (fss T) (Z * list Z))).
Context (devwrite : Z -> option (nat -> list Z -> Z -> M (fss T) Z)).
Context (stk junk : list Z).

Abbreviation S_ := (M (sst T)).

(** A call of the file system. *)
Definition callfs {A} (m : M (fss T) A) : S_ A := fun s =>
  match m (sfs s) with
  | Ok (a, x) => Ok (a, with_sfs x s)
  | Panic e => Panic e
  | Fault e => Fault e
  | Blocks e => Blocks e
  end.

Definition begin_op_ : S_ unit := callfs (liftl begin_op).
Definition end_op_ : S_ unit := callfs (liftl end_op).

(** A call on the pipe [k]; a page it frees can be allocated again. *)
Definition callpipe {A} (k : nat) (m : M pst A) : S_ A := fun s =>
  match fpipes s !! k with
  | None => Fault "pipe"
  | Some p =>
      match m p with
      | Ok (a, p') =>
          let n := if pfreed p' && negb (pfreed p) then S (spages s) else spages s in
          Ok (a, with_pipes (<[k := p']> (fpipes s)) n s)
      | Panic e => Panic e
      | Fault e => Fault e
      | Blocks e => Blocks e
      end
  end.

Definition getf (f : nat) : S_ file := deref "struct file" (fun s => ftable s !! f).

Definition updf (f : nat) (g : file -> file) : S_ unit :=
  modify (fun s => with_ftable (alter g f (ftable s)) s).

(** * file.c *)

Definition filealloc : S_ (option nat) :=
  l ← gets ftable;
  match first_such (fun f => f_ref f =? 0) l with
  | Some f => updf f (f_set_ref 1);; mret (Some f)
  | None => mret None
  end.

Definition filedup (f : nat) : S_ nat :=
  x ← getf f;
  if f_ref x <? 1 then panic "filedup"
  else updf f (f_set_ref (f_ref x + 1));; mret f.

Definition fileclose (f : nat) : S_ unit :=
  x ← getf f;
  if f_ref x <? 1 then panic "fileclose"
  else if 0 <? f_ref x - 1 then updf f (f_set_ref (f_ref x - 1))
  else
    updf f (fun x => f_set_type FD_NONE (f_set_ref 0 x));;
    match f_type x with
    | FD_PIPE => callpipe (f_pipe x) (pipeclose stk (f_writable x))
    | FD_INODE => begin_op_;; callfs (iput (f_ip x));; end_op_
    | FD_NONE => mret tt
    end.

(** The value returned and what *st holds. *)
Definition filestat (f : nat) : S_ (option stat) :=
  x ← getf f;
  match f_type x with
  | FD_INODE =>
      callfs (ilock (f_ip x));;
      st ← callfs (stati (f_ip x));
      callfs (iunlock (f_ip x));;
      mret (Some st)
  | _ => mret None
  end.

(** The value returned and the bytes stored. *)
Definition fileread (f : nat) (n : Z) : S_ (Z * list Z) :=
  x ← getf f;
  if f_readable x =? 0 then mret (-1, [])
  else
    match f_type x with
    | FD_PIPE =>
        r ← callpipe (f_pipe x) (piperead stk n);
        match r with
        | RDone bs => mret (Z.of_nat (length bs), bs)
        | RKilled => mret (-1, [])
        | RSleep => blocks "piperead: sleep"
        end
    | FD_INODE =>
        callfs (ilock (f_ip x));;
        r ← callfs (readi devread (f_ip x) (f_off x) (u32 n));
        when (0 <? fst r) (updf f (f_set_off (u32 (f_off x + fst r))));;
        callfs (iunlock (f_ip x));;
        mret r
    | FD_NONE => panic "fileread"
    end.

(** ((LOGSIZE-1-1-2) / 2) * 512 *)
Definition max_write : Z := (LOGSIZE - 1 - 1 - 2) / 2 * 512.

(** The loop of filewrite from i on; each turn writes some bytes or stops. *)
Fixpoint filewrite_loop (fuel f : nat) (addr : list Z) (i n : Z) : S_ Z :=
  match fuel with
  | O => mret i
  | S fuel =>
      if i <? n then
        let n1 := Z.min (n - i) max_write in
        begin_op_;;
        x ← getf f;
        callfs (ilock (f_ip x));;
        r ← callfs (writei devwrite (f_ip x) (slice (Z.to_nat i) (Z.to_nat n1) addr) (f_off x) n1);
        when (0 <? r) (updf f (f_set_off (u32 (f_off x + r))));;
        callfs (iunlock (f_ip x));;
        end_op_;;
        if r <? 0 then mret i
        else if negb (r =? n1) then panic "short filewrite"
        else filewrite_loop fuel f addr (i + r) n
      else mret i
  end.

(** [addr]: the n bytes to write. *)
Definition filewrite (f : nat) (addr : list Z) (n : Z) : S_ Z :=
  x ← getf f;
  if f_writable x =? 0 then mret (-1)
  else
    match f_type x with
    | FD_PIPE =>
        r ← callpipe (f_pipe x) (pipewrite stk addr n);
        match r with
        | WDone r => mret r
        | WSleep _ => blocks "pipewrite: sleep"
        end
    | FD_INODE =>
        i ← filewrite_loop (S (Z.to_nat n)) f addr 0 n;
        mret (if i =? n then n else -1)
    | FD_NONE => panic "filewrite"
    end.

(** * pipealloc *)

(** A page from kalloc is full of ones. *)
Definition new_pipe : pst :=
  mkPst (mkPipe (initlock "pipe" (mkSpinlock 0 EmptyString None [])) (replicate (Z.to_nat PIPESIZE) 1) 0 0 1 1)
    (mkCpu 0 0 0 false) 0 [] false.

(** bad: close what was allocated. *)
Definition pipe_bad (f0 f1 : option nat) : S_ (option (nat * nat)) :=
  match f0 with Some f => fileclose f | None => mret tt end;;
  match f1 with Some f => fileclose f | None => mret tt end;;
  mret None.

Definition pipealloc : S_ (option (nat * nat)) :=
  f0 ← filealloc;
  match f0 with
  | None => pipe_bad None None
  | Some a =>
      f1 ← filealloc;
      match f1 with
      | None => pipe_bad f0 None
      | Some b =>
          pages ← gets spages;
          match pages with
          | O => pipe_bad f0 f1
          | S pages =>
              k ← gets (fun s => length (fpipes s));
              modify (fun s => with_pipes (fpipes s ++ [new_pipe]) pages s);;
              updf a (f_set_pipe 1 0 k);;
              updf b (f_set_pipe 0 1 k);;
              mret (Some (a, b))
          end
      end
  end.

(** * sysfile.c: descriptors *)

(** proc->ofile *)
Definition ofiles : S_ (list (option nat)) := deref "proc->ofile" (fun s => tables s !! scur s).

Definition set_ofile (fd : nat) (f : option nat) : S_ unit :=
  modify (fun s => with_tables (alter (fun t => <[fd := f]> t) (scur s) (tables s)) s).

(** fd and proc->ofile[fd] *)
Definition argfd (n : Z) : S_ (option (nat * nat)) :=
  u ← gets suser;
  t ← ofiles;
  mret (match argint u n with
        | None => None
        | Some fd =>
            if (fd <? 0) || (Z.of_nat NOFILE <=? fd) then None
            else match t !! Z.to_nat fd with
                 | Some (Some f) => Some (Z.to_nat fd, f)
                 | _ => None
                 end
        end).

Definition fdalloc (f : nat) : S_ (option nat) :=
  t ← ofiles;
  match first_such (fun o => match o with None => true | Some _ => false end) t with
  | Some fd => set_ofile fd (Some f);; mret (Some fd)
  | None => mret None
  end.

Definition sys_dup : S_ Z :=
  a ← argfd 0;
  match a with
  | None => mret (-1)
  | Some (_, f) =>
      r ← fdalloc f;
      match r with
      | None => mret (-1)
      | Some fd => filedup f;; mret (Z.of_nat fd)
      end
  end.

Definition store_user (p : Z) (bs : list Z) : S_ unit :=
  modify (fun s => with_umem (write_bytes (u_mem (suser s)) p bs) s).

Definition sys_read : S_ Z :=
  a ← argfd 0;
  u ← gets suser;
  match a, argint u 2 with
  | Some (_, f), Some n =>
      match argptr u 1 n with
      | None => mret (-1)
      | Some p =>
          r ← fileread f n;
          store_user p (snd r);;
          mret (fst r)
      end
  | _, _ => mret (-1)
  end.

Definition sys_write : S_ Z :=
  a ← argfd 0;
  u ← gets suser;
  match a, argint u 2 with
  | Some (_, f), Some n =>
      match argptr u 1 n with
      | None => mret (-1)
      | Some p => filewrite f (bytes_at (u_mem u) p (Z.to_nat n)) n
      end
  | _, _ => mret (-1)
  end.

Definition sys_close : S_ Z :=
  a ← argfd 0;
  match a with
  | None => mret (-1)
  | Some (fd, f) =>
      set_ofile fd None;;
      fileclose f;;
      mret 0
  end.

(** The fields of struct stat, 20 bytes with the padding after the shorts. *)
Definition store_stat (p : Z) (st : stat) : S_ unit :=
  store_user p (le16 (st_type st));;
  store_user (p + 4) (le32 (st_dev st));;
  store_user (p + 8) (le32 (st_ino st));;
  store_user (p + 12) (le16 (st_nlink st));;
  store_user (p + 16) (le32 (st_size st)).

Definition sys_fstat : S_ Z :=
  a ← argfd 0;
  u ← gets suser;
  match a, argptr u 1 20 with
  | Some (_, f), Some p =>
      r ← filestat f;
      match r with
      | None => mret (-1)
      | Some st => store_stat p st;; mret 0
      end
  | _, _ => mret (-1)
  end.

(** The loop of fork: the table of np, empty before, shares the files. *)
Definition fork_ofiles (np : nat) : S_ unit :=
  for_n NOFILE 0 (fun i =>
    t ← ofiles;
    match t !! i with
    | Some (Some f) =>
        f ← filedup f;
        modify (fun s => with_tables (alter (fun t => <[i := Some f]> t) np (tables s)) s)
    | _ => mret tt
    end).

(** The loop of exit. *)
Definition exit_ofiles : S_ unit :=
  for_n NOFILE 0 (fun fd =>
    t ← ofiles;
    match t !! fd with
    | Some (Some f) => fileclose f;; set_ofile fd None
    | _ => mret tt
    end).

End files.
