(* ===== verification/Sysfile.v ===== *)
(** sysfile.c: the calls that change directories and open files.

    name[DIRSIZ] of a caller is an array on its stack; [junk] is what it holds
    before nameiparent fills it.  sys_exec only fetches its arguments here:
    the strings it passes to exec. *)

From S2P Require Import Prelude StringC Codec Spinlock Proc Vm Pipe Sleeplock Blocks Layout Log Fs Sh Syscall File.

Definition MAXARG : nat := 32.
Definition DOTNAME : list Z := [46; 0].
Definition DOTDOT : list Z := [46; 46; 0].

Section sysfile.
Context {T : Type} `{BufLayer T}.
Context (devread : Z -> option (nat -> Z -> M (fss T) (Z * list Z))).
Context (devwrite : Z -> option (nat -> list Z -> Z -> M (fss T) Z)).
Context (stk junk : list Z).

Abbreviation S_ := (M (sst T)).
Abbreviation F := (M (fss T)).
Abbreviation namei := (namei devread).
Abbreviation nameiparent := (nameiparent devread).
Abbreviation dirlookup := (dirlookup devread).
Abbreviation dirlink := (dirlink devread devwrite).
Abbreviation writei := (writei devwrite).

Definition argstr_ (n : Z) : S_ (option (list Z)) := u ← gets suser; mret (argstr u n).
Definition argint_ (n : Z) : S_ (option Z) := u ← gets suser; mret (argint u n).

(** end_op(); return -1; *)
Definition op_fails : S_ Z := end_op_;; mret (-1).

(** bad: of sys_link *)
Definition link_bad (ip : nat) : S_ Z :=
  callfs (
    ilock ip;;
    i ← geti ip;
    updi ip (i_set_nlink (s16 (i_nlink i - 1)));;
    iupdate ip;;
    iunlockput ip);;
  op_fails.

Definition sys_link : S_ Z :=
  old ← argstr_ 0;
  new ← argstr_ 1;
  match old, new with
  | Some old, Some new =>
      begin_op_;;
      r ← callfs (namei old junk);
      match r with
      | None => op_fails
      | Some ip =>
          callfs (ilock ip);;
          i ← callfs (geti ip);
          if i_type i =? T_DIR then callfs (iunlockput ip);; op_fails
          else
            callfs (
              updi ip (i_set_nlink (s16 (i_nlink i + 1)));;
              iupdate ip;;
              iunlock ip);;
            '(r, name) ← callfs (nameiparent new junk);
            match r with
            | None => link_bad ip
            | Some dp =>
                callfs (ilock dp);;
                d ← callfs (geti dp);
                i ← callfs (geti ip);
                ok ← (if negb (i_dev d =? i_dev i) then mret false
                      else r ← callfs (dirlink dp name (i_inum i)); mret (negb (r <? 0)));
                if negb ok then callfs (iunlockput dp);; link_bad ip
                else
                  callfs (iunlockput dp);;
                  callfs (iput ip);;
                  end_op_;;
                  mret 0
            end
      end
  | _, _ => mret (-1)
  end.

(** The loop of isdirempty, [k] entries at most. *)
Fixpoint isdirempty_loop (k dp : nat) (off : Z) : F bool :=
  match k with
  | O => mret true
  | S k =>
      i ← geti dp;
      if off <? i_size i then
        r ← readi devread dp off DE;
        if negb (fst r =? DE) then panic "isdirempty: readi"
        else if negb (de_inum (de_decode (snd r) 0) =? 0) then mret false
        else isdirempty_loop k dp (off + DE)
      else mret true
  end.

Definition isdirempty (dp : nat) : F bool :=
  i ← geti dp;
  isdirempty_loop (entries_of (i_size i)) dp (2 * DE).

Definition unlink_bad (dp : nat) : S_ Z := callfs (iunlockput dp);; op_fails.

Definition sys_unlink : S_ Z :=
  path ← argstr_ 0;
  match path with
  | None => mret (-1)
  | Some path =>
      begin_op_;;
      '(r, name) ← callfs (nameiparent path junk);
      match r with
      | None => op_fails
      | Some dp =>
          callfs (ilock dp);;
          if (namecmp name DOTNAME =? 0) || (namecmp name DOTDOT =? 0) then unlink_bad dp
          else
            r ← callfs (dirlookup dp name);
            match r with
            | None => unlink_bad dp
            | Some (ip, off) =>
                callfs (ilock ip);;
                i ← callfs (geti ip);
                if i_nlink i <? 1 then panic "unlink: nlink < 1"
                else
                  empty ← (if i_type i =? T_DIR then callfs (isdirempty ip) else mret true);
                  if negb empty then callfs (iunlockput ip);; unlink_bad dp
                  else
                    r ← callfs (writei dp (replicate (Z.to_nat DE) 0) off DE);
                    if negb (r =? DE) then panic "unlink: writei"
                    else
                      callfs (
                        when (i_type i =? T_DIR)
                          (d ← geti dp;
                           updi dp (i_set_nlink (s16 (i_nlink d - 1)));;
                           iupdate dp);;
                        iunlockput dp;;
                        i ← geti ip;
                        updi ip (i_set_nlink (s16 (i_nlink i - 1)));;
                        iupdate ip;;
                        iunlockput ip);;
                      end_op_;;
                      mret 0
            end
      end
  end.

(** The inode, locked, or null. *)
Definition create (path : list Z) (type major minor : Z) : F (option nat) :=
  '(r, name) ← nameiparent path junk;
  match r with
  | None => mret None
  | Some dp =>
      ilock dp;;
      r ← dirlookup dp name;
      match r with
      | Some (ip, _) =>
          iunlockput dp;;
          ilock ip;;
          i ← geti ip;
          if (type =? T_FILE) && (i_type i =? T_FILE) then mret (Some ip)
          else iunlockput ip;; mret None
      | None =>
          d ← geti dp;
          ip ← ialloc (i_dev d) type;
          ilock ip;;
          updi ip (fun i => i_set_nlink 1 (i_set_dev (s16 major) (s16 minor) i));;
          iupdate ip;;
          i ← geti ip;
          when (type =? T_DIR)
            (d ← geti dp;
             updi dp (i_set_nlink (s16 (i_nlink d + 1)));;
             iupdate dp;;
             r ← dirlink ip DOTNAME (i_inum i);
             if r <? 0 then panic "create dots"
             else
               r ← dirlink ip DOTDOT (i_inum d);
               when (r <? 0) (panic "create dots"));;
          r ← dirlink dp name (i_inum i);
          if r <? 0 then panic "create: dirlink"
          else iunlockput dp;; mret (Some ip)
      end
  end.

(** The inode sys_open goes on with, locked; otherwise the call has failed. *)
Definition open_inode (path : list Z) (omode : Z) : S_ (option nat) :=
  if negb (Z.land omode O_CREATE =? 0) then callfs (create path T_FILE 0 0)
  else
    r ← callfs (namei path junk);
    match r with
    | None => mret None
    | Some ip =>
        callfs (ilock ip);;
        i ← callfs (geti ip);
        if (i_type i =? T_DIR) && negb (omode =? O_RDONLY) then callfs (iunlockput ip);; mret None
        else mret (Some ip)
    end.

Definition opened (ip : nat) (omode : Z) (f : file) : file :=
  mkFile FD_INODE (f_ref f) (b2z (Z.land omode O_WRONLY =? 0))
    (b2z (negb (Z.land omode O_WRONLY =? 0) || negb (Z.land omode O_RDWR =? 0))) (f_pipe f) ip 0.

Definition sys_open : S_ Z :=
  path ← argstr_ 0;
  omode ← argint_ 1;
  match path, omode with
  | Some path, Some omode =>
      begin_op_;;
      r ← open_inode path omode;
      match r with
      | None => op_fails
      | Some ip =>
          f ← filealloc;
          match f with
          | None => callfs (iunlockput ip);; op_fails
          | Some f =>
              fd ← fdalloc f;
              match fd with
              | None => fileclose stk f;; callfs (iunlockput ip);; op_fails
              | Some fd =>
                  callfs (iunlock ip);;
                  end_op_;;
                  updf f (opened ip omode);;
                  mret (Z.of_nat fd)
              end
          end
      end
  | _, _ => mret (-1)
  end.

(** if(... || (ip = create(...)) == 0), after begin_op. *)
Definition make (path : option (list Z)) (type major minor : Z) : S_ Z :=
  match path with
  | None => op_fails
  | Some path =>
      r ← callfs (create path type major minor);
      match r with
      | None => op_fails
      | Some ip => callfs (iunlockput ip);; end_op_;; mret 0
      end
  end.

Definition sys_mkdir : S_ Z :=
  begin_op_;;
  path ← argstr_ 0;
  make path T_DIR 0 0.

Definition sys_mknod : S_ Z :=
  begin_op_;;
  path ← argstr_ 0;
  major ← argint_ 1;
  minor ← argint_ 2;
  match major, minor with
  | Some major, Some minor => make path T_DEV major minor
  | _, _ => op_fails
  end.

Definition sys_chdir : S_ Z :=
  begin_op_;;
  path ← argstr_ 0;
  match path with
  | None => op_fails
  | Some path =>
      r ← callfs (namei path junk);
      match r with
      | None => op_fails
      | Some ip =>
          callfs (ilock ip);;
          i ← callfs (geti ip);
          if negb (i_type i =? T_DIR) then callfs (iunlockput ip);; op_fails
          else
            callfs (iunlock ip);;
            cwd ← callfs (gets fcwd);
            callfs (iput cwd);;
            end_op_;;
            callfs (modify (with_cwd ip));;
            mret 0
      end
  end.

(** The loop of sys_exec: the strings of argv from index i on; [k] = MAXARG - i. *)
Fixpoint exec_args (k : nat) (u : uproc) (uargv i : Z) : option (list (list Z)) :=
  match k with
  | O => None
  | S k =>
      match fetchint u (u32 (uargv + 4 * i)) with
      | None => None
      | Some uarg =>
          if uarg =? 0 then Some []
          else
            match fetchstr u (u32 uarg) with
            | None => None
            | Some s => (s ::.) <$> exec_args k u uargv (i + 1)
            end
      end
  end.

(** [exec]: exec.c.  -1 without a call of it on a bad argument. *)
Definition sys_exec (exec : list Z -> list (list Z) -> S_ Z) : S_ Z :=
  path ← argstr_ 0;
  uargv ← argint_ 1;
  match path, uargv with
  | Some path, Some uargv =>
      u ← gets suser;
      match exec_args MAXARG u (u32 uargv) 0 with
      | None => mret (-1)
      | Some argv => exec path argv
      end
  | _, _ => mret (-1)
  end.

Definition sys_pipe : S_ Z :=
  u ← gets suser;
  match argptr u 0 8 with
  | None => mret (-1)
  | Some p =>
      r ← pipealloc stk;
      match r with
      | None => mret (-1)
      | Some (rf, wf) =>
          fd0 ← fdalloc rf;
          match fd0 with
          | None => fileclose stk rf;; fileclose stk wf;; mret (-1)
          | Some fd0 =>
              fd1 ← fdalloc wf;
              match fd1 with
              | None =>
                  set_ofile fd0 None;;
                  fileclose stk rf;;
                  fileclose stk wf;;
                  mret (-1)
              | Some fd1 =>
                  store_user p (le32 (Z.of_nat fd0));;
                  store_user (p + 4) (le32 (Z.of_nat fd1));;
                  mret 0
              end
          end
      end
  end.

End sysfile.
