(* ===== verification/FileProps.v ===== *)
(** The table of open files counts its users.

    The invariant ties the reference count of every open file to the
    descriptors of all processes that name it, and the two flags of every pipe
    to the open files on its ends.  It is proved for every call of sysfile.c
    and for the loops of fork and exit over the descriptors, whatever the file
    system below does. *)

From S2P Require Import Prelude Hoare StringC Codec Spinlock Proc Vm Pipe Sleeplock Blocks Bio Layout Log Fs FsProps Sh Syscall File Sysfile.

(** * Counting *)

Fixpoint countb {A} (test : A -> bool) (l : list A) : Z :=
  match l with
  | [] => 0
  | x :: l => b2z (test x) + countb test l
  end.

Definition points (f : nat) (o : option nat) : bool := bool_decide (o = Some f).

(** How many descriptors of all processes are the file [f]. *)
Definition total (f : nat) (ts : list (list (option nat))) : Z := countb (points f) (concat ts).

(** The file is the write (read) end of the pipe [k]. *)
Definition is_end (k : nat) (w : bool) (x : file) : bool :=
  match f_type x with
  | FD_PIPE => (f_pipe x =? k)%nat && Bool.eqb w (negb (f_writable x =? 0))
  | _ => false
  end.

Lemma b2z_bounds b : 0 <= b2z b <= 1.
Proof. destruct b; simpl; lia. Qed.

Lemma countb_nonneg {A} (test : A -> bool) l : 0 <= countb test l.
Proof. induction l as [|x l IH]; simpl; [done|]. pose proof (b2z_bounds (test x)). lia. Qed.

Lemma countb_app {A} (test : A -> bool) l l' : countb test (l ++ l') = countb test l + countb test l'.
Proof. induction l as [|x l IH]; simpl; lia. Qed.

Lemma countb_insert {A} (test : A -> bool) l i x y :
  l !! i = Some x -> countb test (<[i := y]> l) = countb test l - b2z (test x) + b2z (test y).
Proof.
  revert i. induction l as [|z l IH]; intros [|i] Hi; simplify_eq/=; [lia|]. rewrite IH by done. lia.
Qed.

Lemma countb_pos {A} (test : A -> bool) l i x : l !! i = Some x -> test x = true -> 1 <= countb test l.
Proof.
  revert i. induction l as [|z l IH]; intros [|i] Hi Hx; simplify_eq/=.
  - rewrite Hx. simpl. pose proof (countb_nonneg test l). lia.
  - specialize (IH _ Hi Hx). pose proof (b2z_bounds (test z)). lia.
Qed.

Lemma countb_zero {A} (test : A -> bool) l :
  (forall i x, l !! i = Some x -> test x = false) -> countb test l = 0.
Proof.
  induction l as [|z l IH]; intros Hl; [done|]. simpl. rewrite (Hl 0%nat z) by done.
  rewrite IH; [done|]. intros i x. apply (Hl (S i)).
Qed.

Lemma total_nonneg f ts : 0 <= total f ts.
Proof. apply countb_nonneg. Qed.

Lemma total_row f ts p t t' :
  ts !! p = Some t -> total f (<[p := t']> ts) = total f ts - countb (points f) t + countb (points f) t'.
Proof.
  unfold total. revert p. induction ts as [|u ts IH]; intros [|p] Hp; simplify_eq/=.
  - rewrite !countb_app. lia.
  - rewrite !countb_app, (IH _ Hp). lia.
Qed.

Lemma total_insert f ts p t i o o' :
  ts !! p = Some t -> t !! i = Some o ->
  total f (<[p := <[i := o']> t]> ts) = total f ts - b2z (points f o) + b2z (points f o').
Proof.
  intros Hp Hi. rewrite (total_row _ _ _ _ _ Hp), (countb_insert _ _ _ _ _ Hi). lia.
Qed.

Lemma total_pos f ts p t i : ts !! p = Some t -> t !! i = Some (Some f) -> 1 <= total f ts.
Proof.
  intros Hp Hi. pose proof (total_insert f ts p t i (Some f) None Hp Hi) as H.
  pose proof (total_nonneg f (<[p := <[i := None]> t]> ts)) as Hn. rewrite H in Hn.
  unfold points in Hn. rewrite bool_decide_true in Hn by done. simpl in Hn. lia.
Qed.

Lemma points_Some g f : b2z (points g (Some f)) = if decide (g = f) then 1 else 0.
Proof.
  unfold points. destruct (decide (g = f)) as [->|Hne].
  - by rewrite bool_decide_true.
  - rewrite bool_decide_false; [done|]. congruence.
Qed.

Lemma points_None g : b2z (points g None) = 0.
Proof. done. Qed.

Lemma first_such_lookup {A} (test : A -> bool) l i :
  first_such test l = Some i -> exists x, l !! i = Some x /\ test x = true.
Proof.
  revert i. induction l as [|a l IH]; intros i Hi; [done|]. simpl in Hi. destruct (test a) eqn:E.
  - injection Hi as <-. by exists a.
  - destruct (first_such test l) as [j|] eqn:Ej; [|done]. injection Hi as <-. simpl. by apply IH.
Qed.

(** * The invariant *)

Definition pipe_good (p : pst) : Prop :=
  pquiet p /\ Pipe.pipe_ok (pp p) /\ 0 <= readopen (pp p) <= 1 /\ 0 <= writeopen (pp p) <= 1 /\
  pfreed p = (readopen (pp p) =? 0) && (writeopen (pp p) =? 0).

(** The flags of the pipe [k] are the numbers of open files on its ends. *)
Definition ends_ok (ft : list file) (k : nat) (p : pst) : Prop :=
  pipe_good p /\
  readopen (pp p) = countb (is_end k false) ft /\ writeopen (pp p) = countb (is_end k true) ft.

(** [h f]: references to [f] that no descriptor accounts for; [raw]: the files
    allocated and not yet given a type.  Both are empty between calls. *)
Record finv {T} (h : nat -> Z) (raw : list nat) (s : sst T) : Prop := {
  fi_cur : is_Some (tables s !! scur s);
  fi_len : forall p t, tables s !! p = Some t -> length t = NOFILE;
  fi_refs : forall f x, ftable s !! f = Some x -> f_ref x = total f (tables s) + h f;
  fi_desc : forall f, ftable s !! f = None -> total f (tables s) + h f = 0;
  fi_free : forall f x, ftable s !! f = Some x -> f_ref x = 0 -> f_type x = FD_NONE;
  fi_type : forall f x, ftable s !! f = Some x -> f_ref x <> 0 -> f_type x = FD_NONE <-> f ∈ raw;
  fi_pipe : forall f x, ftable s !! f = Some x -> f_type x = FD_PIPE -> (f_pipe x < length (fpipes s))%nat;
  fi_ends : forall k p, fpipes s !! k = Some p -> ends_ok (ftable s) k p }.

Definition files_ok {T} (s : sst T) : Prop := finv (fun _ => 0) [] s.

Definition plus1 (h : nat -> Z) (f g : nat) : Z := h g + (if decide (g = f) then 1 else 0).
Definition minus1 (h : nat -> Z) (f g : nat) : Z := h g - (if decide (g = f) then 1 else 0).

Section inv.
Context {T : Type}.
Implicit Types (s : sst T) (h : nat -> Z) (raw : list nat).

Lemma finv_ext h h' raw raw' s :
  finv h raw s -> (forall f, h' f = h f) ->
  (forall f x, ftable s !! f = Some x -> f_ref x <> 0 -> f ∈ raw' <-> f ∈ raw) -> finv h' raw' s.
Proof.
  intros [H1 Hlen H2 H3 H4 H5 H6 H7] Hh Hr. split; try done.
  - intros f x. rewrite Hh. apply H2.
  - intros f. rewrite Hh. apply H3.
  - intros f x Hf Hx. rewrite (H5 f x Hf Hx). symmetry. by eapply Hr.
Qed.

(** The invariant is about the tables and the pipes. *)
Lemma finv_same h raw s (t : sst T) :
  finv h raw s -> ftable t = ftable s -> fpipes t = fpipes s -> tables t = tables s ->
  is_Some (tables t !! scur t) -> finv h raw t.
Proof. intros [H1 Hlen H2 H3 H4 H5 H6 H7] E1 E2 E3 Hc. split; rewrite ?E1, ?E2, ?E3; by rewrite ?E3 in Hc. Qed.

(** One entry of the table changes, and with it the pipes. *)
Lemma finv_set_pipes h h' raw raw' s f x y ps n :
  finv h raw s -> ftable s !! f = Some x ->
  (forall g, h' g = h g + (if decide (g = f) then f_ref y - f_ref x else 0)) ->
  (f_ref y = 0 -> f_type y = FD_NONE) ->
  (f_ref y <> 0 -> f_type y = FD_NONE <-> f ∈ raw') ->
  (forall g, g <> f -> g ∈ raw' <-> g ∈ raw) ->
  (length (fpipes s) <= length ps)%nat ->
  (f_type y = FD_PIPE -> (f_pipe y < length ps)%nat) ->
  (forall k p, ps !! k = Some p -> ends_ok (<[f := y]> (ftable s)) k p) ->
  finv h' raw' (with_pipes ps n (with_ftable (<[f := y]> (ftable s)) s)).
Proof.
  intros [H1 Hlen H2 H3 H4 H5 H6 H7] Hx Hh Hfree Htype Hraw Hlenp Hpipe Hends.
  pose proof (lookup_lt_Some _ _ _ Hx) as Hlt.
  assert (forall g z, <[f := y]> (ftable s) !! g = Some z ->
    g = f /\ z = y \/ g <> f /\ ftable s !! g = Some z) as Hl.
  { intros g z. rewrite list_lookup_insert_dec. case_decide as Hg.
    - intros [= <-]. left. by destruct Hg.
    - intros Hz. right. split; [|done]. intros ->. by apply Hg. }
  split; simpl; try done.
  - intros g z Hz. rewrite Hh. apply Hl in Hz as [[-> ->]|[Hne Hz]].
    + rewrite decide_True, (H2 f x Hx) by done. lia.
    + rewrite decide_False, (H2 g z Hz) by done. lia.
  - intros g. rewrite list_lookup_insert_dec. case_decide; [done|]. intros Hg.
    rewrite Hh, decide_False, Z.add_0_r; [by apply H3|]. intros ->. congruence.
  - intros g z Hz. apply Hl in Hz as [[-> ->]|[Hne Hz]]; [done|]. by apply (H4 g).
  - intros g z Hz Hr. apply Hl in Hz as [[-> ->]|[Hne Hz]]; [by apply Htype|].
    rewrite Hraw by done. by eapply H5.
  - intros g z Hz Ht. apply Hl in Hz as [[-> ->]|[Hne Hz]]; [by apply Hpipe|]. specialize (H6 g z Hz Ht). lia.
Qed.

Lemma ends_insert ft f x y k p :
  ft !! f = Some x -> (forall w, is_end k w y = is_end k w x) -> ends_ok ft k p -> ends_ok (<[f := y]> ft) k p.
Proof.
  intros Hx He (Hp & Hr & Hw). unfold ends_ok. rewrite !(countb_insert _ _ _ _ _ Hx), !He, Hr, Hw.
  split; [done|]. lia.
Qed.

(** One entry changes and stays what it is to the pipes. *)
Lemma finv_set h h' raw raw' s f x y :
  finv h raw s -> ftable s !! f = Some x ->
  (forall g, h' g = h g + (if decide (g = f) then f_ref y - f_ref x else 0)) ->
  (f_ref y = 0 -> f_type y = FD_NONE) ->
  (f_ref y <> 0 -> f_type y = FD_NONE <-> f ∈ raw') ->
  (forall g, g <> f -> g ∈ raw' <-> g ∈ raw) ->
  (f_type y = FD_PIPE -> (f_pipe y < length (fpipes s))%nat) ->
  (forall k w, is_end k w y = is_end k w x) ->
  finv h' raw' (with_ftable (<[f := y]> (ftable s)) s).
Proof.
  intros Hi Hx Hh H1 H2 H3 H4 He.
  apply (finv_same _ _ (with_pipes (fpipes s) (spages s) (with_ftable (<[f := y]> (ftable s)) s))); try done.
  - eapply (finv_set_pipes h); try done. intros k p Hk. apply (ends_insert _ _ x); [done..|]. by apply Hi.
  - apply Hi.
Qed.

(** A descriptor changes. *)
Lemma finv_ofile h h' raw s (p : nat) (t : list (option nat)) (fd : nat) o o' :
  finv h raw s -> tables s !! p = Some t -> t !! fd = Some o ->
  (forall g, h' g = h g + b2z (points g o) - b2z (points g o')) ->
  finv h' raw (with_tables (<[p := <[fd := o']> t]> (tables s)) s).
Proof.
  intros [H1 Hlen H2 H3 H4 H5 H6 H7] Hp Ht Hh. split; simpl; try done.
  - rewrite list_lookup_insert_dec. by case_decide.
  - intros q u. rewrite list_lookup_insert_dec. case_decide as Hq; [|apply Hlen].
    intros [= <-]. rewrite length_insert. by apply (Hlen p).
  - intros f x Hx. rewrite (total_insert _ _ _ _ _ _ _ Hp Ht), (H2 f x Hx), Hh. lia.
  - intros f Hf. rewrite (total_insert _ _ _ _ _ _ _ Hp Ht), Hh. specialize (H3 f Hf). lia.
Qed.

(** A descriptor names an open file, and an end of a pipe that is there. *)
Lemma finv_live h raw s (p : nat) (t : list (option nat)) (fd : nat) f :
  finv h raw s -> h f = 0 -> tables s !! p = Some t -> t !! fd = Some (Some f) ->
  exists x, ftable s !! f = Some x /\ 1 <= f_ref x.
Proof.
  intros Hi Hh Hp Ht. pose proof (total_pos _ _ _ _ _ Hp Ht). destruct (ftable s !! f) as [x|] eqn:Hx.
  - exists x. split; [done|]. rewrite (fi_refs _ _ _ Hi f x Hx). lia.
  - pose proof (fi_desc _ _ _ Hi f Hx). lia.
Qed.

Lemma finv_pipe_open h raw s f x :
  finv h raw s -> ftable s !! f = Some x -> f_type x = FD_PIPE ->
  exists p, fpipes s !! f_pipe x = Some p /\ pfreed p = false /\ ends_ok (ftable s) (f_pipe x) p /\
    (if f_writable x =? 0 then readopen (pp p) else writeopen (pp p)) = 1.
Proof.
  intros Hi Hx Ht. destruct (lookup_lt_is_Some_2 _ _ (fi_pipe _ _ _ Hi f x Hx Ht)) as [p Hp].
  exists p. split; [done|]. pose proof (fi_ends _ _ _ Hi _ _ Hp) as He.
  pose proof He as ((Hq & Hok & Hr & Hw & Hf) & Er & Ew).
  assert (1 <= countb (is_end (f_pipe x) (negb (f_writable x =? 0))) (ftable s)) as Hc.
  { apply (countb_pos _ _ f x Hx). unfold is_end. by rewrite Ht, Nat.eqb_refl, Bool.eqb_reflx. }
  split; [|split; [done|]].
  - rewrite Hf. destruct (f_writable x =? 0); simpl in Hc.
    + rewrite (proj2 (Z.eqb_neq (readopen _) 0)) by lia. done.
    + rewrite (proj2 (Z.eqb_neq (writeopen _) 0)), andb_false_r by lia. done.
  - destruct (f_writable x =? 0); simpl in Hc; lia.
Qed.

End inv.

#[local] Set Default Proof Using "Type".

(** * The operations *)

Section ops.
Context {T : Type} `{BufLayer T}.
Context (devread : Z -> option (nat -> Z -> M (fss T) (Z * list Z))).
Context (devwrite : Z -> option (nat -> list Z -> Z -> M (fss T) Z)).
Context (stk junk : list Z).
Implicit Types (s : sst T) (h : nat -> Z) (raw : list nat).

Lemma finv_sfs h raw s x : finv h raw s -> finv h raw (with_sfs x s).
Proof. intros Hi. apply (finv_same _ _ s); try done. apply Hi. Qed.

Lemma post_callfs {A} (m : M (fss T) A) s Q : (forall a x, Q a (with_sfs x s)) -> post (callfs m) s Q.
Proof. intros HQ a t. unfold callfs. destruct (m (sfs s)) as [[b x]| | |]; try done. by intros [= <- <-]. Qed.

Lemma keeps_callfs {A} h raw (m : M (fss T) A) : keeps (finv (T := T) h raw) (callfs m).
Proof. apply keeps_post. intros s Hi. apply post_callfs. intros _ x. by apply finv_sfs. Qed.

Lemma keeps_begin_op h raw : keeps (finv (T := T) h raw) begin_op_.
Proof. apply keeps_callfs. Qed.

Lemma keeps_end_op h raw : keeps (finv (T := T) h raw) end_op_.
Proof. apply keeps_callfs. Qed.

Lemma keeps_store_user h raw p bs : keeps (finv (T := T) h raw) (store_user p bs).
Proof. apply keeps_post. intros s Hi. apply post_modify. apply (finv_same _ _ s); try done. apply Hi. Qed.

(** A change of an open file that keeps its count and its kind. *)
Lemma keeps_updf h raw f g :
  (forall x, f_ref (g x) = f_ref x /\ f_type (g x) = f_type x /\ f_pipe (g x) = f_pipe x /\
     f_writable (g x) = f_writable x) ->
  keeps (finv (T := T) h raw) (updf f g).
Proof.
  intros Hg. apply keeps_post. intros s Hi. apply post_modify. destruct (ftable s !! f) as [x|] eqn:Hx.
  - rewrite (alter_insert _ _ _ x Hx). destruct (Hg x) as (E1 & E2 & E3 & E4).
    apply (finv_set h h raw raw s f x (g x) Hi Hx); rewrite ?E1, ?E2, ?E3; try done; try by apply Hi.
    + intros g'. destruct (decide (g' = f)); lia.
    + by apply (fi_free _ _ _ Hi f).
    + by apply (fi_pipe _ _ _ Hi f).
    + intros k w. unfold is_end. by rewrite E2, E3, E4.
  - rewrite alter_stray by done. by apply (finv_same _ _ s); try apply Hi.
Qed.

Lemma filealloc_spec h raw s :
  finv h raw s ->
  (filealloc s = Ok (None, s) /\ first_such (fun f => f_ref f =? 0) (ftable s) = None) \/
  exists f x, ftable s !! f = Some x /\ f_ref x = 0 /\ f_type x = FD_NONE /\
    filealloc s = Ok (Some f, with_ftable (<[f := f_set_ref 1 x]> (ftable s)) s) /\
    finv (plus1 h f) (f :: raw) (with_ftable (<[f := f_set_ref 1 x]> (ftable s)) s).
Proof.
  intros Hi. unfold filealloc. erewrite bind_Ok by reflexivity.
  destruct (first_such _ _) as [f|] eqn:E; [right|by left].
  apply first_such_lookup in E as (x & Hx & Hr). apply Z.eqb_eq in Hr.
  assert (f_type x = FD_NONE) as Ht by by apply (fi_free _ _ _ Hi f).
  exists f, x. split_and!; try done.
  - unfold updf. erewrite bind_Ok by reflexivity. by rewrite (alter_insert _ _ _ x Hx).
  - eapply finv_set; try done; simpl; try by rewrite Ht.
    + intros g. unfold plus1. rewrite Hr. destruct (decide (g = f)); lia.
    + intros _. rewrite elem_of_cons. tauto.
    + intros g Hg. rewrite elem_of_cons. tauto.
Qed.

Lemma fdalloc_spec h raw s f :
  finv h raw s ->
  fdalloc f s = Ok (None, s) \/
  exists t fd, tables s !! scur s = Some t /\ t !! fd = Some None /\
    fdalloc f s = Ok (Some fd, with_tables (<[scur s := <[fd := Some f]> t]> (tables s)) s) /\
    finv (minus1 h f) raw (with_tables (<[scur s := <[fd := Some f]> t]> (tables s)) s).
Proof.
  intros Hi. destruct (fi_cur _ _ _ Hi) as [t Ht]. unfold fdalloc.
  erewrite bind_Ok by by apply deref_Some. destruct (first_such _ t) as [fd|] eqn:E; [right|by left].
  apply first_such_lookup in E as (o & Ho & Hn). destruct o; [done|]. exists t, fd. split_and!; try done.
  - unfold set_ofile. erewrite bind_Ok by reflexivity. by rewrite (alter_insert _ _ _ t Ht).
  - eapply finv_ofile; try done. intros g. rewrite points_None, points_Some. unfold minus1. lia.
Qed.

Lemma filedup_spec h raw s f x :
  finv h raw s -> ftable s !! f = Some x -> 1 <= f_ref x ->
  filedup f s = Ok (f, with_ftable (<[f := f_set_ref (f_ref x + 1) x]> (ftable s)) s) /\
  finv (plus1 h f) raw (with_ftable (<[f := f_set_ref (f_ref x + 1) x]> (ftable s)) s).
Proof.
  intros Hi Hx Hr. split.
  - unfold filedup, getf. erewrite bind_Ok by by apply deref_Some.
    rewrite (proj2 (Z.ltb_ge _ _)) by lia. unfold updf. erewrite bind_Ok by reflexivity.
    by rewrite (alter_insert _ _ _ x Hx).
  - eapply finv_set; try done; simpl.
    + intros g. unfold plus1. destruct (decide (g = f)); lia.
    + lia.
    + intros _. apply (fi_type _ _ _ Hi f); [done|lia].
    + by apply (fi_pipe _ _ _ Hi f).
Qed.

(** The entry closed for the last time; a pipe loses that end. *)
Lemma ends_close ft f x k p p' l :
  ft !! f = Some x -> f_type x = FD_PIPE -> f_pipe x = k -> ends_ok ft k p -> pquiet p' ->
  (if f_writable x =? 0 then readopen (pp p) else writeopen (pp p)) = 1 ->
  pp p' = with_plock l ((if f_writable x =? 0 then with_readopen 0 else with_writeopen 0) (pp p)) ->
  pfreed p' = (readopen (pp p') =? 0) && (writeopen (pp p') =? 0) ->
  ends_ok (<[f := f_set_type FD_NONE (f_set_ref 0 x)]> ft) k p'.
Proof.
  intros Hx Ht Hk ((_ & Hok & Hr & Hw & _) & Er & Ew) Hq H1 Hp Hf.
  assert (forall w, b2z (is_end k w x) = b2z (Bool.eqb w (negb (f_writable x =? 0)))) as He
    by (intros w; unfold is_end; by rewrite Ht, Hk, Nat.eqb_refl).
  unfold ends_ok, pipe_good. rewrite !(countb_insert _ _ _ _ _ Hx), !He, <- Er, <- Ew. rewrite Hf.
  rewrite Hp in *. destruct (f_writable x =? 0); simpl in *;
    (split; [split_and!; try done; try lia; by destruct Hok|lia]).
Qed.

Lemma ends_other ft f x k p :
  ft !! f = Some x -> f_type x = FD_PIPE -> f_pipe x <> k -> ends_ok ft k p ->
  ends_ok (<[f := f_set_type FD_NONE (f_set_ref 0 x)]> ft) k p.
Proof.
  intros Hx Ht Hk. apply (ends_insert _ _ x); [done|]. intros w. unfold is_end. rewrite Ht. simpl.
  by rewrite (proj2 (Nat.eqb_neq _ _) Hk).
Qed.

(** What a call leaves alone besides. *)
Definition same_proc (s t : sst T) : Prop :=
  tables t = tables s /\ scur t = scur s /\ suser t = suser s.

Lemma fileclose_pipe h raw s f x :
  finv h raw s -> ftable s !! f = Some x -> f_ref x = 1 -> f_type x = FD_PIPE ->
  exists t, fileclose stk f s = Ok (tt, t) /\ finv (minus1 h f) raw t /\ same_proc s t.
Proof.
  intros Hi Hx Hr Ht.
  destruct (finv_pipe_open h raw s f x Hi Hx Ht) as (p & Hp & Hf & Hends & H1).
  destruct (pipeclose_closes stk (f_writable x) p) as (p' & l & Hc & Hq & Hpp & _ & _ & Hf'); [apply Hends|done|].
  set (y := f_set_type FD_NONE (f_set_ref 0 x)).
  exists (with_pipes (<[f_pipe x := p']> (fpipes s))
    (if pfreed p' && negb (pfreed p) then S (spages s) else spages s)
    (with_ftable (<[f := y]> (ftable s)) s)).
  split; [|split; [|done]].
  - unfold fileclose, getf. erewrite bind_Ok by by apply deref_Some. rewrite Hr. simpl.
    unfold updf. erewrite bind_Ok by reflexivity. rewrite (alter_insert _ _ _ x Hx), Ht.
    unfold callpipe. simpl. by rewrite Hp, Hc.
  - apply (finv_set_pipes h _ raw _ s f x y); try done.
    + intros g. unfold minus1. simpl. rewrite Hr. destruct (decide (g = f)); lia.
    + rewrite length_insert. lia.
    + intros k q. rewrite list_lookup_insert_dec. case_decide as Hk.
      * intros [= <-]. destruct Hk as [<- _]. by eapply ends_close.
      * intros Hq'. apply ends_other; [done..| |by apply (fi_ends _ _ _ Hi)].
        intros <-. apply Hk. split; [done|]. by apply (fi_pipe _ _ _ Hi f).
Qed.

Lemma fileclose_shared h raw s f x :
  finv h raw s -> ftable s !! f = Some x -> 1 < f_ref x \/ f_ref x = 1 /\ f_type x = FD_NONE ->
  exists t, fileclose stk f s = Ok (tt, t) /\ finv (minus1 h f) raw t /\ same_proc s t.
Proof.
  intros Hi Hx Hr. unfold fileclose, getf. erewrite bind_Ok by by apply deref_Some.
  rewrite (proj2 (Z.ltb_ge (f_ref x) 1)) by lia. unfold updf. destruct (Z.ltb_spec 0 (f_ref x - 1)).
  - eexists. split; [reflexivity|]. split; [|done]. rewrite (alter_insert _ _ _ x Hx).
    apply (finv_set h _ raw _ s f x); try done; simpl.
    + intros g. unfold minus1. destruct (decide (g = f)); lia.
    + lia.
    + intros _. apply (fi_type _ _ _ Hi f); [done|lia].
    + by apply (fi_pipe _ _ _ Hi f).
  - destruct Hr as [Hr|[Hr Ht]]; [lia|]. rewrite Ht. erewrite bind_Ok by reflexivity.
    eexists. split; [reflexivity|]. split; [|done]. rewrite (alter_insert _ _ _ x Hx).
    apply (finv_set h _ raw _ s f x); try done; simpl.
    + intros g. unfold minus1. destruct (decide (g = f)); lia.
    + intros k w. unfold is_end. by rewrite Ht.
Qed.

Lemma post_fileclose h raw s f x :
  finv h raw s -> ftable s !! f = Some x -> 1 <= f_ref x ->
  post (fileclose stk f) s (fun _ t => finv (minus1 h f) raw t /\ same_proc s t).
Proof.
  intros Hi Hx Hr. assert (1 < f_ref x \/ f_ref x = 1) as [H1|H1] by lia.
  { apply post_wp. destruct (fileclose_shared h raw s f x) as (t & Ht & Ht'); [done..|by left|]. by exists tt, t. }
  destruct (f_type x) eqn:Ht.
  - apply post_wp. destruct (fileclose_shared h raw s f x) as (t & Hc & Ht'); [done..|by right|]. by exists tt, t.
  - apply post_wp. destruct (fileclose_pipe h raw s f x) as (t & Hc & Ht'); [done..|]. by exists tt, t.
  - unfold fileclose, getf. apply post_bind, post_deref. intros y Hy. assert (y = x) as -> by congruence.
    rewrite H1. simpl. apply post_bind, post_modify. rewrite Ht, (alter_insert _ _ _ x Hx).
    apply post_bind, post_callfs. intros _ x1. apply post_bind, post_callfs. intros _ x2. apply post_callfs.
    intros _ x3. split; [|done]. do 3 apply finv_sfs. apply (finv_set h _ raw _ s f x); try done; simpl.
    + intros g. unfold minus1. destruct (decide (g = f)); lia.
    + intros k w. unfold is_end. by rewrite Ht.
Qed.

(** A pipe is read or written: its ends stay as they are. *)
Lemma post_callpipe {A} h raw s k (m : M pst A) (done_ : A -> Prop) :
  finv h raw s ->
  (forall p, pipe_good p -> post m p (fun r q => done_ r -> pipe_good q /\
     readopen (pp q) = readopen (pp p) /\ writeopen (pp q) = writeopen (pp p) /\ pfreed q = pfreed p)) ->
  post (callpipe k m) s (fun r t => done_ r -> finv h raw t).
Proof.
  intros Hi Hm r t. unfold callpipe. destruct (fpipes s !! k) as [p|] eqn:Hp; [|done].
  pose proof (fi_ends _ _ _ Hi k p Hp) as (Hg & Er & Ew).
  destruct (m p) as [[a q]| | |] eqn:Hrun; try done. intros [= -> <-] Hd.
  destruct (Hm p Hg r q Hrun Hd) as (Hgq & E1 & E2 & E3). rewrite E3, andb_negb_r.
  destruct Hi as [H1 Hlen H2 H3 H4 H5 H6 H7]. split; try done; simpl.
  - by rewrite length_insert.
  - intros k' q'. rewrite list_lookup_insert_dec. case_decide as Hk; [|apply H7].
    intros [= <-]. destruct Hk as [<- _]. unfold ends_ok. by rewrite E1, E2.
Qed.

Lemma piperead_keeps n p :
  pipe_good p -> post (piperead stk n) p (fun r q => r <> RSleep -> pipe_good q /\
     readopen (pp q) = readopen (pp p) /\ writeopen (pp q) = writeopen (pp p) /\ pfreed q = pfreed p).
Proof.
  intros (Hq & Hok & Hr & Hw & Hf). apply post_wp, wp_piperead; [done..|].
  intros r t Hokt E1 E2 _ E4 Hcase Hne. unfold pipe_good. rewrite E1, E2, E4. split_and!; try done; try lia.
  all: repeat case_match; destruct_and?; simplify_eq; done.
Qed.

Lemma pipewrite_keeps addr n p :
  pipe_good p -> post (pipewrite stk addr n) p (fun r q => (exists v, r = WDone v) -> pipe_good q /\
     readopen (pp q) = readopen (pp p) /\ writeopen (pp q) = writeopen (pp p) /\ pfreed q = pfreed p).
Proof.
  intros (Hq & Hok & Hr & Hw & Hf). apply post_wp, wp_pipewrite; [done..|].
  intros r t Hokt _ E1 E2 _ E4 Hcase [v ->]. unfold pipe_good. rewrite E1, E2, E4. split_and!; try done; try lia.
  all: repeat case_match; destruct_and?; simplify_eq; done.
Qed.

Lemma keeps_set_off h raw f o : keeps (finv (T := T) h raw) (updf f (f_set_off o)).
Proof. by apply keeps_updf. Qed.

#[local] Hint Resolve keeps_callfs keeps_begin_op keeps_end_op keeps_store_user keeps_set_off : keeps.

Lemma keeps_fileread h raw f n : keeps (finv h raw) (fileread devread stk f n).
Proof.
  unfold fileread, getf. apply keeps_bind; [eauto with keeps|]. intros x.
  destruct (f_readable x =? 0); [eauto with keeps|]. destruct (f_type x); [keeps_walk| |keeps_walk].
  apply keeps_post. intros s Hi. apply post_bind. eapply post_mono.
  { eapply (post_callpipe h raw s _ _ (fun r => r <> RSleep)); [done|]. intros p. apply piperead_keeps. }
  intros r t Ht. destruct r; [apply post_ret, Ht; done..|apply post_blocks].
Qed.

Lemma keeps_filewrite_loop h raw fuel f addr i n : keeps (finv h raw) (filewrite_loop devwrite fuel f addr i n).
Proof.
  revert i. induction fuel as [|fuel IH]; intros i; cbn [filewrite_loop]; [eauto with keeps|].
  unfold getf. keeps_walk.
Qed.

Lemma keeps_filewrite h raw f addr n : keeps (finv h raw) (filewrite devwrite stk f addr n).
Proof.
  unfold filewrite, getf. apply keeps_bind; [eauto with keeps|]. intros x.
  destruct (f_writable x =? 0); [eauto with keeps|].
  destruct (f_type x); [keeps_walk| |pose proof keeps_filewrite_loop; keeps_walk].
  apply keeps_post. intros s Hi. apply post_bind. eapply post_mono.
  { eapply (post_callpipe h raw s _ _ (fun r => exists v, r = WDone v)); [done|]. intros p. apply pipewrite_keeps. }
  intros r t Ht. destruct r; [apply post_ret, Ht; eauto|apply post_blocks].
Qed.

(** ** The calls that leave the table as it is *)

#[local] Hint Resolve keeps_fileread keeps_filewrite : keeps.

Lemma keeps_argfd h raw n : keeps (finv (T := T) h raw) (argfd n).
Proof. unfold argfd, ofiles. keeps_walk. Qed.

#[local] Hint Resolve keeps_argfd : keeps.

Lemma keeps_sys_read h raw : keeps (finv h raw) (sys_read devread stk).
Proof. unfold sys_read. keeps_walk. Qed.

Lemma keeps_sys_write h raw : keeps (finv h raw) (sys_write devwrite stk).
Proof. unfold sys_write. keeps_walk. Qed.

Lemma keeps_sys_fstat h raw : keeps (finv h raw) sys_fstat.
Proof. unfold sys_fstat, filestat, getf, store_stat. keeps_walk. Qed.

Lemma keeps_link_bad h raw ip : keeps (finv h raw) (link_bad ip).
Proof. unfold link_bad, op_fails. keeps_walk. Qed.

Lemma keeps_unlink_bad h raw dp : keeps (finv h raw) (unlink_bad dp).
Proof. unfold unlink_bad, op_fails. keeps_walk. Qed.

Lemma keeps_argstr h raw n : keeps (finv (T := T) h raw) (argstr_ n).
Proof. unfold argstr_. keeps_walk. Qed.

Lemma keeps_argint h raw n : keeps (finv (T := T) h raw) (argint_ n).
Proof. unfold argint_. keeps_walk. Qed.

Lemma keeps_op_fails h raw : keeps (finv h raw) op_fails.
Proof. unfold op_fails. keeps_walk. Qed.

#[local] Hint Resolve keeps_link_bad keeps_unlink_bad keeps_argstr keeps_argint keeps_op_fails : keeps.

Lemma keeps_sys_link h raw : keeps (finv h raw) (sys_link devread devwrite junk).
Proof. unfold sys_link. keeps_walk. Qed.

Lemma keeps_sys_unlink h raw : keeps (finv h raw) (sys_unlink devread devwrite junk).
Proof. unfold sys_unlink. keeps_walk. Qed.

Lemma keeps_make h raw path ty ma mi : keeps (finv h raw) (make devread devwrite junk path ty ma mi).
Proof. unfold make. keeps_walk. Qed.

#[local] Hint Resolve keeps_make : keeps.

Lemma keeps_sys_mkdir h raw : keeps (finv h raw) (sys_mkdir devread devwrite junk).
Proof. unfold sys_mkdir. keeps_walk. Qed.

Lemma keeps_sys_mknod h raw : keeps (finv h raw) (sys_mknod devread devwrite junk).
Proof. unfold sys_mknod. keeps_walk. Qed.

Lemma keeps_sys_chdir h raw : keeps (finv h raw) (sys_chdir devread junk).
Proof. unfold sys_chdir. keeps_walk. Qed.

Lemma keeps_open_inode h raw path omode : keeps (finv h raw) (open_inode devread devwrite junk path omode).
Proof. unfold open_inode. keeps_walk. Qed.

(** ** The calls that change it *)

(** What argfd finds is an open descriptor of the caller. *)
Lemma argfd_spec h raw s n :
  finv h raw s ->
  exists r, argfd n s = Ok (r, s) /\
    match r with
    | None => True
    | Some (fd, f) => exists t, tables s !! scur s = Some t /\ t !! fd = Some (Some f)
    end.
Proof.
  intros Hi. destruct (fi_cur _ _ _ Hi) as [t Ht]. unfold argfd, ofiles.
  erewrite bind_Ok by reflexivity. erewrite bind_Ok by by apply deref_Some.
  eexists. split; [reflexivity|]. destruct (argint _ n) as [fd|]; [|done].
  destruct ((fd <? 0) || _); [done|]. destruct (t !! Z.to_nat fd) as [[f|]|] eqn:E; [|done..]. by exists t.
Qed.

Lemma set_ofile_run s t fd o :
  tables s !! scur s = Some t ->
  set_ofile fd o s = Ok (tt, with_tables (<[scur s := <[fd := o]> t]> (tables s)) s).
Proof. intros Ht. unfold set_ofile, modify. by rewrite (alter_insert _ _ _ t Ht). Qed.

Lemma sys_dup_runs s :
  files_ok s -> exists r t, sys_dup s = Ok (r, t) /\ files_ok t.
Proof.
  intros Hi. unfold sys_dup. destruct (argfd_spec _ _ s 0 Hi) as (r & Hr & Hf). rewrite (bind_Ok _ _ _ _ _ Hr).
  destruct r as [[fd f]|]; [|by eexists _, _]. destruct Hf as (t & Ht & Hfd).
  destruct (finv_live _ _ s _ _ _ _ Hi eq_refl Ht Hfd) as (x & Hx & Hr1).
  destruct (fdalloc_spec _ _ s f Hi) as [Hn|(t' & fd' & _ & _ & Hrun & Hi')].
  { rewrite (bind_Ok _ _ _ _ _ Hn). by eexists _, _. }
  rewrite (bind_Ok _ _ _ _ _ Hrun). destruct (filedup_spec _ _ _ f x Hi' Hx Hr1) as [Hdup Hi2].
  rewrite (bind_Ok _ _ _ _ _ Hdup). eexists _, _. split; [reflexivity|]. eapply finv_ext; [exact Hi2| |done].
  intros g. unfold plus1, minus1. lia.
Qed.

Lemma keeps_sys_close : keeps files_ok (sys_close stk).
Proof.
  apply keeps_post. intros s Hi. unfold sys_close. destruct (argfd_spec _ _ s 0 Hi) as (r & Hr & Hf).
  apply post_bind. intros r' s' Hr'. rewrite Hr in Hr'. injection Hr' as <- <-.
  destruct r as [[fd f]|]; [|by apply post_ret]. destruct Hf as (t & Ht & Hfd).
  destruct (finv_live _ _ s _ _ _ _ Hi eq_refl Ht Hfd) as (x & Hx & Hr1).
  apply post_bind, post_wp. eapply wp_run; [by apply set_ofile_run|]. apply post_bind. eapply post_mono.
  { apply (post_fileclose (plus1 (fun _ => 0) f) [] _ f x); [|done..].
    eapply finv_ofile; try done. intros g. rewrite points_None, points_Some. unfold plus1. lia. }
  intros _ u [Hu _]. apply post_ret. eapply finv_ext; [exact Hu| |done].
  intros g. unfold plus1, minus1. lia.
Qed.

(** The new file gets its inode; f is the only file without a kind. *)
Lemma finv_opened s f x ip omode :
  finv (fun _ => 0) [f] s -> ftable s !! f = Some x -> f_ref x = 1 ->
  files_ok (with_ftable (<[f := opened ip omode x]> (ftable s)) s).
Proof.
  intros Hi Hx Hr. apply (finv_set (fun _ => 0) _ [f] _ s f x); try done; simpl.
  - intros g. destruct (decide (g = f)); lia.
  - lia.
  - intros _. split; [done|]. by intros ?%not_elem_of_nil.
  - intros g Hg. rewrite list_elem_of_singleton. split; [by intros ?%not_elem_of_nil|done].
  - assert (f_type x = FD_NONE) as Ht.
    { apply (fi_type _ _ _ Hi f x Hx); [lia|]. by apply list_elem_of_singleton. }
    intros k w. unfold is_end. by rewrite Ht.
Qed.

#[local] Hint Resolve keeps_open_inode : keeps.

(** sys_open once it has the inode. *)
Lemma post_open_file s ip omode :
  files_ok s ->
  post (f ← filealloc;
        match f with
        | None => callfs (iunlockput ip);; op_fails
        | Some f =>
            fd ← fdalloc f;
            match fd with
            | None => fileclose stk f;; callfs (iunlockput ip);; op_fails
            | Some fd => callfs (iunlock ip);; end_op_;; updf f (opened ip omode);; mret (Z.of_nat fd)
            end
        end) s (fun _ => files_ok).
Proof.
  intros Hi. apply post_bind, post_wp. destruct (filealloc_spec _ _ s Hi) as [[Hn _]|(f & x & Hx & Hr & Hty & Ha & Hi1)].
  { eapply wp_run; [exact Hn|]. apply post_keeps; [|done]. unfold files_ok. keeps_walk. }
  set (s1 := with_ftable (<[f := f_set_ref 1 x]> (ftable s)) s) in *.
  assert (ftable s1 !! f = Some (f_set_ref 1 x)) as Hx1
    by (apply list_lookup_insert_eq; by eapply lookup_lt_Some).
  eapply wp_run; [exact Ha|]. apply post_bind, post_wp.
  destruct (fdalloc_spec _ _ s1 f Hi1) as [Hn|(t & fd & Ht & Hfd & Hb & Hi2)].
  - eapply wp_run; [exact Hn|]. apply post_bind. eapply post_mono.
    { apply (post_fileclose _ _ s1 f (f_set_ref 1 x) Hi1); done. }
    intros _ u [Hu [Eu _]].
    assert (files_ok u) as Hu'.
    { eapply finv_ext; [exact Hu| |].
      - intros g. unfold plus1, minus1. lia.
      - intros g y Hy Hyr. rewrite list_elem_of_singleton. split; [by intros ?%not_elem_of_nil|]. intros ->.
        exfalso. apply Hyr. rewrite (fi_refs _ _ _ Hu f y Hy), Eu. unfold plus1, minus1.
        change (tables s1) with (tables s). pose proof (fi_refs _ _ _ Hi f x Hx) as Hfx. cbn beta in Hfx |- *. destruct (decide (f = f)); lia. }
    apply post_keeps; [|exact Hu']. unfold files_ok. keeps_walk.
  - eapply wp_run; [exact Hb|]. apply post_bind, post_callfs. intros _ x1. apply post_bind, post_callfs. intros _ x2.
    apply post_bind, post_modify. rewrite (alter_insert _ _ _ (f_set_ref 1 x)) by exact Hx1. apply post_ret.
    apply finv_opened; [|exact Hx1|done]. do 2 apply finv_sfs. eapply finv_ext; [exact Hi2| |done].
    intros g. unfold plus1, minus1. lia.
Qed.

Lemma keeps_sys_open : keeps files_ok (sys_open devread devwrite stk junk).
Proof.
  unfold sys_open, files_ok. do 2 (apply keeps_bind; [eauto with keeps|]; intros ?). case_match; [|keeps_walk].
  case_match; [|keeps_walk]. do 2 (apply keeps_bind; [eauto with keeps|]; intros ?). case_match; [|keeps_walk].
  apply keeps_post. intros s Hi. by apply post_open_file.
Qed.

(** ** Pipes *)

Lemma with_ftable_back s l : with_ftable (ftable s) (with_ftable l s) = s.
Proof. by destruct s. Qed.

(** Closing an entry just allocated puts it back. *)
Lemma fileclose_raw s f x :
  ftable s !! f = Some (f_set_ref 1 x) -> f_ref x = 0 -> f_type x = FD_NONE ->
  fileclose stk f s = Ok (tt, with_ftable (<[f := x]> (ftable s)) s).
Proof.
  intros Hx Hr Ht. unfold fileclose, getf. erewrite bind_Ok by by apply deref_Some. simpl.
  unfold updf. erewrite bind_Ok by reflexivity. rewrite Ht, (alter_insert _ _ _ _ Hx). destruct x. simpl in *. by subst.
Qed.

(** No file is on a pipe that does not exist. *)
Lemma no_ends h raw s w : finv h raw s -> countb (is_end (length (fpipes s)) w) (ftable s) = 0.
Proof.
  intros Hi. apply countb_zero. intros f x Hx. unfold is_end. destruct (f_type x) eqn:Ht; [done| |done].
  pose proof (fi_pipe _ _ _ Hi f x Hx Ht). by rewrite (proj2 (Nat.eqb_neq _ _)) by lia.
Qed.

(** A raw file becomes an end of the newest pipe. *)
Lemma finv_end h raw s f x (ps : list pst) p r w :
  finv h (f :: raw) s -> f ∉ raw -> ftable s !! f = Some x -> f_ref x = 1 ->
  (length (fpipes s) <= length (ps ++ [p]))%nat ->
  (forall k q, (k < length ps)%nat -> ps !! k = Some q -> fpipes s !! k = Some q) ->
  pipe_good p ->
  readopen (pp p) = countb (is_end (length ps) false) (ftable s) + b2z (w =? 0) ->
  writeopen (pp p) = countb (is_end (length ps) true) (ftable s) + b2z (negb (w =? 0)) ->
  finv h raw (with_pipes (ps ++ [p]) (spages s) (with_ftable (<[f := f_set_pipe r w (length ps) x]> (ftable s)) s)).
Proof.
  clear devread devwrite. intros Hi Hraw Hx Hr Hlen Hold Hp Er Ew.
  assert (f_type x = FD_NONE) as Ht by (apply (fi_type _ _ _ Hi f x Hx); [lia|left]).
  apply (finv_set_pipes h _ (f :: raw) _ s f x); try done; simpl.
  - intros g. destruct (decide (g = f)); lia.
  - lia.
  - intros g Hg. rewrite elem_of_cons. tauto.
  - intros _. rewrite length_app. simpl. lia.
  - intros k q [[Hk Hq]|[-> <-]]%lookup_snoc_Some.
    + apply (ends_insert _ _ x); [done| |by apply (fi_ends _ _ _ Hi), Hold].
      intros w'. unfold is_end. simpl. by rewrite Ht, (proj2 (Nat.eqb_neq _ _)) by lia.
    + split; [done|]. rewrite !(countb_insert _ _ _ _ _ Hx). unfold is_end at 2 3 5 6. simpl.
      rewrite Ht, Nat.eqb_refl, Er, Ew. simpl. destruct (w =? 0); simpl; lia.
Qed.

Definition half_pipe : pst :=
  mkPst (with_writeopen 0 (pp new_pipe)) (pcpu new_pipe) (pkilled new_pipe) (Pipe.woken new_pipe) (pfreed new_pipe).

Lemma new_pipe_good : pipe_good new_pipe /\ pipe_good half_pipe.
Proof. split; (split; [done|]); (split; [by split|done]). Qed.

(** What pipealloc leaves when it succeeds. *)
Definition piped (s : sst T) (a b : nat) (xa xb : file) (n : nat) : sst T :=
  let k := length (fpipes s) in
  with_pipes (fpipes s ++ [new_pipe]) n
    (with_ftable (<[b := f_set_pipe 0 1 k (f_set_ref 1 xb)]>
       (<[a := f_set_pipe 1 0 k (f_set_ref 1 xa)]> (ftable s))) s).

Lemma finv_piped s a b xa xb n :
  files_ok s -> ftable s !! a = Some xa -> f_ref xa = 0 -> a <> b ->
  finv (plus1 (plus1 (fun _ => 0) a) b) [b; a]
    (with_ftable (<[b := f_set_ref 1 xb]> (<[a := f_set_ref 1 xa]> (ftable s))) s) ->
  ftable s !! b = Some xb ->
  finv (plus1 (plus1 (fun _ => 0) a) b) [] (piped s a b xa xb n).
Proof.
  intros Hs Ha Hra Hab Hi Hb. set (s2 := with_ftable _ s) in Hi. set (k := length (fpipes s)).
  destruct new_pipe_good as [Hg1 Hg2].
  pose proof (lookup_lt_Some _ _ _ Ha) as Hla. pose proof (lookup_lt_Some _ _ _ Hb) as Hlb.
  assert (ftable s2 !! a = Some (f_set_ref 1 xa)) as Ha2
    by (simpl; rewrite list_lookup_insert_ne by done; by apply list_lookup_insert_eq).
  assert (forall w, countb (is_end k w) (ftable s2) = 0) as He by (intros w; exact (no_ends _ _ _ w Hi)).
  assert (finv (plus1 (plus1 (fun _ => 0) a) b) [b] (with_pipes (fpipes s ++ [half_pipe]) (spages s2)
    (with_ftable (<[a := f_set_pipe 1 0 k (f_set_ref 1 xa)]> (ftable s2)) s2))) as H3.
  { apply finv_end; try done.
    - eapply finv_ext; [exact Hi|done|]. intros g y _ _. rewrite !elem_of_cons. tauto.
    - by rewrite list_elem_of_singleton.
    - simpl. rewrite length_app. lia.
    - simpl. by rewrite He.
    - simpl. by rewrite He. }
  set (s3 := with_pipes _ _ _) in H3.
  assert (ftable s3 !! b = Some (f_set_ref 1 xb)) as Hb3.
  { simpl. rewrite list_lookup_insert_ne by done. apply list_lookup_insert_eq. by rewrite length_insert. }
  assert (forall w, countb (is_end k w) (ftable s3) = b2z (negb w)) as He3.
  { intros w. simpl. rewrite (countb_insert _ _ _ _ _ Ha2), He. unfold is_end. simpl.
    assert (f_type xa = FD_NONE) as -> by by apply (fi_free _ _ _ Hs a). rewrite Nat.eqb_refl. by destruct w. }
  apply (finv_end _ [] s3 b (f_set_ref 1 xb) (fpipes s) new_pipe 0 1) in H3; try done.
  - apply (finv_same _ _ _ _ H3); [|done|done|apply Hs]. simpl.
    rewrite (list_insert_insert_ne _ a b), list_insert_insert_eq by done.
    by rewrite list_insert_insert_eq.
  - by apply not_elem_of_nil.
  - simpl. rewrite !length_app. simpl. lia.
  - intros j q Hj Hq. simpl. by rewrite lookup_app_l.
  - simpl. by rewrite He3.
  - simpl. by rewrite He3.
Qed.

Lemma pipealloc_spec s :
  files_ok s ->
  pipealloc stk s = Ok (None, s) \/
  exists a b xa xb n, a <> b /\ spages s = S n /\
    ftable s !! a = Some xa /\ f_ref xa = 0 /\ ftable s !! b = Some xb /\ f_ref xb = 0 /\
    pipealloc stk s = Ok (Some (a, b), piped s a b xa xb n) /\
    finv (plus1 (plus1 (fun _ => 0) a) b) [] (piped s a b xa xb n).
Proof.
  intros Hi. unfold pipealloc.
  destruct (filealloc_spec _ _ s Hi) as [[Hn _]|(a & xa & Ha & Hra & Hta & Hrun & Hi1)].
  { left. by rewrite (bind_Ok _ _ _ _ _ Hn). }
  rewrite (bind_Ok _ _ _ _ _ Hrun). set (s1 := with_ftable _ s) in *.
  pose proof (lookup_lt_Some _ _ _ Ha) as Hla.
  assert (ftable s1 !! a = Some (f_set_ref 1 xa)) as Ha1 by by apply list_lookup_insert_eq.
  destruct (filealloc_spec _ _ s1 Hi1) as [[Hn _]|(b & xb & Hb & Hrb & Htb & Hrunb & Hi2)].
  { left. rewrite (bind_Ok _ _ _ _ _ Hn). unfold pipe_bad.
    rewrite (bind_Ok _ _ _ _ _ (fileclose_raw s1 a xa Ha1 Hra Hta)). simpl.
    unfold s1. rewrite list_insert_insert_eq, list_insert_id by done. by rewrite with_ftable_back. }
  assert (a <> b) as Hab by (intros <-; simplify_eq; done).
  assert (ftable s !! b = Some xb) as Hb0 by (simpl in Hb; by rewrite list_lookup_insert_ne in Hb).
  rewrite (bind_Ok _ _ _ _ _ Hrunb). set (s2 := with_ftable _ s1) in *. erewrite bind_Ok by reflexivity.
  destruct (spages s2) as [|n] eqn:En; [left|right].
  - assert (ftable s2 !! a = Some (f_set_ref 1 xa)) as Ha2 by (simpl; by rewrite list_lookup_insert_ne).
    unfold pipe_bad. rewrite (bind_Ok _ _ _ _ _ (fileclose_raw s2 a xa Ha2 Hra Hta)).
    set (s3 := with_ftable _ s2).
    assert (ftable s3 !! b = Some (f_set_ref 1 xb)) as Hb3.
    { simpl. rewrite list_lookup_insert_ne by done. apply list_lookup_insert_eq. by eapply lookup_lt_Some. }
    rewrite (bind_Ok _ _ _ _ _ (fileclose_raw s3 b xb Hb3 Hrb Htb)). unfold s3, s2, s1. simpl.
    rewrite (list_insert_insert_ne _ b a), (list_insert_insert_eq _ b) by done.
    rewrite (list_insert_insert_ne _ b a), list_insert_insert_eq by done.
    rewrite !list_insert_id by (done || by rewrite list_insert_id). by destruct s.
  - exists a, b, xa, xb, n. split_and!; try done.
    + erewrite bind_Ok by reflexivity. erewrite bind_Ok by reflexivity. unfold updf.
      do 2 erewrite bind_Ok by reflexivity. unfold s2, s1, mret, M_ret, piped, with_pipes, with_ftable. simpl.
      rewrite (alter_insert _ _ a (f_set_ref 1 xa)) by (rewrite list_lookup_insert_ne by done; exact Ha1).
      rewrite (list_insert_insert_ne _ a b), list_insert_insert_eq by done.
      rewrite (alter_insert _ _ b (f_set_ref 1 xb)).
      * by rewrite list_insert_insert_eq.
      * apply list_lookup_insert_eq. rewrite length_insert. by eapply lookup_lt_Some.
    + by apply finv_piped.
Qed.

(** Counts are determined by the descriptors. *)
Lemma same_refs s (t : sst T) f x y :
  files_ok s -> files_ok t -> tables t = tables s ->
  ftable s !! f = Some x -> ftable t !! f = Some y -> f_ref y = f_ref x.
Proof.
  intros Hs Ht E Hx Hy. by rewrite (fi_refs _ _ _ Hs f x Hx), (fi_refs _ _ _ Ht f y Hy), E.
Qed.

(** sys_pipe gives up: both ends are closed. *)
Lemma close_both s a b xa xb :
  finv (plus1 (plus1 (fun _ => 0) a) b) [] s -> a <> b ->
  ftable s !! a = Some xa -> ftable s !! b = Some xb ->
  f_ref xa = 1 -> f_ref xb = 1 -> f_type xa = FD_PIPE -> f_type xb = FD_PIPE ->
  exists t, (fileclose stk a;; fileclose stk b;; mret (-1)) s = Ok (-1, t) /\ files_ok t /\ same_proc s t.
Proof.
  intros Hi Hab Ha Hb Hra Hrb Hta Htb.
  destruct (fileclose_pipe _ _ s a xa Hi Ha Hra Hta) as (t & Hc & Hi1 & Hsp).
  assert (ftable t !! b = Some xb) as Hb1.
  { revert Hc. unfold fileclose, getf. erewrite bind_Ok by by apply deref_Some. rewrite Hra, Hta. simpl.
    unfold updf. erewrite bind_Ok by reflexivity. unfold callpipe. simpl. destruct (fpipes s !! f_pipe xa); [|done].
    case_match; try done. case_match. intros [= _ <-]. simpl. by rewrite list_lookup_alter_ne. }
  destruct (fileclose_pipe _ _ t b xb Hi1 Hb1 Hrb Htb) as (u & Hc2 & Hi2 & Hsp2).
  exists u. split; [by rewrite (bind_Ok _ _ _ _ _ Hc), (bind_Ok _ _ _ _ _ Hc2)|]. split.
  - eapply finv_ext; [exact Hi2| |done]. intros g. unfold plus1, minus1. lia.
  - unfold same_proc in *. intuition congruence.
Qed.

(** What the two ends are in the table after pipealloc. *)
Lemma piped_files s a b xa xb n :
  ftable s !! a = Some xa -> ftable s !! b = Some xb -> a <> b ->
  let k := length (fpipes s) in
  ftable (piped s a b xa xb n) !! a = Some (f_set_pipe 1 0 k (f_set_ref 1 xa)) /\
  ftable (piped s a b xa xb n) !! b = Some (f_set_pipe 0 1 k (f_set_ref 1 xb)) /\
  fpipes (piped s a b xa xb n) !! k = Some new_pipe.
Proof.
  intros Ha Hb Hab k. simpl. split_and!.
  - rewrite list_lookup_insert_ne by done. apply list_lookup_insert_eq. by eapply lookup_lt_Some.
  - apply list_lookup_insert_eq. rewrite length_insert. by eapply lookup_lt_Some.
  - by apply list_lookup_middle.
Qed.

(** The two descriptors, once the pipe is there. *)
Definition pipe_fds (p : Z) (a b : nat) : M (sst T) Z :=
  fd0 ← fdalloc a;
  match fd0 with
  | None => fileclose stk a;; fileclose stk b;; mret (-1)
  | Some fd0 =>
      fd1 ← fdalloc b;
      match fd1 with
      | None => set_ofile fd0 None;; fileclose stk a;; fileclose stk b;; mret (-1)
      | Some fd1 =>
          store_user p (le32 (Z.of_nat fd0));;
          store_user (p + 4) (le32 (Z.of_nat fd1));;
          mret 0
      end
  end.

Definition pipe_done (s t : sst T) (p : Z) (a b : nat) : Prop :=
  exists ot fd0 fd1, tables s !! scur s = Some ot /\
    ot !! fd0 = Some None /\ <[fd0 := Some a]> ot !! fd1 = Some None /\
    tables t = <[scur s := <[fd1 := Some b]> (<[fd0 := Some a]> ot)]> (tables s) /\
    ftable t = ftable s /\ fpipes t = fpipes s /\
    u_mem (suser t) = write_bytes (write_bytes (u_mem (suser s)) p (le32 (Z.of_nat fd0)))
      (p + 4) (le32 (Z.of_nat fd1)).

Lemma pipe_fds_spec s p a b xa xb :
  finv (plus1 (plus1 (fun _ => 0) a) b) [] s -> a <> b ->
  ftable s !! a = Some xa -> ftable s !! b = Some xb ->
  f_ref xa = 1 -> f_ref xb = 1 -> f_type xa = FD_PIPE -> f_type xb = FD_PIPE ->
  exists r t, pipe_fds p a b s = Ok (r, t) /\ files_ok t /\
    (r = -1 /\ same_proc s t \/ r = 0 /\ pipe_done s t p a b).
Proof.
  intros Hi Hab Ha Hb Hra Hrb Hta Htb. unfold pipe_fds.
  destruct (fdalloc_spec _ _ s a Hi) as [Hn|(ot & fd0 & Hot & Hfd0 & Hr0 & Hi0)].
  { rewrite (bind_Ok _ _ _ _ _ Hn). destruct (close_both s a b xa xb) as (t & Ht & Hok & Hsp); [done..|].
    exists (-1), t. eauto. }
  rewrite (bind_Ok _ _ _ _ _ Hr0). set (s0 := with_tables _ s) in *.
  assert (tables s0 !! scur s0 = Some (<[fd0 := Some a]> ot)) as Hot0
    by (apply list_lookup_insert_eq; by eapply lookup_lt_Some).
  destruct (fdalloc_spec _ _ s0 b Hi0) as [Hn|(ot1 & fd1 & Hot1 & Hfd1 & Hr1 & Hi1)].
  - rewrite (bind_Ok _ _ _ _ _ Hn), (bind_Ok _ _ _ _ _ (set_ofile_run _ _ _ _ Hot0)).
    set (s1 := with_tables _ s0).
    assert (tables s1 = tables s) as Et.
    { simpl. rewrite !list_insert_insert_eq, !list_insert_id; done || by rewrite list_insert_id. }
    destruct (close_both s1 a b xa xb) as (t & Ht & Hok & Hsp); try done.
    + apply (finv_same _ _ s); try done. rewrite Et. apply Hi.
    + exists (-1), t. split_and!; try done. left. split; [done|]. unfold same_proc in *. by rewrite <- Et.
  - rewrite (bind_Ok _ _ _ _ _ Hr1). set (s1 := with_tables _ s0) in *. simplify_eq.
    do 2 erewrite bind_Ok by reflexivity. eexists _, _. split; [reflexivity|]. split.
    + apply (finv_same _ _ s1); try done; [|apply Hi1]. eapply finv_ext; [exact Hi1| |done].
      intros g. unfold plus1, minus1. lia.
    + right. split; [done|]. exists ot, fd0, fd1. split_and!; try done. simpl. by rewrite list_insert_insert_eq.
Qed.

(** C33. pipe(2) is all or nothing.  The call always returns.  Either it fails,
    and then every descriptor, every reference count and the memory of the
    process are as before; or two free descriptors are now the read and the
    write end of a new pipe, their numbers are in fd[0] and fd[1]. *)
Theorem sys_pipe_atomic s :
  files_ok s ->
  exists r t, sys_pipe stk s = Ok (r, t) /\ files_ok t /\
    (r = -1 /\ tables t = tables s /\ suser t = suser s /\
       (forall f x y, ftable s !! f = Some x -> ftable t !! f = Some y -> f_ref y = f_ref x) \/
     r = 0 /\ exists p ot fd0 fd1 a b xa xb k,
       argptr (suser s) 0 8 = Some p /\ tables s !! scur s = Some ot /\
       ot !! fd0 = Some None /\ <[fd0 := Some a]> ot !! fd1 = Some None /\
       tables t = <[scur s := <[fd1 := Some b]> (<[fd0 := Some a]> ot)]> (tables s) /\
       ftable t !! a = Some (f_set_pipe 1 0 k (f_set_ref 1 xa)) /\
       ftable t !! b = Some (f_set_pipe 0 1 k (f_set_ref 1 xb)) /\
       fpipes t !! k = Some new_pipe /\
       u_mem (suser t) = write_bytes (write_bytes (u_mem (suser s)) p (le32 (Z.of_nat fd0)))
         (p + 4) (le32 (Z.of_nat fd1))).
Proof.
  intros Hi. unfold sys_pipe. erewrite bind_Ok by reflexivity.
  assert (forall t, files_ok t -> same_proc s t -> tables t = tables s /\ suser t = suser s /\
    (forall f x y, ftable s !! f = Some x -> ftable t !! f = Some y -> f_ref y = f_ref x)) as Hsame.
  { intros t Ht (E1 & E2 & E3). split_and!; try done. intros f x y. by apply same_refs. }
  destruct (argptr (suser s) 0 8) as [p|]; [|exists (-1), s; split_and!; [done..|left; split; [done|by apply Hsame]]].
  destruct (pipealloc_spec s Hi) as [Hn|(a & b & xa & xb & n & Hab & _ & Ha & _ & Hb & _ & Hrun & Hi1)].
  { rewrite (bind_Ok _ _ _ _ _ Hn). exists (-1), s. split_and!; [done..|]. left. split; [done|by apply Hsame]. }
  rewrite (bind_Ok _ _ _ _ _ Hrun).
  destruct (piped_files s a b xa xb n Ha Hb Hab) as (Ha1 & Hb1 & Hk).
  destruct (pipe_fds_spec _ p a b _ _ Hi1 Hab Ha1 Hb1) as (r & t & Hr & Ht & Hcase); [done..|].
  exists r, t. split; [exact Hr|]. split; [done|]. destruct Hcase as [[-> Hsp]|[-> Hd]]; [left; auto|right].
  destruct Hd as (ot & fd0 & fd1 & E1 & E2 & E3 & E4 & E5 & E6 & E7). split; [done|].
  exists p, ot, fd0, fd1, a, b, xa, xb, (length (fpipes s)). rewrite E5, E6. by split_and!.
Qed.

(** ** fork and exit *)

Lemma insert_at {A} (l r : list A) i x y : i = length l -> <[i := y]> (l ++ x :: r) = l ++ y :: r.
Proof. intros ->. rewrite <- (Nat.add_0_r (length l)). by rewrite insert_app_r. Qed.

(** Entries before [i] copied. *)
Definition copied (i : nat) (t : list (option nat)) : list (option nat) :=
  take i t ++ drop i (replicate NOFILE None).

Lemma copied_S i (t : list (option nat)) o :
  (i < NOFILE)%nat -> t !! i = Some o -> copied (S i) t = <[i := o]> (copied i t) /\ copied i t !! i = Some None.
Proof.
  intros Hi Ho. pose proof (lookup_lt_Some _ _ _ Ho) as Hl. unfold copied.
  rewrite (take_S_r t i o Ho), (drop_S (replicate NOFILE None) None i) by by apply lookup_replicate_2.
  assert (i = length (take i t)) as E by (rewrite length_take; lia). split.
  - rewrite insert_at by done. by rewrite <- app_assoc.
  - by apply list_lookup_middle.
Qed.

Lemma fork_ofiles_runs s np t :
  files_ok s -> np <> scur s -> tables s !! scur s = Some t -> length t = NOFILE ->
  tables s !! np = Some (replicate NOFILE None) ->
  exists u, fork_ofiles np s = Ok (tt, u) /\ files_ok u /\ tables u = <[np := t]> (tables s).
Proof.
  intros Hi Hnp Ht Hlen Hc. pose proof (lookup_lt_Some _ _ _ Hc) as Hlnp.
  enough (wp (fork_ofiles np) s (fun _ u => files_ok u /\ tables u = <[np := t]> (tables s)))
    as ([] & u & ? & ?) by eauto.
  apply (wp_for (fun i u => files_ok u /\ scur u = scur s /\ tables u = <[np := copied i t]> (tables s))).
  - split; [done|]. split; [done|]. by rewrite list_insert_id.
  - intros i u [_ Hlt] (Hu & Ecur & Etab). simpl in Hlt.
    destruct (lookup_lt_is_Some_2 t i) as [o Ho]; [lia|]. destruct (copied_S i t o Hlt Ho) as [ES Hci].
    assert (tables u !! scur u = Some t) as Htu by (rewrite Etab, Ecur; by rewrite list_lookup_insert_ne).
    assert (tables u !! np = Some (copied i t)) as Hcu by (rewrite Etab; by apply list_lookup_insert_eq).
    apply wp_bind. eapply wp_deref; [exact Htu|]. rewrite Ho. destruct o as [f|].
    + destruct (finv_live _ _ u _ _ _ f Hu eq_refl Htu Ho) as (x & Hx & Hr).
      destruct (filedup_spec _ _ u f x Hu Hx Hr) as [Hd Hu1]. apply wp_bind. eapply wp_run; [exact Hd|].
      apply wp_modify. rewrite (alter_insert _ _ _ (copied i t)) by exact Hcu. split; [|split; [done|]].
      * eapply finv_ofile; [exact Hu1|exact Hcu|exact Hci|]. intros g. rewrite points_None, points_Some.
        unfold plus1. lia.
      * simpl. by rewrite Etab, list_insert_insert_eq, ES.
    + apply wp_ret. split; [done|]. split; [done|]. rewrite Etab, ES. f_equal. symmetry. by apply list_insert_id.
  - intros u (Hu & _ & ->). split; [done|]. f_equal. unfold copied. simpl plus. rewrite take_ge by lia.
    by rewrite drop_ge, app_nil_r.
Qed.

Lemma post_exit_ofiles s t :
  files_ok s -> tables s !! scur s = Some t -> length t = NOFILE ->
  post (exit_ofiles stk) s (fun _ u => files_ok u /\ tables u = <[scur s := replicate NOFILE None]> (tables s)).
Proof.
  intros Hi Ht Hlen. pose proof (lookup_lt_Some _ _ _ Ht) as Hlt.
  set (closed i := replicate i None ++ drop i t).
  eapply post_mono.
  { apply (post_for (fun i u => files_ok u /\ scur u = scur s /\
      tables u = <[scur s := closed i]> (tables s)) NOFILE 0).
    - split; [done|]. split; [done|]. by rewrite list_insert_id.
    - intros i u [_ Hin] (Hu & Ecur & Etab). simpl in Hin.
      destruct (lookup_lt_is_Some_2 t i) as [o Ho]; [lia|].
      assert (closed i !! i = Some o) as Hci.
      { unfold closed. rewrite lookup_app_r; rewrite length_replicate; [|done].
        by rewrite Nat.sub_diag, lookup_drop, Nat.add_0_r. }
      assert (closed (i + 1)%nat = <[i := None]> (closed i)) as ES.
      { unfold closed. rewrite (drop_S t o i Ho), insert_at by by rewrite length_replicate.
        by rewrite replicate_add, <- app_assoc, Nat.add_1_r. }
      assert (tables u !! scur u = Some (closed i)) as Htu
        by (rewrite Etab, Ecur; by apply list_lookup_insert_eq).
      apply post_bind, post_deref. intros c Hc. assert (c = closed i) as -> by congruence. rewrite Hci.
      destruct o as [f|].
      + destruct (finv_live _ _ u _ _ _ f Hu eq_refl Htu Hci) as (x & Hx & Hr).
        apply post_bind. eapply post_mono; [by apply (post_fileclose _ _ u f x Hu)|].
        intros _ v [Hv (E1 & E2 & _)]. rewrite <- E1, <- E2 in Htu. apply post_wp.
        eapply wp_run; [by apply set_ofile_run|]. split; [|split].
        * eapply finv_ofile; [exact Hv|exact Htu|exact Hci|]. intros g.
          rewrite points_None, points_Some. unfold minus1. lia.
        * simpl. congruence.
        * simpl. by rewrite E1, E2, Etab, Ecur, list_insert_insert_eq, ES.
      + apply post_ret. split; [done|]. split; [done|]. rewrite Etab, ES. f_equal. symmetry. by apply list_insert_id. }
  intros _ u (Hu & _ & ->). split; [done|]. f_equal. unfold closed. simpl plus. by rewrite drop_ge, app_nil_r by lia.
Qed.

Lemma keeps_sys_pipe : keeps files_ok (sys_pipe stk).
Proof.
  apply keeps_post. intros s Hi. unfold sys_pipe. apply post_bind, post_gets.
  destruct (argptr (suser s) 0 8) as [p|]; [|by apply post_ret]. apply post_bind, post_wp.
  destruct (pipealloc_spec s Hi) as [Hn|(a & b & xa & xb & n & Hab & _ & Ha & _ & Hb & _ & Hrun & Hi1)].
  { eapply wp_run; [exact Hn|]. by apply post_ret. }
  eapply wp_run; [exact Hrun|]. destruct (piped_files s a b xa xb n Ha Hb Hab) as (Ha1 & Hb1 & Hk).
  destruct (pipe_fds_spec _ p a b _ _ Hi1 Hab Ha1 Hb1) as (r & t & Hr & Ht & _); [done..|].
  apply post_wp. by exists r, t.
Qed.

(** * Runs *)

Definition file_calls : list (M (sst T) Z) :=
  [sys_dup; sys_read devread stk; sys_write devwrite stk; sys_close stk; sys_fstat;
   sys_link devread devwrite junk; sys_unlink devread devwrite junk; sys_open devread devwrite stk junk;
   sys_mkdir devread devwrite junk; sys_mknod devread devwrite junk; sys_chdir devread junk; sys_pipe stk].

(** A process makes a call; forks into a process with an empty table; exits;
    another process runs, with its memory and its current directory. *)
Inductive file_step : sst T -> sst T -> Prop :=
| step_call m r s t : m ∈ file_calls -> m s = Ok (r, t) -> file_step s t
| step_fork np s t : np <> scur s -> tables s !! np = Some (replicate NOFILE None) ->
    fork_ofiles np s = Ok (tt, t) -> file_step s t
| step_exit s t : exit_ofiles stk s = Ok (tt, t) -> file_step s t
| step_switch p u x s : is_Some (tables s !! p) ->
    file_step s (mkSst (ftable s) (fpipes s) (spages s) x (tables s) p u).

Lemma keeps_sys_dup : keeps (S := sst T) files_ok sys_dup.
Proof. intros s a t Hi Hr. destruct (sys_dup_runs s Hi) as (r & u & E & Hu). by replace t with u by congruence. Qed.

Lemma file_calls_keep m : m ∈ file_calls -> keeps files_ok m.
Proof.
  unfold file_calls. rewrite !elem_of_cons, elem_of_nil.
  intros H'. repeat destruct H' as [->|H']; [..|done];
    eauto using keeps_sys_dup, keeps_sys_read, keeps_sys_write, keeps_sys_close, keeps_sys_fstat,
      keeps_sys_link, keeps_sys_unlink, keeps_sys_open, keeps_sys_mkdir, keeps_sys_mknod,
      keeps_sys_chdir, keeps_sys_pipe.
Qed.

Lemma file_step_ok s t : files_ok s -> file_step s t -> files_ok t.
Proof.
  intros Hi Hst. destruct Hst as [m r s t Hm Hr|np s t Hnp Hc Hr|s t Hr|p u x s Hp].
  - by apply (file_calls_keep m Hm s r t).
  - destruct (fi_cur _ _ _ Hi) as [ot Hot].
    destruct (fork_ofiles_runs s np ot) as (u & E & Hu & _); try done; [exact (fi_len _ _ _ Hi _ _ Hot)|].
    by replace t with u by congruence.
  - destruct (fi_cur _ _ _ Hi) as [ot Hot].
    destruct (post_exit_ofiles s ot Hi Hot (fi_len _ _ _ Hi _ _ Hot) tt t Hr) as [Ht _]. done.
  - by apply (finv_same _ _ s).
Qed.

(** C10. Whatever calls the processes make and in whatever order, every reference
    count is the number of descriptors that name the file, and the flags of
    every pipe are the number of open files on that end.  So a descriptor never
    names a free entry of the table, or an entry without a kind, or a pipe
    whose page was freed, or an end of a pipe that was closed. *)
Theorem files_counted s t :
  files_ok s -> rtc file_step s t ->
  files_ok t /\
  forall p ot fd f, tables t !! p = Some ot -> ot !! fd = Some (Some f) ->
    exists x, ftable t !! f = Some x /\ f_ref x = total f (tables t) /\ 1 <= f_ref x /\
      f_type x <> FD_NONE /\
      (f_type x = FD_PIPE -> exists q, fpipes t !! f_pipe x = Some q /\ pfreed q = false /\
         (if f_writable x =? 0 then readopen (pp q) else writeopen (pp q)) = 1).
Proof.
  intros Hi Hrun. assert (files_ok t) as Ht.
  { revert Hi. induction Hrun as [|s u t Hst _ IH]; [done|]. intros Hi. by eapply IH, file_step_ok. }
  split; [done|]. intros p ot fd f Hp Hfd.
  destruct (finv_live _ _ t _ _ _ f Ht eq_refl Hp Hfd) as (x & Hx & Hr).
  exists x. split; [done|]. split; [rewrite (fi_refs _ _ _ Ht f x Hx); cbn beta; lia|]. split; [done|]. split.
  - intros Hty. apply (fi_type _ _ _ Ht f x Hx) in Hty; [by apply not_elem_of_nil in Hty|lia].
  - intros Hty. destruct (finv_pipe_open _ _ t f x Ht Hx Hty) as (q & Hq & Hf & _ & H1). by exists q.
Qed.

(** fork shares every open file: it always returns, the child's table is
    the parent's, and every count is up to date. *)
Lemma fork_shares_files s np t :
  files_ok s -> np <> scur s -> tables s !! scur s = Some t ->
  tables s !! np = Some (replicate NOFILE None) ->
  exists u, fork_ofiles np s = Ok (tt, u) /\ files_ok u /\ tables u = <[np := t]> (tables s) /\
    forall f x y, ftable s !! f = Some x -> ftable u !! f = Some y ->
      f_ref y = f_ref x + countb (points f) t.
Proof.
  intros Hi Hnp Ht Hc. destruct (fork_ofiles_runs s np t) as (u & Hr & Hu & E); try done.
  { exact (fi_len _ _ _ Hi _ _ Ht). }
  exists u. split_and!; try done. intros f x y Hx Hy.
  rewrite (fi_refs _ _ _ Hi f x Hx), (fi_refs _ _ _ Hu f y Hy), E, (total_row _ _ _ _ _ Hc).
  rewrite (countb_zero _ (replicate NOFILE None)); [lia|]. intros i o Ho.
  by apply lookup_replicate in Ho as [-> _].
Qed.

End ops.

(** * From the table as the kernel starts with it *)

Definition no_file : file := mkFile FD_NONE 0 0 0 0 0 0.

Lemma files_init {T} m n (x : fss T) u :
  (0 < m)%nat ->
  files_ok (mkSst (replicate NFILE no_file) [] n x (replicate m (replicate NOFILE None)) 0 u).
Proof.
  intros Hm. assert (forall f, total f (replicate m (replicate NOFILE None)) = 0) as Ht.
  { intros f. unfold total. apply countb_zero. intros i o Ho. apply list_elem_of_lookup_2 in Ho.
    apply list_elem_of_In, in_concat in Ho as (l & Hl & Ho).
    apply list_elem_of_In, elem_of_replicate in Hl as [-> _].
    by apply list_elem_of_In, elem_of_replicate in Ho as [-> _]. }
  split; cbn [ftable fpipes tables scur]; try done.
  - by rewrite lookup_replicate_2.
  - intros p t Hp. by apply lookup_replicate in Hp as [-> _].
  - intros f y Hy. apply lookup_replicate in Hy as [-> _]. by rewrite Ht.
  - intros f _. by rewrite Ht.
  - intros f y Hy. by apply lookup_replicate in Hy as [-> _].
  - intros f y Hy. by apply lookup_replicate in Hy as [-> _].
  - intros f y Hy. by apply lookup_replicate in Hy as [-> _].
Qed.

Module FileDemo.

(** Two processes and no open file; the argument of a call is [v]. *)
Definition args (v : Z) : uproc := mkU 8192 8000 (store32 (fun _ => 0) 8004 v).

Definition s0 : sst bcache :=
  mkSst (replicate NFILE no_file) [] 8 FsDemo.fs0 (replicate 2 (replicate NOFILE None)) 0 (args 4096).

Definition no_read : Z -> option (nat -> Z -> M (fss bcache) (Z * list Z)) := fun _ => None.
Definition no_write : Z -> option (nat -> list Z -> Z -> M (fss bcache) Z) := fun _ => None.

Definition then_ (m : M (sst bcache) Z) (s : sst bcache) : sst bcache :=
  match m s with Ok (_, t) => t | _ => s end.

(** pipe(fd); fork(). *)
Definition s1 : sst bcache := then_ (sys_pipe demo_stk) s0.
Definition s2 : sst bcache := match fork_ofiles 1 s1 with Ok (_, t) => t | _ => s1 end.

Lemma s0_ok : files_ok s0.
Proof. apply files_init. lia. Qed.

Lemma pipe_run : sys_pipe demo_stk s0 = Ok (0, s1).
Proof. vm_compute. reflexivity. Qed.

Lemma fork_run : fork_ofiles 1 s1 = Ok (tt, s2).
Proof. vm_compute. reflexivity. Qed.

Lemma run_s2 : rtc (file_step no_read no_write demo_stk []) s0 s2.
Proof.
  eapply rtc_l; [eapply step_call; [|exact pipe_run]|].
  { unfold file_calls. rewrite !elem_of_cons. tauto. }
  eapply rtc_once, (step_fork _ _ _ _ 1); [done|reflexivity|exact fork_run].
Qed.

End FileDemo.

Import FileDemo.

Lemma sys_pipe_atomic_witness :
  exists t, sys_pipe demo_stk s0 = Ok (0, t) /\ files_ok t.
Proof.
  destruct (sys_pipe_atomic demo_stk s0 s0_ok) as (r & t & Hr & Ht & _).
  exists t. rewrite Hr. pose proof pipe_run as Hp. rewrite Hr in Hp. injection Hp as -> _. done.
Defined.

Lemma files_counted_witness :
  exists x, ftable s2 !! 0%nat = Some x /\ f_ref x = total 0 (tables s2) /\ total 0 (tables s2) = 2.
Proof.
  destruct (files_counted no_read no_write demo_stk [] s0 s2 s0_ok run_s2) as [_ H].
  destruct (H 1%nat (replicate 0 None ++ Some 0%nat :: Some 1%nat :: replicate 14 None) 0%nat 0%nat) as (x & Hx & Hr & _);
    [vm_compute; reflexivity|reflexivity|].
  exists x. split; [exact Hx|]. split; [exact Hr|]. vm_compute. reflexivity.
Defined.

