(* ===== verification/Exec.v ===== *)
(** exec.c and loaduvm of vm.c: replacing the image of a process by a program
    from the file system.

    The state is the memory of the kernel with its page tables, the file
    system, and the fields of the running process that exec sets.  A call of
    the file system may sleep or panic; the theorem is about what exec leaves
    when it returns. *)

From S2P Require Import Prelude Hoare StringC Codec Spinlock Proc Kalloc Vm VmProps VmSpace Pipe Sleeplock Blocks Layout Log Fs Sysfile.

Definition ELF_MAGIC : Z := 0x464C457F.
Definition ELF_PROG_LOAD : Z := 1.

(** struct elfhdr and struct proghdr, the fields that are used. *)
Record elfhdr := mkElf { e_magic : Z; e_entry : Z; e_phoff : Z; e_phnum : Z }.
Record proghdr := mkPh { ph_type : Z; ph_off : Z; ph_vaddr : Z; ph_filesz : Z; ph_memsz : Z }.

Definition sizeof_elfhdr : Z := 52.
Definition sizeof_proghdr : Z := 32.

(** The bytes readi stored into the structure. *)
Definition elf_decode (d : list Z) : elfhdr :=
  let d := u8 <$> d in mkElf (get32 d 0) (get32 d 24) (get32 d 28) (get16 d 44).
Definition ph_decode (d : list Z) : proghdr :=
  let d := u8 <$> d in mkPh (get32 d 0) (get32 d 4) (get32 d 8) (get32 d 16) (get32 d 20).

Record est (T : Type) := mkEst {
  ekm : kmem;
  efs : fss T;
  epgdir : Z;      (* proc->pgdir *)
  esz : Z;         (* proc->sz *)
  eeip : Z;        (* proc->tf->eip *)
  eesp : Z;        (* proc->tf->esp *)
  ename : list Z   (* proc->name *) }.
Arguments mkEst {T} _ _ _ _ _ _ _.
Arguments ekm {T} _.
Arguments efs {T} _.
Arguments epgdir {T} _.
Arguments esz {T} _.
Arguments eeip {T} _.
Arguments eesp {T} _.
Arguments ename {T} _.

Definition with_ekm {T} (k : kmem) (s : est T) : est T :=
  mkEst k (efs s) (epgdir s) (esz s) (eeip s) (eesp s) (ename s).
Definition with_efs {T} (f : fss T) (s : est T) : est T :=
  mkEst (ekm s) f (epgdir s) (esz s) (eeip s) (eesp s) (ename s).
(** The stores that commit to the new image. *)
Definition commit_image {T} (pgdir sz eip esp : Z) (s : est T) : est T :=
  mkEst (ekm s) (efs s) pgdir sz eip esp (ename s).
Definition with_ename {T} (n : list Z) (s : est T) : est T :=
  mkEst (ekm s) (efs s) (epgdir s) (esz s) (eeip s) (eesp s) n.

(** The loop that finds the last element of the path. *)
Fixpoint last_elem (path last : list Z) : list Z :=
  match path with
  | [] => last
  | c :: rest => last_elem rest (if c =? 47 then rest else last)
  end.

Section exec.
Context {T : Type} `{BufLayer T}.
(** Drivers; the linker's symbols end and data; what getcallerpcs records;
    what is in name[] of namei; the bytes of pseudo_main. *)
Context (devread : Z -> option (nat -> Z -> M (fss T) (Z * list Z))).
Context (kend data : Z) (stk junk code : list Z).

Abbreviation E := (M (est T)).

Definition onfs {A} (m : M (fss T) A) : E A := fun s =>
  obind (m (efs s)) (fun '(a, f) => Ok (a, with_efs f s)).

Definition onk {A} (m : M kmem A) : E A := fun s =>
  obind (m (ekm s)) (fun '(a, k) => Ok (a, with_ekm k s)).

(** The loop of loaduvm; [fuel]: the pages of the segment. *)
Fixpoint loaduvm_loop (fuel : nat) (pgdir addr : Z) (ip : nat) (offset i sz : Z) : E Z :=
  match fuel with
  | O => mret 0
  | S fuel =>
      if i <? sz then
        pte ← onk (walkpgdir stk pgdir (u32 (addr + i)) false);
        if pte =? 0 then panic "loaduvm: address should exist"
        else
          e ← onk (ld pte);
          let pa := PTE_ADDR e in
          let n := if sz - i <? PGSIZE then sz - i else PGSIZE in
          r ← onfs (readi devread ip (u32 (offset + i)) n);
          onk (modify (fun k => with_ram (write_bytes (ram k) (P2V pa) (snd r)) k));;
          if negb (fst r =? n) then mret (-1)
          else loaduvm_loop fuel pgdir addr ip offset (i + PGSIZE) sz
      else mret 0
  end.

Definition loaduvm (pgdir addr : Z) (ip : nat) (offset sz : Z) : E Z :=
  if negb (addr mod PGSIZE =? 0) then panic "loaduvm: addr must be page aligned"
  else loaduvm_loop (S (Z.to_nat (sz / PGSIZE))) pgdir addr ip offset 0 sz.

(** A program header in the loop of exec: the new size, or None for bad. *)
Definition load_segment (pgdir : Z) (ip : nat) (ph : proghdr) (sz : Z) : E (option Z) :=
  if ph_memsz ph <? ph_filesz ph then mret None
  else if u32 (ph_vaddr ph + ph_memsz ph) <? ph_vaddr ph then mret None
  else
    sz ← onk (allocuvm kend stk pgdir sz (u32 (ph_vaddr ph + ph_memsz ph)));
    if sz =? 0 then mret None
    else if negb (ph_vaddr ph mod PGSIZE =? 0) then mret None
    else
      r ← loaduvm pgdir (ph_vaddr ph) ip (ph_off ph) (ph_filesz ph);
      if r <? 0 then mret None else mret (Some sz).

Fixpoint load_loop (k : nat) (pgdir : Z) (ip : nat) (off sz : Z) : E (option Z) :=
  match k with
  | O => mret (Some sz)
  | S k =>
      r ← onfs (readi devread ip (u32 off) sizeof_proghdr);
      if negb (fst r =? sizeof_proghdr) then mret None
      else
        let ph := ph_decode (snd r) in
        if negb (ph_type ph =? ELF_PROG_LOAD) then load_loop k pgdir ip (off + sizeof_proghdr) sz
        else
          x ← load_segment pgdir ip ph sz;
          match x with
          | None => mret None
          | Some sz => load_loop k pgdir ip (off + sizeof_proghdr) sz
          end
  end.

(** The loop over argv: sp, and the addresses of the strings; None for bad.
    [ptrs]: ustack[4..] so far. *)
Fixpoint push_args (pgdir : Z) (argv : list (list Z)) (sp : Z) (ptrs : list Z) : E (option (Z * list Z)) :=
  match argv with
  | [] => mret (Some (sp, ptrs))
  | a :: argv =>
      if (MAXARG <=? length ptrs)%nat then mret None
      else
        let sp := Z.land (u32 (sp - (Z.of_nat (length a) + 1))) (u32 (Z.lnot 3)) in
        r ← onk (copyout stk pgdir sp (a ++ [0]));
        if r <? 0 then mret None else push_args pgdir argv sp (ptrs ++ [sp])
  end.

(** bad: with the directory, and the inode while it is locked. *)
Definition bad (pgdir : Z) (ip : option nat) : E Z :=
  when (negb (pgdir =? 0)) (onk (freevm kend stk pgdir));;
  match ip with
  | Some ip => onfs (iunlockput ip);; onfs (liftl end_op)
  | None => mret tt
  end;;
  mret (-1).

(** The words of ustack. *)
Definition ustack (entry sp : Z) (ptrs : list Z) : list Z :=
  let argc := Z.of_nat (length ptrs) in
  [0xffffffff; entry; argc; u32 (sp - (argc + 1) * 4)] ++ ptrs ++ [0].

Definition words (l : list Z) : list Z := l ≫= le32.

(** The test of switchuvm; the registers it loads are not modelled. *)
Definition switchuvm : E unit :=
  p ← gets epgdir;
  when (p =? 0) (panic "switchuvm: no pgdir").

(** exec once the image is loaded: stack, arguments and commit. *)
Definition exec_image (path : list Z) (argv : list (list Z)) (entry pgdir sz : Z) : E Z :=
  let pointer_pseudo_main := sz in
  let sz := PGROUNDUP sz in
  sz ← onk (allocuvm kend stk pgdir sz (u32 (sz + 3 * PGSIZE)));
  if sz =? 0 then bad pgdir None
  else
    onk (clearpteu stk pgdir (u32 (sz - 2 * PGSIZE)));;
    r ← onk (copyout stk pgdir pointer_pseudo_main code);
    if r <? 0 then bad pgdir None
    else
      x ← push_args pgdir argv sz [];
      match x with
      | None => bad pgdir None
      | Some (sp, ptrs) =>
          if (3 + MAXARG + 1 <=? 4 + length ptrs)%nat then fault "ustack" else
          let us := ustack entry sp ptrs in
          let sp := u32 (sp - 4 * Z.of_nat (length us)) in
          r ← onk (copyout stk pgdir sp (words us));
          if r <? 0 then bad pgdir None
          else
            modify (fun s => with_ename (safestrcpy_buf 15 (ename s) (last_elem path path ++ [0])) s);;
            oldpgdir ← gets epgdir;
            modify (commit_image pgdir sz pointer_pseudo_main sp);;
            switchuvm;;
            onk (freevm kend stk oldpgdir);;
            mret 0
      end.

Definition exec (path : list Z) (argv : list (list Z)) : E Z :=
  onfs (liftl begin_op);;
  r ← onfs (namei devread path junk);
  match r with
  | None => onfs (liftl end_op);; mret (-1)
  | Some ip =>
      onfs (ilock ip);;
      r ← onfs (readi devread ip 0 sizeof_elfhdr);
      let elf := elf_decode (snd r) in
      if negb (fst r =? sizeof_elfhdr) then bad 0 (Some ip)
      else if negb (e_magic elf =? ELF_MAGIC) then bad 0 (Some ip)
      else
        pgdir ← onk (setupkvm stk data);
        if pgdir =? 0 then bad 0 (Some ip)
        else
          x ← load_loop (Z.to_nat (e_phnum elf)) pgdir ip (e_phoff elf) 0;
          match x with
          | None => bad pgdir (Some ip)
          | Some sz =>
              onfs (iunlockput ip);;
              onfs (liftl end_op);;
              exec_image path argv (e_entry elf) pgdir sz
          end
  end.

End exec.
