(* ===== verification/ExecProps.v ===== *)
(** What exec leaves: on failure the process as it was, on success the new
    image with pseudo_main at eip and the arguments on the stack. *)

From S2P Require Import Prelude Hoare StringC Codec Spinlock Proc Kalloc Vm VmProps VmSpace UserMem Pipe Sleeplock Blocks Layout Bio Log LogProps Fs FsProps Sysfile Exec.

Section props.
Context {T : Type} `{BufLayer T}.
Context (devread : Z -> option (nat -> Z -> M (fss T) (Z * list Z))).
Context (kend data : Z) (stk junk code : list Z).
Implicit Types (s t : est T).
#[local] Set Default Proof Using "Type".

(** A driver stores no more than it was asked for. *)
Definition devread_ok : Prop :=
  forall major f ip n x r x', devread major = Some f -> f ip n x = Ok (r, x') -> Z.of_nat (length (snd r)) <= Z.max 0 n.

Lemma post_onfs {A} (m : M (fss T) A) s (R : A -> Prop) (Q : A -> est T -> Prop) :
  post m (efs s) (fun a _ => R a) -> (forall a f, R a -> Q a (with_efs f s)) -> post (onfs m) s Q.
Proof.
  intros Hm HQ a t Hr. unfold onfs in Hr. destruct (m (efs s)) as [[b f]| | |] eqn:E; simpl in Hr; try discriminate Hr.
  injection Hr as <- <-. apply HQ. by eapply Hm.
Qed.

Lemma post_onfs_run {A} (m : M (fss T) A) s (Q : A -> est T -> Prop) :
  (forall a f, m (efs s) = Ok (a, f) -> Q a (with_efs f s)) -> post (onfs m) s Q.
Proof.
  intros HQ a t Hr. unfold onfs in Hr. destruct (m (efs s)) as [[b f]| | |] eqn:E; simpl in Hr; try discriminate Hr.
  injection Hr as <- <-. by apply HQ.
Qed.

(** A call of the file system whose result does not matter. *)
Lemma post_onfs_any {A} (m : M (fss T) A) s (Q : A -> est T -> Prop) :
  (forall a f, Q a (with_efs f s)) -> post (onfs m) s Q.
Proof. intros HQ. apply (post_onfs m s (fun _ => True)); [by intros a f _|by intros a f _]. Qed.

Lemma post_onk {A} (m : M kmem A) s (Q : A -> est T -> Prop) :
  post m (ekm s) (fun a k => Q a (with_ekm k s)) -> post (onk m) s Q.
Proof.
  intros Hm a t Hr. unfold onk in Hr. destruct (m (ekm s)) as [[b k]| | |] eqn:E; simpl in Hr; try discriminate Hr.
  injection Hr as <- <-. by apply Hm.
Qed.

Lemma post_readi_loop fuel ip off n (x : fss T) :
  post (readi_loop fuel ip off n) x (fun bs _ => Z.of_nat (length bs) <= Z.max 0 n).
Proof.
  revert off n x. induction fuel as [|fuel IH]; intros off n x; cbn [readi_loop]; [apply post_ret; simpl; lia|].
  destruct (Z.ltb_spec 0 n); [|apply post_ret; simpl; lia].
  do 5 (apply post_bind; intros ? ? _). apply post_bind. eapply post_mono; [apply IH|]. intros rest y Hrest. apply post_ret.
  rewrite length_app. unfold slice. rewrite length_take. pose proof (Z.mod_pos_bound off BSIZE ltac:(unfold BSIZE; lia)). unfold BSIZE in *. lia.
Qed.

Lemma post_readi ip off n (x : fss T) :
  devread_ok -> 0 <= n < 2 ^ 31 -> post (readi devread ip off n) x (fun r _ => Z.of_nat (length (snd r)) <= n).
Proof.
  intros Hdev Hn. unfold readi. apply post_bind. intros i y _. destruct (i_type i =? T_DEV).
  - destruct (_ || _); [apply post_ret; simpl; lia|]. destruct (devread (i_major i)) as [f|] eqn:Ef; [|apply post_ret; simpl; lia].
    intros r z Hr. specialize (Hdev _ _ _ _ _ _ _ Ef Hr). rewrite s32_small in Hdev by lia. lia.
  - destruct (_ || _); [apply post_ret; simpl; lia|]. apply post_bind. eapply post_mono; [apply post_readi_loop|].
    intros bs z Hbs. apply post_ret. simpl. destruct (i_size i <? off + n) eqn:E; bools; lia.
Qed.

(** * While the new space is built

    [p] is the directory of the process, [m0] memory and [free0] the free pages
    when exec was called. *)
Section building.
Context (p : Z) (m0 : mem) (free0 : list Z) (Hs0 : space kend free0 p m0).

Record beside (d : Z) (free : list Z) (m : mem) : Prop := {
  bs_space : space kend free d m;
  bs_no_user : no_user m d;
  bs_pool q : pool free m d q <-> q ∈ free0;
  bs_parent q x : owned m0 p q -> inpage q x -> m x = m0 x }.

#[local] Set Default Proof Using "Type*".

Lemma beside_apart d free m q : beside d free m -> owned m0 p q -> ~ pool free m d q.
Proof. intros [_ _ Hp _] Hq. rewrite Hp. by destruct (owned_page _ _ _ _ _ Hs0 Hq). Qed.

Lemma beside_step d free m free' m' k :
  kinv kend free k -> beside d free m -> evolves d free m free' m' -> space kend free' d m' -> no_user m' d -> beside d free' m'.
Proof.
  intros Hk Hb [E1 E2] Hs Hn. pose proof Hb as [B1 B2 B3 B4]. split; try done.
  - intros q. by rewrite E1.
  - intros q x Hq Hx. rewrite E2; [by apply (B4 q)|]. intros r Hr.
    apply (pages_apart kend free0 p m0 free d m k q r x); try done. intros q'. by apply beside_apart.
Qed.

(** The old image is still there. *)
Lemma beside_old d free m :
  beside d free m ->
  space kend free p m /\ (forall x, 0 <= x < 2 ^ 32 -> pte_at m p x = pte_at m0 p x) /\
  (forall q, owned m p q <-> owned m0 p q) /\ forall x, mapped m0 p x -> uread m p x = uread m0 p x.
Proof.
  intros Hb. pose proof Hb as [B1 B2 B3 B4]. apply (space_frame kend free0); [done|done|].
  intros q Hq Hin. apply (beside_apart d free m q Hb Hq). by left.
Qed.

End building.

Lemma no_user_kept m m' d : (forall x, KERNBASE <= x < 2 ^ 32 -> pte_at m' d x = pte_at m d x) -> no_user m d -> no_user m' d.
Proof. intros E Hn x Hx. rewrite E by done. by apply Hn. Qed.

(** The fields of the process are as they were. *)
Definition same_proc s t : Prop :=
  epgdir t = epgdir s /\ esz t = esz s /\ eeip t = eeip s /\ eesp t = eesp s /\ ename t = ename s.

(** [s]: the state when exec was called. *)
Record built s (free0 : list Z) (d : Z) t : Prop := {
  bt_proc : same_proc s t;
  bt_free : exists free, kinv kend free (ekm t) /\ beside (epgdir s) (ram (ekm s)) free0 d free (ram (ekm t)) }.

Definition building s free0 d sz t : Prop := built s free0 d t /\ spans (ram (ekm t)) d sz /\ 0 <= sz < KERNBASE.

Lemma built_efs s free0 d t f : built s free0 d t -> built s free0 d (with_efs f t).
Proof. by intros [H1 H2]. Qed.

Lemma building_efs s free0 d sz t f : building s free0 d sz t -> building s free0 d sz (with_efs f t).
Proof. intros [H1 H2]. split; [by apply built_efs|done]. Qed.

Section steps.
Context (s : est T) (free0 : list Z) (Hs0 : space kend free0 (epgdir s) (ram (ekm s))).
#[local] Set Default Proof Using "Type*".

Lemma built_ekm d t k free free' :
  built s free0 d t -> kinv kend free (ekm t) -> beside (epgdir s) (ram (ekm s)) free0 d free (ram (ekm t)) ->
  kinv kend free' k -> evolves d free (ram (ekm t)) free' (ram k) -> space kend free' d (ram k) -> no_user (ram k) d ->
  built s free0 d (with_ekm k t).
Proof.
  intros [H1 _] Hk Hb Hk' He Hs Hn. split; [done|]. exists free'. split; [done|].
  by apply (beside_step (epgdir s) (ram (ekm s)) free0 Hs0 d free (ram (ekm t)) free' (ram k) (ekm t)).
Qed.

(** Changes to frames only. *)
Lemma built_rewritten d t k free :
  built s free0 d t -> kinv kend free (ekm t) -> beside (epgdir s) (ram (ekm s)) free0 d free (ram (ekm t)) ->
  kinv kend free k -> rewritten kend free d (ram (ekm t)) (ram k) -> built s free0 d (with_ekm k t).
Proof.
  intros Hb Hk Hbs Hk' Hrw. apply (built_ekm d t k free free); try done.
  - by eapply rewritten_evolves.
  - apply Hrw.
  - eapply no_user_rewritten; [exact Hrw|]. apply Hbs.
Qed.

Lemma spans_rewritten free d m m' sz : rewritten kend free d m m' -> spans m d sz -> spans m' d sz.
Proof. intros Hrw Hsz x Hx. rewrite (rewritten_mapped kend free d m m' x Hrw). by apply Hsz. Qed.

(** allocuvm on the new space, whatever size is asked for. *)
Lemma post_allocuvm d sz newsz t :
  building s free0 d sz t -> 0 <= newsz ->
  post (onk (allocuvm kend stk d sz newsz)) t (fun r u => built s free0 d u /\
    (r <> 0 -> building s free0 d r u /\ newsz <= r /\ (forall x, mapped (ram (ekm t)) d x -> uread (ram (ekm u)) d x = uread (ram (ekm t)) d x) /\
       (sz <= newsz -> r = newsz /\ forall x, PGROUNDUP sz <= x < PGROUNDUP newsz -> user (ram (ekm u)) d x))).
Proof.
  intros (Hb & Hsp & Hsz) Hn. pose proof Hb as [Hp (free & Hk & Hbs)]. apply post_onk.
  destruct (decide (KERNBASE <= newsz)) as [E|E].
  { unfold allocuvm. rewrite (proj2 (Z.leb_le _ _)) by done. apply post_ret. by destruct t. }
  destruct (decide (newsz < sz)) as [E2|E2].
  { unfold allocuvm. rewrite (proj2 (Z.leb_gt _ _)), (proj2 (Z.ltb_lt _ _)) by lia. apply post_ret.
    split; [by destruct t|]. intros _. split; [|split; [lia|split; [done|lia]]]. destruct t. done. }
  apply post_wp. destruct (PGROUNDUP_spec newsz) as [Hnm Hnb]; [unfold KERNBASE, PGSIZE in *; lia|].
  destruct (PGROUNDUP_spec sz) as [Hom Hob]; [unfold KERNBASE, PGSIZE in *; lia|].
  assert (PGROUNDUP newsz <= KERNBASE) as HnK by (unfold KERNBASE, PGSIZE in *; zdm).
  assert (forall x, KERNBASE <= x < 2 ^ 32 -> 0 <= x < 2 ^ 32 /\ ~ PGROUNDUP sz <= x < PGROUNDUP newsz) as Hhi by (unfold KERNBASE in *; lia).
  apply (wp_allocuvm kend stk d sz newsz free (ekm t)); try done; [apply Hbs|lia|lia| | |].
  - intros x Hx. apply (spans_not_mapped _ _ sz); [done|lia..].
  - intros free' k Hk' Hsh. split; [|done]. apply (built_ekm d t k free free'); try done; [apply Hsh..|].
    apply (no_user_kept (ram (ekm t))); [|apply Hbs]. intros x Hx. destruct (Hhi x Hx). by apply (sh_kept _ _ _ _ _ _ _ _ Hsh).
  - intros free' k Hk' Hgr. assert (built s free0 d (with_ekm k t)) as Hb'.
    { apply (built_ekm d t k free free'); try done; [apply Hgr..|].
      apply (no_user_kept (ram (ekm t))); [|apply Hbs]. intros x Hx. destruct (Hhi x Hx). by apply (gr_kept _ _ _ _ _ _ _ _ Hgr). }
    split; [done|]. intros _. split; [split; [done|split; [|lia]]|split; [lia|split]].
    + eapply (grown_spans kend d sz newsz free _ free'); try done; lia.
    + intros x Hx. apply (gr_read _ _ _ _ _ _ _ _ Hgr); [done|]. assert (0 <= x < KERNBASE) as Hr by apply Hx. apply Hsp in Hx; [lia|done].
    + intros _. split; [done|]. intros x Hx. by apply (gr_new _ _ _ _ _ _ _ _ Hgr).
Qed.

(** Loading a page. *)
Lemma post_loaduvm_loop fuel d addr ip offset i fsz sz t :
  devread_ok -> building s free0 d sz t -> 0 <= addr -> addr mod PGSIZE = 0 -> 0 <= i -> i mod PGSIZE = 0 -> addr + fsz <= sz ->
  post (loaduvm_loop devread stk fuel d addr ip offset i fsz) t (fun _ => building s free0 d sz).
Proof.
  intros Hdev. revert i t. induction fuel as [|fuel IH]; intros i t Hbd Ha Ham Hi Him Hfsz; cbn [loaduvm_loop]; [by apply post_ret|].
  destruct (Z.ltb_spec i fsz) as [Hlt|Hge]; [|by apply post_ret]. pose proof Hbd as (Hb & Hsp & Hsz).
  pose proof Hb as [Hp (free & Hk & Hbs)]. pose proof (bs_space _ _ _ _ _ _ Hbs) as Hs.
  assert (0 <= addr + i < KERNBASE) as Hr by lia. rewrite (u32_small (addr + i)) by (unfold KERNBASE in *; lia).
  assert (mapped (ram (ekm t)) d (addr + i)) as Hm.
  { apply Hsp; [done|]. destruct (PGROUNDUP_spec sz) as [_ ?]; unfold KERNBASE, PGSIZE in *; lia. }
  pose proof (mapped_32 _ _ _ Hm) as H32. destruct (present_tab _ _ _ (proj2 Hm)) as [tb Et].
  destruct (PDX_spec _ H32) as [_ Hd]. destruct (PTX_spec _ H32) as [_ Hx].
  destruct (pt_tab _ _ _ _ (sp_pt _ _ _ _ Hs) _ _ Hd Et) as (T1 & _). assert (KERNBASE < tb) by apply T1.
  apply post_bind, post_onk. intros a k Hr'. rewrite walk_noalloc, Et in Hr'. injection Hr' as <- <-.
  rewrite (proj2 (Z.eqb_neq _ 0)) by (unfold KERNBASE in *; lia). apply post_bind, post_onk, post_gets. cbn [ekm with_ekm].
  assert (load32 (ram (ekm t)) (tb + 4 * PTX (addr + i)) = pte_at (ram (ekm t)) d (addr + i)) as -> by (unfold pte_at; by rewrite Et).
  set (n := if _ <? _ then _ else _). assert (0 <= n <= PGSIZE) as Hn by (unfold n; case_match; bools; unfold PGSIZE in *; lia).
  apply post_bind. eapply post_onfs; [apply post_readi; [done|unfold PGSIZE in *; lia]|]. intros [r bs] f Hlen. cbn [snd fst] in *.
  apply post_bind, post_onk, post_modify. cbn [ekm with_ekm with_efs].
  change (P2V (PTE_ADDR (pte_at (ram (ekm t)) d (addr + i)))) with (frame_of (ram (ekm t)) d (addr + i)).
  destruct (write_bytes_user kend free d (ram (ekm t)) (addr + i) bs 0 Hs Hm) as [Hrw _]; [lia|lia|].
  rewrite Z.add_0_r in Hrw. set (m' := write_bytes _ _ _) in *.
  assert (building s free0 d sz (with_ekm (with_ram m' (ekm t)) (with_efs f t))) as Hbd'.
  { split; [|split; [by eapply spans_rewritten|done]]. apply (built_rewritten d (with_efs f t) _ free); try done; [by apply built_efs|].
    apply (rewritten_kinv kend free (ekm t) d); try done. apply write_bytes_byte_mem, Hk. }
  destruct (negb (r =? n)); [apply post_ret; by destruct t|]. apply IH; try done; [unfold PGSIZE in *; lia|unfold PGSIZE in *; zdm].
Qed.

Lemma post_load_segment d ip ph sz t :
  devread_ok -> 0 <= ph_vaddr ph < 2 ^ 32 -> 0 <= ph_memsz ph < 2 ^ 32 -> building s free0 d sz t ->
  post (load_segment devread kend stk d ip ph sz) t (fun r u =>
    match r with None => built s free0 d u | Some sz => building s free0 d sz u end).
Proof.
  intros Hdev Hva Hmem Hbd. unfold load_segment. destruct (Z.ltb_spec (ph_memsz ph) (ph_filesz ph)); [by apply post_ret, Hbd|].
  destruct (Z.ltb_spec (u32 (ph_vaddr ph + ph_memsz ph)) (ph_vaddr ph)) as [|Hw]; [by apply post_ret, Hbd|].
  apply post_bind. eapply post_mono; [apply (post_allocuvm d sz); [done|apply u32_range]|]. intros r u [Hbu Hok].
  destruct (Z.eqb_spec r 0) as [->|Hr]; [by apply post_ret|]. destruct (Hok Hr) as (Hbd' & Hle & _).
  destruct (Z.eqb_spec (ph_vaddr ph mod PGSIZE) 0) as [Ham|Ham]; cbn [negb]; [|by apply post_ret].
  apply post_bind. unfold loaduvm. rewrite Ham. cbn [Z.eqb negb]. eapply post_mono; [apply post_loaduvm_loop; try done|].
  - lia.
  - assert (u32 (ph_vaddr ph + ph_memsz ph) = ph_vaddr ph + ph_memsz ph) as E; [|lia]. unfold u32 in *.
    destruct (decide (ph_vaddr ph + ph_memsz ph < 2 ^ 32)); [apply Z.mod_small; lia|].
    rewrite (Z.mod_eq _ (2 ^ 32)) in Hw by lia. assert ((ph_vaddr ph + ph_memsz ph) / 2 ^ 32 = 1) as E1; [|rewrite E1 in Hw; lia].
    symmetry. apply (Z.div_unique _ _ 1 (ph_vaddr ph + ph_memsz ph - 2 ^ 32)); lia.
  - intros x v Hbv. destruct (x <? 0); apply post_ret; [apply Hbv|done].
Qed.

Lemma get32_bytes (d : list Z) off : 0 <= get32 (u8 <$> d) off < 2 ^ 32.
Proof.
  unfold get32, slice. set (l := take 4 _). assert (bytes l) as Hb.
  { apply Forall_take, Forall_drop, Forall_fmap, Forall_forall. intros x _. apply u8_range. }
  pose proof (le_val_range l Hb) as Hr. assert (Z.of_nat (length l) <= 4) as Hl by (unfold l; rewrite length_take; lia).
  split; [lia|]. eapply Z.lt_le_trans; [apply Hr|]. apply Z.pow_le_mono_r; lia.
Qed.

Lemma post_load_loop k d ip off sz t :
  devread_ok -> building s free0 d sz t ->
  post (load_loop devread kend stk k d ip off sz) t (fun r u =>
    match r with None => built s free0 d u | Some sz => building s free0 d sz u end).
Proof.
  intros Hdev. revert off sz t. induction k as [|k IH]; intros off sz t Hbd; cbn [load_loop]; [by apply post_ret|].
  apply post_bind, post_onfs_any. intros [r bs] f. assert (building s free0 d sz (with_efs f t)) as Hbd' by by apply building_efs.
  destruct (negb _); [by apply post_ret, Hbd'|]. destruct (negb _); [by apply IH|].
  apply post_bind. eapply post_mono; [apply (post_load_segment d ip _ sz); try done; apply get32_bytes|].
  intros [sz'|] u Hu; [by apply IH|by apply post_ret].
Qed.

(** Exec has failed: the process is as before, and every page is free again. *)
Definition failed (lost : Prop) t : Prop :=
  same_proc s t /\ exists free, kinv kend free (ekm t) /\ (forall q, q ∈ free -> q ∈ free0) /\
    (lost \/ forall q, q ∈ free0 -> q ∈ free) /\
    (forall q x, owned (ram (ekm s)) (epgdir s) q -> inpage q x -> ram (ekm t) x = ram (ekm s) x).

Lemma post_bad_fs lost ip t : failed lost t -> post (match ip with Some ip => onfs (iunlockput ip);; onfs (liftl end_op) | None => mret tt end) t
  (fun _ => failed lost).
Proof.
  intros Hf. destruct ip as [ip|]; [|by apply post_ret]. apply post_bind, post_onfs_any. intros _ f. apply post_onfs_any. intros _ g.
  by destruct t.
Qed.

Lemma post_bad lost d ip t : built s free0 d t -> post (bad kend stk d ip) t (fun r u => r = -1 /\ failed lost u).
Proof.
  intros [Hp (free & Hk & Hbs)]. pose proof (bs_space _ _ _ _ _ _ Hbs) as Hs.
  destruct (page_ok_nonzero _ _ (pt_dir _ _ _ _ (sp_pt _ _ _ _ Hs))) as [Hd0 _]. unfold bad. rewrite (proj2 (Z.eqb_neq d 0)) by done.
  apply post_bind. cbn [negb when]. apply post_onk, post_wp. apply (wp_freevm kend stk d free); [done..|]. intros free' k Hk' Hfr Hsame.
  apply post_bind. eapply post_mono; [apply (post_bad_fs lost)|intros [] u Hu; by apply post_ret].
  split; [by destruct t|]. exists free'. split; [done|]. split; [|split; [right|]].
  - intros q Hq. by apply (bs_pool _ _ _ _ _ _ Hbs), Hfr.
  - intros q Hq. by apply Hfr, (bs_pool _ _ _ _ _ _ Hbs).
  - intros q x Hq Hx. cbn [ekm with_ekm]. rewrite Hsame; [by apply (bs_parent _ _ _ _ _ _ Hbs q)|]. intros r Hr.
    apply (pages_apart kend free0 (epgdir s) (ram (ekm s)) free d (ram (ekm t)) (ekm t) q r x); try done.
    intros q'. by eapply beside_apart.
Qed.

Lemma post_bad0 lost ip t : failed lost t -> post (bad kend stk 0 ip) t (fun r u => r = -1 /\ failed lost u).
Proof.
  intros Hf. unfold bad. cbn [Z.eqb negb when]. apply post_bind, post_ret, post_bind.
  eapply post_mono; [by apply (post_bad_fs lost)|]. intros [] u Hu. by apply post_ret.
Qed.

(** * The stack *)

(** A page nobody can use below the stack page. *)
Record guarded (m : mem) (d sz : Z) : Prop := {
  gd_spans : spans m d sz;
  gd_page : sz mod PGSIZE = 0;
  gd_sz : 3 * PGSIZE <= sz < KERNBASE;
  gd_guard x : sz - 2 * PGSIZE <= x < sz - PGSIZE -> ~ user m d x }.

(** The string [a] is at [p], above [sp]. *)
Definition arg_at (m : mem) (d sp sz : Z) (a : list Z) (p : Z) : Prop :=
  sp <= p /\ p + Z.of_nat (length a) + 1 <= sz /\ p mod 4 = 0 /\ uslice m d p (length (a ++ [0])) = a ++ [0].

Record image (m : mem) (d sz pointer : Z) (argv : list (list Z)) (sp : Z) (ptrs : list Z) : Prop := {
  im_guard : guarded m d sz;
  im_below : 0 <= pointer /\ pointer + Z.of_nat (length code) <= sz - 2 * PGSIZE;
  im_code : uslice m d pointer (length code) = code;
  im_args : Forall2 (arg_at m d sp sz) argv ptrs;
  im_sp : sz - PGSIZE <= sp <= sz /\ sp mod 4 = 0 }.

Lemma guarded_rewritten free m m' d sz : rewritten kend free d m m' -> guarded m d sz -> guarded m' d sz.
Proof.
  intros Hrw [G1 G2 G3 G4]. split; try done; [by eapply spans_rewritten|]. intros x Hx.
  rewrite (user_rewritten kend free d m m' x Hrw). by apply G4.
Qed.

Lemma guarded_mapped m d sz x : guarded m d sz -> 0 <= x < sz -> mapped m d x.
Proof.
  intros [G1 G2 G3 G4] Hx. apply G1; [lia|]. destruct (PGROUNDUP_spec sz) as [_ ?]; unfold KERNBASE, PGSIZE in *; lia.
Qed.

(** Only the stack below [sp] and the guard page may change. *)
Lemma image_ext m m' d sz pointer argv sp ptrs :
  image m d sz pointer argv sp ptrs -> spans m' d sz -> (forall x, user m' d x -> user m d x) ->
  (forall x, 0 <= x < sz -> x < sz - 2 * PGSIZE \/ sp <= x -> uread m' d x = uread m d x) ->
  image m' d sz pointer argv sp ptrs.
Proof.
  intros [I1 I2 I3 I4 I5] Hsp Hu Hrd. pose proof (gd_sz _ _ _ I1) as Hsz. split; try done.
  - destruct I1 as [G1 G2 G3 G4]. split; try done. intros x Hx Hux. by apply (G4 x), Hu.
  - rewrite <- I3 at 2. apply uslice_ext. intros x Hx. unfold PGSIZE in *. apply Hrd; lia.
  - eapply Forall2_impl; [exact I4|]. intros a p (A1 & A2 & A3 & A4). split_and!; try done.
    rewrite <- A4 at 2. apply uslice_ext. rewrite length_app. intros x Hx. simpl in Hx. unfold PGSIZE in *. apply Hrd; lia.
Qed.

(** Bytes stored into the stack below [sp] leave the image. *)
Lemma image_copyout free m m' d sz pointer argv sp ptrs va bs :
  image m d sz pointer argv sp ptrs -> rewritten kend free d m m' ->
  (forall y, mapped m d y -> uread m' d y = copied va bs (uread m d) y) ->
  sz - PGSIZE <= va -> va + Z.of_nat (length bs) <= sp -> image m' d sz pointer argv sp ptrs.
Proof.
  intros Him Hrw Hrd Hva Hend. pose proof (im_guard _ _ _ _ _ _ _ Him) as Hg. apply (image_ext m); [done|..].
  - eapply spans_rewritten, gd_spans; done.
  - intros x. apply (user_rewritten kend free d m m' x Hrw).
  - intros x Hx Ho. rewrite Hrd by by apply (guarded_mapped m d sz). unfold copied. rewrite decide_False; [done|].
    unfold PGSIZE in *. lia.
Qed.

(** A string that copyout could store is in the stack page, below sp. *)
Lemma push_fits m d sz sp n (va := Z.land (u32 (sp - n)) (u32 (Z.lnot 3))) :
  guarded m d sz -> sz - PGSIZE <= sp <= sz -> sp mod 4 = 0 -> 1 <= n ->
  (forall x, va <= x < va + n -> user m d x) -> sz - PGSIZE <= va /\ va + n <= sp /\ va mod 4 = 0 /\ 0 <= va < 2 ^ 32.
Proof.
  clear s free0 Hs0 devread.
  intros [G1 G2 G3 G4] Hsp Hmod Hn Hu. assert (va = u32 (sp - n) - u32 (sp - n) mod 4) as Hva by exact (land_high _ 2 (u32_range _) ltac:(lia)).
  pose proof (u32_range (sp - n)) as Hr. pose proof (Z.mod_pos_bound (u32 (sp - n)) 4 ltac:(lia)) as Hm4.
  assert (va mod 4 = 0) as Hv4 by (rewrite Hva; zdm). pose proof (Z.mod_le (u32 (sp - n)) 4 ltac:(lia) ltac:(lia)).
  assert (0 <= va < 2 ^ 32) as Hvr by lia.
  assert (n <= sp) as Hnsp.
  { destruct (decide (n <= sp)) as [|Hgt]; [done|exfalso]. assert (KERNBASE < va + n) as Hbig.
    { assert ((sp - n) / 2 ^ 32 < 0) by (apply Z.div_lt_upper_bound; lia).
      assert (sp - n + 2 ^ 32 <= u32 (sp - n)) by (unfold u32; rewrite Z.mod_eq by lia; lia). unfold KERNBASE, PGSIZE in *. lia. }
    destruct (Hu (Z.max va KERNBASE)) as [Hk _]; [lia|]. lia. }
  unfold PGSIZE, KERNBASE in *. rewrite (u32_small (sp - n)) in Hva, Hm4 by lia.
  split; [|split; [lia|done]]. destruct (decide (sz - 4096 <= va)) as [|Hlow]; [done|exfalso].
  apply (G4 (Z.max va (sz - 2 * 4096))); [lia|]. apply Hu. lia.
Qed.

Lemma post_copyout_new d va bs t (Q : Z -> est T -> Prop) :
  built s free0 d t -> 0 <= va < 2 ^ 32 ->
  (forall k, built s free0 d (with_ekm k t) -> Q (-1) (with_ekm k t)) ->
  (forall k free, built s free0 d (with_ekm k t) -> rewritten kend free d (ram (ekm t)) (ram k) ->
     (forall x, va <= x < va + Z.of_nat (length bs) -> user (ram (ekm t)) d x) ->
     (forall y, mapped (ram (ekm t)) d y -> uread (ram k) d y = copied va bs (uread (ram (ekm t)) d) y) ->
     Q 0 (with_ekm k t)) ->
  post (onk (copyout stk d va bs)) t Q.
Proof.
  intros Hb Hva HQ1 HQ0. pose proof Hb as [Hp (free & Hk & Hbs)]. apply post_onk.
  eapply post_mono; [apply (post_copyout kend stk d va bs free); try done; apply Hbs|].
  intros r k (Hk' & Hrw & Hr & Hok). assert (built s free0 d (with_ekm k t)) as Hb' by by apply (built_rewritten d t k free).
  destruct Hr as [->| ->]; [|by apply HQ1]. destruct (Hok eq_refl) as [H1 H2]. by apply (HQ0 k free).
Qed.

Lemma post_push_args d sz pointer argv argv0 sp ptrs t :
  built s free0 d t -> image (ram (ekm t)) d sz pointer argv0 sp ptrs -> Forall bytes argv ->
  post (push_args stk d argv sp ptrs) t (fun r u => built s free0 d u /\
    match r with None => True | Some (sp', ptrs') => image (ram (ekm u)) d sz pointer (argv0 ++ argv) sp' ptrs' end).
Proof.
  revert argv0 sp ptrs t. induction argv as [|a argv IH]; intros argv0 sp ptrs t Hb Him Hby; cbn [push_args].
  { apply post_ret. by rewrite app_nil_r. }
  apply Forall_cons in Hby as [Ha Hby]. destruct (MAXARG <=? length ptrs)%nat; [by apply post_ret|].
  set (va := Z.land _ _). pose proof (im_guard _ _ _ _ _ _ _ Him) as Hg. destruct (im_sp _ _ _ _ _ _ _ Him) as [Hsp Hmod].
  assert (0 <= va < 2 ^ 32) as Hva.
  { unfold va. change (u32 (Z.lnot 3)) with (Z.shiftl (Z.ones (32 - 2)) 2). rewrite land_high by (apply u32_range || lia).
    pose proof (u32_range (sp - (Z.of_nat (length a) + 1))) as Hr. change (2 ^ 2) with 4.
    pose proof (Z.mod_pos_bound (u32 (sp - (Z.of_nat (length a) + 1))) 4 ltac:(lia)).
    pose proof (Z.mod_le (u32 (sp - (Z.of_nat (length a) + 1))) 4 ltac:(lia) ltac:(lia)). lia. }
  apply post_bind. apply post_copyout_new; [done|done|intros k Hk; by apply post_ret|].
  intros k free Hb' Hrw Hus Hrd. rewrite length_app in Hus. cbn [length] in Hus.
  destruct (push_fits (ram (ekm t)) d sz sp (Z.of_nat (length a) + 1)) as (V1 & V2 & V3 & _); try done; [lia|intros x Hx; apply Hus; fold va in Hx; lia|].
  fold va in V1, V2, V3. assert (image (ram k) d sz pointer argv0 sp ptrs) as Him'.
  { eapply (image_copyout free (ram (ekm t))); try done. rewrite length_app. simpl. lia. }
  cbn [Z.ltb]. replace (argv0 ++ a :: argv) with ((argv0 ++ [a]) ++ argv) by by rewrite <- app_assoc.
  apply IH; [done| |done]. destruct Him' as [I1 I2 I3 I4 I5]. split; try done.
  - apply Forall2_app.
    + eapply Forall2_impl; [exact I4|]. intros b q (B1 & B2 & B3 & B4). split_and!; try done. lia.
    + constructor; [|constructor]. split_and!; try done; try lia. cbn [ekm with_ekm]. eapply uslice_copied.
      * apply Forall_app. split; [done|]. repeat constructor; lia.
      * rewrite length_app. intros x Hx. cbn [length] in Hx. apply Hrd, (guarded_mapped _ _ sz); [done|]. pose proof (gd_sz _ _ _ Hg). unfold PGSIZE in *. lia.
  - split; [lia|done].
Qed.

(** * The new image *)

(** What user code finds when it starts at eip. *)
Record ready (path : list Z) (argv : list (list Z)) (entry : Z) (ptrs : list Z) (u : est T) : Prop := {
  rd_spans : spans (ram (ekm u)) (epgdir u) (esz u);
  rd_guard x : esz u - 2 * PGSIZE <= x < esz u - PGSIZE -> ~ user (ram (ekm u)) (epgdir u) x;
  rd_code : uslice (ram (ekm u)) (epgdir u) (eeip u) (length code) = code;
  rd_args : Forall2 (arg_at (ram (ekm u)) (epgdir u) (eesp u) (esz u)) argv ptrs;
  rd_stack : let w := words ([0xffffffff; entry; Z.of_nat (length argv); eesp u + 16] ++ ptrs ++ [0]) in
    uslice (ram (ekm u)) (epgdir u) (eesp u) (length w) = w;
  rd_esp : esz u - PGSIZE <= eesp u;
  rd_name : ename u = safestrcpy_buf 15 (ename s) (last_elem path path ++ [0]) }.

(** The pages of the old image are free, and no page is lost. *)
Definition replaced (path : list Z) (argv : list (list Z)) (entry : Z) (u : est T) : Prop :=
  exists free ptrs, kinv kend free (ekm u) /\ space kend free (epgdir u) (ram (ekm u)) /\
    (forall q, pool free (ram (ekm u)) (epgdir u) q <-> q ∈ free0 \/ owned (ram (ekm s)) (epgdir s) q) /\
    ready path argv entry ptrs u.

Lemma length_words l : length (words l) = (4 * length l)%nat.
Proof. induction l as [|v l IH]; [done|]. change (length (le32 v ++ words l) = 4 * S (length l))%nat. rewrite length_app, IH. simpl. lia. Qed.

Lemma bytes_words l : bytes (words l).
Proof.
  induction l as [|v l IH]; [constructor|]. change (bytes (le32 v ++ words l)). apply Forall_app. split; [|done].
  repeat constructor; apply u8_range.
Qed.

(** freevm of the old directory does not touch the new space. *)
Lemma post_free_old d free t (Q : unit -> est T -> Prop) :
  kinv kend free (ekm t) -> beside (epgdir s) (ram (ekm s)) free0 d free (ram (ekm t)) ->
  (forall k free', kinv kend free' k -> space kend free' d (ram k) ->
     (forall q, pool free' (ram k) d q <-> q ∈ free0 \/ owned (ram (ekm s)) (epgdir s) q) ->
     (forall x, 0 <= x < 2 ^ 32 -> pte_at (ram k) d x = pte_at (ram (ekm t)) d x) ->
     (forall x, mapped (ram (ekm t)) d x -> uread (ram k) d x = uread (ram (ekm t)) d x) -> Q tt (with_ekm k t)) ->
  post (onk (freevm kend stk (epgdir s))) t Q.
Proof.
  intros Hk Hbs HQ. destruct (beside_old _ _ _ Hs0 d free (ram (ekm t)) Hbs) as (O1 & O2 & O3 & O4).
  pose proof (bs_space _ _ _ _ _ _ Hbs) as Hs.
  assert (forall q, owned (ram (ekm t)) d q -> ~ pool free (ram (ekm t)) (epgdir s) q) as Hap.
  { intros q Hq [Hin|Ho]; [by destruct (owned_page _ _ _ _ _ Hs Hq)|]. apply O3 in Ho.
    apply (beside_apart _ _ _ Hs0 d free _ q Hbs Ho). by right. }
  apply post_onk, post_wp. apply (wp_freevm kend stk (epgdir s) free); [done..|]. intros free' k Hk' Hfr Hsame.
  destruct (space_frame kend free free' d (ram (ekm t)) (ram k) Hs) as (D1 & D2 & D3 & D4).
  - intros q x Hq Hx. apply Hsame. intros r Hr Hrx. destruct (owned_page _ _ _ _ _ Hs Hq) as [Hqp _].
    assert (page_ok kend r) as Hrp.
    { destruct Hr as [Hr|Hr]; [|by destruct (owned_page _ _ _ _ _ O1 Hr)]. pose proof (k_pages _ _ _ Hk) as Hpg.
      rewrite Forall_forall in Hpg. by apply Hpg. }
    apply (inpage_disjoint kend q r x); try done. intros ->. by apply (Hap r).
  - intros q Hq Hin. by apply (Hap q Hq), Hfr.
  - apply (HQ k free'); try done. intros q. pose proof (bs_pool _ _ _ _ _ _ Hbs q) as Hb. unfold pool in *.
    rewrite Hfr, D3, <- Hb, O3. tauto.
Qed.

(** ustack lies in the stack page. *)
Lemma ustack_fits m d sz sp n (esp := u32 (sp - n)) :
  guarded m d sz -> sz - PGSIZE <= sp <= sz -> 1 <= n <= PGSIZE ->
  (forall x, esp <= x < esp + n -> user m d x) -> esp = sp - n /\ sz - PGSIZE <= esp.
Proof.
  clear s free0 Hs0 devread. intros [G1 G2 G3 G4] Hsp Hn Hu. assert (esp = sp - n) as E by (unfold PGSIZE, KERNBASE in *; apply u32_small; lia).
  split; [done|]. destruct (decide (sz - PGSIZE <= esp)) as [|Hlow]; [done|exfalso].
  apply (G4 esp); [unfold PGSIZE in *; lia|]. apply Hu. lia.
Qed.

(** From the commit on, nothing fails. *)
Lemma post_commit path argv entry d sz pointer sp ptrs esp t
    (w := words ([0xffffffff; entry; Z.of_nat (length argv); esp + 16] ++ ptrs ++ [0])) :
  built s free0 d t -> image (ram (ekm t)) d sz pointer argv sp ptrs -> sz - PGSIZE <= esp -> esp + Z.of_nat (length w) <= sp ->
  uslice (ram (ekm t)) d esp (length w) = w ->
  post (modify (fun s => with_ename (safestrcpy_buf 15 (ename s) (last_elem path path ++ [0])) s);;
        oldpgdir ← gets epgdir; modify (commit_image d sz pointer esp);; switchuvm;; onk (freevm kend stk oldpgdir);; mret 0) t
    (fun r u => r = 0 /\ replaced path argv entry u).
Proof.
  intros [Hpr (free & Hk & Hbs)] Him Hesp Hend Hw. pose proof (im_guard _ _ _ _ _ _ _ Him) as Hg. destruct (im_sp _ _ _ _ _ _ _ Him) as [Hsp _].
  destruct Hpr as (P1 & _ & _ & _ & P5). pose proof (gd_sz _ _ _ Hg) as Hsz.
  apply post_bind, post_modify, post_bind, post_gets. cbn [epgdir with_ename]. rewrite P1, P5. apply post_bind, post_modify.
  unfold switchuvm. apply post_bind, post_bind, post_gets. cbn [epgdir commit_image].
  destruct (page_ok_nonzero _ _ (pt_dir _ _ _ _ (sp_pt _ _ _ _ (bs_space _ _ _ _ _ _ Hbs)))) as [Hd0 _].
  rewrite (proj2 (Z.eqb_neq d 0)) by done. apply post_ret, post_bind. apply (post_free_old d free); [done..|].
  intros k free' Hk' Hs' Hpool Hpte Hrd. cbn [ekm commit_image with_ename] in Hpte, Hrd. apply post_ret. split; [done|].
  assert (image (ram k) d sz pointer argv sp ptrs) as [I1 I2 I3 I4 I5].
  { apply (image_ext (ram (ekm t))); [done|..].
    - intros x Hx. destruct (mapped_ext d (ram (ekm t)) (ram k) x Hpte) as [-> _]. by apply (gd_spans _ _ _ Hg).
    - intros x (Hx & U1 & U2). assert (0 <= x < 2 ^ 32) by (unfold KERNBASE in *; lia). rewrite Hpte in U1, U2 by done. done.
    - intros x Hx _. by apply Hrd, (guarded_mapped _ _ sz). }
  exists free', ptrs. split; [done|]. split; [done|]. split; [done|].
  split; cbn [ekm epgdir esz eeip eesp ename with_ekm commit_image with_ename].
  - apply I1.
  - apply I1.
  - done.
  - eapply Forall2_impl; [exact I4|]. intros a p (A1 & A2 & A3 & A4). split_and!; try done. lia.
  - cbn zeta. fold w. rewrite <- Hw at 2. apply uslice_ext. intros x Hx. apply Hrd, (guarded_mapped _ _ sz); [done|]. unfold PGSIZE in *. lia.
  - done.
  - done.
Qed.

Lemma post_push_ustack path argv entry d sz pointer sp ptrs t (us := ustack entry sp ptrs)
    (esp := u32 (sp - 4 * Z.of_nat (length us))) :
  built s free0 d t -> image (ram (ekm t)) d sz pointer argv sp ptrs -> (length ptrs < MAXARG)%nat ->
  post (r ← onk (copyout stk d esp (words us));
        if r <? 0 then bad kend stk d None
        else
          modify (fun s => with_ename (safestrcpy_buf 15 (ename s) (last_elem path path ++ [0])) s);;
          oldpgdir ← gets epgdir; modify (commit_image d sz pointer esp);; switchuvm;; onk (freevm kend stk oldpgdir);; mret 0) t
    (fun r u => r = -1 /\ failed False u \/ r = 0 /\ replaced path argv entry u).
Proof.
  intros Hb Him Hargc. pose proof Him as [I1 I2 I3 I4 [I5 _]]. pose proof (Forall2_length _ _ _ I4) as Hlen.
  assert (length us = 5 + length ptrs)%nat as Hus by (unfold us, ustack; rewrite !length_app; simpl; lia).
  apply post_bind. apply post_copyout_new; [done|apply u32_range| |].
  { intros k Hk. cbn [Z.ltb Z.compare]. eapply post_mono; [by apply (post_bad False)|]. intros r u Hu. by left. }
  intros k free Hb' Hrw Huser Hrd. rewrite length_words in Huser. cbn [Z.ltb Z.compare].
  destruct (ustack_fits (ram (ekm t)) d sz sp (4 * Z.of_nat (length us)) I1) as [Eesp Hlow].
  { done. } { unfold MAXARG, PGSIZE in *. lia. } { intros x Hx. apply Huser. fold esp in Hx. lia. } fold esp in Eesp, Hlow.
  assert (image (ram k) d sz pointer argv sp ptrs) as Him'.
  { eapply (image_copyout free (ram (ekm t))); try done. rewrite length_words. lia. }
  assert (uslice (ram k) d esp (length (words us)) = words us) as Hstack.
  { eapply uslice_copied; [apply bytes_words|]. rewrite length_words. intros x Hx. pose proof (gd_sz _ _ _ I1).
    apply Hrd, (guarded_mapped _ _ sz); [done|]. unfold PGSIZE in *. lia. }
  assert (us = [0xffffffff; entry; Z.of_nat (length argv); esp + 16] ++ ptrs ++ [0]) as Eus.
  { unfold us, ustack. rewrite Hlen. do 4 f_equal. f_equal. pose proof (gd_sz _ _ _ I1). rewrite u32_small; [lia|].
    unfold MAXARG, PGSIZE, KERNBASE in *. lia. }
  rewrite Eus in Hstack. eapply post_mono; [apply (post_commit path argv entry d sz pointer sp ptrs esp); try done|].
  - rewrite <- Eus, length_words. lia.
  - intros r u Hu. by right.
Qed.

Lemma post_alloc_stack d sz t (sz1 := PGROUNDUP sz) :
  building s free0 d sz t ->
  post (onk (allocuvm kend stk d sz1 (u32 (sz1 + 3 * PGSIZE)))) t (fun r u => built s free0 d u /\
    (r <> 0 -> r = sz1 + 3 * PGSIZE /\ building s free0 d r u)).
Proof.
  intros (Hb & Hsp & Hsz). destruct (PGROUNDUP_spec sz) as [Hm Hr]; [unfold KERNBASE, PGSIZE in *; lia|]. fold sz1 in Hm, Hr.
  assert (u32 (sz1 + 3 * PGSIZE) = sz1 + 3 * PGSIZE) as E by (unfold KERNBASE, PGSIZE in *; apply u32_small; lia). rewrite E.
  destruct (decide (KERNBASE <= sz1)) as [Hbig|Hlt].
  { apply post_onk. unfold allocuvm. rewrite (proj2 (Z.leb_le _ _)) by (unfold PGSIZE in *; lia). apply post_ret. by destruct t. }
  eapply post_mono; [apply post_allocuvm; [|unfold PGSIZE in *; lia]|].
  - split; [done|]. split; [|lia]. intros x Hx. rewrite (Hsp x Hx). destruct (PGROUNDUP_spec sz1) as [Hm2 Hr2]; [unfold KERNBASE, PGSIZE in *; lia|].
    assert (PGROUNDUP sz1 = sz1) as ->; [unfold PGSIZE in *; zdm|done].
  - intros r u [Hu Hok]. split; [done|]. intros Hr0. destruct (Hok Hr0) as (H1 & _ & _ & H2). destruct H2 as [-> _]; [unfold PGSIZE; lia|]. done.
Qed.

(** clearpteu makes the guard page. *)
Lemma post_guard d sz t :
  building s free0 d sz t -> sz mod PGSIZE = 0 -> 3 * PGSIZE <= sz ->
  post (onk (clearpteu stk d (u32 (sz - 2 * PGSIZE)))) t (fun _ u => built s free0 d u /\ guarded (ram (ekm u)) d sz).
Proof.
  intros (Hb & Hsp & Hsz) Hm Hlo. pose proof Hb as [Hp (free & Hk & Hbs)]. rewrite u32_small by (unfold KERNBASE, PGSIZE in *; lia).
  destruct (PGROUNDUP_spec sz) as [_ Hr]; [unfold KERNBASE, PGSIZE in *; lia|].
  apply post_onk, post_wp, (wp_clearpteu kend stk d _ free); [done|apply Hbs|apply Hsp; unfold PGSIZE in *; lia|].
  intros k e Hk' He [R1 R2 R3 R4 R5]. split.
  - apply (built_ekm d t k free free); try done. apply (no_user_kept (ram (ekm t))); [|apply Hbs].
    intros x Hx. rewrite R3, decide_False; [done|unfold PGSIZE, KERNBASE in *; zdm|unfold KERNBASE in *; lia].
  - split; [|done|lia|].
    + intros x Hx. cbn [ekm with_ekm]. rewrite R4. by apply Hsp.
    + intros x Hx (Hk0 & _ & U). cbn [ekm with_ekm] in U. rewrite R3, decide_True, He in U; [done|unfold PGSIZE in *; zdm|unfold KERNBASE in *; lia].
Qed.

Lemma post_exec_image path argv entry d sz t :
  building s free0 d sz t -> Forall bytes argv -> bytes code ->
  post (exec_image kend stk code path argv entry d sz) t
    (fun r u => r = -1 /\ failed False u \/ r = 0 /\ replaced path argv entry u).
Proof.
  intros Hbd Hargv Hcode. pose proof Hbd as (_ & _ & Hsz). destruct (PGROUNDUP_spec sz) as [Hm Hr]; [unfold KERNBASE, PGSIZE in *; lia|].
  assert (forall d u, built s free0 d u -> post (bad kend stk d None) u (fun r u => r = -1 /\ failed False u \/ r = 0 /\ replaced path argv entry u)) as Hbad.
  { intros d' u Hu. eapply post_mono; [by apply (post_bad False)|]. intros; by left. }
  unfold exec_image. apply post_bind. eapply post_mono; [by apply post_alloc_stack|]. intros r u [Hu Hok].
  destruct (Z.eqb_spec r 0) as [->|Hr0]; [by apply Hbad|]. destruct (Hok Hr0) as [Er Hbr].
  assert (r mod PGSIZE = 0) as Hrm by (unfold PGSIZE in *; zdm).
  apply post_bind. eapply post_mono; [apply (post_guard d r); [done|done|unfold PGSIZE in *; lia]|]. intros [] v [Hv Hg].
  apply post_bind. apply post_copyout_new; [done|unfold KERNBASE in *; lia| |].
  { intros k Hk. cbn [Z.ltb Z.compare]. by apply Hbad. }
  intros k free Hb' Hrw Huser Hrd. cbn [Z.ltb Z.compare].
  assert (sz + Z.of_nat (length code) <= r - 2 * PGSIZE) as Hbelow.
  { destruct (decide (sz + Z.of_nat (length code) <= r - 2 * PGSIZE)) as [|Hn]; [done|exfalso].
    apply (gd_guard _ _ _ Hg (r - 2 * PGSIZE)); [unfold PGSIZE; lia|]. apply Huser. unfold PGSIZE in *. lia. }
  apply post_bind. eapply post_mono; [apply (post_push_args d r sz argv [] r []); [done| |done]|].
  - split; [by eapply guarded_rewritten|lia| |constructor|].
    + eapply uslice_copied; [done|]. intros x Hx. apply Hrd, (guarded_mapped _ _ r); [done|]. unfold PGSIZE in *. lia.
    + split; [unfold PGSIZE; lia|]. unfold PGSIZE in *. zdm.
  - intros [[sp ptrs]|] w [Hw Hi]; [|by apply Hbad]. destruct (Nat.leb_spec (3 + MAXARG + 1) (4 + length ptrs)); [done|].
    apply (post_push_ustack path argv entry d r sz sp ptrs); [done|done|lia].
Qed.

(** setupkvm found no memory, and has lost the pages it took. *)
Definition no_kvm : Prop := exists k, setupkvm stk data (ekm s) = Ok (0, k).

(** The process goes on as before. *)
Definition goes_on t : Prop :=
  same_proc s t /\ exists free, kinv kend free (ekm t) /\ space kend free (epgdir t) (ram (ekm t)) /\
    (forall q, q ∈ free -> q ∈ free0) /\ (no_kvm \/ forall q, q ∈ free0 -> q ∈ free) /\
    forall x, mapped (ram (ekm s)) (epgdir s) x ->
      pte_at (ram (ekm t)) (epgdir t) x = pte_at (ram (ekm s)) (epgdir s) x /\
      uread (ram (ekm t)) (epgdir t) x = uread (ram (ekm s)) (epgdir s) x.

Lemma failed_goes_on t : failed no_kvm t -> goes_on t.
Proof.
  intros [Hp (free & Hk & Hsub & Hall & Hmem)]. split; [done|]. destruct Hp as (-> & _). exists free.
  destruct (space_frame kend free0 free (epgdir s) (ram (ekm s)) (ram (ekm t)) Hs0 Hmem) as (D1 & D2 & D3 & D4).
  { intros q Hq Hin. destruct (owned_page _ _ _ _ _ Hs0 Hq) as [_ Hn]. by apply Hn, Hsub. }
  split_and!; try done. intros x Hx. split; [by eapply D2, mapped_32|by apply D4].
Qed.

Lemma failed_mono (P Q : Prop) t : (P -> Q) -> failed P t -> failed Q t.
Proof. intros HPQ [Hp (free & Hk & Hsub & Hall & Hmem)]. split; [done|]. exists free. split_and!; try done. destruct Hall; auto. Qed.

Lemma post_exec_tail path argv elf ip t :
  devread_ok -> kinv kend free0 (ekm s) -> kmaps_from KERNBASE (kmaps data) -> Forall bytes argv -> bytes code ->
  same_proc s t -> ekm t = ekm s ->
  post (pgdir ← onk (setupkvm stk data);
        if pgdir =? 0 then bad kend stk 0 (Some ip)
        else
          x ← load_loop devread kend stk (Z.to_nat (e_phnum elf)) pgdir ip (e_phoff elf) 0;
          match x with
          | None => bad kend stk pgdir (Some ip)
          | Some sz => onfs (iunlockput ip);; onfs (liftl end_op);; exec_image kend stk code path argv (e_entry elf) pgdir sz
          end) t (fun r u => r = -1 /\ failed no_kvm u \/ r = 0 /\ replaced path argv (e_entry elf) u).
Proof.
  intros Hdev Hk Hmaps Hargv Hcode Hp Ek.
  assert (forall q x, owned (ram (ekm s)) (epgdir s) q -> inpage q x -> forall r, r ∈ free0 -> ~ inpage r x) as Hap.
  { intros q x Hq Hx r Hr Hrx. destruct (owned_page _ _ _ _ _ Hs0 Hq) as [H1 H2]. pose proof (k_pages _ _ _ Hk) as Hpg.
    rewrite Forall_forall in Hpg. apply (inpage_disjoint kend q r x); try done; [by apply Hpg|congruence]. }
  apply post_bind, post_onk. rewrite Ek. intros d k Hrun. destruct (wp_setupkvm kend stk data free0 (ekm s)
    (fun d k => d = 0 /\ failed True (with_ekm k t) \/ d <> 0 /\ building s free0 d 0 (with_ekm k t)) Hk Hmaps) as (d' & k' & Hrun' & Hcase).
  - intros free' k' Hsub Hk' Hm. left. split; [done|]. split; [done|]. exists free'. split_and!; try done; [by left|].
    intros q x Hq Hx. apply Hm. intros r Hr. by apply (Hap q x).
  - intros d' free' k' Hd' Hd0 Hk' Hs' Hnm _ Hnu Hpool Hm. right. split; [done|]. split; [split; [done|]|split; [|unfold KERNBASE; lia]].
    + exists free'. split; [done|]. split; try done. intros q x Hq Hx. apply Hm. intros r Hr. by apply (Hap q x).
    + intros x Hx. change (PGROUNDUP 0) with 0. split; [intros Hmx; by destruct (Hnm x)|lia].
  - rewrite Hrun in Hrun'. injection Hrun' as <- <-. destruct Hcase as [[-> Hf]|[Hd0 Hbd]].
    + cbn [Z.eqb]. eapply post_mono; [apply (post_bad0 no_kvm)|intros; by left]. eapply failed_mono; [|done]. intros _. by exists k.
    + rewrite (proj2 (Z.eqb_neq d 0)) by done. apply post_bind. eapply post_mono; [by apply (post_load_loop _ d)|].
      intros [sz|] u Hu; [|eapply post_mono; [by apply (post_bad no_kvm)|intros; by left]].
      apply post_bind, post_onfs_any. intros _ f. apply post_bind, post_onfs_any. intros _ g.
      eapply post_mono; [apply post_exec_image; [by apply building_efs, building_efs|done..]|].
      intros r w [[-> Hf]|Hw]; [left|by right]. split; [done|]. by apply (failed_mono False).
Qed.

(** [path] names an ELF file whose entry point is [entry]. *)
Definition names_elf (path : list Z) (entry : Z) : Prop :=
  exists ip bs f1 f2 f3 f4, liftl begin_op (efs s) = Ok (tt, f1) /\ namei devread path junk f1 = Ok (Some ip, f2) /\
    ilock ip f2 = Ok (tt, f3) /\ readi devread ip 0 sizeof_elfhdr f3 = Ok ((sizeof_elfhdr, bs), f4) /\
    e_magic (elf_decode bs) = ELF_MAGIC /\ e_entry (elf_decode bs) = entry.

(** C12. A call of exec that returns leaves one of two processes. With -1 it
    is the process that called: the fields of proc, every entry and every
    byte of its memory are the same, and no page is lost unless setupkvm ran
    out of memory. With 0 the new page directory has exactly sz bytes, the
    stub code at eip, a page below the stack that user code cannot touch, and
    on the stack the return address -1, the entry point of the program, argc,
    argv and the argument strings; the pages of the old image are free again. *)
Theorem exec_replaces path argv r t :
  devread_ok -> kinv kend free0 (ekm s) -> kmaps_from KERNBASE (kmaps data) -> Forall bytes argv -> bytes code ->
  exec devread kend data stk junk code path argv s = Ok (r, t) ->
  r = -1 /\ goes_on t \/ r = 0 /\ exists entry, names_elf path entry /\ replaced path argv entry t.
Proof.
  intros Hdev Hk Hmaps Hargv Hcode Hrun.
  enough (post (exec devread kend data stk junk code path argv) s (fun r u => r = -1 /\ failed no_kvm u \/
    r = 0 /\ exists entry, names_elf path entry /\ replaced path argv entry u)) as Hpost.
  { destruct (Hpost r t Hrun) as [[-> Hf]|Hok]; [left|by right]. split; [done|]. by apply failed_goes_on. }
  clear r t Hrun. unfold exec. assert (forall f, failed no_kvm (with_efs f s)) as Hf0.
  { intros f. split; [done|]. exists free0. split_and!; try done. by right. }
  assert (forall f ip, post (bad kend stk 0 ip) (with_efs f s) (fun r u => r = -1 /\ failed no_kvm u \/
    r = 0 /\ exists entry, names_elf path entry /\ replaced path argv entry u)) as Hbad.
  { intros f ip. eapply post_mono; [by apply (post_bad0 no_kvm)|]. intros r u Hu. by left. }
  apply post_bind, post_onfs_run. intros [] f1 R1. apply post_bind, post_onfs_run. intros [ip|] f2 R2.
  - apply post_bind, post_onfs_run. intros [] f3 R3. apply post_bind, post_onfs_run. intros [n bs] f4 R4. cbn [fst snd].
    destruct (Z.eqb_spec n sizeof_elfhdr) as [->|]; cbn [negb]; [|by apply (Hbad f4)].
    destruct (Z.eqb_spec (e_magic (elf_decode bs)) ELF_MAGIC) as [Emg|]; cbn [negb]; [|by apply (Hbad f4)].
    eapply post_mono; [by apply (post_exec_tail path argv)|]. intros r u [Hu|[-> Hu]]; [by left|right]. split; [done|].
    exists (e_entry (elf_decode bs)). split; [|done]. by exists ip, bs, f1, f2, f3, f4.
  - apply post_bind, post_onfs_any. intros _ f3. apply post_ret. left. split; [done|]. apply (Hf0 f3).
Qed.

End steps.

End props.

(** exec of an empty file by the process of [SpaceDemo]. *)
Definition ex0 : est bcache :=
  let ino := mkInode ROOTDEV 2 1 (mkSleeplock 0 "inode" 0) I_VALID T_FILE 0 0 1 0 (replicate 13 0) in
  mkEst SpaceDemo.start (mkFss [ino] Demo.sb0 1 0 (mkLst (Demo.log0 0) (booted FsDemo.disk1 1))) VmDemo.dir 4096 0 4000 [105; 0].

Lemma exec_replaces_witness :
  exists t, exec (fun _ => None) VmDemo.kend 0x80108000 (replicate 10 0) [] [144] [] [[101]] ex0 = Ok (-1, t) /\
    uread (ram (ekm t)) (epgdir t) 0 = uread (ram SpaceDemo.start) VmDemo.dir 0.
Proof.
  assert (match exec (fun _ => None) VmDemo.kend 0x80108000 (replicate 10 0) [] [144] [] [[101]] ex0 with Ok (r, _) => r = -1 | _ => False end)
    as Hrun by (vm_compute; reflexivity).
  destruct (exec _ _ _ _ _ _ _ _ _) as [[r t]| | |] eqn:E; try contradiction. subst r. exists t. split; [reflexivity|].
  destruct (exec_replaces (fun _ => None) VmDemo.kend 0x80108000 (replicate 10 0) [] [144] ex0 [SpaceDemo.spare] (proj1 SpaceDemo.m3_space)
    [] [[101]] (-1) t) as [[_ (_ & free & _ & _ & _ & _ & Hx)]|[Hr _]].
  - intros major f ip n x r x' Hd. discriminate Hd.
  - exact SpaceDemo.start_kinv.
  - repeat split; vm_compute; congruence.
  - repeat constructor; lia.
  - repeat constructor; lia.
  - exact E.
  - apply Hx, SpaceDemo.m3_space. unfold PGSIZE. lia.
  - discriminate Hr.
Defined.
