(* ===== verification/Boot.v ===== *)
(** bootmain.c: the boot loader reads the kernel from the disk into memory.

    Memory is its bytes at physical addresses; the disk is any controller with
    the laws of Ide.v.  waitdisk has fuel. *)

From S2P Require Import Prelude StringC Codec Vm VmProps Ide Exec.

Definition SECTSIZE : Z := 512.
Definition elf_scratch : Z := 0x10000.

Record bst (D : Type) := mkBst { bmem : mem; bdev : D }.
Arguments mkBst {D} _ _.
Arguments bmem {D} _.
Arguments bdev {D} _.

(** How bootmain ends: it returns to bootasm.S, or it calls the entry point. *)
Inductive bres := BReturn | BEntry (entry : Z).

Section boot.
Context {D : Type} `{IdePorts D}.
Context (polls : nat).

Abbreviation B := (M (bst D)).

Definition boutb (p v : Z) : B unit := modify (fun s => mkBst (bmem s) (pt_outb p (u8 v) (bdev s))).
Definition binb (p : Z) : B Z := act (fun s => let (v, d) := pt_inb p (bdev s) in Ok (v, mkBst (bmem s) d)).
Definition binsl (p addr n : Z) : B unit :=
  modify (fun s => let (bs, d) := pt_insl p n (bdev s) in mkBst (write_bytes (bmem s) addr bs) d).

Definition bload32 (a : Z) : B Z := gets (fun s => le_val (bytes_at (bmem s) a 4)).
Definition bload16 (a : Z) : B Z := gets (fun s => le_val (bytes_at (bmem s) a 2)).

Fixpoint wait_loop (fuel : nat) : B unit :=
  match fuel with
  | O => blocks "waitdisk"
  | S fuel => v ← binb 0x1F7; if negb (Z.land v 0xC0 =? 0x40) then wait_loop fuel else mret tt
  end.

Definition waitdisk : B unit := wait_loop polls.

Definition readsect (dst offset : Z) : B unit :=
  waitdisk;;
  boutb 0x1F2 1;;
  boutb 0x1F3 offset;;
  boutb 0x1F4 (Z.shiftr offset 8);;
  boutb 0x1F5 (Z.shiftr offset 16);;
  boutb 0x1F6 (Z.lor (Z.shiftr offset 24) 0xE0);;
  boutb 0x1F7 0x20;;
  waitdisk;;
  binsl 0x1F0 dst (SECTSIZE / 4).

Fixpoint seg_loop (fuel : nat) (pa epa offset : Z) : B unit :=
  match fuel with
  | O => mret tt
  | S fuel =>
      if pa <? epa then
        readsect pa offset;;
        seg_loop fuel (u32 (pa + SECTSIZE)) epa (u32 (offset + 1))
      else mret tt
  end.

(** A round of the loop reads 512 bytes. *)
Definition readseg (pa count offset : Z) : B unit :=
  let epa := u32 (pa + count) in
  let pa := u32 (pa - offset mod SECTSIZE) in
  seg_loop (Z.to_nat (count / SECTSIZE) + 3) pa epa (offset / SECTSIZE + 1).

(** The loop over the program headers; a round passes one. *)
Fixpoint ph_loop (n : nat) (ph eph : Z) : B unit :=
  match n with
  | O => mret tt
  | S n =>
    if ph <? eph then
      pa ← bload32 (ph + 12);
      filesz ← bload32 (ph + 16);
      off ← bload32 (ph + 4);
      readseg pa filesz off;;
      memsz ← bload32 (ph + 20);
      filesz ← bload32 (ph + 16);
      when (filesz <? memsz) (modify (fun s => mkBst (stosb (bmem s) (u32 (pa + filesz)) 0 (memsz - filesz)) (bdev s)));;
      ph_loop n (u32 (ph + sizeof_proghdr)) eph
    else mret tt
  end.

Definition bootmain : B bres :=
  let elf := elf_scratch in
  readseg elf 4096 0;;
  magic ← bload32 elf;
  if negb (magic =? ELF_MAGIC) then mret BReturn
  else
    phoff ← bload32 (elf + 28);
    phnum ← bload16 (elf + 44);
    let ph := u32 (elf + phoff) in
    ph_loop (Z.to_nat phnum) ph (u32 (ph + phnum * sizeof_proghdr));;
    entry ← bload32 (elf + 24);
    mret (BEntry entry).
End boot.

(** * What is read *)

Section loader.
Context {D : Type} `{IdeDisk D}.
Context (polls : nat) (Hpolls : (dk_delay < polls)%nat).

#[local] Set Default Proof Using "Type*".

Definition same_disk (d d' : D) : Prop := forall x b, dk_block d' x b = dk_block d x b.

Lemma wp_wait_loop fuel n s (Q : unit -> bst D -> Prop) :
  (n < fuel)%nat -> idle (fst (pt_inb 0x1f7 (polled n (bdev s)))) ->
  (forall d, dk_phase d = dk_phase (bdev s) -> (forall q, dk_reg d q = dk_reg (bdev s) q) -> same_disk (bdev s) d -> Q tt (mkBst (bmem s) d)) ->
  wp (wait_loop fuel) s Q.
Proof.
  clear Hpolls. revert n s Q. induction fuel as [|fuel IH]; intros n s Q Hn Hid HQ; [lia|]. cbn [wait_loop]. apply wp_bind.
  unfold binb, act. destruct (pt_inb 0x1F7 (bdev s)) as [r d] eqn:E. exists r, (mkBst (bmem s) d). split; [by rewrite E|].
  pose proof (dk_poll (bdev s)) as (P1 & P2 & P3). rewrite E in P1, P2, P3. cbn [snd] in *.
  change (Z.land r 0xC0 =? 0x40) with (Z.land r (Z.lor IDE_BSY IDE_DRDY) =? IDE_DRDY).
  destruct (Z.eqb_spec (Z.land r (Z.lor IDE_BSY IDE_DRDY)) IDE_DRDY) as [Er|Er]; cbn [negb]; [by apply wp_ret, HQ|].
  destruct n as [|n]; [cbn [polled] in Hid; rewrite E in Hid; done|]. cbn [polled] in Hid. rewrite E in Hid. cbn [snd] in Hid.
  apply (IH n); [lia|done|]. intros d' A1 A2 A3. cbn [bdev bmem] in *. apply HQ; [congruence|intros q; by rewrite A2|intros x b; by rewrite A3].
Qed.

Lemma wp_waitdisk s (Q : unit -> bst D -> Prop) :
  (forall d, dk_phase d = dk_phase (bdev s) -> (forall q, dk_reg d q = dk_reg (bdev s) q) -> same_disk (bdev s) d -> Q tt (mkBst (bmem s) d)) ->
  wp (waitdisk polls) s Q.
Proof. intros HQ. destruct (dk_ready (bdev s)) as (n & Hn & Hid). apply (wp_wait_loop polls n); [lia|done|done]. Qed.

Lemma wp_boutb p v s (Q : unit -> bst D -> Prop) :
  dk_phase (bdev s) = Ready -> p ∈ [0x3f6; 0x1f2; 0x1f3; 0x1f4; 0x1f5; 0x1f6] ->
  (forall d, dk_phase d = Ready -> (forall q, dk_reg d q = if q =? p then u8 v else dk_reg (bdev s) q) -> same_disk (bdev s) d -> Q tt (mkBst (bmem s) d)) ->
  wp (boutb p v) s Q.
Proof. clear Hpolls. intros Hr Hp HQ. apply wp_modify. destruct (dk_set p (u8 v) (bdev s) Hr Hp) as (H1 & H2 & H3). by apply HQ. Qed.

Lemma lba_sector n : 0 <= n < 2 ^ 24 ->
  u8 n + 256 * u8 (Z.shiftr n 8) + 65536 * u8 (Z.shiftr n 16) = n /\ Z.shiftr n 24 = 0.
Proof. clear Hpolls. intros Hn. rewrite !Z.shiftr_div_pow2 by lia. split; [|apply Z.div_small; lia]. unfold u8. zdm. Qed.

Lemma wp_readsect dst n s (Q : unit -> bst D -> Prop) :
  dk_phase (bdev s) = Ready -> 0 <= n < 2 ^ 24 ->
  (forall d, dk_phase d = Ready -> same_disk (bdev s) d -> Q tt (mkBst (write_bytes (bmem s) dst (dk_block (bdev s) 0 n)) d)) ->
  wp (readsect polls dst n) s Q.
Proof.
  intros Hr Hn HQ. unfold readsect. destruct (lba_sector n Hn) as [Hlba Hhi]. rewrite Hhi.
  apply wp_bind, wp_waitdisk. intros d0 P0 R0 S0. rewrite Hr in P0.
  apply wp_bind, wp_boutb; [done|port|]. intros d1 P1 R1 S1. apply wp_bind, wp_boutb; [done|port|]. intros d2 P2 R2 S2.
  apply wp_bind, wp_boutb; [done|port|]. intros d3 P3 R3 S3. apply wp_bind, wp_boutb; [done|port|]. intros d4 P4 R4 S4.
  apply wp_bind, wp_boutb; [done|port|]. intros d5 P5 R5 S5. cbn [bdev bmem] in *.
  apply wp_bind, wp_modify. change (u8 0x20) with IDE_CMD_READ. cbn [bdev bmem].
  assert (dk_reg d5 0x1f2 = 1) as Hcount by (rewrite R5, R4, R3, R2, R1; reflexivity).
  destruct (dk_read d5 P5 Hcount) as [P6 S6]. set (d6 := pt_outb 0x1F7 IDE_CMD_READ d5) in *.
  assert (drive_of (dk_reg d5) = 0) as Hdrive by (unfold drive_of; rewrite R5; reflexivity).
  assert (lba_of (dk_reg d5) = n) as Hblock.
  { unfold lba_of. rewrite !R5, !R4, !R3, !R2. cbn [Z.eqb Pos.eqb]. change (Z.land (u8 (Z.lor 0 0xE0)) 0xf) with 0. lia. }
  rewrite Hdrive, Hblock in P6. apply wp_bind, wp_waitdisk. cbn [bdev bmem]. intros d7 P7 R7 S7. unfold binsl. apply wp_modify. cbn [bdev bmem].
  change (SECTSIZE / 4) with (SECTOR_SIZE / 4). rewrite P6 in P7. destruct (dk_take d7 0 n P7) as (T1 & T2 & T3).
  destruct (pt_insl 0x1F0 (SECTOR_SIZE / 4) d7) as [bs d8]. cbn [fst snd] in *. subst bs.
  assert (same_disk (bdev s) d7) as Hs by (intros x b; by rewrite S7, S6, S5, S4, S3, S2, S1, S0).
  rewrite (Hs 0 n). apply HQ; [done|]. intros x b. by rewrite T3, Hs.
Qed.

(** The bytes of the kernel file, which starts at sector 1. *)
Definition file_byte (disk : Z -> list Z) (x : Z) : Z := u8 (nth (Z.to_nat (x mod SECTSIZE)) (disk (x / SECTSIZE + 1)) 0).

(** The disk is idle and holds the sectors. *)
Definition holds (disk : Z -> list Z) (s : bst D) : Prop := dk_phase (bdev s) = Ready /\ forall b, dk_block (bdev s) 0 b = disk b.

Lemma sector_byte disk s n m dst x :
  holds disk s -> 0 < n ->
  write_bytes m dst (dk_block (bdev s) 0 n) x =
  if decide (dst <= x < dst + SECTSIZE) then file_byte disk (x - dst + SECTSIZE * (n - 1)) else m x.
Proof.
  clear Hpolls. intros [_ Hd] Hn. rewrite write_bytes_spec, dk_len. change (Z.of_nat (Z.to_nat SECTOR_SIZE)) with SECTSIZE. unfold SECTSIZE in *.
  case_decide as Hx; [|done]. unfold file_byte, SECTSIZE. rewrite (Z.mul_comm 512), Z.mod_add, Z.div_add, Z.mod_small, Z.div_small by lia.
  rewrite Hd. by replace (0 + (n - 1) + 1) with n by lia.
Qed.

Lemma wp_seg_loop disk n : forall fuel pa epa offset s (Q : unit -> bst D -> Prop),
  holds disk s -> (n <= fuel)%nat -> epa <= pa + SECTSIZE * Z.of_nat n < epa + SECTSIZE -> 0 <= pa -> pa + SECTSIZE * Z.of_nat n < 2 ^ 32 ->
  0 < offset -> offset + Z.of_nat n < 2 ^ 24 ->
  (forall t, holds disk t ->
     (forall x, bmem t x = if decide (pa <= x < pa + SECTSIZE * Z.of_nat n) then file_byte disk (x - pa + SECTSIZE * (offset - 1)) else bmem s x) -> Q tt t) ->
  wp (seg_loop polls fuel pa epa offset) s Q.
Proof.
  unfold SECTSIZE in *. induction n as [|n IH]; intros fuel pa epa offset s Q Hh Hf He Hpa Hw Ho Hoff HQ.
  - assert (wp (mret tt : M (bst D) unit) s Q) as Hend. { apply wp_ret, HQ; [done|]. intros x. by rewrite decide_False by lia. }
    destruct fuel as [|fuel]; [done|]. cbn [seg_loop]. by replace (pa <? epa) with false by lia.
  - destruct fuel as [|fuel]; [lia|]. cbn [seg_loop]. replace (pa <? epa) with true by lia. pose proof Hh as [Hr Hd].
    apply wp_bind, wp_readsect; [done|lia|]. intros d Hrd Hsame.
    unfold SECTSIZE. rewrite (u32_small (pa + 512)), (u32_small (offset + 1)) by lia.
    apply (IH fuel); try lia; [split; [done|]; cbn [bdev]; intros b; by rewrite Hsame|].
    intros t Ht Hx. apply HQ; [done|]. intros x. rewrite Hx. cbn [bmem]. rewrite (sector_byte disk s) by done. unfold SECTSIZE.
    repeat case_decide; try lia; f_equal; lia.
Qed.

(** readseg: the bytes asked for are there, and whole sectors around them. *)
Lemma wp_readseg disk pa count off s (Q : unit -> bst D -> Prop) :
  let lo := pa - off mod SECTSIZE in let n := (count + off mod SECTSIZE + 511) / SECTSIZE in
  holds disk s -> 0 <= lo -> 0 <= count -> pa + count + SECTSIZE < 2 ^ 32 -> 0 <= off -> off + count + SECTSIZE < 2 ^ 32 ->
  (forall t, holds disk t ->
     (forall x, bmem t x = if decide (lo <= x < lo + SECTSIZE * n) then file_byte disk (x - pa + off) else bmem s x) -> Q tt t) ->
  wp (readseg polls pa count off) s Q.
Proof.
  intros lo n Hh Hlo Hc Hw Ho Hoff HQ. unfold readseg. fold lo. unfold SECTSIZE in *.
  pose proof (Z.mod_pos_bound off 512 ltac:(lia)) as Hm. pose proof (Z.div_mod off 512 ltac:(lia)) as Hdm.
  assert (512 * n - 511 <= count + off mod 512 <= 512 * n) as Hn by (unfold n; zdm). assert (0 <= n) as Hn0 by lia.
  rewrite (u32_small (pa + count)), (u32_small lo) by (unfold lo in *; lia).
  apply (wp_seg_loop disk (Z.to_nat n)); unfold SECTSIZE; rewrite ?Z2Nat.id by lia; try done; try (unfold lo in *; lia).
  - enough (n <= count / 512 + 2) by lia. unfold n. zdm.
  - intros t Ht Hx. apply HQ; [done|]. intros x. rewrite Hx. case_decide; [|done]. f_equal. unfold lo. lia.
Qed.
End loader.

(** * The kernel as the ELF file says *)

Definition file32 (disk : Z -> list Z) (o : Z) : Z := le_val (bytes_at (file_byte disk) o 4).
Definition file16 (disk : Z -> list Z) (o : Z) : Z := le_val (bytes_at (file_byte disk) o 2).

Record pseg := mkSeg { p_off : Z; p_paddr : Z; p_filesz : Z; p_memsz : Z }.

(** Program header [k] of the file. *)
Definition seg_at (disk : Z -> list Z) (k : nat) : pseg :=
  let o := file32 disk 28 + 32 * Z.of_nat k in
  mkSeg (file32 disk (o + 4)) (file32 disk (o + 12)) (file32 disk (o + 16)) (file32 disk (o + 20)).

Definition seg_lo (g : pseg) : Z := p_paddr g - p_off g mod SECTSIZE.
Definition seg_end (g : pseg) : Z := p_paddr g + Z.max (p_filesz g) (p_memsz g).

(** The headers are in the first page, the segments above the scratch page and
    in increasing order, with room for whole sectors. *)
Record bootable (disk : Z -> list Z) : Prop := {
  bo_magic : file32 disk 0 = ELF_MAGIC;
  bo_page : file32 disk 28 + 32 * file16 disk 44 <= 4096;
  bo_room k : Z.of_nat k < file16 disk 44 -> elf_scratch + 4096 <= seg_lo (seg_at disk k) /\ seg_end (seg_at disk k) + SECTSIZE < 2 ^ 32 /\
    p_off (seg_at disk k) + p_filesz (seg_at disk k) + SECTSIZE < 2 ^ 32;
  bo_order i j : (i < j)%nat -> Z.of_nat j < file16 disk 44 -> seg_end (seg_at disk i) <= seg_lo (seg_at disk j) }.

(** The segment in memory: the bytes of the file, then zeros. *)
Definition in_memory (disk : Z -> list Z) (m : mem) (g : pseg) : Prop :=
  (forall x, 0 <= x < p_filesz g -> m (p_paddr g + x) = file_byte disk (p_off g + x)) /\
  (forall x, p_filesz g <= x < p_memsz g -> m (p_paddr g + x) = 0).

Lemma bytes_at_shift (m m' : mem) a b n : (forall i, 0 <= i < Z.of_nat n -> m (a + i) = m' (b + i)) -> bytes_at m a n = bytes_at m' b n.
Proof.
  revert a b. induction n as [|n IH]; intros a b H; [done|]. cbn [bytes_at]. f_equal.
  - specialize (H 0 ltac:(lia)). by rewrite !Z.add_0_r in H.
  - apply IH. intros i Hi. specialize (H (i + 1) ltac:(lia)). by rewrite !(Z.add_comm i), !Z.add_assoc in H.
Qed.

Lemma stosb_at m a n x : 0 <= n -> stosb m a 0 n x = if decide (a <= x < a + n) then 0 else m x.
Proof.
  intros Hn. unfold stosb. rewrite stosb_loop_spec, Z2Nat.id by done. case_decide.
  - by replace (a <=? x) with true by lia; replace (x <? a + n) with true by lia.
  - destruct (Z.leb_spec a x), (Z.ltb_spec x (a + n)); try done. lia.
Qed.

Lemma file_bytes disk o n : bytes (bytes_at (file_byte disk) o n).
Proof.
  revert o. induction n as [|n IH]; intros o; [constructor|]. cbn [bytes_at]. constructor; [|apply IH]. unfold file_byte, u8. apply Z.mod_pos_bound. lia.
Qed.

Lemma file32_range disk o : 0 <= file32 disk o < 2 ^ 32.
Proof. pose proof (le_val_range _ (file_bytes disk o 4)) as H. by rewrite length_bytes_at in H. Qed.

Lemma file16_range disk o : 0 <= file16 disk o < 2 ^ 16.
Proof. pose proof (le_val_range _ (file_bytes disk o 2)) as H. by rewrite length_bytes_at in H. Qed.

Lemma seg_nonneg disk k : let g := seg_at disk k in 0 <= p_off g /\ 0 <= p_paddr g /\ 0 <= p_filesz g /\ 0 <= p_memsz g.
Proof. cbn [seg_at p_off p_paddr p_filesz p_memsz]. repeat split; apply file32_range. Qed.

Section bootload.
Context {D : Type} `{IdeDisk D}.
Context (polls : nat) (Hpolls : (dk_delay < polls)%nat) (disk : Z -> list Z) (Hboot : bootable disk).
Implicit Types s : bst D.

#[local] Set Default Proof Using "Type*".

(** The scratch page has the first page of the file. *)
Definition header s : Prop := forall x, 0 <= x < 4096 -> bmem s (elf_scratch + x) = file_byte disk x.

Lemma wp_bload32 o s (Q : Z -> bst D -> Prop) : header s -> 0 <= o -> o + 4 <= 4096 -> Q (file32 disk o) s -> wp (bload32 (elf_scratch + o)) s Q.
Proof using Type.
  clear Hpolls Hboot. intros Hh Ho Ho' HQ. apply wp_gets. unfold file32 in HQ.
  rewrite <- (bytes_at_shift (bmem s) (file_byte disk) (elf_scratch + o) o 4) in HQ; [done|]. intros i Hi. rewrite <- Z.add_assoc. apply Hh. lia.
Qed.

Lemma wp_bload16 o s (Q : Z -> bst D -> Prop) : header s -> 0 <= o -> o + 2 <= 4096 -> Q (file16 disk o) s -> wp (bload16 (elf_scratch + o)) s Q.
Proof using Type.
  clear Hpolls Hboot. intros Hh Ho Ho' HQ. apply wp_gets. unfold file16 in HQ.
  rewrite <- (bytes_at_shift (bmem s) (file_byte disk) (elf_scratch + o) o 2) in HQ; [done|]. intros i Hi. rewrite <- Z.add_assoc. apply Hh. lia.
Qed.

(** One program header: its segment is in memory, what is below stays. *)
Lemma wp_segment k s (m : M (bst D) unit) (Q : unit -> bst D -> Prop) :
  let ph := elf_scratch + (file32 disk 28 + 32 * Z.of_nat k) in let g := seg_at disk k in
  Z.of_nat k < file16 disk 44 -> holds disk s -> header s ->
  (forall t, holds disk t -> in_memory disk (bmem t) g -> (forall x, x < seg_lo g -> bmem t x = bmem s x) -> wp m t Q) ->
  wp (pa ← bload32 (ph + 12); filesz ← bload32 (ph + 16); off ← bload32 (ph + 4);
      readseg polls pa filesz off;;
      memsz ← bload32 (ph + 20);
      filesz ← bload32 (ph + 16);
      when (filesz <? memsz) (modify (fun s => mkBst (stosb (bmem s) (u32 (pa + filesz)) 0 (memsz - filesz)) (bdev s)));;
      m) s Q.
Proof.
  intros ph g Hk Hh Hhd HQ. pose proof (bo_page _ Hboot) as Hp. pose proof (file32_range disk 28) as Hoff. destruct (bo_room _ Hboot k Hk) as (Hlo & Hend & Hfo).
  fold g in Hlo, Hend, Hfo. destruct (seg_nonneg disk k) as (N1 & N2 & N3 & N4). fold g in N1, N2, N3, N4.
  set (o := file32 disk 28 + 32 * Z.of_nat k) in *. assert (0 <= o /\ o + 32 <= 4096) as Ho by lia. unfold ph. rewrite <- !Z.add_assoc.
  apply wp_bind, wp_bload32; [done|lia|lia|]. apply wp_bind, wp_bload32; [done|lia|lia|]. apply wp_bind, wp_bload32; [done|lia|lia|].
  change (file32 disk (o + 12)) with (p_paddr g). change (file32 disk (o + 16)) with (p_filesz g). change (file32 disk (o + 4)) with (p_off g).
  unfold seg_lo, seg_end in *. pose proof (Z.mod_pos_bound (p_off g) SECTSIZE ltac:(done)) as Hm.
  apply wp_bind, (wp_readseg polls Hpolls disk); [done|unfold elf_scratch in *; lia|lia|lia|lia|lia|]. intros t Ht Hx.
  set (n := (p_filesz g + p_off g mod SECTSIZE + 511) / SECTSIZE) in *.
  assert (p_filesz g + p_off g mod SECTSIZE <= SECTSIZE * n) as Hn by (unfold n, SECTSIZE; zdm).
  assert (header t) as Hht. { intros x Hr. rewrite Hx, decide_False by lia. by apply Hhd. }
  apply wp_bind, wp_bload32; [done|lia|lia|]. apply wp_bind, wp_bload32; [done|lia|lia|].
  change (file32 disk (o + 20)) with (p_memsz g). change (file32 disk (o + 16)) with (p_filesz g).
  rewrite u32_small by (unfold elf_scratch, SECTSIZE in *; lia). apply wp_bind, wp_when; intros Hcmp.
  - apply wp_modify. apply HQ; [done| |].
    + split; intros x Hr; cbn [bmem]; rewrite stosb_at by lia.
      * rewrite decide_False by lia. rewrite Hx, decide_True by lia. f_equal. lia.
      * by rewrite decide_True by lia.
    + intros x Hr. cbn [bmem]. rewrite stosb_at, decide_False by lia. by rewrite Hx, decide_False by lia.
  - apply HQ; [done| |].
    + split; intros x Hr; [|lia]. rewrite Hx, decide_True by lia. f_equal. lia.
    + intros x Hr. by rewrite Hx, decide_False by lia.
Qed.

Lemma wp_ph_loop n : forall k s (Q : unit -> bst D -> Prop),
  Z.of_nat (k + n) = file16 disk 44 -> holds disk s -> header s -> (forall j, (j < k)%nat -> in_memory disk (bmem s) (seg_at disk j)) ->
  (forall t, header t -> (forall j, Z.of_nat j < file16 disk 44 -> in_memory disk (bmem t) (seg_at disk j)) -> Q tt t) ->
  wp (ph_loop polls n (elf_scratch + (file32 disk 28 + 32 * Z.of_nat k)) (elf_scratch + (file32 disk 28 + 32 * file16 disk 44))) s Q.
Proof.
  pose proof (bo_page _ Hboot) as Hpage. pose proof (file32_range disk 28) as Hoff.
  induction n as [|n IH]; intros k s Q Hk Hh Hhd Hdone HQ; cbn [ph_loop].
  { apply wp_ret, HQ; [done|]. intros j Hj. apply Hdone. lia. }
  replace (_ <? _) with true by lia. apply wp_segment; [lia|done|done|]. intros t Ht Hin Hbelow. destruct (bo_room _ Hboot k ltac:(lia)) as (Hlo & _).
  rewrite u32_small by (unfold elf_scratch, sizeof_proghdr in *; lia).
  replace (elf_scratch + (file32 disk 28 + 32 * Z.of_nat k) + sizeof_proghdr) with (elf_scratch + (file32 disk 28 + 32 * Z.of_nat (S k))) by (unfold sizeof_proghdr; lia).
  apply IH; [lia|done| | |done].
  - intros x Hx. rewrite Hbelow; [by apply Hhd|]. unfold elf_scratch in *. lia.
  - intros j Hj. destruct (decide (j = k)) as [->|Hne]; [done|]. destruct (Hdone j ltac:(lia)) as [H1 H2].
    pose proof (bo_order _ Hboot j k ltac:(lia) ltac:(lia)) as Hord. unfold seg_end in Hord.
    split; intros x Hx; (rewrite Hbelow by lia); auto.
Qed.
End bootload.

(** C35. The boot loader.  On a disk whose first page is no ELF header bootmain
    returns to bootasm.S.  Given a kernel whose headers are in the first page and
    whose segments lie above the scratch page in increasing order, it calls the
    entry point of the file with every segment in memory: the bytes of the file
    at its physical address, then zeros up to memsz, although whole sectors were
    read around each segment. *)
Theorem bootmain_loads {D} `{IdeDisk D} polls disk (s : bst D) :
  (dk_delay < polls)%nat -> holds disk s ->
  (file32 disk 0 <> ELF_MAGIC -> exists t, bootmain polls s = Ok (BReturn, t)) /\
  (bootable disk -> exists t, bootmain polls s = Ok (BEntry (file32 disk 24), t) /\
     forall k, Z.of_nat k < file16 disk 44 -> in_memory disk (bmem t) (seg_at disk k)).
Proof.
  intros Hpolls Hh. assert (forall (m : M (bst D) bres) Q, (forall t, holds disk t -> header disk t -> wp m t Q) -> wp (readseg polls elf_scratch 4096 0;; m) s Q) as Hread.
  { intros m Q HQ. apply wp_bind, (wp_readseg polls Hpolls disk); [done|done|done|done|done|done|]. intros t Ht Hx. apply HQ; [done|].
    intros x Hr. rewrite Hx, decide_True; [f_equal; lia|]. change ((4096 + 0 mod SECTSIZE + 511) / SECTSIZE) with 8. unfold elf_scratch, SECTSIZE. change (0 mod 512) with 0. lia. }
  split.
  - intros Hm. cut (wp (bootmain polls) s (fun r _ => r = BReturn)); [intros (r & t & Hr & ->); by exists t|]. unfold bootmain. apply Hread. intros t Ht Hhd.
    apply wp_bind. apply (wp_bload32 disk 0); [done|lia|lia|]. replace (file32 disk 0 =? ELF_MAGIC) with false by lia. by apply wp_ret.
  - intros Hboot. pose proof (bo_page _ Hboot) as Hpage. pose proof (file32_range disk 28). pose proof (file16_range disk 44).
    cut (wp (bootmain polls) s (fun r t => r = BEntry (file32 disk 24) /\ forall k, Z.of_nat k < file16 disk 44 -> in_memory disk (bmem t) (seg_at disk k)));
      [intros (r & t & Hr & -> & Hin); by exists t|].
    unfold bootmain. apply Hread. intros t Ht Hhd. apply wp_bind. apply (wp_bload32 disk 0); [done|lia|lia|]. rewrite (bo_magic _ Hboot), Z.eqb_refl. cbn [negb].
    apply wp_bind, (wp_bload32 disk 28); [done|lia|lia|]. apply wp_bind, (wp_bload16 disk 44); [done|lia|lia|]. apply wp_bind.
    rewrite !u32_small by (unfold elf_scratch, sizeof_proghdr; rewrite ?u32_small; lia).
    pose proof (wp_ph_loop polls Hpolls disk Hboot (Z.to_nat (file16 disk 44)) 0 t) as Hl. rewrite Z.add_0_r in Hl.
    replace (elf_scratch + file32 disk 28 + file16 disk 44 * sizeof_proghdr) with (elf_scratch + (file32 disk 28 + 32 * file16 disk 44)) by (unfold sizeof_proghdr; lia).
    apply Hl; [lia|done|done|lia|]. intros u Hu Hin. apply wp_bind, (wp_bload32 disk 24); [done|lia|lia|]. by apply wp_ret.
Qed.

Module BootDemo.
Import IdeDemo.
(** A kernel of one segment: three bytes at 0x100000 and two zeros. *)
Definition elf : list Z :=
  le32 ELF_MAGIC ++ replicate 20 0 ++ le32 0x10000C ++ le32 52 ++ replicate 12 0 ++ le16 1 ++ replicate 6 0 ++
  le32 1 ++ le32 512 ++ le32 0x80100000 ++ le32 0x100000 ++ le32 3 ++ le32 5 ++ replicate 8 0.
Definition sectors (x b : Z) : list Z := if b =? 1 then elf else if b =? 2 then [11; 12; 13; 14] else [].
Definition start : bst good := mkBst (fun _ => 255) (mkGood (mkCtl (fun _ => 0) Ready sectors false IDE_DRDY)).
Definition disk (b : Z) : list Z := dk_block (bdev start) 0 b.
End BootDemo.

Lemma bootmain_loads_witness :
  exists t, bootmain 3 BootDemo.start = Ok (BEntry 0x10000C, t) /\ bmem t (0x100000 + 2) = 13 /\ bmem t (0x100000 + 4) = 0.
Proof.
  destruct (bootmain_loads (D := IdeDemo.good) 3 BootDemo.disk BootDemo.start) as [_ H].
  - cbn. lia.
  - split; [reflexivity|]. intros b. reflexivity.
  - destruct H as (t & Ht & Hin).
    + split.
      * vm_compute. reflexivity.
      * vm_compute. discriminate.
      * intros [|k] Hk; [vm_compute; split; [intros E; discriminate E|split; reflexivity]|]. assert (file16 BootDemo.disk 44 = 1) as E by (vm_compute; reflexivity). rewrite E in Hk. lia.
      * intros i [|j] Hij Hj; [lia|]. assert (file16 BootDemo.disk 44 = 1) as E by (vm_compute; reflexivity). rewrite E in Hj. lia.
    + exists t. split; [exact Ht|]. destruct (Hin 0%nat) as [H1 H2]; [vm_compute; reflexivity|].
      assert (seg_at BootDemo.disk 0 = mkSeg 512 0x100000 3 5) as E by (vm_compute; reflexivity). rewrite E in H1, H2. cbn in H1, H2. split.
      * rewrite (H1 2 ltac:(lia)). vm_compute. reflexivity.
      * apply (H2 4). lia.
Defined.
